(* ===== verification/_CoqProject ===== *)
-Q . S2P
Prelude.v
State.v
Bytes.v
Memory.v
SArray.v
Runs.v
Bits.v
Queues.v
Floats.v
Global.v
Meter.v
BlockMgr.v
TreeBlockMgr.v
BitmapBlockMgr.v
GradPacket.v
Wire.v
Framing.v
LtMessage.v
Packetizer.v
Transfer.v
Comm.v
PriorityChannel.v
Sender.v
ReceivingChannel.v
Receiver.v
Delivery.v
ReliableChannel.v
Communicator.v
Control.v
Flow.v
FlowProtocol.v
FlowState.v
FlowSender.v
FlowReceiver.v
FlowRefine.v
FlowSafety.v
FlowProgress.v
FlowTurns.v
FlowTheorems.v
PsMessage.v
Ps.v
Resender.v
Postoffice.v
Van.v
Cluster.v
ZmqVan.v
RdmaMem.v
RdmaUtils.v
RdmaState.v
RdmaTransport.v
RdmaVan.v
RdmaDelivery.v
RdmaRendezvous.v
RdmaFrame.v
RdmaPush.v
RdmaExample.v
RdmaPull.v
RdmaRounds.v
RdmaSlots.v
RdmaConn.v
RdmaIpc.v
ZmqDelivery.v
ParallelSort.v
ParallelMatch.v
Customer.v
SimpleApp.v
KVApp.v
Slicer.v
KVRequest.v
KVPull.v
KVServe.v
KVRoundtrip.v
Serializer.v
SerializerFacts.v
SerializerRoundtrip.v
ResultType.v
