(* ===== verification/Prelude.v ===== *)
(** * A verification of ps-lite with the MLT transport

    The program is a parameter server (ps-lite, src/include/ps and src/src) and
    a loss-tolerant transport for gradients (MLT, src/src/mlt).

    ** The program

    The transport sends a gradient message as UDP datagrams and everything else
    over one TCP connection per peer. [MLTCommunicator] is the interface of the
    user; its three threads are the priority channel, which cuts messages into
    packets and sends them on sockets of different type of service, the
    receiving channel, which puts the packets of a flow in place, asks for
    missing ones and stops a flow once enough has arrived, and the reliable
    channel, which carries the signals between them (flow start and finish,
    retransmit request, stop request and confirmation, rate adjustment, user
    data). The threads exchange requests and notifications through
    single-producer queues; block managers record which packets of a flow are
    missing.

    The parameter server is a scheduler, servers and workers. The van sends and
    receives messages, registers nodes and runs barriers and heartbeats; the
    resender makes delivery reliable; the post office knows the nodes, their
    groups and the key ranges of the servers, and the customers of the
    applications on its node; a customer numbers requests and counts answers;
    the simple application and the key-value workers and servers are built on
    customers.

    ** The model

    C++ functions are Rocq functions with the same names (methods carry the name
    of their class or component where the name alone would be ambiguous).
    Integers are [Z] with the wrap-around of their type written out ([u8] to
    [u64], [s32]); memory is bytes. A call returns an [outcome]: a value, a
    process stopped by [CHECK] or [LOG(FATAL)], or undefined behaviour. Stateful
    code runs in a state-and-outcome monad (State.v, Ps.v) or passes the state.
    A thread's loop is a function for one turn, so that theorems speak of
    sequences of turns; what a thread reads from sockets, clocks, epoll and the
    environment is an argument. A function that waits is split into what it does
    before the wait and the condition it waits for.

    - Prelude.v, State.v: outcomes, machine integers, monads, tactics and the
      hint database; list, order and byte lemmas that the files share.
    - Bytes.v, Memory.v, Bits.v, Runs.v, Floats.v: little-endian values and
      dmlc's memory stream; typed fields in flat memory; bits of 64-bit words;
      maximal runs of a set of numbers; binary32 and binary64.
    - Serializer.v (dmlc's serializer.h, endian.h and the streams of memory_io.h,
      as instances of a class with laws), SerializerFacts.v (the format, and that
      every handler writes and reads it), SerializerRoundtrip.v.
    - ResultType.v: prism's [Result] (result.h) over storage with lifetimes.

    Transport:
    - BlockMgr.v: the interface of block_mgr.h as a type class over an abstract
      set of free numbers; TreeBlockMgr.v and BitmapBlockMgr.v: the two
      implementations (tree_block_mgr.h, bitmap_block_mgr.h) and their
      refinement of the interface.
    - Queues.v (spsc_queue.h, threadsafe_queue.h, completion.cc), Global.v
      (mlt_global.cc), Meter.v (meter.h).
    - GradPacket.v (grad_packet.h), Wire.v (buffer.h and the signals of
      ltmessage.h), LtMessage.v (ltmessage.h), Framing.v (the byte streams of
      rd_endpoint.cc), Packetizer.v (packetizer.cc, prio_func.h).
    - Comm.v: the state that the threads share. PriorityChannel.v
      (priority_channel.cc, udp_endpoint.cc), ReceivingChannel.v
      (receiving_channel.cc, conn_meta.cc), ReliableChannel.v
      (reliable_channel.cc, [HandleReceivedData] of rd_endpoint.cc),
      Communicator.v (mlt_communicator.cc).
    - Transfer.v, Sender.v, Receiver.v, Delivery.v, Control.v: the theorems
      about them.
    - A flow from end to end: Flow.v (two communicators and the network as a state
      machine, whose actions are turns of single handlers), FlowProtocol.v (the
      protocol as an abstract automaton with its invariant), FlowState.v (what the
      communicators look like in a state of the protocol), FlowSender.v,
      FlowReceiver.v and FlowRefine.v (every action is a step of the protocol),
      FlowSafety.v, FlowProgress.v (a measure that turns bring down), FlowTurns.v
      (the bodies of the loops of the threads as sequences of actions),
      FlowTheorems.v (the theorems, and a concrete flow).

    Parameter server:
    - SArray.v (sarray.h, arrays over a heap, with sharing), ParallelSort.v
      (parallel_sort.h), ParallelMatch.v (the threads of parallel_kv_match.h).
    - PsMessage.v (message.h, meta.h, [PackMeta] and [UnpackMeta] of van.cc),
      Ps.v (the state of a process), Resender.v (resender.h, [Van::Send]),
      Postoffice.v (postoffice.cc), Van.v (van.cc), Customer.v (customer.cc),
      SimpleApp.v (simple_app.h), KVApp.v (kv_app.h).
    - Cluster.v: the scheduler's tables of nodes over any history of messages.
    - ZmqVan.v (zmq_van.h, the van over ZeroMQ) with its theorems in
      ZmqDelivery.v.
    - The van over RDMA: RdmaMem.v (memory by address), RdmaUtils.v (the address
      pool and helpers of rdma_utils.h), RdmaState.v (endpoints, tables, work
      requests), RdmaTransport.v (rdma_transport.h, both transports),
      RdmaVan.v ([SendMsg], [RecvMsg] and the completion thread of rdma_van.h),
      RdmaConn.v (its connections and event thread, with their theorems).
      RdmaDelivery.v states what the verbs do (the class [Verbs]) and follows the
      requests of a message; RdmaRendezvous.v has the rendezvous of any message,
      RdmaFrame.v what an exchange leaves as it was, RdmaPush.v and RdmaPull.v one
      push and one pull, RdmaRounds.v any sequence of them, RdmaExample.v a verbs
      library for the witnesses; RdmaSlots.v and RdmaIpc.v hold the theorems about
      the address pool and shared memory.
    - Slicer.v, KVRequest.v, KVPull.v, KVServe.v, KVRoundtrip.v: the theorems
      about key-value requests.

    ** What is shown

    - Transport, data: packets cut from a message are the message; delivered in
      any order and any number of times their bytes, as the receiver finds them,
      are put in place and counted once (Transfer.v, Packetizer.v); the sender's
      turns that the rate limit lets pass send a message packet by packet and
      serve retransmit requests exactly (Sender.v); the receiver
      completes a flow, asks for exactly what is missing and needs no more than
      that to complete (Delivery.v).
    - Transport, flows: for a loss bound that is positive and at most the size,
      whatever order the threads run in and whatever datagrams the network loses
      and repeats, the handlers refine the abstract protocol and none fails; each
      side completes at most once, the sender first and only when the bound is
      reached; the user's memory holds the packets that have arrived, as the
      receiving channel leaves them, which overwrites the first eight bytes of
      each; and from every state a bounded number of turns completes the flow, if
      the rate limit holds back no more than so many polls in a row. The loops of
      the threads run such sequences of handlers.
    - Transport, control: framing over a byte stream that arrives in pieces which
      do not cut a length field (Framing.v), agreement on the length of a flow, the stop handshake, meta
      messages (Control.v).
    - Block managers and queues refine an abstract set and a bounded queue, the
      bitmap manager on the histories that avoid its two defects; the ring also
      under every interleaving of its two threads, which may load old values of
      each other's counter.
    - Parameter server: meta data survives packing; delivery is exactly once
      over a network that repeats and reorders, for messages that differ in their
      signatures; registration gives every node an
      id of its own, and no later message changes it; a barrier releases its group
      when the last node has come;
      key ranges partition the keys they cover, and the slicer cuts requests
      along them; a request ends when every node has answered; shared arrays
      refine vectors; the ZeroMQ van delivers what it is given to
      the van that it is for; node groups stand for the nodes of their roles; and from end to
      end, a pull returns what the servers store and a push adds to it, in every
      order of requests and answers.
    - RDMA: a tensor that is pushed first and then pushed and pulled in any order
      arrives each time with the values of that moment, pulls in the worker's own
      memory; both sides
      of a connection agree, and rejected attempts are repeated; slots of the
      address pool are used up, never freed; slots in shared memory do not
      overlap, and a response within a host is in place before it is announced.
    - Serializer: objects of nested types that are written one behind the other
      are read back, on machines of different endianness too if no pair has
      padding, and an input that is cut off is refused. [Result] implements
      sums, and its objects are destroyed once.
    - Defects of the code are theorems too: they state what happens in the case
      that goes wrong, and the theorems about correct behaviour name the
      conditions that exclude it.

    ** Bounds and fuel

    Fuel stands for loops whose recursion is not structural: the ring queue's
    rounding, word scans of the bitmap manager, binary search and sort, the
    loops over sockets and packets. Theorems either show that the fuel suffices
    for every input (it is the length of a list, a word size, or the number of
    packets) or hold for every fuel, as for the loop that does not end.
    The theorems about flows hold for any number of actions that the counters of
    the meters have room for, and completion takes at most 16 turns for each
    packet, 7 for each earlier step, and 20, times one more than the number of
    polls in a row that the rate limit holds back; since the clock is arbitrary,
    that number is a hypothesis.
    Five passes of the verbs suffice for a push, and more change nothing.
    Hypotheses such as counters below 2^31 are those without which the code
    overflows; the witnesses show them to be satisfiable.

    ** What is not modelled

    System calls (sockets, epoll, threads, interface lookup), which are
    arguments; memory orders other than loads of old values of the ring's counters
    (its slots are read and written in program order, more than the relaxed
    [head_] promises); destruction of objects other than what the code does to its tables; ZeroMQ
    and the InfiniBand verbs, whose documented behaviour is a hypothesis, and the
    connection manager, whose events are arguments; mlt_van.h and assign_op.h,
    which do not compile; the logging and the rest of the
    dmlc and prism libraries; test programs, profiling and debug output. In a flow
    from end to end one message is on its way in one direction, and a control
    message crosses in one step, so that the turns of the reliable channel's
    thread are not interleaved with the others below that. *)

(** ** The prelude

    Machine-width integers, the outcome of a C++ call, loops over vectors, the
    development's tactics and hint database. *)

From Stdlib Require Export ZArith Lia.
From stdpp Require Export base tactics numbers list gmap sorting.

Open Scope Z_scope.

(** ** Outcome of a call

    A call returns a value ([Ok]), stops the process in a [CHECK] or a
    [LOG(FATAL)] ([Fatal]), or runs into behaviour that the C++ standard leaves
    undefined, such as reading past the end of a vector ([Undef]). Loops whose
    recursion is not structural carry a fuel; [OutOfFuel] says that it did not
    suffice, and is never the result of the code. *)

Inductive outcome (A : Type) : Type :=
| Ok (a : A)
| Fatal
| Undef
| OutOfFuel.
Arguments Ok {A} a.
Arguments Fatal {A}.
Arguments Undef {A}.
Arguments OutOfFuel {A}.

#[global] Instance outcome_ret : MRet outcome := fun A a => Ok a.
#[global] Instance outcome_bind : MBind outcome := fun A B f m =>
  match m with
  | Ok a => f a
  | Fatal => Fatal
  | Undef => Undef
  | OutOfFuel => OutOfFuel
  end.

(** [CHECK(b)] of dmlc/logging.h: the process stops when [b] is false. *)
Definition CHECK (b : bool) : outcome unit := if b then Ok tt else Fatal.

(** The memory access or builtin is only defined when [b] holds. *)
Definition DEFINED (b : bool) : outcome unit := if b then Ok tt else Undef.

(** The value of an [option], undefined behaviour when there is none. *)
Definition deref {A} (o : option A) : outcome A :=
  match o with Some a => Ok a | None => Undef end.

(** A range-based [for] loop that threads the state [s]. *)
Fixpoint foldM {S A} (f : S -> A -> outcome S) (s : S) (l : list A) : outcome S :=
  match l with
  | [] => Ok s
  | a :: l' => s' ← f s a; foldM f s' l'
  end.

Lemma bind_Ok_iff {A B} (m : outcome A) (f : A -> outcome B) b :
  m ≫= f = Ok b <-> exists a, m = Ok a /\ f a = Ok b.
Proof.
  split.
  - destruct m as [a| | |]; [|done..]. intros H. by exists a.
  - by intros (a & -> & H).
Qed.

Lemma CHECK_Ok_iff b u : CHECK b = Ok u <-> b = true.
Proof. destruct b, u; simpl; naive_solver. Qed.

Lemma DEFINED_Ok_iff b u : DEFINED b = Ok u <-> b = true.
Proof. destruct b, u; simpl; naive_solver. Qed.

Lemma deref_Ok_iff {A} (o : option A) a : deref o = Ok a <-> o = Some a.
Proof. destruct o; simpl; naive_solver. Qed.

Lemma foldM_app {S A} (f : S -> A -> outcome S) s l1 l2 :
  foldM f s (l1 ++ l2) = s' ← foldM f s l1; foldM f s' l2.
Proof.
  revert s. induction l1 as [|a l1 IH]; intros s; [done|].
  simpl. destruct (f s a); simpl; auto.
Qed.

(** Take apart a computation that returned. *)
Ltac inv_ok :=
  repeat match goal with
  | H : _ ≫= _ = Ok _ |- _ =>
      let x := fresh "x" in let H1 := fresh "H" in
      apply bind_Ok_iff in H; destruct H as (x & H1 & H)
  | H : CHECK _ = Ok _ |- _ => apply CHECK_Ok_iff in H
  | H : DEFINED _ = Ok _ |- _ => apply DEFINED_Ok_iff in H
  | H : deref _ = Ok _ |- _ => apply deref_Ok_iff in H
  | H : mret _ = Ok _ |- _ => injection H as H
  | H : Ok _ = Ok _ |- _ => injection H as H
  | u : unit |- _ => destruct u
  end.

(** ** Machine-width integers *)

Definition wrap (w z : Z) : Z := z `mod` 2 ^ w.
Definition swrap (w z : Z) : Z := (z + 2 ^ (w - 1)) `mod` 2 ^ w - 2 ^ (w - 1).

Definition u8 (z : Z) : Z := wrap 8 z.
Definition u16 (z : Z) : Z := wrap 16 z.
Definition u32 (z : Z) : Z := wrap 32 z.
Definition u64 (z : Z) : Z := wrap 64 z.
Definition s32 (z : Z) : Z := swrap 32 z.
Definition s64 (z : Z) : Z := swrap 64 z.

Definition fits (w z : Z) : Prop := 0 <= z < 2 ^ w.

Lemma wrap_small w z : fits w z -> wrap w z = z.
Proof. unfold fits, wrap. apply Z.mod_small. Qed.

Lemma wrap_range w z : 0 <= w -> fits w (wrap w z).
Proof. unfold fits, wrap. intros. apply Z.mod_pos_bound. lia. Qed.

Lemma wrap_add_l w a b : wrap w (wrap w a + b) = wrap w (a + b).
Proof. unfold wrap. by rewrite Zplus_mod_idemp_l. Qed.

Lemma wrap_add_r w a b : wrap w (a + wrap w b) = wrap w (a + b).
Proof. unfold wrap. by rewrite Zplus_mod_idemp_r. Qed.

Lemma wrap_sub_l w a b : wrap w (wrap w a - b) = wrap w (a - b).
Proof. unfold wrap. by rewrite Zminus_mod_idemp_l. Qed.

Lemma wrap_sub_r w a b : wrap w (a - wrap w b) = wrap w (a - b).
Proof. unfold wrap. by rewrite Zminus_mod_idemp_r. Qed.

Lemma swrap_small w z : 0 < w -> - 2 ^ (w - 1) <= z < 2 ^ (w - 1) -> swrap w z = z.
Proof.
  intros Hw Hz. unfold swrap.
  assert (2 ^ w = 2 * 2 ^ (w - 1)) by (rewrite <- Z.pow_succ_r by lia; f_equal; lia).
  rewrite Z.mod_small by lia. lia.
Qed.

Lemma u8_small z : 0 <= z < 2 ^ 8 -> u8 z = z. Proof. apply wrap_small. Qed.
Lemma u16_small z : 0 <= z < 2 ^ 16 -> u16 z = z. Proof. apply wrap_small. Qed.
Lemma u32_small z : 0 <= z < 2 ^ 32 -> u32 z = z. Proof. apply wrap_small. Qed.
Lemma u64_small z : 0 <= z < 2 ^ 64 -> u64 z = z. Proof. apply wrap_small. Qed.
Lemma s32_small z : - 2 ^ 31 <= z < 2 ^ 31 -> s32 z = z.
Proof. intros. apply (swrap_small 32); lia. Qed.
Lemma s64_small z : - 2 ^ 63 <= z < 2 ^ 63 -> s64 z = z.
Proof. intros. apply (swrap_small 64); lia. Qed.

Lemma u8_range z : 0 <= u8 z < 2 ^ 8. Proof. by apply (wrap_range 8). Qed.
Lemma u16_range z : 0 <= u16 z < 2 ^ 16. Proof. by apply (wrap_range 16). Qed.
Lemma u32_range z : 0 <= u32 z < 2 ^ 32. Proof. by apply (wrap_range 32). Qed.
Lemma u64_range z : 0 <= u64 z < 2 ^ 64. Proof. by apply (wrap_range 64). Qed.

(** Remove wrap-arounds whose argument is provably in range. *)
Ltac unwrap :=
  repeat match goal with
  | |- context [u8 ?x] => rewrite (u8_small x) by lia
  | |- context [u16 ?x] => rewrite (u16_small x) by lia
  | |- context [u32 ?x] => rewrite (u32_small x) by lia
  | |- context [u64 ?x] => rewrite (u64_small x) by lia
  | |- context [s32 ?x] => rewrite (s32_small x) by lia
  | |- context [s64 ?x] => rewrite (s64_small x) by lia
  end.
Ltac wrap_lia := unwrap; try lia.

Create HintDb mlt discriminated.
Create Rewrite HintDb mlt_wrap.
#[export] Hint Resolve u8_range u16_range u32_range u64_range : mlt.
#[export] Hint Rewrite u8_small u16_small u32_small u64_small using lia : mlt_wrap.

(** ** Boolean comparisons *)

(** Turn every boolean comparison of the context and the goal into the
    proposition it decides. *)
Ltac b2p :=
  repeat match goal with
  | H : (_ && _)%bool = true |- _ => apply andb_true_iff in H as [? ?]
  | H : (_ && _)%bool = false |- _ => apply andb_false_iff in H
  | H : (_ || _)%bool = true |- _ => apply orb_true_iff in H
  | H : (_ || _)%bool = false |- _ => apply orb_false_iff in H as [? ?]
  | H : negb _ = true |- _ => apply negb_true_iff in H
  | H : negb _ = false |- _ => apply negb_false_iff in H
  | H : (_ <? _) = true |- _ => apply Z.ltb_lt in H
  | H : (_ <? _) = false |- _ => apply Z.ltb_ge in H
  | H : (_ <=? _) = true |- _ => apply Z.leb_le in H
  | H : (_ <=? _) = false |- _ => apply Z.leb_gt in H
  | H : (_ =? _) = true |- _ => apply Z.eqb_eq in H
  | H : (_ =? _) = false |- _ => apply Z.eqb_neq in H
  | |- (_ && _)%bool = true => apply andb_true_iff; split
  | |- negb _ = true => apply negb_true_iff
  | |- (_ <? _) = true => apply Z.ltb_lt
  | |- (_ <? _) = false => apply Z.ltb_ge
  | |- (_ <=? _) = true => apply Z.leb_le
  | |- (_ <=? _) = false => apply Z.leb_gt
  | |- (_ =? _) = true => apply Z.eqb_eq
  | |- (_ =? _) = false => apply Z.eqb_neq
  end.

Lemma CHECK_true b : b = true -> CHECK b = Ok tt.
Proof. by intros ->. Qed.
Lemma CHECK_false b : b = false -> CHECK b = Fatal.
Proof. by intros ->. Qed.
Lemma DEFINED_true b : b = true -> DEFINED b = Ok tt.
Proof. by intros ->. Qed.

(** Run the first [CHECK] or definedness test of the goal, which must hold by
    linear arithmetic. *)
Ltac pass :=
  match goal with
  | |- context [CHECK ?b] => rewrite (CHECK_true b) by (b2p; lia)
  | |- context [DEFINED ?b] => rewrite (DEFINED_true b) by (b2p; lia)
  end; cbn [mbind outcome_bind].

(** Case analysis on a boolean test of the goal. *)
Ltac case_if E :=
  match goal with |- context [if ?b then _ else _] => destruct b eqn:E end.

(** ** Sets of integers in an interval *)

Definition range_set (lo hi : Z) : gset Z := list_to_set (seqZ lo (hi - lo)).

Lemma elem_of_range_set x lo hi : x ∈ range_set lo hi <-> lo <= x < hi.
Proof. unfold range_set. rewrite elem_of_list_to_set, elem_of_seqZ. lia. Qed.

Lemma size_range_set lo hi : lo <= hi -> Z.of_nat (size (range_set lo hi)) = hi - lo.
Proof.
  intros. unfold range_set. rewrite size_list_to_set by apply NoDup_seqZ.
  rewrite length_seqZ. lia.
Qed.

(** ** Lists *)

(** A map over an indexed map that ignores the index. *)
Lemma map_imap_const {A B C} (h : B -> C) (f : nat -> A -> B) (g : A -> C) l :
  (forall j a, h (f j a) = g a) -> map h (imap f l) = map g l.
Proof.
  intros Hfg. revert f Hfg. induction l as [|a l IH]; intros f Hfg; [done|].
  rewrite imap_cons. simpl. rewrite Hfg. f_equal. apply IH. intros. apply Hfg.
Qed.

Lemma alter_as_insert {A} (f : A -> A) (l : list A) i x : l !! i = Some x -> alter f i l = <[i := f x]> l.
Proof.
  intros Hx. apply list_eq. intros j. destruct (decide (i = j)) as [<-|Hne].
  - rewrite list_lookup_alter_eq, Hx, list_lookup_insert_eq; [done|by apply lookup_lt_Some in Hx].
  - by rewrite list_lookup_alter_ne, list_lookup_insert_ne.
Qed.

(** ** Sorting *)

Section sort.
Context {A : Type} (before : A -> A -> bool).

Fixpoint insert_by (x : A) (l : list A) : list A :=
  match l with
  | [] => [x]
  | y :: l' => if before x y then x :: l else y :: insert_by x l'
  end.
Definition sort_by (l : list A) : list A := foldr insert_by [] l.

Lemma insert_by_perm x l : insert_by x l ≡ₚ x :: l.
Proof. induction l as [|y l IH]; [done|]. cbn. destruct (before x y); [done|]. rewrite IH. apply Permutation_swap. Qed.
Lemma sort_by_perm l : sort_by l ≡ₚ l.
Proof. induction l as [|x l IH]; [done|]. cbn. by rewrite insert_by_perm, IH. Qed.

(** No later element comes before an earlier one. *)
Definition ordered (l : list A) : Prop := StronglySorted (fun x y => before y x = false) l.

Context (Htrans : forall x y z, before y x = false -> before z y = false -> before z x = false).
Context (Hasym : forall x y, before x y = true -> before y x = false).

Lemma insert_by_ordered x l : ordered l -> ordered (insert_by x l).
Proof.
  intros Hl. induction Hl as [|y l Hl IH Hy]; cbn; [repeat constructor|]. destruct (before x y) eqn:E.
  - constructor; [by constructor|]. constructor; [by apply Hasym|].
    eapply Forall_impl; [exact Hy|]. intros z Hz. apply (Htrans _ y); [by apply Hasym|done].
  - constructor; [exact IH|]. rewrite insert_by_perm. by constructor.
Qed.
Lemma sort_by_ordered l : ordered (sort_by l).
Proof. induction l as [|x l IH]; [constructor|]. by apply insert_by_ordered. Qed.
End sort.
