(* ===== verification/State.v ===== *)
(** The state-and-outcome monad over any state, its loops, and the step lemmas
    that proofs run programs with. *)

From S2P Require Import Prelude.

Definition stm (S A : Type) : Type := S -> outcome (A * S).

#[global] Instance stm_ret S : MRet (stm S) := fun A a s => Ok (a, s).
#[global] Instance stm_bind S : MBind (stm S) := fun A B f m s =>
  match m s with
  | Ok (a, s') => f a s'
  | Fatal => Fatal
  | Undef => Undef
  | OutOfFuel => OutOfFuel
  end.

Definition st_lift {S A} (o : outcome A) : stm S A := fun s => a ← o; Ok (a, s).
Definition st_gets {S A} (f : S -> A) : stm S A := fun s => Ok (f s, s).
Definition st_modify {S} (f : S -> S) : stm S unit := fun s => Ok (tt, f s).

(** A range-based [for] loop. *)
Fixpoint st_forM {S A} (l : list A) (f : A -> stm S unit) : stm S unit :=
  match l with
  | [] => mret tt
  | a :: l' => f a;; st_forM l' f
  end.

Lemma st_bind_Ok {S A B} (m : stm S A) (f : A -> stm S B) s a s' :
  m s = Ok (a, s') -> (m ≫= f) s = f a s'.
Proof. intros H. unfold mbind, stm_bind. by rewrite H. Qed.

Lemma st_bind_Fatal {S A B} (m : stm S A) (f : A -> stm S B) s : m s = Fatal -> (m ≫= f) s = Fatal.
Proof. intros H. unfold mbind, stm_bind. by rewrite H. Qed.

Lemma st_bind_Undef {S A B} (m : stm S A) (f : A -> stm S B) s : m s = Undef -> (m ≫= f) s = Undef.
Proof. intros H. unfold mbind, stm_bind. by rewrite H. Qed.

Lemma st_bind_inv {S A B} (m : stm S A) (f : A -> stm S B) s b s'' :
  (m ≫= f) s = Ok (b, s'') -> exists a s', m s = Ok (a, s') /\ f a s' = Ok (b, s'').
Proof. unfold mbind, stm_bind. destruct (m s) as [[a s']| | |]; [|done..]. intros H. by exists a, s'. Qed.

Lemma st_lift_inv {S A} (o : outcome A) (s : S) a s' : st_lift o s = Ok (a, s') -> o = Ok a /\ s' = s.
Proof. unfold st_lift. destruct o; [|done..]. by intros [= <- <-]. Qed.

Lemma st_lift_Ok {S A} (o : outcome A) a (s : S) : o = Ok a -> st_lift o s = Ok (a, s).
Proof. by intros ->. Qed.

(** Run the first statement, or a pure computation. *)
Ltac st_step H := rewrite (st_bind_Ok _ _ _ _ _ H).
Ltac st_lift_step H := rewrite (st_bind_Ok _ _ _ _ _ (st_lift_Ok _ _ _ H)).

(** ** Runs

    [runs m s Q]: [m] returns from [s], with a result and a state that satisfy
    [Q]. The rules run a program statement by statement. *)

Definition runs {S A} (m : stm S A) (s : S) (Q : A -> S -> Prop) : Prop := exists a s', m s = Ok (a, s') /\ Q a s'.

Section runs_rules.
Context {S : Type}.
Implicit Types s : S.

Lemma runs_bind {A B} (m : stm S A) (f : A -> stm S B) s Q :
  runs m s (fun a s' => runs (f a) s' Q) -> runs (m ≫= f) s Q.
Proof. intros (a & s' & H & b & s'' & H' & HQ). exists b, s''. by rewrite (st_bind_Ok _ _ _ _ _ H). Qed.

Lemma runs_ret {A} (a : A) s (Q : A -> S -> Prop) : Q a s -> runs (mret a) s Q.
Proof. intros H. by exists a, s. Qed.

Lemma runs_gets {A} (f : S -> A) s (Q : A -> S -> Prop) : Q (f s) s -> runs (st_gets f) s Q.
Proof. intros H. by exists (f s), s. Qed.

Lemma runs_modify (f : S -> S) s (Q : unit -> S -> Prop) : Q tt (f s) -> runs (st_modify f) s Q.
Proof. intros H. by exists tt, (f s). Qed.

Lemma runs_lift {A} (o : outcome A) a s (Q : A -> S -> Prop) : o = Ok a -> Q a s -> runs (st_lift o) s Q.
Proof. intros -> H. by exists a, s. Qed.

Lemma runs_CHECK (b : bool) s (Q : unit -> S -> Prop) : b = true -> Q tt s -> runs (st_lift (CHECK b)) s Q.
Proof. intros ->. by apply runs_lift. Qed.

Lemma runs_DEFINED (b : bool) s (Q : unit -> S -> Prop) : b = true -> Q tt s -> runs (st_lift (DEFINED b)) s Q.
Proof. intros ->. by apply runs_lift. Qed.

Lemma runs_deref {A} (o : option A) a s (Q : A -> S -> Prop) : o = Some a -> Q a s -> runs (st_lift (deref o)) s Q.
Proof. intros ->. by apply runs_lift. Qed.

Lemma runs_mono {A} (m : stm S A) s (P Q : A -> S -> Prop) :
  runs m s P -> (forall a s', P a s' -> Q a s') -> runs m s Q.
Proof. intros (a & s' & H & HP) HPQ. exists a, s'. auto. Qed.
End runs_rules.

(** Run the statements that need no premise. *)
Ltac run1 :=
  lazymatch goal with
  | |- runs (_ ≫= _) _ _ => apply runs_bind
  | |- runs (mret _) _ _ => apply runs_ret
  | |- runs (st_gets _) _ _ => apply runs_gets
  | |- runs (st_modify _) _ _ => apply runs_modify
  end.
Ltac run := repeat (run1; cbv beta).

(** ** What a program leaves alone *)

Definition keeps {S A B} (f : S -> B) (m : stm S A) : Prop := forall s a s', m s = Ok (a, s') -> f s' = f s.

Section keeps_rules.
Context {S B : Type} (f : S -> B).

Lemma keeps_ret {A} (a : A) : keeps f (mret a).
Proof. intros s b s'. by intros [= _ <-]. Qed.
Lemma keeps_gets {A} (g : S -> A) : keeps f (st_gets g).
Proof. intros s b s'. by intros [= _ <-]. Qed.
Lemma keeps_modify (g : S -> S) : (forall s, f (g s) = f s) -> keeps f (st_modify g).
Proof. intros H s b s'. by intros [= _ <-]. Qed.
Lemma keeps_lift {A} (o : outcome A) : keeps f (st_lift o).
Proof. intros s b s'. unfold st_lift. destruct o; [|done..]. by intros [= _ <-]. Qed.
Lemma keeps_bind {A C} (m : stm S A) (g : A -> stm S C) : keeps f m -> (forall a, keeps f (g a)) -> keeps f (m ≫= g).
Proof.
  intros Hm Hg s c s'. unfold mbind, stm_bind. destruct (m s) as [[a s1]| | |] eqn:E; [|done..]. intros H.
  by rewrite (Hg a _ _ _ H), (Hm _ _ _ E).
Qed.
End keeps_rules.

#[export] Hint Resolve keeps_ret keeps_gets keeps_lift : keeps.

(** Through the statements of a program, its branches and the operations of the
    hint database. *)
Ltac keeps :=
  repeat first
    [ solve [auto with keeps]
    | apply keeps_bind; [|intros ?]
    | apply keeps_modify; intros ?; reflexivity
    | case_match ].
