(* ===== verification/Bytes.v ===== *)
(** Byte lists: the little-endian representation of machine integers, the
    [memcpy] of a byte list into a memory region, and the fixed-size memory
    stream of dmlc (src/src/mlt/include/dmlc/memory_io.h). A byte is a [Z] in
    [0, 256). *)

From S2P Require Import Prelude.

(** ** Little-endian integers *)

Fixpoint le_bytes (n : nat) (z : Z) : list Z :=
  match n with
  | O => []
  | S n' => z `mod` 256 :: le_bytes n' (z `div` 256)
  end.

Fixpoint le_val (bs : list Z) : Z :=
  match bs with
  | [] => 0
  | b :: bs' => b + 256 * le_val bs'
  end.

Definition is_byte (b : Z) : Prop := 0 <= b < 256.

Lemma length_le_bytes n z : length (le_bytes n z) = n.
Proof. revert z. induction n; intros; simpl; auto. Qed.

Lemma le_bytes_bytes n z : Forall is_byte (le_bytes n z).
Proof.
  revert z. induction n; intros; simpl; constructor; auto.
  apply Z.mod_pos_bound. lia.
Qed.

Lemma le_val_le_bytes n z : le_val (le_bytes n z) = z `mod` 256 ^ Z.of_nat n.
Proof.
  revert z. induction n as [|n IH]; intros z.
  - simpl. rewrite Z.mod_1_r. done.
  - cbn [le_bytes le_val]. rewrite IH, Nat2Z.inj_succ, Z.pow_succ_r by lia.
    rewrite Z.rem_mul_r by lia. done.
Qed.

(** The representation of an in-range integer reads back as that integer. *)
Lemma le_val_le_bytes_id n z :
  0 <= z < 256 ^ Z.of_nat n -> le_val (le_bytes n z) = z.
Proof. intros. rewrite le_val_le_bytes. by apply Z.mod_small. Qed.

Lemma le_bytes_le_val bs :
  Forall is_byte bs -> le_bytes (length bs) (le_val bs) = bs.
Proof.
  induction 1 as [|b bs Hb Hbs IH]; [done|].
  cbn [length le_bytes le_val]. unfold is_byte in Hb.
  replace ((b + 256 * le_val bs) `mod` 256) with b
    by (rewrite Z.mul_comm, Z_mod_plus_full, Z.mod_small; lia).
  replace ((b + 256 * le_val bs) `div` 256) with (le_val bs); [by rewrite IH|].
  rewrite Z.mul_comm, Z.div_add, Z.div_small by lia. lia.
Qed.

(** ** Memory regions *)

(** [memcpy(region + off, bs, length bs)], defined when the destination lies
    inside the region. *)
Definition splice {A} (off : nat) (bs l : list A) : list A :=
  take off l ++ bs ++ drop (off + length bs) l.

(** [len] bytes of the region from offset [off] on. *)
Definition slice {A} (off len : nat) (l : list A) : list A := take len (drop off l).

Lemma length_splice {A} off (bs l : list A) :
  (off + length bs <= length l)%nat -> length (splice off bs l) = length l.
Proof. intros. unfold splice. rewrite !length_app, length_take, length_drop. lia. Qed.

Lemma take_splice {A} n off (bs l : list A) : (off + length bs <= n)%nat -> (off + length bs <= length l)%nat ->
  take n (splice off bs l) = splice off bs (take n l).
Proof.
  intros Hn Hl. unfold splice. rewrite take_app_ge by (rewrite length_take; lia).
  rewrite length_take, Nat.min_l by lia. rewrite take_app_ge by lia. rewrite take_take, Nat.min_l by lia.
  do 2 f_equal. rewrite skipn_firstn_comm. f_equal. lia.
Qed.

Lemma length_slice {A} off len (l : list A) :
  (off + len <= length l)%nat -> length (slice off len l) = len.
Proof. intros. unfold slice. rewrite length_take, length_drop. lia. Qed.

Lemma lookup_splice {A} off (bs l : list A) i :
  (off + length bs <= length l)%nat ->
  splice off bs l !! i =
    if decide (off <= i < off + length bs)%nat then bs !! (i - off)%nat else l !! i.
Proof.
  intros Hle. unfold splice. case_decide as Hi.
  - rewrite lookup_app_r by (rewrite length_take; lia).
    rewrite length_take, Nat.min_l by lia. rewrite lookup_app_l by lia. done.
  - destruct (decide (i < off)%nat) as [Hlt|Hge].
    + rewrite lookup_app_l by (rewrite length_take; lia).
      by rewrite lookup_take_lt by lia.
    + rewrite lookup_app_r by (rewrite length_take; lia).
      rewrite length_take, Nat.min_l by lia. rewrite lookup_app_r by lia.
      rewrite lookup_drop. f_equal. lia.
Qed.

Lemma lookup_slice {A} off len (l : list A) i :
  (i < len)%nat -> slice off len l !! i = l !! (off + i)%nat.
Proof. intros. unfold slice. by rewrite lookup_take_lt, lookup_drop by lia. Qed.

Lemma slice_splice {A} off (bs l : list A) :
  (off + length bs <= length l)%nat -> slice off (length bs) (splice off bs l) = bs.
Proof.
  intros. unfold slice, splice.
  rewrite drop_app_length' by (rewrite length_take; lia).
  by rewrite take_app_length.
Qed.

(** ** dmlc::MemoryFixedSizeStream *)

Record MemoryFixedSizeStream := mkStream {
  p_buffer_ : list Z;        (** the memory region *)
  buffer_size_ : Z;          (** the size the caller gave *)
  curr_ptr_ : Z }.

(** The constructor: [p_buffer] is the memory the pointer refers to. *)
Definition Stream_new (p_buffer : list Z) (buffer_size : Z) : MemoryFixedSizeStream :=
  mkStream p_buffer buffer_size 0.

Definition Stream_Read (strm : MemoryFixedSizeStream) (size : Z) :
    outcome (list Z * MemoryFixedSizeStream) :=
  CHECK (u64 (curr_ptr_ strm + size) <=? buffer_size_ strm);;
  let nread := Z.min (u64 (buffer_size_ strm - curr_ptr_ strm)) size in
  DEFINED ((nread =? 0) || (curr_ptr_ strm + nread <=? Z.of_nat (length (p_buffer_ strm))));;
  Ok (slice (Z.to_nat (curr_ptr_ strm)) (Z.to_nat nread) (p_buffer_ strm),
      mkStream (p_buffer_ strm) (buffer_size_ strm) (u64 (curr_ptr_ strm + nread))).

Definition Stream_Write (strm : MemoryFixedSizeStream) (ptr : list Z) :
    outcome MemoryFixedSizeStream :=
  let size := Z.of_nat (length ptr) in
  if size =? 0 then Ok strm
  else
    CHECK (u64 (curr_ptr_ strm + size) <=? buffer_size_ strm);;
    DEFINED (curr_ptr_ strm + size <=? Z.of_nat (length (p_buffer_ strm)));;
    Ok (mkStream (splice (Z.to_nat (curr_ptr_ strm)) ptr (p_buffer_ strm))
                 (buffer_size_ strm) (u64 (curr_ptr_ strm + size))).

Definition Stream_Seek (strm : MemoryFixedSizeStream) (pos : Z) : MemoryFixedSizeStream :=
  mkStream (p_buffer_ strm) (buffer_size_ strm) pos.

Definition Stream_Tell (strm : MemoryFixedSizeStream) : Z := curr_ptr_ strm.

(** The stream stands at [curr_ptr_] after writing [done] into a region of
    [buffer_size_] bytes; what follows is still the original memory. *)
Definition stream_at (strm : MemoryFixedSizeStream) (written rest : list Z) : Prop :=
  p_buffer_ strm = written ++ rest /\
  curr_ptr_ strm = Z.of_nat (length written) /\
  buffer_size_ strm = Z.of_nat (length written + length rest) /\
  buffer_size_ strm < 2 ^ 64.

Lemma Stream_new_at buf :
  Z.of_nat (length buf) < 2 ^ 64 ->
  stream_at (Stream_new buf (Z.of_nat (length buf))) [] buf.
Proof. intros. by repeat split. Qed.

(** Writing what fits appends it to what has been written. *)
Lemma Stream_Write_fits strm written rest bs :
  stream_at strm written rest -> (length bs <= length rest)%nat ->
  exists strm', Stream_Write strm bs = Ok strm' /\
    stream_at strm' (written ++ bs) (drop (length bs) rest).
Proof.
  intros (Hbuf & Hcur & Hsz & Hlt) Hle. unfold Stream_Write.
  case_if E; b2p.
  { exists strm. destruct bs; [|simpl in E; lia]. rewrite app_nil_r. by repeat split. }
  rewrite Hsz, Hcur, u64_small, Hbuf by lia.
  rewrite length_app. pass. pass.
  eexists; split; [done|]. rewrite Nat2Z.id. unfold stream_at, splice; simpl.
  rewrite take_app_length, drop_app_ge by lia.
  rewrite <- app_assoc, !length_app, length_drop.
  replace (length written + length bs - length written)%nat with (length bs) by lia.
  repeat split; lia.
Qed.

(** A write past the end of the region stops the process. *)
Lemma Stream_Write_overflow strm written rest bs :
  stream_at strm written rest -> (length rest < length bs)%nat ->
  Z.of_nat (length written + length bs) < 2 ^ 64 ->
  Stream_Write strm bs = Fatal.
Proof.
  intros (Hbuf & Hcur & Hsz & Hlt) Hgt Hov. unfold Stream_Write.
  case_if E; b2p; [lia|].
  rewrite Hsz, Hcur, u64_small by lia.
  by rewrite CHECK_false by (b2p; lia).
Qed.
