(* ===== verification/Memory.v ===== *)
(** Flat memory with typed fields: sequences of stores into a block of bytes,
    loads from it, and when a load finds what a store left there. *)

From S2P Require Import Prelude Bytes.

(** ** Loads *)

(** The [n] bytes at offset [off]; undefined when they leave the block. *)
Definition mem_load (mem : list Z) (off n : Z) : outcome (list Z) :=
  DEFINED ((0 <=? off) && (0 <=? n) && (off + n <=? Z.of_nat (length mem)));;
  Ok (slice (Z.to_nat off) (Z.to_nat n) mem).

(** [int], [uint64_t] and [bool] fields. *)
Definition load_i32 (mem : list Z) (off : Z) : outcome Z :=
  bs ← mem_load mem off 4; Ok (s32 (le_val bs)).
Definition load_u64 (mem : list Z) (off : Z) : outcome Z :=
  bs ← mem_load mem off 8; Ok (le_val bs).
Definition load_bool (mem : list Z) (off : Z) : outcome bool :=
  bs ← mem_load mem off 1; Ok (negb (le_val bs =? 0)).

(** A string that ends with a zero byte, which must lie in the block. *)
Fixpoint c_string (bs : list Z) : outcome (list Z) :=
  match bs with
  | [] => Undef
  | b :: bs' => if b =? 0 then Ok [] else s ← c_string bs'; Ok (b :: s)
  end.
Definition load_string (mem : list Z) (off : Z) : outcome (list Z) :=
  DEFINED (0 <=? off);; c_string (drop (Z.to_nat off) mem).

(** ** Stores *)

(** A store: the offset and the bytes. *)
Definition write : Type := Z * list Z.
Definition w_i32 (off v : Z) : write := (off, le_bytes 4 v).
Definition w_u64 (off v : Z) : write := (off, le_bytes 8 v).
Definition w_bool (off : Z) (b : bool) : write := (off, [if b then 1 else 0]).
Definition w_zero (off : Z) (n : nat) : write := (off, replicate n 0).

Definition mem_store (mem : list Z) (w : write) : outcome (list Z) :=
  DEFINED ((0 <=? fst w) && (fst w + Z.of_nat (length (snd w)) <=? Z.of_nat (length mem)));;
  Ok (splice (Z.to_nat (fst w)) (snd w) mem).

(** The stores [ws], one after the other. *)
Definition mem_stores (mem : list Z) (ws : list write) : outcome (list Z) := foldM mem_store mem ws.

(** The store lies in a block of [len] bytes. *)
Definition write_fits (len : Z) (w : write) : Prop :=
  0 <= fst w /\ fst w + Z.of_nat (length (snd w)) <= len.

(** The [n] bytes at [off] are apart from the store. *)
Definition apart (off n : Z) (w : write) : Prop :=
  off + n <= fst w \/ fst w + Z.of_nat (length (snd w)) <= off.

Lemma mem_stores_ok ws mem : Forall (write_fits (Z.of_nat (length mem))) ws ->
  exists mem', mem_stores mem ws = Ok mem' /\ length mem' = length mem.
Proof.
  revert mem. induction ws as [|[off bs] ws IH]; intros mem Hws; [by exists mem|].
  inversion Hws as [|? ? [H0 H1] Hws']; subst. cbn [fst snd] in *. unfold mem_stores in *. cbn [foldM].
  unfold mem_store at 2. cbn [fst snd]. pass.
  assert (Hl : length (splice (Z.to_nat off) bs mem) = length mem) by (apply length_splice; lia).
  destruct (IH (splice (Z.to_nat off) bs mem)) as (mem' & Hrun & Hlen); [by rewrite Hl|].
  exists mem'. split; [exact Hrun|congruence].
Qed.

Lemma mem_stores_app mem ws1 ws2 :
  mem_stores mem (ws1 ++ ws2) = mem' ← mem_stores mem ws1; mem_stores mem' ws2.
Proof. apply foldM_app. Qed.

Lemma mem_store_length mem w mem' : mem_store mem w = Ok mem' -> length mem' = length mem.
Proof. unfold mem_store. intros H. inv_ok. b2p. subst. apply length_splice. lia. Qed.

Lemma mem_stores_length ws mem mem' : mem_stores mem ws = Ok mem' -> length mem' = length mem.
Proof.
  revert mem. induction ws as [|w ws IH]; intros mem H; [by injection H as <-|].
  unfold mem_stores in *. cbn [foldM] in H. inv_ok.
  etransitivity; [by apply IH|]. by eapply mem_store_length.
Qed.

(** Stores into the beginning of a block do not see the rest. *)
Lemma mem_stores_take n ws : forall mem mem', Forall (write_fits (Z.of_nat n)) ws -> (n <= length mem)%nat ->
  mem_stores mem ws = Ok mem' -> mem_stores (take n mem) ws = Ok (take n mem').
Proof.
  induction ws as [|[off bs] ws IH]; intros mem mem' Hws Hn H; [by injection H as <-|].
  inversion Hws as [|? ? [H0 H1] Hws']; subst. cbn [fst snd] in *. unfold mem_stores in *. cbn [foldM] in *. inv_ok.
  match goal with Hs : mem_store _ _ = Ok ?x |- _ => pose proof (mem_store_length _ _ _ Hs) as Hl; rename Hs into Hst; set (m1 := x) in * end.
  assert (Htake : mem_store (take n mem) (off, bs) = Ok (take n m1)).
  { unfold mem_store in Hst |- *. cbn [fst snd] in *. inv_ok. b2p. rewrite length_take, Nat.min_l by lia. pass.
    rewrite <- take_splice by lia. by rewrite Hst. }
  rewrite Htake. cbn [mbind outcome_bind]. apply IH; [done|lia|done].
Qed.

(** A load next to the store finds what was there before. *)
Lemma load_store_apart mem w mem' off n : mem_store mem w = Ok mem' -> apart off n w ->
  mem_load mem' off n = mem_load mem off n.
Proof.
  intros Hs Ha. pose proof (mem_store_length _ _ _ Hs) as Hl. unfold mem_store in Hs. inv_ok. b2p.
  unfold mem_load. rewrite Hl. subst mem'.
  destruct (_ && _) eqn:E; [|done]. b2p. cbn [DEFINED mbind outcome_bind]. f_equal.
  apply list_eq. intros k. destruct (decide (k < Z.to_nat n)%nat) as [Hk|Hk].
  - rewrite !lookup_slice, lookup_splice by lia. rewrite decide_False; [done|].
    unfold apart in Ha. lia.
  - unfold slice. by rewrite !lookup_take_ge by lia.
Qed.

Lemma load_stores_apart ws mem mem' off n : mem_stores mem ws = Ok mem' -> Forall (apart off n) ws ->
  mem_load mem' off n = mem_load mem off n.
Proof.
  revert mem. induction ws as [|w ws IH]; intros mem H Hws; [by injection H as <-|].
  inversion Hws; subst. unfold mem_stores in *. cbn [foldM] in H. inv_ok.
  rewrite (IH _ H); [|done]. by eapply load_store_apart.
Qed.

(** The bytes of a store that no later one touches. *)
Lemma load_stored mem ws1 off bs ws2 mem' :
  mem_stores mem (ws1 ++ (off, bs) :: ws2) = Ok mem' -> Forall (apart off (Z.of_nat (length bs))) ws2 ->
  mem_load mem' off (Z.of_nat (length bs)) = Ok bs.
Proof.
  intros H Ha. rewrite mem_stores_app in H. inv_ok. unfold mem_stores in H. cbn [foldM] in H. inv_ok.
  rewrite (load_stores_apart ws2 x0 mem'); [|exact H|exact Ha].
  pose proof (mem_store_length _ _ _ H1) as Hl. unfold mem_store in H1. inv_ok. cbn [fst snd] in *. b2p. subst.
  unfold mem_load. rewrite Hl. pass. rewrite Nat2Z.id. f_equal. apply slice_splice. lia.
Qed.

(** Reading fields back. *)
Lemma load_i32_bytes mem off v : mem_load mem off 4 = Ok (le_bytes 4 v) -> - 2 ^ 31 <= v < 2 ^ 31 ->
  load_i32 mem off = Ok v.
Proof.
  intros H Hv. unfold load_i32. rewrite H. cbn [mbind outcome_bind]. f_equal.
  rewrite le_val_le_bytes. change (v `mod` 256 ^ Z.of_nat 4) with (u32 v).
  unfold s32, u32, swrap, wrap. rewrite Zplus_mod_idemp_l. by apply s32_small.
Qed.

Lemma load_u64_bytes mem off v : mem_load mem off 8 = Ok (le_bytes 8 v) -> 0 <= v < 2 ^ 64 ->
  load_u64 mem off = Ok v.
Proof.
  intros H Hv. unfold load_u64. rewrite H. cbn [mbind outcome_bind]. f_equal.
  by apply le_val_le_bytes_id.
Qed.

Lemma load_bool_bytes mem off (b : bool) : mem_load mem off 1 = Ok [if b then 1 else 0] ->
  load_bool mem off = Ok b.
Proof. intros H. unfold load_bool. rewrite H. by destruct b. Qed.

Lemma c_string_app s rest : Forall (fun b => b <> 0) s -> c_string (s ++ 0 :: rest) = Ok s.
Proof.
  induction 1 as [|b s Hb Hs IH]; cbn [app c_string]; [done|].
  rewrite (proj2 (Z.eqb_neq b 0) Hb), IH. done.
Qed.

(** A string in a zeroed field of [n] bytes that it does not fill. *)
Lemma load_string_field mem off s n : 0 <= off -> Forall (fun b => b <> 0) s -> (length s < n)%nat ->
  mem_load mem off (Z.of_nat n) = Ok (s ++ replicate (n - length s) 0) -> load_string mem off = Ok s.
Proof.
  intros H0 Hs Hn H. unfold load_string. pass. unfold mem_load in H. inv_ok. b2p.
  unfold slice in H. rewrite Nat2Z.id in H.
  rewrite <- (take_drop n (drop (Z.to_nat off) mem)), H.
  destruct (n - length s)%nat as [|k] eqn:E; [lia|]. cbn [replicate].
  rewrite <- app_assoc. cbn [app]. by apply c_string_app.
Qed.

(** A load of bytes that exactly the store [(off, bs)] writes, whatever the
    order of the stores. *)
Definition only (off : Z) (bs : list Z) (w : write) : Prop :=
  w = (off, bs) \/ apart off (Z.of_nat (length bs)) w.

Lemma load_only ws mem mem' off bs :
  mem_stores mem ws = Ok mem' -> (off, bs) ∈ ws -> Forall (only off bs) ws ->
  mem_load mem' off (Z.of_nat (length bs)) = Ok bs.
Proof.
  revert mem. induction ws as [|w ws IH]; intros mem H Hin Hall; [by apply elem_of_nil in Hin|].
  inversion Hall as [|? ? Hw Hws]; subst.
  destruct (decide ((off, bs) ∈ ws)) as [Hin'|Hnot].
  - unfold mem_stores in H. cbn [foldM] in H. inv_ok. by apply (IH x).
  - apply elem_of_cons in Hin as [<-|]; [|done].
    apply (load_stored mem [] off bs ws mem' H). rewrite Forall_forall in *.
    intros w Hw'. destruct (Hws w Hw') as [->|]; [done|done].
Qed.

(** Bytes that no store writes, in a block that was zeroed first. *)
Lemma load_zero ws mem mem' k off n :
  mem_stores mem (w_zero 0 k :: ws) = Ok mem' -> Forall (apart off n) ws ->
  0 <= off -> 0 <= n -> off + n <= Z.of_nat k ->
  mem_load mem' off n = Ok (replicate (Z.to_nat n) 0).
Proof.
  intros H Hws H0 Hn Hk. unfold mem_stores in H. cbn [foldM] in H. inv_ok.
  rewrite (load_stores_apart ws x mem' off n H Hws).
  pose proof (mem_store_length _ _ _ H1) as Hl. unfold mem_store in H1. inv_ok. cbn [fst snd w_zero] in *.
  b2p. rewrite length_replicate in *. subst.
  unfold mem_load. rewrite Hl. pass. f_equal. apply list_eq. intros j.
  destruct (decide (j < Z.to_nat n)%nat) as [Hj|Hj].
  - rewrite lookup_slice, lookup_splice by (rewrite ?length_replicate; lia).
    rewrite length_replicate, decide_True by lia. rewrite !lookup_replicate_2 by lia. done.
  - unfold slice. rewrite lookup_take_ge by lia. rewrite lookup_ge_None_2; [done|].
    rewrite length_replicate. lia.
Qed.
