(* ===== verification/SArray.v ===== *)
(** Shared arrays: [SArray] and [FindRange] of src/include/ps/sarray.h.

    An array is a size, a capacity and a pointer into a heap of byte blocks, so
    that copies and segments alias. [w] is [sizeof(V)], values are their
    little-endian bit patterns. A block that [new V[n]] leaves uninitialised
    holds arbitrary bytes. Reference counts are not represented: a block lives
    on. Sizes are too small to overflow [size_t], since they are allocated. *)

From S2P Require Import Prelude State Bytes.

(** ** Values as bytes *)

Definition unwords (w : Z) (l : list Z) : list Z := concat (map (le_bytes (Z.to_nat w)) l).
Definition words (w : Z) (bs : list Z) : list Z :=
  map (fun i => le_val (slice (i * Z.to_nat w) (Z.to_nat w) bs)) (seq 0 (length bs / Z.to_nat w)).

Definition word (w v : Z) : Prop := 0 <= v < 256 ^ w.

(** ** The heap *)

Record Heap := mkHeap { hp_blocks : gmap Z (list Z); hp_next : Z }.
Definition pointer : Type := option (Z * Z).

Record SArray := mkSArray {
  sa_size : Z;
  sa_capacity : Z;
  sa_ptr : pointer }.

Definition SArray_empty : SArray := mkSArray 0 0 None.

(** [n] bytes at [p]. *)
Definition load (p : pointer) (n : Z) : stm Heap (list Z) :=
  if n =? 0 then mret []
  else
    bo ← st_lift (deref p);
    h ← st_gets hp_blocks;
    blk ← st_lift (deref (h !! fst bo));
    st_lift (DEFINED ((0 <=? snd bo) && (snd bo + n <=? Z.of_nat (length blk))));;
    mret (slice (Z.to_nat (snd bo)) (Z.to_nat n) blk).

Definition store (p : pointer) (bs : list Z) : stm Heap unit :=
  if Nat.eqb (length bs) 0 then mret tt
  else
    bo ← st_lift (deref p);
    h ← st_gets hp_blocks;
    blk ← st_lift (deref (h !! fst bo));
    st_lift (DEFINED ((0 <=? snd bo) && (snd bo + Z.of_nat (length bs) <=? Z.of_nat (length blk))));;
    st_modify (fun h => mkHeap (<[fst bo := splice (Z.to_nat (snd bo)) bs blk]> (hp_blocks h)) (hp_next h)).

(** The regions of [memcpy] must not overlap. *)
Definition overlap (p q : pointer) (n : Z) : bool :=
  match p, q with
  | Some (b, o), Some (b', o') => (b =? b') && (o <? o' + n) && (o' <? o + n)
  | _, _ => false
  end.
Definition memcpy (dst src : pointer) (n : Z) : stm Heap unit :=
  bs ← load src n;
  st_lift (DEFINED (negb (overlap dst src n)));;
  store dst bs.

Section sarray.
Context (w junk : Z).

(** [new V[n]] *)
Definition new_array (n : Z) : stm Heap pointer :=
  h ← st_gets id;
  st_modify (fun h => mkHeap (<[hp_next h := replicate (Z.to_nat (n * w)) junk]> (hp_blocks h)) (hp_next h + 1));;
  mret (Some (hp_next h, 0)).

(** [data() + i] *)
Definition data_at (a : SArray) (i : Z) : pointer :=
  match sa_ptr a with Some (b, o) => Some (b, o + i * w) | None => None end.

Definition reset (p : pointer) (size : Z) : SArray := mkSArray size size p.

Definition resize (a : SArray) (size val : Z) : stm Heap SArray :=
  let cur_n := sa_size a in
  a ← (if size <=? sa_capacity a then mret (mkSArray size (sa_capacity a) (sa_ptr a))
       else
         new_data ← new_array (size + 5);
         memcpy new_data (sa_ptr a) (sa_size a * w);;
         mret (reset new_data size));
  if size <=? cur_n then mret a
  else
    store (data_at a cur_n) (unwords w (replicate (Z.to_nat (size - cur_n)) val));;
    mret a.

Definition reserve (a : SArray) (size : Z) : stm Heap SArray :=
  if size <=? sa_capacity a then mret a
  else
    let old_size := sa_size a in
    a ← resize a size 0;
    mret (mkSArray old_size (sa_capacity a) (sa_ptr a)).

Definition clear : SArray := reset None 0.

Definition push_back (a : SArray) (val : Z) : stm Heap SArray :=
  a ← (if sa_size a =? sa_capacity a then reserve a (sa_size a * 2 + 5) else mret a);
  store (data_at a (sa_size a)) (le_bytes (Z.to_nat w) val);;
  mret (mkSArray (sa_size a + 1) (sa_capacity a) (sa_ptr a)).

Definition pop_back (a : SArray) : SArray :=
  if sa_size a =? 0 then a else mkSArray (sa_size a - 1) (sa_capacity a) (sa_ptr a).

(** [a[i] = val] and [a[i]] *)
Definition set_at (a : SArray) (i val : Z) : stm Heap unit := store (data_at a i) (le_bytes (Z.to_nat w) val).
Definition get_at (a : SArray) (i : Z) : stm Heap Z := bs ← load (data_at a i) w; mret (le_val bs).

Definition front (a : SArray) : stm Heap Z := st_lift (CHECK (negb (sa_size a =? 0)));; get_at a 0.
Definition back (a : SArray) : stm Heap Z := st_lift (CHECK (negb (sa_size a =? 0)));; get_at a (sa_size a - 1).

(** [arr] is [None] when it is the array itself. *)
Definition append (a : SArray) (arr : option SArray) : stm Heap SArray :=
  let orig_size := sa_size a in
  let n := sa_size (default a arr) in
  if n =? 0 then mret a
  else
    a ← resize a (sa_size a + n) 0;
    let arr := default a arr in
    memcpy (data_at a orig_size) (sa_ptr arr) (sa_size arr * w);;
    mret a.

(** [CopyFrom(data, size)] from data outside the heap, such as a vector. *)
Definition CopyFrom_vector (a : SArray) (l : list Z) : stm Heap SArray :=
  a ← resize a (Z.of_nat (length l)) 0;
  store (sa_ptr a) (unwords w l);;
  mret a.

(** [CopyFrom(other)]; [other] is [None] when it is the array itself. *)
Definition CopyFrom (a : SArray) (other : option SArray) : stm Heap SArray :=
  match other with
  | None => mret a
  | Some other =>
      a ← resize a (sa_size other) 0;
      memcpy (sa_ptr a) (sa_ptr other) (sa_size other * w);;
      mret a
  end.

(** [CopyFrom(first, last)], which makes a block of its own. *)
Definition CopyFrom_range (l : list Z) : stm Heap SArray :=
  let size := s32 (Z.of_nat (length l)) in
  st_lift (CHECK (0 <=? size));;      (* [new] throws *)
  data ← new_array size;
  store data (unwords w (take (Z.to_nat size) l));;
  mret (reset data size).

(** The constructors: [n] values, memory of the caller, a copy of a vector. *)
Definition SArray_sized (size val : Z) : stm Heap SArray := resize SArray_empty size val.
Definition SArray_wrap (data : pointer) (size : Z) : SArray := reset data size.
Definition SArray_vector (l : list Z) : stm Heap SArray := CopyFrom_vector SArray_empty l.

Definition segment (a : SArray) (from to : Z) : outcome SArray :=
  CHECK (from <=? to);;
  CHECK (to <=? sa_size a);;
  Ok (mkSArray (to - from) (to - from) (data_at a from)).

(** [operator=] from an array of elements of [w'] bytes. *)
Definition assign (w' : Z) (arr : SArray) : outcome SArray :=
  let size := sa_size arr * w' `div` w in
  CHECK (size * w =? sa_size arr * w');;
  Ok (mkSArray size (sa_capacity arr * w' `div` w) (sa_ptr arr)).
End sarray.

(** ** Sorted arrays *)

(** [std::lower_bound]: halve the range until nothing is left. *)
Fixpoint lower_bound_loop (fuel : nat) (l : list Z) (v : Z) (first len : nat) : nat :=
  match fuel with
  | O => first
  | S fuel' =>
      if Nat.eqb len 0 then first
      else
        let half := Nat.div2 len in
        let middle := (first + half)%nat in
        if default 0 (l !! middle) <? v then lower_bound_loop fuel' l v (S middle) (len - half - 1)%nat
        else lower_bound_loop fuel' l v first half
  end.
Definition lower_bound (l : list Z) (v : Z) : nat := lower_bound_loop (length l) l v 0 (length l).

(** [FindRange], on the contents of the array: begin and end of the range. *)
Definition FindRange (l : list Z) (lower upper : Z) : Z * Z :=
  if upper <=? lower then (0, 0)
  else (Z.of_nat (lower_bound l lower), Z.of_nat (lower_bound l upper)).

(** ** Words *)

Lemma length_unwords w l : length (unwords w l) = (length l * Z.to_nat w)%nat.
Proof. induction l as [|v l IH]; [done|]. cbn. rewrite length_app, length_le_bytes. unfold unwords in IH. lia. Qed.

Lemma unwords_cons w v l : unwords w (v :: l) = le_bytes (Z.to_nat w) v ++ unwords w l.
Proof. done. Qed.

Lemma unwords_app w l1 l2 : unwords w (l1 ++ l2) = unwords w l1 ++ unwords w l2.
Proof. unfold unwords. by rewrite map_app, concat_app. Qed.

Lemma take_unwords w l n : take (n * Z.to_nat w) (unwords w l) = unwords w (take n l).
Proof.
  revert n. induction l as [|v l IH]; intros [|n]; [done|unfold unwords; cbn; by rewrite take_nil|done|].
  cbn [take Nat.mul]. rewrite !unwords_cons.
  rewrite take_app_ge by (rewrite length_le_bytes; lia). rewrite length_le_bytes. f_equal.
  rewrite <- IH. f_equal. lia.
Qed.

Lemma drop_unwords w l n : drop (n * Z.to_nat w) (unwords w l) = unwords w (drop n l).
Proof.
  revert n. induction l as [|v l IH]; intros [|n]; [done|unfold unwords; cbn; by rewrite drop_nil|done|].
  cbn [drop Nat.mul]. rewrite !unwords_cons.
  rewrite drop_app_ge by (rewrite length_le_bytes; lia). rewrite length_le_bytes.
  rewrite <- IH. f_equal. lia.
Qed.

Lemma slice_unwords w l i n :
  slice (i * Z.to_nat w) (n * Z.to_nat w) (unwords w l) = unwords w (slice i n l).
Proof. unfold slice. by rewrite drop_unwords, take_unwords. Qed.

Lemma words_unwords w l : 0 < w -> Forall (word w) l -> words w (unwords w l) = l.
Proof.
  intros Hw Hl. unfold words. rewrite length_unwords, Nat.div_mul by lia.
  apply list_eq. intros i. rewrite list_lookup_fmap.
  destruct (decide (i < length l)%nat) as [Hi|Hi].
  - destruct (lookup_lt_is_Some_2 l i Hi) as [v Hv]. rewrite lookup_seq_lt by done. cbn [fmap option_fmap option_map].
    pose proof (slice_unwords w l i 1) as Hsl. rewrite Nat.mul_1_l in Hsl. cbn [Nat.add]. rewrite Hsl. unfold slice. rewrite (drop_S _ _ _ Hv). cbn [take unwords map concat].
    rewrite app_nil_r, Hv. f_equal. apply le_val_le_bytes_id. rewrite Z2Nat.id by lia.
    by apply (Forall_lookup_1 _ _ _ _ Hl Hv).
  - rewrite lookup_seq_ge by lia. by rewrite lookup_ge_None_2 by lia.
Qed.

Lemma splice_unwords w l i v : (i < length l)%nat ->
  splice (i * Z.to_nat w) (le_bytes (Z.to_nat w) v) (unwords w l) = unwords w (<[i := v]> l).
Proof.
  intros Hi. rewrite insert_take_drop by done. rewrite unwords_app, unwords_cons. unfold splice.
  rewrite take_unwords, length_le_bytes. do 2 f_equal.
  replace (i * Z.to_nat w + Z.to_nat w)%nat with (S i * Z.to_nat w)%nat by lia. apply drop_unwords.
Qed.

(** ** Sorted arrays *)

Definition sorted (l : list Z) : Prop :=
  forall i j x y, (i < j)%nat -> l !! i = Some x -> l !! j = Some y -> x < y.

(** Where the elements below [v] end. *)
Definition splits_at (l : list Z) (v : Z) (i : nat) : Prop :=
  (i <= length l)%nat /\
  forall j x, l !! j = Some x -> ((j < i)%nat <-> x < v).

Lemma splits_unique l v i i' : splits_at l v i -> splits_at l v i' -> i = i'.
Proof.
  intros [Hi H] [Hi' H']. destruct (Nat.lt_trichotomy i i') as [Hlt|[|Hlt]]; [|done|]; exfalso.
  - destruct (lookup_lt_is_Some_2 l i ltac:(lia)) as [x Hx].
    specialize (H i x Hx). specialize (H' i x Hx). lia.
  - destruct (lookup_lt_is_Some_2 l i' ltac:(lia)) as [x Hx].
    specialize (H i' x Hx). specialize (H' i' x Hx). lia.
Qed.

Lemma lower_bound_loop_splits fuel l v first len : sorted l ->
  (len <= fuel)%nat -> (first + len <= length l)%nat ->
  (forall j x, l !! j = Some x -> (j < first)%nat -> x < v) ->
  (forall j x, l !! j = Some x -> (first + len <= j)%nat -> v <= x) ->
  splits_at l v (lower_bound_loop fuel l v first len).
Proof.
  intros Hs. revert first len. induction fuel as [|fuel IH]; intros first len Hf Hlen Hlo Hhi; cbn [lower_bound_loop].
  { split; [lia|]. intros j x Hx. specialize (Hlo j x Hx). specialize (Hhi j x Hx). lia. }
  destruct (Nat.eqb_spec len 0) as [->|Hne].
  { split; [lia|]. intros j x Hx. specialize (Hlo j x Hx). specialize (Hhi j x Hx). lia. }
  pose proof (Nat.lt_div2 len ltac:(lia)) as Hhalf. set (half := Nat.div2 len) in *.
  destruct (lookup_lt_is_Some_2 l (first + half)%nat ltac:(lia)) as [m Hm]. rewrite Hm. cbn [default from_option id].
  destruct (Z.ltb_spec m v) as [Hmv|Hmv].
  - apply IH; [lia..| |]; intros j x Hx Hj.
    + destruct (decide (j = first + half)%nat) as [->|]; [congruence|].
      pose proof (Hs j (first + half)%nat x m ltac:(lia) Hx Hm). lia.
    + apply (Hhi j x Hx). lia.
  - apply IH; [lia..|done|]. intros j x Hx Hj.
    destruct (decide (j = first + half)%nat) as [->|]; [rewrite Hm in Hx; injection Hx as ->; lia|].
    pose proof (Hs (first + half)%nat j m x ltac:(lia) Hm Hx). lia.
Qed.

Lemma lower_bound_splits l v : sorted l -> splits_at l v (lower_bound l v).
Proof.
  intros Hs. apply lower_bound_loop_splits; [done|lia..| |]; intros j x Hx Hj; [lia|].
  apply lookup_lt_Some in Hx. lia.
Qed.

(** The end of the elements below [v] in the rest of a sorted list. *)
Lemma lower_bound_drop l v k : sorted l -> (k <= lower_bound l v)%nat ->
  (k + lower_bound (drop k l) v)%nat = lower_bound l v.
Proof.
  intros Hs Hk. apply (splits_unique l v); [|by apply lower_bound_splits].
  destruct (lower_bound_splits l v Hs) as [Hle Hsp].
  destruct (lower_bound_splits (drop k l) v) as [Hle' Hsp'].
  { intros i j x y Hij. rewrite !lookup_drop. apply Hs. lia. }
  rewrite length_drop in Hle'. split; [lia|]. intros j x Hx.
  destruct (decide (j < k)%nat) as [Hj|Hj].
  - specialize (Hsp j x Hx). lia.
  - specialize (Hsp' (j - k)%nat x). rewrite lookup_drop in Hsp'.
    replace (k + (j - k))%nat with j in Hsp' by lia. specialize (Hsp' Hx). lia.
Qed.

Lemma lower_bound_mono l v v' : sorted l -> v <= v' -> (lower_bound l v <= lower_bound l v')%nat.
Proof.
  intros Hs Hv. destruct (lower_bound_splits l v Hs) as [H1 H2]. destruct (lower_bound_splits l v' Hs) as [H3 H4].
  destruct (decide (lower_bound l v' < lower_bound l v)%nat) as [Hlt|]; [|lia].
  destruct (lookup_lt_is_Some_2 l (lower_bound l v') ltac:(lia)) as [x Hx].
  specialize (H2 _ x Hx). specialize (H4 _ x Hx). lia.
Qed.

(** ** Arrays as vectors *)

Section vector.
Context (w junk : Z) (Hw : 0 < w).

(** The blocks below [hp_next h0] are those of [h0], and [a] holds [l] in a
    later block. *)
Record owns (h0 h : Heap) (a : SArray) (l : list Z) : Prop := {
  ow_size : sa_size a = Z.of_nat (length l);
  ow_capacity : sa_size a <= sa_capacity a;
  ow_next : hp_next h0 <= hp_next h;
  ow_frame : forall b, b < hp_next h0 -> hp_blocks h !! b = hp_blocks h0 !! b;
  ow_block :
    match sa_ptr a with
    | None => sa_capacity a = 0
    | Some (b, o) =>
        hp_next h0 <= b < hp_next h /\ o = 0 /\
        exists blk, hp_blocks h !! b = Some blk /\ sa_capacity a * w <= Z.of_nat (length blk) /\
          take (length l * Z.to_nat w) blk = unwords w l
    end }.

(** What a load or a store of a region inside a block does. *)
Lemma load_block h b o n blk : hp_blocks h !! b = Some blk -> 0 <= o -> 0 <= n -> o + n <= Z.of_nat (length blk) ->
  load (Some (b, o)) n h = Ok (slice (Z.to_nat o) (Z.to_nat n) blk, h).
Proof.
  intros Hb Ho Hn Hle. unfold load. case_if E; [b2p; by subst|].
  st_lift_step (eq_refl : deref (Some (b, o)) = Ok (b, o)).
  st_step (eq_refl : st_gets hp_blocks h = Ok (hp_blocks h, h)).
  st_lift_step (proj2 (deref_Ok_iff _ _) Hb). st_lift_step (DEFINED_true ((0 <=? o) && (o + n <=? Z.of_nat (length blk)))
    ltac:(b2p; lia)). done.
Qed.

Lemma store_block h b o bs blk : hp_blocks h !! b = Some blk -> 0 <= o ->
  o + Z.of_nat (length bs) <= Z.of_nat (length blk) ->
  store (Some (b, o)) bs h = Ok (tt, mkHeap (<[b := splice (Z.to_nat o) bs blk]> (hp_blocks h)) (hp_next h)).
Proof.
  intros Hb Ho Hle. unfold store. case_if E.
  { apply Nat.eqb_eq in E. destruct bs; [|done]. unfold mret, stm_ret. do 2 f_equal. destruct h. cbn in *.
    rewrite insert_id; [done|]. rewrite Hb. f_equal. unfold splice. cbn. by rewrite Nat.add_0_r, take_drop. }
  st_lift_step (eq_refl : deref (Some (b, o)) = Ok (b, o)).
  st_step (eq_refl : st_gets hp_blocks h = Ok (hp_blocks h, h)).
  st_lift_step (proj2 (deref_Ok_iff _ _) Hb). cbn [fst snd].
  st_lift_step (DEFINED_true ((0 <=? o) && (o + Z.of_nat (length bs) <=? Z.of_nat (length blk))) ltac:(b2p; lia)). done.
Qed.

Lemma owns_load h0 h a l : owns h0 h a l -> load (sa_ptr a) (sa_size a * w) h = Ok (unwords w l, h).
Proof.
  intros [Hs Hc _ _ Hb]. destruct (sa_ptr a) as [[b o]|].
  - destruct Hb as (_ & -> & blk & Hblk & Hle & Htake). rewrite (load_block h b 0 _ blk) by (done || nia).
    do 2 f_equal. unfold slice. rewrite drop_0, <- Htake. f_equal. rewrite Hs. lia.
  - replace (sa_size a) with 0 in * by lia. destruct l; [|cbn in Hs; lia]. done.
Qed.

(** Elements are written behind the last one. *)
Lemma owns_extend h0 h a l vs : owns h0 h a l -> sa_size a + Z.of_nat (length vs) <= sa_capacity a ->
  exists h', store (data_at w a (sa_size a)) (unwords w vs) h = Ok (tt, h') /\
    owns h0 h' (mkSArray (sa_size a + Z.of_nat (length vs)) (sa_capacity a) (sa_ptr a)) (l ++ vs).
Proof.
  intros [Hs Hc Hn Hf Hb] Hcap. unfold data_at. destruct (sa_ptr a) as [[b o]|] eqn:Hp.
  - destruct Hb as (Hbr & -> & blk & Hblk & Hle & Htake).
    assert (Hlen : sa_size a * w + Z.of_nat (length (unwords w vs)) <= Z.of_nat (length blk))
      by (rewrite length_unwords; nia).
    rewrite Z.add_0_l. rewrite (store_block h b (sa_size a * w) (unwords w vs) blk) by (done || nia).
    eexists. split; [reflexivity|]. split; cbn; rewrite ?length_app; try lia.
    + intros b' Hb'. rewrite lookup_insert_ne by lia. by apply Hf.
    + split; [lia|]. split; [done|]. eexists. rewrite lookup_insert_eq. split; [done|].
      assert (Ho : Z.to_nat (sa_size a * w) = (length l * Z.to_nat w)%nat) by (rewrite Hs; lia).
      split; [rewrite length_splice; lia|]. unfold splice. rewrite Ho, app_assoc, unwords_app, Htake.
      rewrite take_app_le by (rewrite length_app, !length_unwords; lia).
      apply take_ge. rewrite length_app, !length_unwords. lia.
  - assert (length vs = 0%nat) by lia. destruct vs; [|done]. exists h. split; [done|].
    rewrite app_nil_r. split; cbn; rewrite ?Hp; try lia; done.
Qed.

(** Fewer elements. *)
Lemma owns_take h0 h a l n : owns h0 h a l -> 0 <= n <= sa_size a ->
  owns h0 h (mkSArray n (sa_capacity a) (sa_ptr a)) (take (Z.to_nat n) l).
Proof.
  intros [Hs Hc Hn Hf Hb] Hle. split; cbn; rewrite ?length_take; try lia; [done|].
  destruct (sa_ptr a) as [[b o]|]; [|done]. destruct Hb as (Hbr & -> & blk & Hblk & Hl & Htake).
  split; [done|]. split; [done|]. exists blk. split; [done|]. split; [done|].
  rewrite <- take_unwords, <- Htake, take_take. f_equal. nia.
Qed.

(** A larger block, with the elements copied. *)
Lemma owns_grow h0 h a l size : owns h0 h a l -> sa_size a <= size ->
  exists h' p, (new_data ← new_array w junk (size + 5); memcpy new_data (sa_ptr a) (sa_size a * w);; mret new_data) h
      = Ok (p, h') /\
    owns h0 h' (mkSArray (sa_size a) size p) l.
Proof.
  intros Ho Hsize. pose proof (owns_load _ _ _ _ Ho) as Hload. destruct Ho as [Hs Hc Hn Hf Hb].
  set (blk := replicate (Z.to_nat ((size + 5) * w)) junk).
  set (h1 := mkHeap (<[hp_next h := blk]> (hp_blocks h)) (hp_next h + 1)).
  st_step (eq_refl : new_array w junk (size + 5) h = Ok (Some (hp_next h, 0), h1)).
  assert (Hload1 : load (sa_ptr a) (sa_size a * w) h1 = Ok (unwords w l, h1)).
  { destruct (sa_ptr a) as [[b o]|].
    - destruct Hb as (Hbr & -> & blk' & Hblk & Hle & Htake).
      rewrite (load_block h b 0 _ blk') in Hload by (done || nia). injection Hload as Hload.
      rewrite (load_block h1 b 0 _ blk'); [by rewrite Hload| |lia|nia..].
      cbn. by rewrite lookup_insert_ne by lia.
    - replace (sa_size a) with 0 in * by lia. destruct l; [done|cbn in Hs; lia]. }
  assert (Hlen : Z.of_nat (length (unwords w l)) <= Z.of_nat (length blk))
    by (unfold blk; rewrite length_unwords, length_replicate; nia).
  unfold memcpy. set (h2 := mkHeap (<[hp_next h := splice (Z.to_nat 0) (unwords w l) blk]> (hp_blocks h1)) (hp_next h1)).
  assert (Hstore : store (Some (hp_next h, 0)) (unwords w l) h1 = Ok (tt, h2))
    by (apply store_block; [cbn; by rewrite lookup_insert_eq|lia..]).
  assert (Hov : overlap (Some (hp_next h, 0)) (sa_ptr a) (sa_size a * w) = false).
  { destruct (sa_ptr a) as [[b o]|]; [|done]. cbn. rewrite (proj2 (Z.eqb_neq _ _)) by lia. done. }
  exists h2, (Some (hp_next h, 0)). split.
  - unfold mbind, stm_bind, st_lift. rewrite Hload1, Hov. cbn. by rewrite Hstore.
  - split; cbn; try lia.
    + intros b Hb'. rewrite !lookup_insert_ne by lia. by apply Hf.
    + split; [lia|]. split; [done|]. eexists. rewrite lookup_insert_eq. split; [done|].
      split; [rewrite length_splice by lia; unfold blk; rewrite length_replicate; nia|].
      unfold splice. change (Z.to_nat 0) with 0%nat. by rewrite take_0, app_nil_l, <- length_unwords, take_app_length.
Qed.

Definition list_resize (n v : Z) (l : list Z) : list Z :=
  take (Z.to_nat n) l ++ replicate (Z.to_nat n - length l) v.

Lemma owns_fill h0 h a l n v : owns h0 h a l -> sa_size a <= n <= sa_capacity a ->
  exists h', store (data_at w (mkSArray n (sa_capacity a) (sa_ptr a)) (sa_size a))
      (unwords w (replicate (Z.to_nat (n - sa_size a)) v)) h = Ok (tt, h') /\
    owns h0 h' (mkSArray n (sa_capacity a) (sa_ptr a)) (list_resize n v l).
Proof.
  intros Ho Hn. pose proof (ow_size _ _ _ _ Ho) as Hs.
  destruct (owns_extend h0 h a l (replicate (Z.to_nat (n - sa_size a)) v) Ho) as (h' & Hst & Ho');
    rewrite ?length_replicate in *; [lia|]. exists h'. split; [exact Hst|].
  replace (sa_size a + Z.of_nat (Z.to_nat (n - sa_size a))) with n in Ho' by lia.
  unfold list_resize. rewrite take_ge by lia.
  by replace (Z.to_nat n - length l)%nat with (Z.to_nat (n - sa_size a)) by lia.
Qed.

Lemma resize_owns h0 h a l n v : owns h0 h a l -> 0 <= n ->
  exists h' a', resize w junk a n v h = Ok (a', h') /\ owns h0 h' a' (list_resize n v l) /\
    sa_capacity a' = Z.max n (sa_capacity a).
Proof.
  intros Ho Hn. pose proof (ow_size _ _ _ _ Ho) as Hs. pose proof (ow_capacity _ _ _ _ Ho).
  unfold resize. destruct (Z.leb_spec n (sa_capacity a)) as [Hc|Hc].
  - st_step (eq_refl : (mret (mkSArray n (sa_capacity a) (sa_ptr a)) : stm Heap SArray) h =
      Ok (mkSArray n (sa_capacity a) (sa_ptr a), h)). case_if E; b2p.
    + exists h. eexists. split; [reflexivity|]. split; [|cbn; lia]. unfold list_resize.
      replace (Z.to_nat n - length l)%nat with 0%nat by lia. rewrite app_nil_r. by apply owns_take.
    + destruct (owns_fill h0 h a l n v Ho ltac:(lia)) as (h' & Hst & Ho').
      exists h'. eexists. st_step Hst. split; [reflexivity|]. split; [done|cbn; lia].
  - destruct (owns_grow h0 h a l n Ho ltac:(lia)) as (h1 & p & Hgrow & Ho1).
    assert (Hnew : (new_data ← new_array w junk (n + 5); memcpy new_data (sa_ptr a) (sa_size a * w);;
      mret (reset new_data n) : stm Heap SArray) h = Ok (reset p n, h1)).
    { unfold mbind, stm_bind in Hgrow |- *. destruct (new_array w junk (n + 5) h) as [[q h2]| | |]; [|done..].
      destruct (memcpy q _ _ h2) as [[u h3]| | |]; [|done..]. by injection Hgrow as -> ->. }
    st_step Hnew. rewrite (proj2 (Z.leb_gt n (sa_size a))) by lia.
    destruct (owns_fill h0 h1 _ l n v Ho1 ltac:(cbn; lia)) as (h' & Hst & Ho').
    exists h'. eexists. st_step Hst. split; [reflexivity|]. split; [exact Ho'|cbn; lia].
Qed.

Lemma reserve_owns h0 h a l n : owns h0 h a l -> 0 <= n ->
  exists h' a', reserve w junk a n h = Ok (a', h') /\ owns h0 h' a' l /\ sa_capacity a' = Z.max n (sa_capacity a) /\
    sa_size a' = sa_size a.
Proof.
  intros Ho Hn. pose proof (ow_size _ _ _ _ Ho) as Hs. pose proof (ow_capacity _ _ _ _ Ho) as Hc. unfold reserve.
  destruct (Z.leb_spec n (sa_capacity a)) as [Hle|Hle].
  - exists h, a. split; [done|]. split; [done|]. lia.
  - destruct (resize_owns h0 h a l n 0 Ho Hn) as (h' & a1 & Hrun & Ho1 & Hcap). st_step Hrun.
    exists h'. eexists. split; [reflexivity|]. split; [|cbn; lia].
    pose proof (ow_size _ _ _ _ Ho1) as Hs1. unfold list_resize in Hs1, Ho1.
    rewrite take_ge in Hs1, Ho1 by lia. rewrite length_app, length_replicate in Hs1.
    replace l with (take (Z.to_nat (sa_size a)) (l ++ replicate (Z.to_nat n - length l) 0)).
    + apply owns_take; [exact Ho1|lia].
    + rewrite take_app_le by lia. apply take_ge. lia.
Qed.

Lemma push_back_owns h0 h a l v : owns h0 h a l ->
  exists h' a', push_back w junk a v h = Ok (a', h') /\ owns h0 h' a' (l ++ [v]).
Proof.
  intros Ho. pose proof (ow_size _ _ _ _ Ho) as Hs. pose proof (ow_capacity _ _ _ _ Ho) as Hc. unfold push_back.
  assert (Hroom : exists h1 a1, (if sa_size a =? sa_capacity a then reserve w junk a (sa_size a * 2 + 5) else mret a) h =
      Ok (a1, h1) /\ owns h0 h1 a1 l /\ sa_size a1 = sa_size a /\ sa_size a + 1 <= sa_capacity a1).
  { case_if E; b2p.
    - destruct (reserve_owns h0 h a l (sa_size a * 2 + 5) Ho ltac:(lia)) as (h1 & a1 & Hr & Ho1 & Hcap & Hs1).
      exists h1, a1. split; [done|]. split; [done|]. lia.
    - exists h, a. split; [done|]. split; [done|]. lia. }
  destruct Hroom as (h1 & a1 & Hr & Ho1 & Hs1 & Hcap). st_step Hr.
  destruct (owns_extend h0 h1 a1 l [v] Ho1 ltac:(cbn; lia)) as (h2 & Hst & Ho2).
  unfold unwords in Hst. cbn in Hst. rewrite app_nil_r in Hst. st_step Hst.
  exists h2. eexists. split; [reflexivity|exact Ho2].
Qed.

Lemma set_at_owns h0 h a l i v : owns h0 h a l -> 0 <= i < sa_size a ->
  exists h', set_at w a i v h = Ok (tt, h') /\ owns h0 h' a (<[Z.to_nat i := v]> l).
Proof.
  intros [Hs Hc Hn Hf Hb] Hi. unfold set_at, data_at. destruct (sa_ptr a) as [[b o]|] eqn:Hp; [|lia].
  destruct Hb as (Hbr & -> & blk & Hblk & Hle & Htake). rewrite Z.add_0_l.
  assert (Hlb : Z.of_nat (length (le_bytes (Z.to_nat w) v)) = w) by (rewrite length_le_bytes; lia).
  rewrite (store_block h b (i * w) _ blk) by (done || nia).
  eexists. split; [reflexivity|]. split; cbn; rewrite ?length_insert; try lia.
  - intros b' Hb'. rewrite lookup_insert_ne by lia. by apply Hf.
  - rewrite Hp. split; [lia|]. split; [done|]. eexists. rewrite lookup_insert_eq. split; [done|].
    split; [rewrite length_splice; nia|].
    rewrite take_splice by (rewrite length_le_bytes; nia). rewrite Htake.
    replace (Z.to_nat (i * w)) with (Z.to_nat i * Z.to_nat w)%nat by lia. apply splice_unwords. lia.
Qed.

(** ** Programs on one array *)

Inductive vec_op :=
| PushBack (v : Z)
| PopBack
| Resize (n v : Z)
| Reserve (n : Z)
| Assign (i v : Z)
| CopyVector (vs : list Z)
| CopyRange (vs : list Z)
| Clear.

Definition run_op (a : SArray) (op : vec_op) : stm Heap SArray :=
  match op with
  | PushBack v => push_back w junk a v
  | PopBack => mret (pop_back a)
  | Resize n v => resize w junk a n v
  | Reserve n => reserve w junk a n
  | Assign i v => set_at w a i v;; mret a
  | CopyVector vs => CopyFrom_vector w junk a vs
  | CopyRange vs => CopyFrom_range w junk vs
  | Clear => mret clear
  end.

(** The same on [std::vector]. *)
Definition list_op (l : list Z) (op : vec_op) : list Z :=
  match op with
  | PushBack v => l ++ [v]
  | PopBack => take (length l - 1) l
  | Resize n v => list_resize n v l
  | Reserve _ => l
  | Assign i v => <[Z.to_nat i := v]> l
  | CopyVector vs | CopyRange vs => vs
  | Clear => []
  end.

(** Sizes are unsigned and indices in range. *)
Definition op_ok (l : list Z) (op : vec_op) : Prop :=
  match op with
  | Resize n _ | Reserve n => 0 <= n
  | Assign i _ => 0 <= i < Z.of_nat (length l)
  | CopyRange vs => Z.of_nat (length vs) < 2 ^ 31
  | _ => True
  end.

Fixpoint run_ops (a : SArray) (ops : list vec_op) : stm Heap SArray :=
  match ops with
  | [] => mret a
  | op :: ops' => a' ← run_op a op; run_ops a' ops'
  end.

Fixpoint ops_ok (l : list Z) (ops : list vec_op) : Prop :=
  match ops with
  | [] => True
  | op :: ops' => op_ok l op /\ ops_ok (list_op l op) ops'
  end.

Lemma copy_vector_owns h0 h a l vs : owns h0 h a l ->
  exists h' a', CopyFrom_vector w junk a vs h = Ok (a', h') /\ owns h0 h' a' vs.
Proof.
  intros Ho. unfold CopyFrom_vector.
  destruct (resize_owns h0 h a l (Z.of_nat (length vs)) 0 Ho ltac:(lia)) as (h1 & a1 & Hr & Ho1 & _). st_step Hr.
  pose proof (ow_size _ _ _ _ Ho1) as Hs1. unfold list_resize in Hs1.
  rewrite length_app, length_take, length_replicate in Hs1. pose proof (ow_capacity _ _ _ _ Ho1) as Hc1.
  pose proof (owns_take h0 h1 a1 _ 0 Ho1 ltac:(lia)) as Ho0. rewrite take_0 in Ho0.
  destruct (owns_extend h0 h1 _ [] vs Ho0) as (h2 & Hst & Ho2); [cbn; lia|].
  assert (Hp : data_at w (mkSArray 0 (sa_capacity a1) (sa_ptr a1)) 0 = sa_ptr a1).
  { unfold data_at. cbn. destruct (sa_ptr a1) as [[b o]|]; [by rewrite Z.add_0_r|done]. }
  cbn [sa_size sa_capacity sa_ptr] in *. rewrite Hp in Hst.
  st_step Hst. exists h2, a1. split; [done|]. cbn [app] in Ho2.
  replace (mkSArray (0 + Z.of_nat (length vs)) (sa_capacity a1) (sa_ptr a1)) with a1 in Ho2; [done|].
  destruct a1. cbn in *. f_equal. lia.
Qed.

Lemma copy_range_owns h0 h a l vs : owns h0 h a l -> Z.of_nat (length vs) < 2 ^ 31 ->
  exists h' a', CopyFrom_range w junk vs h = Ok (a', h') /\ owns h0 h' a' vs.
Proof.
  intros Ho Hlen. unfold CopyFrom_range. rewrite s32_small by lia. set (n := Z.of_nat (length vs)).
  st_lift_step (CHECK_true (0 <=? n) ltac:(b2p; lia)).
  set (h1 := mkHeap (<[hp_next h := replicate (Z.to_nat (n * w)) junk]> (hp_blocks h)) (hp_next h + 1)).
  st_step (eq_refl : new_array w junk n h = Ok (Some (hp_next h, 0), h1)). destruct Ho as [_ _ Hn Hf _].
  assert (Ho1 : owns h0 h1 (mkSArray 0 n (Some (hp_next h, 0))) []).
  { split; cbn; [done|lia|lia| |].
    - intros b Hb. rewrite lookup_insert_ne by lia. by apply Hf.
    - split; [lia|]. split; [done|]. eexists. split; [apply lookup_insert_eq|]. split; [rewrite length_replicate; lia|done]. }
  destruct (owns_extend h0 h1 _ [] vs Ho1) as (h2 & Hst & Ho2); [cbn; lia|].
  rewrite take_ge by lia. cbn [sa_size sa_capacity sa_ptr data_at app] in *. rewrite Z.mul_0_l, !Z.add_0_l in *.
  st_step Hst. by exists h2, (mkSArray n n (Some (hp_next h, 0))).
Qed.

Lemma run_op_owns h0 h a l op : owns h0 h a l -> op_ok l op ->
  exists h' a', run_op a op h = Ok (a', h') /\ owns h0 h' a' (list_op l op).
Proof.
  intros Ho Hop. pose proof (ow_size _ _ _ _ Ho) as Hs. destruct op as [v| |n v|n|i v|vs|vs|]; cbn [run_op list_op op_ok] in *.
  - by apply push_back_owns.
  - unfold pop_back. case_if E; b2p.
    + exists h, a. split; [done|]. destruct l; [done|cbn in Hs; lia].
    + exists h. eexists. split; [reflexivity|].
      replace (length l - 1)%nat with (Z.to_nat (sa_size a - 1)) by lia. apply owns_take; [done|lia].
  - destruct (resize_owns h0 h a l n v Ho Hop) as (h' & a' & H & Ho' & _). eauto.
  - destruct (reserve_owns h0 h a l n Ho Hop) as (h' & a' & H & Ho' & _). eauto.
  - destruct (set_at_owns h0 h a l i v Ho ltac:(lia)) as (h' & Hst & Ho'). exists h', a. by st_step Hst.
  - by apply (copy_vector_owns h0 h a l).
  - by apply (copy_range_owns h0 h a l).
  - exists h. eexists. split; [reflexivity|]. destruct Ho. split; cbn; done || lia.
Qed.

Lemma run_ops_owns h0 ops : forall h a l, owns h0 h a l -> ops_ok l ops ->
  exists h' a', run_ops a ops h = Ok (a', h') /\ owns h0 h' a' (fold_left list_op ops l).
Proof.
  induction ops as [|op ops IH]; intros h a l Ho Hok; cbn [run_ops fold_left ops_ok] in *; [by exists h, a|].
  destruct Hok as [H1 H2]. destruct (run_op_owns h0 h a l op Ho H1) as (h1 & a1 & Hr & Ho1). st_step Hr.
  by apply IH.
Qed.
End vector.

(** The elements of an array. *)
Definition contents (w : Z) (a : SArray) : stm Heap (list Z) :=
  bs ← load (sa_ptr a) (sa_size a * w); mret (words w bs).

(** C17: an array refines a vector. Any program of pushes, pops, resizes,
    reservations, assignments, copies and clears on a new array runs without
    fault, the array then holds what a vector would hold, and no memory that
    was allocated before has changed. *)
Theorem SArray_refines_vector w junk ops h
    (Hw : 0 < w) (Hok : ops_ok [] ops) (Hword : Forall (word w) (fold_left list_op ops [])) :
  exists h' a, run_ops w junk SArray_empty ops h = Ok (a, h') /\
    sa_size a = Z.of_nat (length (fold_left list_op ops [])) /\
    contents w a h' = Ok (fold_left list_op ops [], h') /\
    forall b, b < hp_next h -> hp_blocks h' !! b = hp_blocks h !! b.
Proof.
  assert (Ho : owns w h h SArray_empty []) by (split; cbn; done || lia).
  destruct (run_ops_owns w junk Hw h ops h SArray_empty [] Ho Hok) as (h' & a & Hrun & Ho').
  exists h', a. split; [done|]. split; [by apply (ow_size w h h')|]. split; [|by apply (ow_frame w h h' a _ Ho')].
  unfold contents. st_step (owns_load w Hw _ _ _ _ Ho'). by rewrite words_unwords.
Qed.

Lemma SArray_refines_vector_witness :
  exists h' a, run_ops 8 170 SArray_empty [PushBack 7; Resize 4 1; PopBack; Assign 1 5; Reserve 100; PushBack 9]
      (mkHeap ∅ 0) = Ok (a, h') /\ contents 8 a h' = Ok ([7; 5; 1; 9], h').
Proof.
  destruct (SArray_refines_vector 8 170 [PushBack 7; Resize 4 1; PopBack; Assign 1 5; Reserve 100; PushBack 9]
    (mkHeap ∅ 0)) as (h' & a & H1 & _ & H2 & _).
  - lia.
  - repeat split; vm_compute; discriminate || reflexivity || exact I.
  - change (Forall (word 8) [7; 5; 1; 9]). repeat constructor; unfold word; lia.
  - exists h', a. split; [exact H1|exact H2].
Defined.

(** ** Sharing *)

Lemma length_words w bs : length (words w bs) = (length bs / Z.to_nat w)%nat.
Proof. unfold words. by rewrite length_map, length_seq. Qed.

Lemma words_lookup w bs i : (i < length bs / Z.to_nat w)%nat ->
  words w bs !! i = Some (le_val (slice (i * Z.to_nat w) (Z.to_nat w) bs)).
Proof. intros Hi. unfold words. rewrite list_lookup_fmap, lookup_seq_lt by done. done. Qed.

Lemma slice_slice {A} o n o' n' (l : list A) : (o' + n' <= n)%nat -> slice o' n' (slice o n l) = slice (o + o') n' l.
Proof. intros H. unfold slice. rewrite skipn_firstn_comm, take_take, drop_drop, Nat.min_l by lia. done. Qed.

Lemma words_slice w bs i n : 0 < w -> ((i + n) * Z.to_nat w <= length bs)%nat ->
  words w (slice (i * Z.to_nat w) (n * Z.to_nat w) bs) = slice i n (words w bs).
Proof.
  intros Hw Hle. assert (Hdiv : (i + n <= length bs / Z.to_nat w)%nat) by (apply Nat.div_le_lower_bound; lia).
  apply list_eq. intros j. destruct (decide (j < n)%nat) as [Hj|Hj].
  - rewrite lookup_slice by done. rewrite !words_lookup; rewrite ?length_slice, ?Nat.div_mul by nia; try lia.
    rewrite slice_slice by nia. do 3 f_equal. lia.
  - rewrite !lookup_ge_None_2; [done|rewrite length_slice; rewrite ?length_words; lia|].
    rewrite length_words, length_slice by nia. rewrite Nat.div_mul by lia. lia.
Qed.

Lemma slice_splice_inside {A} o n j (bs l : list A) : (j + length bs <= n)%nat -> (o + n <= length l)%nat ->
  slice o n (splice (o + j) bs l) = splice j bs (slice o n l).
Proof.
  intros Hj Ho. apply list_eq. intros i. destruct (decide (i < n)%nat) as [Hi|Hi].
  - rewrite lookup_slice by done. rewrite !lookup_splice by (rewrite ?length_slice by done; lia).
    destruct (decide (o + j <= o + i < o + j + length bs)%nat) as [H1|H1].
    + rewrite decide_True by lia. f_equal. lia.
    + rewrite decide_False by lia. by rewrite lookup_slice.
  - rewrite !lookup_ge_None_2; [done|rewrite length_splice; rewrite length_slice; lia|].
    rewrite length_slice; [lia|]. rewrite length_splice; lia.
Qed.

Lemma words_splice w bs j v : 0 < w -> word w v -> (S j * Z.to_nat w <= length bs)%nat ->
  words w (splice (j * Z.to_nat w) (le_bytes (Z.to_nat w) v) bs) = <[j := v]> (words w bs).
Proof.
  intros Hw Hv Hle. pose proof (length_le_bytes (Z.to_nat w) v) as Hlb.
  assert (Hj : (S j <= length bs / Z.to_nat w)%nat) by (apply Nat.div_le_lower_bound; lia).
  apply list_eq. intros i. destruct (decide (i < length bs / Z.to_nat w)%nat) as [Hi|Hi].
  - rewrite words_lookup by (rewrite length_splice by lia; done). destruct (decide (i = j)) as [->|Hne].
    + rewrite list_lookup_insert_eq by (rewrite length_words; lia). rewrite <- Hlb at 2.
      rewrite slice_splice by lia. f_equal. apply le_val_le_bytes_id. by rewrite Z2Nat.id by lia.
    + rewrite list_lookup_insert_ne, words_lookup by done. do 2 f_equal.
      assert ((S i * Z.to_nat w <= length bs)%nat)
        by (pose proof (Nat.mul_div_le (length bs) (Z.to_nat w) ltac:(lia)); nia).
      apply list_eq. intros k. destruct (decide (k < Z.to_nat w)%nat) as [Hk|Hk].
      * rewrite !lookup_slice by done. rewrite lookup_splice by lia. rewrite decide_False by nia. done.
      * rewrite !lookup_ge_None_2; [done|rewrite length_slice; lia|].
        rewrite length_slice; [lia|]. rewrite length_splice; lia.
  - rewrite !lookup_ge_None_2; [done|rewrite length_insert, length_words; lia|].
    rewrite length_words, length_splice; lia.
Qed.

Lemma load_inv p n h bs h' : load p n h = Ok (bs, h') -> 0 < n ->
  exists b o blk, p = Some (b, o) /\ hp_blocks h !! b = Some blk /\ 0 <= o /\ o + n <= Z.of_nat (length blk) /\
    bs = slice (Z.to_nat o) (Z.to_nat n) blk /\ h' = h.
Proof.
  intros H Hn. unfold load in H. rewrite (proj2 (Z.eqb_neq n 0)) in H by lia.
  destruct p as [[b o]|]; [|done]. unfold mbind, stm_bind, st_lift, st_gets in H. cbn in H.
  destruct (hp_blocks h !! b) as [blk|] eqn:Hb; [|done]. cbn in H.
  destruct (_ && _) eqn:E; [|done]. b2p. injection H as <- <-. exists b, o, blk. done.
Qed.

Lemma contents_block w a h b o blk : 0 < w -> 0 <= sa_size a -> sa_ptr a = Some (b, o) -> hp_blocks h !! b = Some blk ->
  0 <= o -> o + sa_size a * w <= Z.of_nat (length blk) ->
  contents w a h = Ok (words w (slice (Z.to_nat o) (Z.to_nat (sa_size a) * Z.to_nat w) blk), h).
Proof.
  intros Hw Hs Hp Hb Ho Hle. unfold contents. rewrite Hp. st_step (load_block h b o (sa_size a * w) blk Hb Ho ltac:(nia) Hle).
  unfold mret, stm_ret. do 3 f_equal. by rewrite Z2Nat.inj_mul by lia.
Qed.

(** Reading and writing through a window of [k] elements at [from]. *)
Lemma window_read w blk o n from k : 0 < w -> (o + n * Z.to_nat w <= length blk)%nat -> (from + k <= n)%nat ->
  words w (slice (o + from * Z.to_nat w) (k * Z.to_nat w) blk) = slice from k (words w (slice o (n * Z.to_nat w) blk)).
Proof.
  intros Hw Hle Hk. rewrite <- words_slice by (rewrite ?length_slice by done; nia).
  rewrite slice_slice by nia. done.
Qed.

Lemma window_write w blk o n j v : 0 < w -> word w v -> (o + n * Z.to_nat w <= length blk)%nat -> (j < n)%nat ->
  words w (slice o (n * Z.to_nat w) (splice (o + j * Z.to_nat w) (le_bytes (Z.to_nat w) v) blk)) =
    <[j := v]> (words w (slice o (n * Z.to_nat w) blk)).
Proof.
  intros Hw Hv Hle Hj. rewrite slice_splice_inside by (rewrite ?length_le_bytes; nia).
  apply words_splice; [done..|]. rewrite length_slice by done. nia.
Qed.

(** The part of an array that a segment shows. *)
Lemma contents_inv w a h l : 0 < w -> 0 < sa_size a -> contents w a h = Ok (l, h) ->
  exists b o blk, sa_ptr a = Some (b, Z.of_nat o) /\ hp_blocks h !! b = Some blk /\
    (o + Z.to_nat (sa_size a) * Z.to_nat w <= length blk)%nat /\
    l = words w (slice o (Z.to_nat (sa_size a) * Z.to_nat w) blk).
Proof.
  intros Hw Hs Hl. unfold contents, mbind, stm_bind in Hl. destruct (load _ _ h) as [[bs h1]| | |] eqn:Hload; [|done..].
  injection Hl as Hl ->. destruct (load_inv _ _ _ _ _ Hload ltac:(nia)) as (b & o & blk & Hp & Hblk & Ho & Hle & -> & _).
  exists b, (Z.to_nat o), blk. rewrite Hp, Z2Nat.id by done. split; [done|]. split; [done|].
  rewrite Z2Nat.inj_mul in Hl by lia. split; [nia|done].
Qed.

(** A segment is a window on the array. It has the elements from [from] to
    [to]; an assignment through it changes the array at the corresponding
    index, and both stay equal but for that element. *)
Theorem segment_shares w a sg from to i v h l
    (Hw : 0 < w) (Hv : word w v) (Hfrom : 0 <= from) (Hseg : segment w a from to = Ok sg)
    (Hl : contents w a h = Ok (l, h)) (Hi : 0 <= i < to - from) :
  let part := slice (Z.to_nat from) (Z.to_nat (to - from)) in
  contents w sg h = Ok (part l, h) /\
  exists h', set_at w sg i v h = Ok (tt, h') /\
    contents w a h' = Ok (<[Z.to_nat (from + i) := v]> l, h') /\
    contents w sg h' = Ok (<[Z.to_nat i := v]> (part l), h').
Proof.
  unfold segment in Hseg. inv_ok. b2p. subst sg. intros part.
  destruct (contents_inv w a h l Hw ltac:(lia) Hl) as (b & o & blk & Hp & Hblk & Hle & Hl').
  set (sg := mkSArray (to - from) (to - from) (data_at w a from)).
  assert (Hsg : sa_ptr sg = Some (b, Z.of_nat (o + Z.to_nat from * Z.to_nat w)))
    by (cbn; unfold data_at; rewrite Hp; do 2 f_equal; lia).
  set (j := (Z.to_nat (from + i))%nat). set (blk' := splice (o + j * Z.to_nat w) (le_bytes (Z.to_nat w) v) blk).
  set (h' := mkHeap (<[b := blk']> (hp_blocks h)) (hp_next h)).
  assert (Hlen' : length blk' = length blk) by (unfold blk'; rewrite length_splice; rewrite ?length_le_bytes; nia).
  assert (Hh' : hp_blocks h' !! b = Some blk') by (cbn; by rewrite lookup_insert_eq).
  assert (Hset : set_at w sg i v h = Ok (tt, h')).
  { unfold set_at, data_at. rewrite Hsg. rewrite (store_block h b _ _ blk Hblk) by (rewrite ?length_le_bytes; nia).
    unfold h', blk'. do 5 f_equal. unfold j. nia. }
  assert (Hread : forall h1 blk1, hp_blocks h1 !! b = Some blk1 -> length blk1 = length blk ->
    contents w sg h1 = Ok (part (words w (slice o (Z.to_nat (sa_size a) * Z.to_nat w) blk1)), h1)).
  { intros h1 blk1 Hb1 Hl1. rewrite (contents_block w sg h1 b _ blk1 Hw) by (done || cbn; nia).
    rewrite Nat2Z.id. cbn [sa_size sg]. unfold part. rewrite <- window_read; [done|done|lia|lia]. }
  split; [by rewrite (Hread h blk), <- Hl'|]. exists h'. split; [exact Hset|].
  pose proof (window_write w blk o (Z.to_nat (sa_size a)) j v Hw Hv Hle ltac:(lia)) as Hwr. fold blk' in Hwr.
  rewrite <- Hl' in Hwr. split.
  - rewrite (contents_block w a h' b _ blk' Hw) by (done || lia). by rewrite Nat2Z.id, Hwr.
  - rewrite (Hread h' blk'), Hwr by done. unfold part, slice, j. do 2 f_equal.
    rewrite drop_insert_ge by lia. replace (Z.to_nat (from + i) - Z.to_nat from)%nat with (Z.to_nat i) by lia.
    by rewrite take_insert_lt by lia.
Qed.

(** An array of the keys 1, 2, 3, 4. *)
Definition example_array : SArray := mkSArray 4 4 (Some (0, 0)).
Definition example_heap : Heap := mkHeap {[0 := unwords 8 [1; 2; 3; 4]]} 1.

Lemma segment_shares_witness :
  exists h', set_at 8 (mkSArray 2 2 (Some (0, 8))) 1 9 example_heap = Ok (tt, h') /\
    contents 8 example_array h' = Ok ([1; 2; 9; 4], h').
Proof.
  destruct (segment_shares 8 example_array (mkSArray 2 2 (Some (0, 8))) 1 3 1 9 example_heap [1; 2; 3; 4])
    as (_ & h' & H1 & H2 & _).
  - lia.
  - unfold word. lia.
  - lia.
  - reflexivity.
  - vm_compute. reflexivity.
  - lia.
  - exists h'. split; [exact H1|exact H2].
Defined.

(** An array appended to itself. [append] reads the size of its argument
    after it has resized the array, so that with [arr] the array itself it
    copies twice the elements onto a region that overlaps their source, and past
    the end: [memcpy] is undefined. *)
Theorem append_self_undefined w junk h0 h a l
    (Hw : 0 < w) (Hown : owns w h0 h a l) (Hne : l <> []) :
  append w junk a None h = Undef.
Proof.
  pose proof (ow_size w _ _ _ _ Hown) as Hs. assert (Hpos : 0 < sa_size a) by (destruct l; [done|cbn in Hs; lia]).
  unfold append. cbn [default from_option id]. rewrite (proj2 (Z.eqb_neq _ _)) by lia.
  destruct (resize_owns w junk Hw h0 h a l (sa_size a + sa_size a) 0 Hown ltac:(lia)) as (h1 & a1 & Hr & Ho1 & _).
  st_step Hr. pose proof (ow_size w _ _ _ _ Ho1) as Hs1. pose proof (ow_capacity w _ _ _ _ Ho1).
  unfold list_resize in Hs1. rewrite length_app, length_take, length_replicate in Hs1.
  apply st_bind_Undef. unfold memcpy. st_step (owns_load w Hw _ _ _ _ Ho1). apply st_bind_Undef.
  destruct Ho1 as [_ _ _ _ Hb]. unfold data_at. destruct (sa_ptr a1) as [[b o]|]; [|lia].
  unfold overlap, st_lift. rewrite Z.eqb_refl.
  rewrite (proj2 (Z.ltb_lt _ _)), (proj2 (Z.ltb_lt _ _)) by nia. done.
Qed.

Lemma append_self_undefined_witness :
  append 8 0 (mkSArray 1 1 (Some (1, 0))) None (mkHeap {[1 := unwords 8 [5]]} 2) = Undef.
Proof.
  apply (append_self_undefined 8 0 (mkHeap ∅ 1) (mkHeap {[1 := unwords 8 [5]]} 2) (mkSArray 1 1 (Some (1, 0))) [5]).
  - lia.
  - split; cbn; try lia.
    + intros b Hb. rewrite lookup_empty. apply lookup_singleton_ne. lia.
    + split; [lia|]. split; [reflexivity|]. exists (unwords 8 [5]). split; [reflexivity|]. split; [vm_compute; discriminate|reflexivity].
  - discriminate.
Defined.
