(* ===== verification/Runs.v ===== *)
(** Blocks of sequence numbers ([struct Block] of src/src/mlt/block_mgr.h) and
    the maximal runs of a finite set of numbers: [free_runs] scans the numbers
    one by one and is the reference for every representation of the set. *)

From S2P Require Import Prelude Bytes.

(** [struct Block]: the half-open interval [first, last) of sequence numbers. *)
Record Block := mkBlock { first : Z; last : Z }.

#[global] Instance Block_eq_dec : EqDecision Block.
Proof. solve_decision. Defined.

(** [Block::operator<] *)
Definition Block_lt (a b : Block) : bool := first a <? first b.

(** The eight bytes of a [Block] in memory. *)
Definition Block_bytes (b : Block) : list Z := le_bytes 4 (first b) ++ le_bytes 4 (last b).
Definition sizeof_Block : Z := 8.

Definition Blocks_bytes (bs : list Block) : list Z := concat (map Block_bytes bs).

(** ** Runs of a set of integers *)

(** [bs] lists disjoint, non-adjacent, non-empty blocks of [lo, hi) in
    increasing order. *)
Fixpoint runs_from (lo : Z) (bs : list Block) (hi : Z) : Prop :=
  match bs with
  | [] => True
  | b :: bs' => lo <= first b < last b /\ last b <= hi /\ runs_from (last b + 1) bs' hi
  end.

Definition covered (bs : list Block) (x : Z) : Prop :=
  exists b, b ∈ bs /\ first b <= x < last b.

(** [bs] is the list of maximal runs of [F], a subset of [0, n). *)
Definition is_runs (n : Z) (F : gset Z) (bs : list Block) : Prop :=
  runs_from 0 bs n /\ forall x, x ∈ F <-> covered bs x.

(** Reference: scan the sequence numbers one by one. [start] is where the run
    of free numbers that ends before [i] began. *)
Fixpoint scan (free : Z -> bool) (i : Z) (k : nat) (start : option Z) : list Block :=
  match k with
  | O => match start with Some s => [mkBlock s i] | None => [] end
  | S k' =>
      if free i then scan free (i + 1) k' (Some (default i start))
      else match start with
           | Some s => mkBlock s i :: scan free (i + 1) k' None
           | None => scan free (i + 1) k' None
           end
  end.

Definition free_runs (n : Z) (F : gset Z) : list Block :=
  scan (fun x => bool_decide (x ∈ F)) 0 (Z.to_nat n) None.

Lemma covered_nil x : ~ covered [] x.
Proof. intros (b & Hb & _). set_solver. Qed.

Lemma covered_cons b bs x : covered (b :: bs) x <-> first b <= x < last b \/ covered bs x.
Proof.
  unfold covered. split.
  - intros (c & Hc & Hx). apply elem_of_cons in Hc as [->|Hc]; eauto.
  - intros [Hx|(c & Hc & Hx)]; [exists b|exists c]; set_solver.
Qed.

Lemma covered_app bs1 bs2 x : covered (bs1 ++ bs2) x <-> covered bs1 x \/ covered bs2 x.
Proof.
  induction bs1 as [|b bs1 IH]; simpl.
  - split; [auto|]. intros [[]%covered_nil|]; done.
  - rewrite !covered_cons, IH. tauto.
Qed.

Lemma runs_from_lower lo bs hi x : runs_from lo bs hi -> covered bs x -> lo <= x < hi.
Proof.
  revert lo. induction bs as [|b bs IH]; intros lo Hr Hx.
  - by apply covered_nil in Hx.
  - destruct Hr as (? & ? & Hr). apply covered_cons in Hx as [?|Hx]; [lia|].
    apply (IH _ Hr) in Hx. lia.
Qed.

Lemma runs_from_weaken lo lo' bs hi : lo' <= lo -> runs_from lo bs hi -> runs_from lo' bs hi.
Proof. destruct bs as [|b bs]; simpl; [done|]. intros ? (? & ? & ?). repeat split; auto; lia. Qed.

(** Two lists of maximal runs that cover the same numbers are equal. *)
Lemma runs_from_unique lo lo' bs bs' hi hi' :
  runs_from lo bs hi -> runs_from lo' bs' hi' ->
  (forall x, covered bs x <-> covered bs' x) -> bs = bs'.
Proof.
  revert lo lo' bs'. induction bs as [|[f l] bs IH]; intros lo lo' bs' Hr Hr' Heq.
  - destruct bs' as [|[f' l'] bs']; [done|]. destruct Hr' as ([? ?] & _). simpl in *.
    destruct (covered_nil f'). apply Heq, covered_cons. left; simpl; lia.
  - destruct bs' as [|[f' l'] bs'].
    { destruct Hr as ([? ?] & _). simpl in *.
      destruct (covered_nil f). apply Heq, covered_cons. left; simpl; lia. }
    destruct Hr as ([Hf Hl] & Hh & Hr), Hr' as ([Hf' Hl'] & Hh' & Hr'). simpl in *.
    assert (Hin : forall x, f <= x < l \/ covered bs x <-> f' <= x < l' \/ covered bs' x).
    { intros x. specialize (Heq x). by rewrite !covered_cons in Heq. }
    assert (Hb : forall x, covered bs x -> l < x)
      by (intros x Hx; pose proof (runs_from_lower _ _ _ _ Hr Hx); lia).
    assert (Hb' : forall x, covered bs' x -> l' < x)
      by (intros x Hx; pose proof (runs_from_lower _ _ _ _ Hr' Hx); lia).
    assert (f = f') as <-.
    { destruct (proj1 (Hin f)) as [?|?%Hb']; [lia| |];
        destruct (proj2 (Hin f')) as [?|?%Hb]; lia. }
    assert (l = l') as <-.
    { destruct (Z.lt_trichotomy l l') as [?|[?|?]]; [|done|].
      - destruct (proj2 (Hin l)) as [?|?%Hb]; lia.
      - destruct (proj1 (Hin l')) as [?|?%Hb']; lia. }
    f_equal. eapply IH; [done..|]. intros x. split; intros Hx.
    + destruct (proj1 (Hin x)) as [?|?]; [auto| |done]. apply Hb in Hx. lia.
    + destruct (proj2 (Hin x)) as [?|?]; [auto| |done]. apply Hb' in Hx. lia.
Qed.

Lemma scan_runs free i k start :
  (forall s, start = Some s -> s < i) ->
  runs_from (match start with Some s => s | None => i end) (scan free i k start)
            (i + Z.of_nat k) /\
  (forall x, covered (scan free i k start) x <->
     (exists s, start = Some s /\ s <= x < i) \/ (i <= x < i + Z.of_nat k /\ free x = true)).
Proof.
  revert i start. induction k as [|k IH]; intros i start Hs; cbn [scan].
  - destruct start as [s|]; simpl.
    + specialize (Hs s eq_refl). split; [lia|]. intros x.
      rewrite covered_cons; simpl. split.
      * intros [?|[]%covered_nil]. left; eauto.
      * intros [(? & [= <-] & ?)|?]; [auto|lia].
    + split; [done|]. intros x. split; [by intros ?%covered_nil|].
      intros [(? & ? & _)|?]; [done|lia].
  - destruct (free i) eqn:Hi.
    + destruct (IH (i + 1) (Some (default i start))) as [IHr IHc].
      { intros s [= <-]. destruct start as [s|]; simpl; [specialize (Hs s eq_refl)|]; lia. }
      split.
      { replace (i + Z.of_nat (S k)) with (i + 1 + Z.of_nat k) by lia.
        destruct start; exact IHr. }
      intros x. rewrite IHc. destruct start as [s|]; simpl.
      * split.
        -- intros [(? & [= <-] & ?)|[? ?]]; [|right; split; [lia|done]].
           destruct (Z.eq_dec x i) as [->|]; [right; split; [lia|done]|left; exists s; split; [done|lia]].
        -- intros [(? & [= <-] & ?)|[? ?]]; [left; exists s; split; [done|lia]|].
           destruct (Z.eq_dec x i) as [->|]; [left; exists s; specialize (Hs s eq_refl); split; [done|lia]|].
           right; split; [lia|done].
      * split.
        -- intros [(? & [= <-] & ?)|[? ?]]; right; [|split; [lia|done]].
           assert (x = i) as -> by lia. split; [lia|done].
        -- intros [(? & ? & _)|[? ?]]; [done|].
           destruct (Z.eq_dec x i) as [->|]; [left; exists i; split; [done|lia]|].
           right; split; [lia|done].
    + destruct (IH (i + 1) None) as [IHr IHc]; [done|].
      replace (i + Z.of_nat (S k)) with (i + 1 + Z.of_nat k) by lia.
      assert (Htail : forall x, covered (scan free (i + 1) k None) x <->
                i <= x < i + 1 + Z.of_nat k /\ free x = true).
      { intros x. rewrite IHc. split.
        - intros [(? & ? & _)|[? ?]]; [done|split; [lia|done]].
        - intros [? ?]. right. split; [|done].
          destruct (Z.eq_dec x i) as [->|]; [congruence|lia]. }
      destruct start as [s|].
      * specialize (Hs s eq_refl). split; [simpl; repeat split; [lia..|done]|].
        intros x. rewrite covered_cons, Htail; simpl. split.
        -- intros [?|?]; [left; eauto|auto].
        -- intros [(? & [= <-] & ?)|?]; auto.
      * split; [eapply runs_from_weaken; [|exact IHr]; lia|].
        intros x. rewrite Htail. split; [auto|]. intros [(? & ? & _)|?]; done.
Qed.

(** The reference scan computes the maximal runs, and every list of maximal
    runs equals it. *)
Lemma free_runs_is_runs n F :
  0 <= n -> (forall x, x ∈ F -> 0 <= x < n) -> is_runs n F (free_runs n F).
Proof.
  intros Hn HF. unfold free_runs.
  destruct (scan_runs (fun x => bool_decide (x ∈ F)) 0 (Z.to_nat n) None) as [Hr Hc]; [done|].
  rewrite Z2Nat.id in Hr, Hc by done. split; [exact Hr|].
  intros x. rewrite Hc. split.
  - intros Hx. right. split; [specialize (HF x Hx); lia|by apply bool_decide_eq_true].
  - intros [(? & ? & _)|[_ Hx]]; [done|by apply bool_decide_eq_true in Hx].
Qed.

Lemma is_runs_bound n F bs x : is_runs n F bs -> x ∈ F -> 0 <= x < n.
Proof. intros [Hr Hc] Hx%Hc. by eapply runs_from_lower. Qed.

Lemma is_runs_free_runs n F bs : 0 <= n -> is_runs n F bs -> bs = free_runs n F.
Proof.
  intros Hn H. destruct (free_runs_is_runs n F) as [Hr Hc]; [done| |].
  { intros x. by eapply is_runs_bound. }
  destruct H as [Hr' Hc']. eapply runs_from_unique; [done..|].
  intros x. by rewrite <- Hc, <- Hc'.
Qed.

(** ** Splitting and growing lists of runs *)

Lemma runs_from_split lo l1 b l2 hi :
  runs_from lo (l1 ++ b :: l2) hi <->
  runs_from lo l1 (first b - 1) /\ lo <= first b < last b /\ last b <= hi /\
  runs_from (last b + 1) l2 hi.
Proof.
  revert lo. induction l1 as [|a l1 IH]; intros lo; simpl; [tauto|].
  rewrite IH. intuition lia.
Qed.

Lemma runs_from_app lo l1 l2 mid hi :
  mid <= hi -> lo <= mid + 1 ->
  runs_from lo l1 mid -> runs_from (mid + 1) l2 hi -> runs_from lo (l1 ++ l2) hi.
Proof.
  revert lo. induction l1 as [|a l1 IH]; intros lo Hm Hlo H1 H2; simpl.
  - by eapply runs_from_weaken; [|exact H2].
  - destruct H1 as (? & ? & H1). repeat split; [lia..|]. apply IH; try done; lia.
Qed.

(** What is left of a block when [seq] is taken out of it. *)
Definition cut_pieces (it : Block) (seq : Z) : list Block :=
  (if first it <? seq then [mkBlock (first it) seq] else []) ++
  (if seq + 1 <? last it then [mkBlock (seq + 1) (last it)] else []).

Lemma covered_cut_pieces it seq x :
  first it <= seq < last it ->
  covered (cut_pieces it seq) x <-> first it <= x < last it /\ x <> seq.
Proof.
  intros Hs. unfold cut_pieces. rewrite covered_app.
  assert (Hone : forall b : Block, covered [b] x <-> first b <= x < last b).
  { intros b. rewrite covered_cons. split; [intros [?|[]%covered_nil]; done|auto]. }
  destruct (Z.ltb_spec (first it) seq), (Z.ltb_spec (seq + 1) (last it));
    rewrite ?Hone; simpl;
    repeat match goal with |- context [covered [] x] =>
      let H := fresh in assert (H : covered [] x <-> False) by (split; [apply covered_nil|done]);
      rewrite H; clear H end; lia.
Qed.

Lemma runs_from_cut lo l1 it l2 hi seq :
  runs_from lo (l1 ++ it :: l2) hi -> first it <= seq < last it ->
  runs_from lo (l1 ++ cut_pieces it seq ++ l2) hi.
Proof.
  intros Hr Hs. apply runs_from_split in Hr as (H1 & ? & ? & H2).
  apply (runs_from_app _ _ _ (first it - 1)); [lia..|done|].
  replace (first it - 1 + 1) with (first it) by lia.
  unfold cut_pieces.
  destruct (Z.ltb_spec (first it) seq), (Z.ltb_spec (seq + 1) (last it)); simpl;
    repeat split; try lia; try (eapply runs_from_weaken; [|exact H2]; lia).
Qed.

Lemma is_runs_cut n F l1 it l2 seq :
  is_runs n F (l1 ++ it :: l2) -> first it <= seq < last it ->
  is_runs n (F ∖ {[seq]}) (l1 ++ cut_pieces it seq ++ l2).
Proof.
  intros [Hr Hc] Hs. split; [by apply runs_from_cut|].
  intros x. rewrite elem_of_difference, elem_of_singleton, Hc, !covered_app, covered_cons.
  rewrite covered_cut_pieces by done.
  apply runs_from_split in Hr as (H1 & _ & _ & H2). split; [tauto|].
  intros [Hx|[?|Hx]].
  - pose proof (runs_from_lower _ _ _ _ H1 Hx). split; [auto|lia].
  - tauto.
  - pose proof (runs_from_lower _ _ _ _ H2 Hx). split; [auto|lia].
Qed.

(** ** Growing the domain *)

Lemma is_runs_single n : 0 < n -> is_runs n (range_set 0 n) [mkBlock 0 n].
Proof.
  intros. split; [simpl; lia|]. intros x.
  rewrite elem_of_range_set, covered_cons; simpl.
  split; [auto|]. by intros [?|[]%covered_nil].
Qed.

Lemma size_bounded n (F : gset Z) :
  0 <= n -> (forall x, x ∈ F -> 0 <= x < n) -> Z.of_nat (size F) <= n.
Proof.
  intros Hn HF. rewrite <- (Z.sub_0_r n), <- (size_range_set 0 n) by done.
  apply inj_le, subseteq_size. intros x Hx. apply elem_of_range_set. auto.
Qed.

Lemma size_union_range (F : gset Z) n n' :
  n <= n' -> (forall x, x ∈ F -> 0 <= x < n) ->
  Z.of_nat (size (F ∪ range_set n n')) = Z.of_nat (size F) + (n' - n).
Proof.
  intros Hn HF. rewrite size_union.
  - rewrite Nat2Z.inj_add, size_range_set by done. lia.
  - intros x Hx Hx'%elem_of_range_set. apply HF in Hx. lia.
Qed.

(** Growing the last run, or starting a new one after a taken number. *)
Lemma is_runs_extend_new n n' F bs :
  is_runs n F bs -> 0 <= n < n' -> n - 1 ∉ F ->
  is_runs n' (F ∪ range_set n n') (bs ++ [mkBlock n n']).
Proof.
  intros [Hr Hc] Hn Hlast. split.
  - apply (runs_from_app _ _ _ (n - 1)); [lia..| |simpl; lia].
    destruct (decide (bs = [])) as [->|Hne]; [done|].
    destruct (exists_last Hne) as (l & b & ->).
    apply runs_from_split in Hr as (H1 & Hb & Hl & _). apply runs_from_split.
    repeat split; try done; [lia..|].
    assert (last b <> n); [|lia]. intros <-. apply Hlast, Hc, covered_app.
    right. apply covered_cons. left. lia.
  - intros x. rewrite elem_of_union, Hc, elem_of_range_set, covered_app, covered_cons; simpl.
    split; [tauto|]. intros [?|[?|[]%covered_nil]]; auto.
Qed.

Lemma is_runs_extend_last n n' F l b :
  is_runs n F (l ++ [b]) -> n < n' -> last b = n ->
  is_runs n' (F ∪ range_set n n') (l ++ [mkBlock (first b) n']).
Proof.
  intros [Hr Hc] Hn Hb. apply runs_from_split in Hr as (H1 & ? & ? & _). split.
  - apply runs_from_split; simpl. repeat split; [done|lia..].
  - intros x. rewrite elem_of_union, Hc, elem_of_range_set, !covered_app, !covered_cons.
    simpl. split.
    + intros [[?|[?|[]%covered_nil]]|?]; auto; right; left; lia.
    + intros [?|[?|[]%covered_nil]]; [auto|].
      destruct (decide (x < n)); [left; right; left; lia|right; lia].
Qed.

(** Disjoint non-adjacent blocks below [n]: at most every second number starts
    one. *)
Lemma runs_from_length lo bs hi : runs_from lo bs hi -> lo <= hi + 1 ->
  2 * Z.of_nat (length bs) <= hi + 1 - lo.
Proof.
  revert lo. induction bs as [|b bs IH]; intros lo; simpl; [lia|].
  intros (? & ? & Hr) ?. apply IH in Hr; lia.
Qed.

Lemma free_runs_length n F : 0 <= n -> (forall x, x ∈ F -> 0 <= x < n) ->
  2 * Z.of_nat (length (free_runs n F)) <= n + 1.
Proof.
  intros Hn HF. destruct (free_runs_is_runs n F Hn HF) as [Hr _].
  apply runs_from_length in Hr; lia.
Qed.


(** ** The reference scan from a given number on *)

Definition runs_between (free : Z -> bool) (a n : Z) : list Block :=
  scan free a (Z.to_nat (n - a)) None.

Lemma free_runs_between n F :
  free_runs n F = runs_between (fun x => bool_decide (x ∈ F)) 0 n.
Proof. unfold free_runs, runs_between. by rewrite Z.sub_0_r. Qed.

Lemma scan_open free i j k s :
  (forall x, i <= x < i + Z.of_nat j -> free x = true) -> (j <= k)%nat ->
  scan free i k (Some s) = scan free (i + Z.of_nat j) (k - j) (Some s).
Proof.
  revert i k. induction j as [|j IH]; intros i k Hx Hk.
  - by rewrite Z.add_0_r, Nat.sub_0_r.
  - destruct k as [|k]; [lia|]. cbn [scan]. rewrite Hx by lia. cbn [default Nat.sub].
    rewrite IH by (lia || intros; apply Hx; lia). f_equal. lia.
Qed.

Lemma scan_skip free i j k :
  (forall x, i <= x < i + Z.of_nat j -> free x = false) -> (j <= k)%nat ->
  scan free i k None = scan free (i + Z.of_nat j) (k - j) None.
Proof.
  revert i k. induction j as [|j IH]; intros i k Hx Hk.
  - by rewrite Z.add_0_r, Nat.sub_0_r.
  - destruct k as [|k]; [lia|]. cbn [scan]. rewrite Hx by lia. cbn [Nat.sub].
    rewrite IH by (lia || intros; apply Hx; lia). f_equal. lia.
Qed.

(** Taken numbers contribute nothing. *)
Lemma runs_between_taken free a b n :
  a <= b <= n -> (forall x, a <= x < b -> free x = false) ->
  runs_between free a n = runs_between free b n.
Proof.
  intros Hab Hx. unfold runs_between.
  rewrite (scan_skip free a (Z.to_nat (b - a))) by (lia || intros; apply Hx; lia).
  f_equal; lia.
Qed.

(** Free numbers up to a taken one form one block. *)
Lemma runs_between_free free a b n :
  a < b < n -> (forall x, a <= x < b -> free x = true) -> free b = false ->
  runs_between free a n = mkBlock a b :: runs_between free b n.
Proof.
  intros Hab Hx Hb. unfold runs_between.
  replace (Z.to_nat (n - a)) with (S (Z.to_nat (n - a - 1))) by lia.
  cbn [scan]. rewrite Hx by lia. cbn [default].
  rewrite (scan_open free (a + 1) (Z.to_nat (b - a - 1))) by (lia || intros; apply Hx; lia).
  replace (a + 1 + Z.of_nat (Z.to_nat (b - a - 1))) with b by lia.
  replace (Z.to_nat (n - a - 1) - Z.to_nat (b - a - 1))%nat with (S (Z.to_nat (n - b - 1))) by lia.
  replace (Z.to_nat (n - b)) with (S (Z.to_nat (n - b - 1))) by lia.
  cbn [scan]. by rewrite Hb.
Qed.

(** Free numbers up to the end form the last block. *)
Lemma runs_between_free_end free a n :
  a < n -> (forall x, a <= x < n -> free x = true) ->
  runs_between free a n = [mkBlock a n].
Proof.
  intros Hab Hx. unfold runs_between.
  replace (Z.to_nat (n - a)) with (S (Z.to_nat (n - a - 1))) by lia.
  cbn [scan]. rewrite Hx by lia. cbn [default].
  rewrite (scan_open free (a + 1) (Z.to_nat (n - a - 1))) by (lia || intros; apply Hx; lia).
  rewrite Nat.sub_diag. cbn [scan]. do 2 f_equal. lia.
Qed.

(** Taking a number out of the set changes the number of runs by how many of
    its neighbours are free. *)
Lemma free_runs_length_cut n F seq :
  0 <= n -> (forall x, x ∈ F -> 0 <= x < n) -> seq ∈ F ->
  Z.of_nat (length (free_runs n (F ∖ {[seq]}))) =
  Z.of_nat (length (free_runs n F)) - 1
    + (if decide (seq - 1 ∈ F) then 1 else 0) + (if decide (seq + 1 ∈ F) then 1 else 0).
Proof.
  intros Hn HF Hseq. pose proof (free_runs_is_runs n F Hn HF) as Hruns.
  pose proof Hruns as [Hr Hc].
  destruct (proj1 (Hc seq) Hseq) as (it & Hit & Hs).
  apply list_elem_of_split in Hit as (l1 & l2 & Heq). rewrite Heq in *.
  rewrite <- (is_runs_free_runs n (F ∖ {[seq]}) (l1 ++ cut_pieces it seq ++ l2))
    by (done || by apply is_runs_cut).
  rewrite !length_app. cbn [length].
  assert (Hnb : forall x, first it - 1 <= x <= last it -> x ∈ F <-> first it <= x < last it).
  { intros x Hx. apply runs_from_split in Hr as (H1 & ? & ? & H2).
    rewrite Hc, covered_app, covered_cons. split; [|auto].
    intros [Hy|[?|Hy]]; [|done|].
    - pose proof (runs_from_lower _ _ _ _ H1 Hy). lia.
    - pose proof (runs_from_lower _ _ _ _ H2 Hy). lia. }
  unfold cut_pieces. rewrite !length_app.
  assert (Hl : seq - 1 ∈ F <-> first it < seq) by (rewrite Hnb by lia; lia).
  assert (Hrr : seq + 1 ∈ F <-> seq + 1 < last it) by (rewrite Hnb by lia; lia).
  destruct (decide (seq - 1 ∈ F)) as [Hd|Hd]; rewrite Hl in Hd;
    destruct (decide (seq + 1 ∈ F)) as [He|He]; rewrite Hrr in He;
    destruct (Z.ltb_spec (first it) seq), (Z.ltb_spec (seq + 1) (last it)); simpl; lia.
Qed.
