(* ===== verification/Bits.v ===== *)
(** Bits of two's complement 64-bit words ([long]), held as integers in
    [-2^63, 2^63): every bit from 63 on equals the sign bit. *)

From S2P Require Import Prelude.

Definition sext (z : Z) : Prop := forall j, 63 <= j -> Z.testbit z j = Z.testbit z 63.

Lemma sext_0 : sext 0.
Proof. intros j _. by rewrite !Z.bits_0. Qed.

Lemma sext_lor a b : sext a -> sext b -> sext (Z.lor a b).
Proof. intros Ha Hb j Hj. by rewrite !Z.lor_spec, Ha, Hb. Qed.

Lemma sext_land a b : sext a -> sext b -> sext (Z.land a b).
Proof. intros Ha Hb j Hj. by rewrite !Z.land_spec, Ha, Hb. Qed.

Lemma sext_lnot a : sext a -> sext (Z.lnot a).
Proof. intros Ha j Hj. by rewrite !Z.lnot_spec, Ha by lia. Qed.

Lemma sext_range z : - 2 ^ 63 <= z < 2 ^ 63 -> sext z.
Proof.
  intros Hz j Hj. destruct (decide (0 <= z)).
  - destruct (decide (z = 0)) as [->|]; [by rewrite !Z.bits_0|].
    assert (Z.log2 z < 63) by (apply Z.log2_lt_pow2; lia).
    by rewrite !Z.bits_above_log2 by lia.
  - assert (Z.log2 (Z.pred (- z)) < 63).
    { destruct (decide (z = -1)) as [->|]; [done|]. apply Z.log2_lt_pow2; lia. }
    by rewrite !Z.bits_above_log2_neg by lia.
Qed.

Lemma s64_range z : - 2 ^ 63 <= s64 z < 2 ^ 63.
Proof.
  unfold s64, swrap. pose proof (Z.mod_pos_bound (z + 2 ^ (64 - 1)) (2 ^ 64)). lia.
Qed.

Lemma sext_s64 z : sext (s64 z).
Proof. apply sext_range, s64_range. Qed.

(** Wrapping to 64 bits keeps the low 64 bits. *)
Lemma s64_testbit z j : 0 <= j < 64 -> Z.testbit (s64 z) j = Z.testbit z j.
Proof.
  intros Hj. rewrite <- (Z.mod_pow2_bits_low (s64 z) 64), <- (Z.mod_pow2_bits_low z 64) by lia.
  f_equal. unfold s64, swrap. rewrite Zminus_mod_idemp_l. f_equal. lia.
Qed.

(** A nonzero word has a bit among its 64. *)
Lemma sext_nonzero z : sext z -> z <> 0 -> exists j, 0 <= j < 64 /\ Z.testbit z j = true.
Proof.
  intros Hs Hz.
  destruct (decide (Exists (fun j => Z.testbit z j = true) (seqZ 0 64))) as [He|He].
  - apply Exists_exists in He as (j & Hj%elem_of_seqZ & Hb). exists j. split; [lia|done].
  - destruct Hz. apply Z.bits_inj'. intros j Hj. rewrite Z.bits_0.
    assert (Hlow : forall i, 0 <= i < 64 -> Z.testbit z i = false).
    { intros i Hi. apply not_true_iff_false. intros Hb. apply He, Exists_exists.
      exists i. split; [apply elem_of_seqZ; lia|done]. }
    destruct (decide (j < 64)); [by apply Hlow; lia|].
    rewrite Hs by lia. apply Hlow. lia.
Qed.

(** ** [__builtin_ctzl] *)

Fixpoint find_bit (k : nat) (j z : Z) : Z :=
  match k with
  | O => 64
  | S k' => if Z.testbit z j then j else find_bit k' (j + 1) z
  end.

(** The number of trailing zero bits; the builtin is undefined at 0. *)
Definition ctzl (z : Z) : outcome Z :=
  if z =? 0 then Undef else Ok (find_bit 64 0 z).

Lemma find_bit_spec k j z :
  (exists i, j <= i < j + Z.of_nat k /\ Z.testbit z i = true) ->
  j <= find_bit k j z < j + Z.of_nat k /\ Z.testbit z (find_bit k j z) = true /\
  forall i, j <= i < find_bit k j z -> Z.testbit z i = false.
Proof.
  revert j. induction k as [|k IH]; intros j (i & Hi & Hb); [lia|].
  cbn [find_bit]. destruct (Z.testbit z j) eqn:Hj.
  - repeat split; [lia..|done|]. intros; lia.
  - destruct (IH (j + 1)) as (Hr & Ht & Hf).
    { exists i. split; [|done]. destruct (decide (i = j)) as [->|]; [congruence|lia]. }
    repeat split; [lia..|done|]. intros x Hx.
    destruct (decide (x = j)) as [->|]; [done|]. apply Hf. lia.
Qed.

Lemma ctzl_spec z : sext z -> z <> 0 ->
  exists t, ctzl z = Ok t /\ 0 <= t < 64 /\ Z.testbit z t = true /\
    forall i, 0 <= i < t -> Z.testbit z i = false.
Proof.
  intros Hs Hz. exists (find_bit 64 0 z). unfold ctzl.
  rewrite (proj2 (Z.eqb_neq _ _)) by done. split; [done|].
  destruct (find_bit_spec 64 0 z) as (? & ? & ?); [|done].
  destruct (sext_nonzero z Hs Hz) as (j & ? & ?). exists j. split; [lia|done].
Qed.

(** [~0l << t] *)
Definition ones_from (t : Z) : Z := s64 (Z.shiftl (Z.lnot 0) t).

Lemma sext_ones_from t : sext (ones_from t).
Proof. apply sext_s64. Qed.

Lemma ones_from_testbit t j : 0 <= t -> 0 <= j < 64 -> Z.testbit (ones_from t) j = (t <=? j).
Proof.
  intros Ht Hj. unfold ones_from. rewrite s64_testbit by done.
  rewrite Z.shiftl_spec by lia. change (Z.lnot 0) with (-1).
  destruct (Z.leb_spec t j); [by rewrite Z.bits_m1 by lia|].
  by rewrite Z.testbit_neg_r by lia.
Qed.

(** [z & -z]: the lowest set bit of a word. *)
Definition lowbit (z : Z) : Z := Z.land z (- z).

(** ** Rounding up to a power of two

    [Lowbit] and [RoundUpPower2], which src/src/mlt/spsc_queue.h and
    src/src/mlt/meter.h share. The sum is of type [long]. *)
Fixpoint RoundUpPower2 (fuel : nat) (x : Z) : outcome Z :=
  match fuel with
  | O => OutOfFuel
  | S fuel' =>
      if x =? lowbit x then Ok x
      else DEFINED (x + lowbit x <? 2 ^ 63);; RoundUpPower2 fuel' (x + lowbit x)
  end.

(** [x & -x] is the largest power of two that divides [x]. *)
Lemma lowbit_odd m : lowbit (2 * m + 1) = 1.
Proof.
  unfold lowbit. replace (- (2 * m + 1)) with (2 * Z.lnot m + 1) by (unfold Z.lnot; lia).
  apply Z.bits_inj'. intros j Hj. rewrite Z.land_spec.
  destruct (decide (j = 0)) as [->|Hne].
  - rewrite !Z.testbit_odd_0. done.
  - replace j with (Z.succ (j - 1)) by lia.
    rewrite !Z.testbit_odd_succ, Z.lnot_spec, andb_negb_r by lia.
    change 1 with (2 ^ 0). by rewrite Z.pow2_bits_false by lia.
Qed.

Lemma lowbit_shift t m : 0 <= t -> lowbit (2 ^ t * (2 * m + 1)) = 2 ^ t.
Proof.
  intros Ht. unfold lowbit.
  replace (- (2 ^ t * (2 * m + 1))) with (Z.shiftl (- (2 * m + 1)) t)
    by (rewrite Z.shiftl_mul_pow2; lia).
  replace (2 ^ t * (2 * m + 1)) with (Z.shiftl (2 * m + 1) t)
    by (rewrite Z.shiftl_mul_pow2; lia).
  rewrite <- Z.shiftl_land. fold (lowbit (2 * m + 1)).
  rewrite lowbit_odd, Z.shiftl_mul_pow2 by lia. lia.
Qed.

(** Every positive number is an odd number times a power of two. *)
Lemma odd_part x : 0 < x -> exists t m, 0 <= t /\ 0 <= m /\ x = 2 ^ t * (2 * m + 1).
Proof.
  intros Hx. assert (Hx0 : 0 <= x) by lia. revert Hx. pattern x.
  apply Z_lt_induction; [|done]. clear x Hx0.
  intros x IH Hx. destruct (Z.Even_or_Odd x) as [[y ->]|[y ->]].
  - destruct (IH y ltac:(lia) ltac:(lia)) as (t & m & ? & ? & ->).
    exists (t + 1), m. rewrite Z.pow_add_r by lia. lia.
  - exists 0, y. lia.
Qed.

(** Adding the lowest bit to [x] stays below the next power of two, and makes
    [x] divisible by a higher power. *)
Lemma RoundUpPower2_steps fuel x t k :
  0 <= t <= k -> k <= 62 -> 0 < x <= 2 ^ k -> 2 ^ k < 2 * x -> (2 ^ t | x) -> (k - t < Z.of_nat fuel) ->
  RoundUpPower2 fuel x = Ok (2 ^ k).
Proof.
  revert x t. induction fuel as [|fuel IH]; intros x t Ht Hk Hx Hx2 Hdiv Hf; [lia|].
  cbn [RoundUpPower2]. destruct (odd_part x ltac:(lia)) as (s & m & Hs & Hm & Heq).
  assert (Hlow : lowbit x = 2 ^ s) by (rewrite Heq; by apply lowbit_shift).
  rewrite Hlow. case_if E; b2p.
  - f_equal. assert (m = 0) as -> by nia. rewrite E in *.
    assert (s <= k) by (apply (Z.pow_le_mono_r_iff 2); lia).
    destruct (decide (s = k)) as [->|]; [done|].
    pose proof (Z.pow_le_mono_r 2 (s + 1) k ltac:(lia) ltac:(lia)) as Hp.
    rewrite Z.pow_add_r in Hp by lia. lia.
  - assert (Hm1 : 0 < m) by (destruct (decide (m = 0)) as [->|]; [lia|lia]).
    assert (Hts : t <= s).
    { destruct (decide (t <= s)) as [|Hlt]; [done|exfalso]. destruct Hdiv as [q Hq].
      replace t with (s + 1 + (t - s - 1)) in Hq by lia.
      rewrite !Z.pow_add_r in Hq by lia. pose proof (Z.pow_pos_nonneg 2 s ltac:(lia) Hs).
      assert (2 * m + 1 = 2 * (q * 2 ^ (t - s - 1))); [|lia].
      apply (Z.mul_cancel_l _ _ (2 ^ s)); lia. }
    assert (Hsk : s < k).
    { destruct (decide (s < k)) as [|Hge]; [done|exfalso].
      pose proof (Z.pow_le_mono_r 2 k s ltac:(lia) ltac:(lia)). nia. }
    pose proof (Z.pow_pos_nonneg 2 s ltac:(lia) Hs) as Hps.
    assert (Hle : x + 2 ^ s <= 2 ^ k).
    { assert (Hpk : 2 ^ k = 2 ^ s * 2 * 2 ^ (k - s - 1)).
      { replace k with (s + 1 + (k - s - 1)) at 1 by lia. rewrite !Z.pow_add_r by lia. lia. }
      assert (2 * m + 1 <= 2 * 2 ^ (k - s - 1))
        by (apply (Z.mul_le_mono_pos_l _ _ (2 ^ s)); lia).
      rewrite Hpk, Heq. nia. }
    pose proof (Z.pow_le_mono_r 2 k 62 ltac:(lia) ltac:(lia)).
    pass. apply (IH _ (s + 1)); try lia.
    exists (m + 1). rewrite Heq, Z.pow_add_r by lia. lia.
Qed.

(** It terminates within 64 rounds on the least power of two that is not below
    [x]. *)
Lemma RoundUpPower2_spec x : 0 < x <= 2 ^ 62 -> RoundUpPower2 64 x = Ok (2 ^ Z.log2_up x).
Proof.
  intros Hx. destruct (decide (x = 1)) as [->|]; [reflexivity|].
  pose proof (Z.log2_up_spec x ltac:(lia)) as [Hlo Hhi].
  assert (Z.log2_up x <= 62) by (apply Z.log2_up_le_pow2; lia).
  pose proof (Z.log2_up_pos x ltac:(lia)).
  apply (RoundUpPower2_steps _ _ 0); [lia|lia|lia| |apply Z.divide_1_l|lia].
  rewrite <- (Z.succ_pred (Z.log2_up x)), Z.pow_succ_r by lia. lia.
Qed.
