(* ===== verification/Queues.v ===== *)
(** The queues between threads: Lamport's single-producer single-consumer ring
    (src/src/mlt/spsc_queue.h), the mutex-protected queue
    (src/src/mlt/threadsafe_queue.h) and the completion queue
    (src/src/mlt/completion.{h,cc}). *)

From S2P Require Import Prelude Bits.
From stdpp Require Import relations.
Open Scope Z_scope.

(** ** SpscQueue *)

(** [vec_] holds [None] in slots that are default-constructed or moved from. *)
Record SpscQueue (T : Type) := mkSpsc {
  capacity_ : Z;
  mask_ : Z;
  head_ : Z;
  tail_ : Z;
  vec_ : list (option T) }.
Arguments mkSpsc {T}.
Arguments capacity_ {T}. Arguments mask_ {T}. Arguments head_ {T}.
Arguments tail_ {T}. Arguments vec_ {T}.

Section spsc.
Context {T : Type}.
Implicit Types q : SpscQueue T.

(** The constructor, with the [int] argument [count]. *)
Definition Spsc_new (count : Z) : outcome (SpscQueue T) :=
  capacity ← RoundUpPower2 64 count;
  CHECK (u64 capacity =? u64 (lowbit (s64 (u64 capacity))));;
  Ok (mkSpsc (u64 capacity) (u64 (capacity - 1)) 0 0 (replicate (Z.to_nat (u64 capacity)) None)).

Definition slot q (pos : Z) : nat := Z.to_nat (Z.land pos (mask_ q)).

(** [vec_[cur_tail & mask_] = std::move(new_value)] *)
Definition write_slot q (cur_tail : Z) (v : T) : outcome (SpscQueue T) :=
  DEFINED (bool_decide (slot q cur_tail < length (vec_ q))%nat);;
  Ok (mkSpsc (capacity_ q) (mask_ q) (head_ q) (tail_ q) (<[slot q cur_tail := Some v]> (vec_ q))).

(** [*value = std::move(vec_[cur_head & mask_])] *)
Definition move_slot q (cur_head : Z) : outcome (SpscQueue T * option T) :=
  v ← deref (vec_ q !! slot q cur_head);
  Ok (mkSpsc (capacity_ q) (mask_ q) (head_ q) (tail_ q) (<[slot q cur_head := None]> (vec_ q)), v).

Definition store_tail q (t : Z) : SpscQueue T :=
  mkSpsc (capacity_ q) (mask_ q) (head_ q) t (vec_ q).
Definition store_head q (h : Z) : SpscQueue T :=
  mkSpsc (capacity_ q) (mask_ q) h (tail_ q) (vec_ q).

(** [cur_tail - cur_head >= capacity_] *)
Definition is_full q (cur_head cur_tail : Z) : bool := capacity_ q <=? u64 (cur_tail - cur_head).

Definition Spsc_TryPush q (new_value : T) : outcome (SpscQueue T * bool) :=
  let cur_head := head_ q in
  let cur_tail := tail_ q in
  if is_full q cur_head cur_tail then Ok (q, false)
  else
    q ← write_slot q cur_tail new_value;
    Ok (store_tail q (u64 (cur_tail + 1)), true).

Definition Spsc_TryPop q : outcome (SpscQueue T * option (option T)) :=
  let cur_head := head_ q in
  let cur_tail := tail_ q in
  if cur_tail =? cur_head then Ok (q, None)
  else
    r ← move_slot q cur_head;
    Ok (store_head (fst r) (u64 (cur_head + 1)), Some (snd r)).

(** *** Producer and consumer as interleaved threads

    Each atomic access and each slot access is a step of its own. [Push] and
    [TryPush] run in the producer, [WaitAndPop] and [TryPop] in the
    consumer. *)
Inductive producer :=
| PIdle
| PHead (new_value : T) (cur_head : Z)
| PTail (new_value : T) (cur_head cur_tail : Z)
| PWrote (new_value : T) (cur_tail : Z).

Inductive consumer :=
| CIdle
| CHead (cur_head : Z)
| CTail (cur_head cur_tail : Z)
| CMoved (cur_head : Z) (value : option T).

(** The modification orders of [head_] and [tail_]: every value stored since
    the constructor, oldest first. A load is not required to return the last
    one: coherence only forbids a thread to go back behind the store that it
    has seen last ([seen_head] for the producer's relaxed loads of [head_],
    [seen_tail] for the consumer's acquire loads of [tail_]; the one thread
    that stores a variable always sees its own last store). *)
Record atomics := mkAtomics {
  heads : list Z;
  tails : list Z;
  seen_head : nat;
  seen_tail : nat }.

(** A load of [head_] by the producer reads [h], one of [tail_] by the consumer
    reads [t]. *)
Definition load_head (a : atomics) (h : Z) (a' : atomics) : Prop :=
  exists i, (seen_head a <= i)%nat /\ heads a !! i = Some h /\
    a' = mkAtomics (heads a) (tails a) i (seen_tail a).
Definition load_tail (a : atomics) (t : Z) (a' : atomics) : Prop :=
  exists i, (seen_tail a <= i)%nat /\ tails a !! i = Some t /\
    a' = mkAtomics (heads a) (tails a) (seen_head a) i.

Definition append_head (a : atomics) (h : Z) : atomics :=
  mkAtomics (heads a ++ [h]) (tails a) (seen_head a) (seen_tail a).
Definition append_tail (a : atomics) (t : Z) : atomics :=
  mkAtomics (heads a) (tails a ++ [t]) (seen_head a) (seen_tail a).

(** [head_ cfg_q] and [tail_ cfg_q] are the values stored last; [pushed] and
    [popped] record the values of completed operations. *)
Record spsc_config := mkConfig {
  cfg_q : SpscQueue T;
  cfg_at : atomics;
  cfg_prod : producer;
  cfg_cons : consumer;
  cfg_pushed : list T;
  cfg_popped : list (option T) }.

(** An access of a slot takes effect where it stands in its thread. For the
    consumer's access of an element the release store of [tail_] and its
    acquire load give that; the relaxed store of [head_] (line 61) does not
    order the consumer's access of a slot before the producer's next write of
    it, which the model takes from the machine. *)
Inductive spsc_step : spsc_config -> spsc_config -> Prop :=
| push_load_head q a a' c ps os v h :
    load_head a h a' ->
    spsc_step (mkConfig q a PIdle c ps os) (mkConfig q a' (PHead v h) c ps os)
| push_load_tail q a c ps os v h :
    spsc_step (mkConfig q a (PHead v h) c ps os) (mkConfig q a (PTail v h (tail_ q)) c ps os)
| push_spin q a a' c ps os v h t h' :
    is_full q h t = true -> load_head a h' a' ->
    spsc_step (mkConfig q a (PTail v h t) c ps os) (mkConfig q a' (PHead v h') c ps os)
| try_push_fails q a c ps os v h t :
    is_full q h t = true ->
    spsc_step (mkConfig q a (PTail v h t) c ps os) (mkConfig q a PIdle c ps os)
| push_write q q' a c ps os v h t :
    is_full q h t = false -> write_slot q t v = Ok q' ->
    spsc_step (mkConfig q a (PTail v h t) c ps os) (mkConfig q' a (PWrote v t) c ps os)
| push_store_tail q a c ps os v t :
    spsc_step (mkConfig q a (PWrote v t) c ps os)
              (mkConfig (store_tail q (u64 (t + 1))) (append_tail a (u64 (t + 1))) PIdle c (ps ++ [v]) os)
| pop_load_head q a p ps os :
    spsc_step (mkConfig q a p CIdle ps os) (mkConfig q a p (CHead (head_ q)) ps os)
| pop_load_tail q a a' p ps os h t :
    load_tail a t a' ->
    spsc_step (mkConfig q a p (CHead h) ps os) (mkConfig q a' p (CTail h t) ps os)
| pop_empty q a p ps os h t :
    t = h ->
    spsc_step (mkConfig q a p (CTail h t) ps os) (mkConfig q a p CIdle ps os)
| pop_move q q' a p ps os h t v :
    t <> h -> move_slot q h = Ok (q', v) ->
    spsc_step (mkConfig q a p (CTail h t) ps os) (mkConfig q' a p (CMoved h v) ps os)
| pop_store_head q a p ps os h v :
    spsc_step (mkConfig q a p (CMoved h v) ps os)
              (mkConfig (store_head q (u64 (h + 1))) (append_head a (u64 (h + 1))) p CIdle ps (os ++ [v])).

(** The constructor has stored [0] in both. *)
Definition spsc_init q : spsc_config :=
  mkConfig q (mkAtomics [head_ q] [tail_ q] 0 0) PIdle CIdle [] [].
End spsc.
Arguments producer : clear implicits.
Arguments consumer : clear implicits.
Arguments spsc_config : clear implicits.

(** ** ThreadsafeQueue

    Every operation holds the mutex from its first to its last access, so each
    is one step on the list of elements, oldest first. *)
Section threadsafe.
Context {T : Type}.

Definition ThreadsafeQueue := list T.

Definition Threadsafe_Push (q : ThreadsafeQueue) (new_value : T) : ThreadsafeQueue :=
  q ++ [new_value].

Definition Threadsafe_TryPop (q : ThreadsafeQueue) : ThreadsafeQueue * option T :=
  match q with
  | [] => ([], None)
  | v :: q' => (q', Some v)
  end.

(** The condition variable lets the caller pass only when the queue is not
    empty: [None] means that it is still waiting. *)
Definition Threadsafe_WaitAndPop (q : ThreadsafeQueue) : option (ThreadsafeQueue * T) :=
  match q with
  | [] => None
  | v :: q' => Some (q', v)
  end.
End threadsafe.
Arguments ThreadsafeQueue : clear implicits.

(** ** CompletionQueue *)

Inductive CompletionType := CompSend | CompRecv.

(** [struct Completion]; the union of [bytes_received] and [bytes_sent] is one
    field. *)
Record Completion := mkCompletion {
  comp_msg_id : Z;
  comp_type : CompletionType;
  comp_remote_comm_id : Z;
  comp_bytes : Z }.

Definition CompletionQueue_Push (q : list Completion) (comp : Completion) : list Completion :=
  q ++ [comp].

(** The [while] loop of [PollOnce]: returns the queue, the completions written
    to [comps[cnt..]] and the final count. *)
Fixpoint PollOnce_loop (q : list Completion) (max_comps cnt : Z) :
    list Completion * list Completion * Z :=
  match q with
  | [] => ([], [], cnt)
  | comp :: q' =>
      if cnt <? max_comps then
        let '(q1, comps, n) := PollOnce_loop q' max_comps (cnt + 1) in (q1, comp :: comps, n)
      else (q, [], cnt)
  end.

Definition PollOnce (q : list Completion) (max_comps : Z) : list Completion * list Completion * Z :=
  PollOnce_loop q max_comps 0.

(** ** The ring holds the elements between the two counters *)

Lemma Spsc_new_ok {T} count : 0 < count <= 2 ^ 31 ->
  exists k, k = Z.log2_up count /\ 0 <= k <= 31 /\ count <= 2 ^ k /\
    Spsc_new (T := T) count = Ok (mkSpsc (2 ^ k) (2 ^ k - 1) 0 0 (replicate (Z.to_nat (2 ^ k)) None)).
Proof.
  intros Hc. exists (Z.log2_up count). split; [done|].
  assert (0 <= Z.log2_up count <= 31).
  { split; [apply Z.log2_up_nonneg|]. apply Z.log2_up_le_pow2; lia. }
  assert (0 < 2 ^ Z.log2_up count <= 2 ^ 31) as Hp.
  { split; [lia|]. apply Z.pow_le_mono_r; lia. }
  split; [done|]. split.
  { destruct (decide (count = 1)) as [->|]; [done|]. apply Z.log2_up_spec. lia. }
  unfold Spsc_new. rewrite RoundUpPower2_spec by lia. cbn [mbind outcome_bind]. unwrap.
  assert (Hl : lowbit (2 ^ Z.log2_up count) = 2 ^ Z.log2_up count).
  { rewrite <- (Z.mul_1_r (2 ^ Z.log2_up count)) at 1. apply (lowbit_shift _ 0). lia. }
  rewrite Hl. unwrap. by pass.
Qed.

(** Differences of the wrapped counters are exact. *)
Lemma u64_sub i j : 0 <= j - i < 2 ^ 64 -> u64 (u64 j - u64 i) = j - i.
Proof.
  intros. unfold u64. rewrite wrap_sub_l, wrap_sub_r. by apply wrap_small.
Qed.

Lemma u64_eq i j : 0 <= j - i < 2 ^ 64 -> u64 j = u64 i -> j = i.
Proof. intros Hd He. pose proof (u64_sub i j Hd) as Hs. rewrite He, Z.sub_diag in Hs.
  change (u64 0) with 0 in Hs. lia. Qed.

Lemma u64_succ j : u64 (u64 j + 1) = u64 (j + 1).
Proof. unfold u64. apply wrap_add_l. Qed.

(** The stores of a counter: its values from 0 to [n]. *)
Definition counter_stores (l : list Z) (n : Z) : Prop :=
  Z.of_nat (length l) = n + 1 /\ forall i x, l !! i = Some x -> x = u64 (Z.of_nat i).

Lemma counter_stores_app l n x : counter_stores l n -> x = u64 (n + 1) -> counter_stores (l ++ [x]) (n + 1).
Proof.
  intros (Hl & Hi) ->. split; [rewrite length_app; simpl; lia|].
  intros i x [?|(? & Hx)]%lookup_app_Some; [eauto|].
  apply list_lookup_singleton_Some in Hx as (? & <-). f_equal. lia.
Qed.

Lemma counter_stores_lookup l n i x : counter_stores l n -> l !! i = Some x ->
  x = u64 (Z.of_nat i) /\ Z.of_nat i <= n.
Proof. intros (Hl & Hi) Hx. split; [eauto|]. apply lookup_lt_Some in Hx. lia. Qed.

Section ring.
Context {T : Type} (k : Z) (Hk : 0 <= k <= 31).
Let cap := 2 ^ k.

Lemma cap_bounds : 0 < cap <= 2 ^ 31.
Proof. unfold cap. split; [lia|]. apply Z.pow_le_mono_r; lia. Qed.

(** The slot of element number [j]. *)
Definition ring_index (j : Z) : nat := Z.to_nat (j `mod` 2 ^ k).

Lemma slot_index (q : SpscQueue T) j : mask_ q = cap - 1 -> slot q (u64 j) = ring_index j.
Proof.
  intros Hm. unfold slot, ring_index. rewrite Hm. f_equal. unfold cap.
  replace (2 ^ k - 1) with (Z.ones k) by (rewrite Z.ones_equiv; lia).
  rewrite Z.land_ones by lia. unfold u64, wrap.
  replace (2 ^ 64) with (2 ^ k * 2 ^ (64 - k)) by (rewrite <- Z.pow_add_r by lia; f_equal; lia).
  rewrite Z.rem_mul_r by lia. rewrite (Z.mul_comm (2 ^ k)), Z.mod_add by lia.
  apply Z.mod_mod. lia.
Qed.

Lemma ring_index_lt j : (ring_index j < Z.to_nat cap)%nat.
Proof. unfold ring_index, cap. pose proof (Z.mod_pos_bound j (2 ^ k) ltac:(lia)). lia. Qed.

(** Element numbers less than a lap apart have different slots. *)
Lemma ring_index_inj i j : i < j < i + cap -> ring_index i <> ring_index j.
Proof.
  intros Hij Heq. unfold ring_index, cap in *.
  pose proof (Z.mod_pos_bound i (2 ^ k) ltac:(lia)). pose proof (Z.mod_pos_bound j (2 ^ k) ltac:(lia)).
  pose proof (Z.div_mod i (2 ^ k) ltac:(lia)). pose proof (Z.div_mod j (2 ^ k) ltac:(lia)).
  assert (i `mod` 2 ^ k = j `mod` 2 ^ k) by lia.
  destruct (decide (j `div` 2 ^ k <= i `div` 2 ^ k)); nia.
Qed.

Definition ring_shape (q : SpscQueue T) : Prop :=
  capacity_ q = cap /\ mask_ q = cap - 1 /\ length (vec_ q) = Z.to_nat cap.

(** Slot contents: element [j] is in place for [lo <= j < hi]. *)
Definition in_place (q : SpscQueue T) (ps : list T) (lo hi : Z) : Prop :=
  forall j v, lo <= j < hi -> ps !! Z.to_nat j = Some v -> vec_ q !! ring_index j = Some (Some v).

(** What the producer knows: [SH] is the head it has seen last, possibly an
    old one. *)
Definition prod_inv (q : SpscQueue T) (SH N : Z) (p : producer T) : Prop :=
  match p with
  | PIdle => True
  | PHead _ h => h = u64 SH
  | PTail _ h t => t = u64 N /\ h = u64 SH
  | PWrote v t => t = u64 N /\ N < SH + cap /\ vec_ q !! ring_index N = Some (Some v)
  end.

(** What the consumer knows: [ST] is the tail it has acquired last. *)
Definition cons_inv (ps : list T) (H ST : Z) (c : consumer T) : Prop :=
  match c with
  | CIdle => True
  | CHead h => h = u64 H
  | CTail h t => h = u64 H /\ t = u64 ST
  | CMoved h v => h = u64 H /\ H < ST /\ v = ps !! Z.to_nat H
  end.

(** First element that is still in its slot. *)
Definition cons_low (H : Z) (c : consumer T) : Z :=
  match c with CMoved _ _ => H + 1 | _ => H end.

Definition spsc_inv (cfg : spsc_config T) : Prop :=
  let q := cfg_q cfg in
  let H := Z.of_nat (length (cfg_popped cfg)) in
  let N := Z.of_nat (length (cfg_pushed cfg)) in
  let SH := Z.of_nat (seen_head (cfg_at cfg)) in
  let ST := Z.of_nat (seen_tail (cfg_at cfg)) in
  ring_shape q /\ head_ q = u64 H /\ tail_ q = u64 N /\
  counter_stores (heads (cfg_at cfg)) H /\ counter_stores (tails (cfg_at cfg)) N /\
  SH <= H <= ST /\ ST <= N <= SH + cap /\
  cfg_popped cfg = map Some (take (length (cfg_popped cfg)) (cfg_pushed cfg)) /\
  in_place q (cfg_pushed cfg) (cons_low H (cfg_cons cfg)) N /\
  prod_inv q SH N (cfg_prod cfg) /\ cons_inv (cfg_pushed cfg) H ST (cfg_cons cfg).

Lemma spsc_inv_init : spsc_inv (spsc_init (mkSpsc cap (cap - 1) 0 0 (replicate (Z.to_nat cap) None))).
Proof.
  pose proof cap_bounds. unfold spsc_inv, spsc_init, ring_shape, counter_stores. cbn.
  rewrite length_replicate. split; [done|]. repeat split; try done; try lia;
    try (intros j v Hj; lia); intros i x (-> & <-)%list_lookup_singleton_Some; done.
Qed.

(** Writing the slot of the next element leaves the elements in place. *)
Lemma write_slot_inv (q : SpscQueue T) ps H c v :
  ring_shape q -> in_place q ps (cons_low H c) (Z.of_nat (length ps)) ->
  H <= cons_low H c -> Z.of_nat (length ps) < H + cap ->
  exists q', write_slot q (u64 (Z.of_nat (length ps))) v = Ok q' /\
    ring_shape q' /\ head_ q' = head_ q /\ tail_ q' = tail_ q /\
    vec_ q' !! ring_index (Z.of_nat (length ps)) = Some (Some v) /\
    in_place q' ps (cons_low H c) (Z.of_nat (length ps)).
Proof.
  intros (Hc & Hm & Hl) Hin Hlow Hlt. set (N := Z.of_nat (length ps)) in *.
  pose proof (ring_index_lt N) as Hi.
  unfold write_slot. rewrite slot_index by done. rewrite bool_decide_true by lia.
  eexists. split; [done|]. unfold ring_shape. cbn. rewrite length_insert.
  split; [done|]. split; [done|]. split; [done|].
  split; [by rewrite list_lookup_insert_eq by lia|].
  intros j w Hj Hw. cbn. rewrite list_lookup_insert_ne; [by apply Hin|].
  intros He. apply (ring_index_inj j N); [lia|done].
Qed.

(** Moving the oldest element out of its slot. *)
Lemma move_slot_inv (q : SpscQueue T) ps H N :
  ring_shape q -> in_place q ps H N -> 0 <= H < N -> N <= H + cap -> N = Z.of_nat (length ps) ->
  exists q', move_slot q (u64 H) = Ok (q', ps !! Z.to_nat H) /\
    ring_shape q' /\ head_ q' = head_ q /\ tail_ q' = tail_ q /\
    in_place q' ps (H + 1) N /\
    (forall i, i <> ring_index H -> vec_ q' !! i = vec_ q !! i).
Proof.
  intros (Hc & Hm & Hl) Hin HH Hcap HN. pose proof (ring_index_lt H) as Hi.
  destruct (lookup_lt_is_Some_2 ps (Z.to_nat H)) as [v Hv]; [lia|].
  unfold move_slot. rewrite slot_index by done. rewrite (Hin H v) by (done || lia).
  cbn [mbind outcome_bind deref]. eexists. rewrite Hv. split; [done|].
  unfold ring_shape. cbn. rewrite length_insert.
  split; [done|]. split; [done|]. split; [done|]. split.
  - intros j w Hj Hw. cbn. rewrite list_lookup_insert_ne; [apply Hin; [lia|done]|].
    apply ring_index_inj. lia.
  - intros i Hne. by rewrite list_lookup_insert_ne.
Qed.

(** The producer's knowledge survives the consumer's progress. *)
Lemma prod_inv_mono q q' SH N p :
  prod_inv q SH N p ->
  (N < SH + cap -> vec_ q' !! ring_index N = vec_ q !! ring_index N) ->
  prod_inv q' SH N p.
Proof.
  destruct p as [|v h|v h t|v t]; simpl; [done|done|done|].
  intros (? & ? & ?) Hv. split; [done|]. split; [lia|]. by rewrite Hv.
Qed.

(** And the consumer's that of the producer. *)
Lemma cons_inv_mono ps v H ST c : 0 <= H -> ST <= Z.of_nat (length ps) ->
  cons_inv ps H ST c -> cons_inv (ps ++ [v]) H ST c.
Proof.
  intros H0 HN. destruct c as [|h|h t|h w]; simpl; [done|done|done|].
  intros (? & ? & ->). split; [done|]. split; [lia|]. by rewrite lookup_app_l by lia.
Qed.

Lemma take_popped {A} (ps : list A) (os : list (option A)) :
  os = map Some (take (length os) ps) -> (length os < length ps)%nat ->
  forall v, v = ps !! length os -> os ++ [v] = map Some (take (length os + 1) ps).
Proof.
  intros Hos Hlt v ->. destruct (lookup_lt_is_Some_2 ps (length os) Hlt) as [w Hw].
  rewrite Hw. rewrite Nat.add_1_r, (take_S_r ps _ w) by done. rewrite map_app. cbn. by rewrite <- Hos.
Qed.

Ltac spsc_simpl := cbn [cfg_q cfg_at cfg_prod cfg_cons cfg_pushed cfg_popped heads tails seen_head
  seen_tail append_head append_tail head_ tail_ store_head store_tail cons_low prod_inv cons_inv] in *.
Ltac spsc_split := split_and!; try done; try lia.

(** What a load of either thread leaves: only what the thread has seen
    changes. *)
Lemma load_head_inv a h a' H : load_head a h a' -> counter_stores (heads a) H ->
  heads a' = heads a /\ tails a' = tails a /\ seen_tail a' = seen_tail a /\
  h = u64 (Z.of_nat (seen_head a')) /\ (seen_head a <= seen_head a')%nat /\ Z.of_nat (seen_head a') <= H.
Proof. intros (i & Hi & Hh & ->) Hc. destruct (counter_stores_lookup _ _ _ _ Hc Hh). by spsc_split. Qed.

Lemma load_tail_inv a t a' N : load_tail a t a' -> counter_stores (tails a) N ->
  heads a' = heads a /\ tails a' = tails a /\ seen_head a' = seen_head a /\
  t = u64 (Z.of_nat (seen_tail a')) /\ (seen_tail a <= seen_tail a')%nat /\ Z.of_nat (seen_tail a') <= N.
Proof. intros (i & Hi & Hh & ->) Hc. destruct (counter_stores_lookup _ _ _ _ Hc Hh). by spsc_split. Qed.

(** The steps of the producer. *)
Lemma spsc_load_head_inv q a a' p c ps os v h :
  load_head a h a' -> spsc_inv (mkConfig q a p c ps os) -> spsc_inv (mkConfig q a' (PHead v h) c ps os).
Proof.
  intros Hl (Hsh & Hh & Ht & Hhs & Hts & HH & HN & Hos & Hin & Hp & Hc). spsc_simpl.
  destruct (load_head_inv a h a' _ Hl Hhs) as (E1 & E2 & E3 & -> & ? & ?).
  unfold spsc_inv; spsc_simpl. rewrite E1, E2, E3. spsc_split.
Qed.

Lemma spsc_write_inv q q' a c ps os v h t :
  is_full q h t = false -> write_slot q t v = Ok q' ->
  spsc_inv (mkConfig q a (PTail v h t) c ps os) -> spsc_inv (mkConfig q' a (PWrote v t) c ps os).
Proof.
  pose proof cap_bounds as Hcap.
  intros Hf Hw (Hsh & Hh & Ht & Hhs & Hts & HH & HN & Hos & Hin & Hp & Hc). spsc_simpl.
  destruct Hp as (-> & ->).
  unfold is_full in Hf. b2p. rewrite u64_sub in Hf by lia. destruct Hsh as (Hc1 & Hsh).
  destruct (write_slot_inv q ps (Z.of_nat (length os)) c v) as (q1 & Hq1 & Hs1 & Hh1 & Ht1 & Hv1 & Hi1);
    [by split|done|destruct c; simpl; lia|lia|].
  assert (q1 = q') as -> by congruence. unfold spsc_inv; spsc_simpl. rewrite Hh1, Ht1. spsc_split.
Qed.

Lemma spsc_store_tail_inv q a c ps os v t :
  spsc_inv (mkConfig q a (PWrote v t) c ps os) ->
  spsc_inv (mkConfig (store_tail q (u64 (t + 1))) (append_tail a (u64 (t + 1))) PIdle c (ps ++ [v]) os).
Proof.
  intros (Hsh & Hh & Ht & Hhs & Hts & HH & HN & Hos & Hin & Hp & Hc). unfold spsc_inv. spsc_simpl.
  destruct Hp as (-> & HNlt & Hv).
  rewrite length_app, u64_succ. cbn [length]. rewrite Nat2Z.inj_add. change (Z.of_nat 1) with 1.
  spsc_split.
  - by apply counter_stores_app.
  - by rewrite take_app_le by lia.
  - intros j w Hj Hw. cbn. destruct (decide (j = Z.of_nat (length ps))) as [->|].
    + rewrite Nat2Z.id, lookup_app_r, Nat.sub_diag in Hw by lia. injection Hw as <-. exact Hv.
    + apply Hin; [lia|]. assert (0 <= j) by (destruct c; simpl in Hj; lia).
      by rewrite lookup_app_l in Hw by lia.
  - apply cons_inv_mono; [lia|lia|done].
Qed.

(** The steps of the consumer. *)
Lemma spsc_load_tail_inv q a a' p ps os h t :
  load_tail a t a' -> spsc_inv (mkConfig q a p (CHead h) ps os) -> spsc_inv (mkConfig q a' p (CTail h t) ps os).
Proof.
  intros Hl (Hsh & Hh & Ht & Hhs & Hts & HH & HN & Hos & Hin & Hp & Hc). spsc_simpl.
  destruct (load_tail_inv a t a' _ Hl Hts) as (E1 & E2 & E3 & -> & ? & ?).
  unfold spsc_inv; spsc_simpl. rewrite E1, E2, E3. spsc_split.
Qed.

Lemma spsc_move_inv q q' a p ps os h t v :
  t <> h -> move_slot q h = Ok (q', v) ->
  spsc_inv (mkConfig q a p (CTail h t) ps os) -> spsc_inv (mkConfig q' a p (CMoved h v) ps os).
Proof.
  intros Hne Hmv (Hsh & Hh & Ht & Hhs & Hts & HH & HN & Hos & Hin & Hp & Hc). spsc_simpl.
  destruct Hc as (-> & ->).
  assert (Hlt : Z.of_nat (length os) < Z.of_nat (seen_tail a)).
  { destruct (decide (seen_tail a = length os)) as [E|]; [by rewrite E in Hne|lia]. }
  destruct (move_slot_inv q ps (Z.of_nat (length os)) (Z.of_nat (length ps)))
    as (q1 & Hq1 & Hs1 & Hh1 & Ht1 & Hi1 & Hrest); [done|done|lia|lia|done|].
  rewrite Hq1 in Hmv. injection Hmv as <- <-. unfold spsc_inv; spsc_simpl. rewrite Hh1, Ht1. spsc_split.
  apply (prod_inv_mono q); [done|]. intros. apply Hrest, not_eq_sym, ring_index_inj. lia.
Qed.

Lemma spsc_store_head_inv q a p ps os h v :
  spsc_inv (mkConfig q a p (CMoved h v) ps os) ->
  spsc_inv (mkConfig (store_head q (u64 (h + 1))) (append_head a (u64 (h + 1))) p CIdle ps (os ++ [v])).
Proof.
  intros (Hsh & Hh & Ht & Hhs & Hts & HH & HN & Hos & Hin & Hp & Hc). unfold spsc_inv. spsc_simpl.
  destruct Hc as (-> & Hlt & ->).
  rewrite Nat2Z.id, length_app, u64_succ. cbn [length]. rewrite Nat2Z.inj_add. change (Z.of_nat 1) with 1.
  spsc_split.
  - by apply counter_stores_app.
  - apply take_popped; [done|lia|done].
Qed.

Lemma spsc_inv_step cfg cfg' : spsc_step cfg cfg' -> spsc_inv cfg -> spsc_inv cfg'.
Proof.
  intros [] Hinv; eauto using spsc_load_head_inv, spsc_write_inv, spsc_store_tail_inv,
    spsc_load_tail_inv, spsc_move_inv, spsc_store_head_inv;
  destruct Hinv as (Hsh & Hh & Ht & Hhs & Hts & HH & HN & Hos & Hin & Hp & Hc);
  unfold spsc_inv; spsc_simpl; spsc_split.
Qed.

Lemma spsc_reachable_inv cfg cfg' : rtc spsc_step cfg cfg' -> spsc_inv cfg -> spsc_inv cfg'.
Proof. induction 1; [done|]. intros. eauto using spsc_inv_step. Qed.
End ring.

(** ** Sequential use: a bounded FIFO *)

(** The quiescent queue [q] holds the elements [l], oldest first. *)
Definition spsc_holds {T} (k : Z) (q : SpscQueue T) (l : list T) : Prop :=
  exists a ps os, spsc_inv k (mkConfig q a PIdle CIdle ps os) /\ l = drop (length os) ps.

(** One thread that takes both parts has seen every store. *)
Lemma spsc_inv_seen {T} k (q : SpscQueue T) a ps os p : 0 <= k <= 31 ->
  spsc_inv k (mkConfig q a p CIdle ps os) ->
  (exists a', load_head a (head_ q) a') /\ (exists a', load_tail a (tail_ q) a').
Proof.
  intros Hk (Hsh & Hh & Ht & Hhs & Hts & HH & HN & _). cbn in *.
  assert (exists x, heads a !! length os = Some x) as [x Hx].
  { apply lookup_lt_is_Some_2. destruct Hhs. lia. }
  assert (exists y, tails a !! length ps = Some y) as [y Hy].
  { apply lookup_lt_is_Some_2. destruct Hts. lia. }
  destruct (counter_stores_lookup _ _ _ _ Hhs Hx) as [-> _].
  destruct (counter_stores_lookup _ _ _ _ Hts Hy) as [-> _].
  rewrite Hh, Ht. split; eexists; [exists (length os)|exists (length ps)]; split_and!; (lia || done).
Qed.

Section sequential.
Context {T : Type} (k : Z) (Hk : 0 <= k <= 31).
Implicit Types q : SpscQueue T.

Lemma spsc_new_holds : spsc_holds k (mkSpsc (2 ^ k) (2 ^ k - 1) 0 0 (replicate (Z.to_nat (2 ^ k)) None)) ([] : list T).
Proof. exists (mkAtomics [0] [0] 0 0), [], []. split; [by apply (spsc_inv_init k Hk)|done]. Qed.

Lemma spsc_holds_full q l : spsc_holds k q l ->
  is_full q (head_ q) (tail_ q) = (2 ^ k <=? Z.of_nat (length l)) /\
  (tail_ q =? head_ q) = (Z.of_nat (length l) =? 0).
Proof.
  intros (a & ps & os & Hinv & ->). pose proof (cap_bounds k Hk).
  destruct Hinv as ((Hc & _) & Hh & Ht & _ & _ & HH & HN & _). cbn in *. rewrite length_drop.
  unfold is_full. rewrite Hc, Hh, Ht, u64_sub by lia. split; [f_equal; lia|].
  destruct (Z.eqb_spec (Z.of_nat (length ps - length os)) 0).
  - apply Z.eqb_eq. f_equal. lia.
  - apply Z.eqb_neq. intros He%u64_eq; lia.
Qed.

Lemma Spsc_TryPush_spec q l v : spsc_holds k q l ->
  exists q', Spsc_TryPush q v = Ok (q', Z.of_nat (length l) <? 2 ^ k) /\
    spsc_holds k q' (if Z.of_nat (length l) <? 2 ^ k then l ++ [v] else l).
Proof.
  intros Hq. destruct (spsc_holds_full q l Hq) as [Hf _]. unfold Spsc_TryPush. rewrite Hf.
  rewrite Z.leb_antisym. destruct (Z.ltb_spec (Z.of_nat (length l)) (2 ^ k)) as [Hlt|]; cbn [negb].
  2:{ by exists q. }
  destruct Hq as (a & ps & os & Hinv & ->).
  destruct (spsc_inv_seen k q a ps os _ Hk Hinv) as ((a' & Hl) & _).
  assert (H2 : spsc_inv k (mkConfig q a' (PTail v (head_ q) (tail_ q)) CIdle ps os)).
  { eapply (spsc_reachable_inv k Hk); [|exact Hinv].
    eapply rtc_l; [by apply push_load_head|]. eapply rtc_once, push_load_tail. }
  pose proof H2 as (Hsh & Hh & Ht & _ & _ & HH & HN & Hos & Hin & _). cbn in *.
  destruct (write_slot_inv k Hk q ps (Z.of_nat (length os)) CIdle v Hsh Hin) as (q' & Hw & Hrest);
    [simpl; lia|rewrite length_drop in Hlt; lia|].
  rewrite Ht, Hw. cbn [mbind outcome_bind]. eexists. split; [done|].
  eexists _, (ps ++ [v]), os. split; [|by rewrite drop_app_le by lia].
  eapply (spsc_reachable_inv k Hk); [|exact H2].
  eapply rtc_l; [apply push_write; [by rewrite Hf, Z.leb_gt|by rewrite Ht]|].
  rewrite Ht. apply rtc_once, push_store_tail.
Qed.

Lemma Spsc_TryPop_spec q l : spsc_holds k q l ->
  match l with
  | [] => Spsc_TryPop q = Ok (q, None)
  | v :: l' => exists q', Spsc_TryPop q = Ok (q', Some (Some v)) /\ spsc_holds k q' l'
  end.
Proof.
  intros Hq. destruct (spsc_holds_full q l Hq) as [_ He]. unfold Spsc_TryPop. rewrite He.
  destruct l as [|v l']; [done|]. cbn [length].
  replace (_ =? 0) with false by (symmetry; apply Z.eqb_neq; lia).
  destruct Hq as (a & ps & os & Hinv & Hl).
  assert (Hlen : (length os < length ps)%nat).
  { apply (f_equal length) in Hl. rewrite length_drop in Hl. simpl in Hl. lia. }
  destruct (spsc_inv_seen k q a ps os _ Hk Hinv) as (_ & a' & Hld).
  assert (H2 : spsc_inv k (mkConfig q a' PIdle (CTail (head_ q) (tail_ q)) ps os)).
  { eapply (spsc_reachable_inv k Hk); [|exact Hinv].
    eapply rtc_l; [apply pop_load_head|]. by eapply rtc_once, pop_load_tail. }
  pose proof H2 as (Hsh & Hh & Ht & _ & _ & HH & HN & Hos & Hin & _). cbn in *.
  destruct (move_slot_inv k Hk q ps (Z.of_nat (length os)) (Z.of_nat (length ps)) Hsh Hin)
    as (q' & Hm & Hrest); [lia|lia|done|].
  rewrite Nat2Z.id in Hm.
  assert (Hv : ps !! length os = Some v).
  { replace (length os) with (length os + 0)%nat by lia. by rewrite <- lookup_drop, <- Hl. }
  rewrite Hh, Hm, Hv. cbn [mbind outcome_bind fst snd]. eexists. split; [done|].
  eexists _, ps, (os ++ [Some v]). split.
  - eapply (spsc_reachable_inv k Hk); [|exact H2].
    eapply rtc_l; [eapply pop_move; [apply Z.eqb_neq; rewrite He; simpl; lia|by rewrite Hh, Hm, Hv]|].
    rewrite Hh. apply rtc_once, pop_store_head.
  - rewrite length_app, <- drop_drop, <- Hl. done.
Qed.
End sequential.

(** ** Properties *)

(** C26: whatever the interleaving of a producer thread ([Push], [TryPush]) and
    a consumer thread ([WaitAndPop], [TryPop]) on a new queue, and however old
    the value of the other thread's counter is that a load returns (a load may
    return any store that is not behind the one the thread saw last), the
    values popped are the values pushed, in order and each once; no more
    than the capacity are in flight; neither thread ever touches a slot out of
    range, and the consumer moves out of a slot only an element whose store of
    [tail_] it has acquired. The 64-bit counters may wrap around. The accesses
    of the slots take effect in program order; for the reuse of a slot that is
    more than the relaxed [head_] of the code promises by the C++ rules. *)
Theorem Spsc_interleaved_fifo {T} count (q : SpscQueue T) cfg
    (Hcount : 0 < count < 2 ^ 31) (Hnew : Spsc_new count = Ok q)
    (Hrun : rtc spsc_step (spsc_init q) cfg) :
  cfg_popped cfg = map Some (take (length (cfg_popped cfg)) (cfg_pushed cfg)) /\
  Z.of_nat (length (cfg_pushed cfg)) - Z.of_nat (length (cfg_popped cfg)) <= capacity_ q /\
  count <= capacity_ q /\
  (forall v h t, cfg_prod cfg = PTail v h t -> is_full (cfg_q cfg) h t = false ->
     exists q', write_slot (cfg_q cfg) t v = Ok q') /\
  (forall h t, cfg_cons cfg = CTail h t -> t <> h ->
     (length (cfg_popped cfg) < seen_tail (cfg_at cfg))%nat /\
     exists q' v, cfg_pushed cfg !! length (cfg_popped cfg) = Some v /\
       move_slot (cfg_q cfg) h = Ok (q', Some v)).
Proof.
  destruct (Spsc_new_ok (T := T) count ltac:(lia)) as (k & Hlog & Hk & Hck & Hq).
  rewrite Hnew in Hq. injection Hq as ->. pose proof (cap_bounds k Hk).
  pose proof (spsc_reachable_inv k Hk _ _ Hrun (spsc_inv_init k Hk))
    as (Hsh & Hh & Ht & Hhs & Hts & HH & HN & Hos & Hin & Hp & Hc).
  split; [done|]. split; [simpl; lia|]. split; [done|]. split.
  - intros v h t Heq Hf. rewrite Heq in Hp. destruct Hp as (-> & ->).
    unfold is_full in Hf. b2p. destruct Hsh as (Hc1 & Hsh). rewrite Hc1, u64_sub in Hf by lia.
    destruct (write_slot_inv k Hk (cfg_q cfg) (cfg_pushed cfg)
      (Z.of_nat (length (cfg_popped cfg))) (cfg_cons cfg) v) as (q' & Hw & _);
      [by split|done|destruct (cfg_cons cfg); simpl; lia|lia|by exists q'].
  - intros h t Heq Hne. rewrite Heq in Hc, Hin. destruct Hc as (-> & ->).
    assert (Hlt : seen_tail (cfg_at cfg) <> length (cfg_popped cfg)) by congruence.
    split; [lia|].
    destruct (move_slot_inv k Hk (cfg_q cfg) (cfg_pushed cfg)
      (Z.of_nat (length (cfg_popped cfg))) (Z.of_nat (length (cfg_pushed cfg)))) as (q' & Hm & _);
      [done|done|lia|lia|done|].
    rewrite Nat2Z.id in Hm.
    destruct (lookup_lt_is_Some_2 (cfg_pushed cfg) (length (cfg_popped cfg))) as [v Hv]; [lia|].
    rewrite Hv in Hm. by exists q', v.
Qed.

(** A queue of two slots: two pushes, the second of which reads an old [head_]
    after the first element was popped. *)
Definition spsc_example : SpscQueue Z := mkSpsc 2 1 0 0 [None; None].

Definition spsc_example_end : spsc_config Z :=
  mkConfig (mkSpsc 2 1 1 2 [None; Some 8]) (mkAtomics [0; 1] [0; 1; 2] 0 1) PIdle CIdle [7; 8] [Some 7].

Lemma spsc_example_run : rtc spsc_step (spsc_init spsc_example) spsc_example_end.
Proof.
  eapply rtc_l; [apply (push_load_head _ _ (mkAtomics [0] [0] 0 0) _ _ _ 7 0); by exists 0%nat|].
  eapply rtc_l; [apply push_load_tail|]. eapply rtc_l; [apply push_write; reflexivity|].
  eapply rtc_l; [apply push_store_tail|].
  eapply rtc_l; [apply pop_load_head|].
  eapply rtc_l; [apply (pop_load_tail _ _ (mkAtomics [0] [0; 1] 0 1) _ _ _ _ 1); exists 1%nat; split_and!; [apply Nat.le_0_l|done|done]|].
  eapply rtc_l; [apply pop_move; [done|reflexivity]|]. eapply rtc_l; [apply pop_store_head|].
  eapply rtc_l; [apply (push_load_head _ _ (mkAtomics [0; 1] [0; 1] 0 1) _ _ _ 8 0); by exists 0%nat|].
  eapply rtc_l; [apply push_load_tail|]. eapply rtc_l; [apply push_write; reflexivity|].
  eapply rtc_l; [apply push_store_tail|]. vm_compute. apply rtc_refl.
Qed.

Lemma Spsc_interleaved_fifo_witness :
  rtc spsc_step (spsc_init spsc_example) spsc_example_end /\
  cfg_popped spsc_example_end = map Some (take 1 (cfg_pushed spsc_example_end)).
Proof.
  split; [exact spsc_example_run|].
  exact (proj1 (Spsc_interleaved_fifo 2 spsc_example spsc_example_end ltac:(lia) eq_refl spsc_example_run)).
Defined.

(** Operations of one thread at a time, with the answers they give. *)
Inductive spsc_op (T : Type) := OpTryPush (v : T) | OpTryPop.
Arguments OpTryPush {T}. Arguments OpTryPop {T}.

Fixpoint spsc_run {T} (q : SpscQueue T) (ops : list (spsc_op T)) :
    outcome (list (bool + option (option T))) :=
  match ops with
  | [] => Ok []
  | OpTryPush v :: ops' =>
      r ← Spsc_TryPush q v; rs ← spsc_run (fst r) ops'; Ok (inl (snd r) :: rs)
  | OpTryPop :: ops' =>
      r ← Spsc_TryPop q; rs ← spsc_run (fst r) ops'; Ok (inr (snd r) :: rs)
  end.

(** A FIFO of at most [cap] elements. *)
Fixpoint fifo_run {T} (cap : Z) (l : list T) (ops : list (spsc_op T)) :
    list (bool + option (option T)) :=
  match ops with
  | [] => []
  | OpTryPush v :: ops' =>
      if Z.of_nat (length l) <? cap then inl true :: fifo_run cap (l ++ [v]) ops'
      else inl false :: fifo_run cap l ops'
  | OpTryPop :: ops' =>
      match l with
      | [] => inr None :: fifo_run cap [] ops'
      | v :: l' => inr (Some (Some v)) :: fifo_run cap l' ops'
      end
  end.

Lemma spsc_run_fifo {T} k (Hk : 0 <= k <= 31) (q : SpscQueue T) l ops :
  spsc_holds k q l -> spsc_run q ops = Ok (fifo_run (2 ^ k) l ops).
Proof.
  revert q l. induction ops as [|[v|] ops IH]; intros q l Hq; [done| |]; cbn [spsc_run fifo_run].
  - destruct (Spsc_TryPush_spec k Hk q l v Hq) as (q' & -> & Hq').
    cbn [mbind outcome_bind fst snd].
    destruct (_ <? _); rewrite (IH _ _ Hq'); done.
  - pose proof (Spsc_TryPop_spec k Hk q l Hq) as Hpop. destruct l as [|v l'].
    + rewrite Hpop. cbn [mbind outcome_bind fst snd]. by rewrite (IH _ _ Hq).
    + destruct Hpop as (q' & -> & Hq'). cbn [mbind outcome_bind fst snd]. by rewrite (IH _ _ Hq').
Qed.

(** C27: used by one thread at a time, the ring answers every sequence of
    [TryPush] and [TryPop] as a FIFO queue bounded by its capacity, the least
    power of two that is not below the requested count. *)
Theorem Spsc_refines_bounded_fifo {T} count (ops : list (spsc_op T)) (Hcount : 0 < count < 2 ^ 31) :
  exists q, Spsc_new count = Ok q /\
    capacity_ q = 2 ^ Z.log2_up count /\ spsc_run q ops = Ok (fifo_run (capacity_ q) [] ops).
Proof.
  destruct (Spsc_new_ok (T := T) count ltac:(lia)) as (k & Hlog & Hk & Hck & Hq).
  rewrite Hq. eexists. split; [done|]. split; [by rewrite <- Hlog|].
  apply (spsc_run_fifo k Hk). by apply spsc_new_holds.
Qed.

Lemma Spsc_refines_bounded_fifo_witness :
  exists q, Spsc_new 3 = Ok q /\ capacity_ q = 4 /\
    spsc_run q [OpTryPush 1; OpTryPush 2; OpTryPop] = Ok [inl true; inl true; inr (Some (Some 1))].
Proof.
  destruct (Spsc_refines_bounded_fifo 3 [OpTryPush 1; OpTryPush 2; OpTryPop] ltac:(lia))
    as (q & H1 & H2 & H3).
  exists q. split; [exact H1|]. rewrite H2 in *. split; [reflexivity|exact H3].
Defined.

Lemma PollOnce_loop_spec q max_comps cnt : 0 <= cnt ->
  PollOnce_loop q max_comps cnt =
    (drop (Z.to_nat (max_comps - cnt)) q, take (Z.to_nat (max_comps - cnt)) q,
     cnt + Z.of_nat (length (take (Z.to_nat (max_comps - cnt)) q))).
Proof.
  revert cnt. induction q as [|c q IH]; intros cnt Hc; cbn [PollOnce_loop].
  { rewrite take_nil, drop_nil. do 2 f_equal. simpl. lia. }
  destruct (Z.ltb_spec cnt max_comps).
  - rewrite IH by lia. replace (Z.to_nat (max_comps - cnt)) with (S (Z.to_nat (max_comps - (cnt + 1)))) by lia.
    cbn [take drop length]. f_equal. lia.
  - replace (Z.to_nat (max_comps - cnt)) with 0%nat by lia. rewrite take_0, drop_0. f_equal. simpl. lia.
Qed.

(** [PollOnce] hands out the oldest completions in order, at most
    [max_comps] of them, leaves the others queued, and returns how many it
    wrote. *)
Theorem PollOnce_oldest q max_comps :
  exists q' comps, PollOnce q max_comps = (q', comps, Z.of_nat (length comps)) /\
    q = comps ++ q' /\
    Z.of_nat (length comps) = Z.min (Z.max 0 max_comps) (Z.of_nat (length q)).
Proof.
  unfold PollOnce. rewrite PollOnce_loop_spec by lia. rewrite Z.sub_0_r.
  eexists _, _. split; [done|]. rewrite take_drop. split; [done|]. rewrite length_take. lia.
Qed.
