(* ===== verification/Floats.v ===== *)
(** IEEE 754 arithmetic of the C++ types [double] and [float]: the Standard
    Library's specification of binary64 and binary32 with rounding to nearest
    even, the conversions the code relies on, and the 32-bit representation of a
    [float] on the wire. *)

From S2P Require Import Prelude.
From Stdlib Require Export SpecFloat.
Open Scope Z_scope.

Definition double := spec_float.
Definition float := spec_float.

Definition f64_mul : double -> double -> double := SFmul 53 1024.
Definition f64_div : double -> double -> double := SFdiv 53 1024.
Definition f64_add : double -> double -> double := SFadd 53 1024.
Definition f64_sub : double -> double -> double := SFsub 53 1024.

(** [a > b]; false when one of them is a NaN. *)
Definition f64_gt (a b : double) : bool := SFltb b a.

(** [std::max(a, b)] returns [a] unless [a < b]. *)
Definition f64_max (a b : double) : double := if SFltb a b then b else a.

(** An integer converted to [double]. *)
Definition f64_of_Z (z : Z) : double := binary_normalize 53 1024 z 0 false.

(** The conversions between the two types. *)
Definition f32_of_f64 (x : double) : float :=
  match x with
  | S754_finite s m e => binary_normalize 24 128 (if s then - Zpos m else Zpos m) e s
  | _ => x
  end.

Definition f64_of_f32 (x : float) : double :=
  match x with
  | S754_finite s m e => binary_normalize 53 1024 (if s then - Zpos m else Zpos m) e s
  | _ => x
  end.

(** Truncation towards zero, undefined when there is no value. *)
Definition f64_trunc (x : double) : option Z :=
  match x with
  | S754_zero _ => Some 0
  | S754_finite s m e =>
      let a := if 0 <=? e then Zpos m * 2 ^ e else Zpos m `div` 2 ^ (- e) in
      Some (if s then - a else a)
  | _ => None
  end.

(** [static_cast<size_t>(x)] and [static_cast<int>(x)]: undefined when the
    truncated value does not fit. *)
Definition f64_to_u64 (x : double) : outcome Z :=
  v ← deref (f64_trunc x);
  DEFINED ((0 <=? v) && (v <? 2 ^ 64));; Ok v.

Definition f64_to_s32 (x : double) : outcome Z :=
  v ← deref (f64_trunc x);
  DEFINED ((- 2 ^ 31 <=? v) && (v <? 2 ^ 31));; Ok v.

(** ** The bits of a [float] *)

(** Sign, biased exponent and fraction of a binary32 datum. *)
Definition f32_bits (x : float) : Z :=
  match x with
  | S754_zero s => Z.b2z s * 2 ^ 31
  | S754_infinity s => Z.b2z s * 2 ^ 31 + 255 * 2 ^ 23
  | S754_nan => 255 * 2 ^ 23 + 2 ^ 22
  | S754_finite s m e =>
      Z.b2z s * 2 ^ 31 +
      (if Zpos m <? 2 ^ 23 then Zpos m else (e + 150) * 2 ^ 23 + (Zpos m - 2 ^ 23))
  end.

Definition f32_of_bits (b : Z) : float :=
  let s := 1 <=? b `div` 2 ^ 31 in
  let ex := (b `div` 2 ^ 23) `mod` 2 ^ 8 in
  let fr := b `mod` 2 ^ 23 in
  if ex =? 0 then
    match fr with Zpos m => S754_finite s m (-149) | _ => S754_zero s end
  else if ex =? 255 then
    (if fr =? 0 then S754_infinity s else S754_nan)
  else
    match fr + 2 ^ 23 with Zpos m => S754_finite s m (ex - 150) | _ => S754_nan end.

(** The data that a binary32 variable can hold. *)
Definition f32_valid (x : float) : bool := valid_binary 24 128 x.

Lemma digits2_pos_log2 p : Zpos (digits2_pos p) = Z.log2 (Zpos p) + 1.
Proof.
  induction p as [p IH|p IH|]; cbn [digits2_pos]; [| |done].
  - rewrite Pos2Z.inj_succ, IH, Pos2Z.inj_xI, Z.log2_succ_double by lia. lia.
  - rewrite Pos2Z.inj_succ, IH, (Pos2Z.inj_xO p), Z.log2_double by lia. lia.
Qed.

(** Shape of a valid finite binary32 number: subnormal or normal. *)
Lemma f32_valid_finite s m e : f32_valid (S754_finite s m e) = true ->
  (Zpos m < 2 ^ 23 /\ e = -149) \/ (2 ^ 23 <= Zpos m < 2 ^ 24 /\ -149 <= e <= 104).
Proof.
  unfold f32_valid, valid_binary, bounded, canonical_mantissa. intros H.
  apply andb_true_iff in H as [H1 H2]. apply Zeq_bool_eq in H1. apply Z.leb_le in H2.
  rewrite digits2_pos_log2 in H1. unfold fexp, emin in H1.
  pose proof (Z.log2_spec (Zpos m) ltac:(lia)) as [Hlo Hhi].
  pose proof (Z.log2_nonneg (Zpos m)).
  destruct (decide (Z.log2 (Zpos m) < 23)) as [Hs|Hs].
  - left. split; [|lia]. eapply Z.lt_le_trans; [exact Hhi|]. apply Z.pow_le_mono_r; lia.
  - assert (Z.log2 (Zpos m) = 23) as Heq by lia. rewrite Heq in *. right. lia.
Qed.

(** Dividing out the fields of a representation. *)
Lemma f32_fields s ex fr : 0 <= ex < 256 -> 0 <= fr < 2 ^ 23 ->
  let b := Z.b2z s * 2 ^ 31 + (ex * 2 ^ 23 + fr) in
  (1 <=? b `div` 2 ^ 31) = s /\ (b `div` 2 ^ 23) `mod` 2 ^ 8 = ex /\ b `mod` 2 ^ 23 = fr.
Proof.
  intros Hex Hfr b.
  assert (Hb : b = (Z.b2z s * 256 + ex) * 2 ^ 23 + fr) by (unfold b; lia).
  split; [|split].
  - assert (b `div` 2 ^ 31 = Z.b2z s) as ->.
    { symmetry. apply (Z.div_unique_pos _ _ _ (ex * 2 ^ 23 + fr)); unfold b; lia. }
    by destruct s.
  - rewrite Hb, Z.div_add_l, Z.div_small, Z.add_0_r by lia.
    rewrite Z.add_comm, Z.mod_add by lia. by apply Z.mod_small.
  - rewrite Hb, Z.add_comm, Z.mod_add by lia. by apply Z.mod_small.
Qed.

