(* ===== verification/Global.v ===== *)
(** [MLTGlobal] of src/src/mlt/mlt_global.{h,cc}: the process-wide parameters,
    read from the environment on first use, and the address book. *)

From S2P Require Import Prelude Floats.
From stdpp Require Import strings.
Open Scope Z_scope.

(** [prism::GetEnvOrDefault<T>] of include/prism/utils.h; [func] converts the
    text of the variable. *)
Definition GetEnvOrDefault {T} (getenv : string -> option string) (func : string -> T)
    (name : string) (default_value : T) : T :=
  match getenv name with
  | None => default_value
  | Some value => func value
  end.

Section global.
(** Socket addresses. *)
Context {SockAddr : Type}.

(** The members; a static object starts zeroed. *)
Record MLTGlobal := mkGlobal {
  g_id_addr : list (option SockAddr);   (** [None]: value-initialized entry *)
  g_mtu : Z;
  g_num_queues : Z;
  g_num_layers : Z;
  g_bdp : Z;
  g_init_send_window : Z;
  g_init_send_rate : double;
  g_rate_monitor_interval_us : Z;
  g_conn_backlog_size : Z }.

Definition Global_zero : MLTGlobal := mkGlobal [] 0 0 0 0 0 (S754_zero false) 0 0.

(** [Init]; the model name is not represented. *)
Definition Global_Init (g : MLTGlobal) : MLTGlobal :=
  mkGlobal (g_id_addr g) (g_mtu g) (g_num_queues g) 228 (g_bdp g) (g_init_send_window g)
    (g_init_send_rate g) (g_rate_monitor_interval_us g) (g_conn_backlog_size g).

(** ** The address book *)

Definition set_id_addr (g : MLTGlobal) (l : list (option SockAddr)) : MLTGlobal :=
  mkGlobal l (g_mtu g) (g_num_queues g) (g_num_layers g) (g_bdp g) (g_init_send_window g)
    (g_init_send_rate g) (g_rate_monitor_interval_us g) (g_conn_backlog_size g).

(** [id_addr[comm_id] = addr] after [resize]; a negative id indexes far out of
    the vector. *)
Definition AddCommIdAddr (g : MLTGlobal) (comm_id : Z) (addr : SockAddr) : outcome MLTGlobal :=
  let l := if Z.of_nat (length (g_id_addr g)) <=? comm_id
           then g_id_addr g ++ replicate (Z.to_nat (comm_id + 1) - length (g_id_addr g)) None
           else g_id_addr g in
  DEFINED (0 <=? comm_id);;
  Ok (set_id_addr g (<[Z.to_nat comm_id := Some addr]> l)).

(** [id_addr.at(comm_id)] throws, and nothing catches it, when the id is out of
    range. *)
Definition AddrFromCommId (g : MLTGlobal) (comm_id : Z) : outcome (option SockAddr) :=
  CHECK (0 <=? comm_id);;
  match g_id_addr g !! Z.to_nat comm_id with
  | Some a => Ok a
  | None => Fatal
  end.

(** ** Parameters *)

(** [getenv], [atoi] and [atof] of the C library. *)
Context (getenv : string -> option string) (atoi : string -> Z) (atof : string -> double).

Definition env_int (name : string) (default_value : Z) : Z :=
  s32 (GetEnvOrDefault getenv atoi name default_value).

Definition Mtu (g : MLTGlobal) : Z * MLTGlobal :=
  let mtu := if g_mtu g =? 0 then env_int "MLT_MTU" 1500 else g_mtu g in
  (mtu, mkGlobal (g_id_addr g) mtu (g_num_queues g) (g_num_layers g) (g_bdp g)
          (g_init_send_window g) (g_init_send_rate g) (g_rate_monitor_interval_us g)
          (g_conn_backlog_size g)).

Definition MaxSegment (g : MLTGlobal) : Z * MLTGlobal :=
  let '(mtu, g') := Mtu g in (mtu - 28, g').

Definition NumQueues (g : MLTGlobal) : Z * MLTGlobal :=
  let n := if g_num_queues g =? 0 then env_int "MLT_NUM_QUEUES" 8 else g_num_queues g in
  (n, mkGlobal (g_id_addr g) (g_mtu g) n (g_num_layers g) (g_bdp g)
        (g_init_send_window g) (g_init_send_rate g) (g_rate_monitor_interval_us g)
        (g_conn_backlog_size g)).

Definition Bdp (g : MLTGlobal) : Z * MLTGlobal :=
  let n := if g_bdp g =? 0 then env_int "MLT_BDP" (400 * 1024) else g_bdp g in
  (n, mkGlobal (g_id_addr g) (g_mtu g) (g_num_queues g) (g_num_layers g) n
        (g_init_send_window g) (g_init_send_rate g) (g_rate_monitor_interval_us g)
        (g_conn_backlog_size g)).

(** [init_send_window = Bdp() * 1e4] converts a [double] to [int]. *)
Definition InitialSendingWindow (g : MLTGlobal) : outcome (Z * MLTGlobal) :=
  if g_init_send_window g =? 0 then
    let w := env_int "MLT_INIT_WINDOW" 0 in
    r ← (if w =? 0 then
           let '(bdp, g') := Bdp g in
           w ← f64_to_s32 (f64_mul (f64_of_Z bdp) (f64_of_Z 10000)); Ok (w, g')
         else Ok (w, g));
    let '(w, g') := r in
    Ok (w, mkGlobal (g_id_addr g') (g_mtu g') (g_num_queues g') (g_num_layers g') (g_bdp g') w
             (g_init_send_rate g') (g_rate_monitor_interval_us g') (g_conn_backlog_size g'))
  else Ok (g_init_send_window g, g).

Definition is_zero (x : double) : bool := SFeqb x (S754_zero false).

Definition InitialSendingRate (g : MLTGlobal) : double * MLTGlobal :=
  if is_zero (g_init_send_rate g) then
    let r := GetEnvOrDefault getenv atof "MLT_INIT_RATE" (S754_zero false) in
    let '(r, g') := if is_zero r then let '(bdp, g') := Bdp g in (f64_of_Z bdp, g') else (r, g) in
    (r, mkGlobal (g_id_addr g') (g_mtu g') (g_num_queues g') (g_num_layers g') (g_bdp g')
          (g_init_send_window g') r (g_rate_monitor_interval_us g') (g_conn_backlog_size g'))
  else (g_init_send_rate g, g).

Definition RateMonitorIntervalUs (g : MLTGlobal) : Z * MLTGlobal :=
  let n := if g_rate_monitor_interval_us g =? 0
           then u64 (env_int "MLT_RATE_MONITOR_INTERVAL_US" 100)
           else g_rate_monitor_interval_us g in
  (n, mkGlobal (g_id_addr g) (g_mtu g) (g_num_queues g) (g_num_layers g) (g_bdp g)
        (g_init_send_window g) (g_init_send_rate g) n (g_conn_backlog_size g)).

Definition ConnectionBacklogSize (g : MLTGlobal) : Z * MLTGlobal :=
  let n := if g_conn_backlog_size g =? 0
           then u64 (env_int "MLT_CONN_BACKLOG_SIZE" 1048576)
           else g_conn_backlog_size g in
  (n, mkGlobal (g_id_addr g) (g_mtu g) (g_num_queues g) (g_num_layers g) (g_bdp g)
        (g_init_send_window g) (g_init_send_rate g) (g_rate_monitor_interval_us g) n).

(** Reading a parameter again gives the same value: the first read decides. *)
Lemma MaxSegment_stable g :
  let '(s, g1) := MaxSegment g in MaxSegment g1 = (s, g1).
Proof.
  unfold MaxSegment, Mtu. cbn [g_mtu]. destruct (Z.eqb_spec (g_mtu g) 0) as [H0|H0].
  - destruct (Z.eqb_spec (env_int "MLT_MTU" 1500) 0) as [->|]; [|done].
    cbn [g_mtu]. done.
  - by rewrite (proj2 (Z.eqb_neq _ _)).
Qed.

(** Registering an address makes it available, and leaves the others alone. *)
Lemma AddCommIdAddr_lookup g i addr : 0 <= i ->
  exists g', AddCommIdAddr g i addr = Ok g' /\ AddrFromCommId g' i = Ok (Some addr) /\
    forall j a, j <> i -> AddrFromCommId g j = Ok a -> AddrFromCommId g' j = Ok a.
Proof.
  intros Hi. unfold AddCommIdAddr. pass.
  set (l := if _ <=? i then _ else _).
  assert (Hlen : (Z.to_nat i < length l)%nat).
  { unfold l. destruct (Z.leb_spec (Z.of_nat (length (g_id_addr g))) i); [|lia].
    rewrite length_app, length_replicate. lia. }
  eexists. split; [done|]. unfold AddrFromCommId. cbn [g_id_addr set_id_addr]. split.
  - pass. by rewrite list_lookup_insert_eq.
  - intros j a Hne. destruct (Z.leb_spec 0 j); [|done]. cbn [CHECK mbind outcome_bind].
    rewrite list_lookup_insert_ne by lia. unfold l.
    destruct (g_id_addr g !! Z.to_nat j) eqn:Hj; [|done]. intros [= ->].
    destruct (_ <=? i); [|by rewrite Hj].
    rewrite lookup_app_l by (by eapply lookup_lt_Some). by rewrite Hj.
Qed.
End global.
Arguments MLTGlobal : clear implicits.

(** ** Properties *)

(** With none of the variables [MLT_INIT_WINDOW] and [MLT_BDP] set, the
    initial window [Bdp() * 1e4] is 4.096e9 and does not fit the [int] it is
    converted to: the conversion, made for every connection, is undefined. *)
Theorem InitialSendingWindow_default_undefined {A} atoi (g : MLTGlobal A) getenv
    (Hw : getenv "MLT_INIT_WINDOW"%string = None) (Hb : getenv "MLT_BDP"%string = None)
    (Hg : g_init_send_window g = 0 /\ g_bdp g = 0) :
  InitialSendingWindow getenv atoi g = Undef.
Proof.
  destruct Hg as [H1 H2]. unfold InitialSendingWindow, Bdp, env_int, GetEnvOrDefault.
  rewrite H1, Hw, Hb, H2. vm_compute. reflexivity.
Qed.

Lemma InitialSendingWindow_default_undefined_witness :
  InitialSendingWindow (SockAddr := Z) (fun _ => None) (fun _ => 0) Global_zero = Undef.
Proof. apply InitialSendingWindow_default_undefined; [reflexivity|reflexivity|split; reflexivity]. Defined.

(** An address that was registered for a communicator is the one looked
    up, and registering does not disturb other communicators' addresses. *)
Theorem AddCommIdAddr_roundtrip {A} (g : MLTGlobal A) i addr (Hi : 0 <= i) :
  exists g', AddCommIdAddr g i addr = Ok g' /\ AddrFromCommId g' i = Ok (Some addr) /\
    forall j a, j <> i -> AddrFromCommId g j = Ok a -> AddrFromCommId g' j = Ok a.
Proof. by apply AddCommIdAddr_lookup. Qed.

Lemma AddCommIdAddr_roundtrip_witness :
  exists g', AddCommIdAddr (Global_zero (SockAddr := Z)) 3 77 = Ok g' /\ AddrFromCommId g' 3 = Ok (Some 77).
Proof.
  destruct (AddCommIdAddr_roundtrip (Global_zero (SockAddr := Z)) 3 77 ltac:(lia)) as (g' & H1 & H2 & _).
  exists g'. split; [exact H1|exact H2].
Defined.
