(* ===== verification/Meter.v ===== *)
(** Throughput meters of src/src/mlt/meter.h. Every call of [Clock::now()] is an
    argument, a time point in nanoseconds. *)

From S2P Require Import Prelude Bits Floats.

(** ** Meter *)

(** [interval] is in milliseconds; the name is only printed. *)
Record Meter := mkMeter {
  m_sample : Z;      (** int *)
  m_cnt : Z;         (** int *)
  m_bytes : Z;       (** size_t *)
  m_msgs : Z;        (** size_t *)
  m_tp : Z;
  m_interval : Z }.

(** What [Add] prints: bytes, messages and the duration in nanoseconds. *)
Definition report : Type := Z * Z * Z.

Definition Meter_new (interval_ms sample now : Z) : outcome Meter :=
  DEFINED (sample + 1 <? 2 ^ 31);;
  p ← RoundUpPower2 64 (sample + 1);
  let sample := s32 (p - 1) in
  DEFINED (sample + 1 <? 2 ^ 31);;
  CHECK (sample + 1 =? lowbit (sample + 1));;
  Ok (mkMeter sample 0 0 0 now interval_ms).

Definition Meter_Add (m : Meter) (add now : Z) : outcome (Meter * option report) :=
  let bytes := u64 (m_bytes m + add) in
  let msgs := u64 (m_msgs m + 1) in
  DEFINED (m_cnt m + 1 <? 2 ^ 31);;
  let cnt := m_cnt m + 1 in
  if Z.land cnt (m_sample m) =? m_sample m then
    if m_interval m * 1000000 <=? now - m_tp m
    then Ok (mkMeter (m_sample m) cnt 0 0 now (m_interval m), Some (bytes, msgs, now - m_tp m))
    else Ok (mkMeter (m_sample m) cnt bytes msgs (m_tp m) (m_interval m), None)
  else Ok (mkMeter (m_sample m) cnt bytes msgs (m_tp m) (m_interval m), None).

(** ** RateMeter *)

(** [rm_interval] is in microseconds. *)
Record RateMeter := mkRateMeter {
  rm_sample : Z;     (** int *)
  rm_scnt : Z;       (** int *)
  rm_bytes : Z;      (** size_t *)
  rm_msgs : Z;       (** size_t *)
  rm_tp : Z;
  rm_interval : Z }.

Definition RateMeter_new (interval_us sample now : Z) : RateMeter :=
  mkRateMeter sample 0 0 0 now interval_us.

Definition RateMeter_Update (r : RateMeter) (add : Z) : outcome RateMeter :=
  DEFINED (rm_scnt r + 1 <? 2 ^ 31);;
  Ok (mkRateMeter (rm_sample r) (rm_scnt r + 1) (u64 (rm_bytes r + add)) (u64 (rm_msgs r + 1))
        (rm_tp r) (rm_interval r)).

Definition RateMeter_Elapsed (r : RateMeter) (now : Z) : outcome (RateMeter * bool) :=
  DEFINED (rm_scnt r + 1 <? 2 ^ 31);;
  let scnt := rm_scnt r + 1 in
  if rm_sample r <=? scnt then
    Ok (mkRateMeter (rm_sample r) 0 (rm_bytes r) (rm_msgs r) (rm_tp r) (rm_interval r),
        rm_interval r * 1000 <=? now - rm_tp r)
  else Ok (mkRateMeter (rm_sample r) scnt (rm_bytes r) (rm_msgs r) (rm_tp r) (rm_interval r), false).

(** [1e9 * n / dura.count()] *)
Definition per_second (n dura : Z) : double :=
  f64_div (f64_mul (f64_of_Z 1000000000) (f64_of_Z n)) (f64_of_Z dura).

Definition RateMeter_TryBytesPerSecond (r : RateMeter) (extra now : Z) : double :=
  per_second (u64 (rm_bytes r + extra)) (now - rm_tp r).

Definition RateMeter_GetBytesPerSecond (r : RateMeter) (now : Z) : double :=
  per_second (rm_bytes r) (now - rm_tp r).

Definition RateMeter_GetMessagePerSecond (r : RateMeter) (now : Z) : double :=
  per_second (rm_msgs r) (now - rm_tp r).

Definition RateMeter_Clear (r : RateMeter) (now : Z) : RateMeter :=
  mkRateMeter (rm_sample r) (rm_scnt r) 0 0 now (rm_interval r).

(** ** Bookkeeping *)

(** A sequence of [Add] calls with the reports they print. *)
Fixpoint Meter_Adds (m : Meter) (calls : list (Z * Z)) : outcome (Meter * list report) :=
  match calls with
  | [] => Ok (m, [])
  | (add, now) :: calls' =>
      r ← Meter_Add m add now;
      rs ← Meter_Adds (fst r) calls';
      Ok (fst rs, match snd r with Some rep => rep :: snd rs | None => snd rs end)
  end.

Definition sum_bytes (rs : list report) : Z := foldr (fun r acc => fst (fst r) + acc) 0 rs.
Definition sum_msgs (rs : list report) : Z := foldr (fun r acc => snd (fst r) + acc) 0 rs.
Definition sum_adds (calls : list (Z * Z)) : Z := foldr (fun c acc => fst c + acc) 0 calls.

Lemma sum_adds_nonneg calls : (forall c, c ∈ calls -> 0 <= fst c) -> 0 <= sum_adds calls.
Proof.
  induction calls as [|c calls IH]; intros Hc; simpl; [lia|].
  pose proof (Hc c ltac:(set_solver)). pose proof (IH ltac:(set_solver)). lia.
Qed.

Lemma Meter_Adds_account calls m :
  0 <= m_cnt m -> m_cnt m + Z.of_nat (length calls) < 2 ^ 31 ->
  0 <= m_bytes m -> 0 <= m_msgs m <= m_cnt m ->
  (forall c, c ∈ calls -> 0 <= fst c) -> m_bytes m + sum_adds calls < 2 ^ 64 ->
  exists m' rs, Meter_Adds m calls = Ok (m', rs) /\
    m_bytes m' + sum_bytes rs = m_bytes m + sum_adds calls /\
    m_msgs m' + sum_msgs rs = m_msgs m + Z.of_nat (length calls).
Proof.
  revert m. induction calls as [|[add now] calls IH]; intros m Hc Hlen Hb Hm Hpos Hsum.
  { exists m, []. simpl. split; [done|lia]. }
  cbn [length sum_adds foldr fst Meter_Adds] in *. fold (sum_adds calls) in *.
  assert (0 <= add) by (apply (Hpos (add, now)); set_solver).
  assert (Hpos' : forall c, c ∈ calls -> 0 <= fst c) by set_solver.
  pose proof (sum_adds_nonneg calls Hpos').
  unfold Meter_Add. rewrite !u64_small by lia. pass.
  destruct (_ =? m_sample m); [destruct (_ <=? _)|]; cbn [mbind outcome_bind fst snd].
  1: destruct (IH (mkMeter (m_sample m) (m_cnt m + 1) 0 0 now (m_interval m)))
      as (m' & rs & -> & H1 & H2); cbn in *; try lia; try done.
  2,3: destruct (IH (mkMeter (m_sample m) (m_cnt m + 1) (m_bytes m + add) (m_msgs m + 1)
          (m_tp m) (m_interval m))) as (m' & rs & -> & H1 & H2); cbn in *; try lia; try done.
  all: eexists _, _; split; [reflexivity|]; cbn; unfold sum_bytes, sum_msgs in *; cbn; lia.
Qed.

Lemma Meter_new_ok interval_ms sample now : 0 <= sample < 2 ^ 30 ->
  Meter_new interval_ms sample now =
    Ok (mkMeter (2 ^ Z.log2_up (sample + 1) - 1) 0 0 0 now interval_ms) /\
  sample + 1 <= 2 ^ Z.log2_up (sample + 1).
Proof.
  intros Hs.
  assert (Hk : 0 <= Z.log2_up (sample + 1) <= 30).
  { split; [apply Z.log2_up_nonneg|]. apply Z.log2_up_le_pow2; lia. }
  assert (Hge : sample + 1 <= 2 ^ Z.log2_up (sample + 1)).
  { destruct (decide (sample + 1 = 1)) as [->|]; [done|]. apply Z.log2_up_spec. lia. }
  split; [|done]. unfold Meter_new. rewrite RoundUpPower2_spec by lia. clear Hge.
  revert Hk. generalize (Z.log2_up (sample + 1)). intros k Hk. pass.
  assert (Hp : 2 ^ k <= 2 ^ 30) by (apply Z.pow_le_mono_r; lia).
  assert (Hl : lowbit (2 ^ k) = 2 ^ k).
  { rewrite <- (Z.mul_1_r (2 ^ k)) at 1. apply (lowbit_shift k 0). lia. }
  rewrite s32_small by lia.
  replace (2 ^ k - 1 + 1) with (2 ^ k) by lia. rewrite Hl. pass. by pass.
Qed.

(** ** Properties *)

(** The sampling mask of a [Meter] is one less than a power of two, the
    least one above the requested value; every byte and every message given to
    [Add] is either in a printed report or still counted, as long as fewer than
    2^31 calls have been made. *)
Theorem Meter_accounts interval_ms sample now calls
    (Hs : 0 <= sample < 2 ^ 30) (Hn : Z.of_nat (length calls) < 2 ^ 31)
    (Hpos : forall c, c ∈ calls -> 0 <= fst c) (Hsum : sum_adds calls < 2 ^ 64) :
  exists m m' rs, Meter_new interval_ms sample now = Ok m /\
    m_sample m = 2 ^ Z.log2_up (sample + 1) - 1 /\ sample <= m_sample m /\
    Meter_Adds m calls = Ok (m', rs) /\
    m_bytes m' + sum_bytes rs = sum_adds calls /\
    m_msgs m' + sum_msgs rs = Z.of_nat (length calls).
Proof.
  destruct (Meter_new_ok interval_ms sample now Hs) as [Hnew Hge].
  destruct (Meter_Adds_account calls
    (mkMeter (2 ^ Z.log2_up (sample + 1) - 1) 0 0 0 now interval_ms))
    as (m' & rs & Hadds & H1 & H2); cbn [m_cnt m_bytes m_msgs] in *; [lia..|done|lia|].
  eexists _, m', rs. split; [exact Hnew|]. split; [done|]. split; [cbn [m_sample]; lia|]. done.
Qed.

Lemma Meter_accounts_witness :
  exists m m' rs, Meter_new 1000 255 0 = Ok m /\ m_sample m = 255 /\
    Meter_Adds m [(1472, 10); (36, 20)] = Ok (m', rs) /\ m_bytes m' + sum_bytes rs = 1508.
Proof.
  destruct (Meter_accounts 1000 255 0 [(1472, 10); (36, 20)]) as (m & m' & rs & H1 & H2 & _ & H3 & H4 & _).
  - lia.
  - simpl; lia.
  - intros c Hc. apply elem_of_cons in Hc as [->|Hc]; [simpl; lia|].
    apply elem_of_cons in Hc as [->|Hc]; [simpl; lia|]. by apply elem_of_nil in Hc.
  - simpl; lia.
  - by exists m, m', rs.
Defined.

(** [Meter::cnt] is an [int] that is never reset: the call of [Add] after
    2^31 - 1 others overflows it, whatever the interval and the samples. *)
Theorem Meter_Add_overflow m add now (Hcnt : m_cnt m = 2 ^ 31 - 1) :
  Meter_Add m add now = Undef.
Proof. unfold Meter_Add. by rewrite Hcnt. Qed.

Lemma Meter_Add_overflow_witness :
  Meter_Add (mkMeter 255 2147483647 0 0 0 1000) 1472 99 = Undef.
Proof. apply Meter_Add_overflow. reflexivity. Defined.
