(* ===== verification/BlockMgr.v ===== *)
(** The interface [BlockMgr] of src/src/mlt/block_mgr.h: which sequence numbers
    of a flow are still missing. The abstract state is a size [n] and the set
    [F] of free (not yet taken) sequence numbers; the wire form of [F] is its
    list of maximal runs [free_runs n F]. *)

From S2P Require Import Prelude Bytes Runs.

(** The virtual methods of [BlockMgr]. [bm_SerializeToBuffer m buf buf_size]
    returns the contents of the region [buf] afterwards. *)
Class BlockMgr (M : Type) := {
  bm_new : Z -> M;
  bm_Size : M -> Z;
  bm_Resize : M -> Z -> outcome M;
  bm_Check : M -> Z -> outcome bool;
  bm_Take : M -> Z -> outcome M;
  bm_FreeLength : M -> Z;
  bm_ByteSize : M -> Z;
  bm_SerializeToBuffer : M -> list Z -> Z -> outcome (list Z) }.

(** ** What a block manager promises

    [bm_rep m n F]: the manager [m] has size [n] and free set [F].
    [bm_resizable] and [bm_serializable] are the states in which the
    implementation handles [Resize] and [SerializeToBuffer]. *)
Class BlockMgrSpec (M : Type) `{BlockMgr M} := {
  bm_rep : M -> Z -> gset Z -> Prop;
  bm_resizable : Z -> gset Z -> Prop;
  bm_serializable : Z -> gset Z -> Prop;
  bm_rep_size m n F : bm_rep m n F -> bm_Size m = n /\ 0 <= n < 2 ^ 32;
  bm_rep_bound m n F x : bm_rep m n F -> x ∈ F -> 0 <= x < n;
  bm_new_spec n : 0 <= n < 2 ^ 32 -> bm_rep (bm_new n) n (range_set 0 n);
  bm_Resize_spec m n F n' :
    bm_rep m n F -> n < n' < 2 ^ 32 -> bm_resizable n F ->
    exists m', bm_Resize m n' = Ok m' /\ bm_rep m' n' (F ∪ range_set n n');
  bm_Check_spec m n F seq :
    bm_rep m n F -> 0 <= seq < n -> bm_Check m seq = Ok (bool_decide (seq ∉ F));
  bm_Take_spec m n F seq :
    bm_rep m n F -> seq ∈ F ->
    exists m', bm_Take m seq = Ok m' /\ bm_rep m' n (F ∖ {[seq]});
  bm_FreeLength_spec m n F : bm_rep m n F -> bm_FreeLength m = Z.of_nat (size F);
  bm_ByteSize_spec m n F :
    bm_rep m n F -> 0 < n ->
    bm_ByteSize m = sizeof_Block * Z.of_nat (length (free_runs n F));
  bm_Serialize_spec m n F buf :
    bm_rep m n F -> 0 < n -> bm_serializable n F ->
    Z.of_nat (length buf) = bm_ByteSize m ->
    bm_SerializeToBuffer m buf (bm_ByteSize m) = Ok (Blocks_bytes (free_runs n F)) }.

(** A manager without such restrictions. *)
Class TotalBlockMgr (M : Type) `{BlockMgrSpec M} := {
  bm_always_resizable n F : bm_resizable n F;
  bm_always_serializable n F : bm_serializable n F }.

#[export] Hint Resolve bm_always_resizable bm_always_serializable : mlt.

(** Writing blocks one after the other through the memory stream. *)
Definition write_block (strm : MemoryFixedSizeStream) (b : Block) :
    outcome MemoryFixedSizeStream := Stream_Write strm (Block_bytes b).

Lemma length_Block_bytes b : length (Block_bytes b) = 8%nat.
Proof. unfold Block_bytes. by rewrite length_app, !length_le_bytes. Qed.

Lemma length_Blocks_bytes bs : length (Blocks_bytes bs) = (8 * length bs)%nat.
Proof.
  unfold Blocks_bytes. induction bs as [|b bs IH]; [done|].
  cbn [map concat]. rewrite length_app, length_Block_bytes, IH. simpl. lia.
Qed.

Lemma write_blocks_fit strm written rest bs :
  stream_at strm written rest -> (8 * length bs <= length rest)%nat ->
  exists strm', foldM write_block strm bs = Ok strm' /\
    stream_at strm' (written ++ Blocks_bytes bs) (drop (8 * length bs) rest).
Proof.
  revert strm written rest. induction bs as [|b bs IH]; intros strm written rest Hs Hle.
  - exists strm. unfold Blocks_bytes. by rewrite app_nil_r.
  - cbn [length] in Hle. cbn [foldM].
    change (write_block strm b) with (Stream_Write strm (Block_bytes b)).
    destruct (Stream_Write_fits strm written rest (Block_bytes b) Hs) as (s1 & -> & Hs1).
    { rewrite length_Block_bytes. lia. }
    cbn [mbind outcome_bind].
    destruct (IH s1 _ _ Hs1) as (s2 & -> & Hs2).
    { rewrite length_drop, length_Block_bytes. lia. }
    exists s2. split; [done|].
    rewrite length_Block_bytes, drop_drop, <- app_assoc in Hs2.
    replace (8 * length (b :: bs))%nat with (8 + 8 * length bs)%nat by (simpl; lia).
    exact Hs2.
Qed.

(** A region of exactly the right size ends up holding the blocks. *)
Lemma write_blocks_exact bs buf :
  length buf = (8 * length bs)%nat -> Z.of_nat (length buf) < 2 ^ 64 ->
  exists strm', foldM write_block (Stream_new buf (Z.of_nat (length buf))) bs = Ok strm' /\
    p_buffer_ strm' = Blocks_bytes bs /\ Stream_Tell strm' = Z.of_nat (length buf).
Proof.
  intros Hlen Hlt.
  destruct (write_blocks_fit _ [] buf bs (Stream_new_at buf Hlt)) as (s' & -> & Hs'); [lia|].
  exists s'. split; [done|]. destruct Hs' as (Hb & Hc & _).
  rewrite drop_ge, app_nil_r in Hb by lia. split; [exact Hb|].
  unfold Stream_Tell. rewrite Hc, app_nil_l, length_Blocks_bytes. lia.
Qed.

(** ** Histories of operations

    The abstract machine of the interface, and the same history run on an
    implementation. *)
Inductive bm_op := OpResize (size : Z) | OpTake (seq : Z).

Definition spec_step (s : Z * gset Z) (op : bm_op) : option (Z * gset Z) :=
  match op with
  | OpResize n' =>
      if decide (s.1 < n' < 2 ^ 32) then Some (n', s.2 ∪ range_set s.1 n') else None
  | OpTake seq => if decide (seq ∈ s.2) then Some (s.1, s.2 ∖ {[seq]}) else None
  end.

Fixpoint spec_run (s : Z * gset Z) (ops : list bm_op) : option (Z * gset Z) :=
  match ops with
  | [] => Some s
  | op :: ops' => s' ← spec_step s op; spec_run s' ops'
  end.

Definition bm_step {M} `{BlockMgr M} (m : M) (op : bm_op) : outcome M :=
  match op with
  | OpResize n' => bm_Resize m n'
  | OpTake seq => bm_Take m seq
  end.

Definition bm_run {M} `{BlockMgr M} : M -> list bm_op -> outcome M := foldM bm_step.

(** What a client can observe of a manager agrees with the abstract state. *)
Definition bm_observes {M} `{BlockMgr M} (m : M) (n : Z) (F : gset Z) : Prop :=
  bm_Size m = n /\
  (forall seq, 0 <= seq < n -> bm_Check m seq = Ok (bool_decide (seq ∉ F))) /\
  bm_FreeLength m = Z.of_nat (size F) /\
  (0 < n -> forall buf, Z.of_nat (length buf) = bm_ByteSize m ->
     bm_SerializeToBuffer m buf (bm_ByteSize m) = Ok (Blocks_bytes (free_runs n F))).

Section refinement.
Context {M} `{TotalBlockMgr M}.

Lemma bm_rep_observes m n F : bm_rep m n F -> bm_observes m n F.
Proof.
  intros Hm. split; [by destruct (bm_rep_size m n F Hm)|]. split; [intros; by apply (bm_Check_spec m n F)|].
  split; [by apply (bm_FreeLength_spec m n F)|]. intros. apply (bm_Serialize_spec m n F); auto with mlt.
Qed.

Lemma bm_step_refines m n F op n' F' :
  bm_rep m n F -> spec_step (n, F) op = Some (n', F') ->
  exists m', bm_step m op = Ok m' /\ bm_rep m' n' F'.
Proof.
  intros Hm. destruct op as [size|seq]; simpl; case_decide; [|done| |done];
    intros [= <- <-]; [apply bm_Resize_spec; auto with mlt|by apply bm_Take_spec].
Qed.

Lemma bm_run_refines ops m n F n' F' :
  bm_rep m n F -> spec_run (n, F) ops = Some (n', F') ->
  exists m', bm_run m ops = Ok m' /\ bm_rep m' n' F'.
Proof.
  revert m n F. induction ops as [|op ops IH]; intros m n F Hm Hrun.
  - injection Hrun as <- <-. by exists m.
  - simpl in Hrun. destruct (spec_step (n, F) op) as [[n1 F1]|] eqn:Hs; [|done].
    destruct (bm_step_refines _ _ _ _ _ _ Hm Hs) as (m1 & Hm1 & Hrep).
    unfold bm_run. cbn [foldM]. rewrite Hm1. by eapply IH.
Qed.
End refinement.

(** A region with room for fewer blocks: the write that does not fit stops the
    process. *)
Lemma write_blocks_overflow bs buf :
  (length buf < 8 * length bs)%nat -> Z.of_nat (8 * length bs) < 2 ^ 64 ->
  (exists k, length buf = 8 * k)%nat ->
  foldM write_block (Stream_new buf (Z.of_nat (length buf))) bs = Fatal.
Proof.
  intros Hlt Hov [k Hk]. rewrite <- (take_drop k bs), foldM_app.
  destruct (write_blocks_fit _ [] buf (take k bs) (Stream_new_at buf ltac:(lia)))
    as (s & -> & Hs); [rewrite length_take; lia|].
  destruct (drop k bs) as [|b l] eqn:Hd.
  { apply (f_equal length) in Hd. rewrite length_drop in Hd. simpl in Hd. lia. }
  cbn [mbind outcome_bind foldM]. unfold write_block at 1. unfold write_block at 1.
  rewrite (Stream_Write_overflow s _ _ (Block_bytes b) Hs); [done| |];
    rewrite ?length_drop, ?length_app, ?length_Blocks_bytes, length_Block_bytes,
            ?length_take; simpl; lia.
Qed.

(** An implementation that can be resized only in some states runs the
    histories that resize it in these states. *)
Fixpoint resizes_within (resizable : Z -> gset Z -> Prop) (s : Z * gset Z) (ops : list bm_op) : Prop :=
  match ops with
  | [] => True
  | op :: ops' =>
      match op with OpResize _ => resizable s.1 s.2 | OpTake _ => True end /\
      match spec_step s op with
      | Some s' => resizes_within resizable s' ops'
      | None => True
      end
  end.

Lemma bm_run_refines_within {M} `{BlockMgrSpec M} ops (m : M) n F n' F' :
  bm_rep m n F -> resizes_within bm_resizable (n, F) ops ->
  spec_run (n, F) ops = Some (n', F') ->
  exists m', bm_run m ops = Ok m' /\ bm_rep m' n' F'.
Proof.
  revert m n F. induction ops as [|op ops IH]; intros m n F Hm Hw Hrun.
  - injection Hrun as <- <-. by exists m.
  - cbn [spec_run resizes_within] in *. destruct Hw as [Hop Hw].
    destruct (spec_step (n, F) op) as [[n1 F1]|] eqn:Hs; [|done].
    assert (exists m1, bm_step m op = Ok m1 /\ bm_rep m1 n1 F1) as (m1 & Hm1 & Hrep).
    { destruct op as [size|seq]; simpl in Hs; case_decide; try done; injection Hs as <- <-;
        [by apply bm_Resize_spec|by apply bm_Take_spec]. }
    unfold bm_run. cbn [foldM]. rewrite Hm1. by apply (IH m1 n1 F1).
Qed.
