(* ===== verification/TreeBlockMgr.v ===== *)
(** [TreeBlockMgr] of src/src/mlt/tree_block_mgr.h: the free sequence numbers
    as a [std::set<Block>] ordered by [first]. The set is the list of its
    elements in iteration order; an iterator is an index into that list. *)

From S2P Require Import Prelude Bytes Runs BlockMgr.

(** ** Operations *)

Record TreeBlockMgr := mkTree {
  tree_size_ : Z;
  tree_used_ : Z;
  tree_ : list Block }.

(** [std::set::upper_bound]: index of the first element greater than [key]. *)
Fixpoint upper_bound (key : Block) (t : list Block) : nat :=
  match t with
  | [] => 0
  | e :: t' => if Block_lt key e then 0 else S (upper_bound key t')
  end.

(** [std::set::emplace]: no insertion when an equivalent element is present. *)
Fixpoint emplace (b : Block) (t : list Block) : list Block :=
  match t with
  | [] => [b]
  | e :: t' =>
      if Block_lt b e then b :: t
      else if Block_lt e b then e :: emplace b t'
      else t
  end.

Definition Tree_new (size : Z) : TreeBlockMgr :=
  mkTree (u32 size) 0 (emplace (mkBlock 0 (u32 size)) []).

Definition Tree_Resize (m : TreeBlockMgr) (size : Z) : outcome TreeBlockMgr :=
  CHECK (tree_size_ m <? size);;
  match tree_ m with
  | [] =>
      Ok (mkTree (u32 size) (tree_used_ m)
                 (emplace (mkBlock (tree_size_ m) (u32 size)) (tree_ m)))
  | _ =>
      let i := pred (length (tree_ m)) in
      it ← deref (tree_ m !! i);
      Ok (mkTree (u32 size) (tree_used_ m)
            (if last it <? tree_size_ m
             then emplace (mkBlock (tree_size_ m) (u32 size)) (tree_ m)
             else <[i := mkBlock (first it) (u32 size)]> (tree_ m)))
  end.

Definition Tree_Check (m : TreeBlockMgr) (seq : Z) : outcome bool :=
  match tree_ m with
  | [] => Ok true
  | _ =>
      let it := upper_bound (mkBlock seq (u32 (seq + 1))) (tree_ m) in
      if (it =? 0)%nat then Ok true
      else
        b ← deref (tree_ m !! pred it);
        Ok (negb ((first b <=? seq) && (seq <? last b)))
  end.

(** The three ways [Take] cuts [seq] out of the block [it] at index [i]: the
    new tree, where [it] is then, and its new value. *)
Definition Tree_cut (t : list Block) (i : nat) (it : Block) (seq : Z) :
    list Block * nat * Block :=
  if first it =? seq then
    let it' := mkBlock (u32 (first it + 1)) (last it) in (<[i := it']> t, i, it')
  else if last it =? u32 (seq + 1) then
    let it' := mkBlock (first it) (u32 (last it - 1)) in (<[i := it']> t, i, it')
  else
    let b := mkBlock (u32 (seq + 1)) (last it) in
    let it' := mkBlock (first it) seq in
    (emplace b (<[i := it']> t), if Block_lt b it then S i else i, it').

Definition Tree_Take (m : TreeBlockMgr) (seq : Z) : outcome TreeBlockMgr :=
  CHECK (negb (bool_decide (tree_ m = [])));;
  let ub := upper_bound (mkBlock seq (u32 (seq + 1))) (tree_ m) in
  CHECK (negb (ub =? 0)%nat);;
  it ← deref (tree_ m !! pred ub);
  CHECK ((first it <=? seq) && (seq <? last it));;
  let '(t', i', it') := Tree_cut (tree_ m) (pred ub) it seq in
  Ok (mkTree (tree_size_ m) (u32 (tree_used_ m + 1))
             (if first it' =? last it' then delete i' t' else t')).

Definition Tree_FreeLength (m : TreeBlockMgr) : Z := u32 (tree_size_ m - tree_used_ m).

Definition Tree_ByteSize (m : TreeBlockMgr) : Z :=
  u64 (Z.of_nat (length (tree_ m)) * sizeof_Block).

Definition Tree_SerializeToBuffer (m : TreeBlockMgr) (buf : list Z) (buf_size : Z) :
    outcome (list Z) :=
  strm ← foldM write_block (Stream_new buf buf_size) (tree_ m);
  CHECK (Stream_Tell strm =? Tree_ByteSize m);;
  Ok (p_buffer_ strm).

#[global] Instance TreeBlockMgr_ops : BlockMgr TreeBlockMgr := {
  bm_new := Tree_new;
  bm_Size := tree_size_;
  bm_Resize := Tree_Resize;
  bm_Check := Tree_Check;
  bm_Take := Tree_Take;
  bm_FreeLength := Tree_FreeLength;
  bm_ByteSize := Tree_ByteSize;
  bm_SerializeToBuffer := Tree_SerializeToBuffer }.

(** ** The ordered list behind the set *)

(** Where [upper_bound] stops in an ordered tree. *)
Lemma upper_bound_split lo t hi seq r :
  runs_from lo t hi ->
  (upper_bound (mkBlock seq r) t = 0%nat /\ forall x, covered t x -> seq < x) \/
  (exists l1 it l2, t = l1 ++ it :: l2 /\
     upper_bound (mkBlock seq r) t = S (length l1) /\
     first it <= seq /\ forall x, covered l2 x -> seq < x).
Proof.
  revert lo. induction t as [|b t IH]; intros lo Hr.
  - left. split; [done|]. by intros x []%covered_nil.
  - destruct Hr as ([? ?] & ? & Hr). cbn [upper_bound].
    unfold Block_lt; cbn [first]. case_if E; b2p.
    { left. split; [done|]. intros x Hx. apply covered_cons in Hx as [?|Hx]; [lia|].
      pose proof (runs_from_lower _ _ _ _ Hr Hx). lia. }
    right. destruct (IH _ Hr) as [[-> Hlt]|(l1 & it & l2 & -> & -> & ? & Hlt)].
    + by exists [], b, t.
    + by exists (b :: l1), it, l2.
Qed.

Lemma covered_middle lo l1 it l2 hi seq :
  runs_from lo (l1 ++ it :: l2) hi -> first it <= seq ->
  (forall x, covered l2 x -> seq < x) ->
  covered (l1 ++ it :: l2) seq <-> seq < last it.
Proof.
  intros Hr Hf Hlt. apply runs_from_split in Hr as (H1 & ? & ? & H2).
  rewrite covered_app, covered_cons. split.
  - intros [Hc|[?|Hc%Hlt]]; [|lia|lia]. pose proof (runs_from_lower _ _ _ _ H1 Hc). lia.
  - intros. right; left. lia.
Qed.

(** Inserting right after [it] when the rest of the tree is beyond [b]. *)
Lemma emplace_middle lo l1 it l2 hi b :
  runs_from lo l1 (first it - 1) -> first it < first b ->
  runs_from (first b + 1) l2 hi ->
  emplace b (l1 ++ it :: l2) = l1 ++ it :: b :: l2.
Proof.
  intros H1 Hb H2. revert lo H1. induction l1 as [|a l1 IH]; intros lo H1; cbn [emplace app].
  - unfold Block_lt. rewrite (proj2 (Z.ltb_ge _ _)) by lia.
    rewrite (proj2 (Z.ltb_lt _ _)) by lia. f_equal.
    destruct l2 as [|c l2]; [done|]. simpl in H2.
    cbn [emplace]. unfold Block_lt. by rewrite (proj2 (Z.ltb_lt _ _)) by lia.
  - destruct H1 as (? & ? & H1).
    unfold Block_lt. rewrite (proj2 (Z.ltb_ge _ _)) by lia.
    rewrite (proj2 (Z.ltb_lt _ _)) by lia. f_equal. by eapply IH.
Qed.

(** Inserting beyond the end. *)
Lemma emplace_end lo t hi b : runs_from lo t hi -> hi <= first b -> emplace b t = t ++ [b].
Proof.
  revert lo. induction t as [|a t IH]; intros lo Hr Hb; [done|].
  destruct Hr as (? & ? & Hr). cbn [emplace]. unfold Block_lt.
  rewrite (proj2 (Z.ltb_ge _ _)) by lia. rewrite (proj2 (Z.ltb_lt _ _)) by lia.
  cbn [app]. f_equal. by eapply IH.
Qed.

Lemma insert_middle {A} (l1 : list A) x y l2 :
  <[length l1 := y]> (l1 ++ x :: l2) = l1 ++ y :: l2.
Proof. rewrite insert_app_r_alt by lia. by rewrite Nat.sub_diag. Qed.

Lemma delete_middle_list {A} (l1 : list A) x l2 :
  delete (length l1) (l1 ++ x :: l2) = l1 ++ l2.
Proof. apply delete_middle. Qed.

(** [Take]'s case analysis, with the erasure of an emptied block, computes
    exactly [cut_pieces]. *)
Lemma Tree_cut_pieces lo l1 it l2 hi seq :
  runs_from lo (l1 ++ it :: l2) hi -> 0 <= lo -> hi < 2 ^ 32 ->
  first it <= seq < last it ->
  let '(t', i', it') := Tree_cut (l1 ++ it :: l2) (length l1) it seq in
  (if first it' =? last it' then delete i' t' else t') = l1 ++ cut_pieces it seq ++ l2.
Proof.
  intros Hr Hlo Hhi Hs. pose proof Hr as Hr'.
  apply runs_from_split in Hr' as (H1 & ? & ? & H2).
  unfold Tree_cut, cut_pieces, Block_lt. rewrite !u32_small by lia.
  destruct (Z.eqb_spec (first it) seq) as [Hfs|Hfs].
  - rewrite insert_middle. simpl. rewrite (proj2 (Z.ltb_ge _ seq)) by lia. cbn [app].
    destruct (Z.eqb_spec (first it + 1) (last it)).
    + rewrite (proj2 (Z.ltb_ge _ _)) by lia. apply delete_middle_list.
    + rewrite (proj2 (Z.ltb_lt _ _)) by lia. by rewrite Hfs.
  - rewrite (proj2 (Z.ltb_lt (first it) _)) by lia.
    destruct (Z.eqb_spec (last it) (seq + 1)) as [Hls|Hls].
    + rewrite insert_middle. simpl. rewrite (proj2 (Z.ltb_ge _ _)) by lia.
      rewrite (proj2 (Z.eqb_neq _ _)) by lia. simpl.
      by replace (last it - 1) with seq by lia.
    + rewrite insert_middle. cbn [first last].
      rewrite (proj2 (Z.eqb_neq _ _)) by lia.
      rewrite (proj2 (Z.ltb_lt (seq + 1) _)) by lia. cbn [app].
      eapply emplace_middle; [exact H1|simpl; lia|].
      eapply runs_from_weaken; [|exact H2]. simpl; lia.
Qed.

(** ** The manager implements the interface *)

(** The tree is the list of runs of the free set, except that an empty manager
    starts with the one empty block [0, 0). *)
Definition Tree_rep (m : TreeBlockMgr) (n : Z) (F : gset Z) : Prop :=
  tree_size_ m = n /\ 0 <= n < 2 ^ 32 /\
  tree_used_ m = n - Z.of_nat (size F) /\
  (n = 0 /\ F = ∅ /\ tree_ m = [mkBlock 0 0] \/ is_runs n F (tree_ m)).

Lemma Tree_rep_bound m n F x : Tree_rep m n F -> x ∈ F -> 0 <= x < n.
Proof. intros (_ & ? & _ & [(-> & -> & _)|Hr]); [set_solver|by eapply is_runs_bound]. Qed.

Lemma Tree_rep_size_le m n F : Tree_rep m n F -> Z.of_nat (size F) <= n.
Proof.
  intros Hr. apply size_bounded; [by destruct Hr as (_ & ? & _); lia|].
  intros x. by apply (Tree_rep_bound m).
Qed.

Lemma Tree_new_rep n : 0 <= n < 2 ^ 32 -> Tree_rep (Tree_new n) n (range_set 0 n).
Proof.
  intros Hn. unfold Tree_rep, Tree_new; simpl. rewrite u32_small by done.
  rewrite size_range_set by lia. repeat split; [lia..|].
  destruct (decide (n = 0)) as [->|]; [left|right; apply is_runs_single; lia].
  repeat split; done.
Qed.

Lemma Tree_Resize_rep m n F n' :
  Tree_rep m n F -> n < n' < 2 ^ 32 ->
  exists m', Tree_Resize m n' = Ok m' /\ Tree_rep m' n' (F ∪ range_set n n').
Proof.
  intros Hrep Hn. pose proof (Tree_rep_size_le _ _ _ Hrep) as Hsz.
  pose proof (fun x => Tree_rep_bound _ _ _ x Hrep) as HF.
  destruct Hrep as (Hs & Hn0 & Hu & Ht). unfold Tree_Resize. rewrite Hs, u32_small by lia. pass.
  assert (Hfin : forall t', is_runs n' (F ∪ range_set n n') t' ->
            Tree_rep (mkTree n' (tree_used_ m) t') n' (F ∪ range_set n n')).
  { intros t' Ht'. unfold Tree_rep; simpl. rewrite Hu, size_union_range by (done || lia).
    repeat split; [lia..|by right]. }
  destruct Ht as [(-> & -> & ->)|Hruns].
  - eexists; split; [simpl; done|]. apply Hfin. rewrite (left_id_L ∅ union).
    simpl. apply is_runs_single. lia.
  - destruct (decide (tree_ m = [])) as [He|Hne].
    + rewrite He in *. eexists; split; [done|]. apply Hfin.
      apply (is_runs_extend_new n n' F []); [done|lia|].
      intros Hx%(proj2 Hruns). by apply covered_nil in Hx.
    + destruct (exists_last Hne) as (l & b & Hl). rewrite Hl in *. clear Hne.
      rewrite length_app. simpl. rewrite Nat.add_1_r. simpl.
      rewrite (list_lookup_middle l [] b _ eq_refl). cbn [deref mbind outcome_bind].
      destruct Hruns as [Hr Hc].
      pose proof Hr as Hr'. apply runs_from_split in Hr' as (_ & Hb & Hbn & _).
      destruct (l ++ [b]) as [|c t] eqn:Hlb; [by destruct l|]. rewrite <- Hlb in *.
      eexists; split; [done|]. apply Hfin. case_if E; b2p.
      * rewrite (emplace_end 0 _ n) by (done || simpl; lia).
        apply is_runs_extend_new; [done|lia|].
        intros (c' & Hc' & Hx)%Hc.
        assert (covered (l ++ [b]) (n - 1)) as Hcov by (by exists c').
        apply covered_app in Hcov as [Hcov|Hcov].
        -- apply runs_from_split in Hr as (H1 & _). pose proof (runs_from_lower _ _ _ _ H1 Hcov). lia.
        -- apply covered_cons in Hcov as [?|[]%covered_nil]. lia.
      * rewrite insert_middle. apply is_runs_extend_last; [done|lia..].
Qed.

Lemma Tree_Check_rep m n F seq :
  Tree_rep m n F -> 0 <= seq < n -> Tree_Check m seq = Ok (bool_decide (seq ∉ F)).
Proof.
  intros (_ & _ & _ & [(-> & _)|[Hr Hc]]) Hseq; [lia|]. unfold Tree_Check.
  destruct (tree_ m) as [|b0 t0] eqn:Ht.
  { rewrite bool_decide_true; [done|]. intros Hx%Hc. by apply covered_nil in Hx. }
  rewrite <- Ht in *. clear b0 t0 Ht.
  destruct (upper_bound_split 0 (tree_ m) n seq (u32 (seq + 1)) Hr)
    as [[-> Hlt]|(l1 & it & l2 & Ht & -> & Hf & Hlt)].
  - simpl. rewrite bool_decide_true; [done|]. intros Hx%Hc%Hlt. lia.
  - rewrite Ht in *. simpl. rewrite (list_lookup_middle l1 l2 it _ eq_refl). simpl.
    f_equal. pose proof (covered_middle 0 l1 it l2 n seq Hr Hf Hlt) as Hcov.
    rewrite (proj2 (Z.leb_le _ _)) by done. simpl.
    destruct (Z.ltb_spec seq (last it)); symmetry.
    + apply bool_decide_eq_false. intros Hx. apply Hx, Hc, Hcov. done.
    + apply bool_decide_eq_true. intros Hx%Hc%Hcov. lia.
Qed.

Lemma Tree_Take_rep m n F seq :
  Tree_rep m n F -> seq ∈ F ->
  exists m', Tree_Take m seq = Ok m' /\ Tree_rep m' n (F ∖ {[seq]}).
Proof.
  intros Hrep HF. pose proof (Tree_rep_size_le _ _ _ Hrep).
  destruct Hrep as (Hs & Hn & Hu & [(_ & -> & _)|Hruns]); [set_solver|].
  pose proof (is_runs_bound _ _ _ _ Hruns HF). pose proof Hruns as [Hr Hc].
  unfold Tree_Take.
  destruct (upper_bound_split 0 (tree_ m) n seq (u32 (seq + 1)) Hr)
    as [[_ Hlt]|(l1 & it & l2 & Ht & -> & Hf & Hlt)]; [apply Hc, Hlt in HF; lia|].
  rewrite Ht in *.
  assert (seq < last it) by (eapply covered_middle; [done..|by apply Hc]).
  rewrite bool_decide_false by (by destruct l1). cbn [CHECK negb mbind outcome_bind].
  rewrite CHECK_true by done. cbn [mbind outcome_bind pred].
  rewrite (list_lookup_middle l1 l2 it _ eq_refl). cbn [deref mbind outcome_bind]. pass.
  pose proof (Tree_cut_pieces 0 l1 it l2 n seq Hr) as Hcut.
  destruct (Tree_cut _ _ _ _) as [[t' i'] it'].
  rewrite Hcut by lia. eexists; split; [done|].
  assert (Hsz : Z.of_nat (size (F ∖ {[seq]})) = Z.of_nat (size F) - 1).
  { rewrite size_difference by set_solver. rewrite size_singleton.
    assert (size F <> 0%nat); [|lia]. intros ?%size_empty_inv. set_solver. }
  unfold Tree_rep; simpl. rewrite Hs, Hsz, Hu, u32_small by lia.
  repeat split; [lia..|right]. by apply is_runs_cut.
Qed.

Lemma Tree_FreeLength_rep m n F : Tree_rep m n F -> Tree_FreeLength m = Z.of_nat (size F).
Proof.
  intros Hrep. pose proof (Tree_rep_size_le _ _ _ Hrep). destruct Hrep as (Hs & ? & Hu & _).
  unfold Tree_FreeLength. rewrite Hs, Hu, u32_small by lia. lia.
Qed.

Lemma Tree_rep_runs m n F : Tree_rep m n F -> 0 < n -> tree_ m = free_runs n F.
Proof.
  intros (_ & ? & _ & [(-> & _)|Hr]) ?; [lia|]. apply is_runs_free_runs; [lia|done].
Qed.

Lemma Tree_ByteSize_rep m n F :
  Tree_rep m n F -> 0 < n ->
  Tree_ByteSize m = sizeof_Block * Z.of_nat (length (free_runs n F)).
Proof.
  intros Hrep Hn. pose proof (fun x => Tree_rep_bound _ _ _ x Hrep) as HF.
  unfold Tree_ByteSize, sizeof_Block. rewrite (Tree_rep_runs _ _ _ Hrep Hn).
  pose proof (free_runs_length n F ltac:(lia) HF).
  destruct Hrep as (_ & ? & _). rewrite u64_small by lia. lia.
Qed.

Lemma Tree_Serialize_rep m n F buf :
  Tree_rep m n F -> 0 < n -> Z.of_nat (length buf) = Tree_ByteSize m ->
  Tree_SerializeToBuffer m buf (Tree_ByteSize m) = Ok (Blocks_bytes (free_runs n F)).
Proof.
  intros Hrep Hn Hbuf. pose proof (Tree_ByteSize_rep _ _ _ Hrep Hn) as Hbs.
  unfold Tree_SerializeToBuffer. rewrite <- Hbuf, (Tree_rep_runs _ _ _ Hrep Hn).
  destruct (write_blocks_exact (free_runs n F) buf) as (s & -> & Hb & Ht).
  - unfold sizeof_Block in Hbs. lia.
  - rewrite Hbuf. apply u64_range.
  - cbn [mbind outcome_bind]. rewrite Ht. pass. by rewrite Hb.
Qed.

#[global] Program Instance TreeBlockMgr_spec : BlockMgrSpec TreeBlockMgr := {
  bm_rep := Tree_rep;
  bm_resizable _ _ := True;
  bm_serializable _ _ := True }.
Next Obligation. by intros m n F (? & ? & _). Qed.
Next Obligation. apply Tree_rep_bound. Qed.
Next Obligation. apply Tree_new_rep. Qed.
Next Obligation. intros. by apply Tree_Resize_rep. Qed.
Next Obligation. apply Tree_Check_rep. Qed.
Next Obligation. apply Tree_Take_rep. Qed.
Next Obligation. apply Tree_FreeLength_rep. Qed.
Next Obligation. apply Tree_ByteSize_rep. Qed.
Next Obligation. intros. by apply Tree_Serialize_rep. Qed.

#[global] Instance TreeBlockMgr_total : TotalBlockMgr TreeBlockMgr.
Proof. by split. Qed.

(** ** Properties *)

(** C6: for every history of [Resize] and [Take] calls that the abstract
    machine (a size and a set of free numbers) allows, [TreeBlockMgr] runs
    without stopping, and then [Size], [Check] and [FreeLength] report the
    abstract state and [SerializeToBuffer] writes exactly the maximal runs of
    the free numbers. *)
Theorem TreeBlockMgr_refines_free_set n0 ops n F
    (Hn0 : 0 <= n0 < 2 ^ 32)
    (Hrun : spec_run (n0, range_set 0 n0) ops = Some (n, F)) :
  exists m, bm_run (Tree_new n0) ops = Ok m /\ bm_observes m n F.
Proof.
  destruct (bm_run_refines ops (bm_new n0) n0 _ n F (bm_new_spec n0 Hn0) Hrun)
    as (m & Hm & Hrep).
  exists m. split; [done|]. by apply bm_rep_observes.
Qed.

Definition tree_example_ops : list bm_op :=
  [OpTake 2; OpTake 3; OpResize 9; OpTake 0; OpTake 4; OpTake 7].

Lemma TreeBlockMgr_refines_free_set_witness :
  exists n F m, spec_run (5, range_set 0 5) tree_example_ops = Some (n, F) /\
    bm_run (Tree_new 5) tree_example_ops = Ok m /\ bm_observes m n F.
Proof.
  destruct (spec_run (5, range_set 0 5) tree_example_ops) as [[n F]|] eqn:Hrun;
    [|vm_compute in Hrun; discriminate].
  destruct (TreeBlockMgr_refines_free_set 5 tree_example_ops n F) as (m & Hm & Ho);
    [lia|exact Hrun|].
  exists n, F, m. auto.
Defined.

(** Taking a number that is not free stops the process, in every state the
    operations can reach. *)
Theorem Tree_Take_taken m n F seq (Hrep : Tree_rep m n F) (Hseq : 0 <= seq < n)
    (Htaken : seq ∉ F) :
  Tree_Take m seq = Fatal.
Proof.
  destruct Hrep as (_ & _ & _ & [(-> & _)|[Hr Hc]]); [lia|]. unfold Tree_Take.
  destruct (tree_ m) as [|b0 t0] eqn:Ht; [done|]. rewrite <- Ht in *.
  rewrite bool_decide_false by (by rewrite Ht). cbn [CHECK negb mbind outcome_bind].
  destruct (upper_bound_split 0 (tree_ m) n seq (u32 (seq + 1)) Hr)
    as [[-> _]|(l1 & it & l2 & Ht' & -> & Hf & Hlt)]; [done|].
  rewrite CHECK_true by done. cbn [mbind outcome_bind pred]. rewrite Ht' in *.
  rewrite (list_lookup_middle l1 l2 it _ eq_refl). cbn [deref mbind outcome_bind].
  rewrite CHECK_false; [done|]. apply andb_false_iff. right. b2p.
  apply Z.nlt_ge. intros Hl. apply Htaken, Hc.
  by apply (covered_middle 0 l1 it l2 n seq Hr Hf Hlt).
Qed.

Lemma Tree_Take_taken_witness : Tree_Take (mkTree 5 1 [mkBlock 0 2; mkBlock 3 5]) 2 = Fatal.
Proof.
  apply (Tree_Take_taken _ 5 ({[0; 1; 3; 4]} : gset Z)); [|lia|set_solver].
  split; [done|]. split; [lia|]. split; [done|]. right. split; [simpl; lia|].
  intros x. cbn [tree_]. rewrite !covered_cons, !elem_of_union, !elem_of_singleton; simpl.
  split; [lia|]. intros [?|[?|[]%covered_nil]]; lia.
Defined.
