(* ===== verification/BitmapBlockMgr.v ===== *)
(** [Bitmap<long>] and [BitmapBlockMgr] of src/src/mlt/bitmap_block_mgr.h: the
    taken sequence numbers as bits of 64-bit words, with the number of free
    segments kept incrementally and the segments found by scanning words with
    [__builtin_ctzl]. *)

From S2P Require Import Prelude Bytes Bits Runs BlockMgr.

(** ** Bitmap<long> *)

Definition type_size : Z := 64.

Record Bitmap := mkBitmap { bitmap_size_ : Z; vec_ : list Z }.

Definition RoundUp (x d : Z) : Z := u64 (x + d - 1) `div` d.

Definition Bitmap_new (size : Z) : Bitmap :=
  mkBitmap size (replicate (Z.to_nat (RoundUp size type_size)) 0).

(** [std::vector::resize] fills with zeros or truncates. *)
Definition Bitmap_Resize (b : Bitmap) (size : Z) : Bitmap :=
  mkBitmap size (resize (Z.to_nat (RoundUp size type_size)) 0 (vec_ b)).

Definition word_index (pos : Z) : nat := Z.to_nat (pos `div` type_size).
Definition bit_offset (pos : Z) : Z := Z.land pos (type_size - 1).

Definition Bitmap_Test (b : Bitmap) (pos : Z) : outcome Z :=
  val ← deref (vec_ b !! word_index pos);
  Ok (Z.land (Z.shiftr val (bit_offset pos)) 1).

Definition Bitmap_Set (b : Bitmap) (pos value : Z) : outcome Bitmap :=
  val ← deref (vec_ b !! word_index pos);
  let bit := s64 (Z.shiftl 1 (bit_offset pos)) in
  let val' := if value =? 0 then Z.land val (Z.lnot bit) else Z.lor val bit in
  Ok (mkBitmap (bitmap_size_ b) (<[word_index pos := val']> (vec_ b))).

Definition Bitmap_Reset (b : Bitmap) (pos : Z) : outcome Bitmap :=
  val ← deref (vec_ b !! word_index pos);
  let bit := s64 (Z.shiftl 1 (bit_offset pos)) in
  Ok (mkBitmap (bitmap_size_ b) (<[word_index pos := Z.land val (Z.lnot bit)]> (vec_ b))).

Definition Bitmap_Flip (b : Bitmap) (pos : Z) : outcome Bitmap :=
  t ← Bitmap_Test b pos;
  Bitmap_Set b pos (Z.lxor t 1).

Definition Bitmap_UnderlayValue (b : Bitmap) (pos : Z) : outcome Z :=
  deref (vec_ b !! Z.to_nat pos).

(** ** BitmapBlockMgr *)

Record BitmapBlockMgr := mkBitmapMgr {
  bmp_size_ : Z;
  bmp_used_ : Z;
  bmp_segments_ : Z;
  bmp_bitmap_ : Bitmap }.

Definition BitmapMgr_new (size : Z) : BitmapBlockMgr :=
  mkBitmapMgr (u32 size) 0 1 (Bitmap_new size).

Definition BitmapMgr_Resize (m : BitmapBlockMgr) (size : Z) : outcome BitmapBlockMgr :=
  CHECK (bmp_size_ m <? size);;
  let bitmap := Bitmap_Resize (bmp_bitmap_ m) size in
  let size_ := u32 size in
  t ← Bitmap_Test bitmap (u32 (size_ - 1));
  Ok (mkBitmapMgr size_ (bmp_used_ m)
        (if t =? 0 then bmp_segments_ m else u32 (bmp_segments_ m + 1)) bitmap).

Definition BitmapMgr_Check (m : BitmapBlockMgr) (seq : Z) : outcome bool :=
  CHECK ((0 <=? seq) && (seq <? bmp_size_ m));;
  t ← Bitmap_Test (bmp_bitmap_ m) seq;
  Ok (negb (t =? 0)).

(** [a || bitmap_.Test(pos)], with the short circuit. *)
Definition or_Test (a : bool) (b : Bitmap) (pos : Z) : outcome bool :=
  if a then Ok true else t ← Bitmap_Test b pos; Ok (negb (t =? 0)).

Definition BitmapMgr_Take (m : BitmapBlockMgr) (seq : Z) : outcome BitmapBlockMgr :=
  CHECK ((0 <=? seq) && (seq <? bmp_size_ m));;
  t ← Bitmap_Test (bmp_bitmap_ m) seq;
  if negb (t =? 0) then Ok m
  else
    let segments := u32 (bmp_segments_ m + 1) in
    l ← or_Test (seq =? 0) (bmp_bitmap_ m) (u32 (seq - 1));
    let segments := if l : bool then u32 (segments - 1) else segments in
    r ← or_Test (u32 (seq + 1) =? bmp_size_ m) (bmp_bitmap_ m) (u32 (seq + 1));
    let segments := if r : bool then u32 (segments - 1) else segments in
    bitmap ← Bitmap_Set (bmp_bitmap_ m) seq 1;
    Ok (mkBitmapMgr (bmp_size_ m) (u32 (bmp_used_ m + 1)) segments bitmap).

Definition BitmapMgr_FreeLength (m : BitmapBlockMgr) : Z := u32 (bmp_size_ m - bmp_used_ m).

Definition BitmapMgr_ByteSize (m : BitmapBlockMgr) : Z := u64 (bmp_segments_ m * sizeof_Block).

(** The [while] loop over the set bits of the word [seg] at [i]; [first0] is
    the loop variable [first]. Each turn moves [first] past a run of ones, so 65
    turns are enough for a word. *)
Fixpoint serialize_word (fuel : nat) (i first0 seg : Z) (strm : MemoryFixedSizeStream) :
    outcome (Z * MemoryFixedSizeStream) :=
  match fuel with
  | O => OutOfFuel
  | S fuel' =>
      if negb (seg =? 0) && (first0 <? u32 (i + type_size)) then
        trailing_zeros ← ctzl seg;
        let last0 := u32 (i + trailing_zeros) in
        strm' ← (if first0 <? last0 then write_block strm (mkBlock first0 last0) else Ok strm);
        let mask := ones_from trailing_zeros in
        z ← ctzl (Z.lnot (Z.lor seg (Z.lnot mask)));
        let first1 := u32 (i + z) in
        serialize_word fuel' i first1 (Z.land seg (ones_from (u32 (first1 - i)))) strm'
      else Ok (first0, strm)
  end.

(** The [for] loop over the words. *)
Fixpoint serialize_words (fuel : nat) (m : BitmapBlockMgr) (i first0 : Z)
    (strm : MemoryFixedSizeStream) : outcome (Z * MemoryFixedSizeStream) :=
  match fuel with
  | O => OutOfFuel
  | S fuel' =>
      if i <? bmp_size_ m then
        seg ← Bitmap_UnderlayValue (bmp_bitmap_ m) (i `div` type_size);
        r ← serialize_word 65 i first0 seg strm;
        serialize_words fuel' m (u32 (i + type_size)) r.1 r.2
      else Ok (first0, strm)
  end.

Definition BitmapMgr_SerializeToBuffer (m : BitmapBlockMgr) (buf : list Z) (buf_size : Z) :
    outcome (list Z) :=
  let fuel := S (Z.to_nat (RoundUp (bmp_size_ m) type_size)) in
  r ← serialize_words fuel m 0 0 (Stream_new buf buf_size);
  strm ← (if r.1 <? bmp_size_ m then write_block r.2 (mkBlock r.1 (bmp_size_ m)) else Ok r.2);
  CHECK (Stream_Tell strm =? BitmapMgr_ByteSize m);;
  Ok (p_buffer_ strm).

#[global] Instance BitmapBlockMgr_ops : BlockMgr BitmapBlockMgr := {
  bm_new := BitmapMgr_new;
  bm_Size := bmp_size_;
  bm_Resize := BitmapMgr_Resize;
  bm_Check := BitmapMgr_Check;
  bm_Take := BitmapMgr_Take;
  bm_FreeLength := BitmapMgr_FreeLength;
  bm_ByteSize := BitmapMgr_ByteSize;
  bm_SerializeToBuffer := BitmapMgr_SerializeToBuffer }.

(** ** The bits of a bitmap *)

(** The bit of position [x], false outside the words. *)
Definition bit_at (v : list Z) (x : Z) : bool :=
  match v !! word_index x with
  | Some w => Z.testbit w (x `mod` 64)
  | None => false
  end.

Lemma bit_offset_mod pos : bit_offset pos = pos `mod` 64.
Proof. apply (Z.land_ones pos 6). lia. Qed.

Lemma land_shiftr_1 w o : 0 <= o -> Z.land (Z.shiftr w o) 1 = Z.b2z (Z.testbit w o).
Proof.
  intros. change 1 with (Z.ones 1). rewrite Z.land_ones by lia.
  by rewrite <- Z.bit0_mod, Z.shiftr_spec, Z.add_0_l by lia.
Qed.

Lemma word_index_lt pos k : 0 <= pos -> (word_index pos < k)%nat <-> pos < 64 * Z.of_nat k.
Proof.
  intros. unfold word_index, type_size.
  pose proof (Z.div_mod pos 64). pose proof (Z.mod_pos_bound pos 64). lia.
Qed.

Lemma word_index_mod_inj x y :
  0 <= x -> 0 <= y -> word_index x = word_index y -> x `mod` 64 = y `mod` 64 -> x = y.
Proof.
  unfold word_index, type_size. intros Hx Hy Hi Hm.
  pose proof (Z.div_mod x 64). pose proof (Z.div_mod y 64).
  pose proof (Z.div_pos x 64). pose proof (Z.div_pos y 64). lia.
Qed.

Lemma Bitmap_Test_bit b pos :
  0 <= pos < 64 * Z.of_nat (length (vec_ b)) ->
  Bitmap_Test b pos = Ok (Z.b2z (bit_at (vec_ b) pos)).
Proof.
  intros Hp. unfold Bitmap_Test, bit_at.
  destruct (lookup_lt_is_Some_2 (vec_ b) (word_index pos)) as [w Hw];
    [apply word_index_lt; lia|].
  rewrite Hw. cbn [deref mbind outcome_bind]. rewrite bit_offset_mod, land_shiftr_1; [done|].
  apply Z.mod_pos_bound. lia.
Qed.

Lemma single_bit o j : 0 <= o < 64 -> 0 <= j < 64 ->
  Z.testbit (s64 (Z.shiftl 1 o)) j = bool_decide (j = o).
Proof.
  intros Ho Hj. rewrite s64_testbit by done. rewrite Z.shiftl_1_l, Z.pow2_bits_eqb by lia.
  case_bool_decide; [by apply Z.eqb_eq|apply Z.eqb_neq; lia].
Qed.

(** Setting bit [pos] changes that bit only. *)
Lemma Bitmap_Set_bit b pos :
  0 <= pos < 64 * Z.of_nat (length (vec_ b)) -> Forall sext (vec_ b) ->
  exists v', Bitmap_Set b pos 1 = Ok (mkBitmap (bitmap_size_ b) v') /\
    length v' = length (vec_ b) /\ Forall sext v' /\
    forall x, 0 <= x -> bit_at v' x = bool_decide (x = pos) || bit_at (vec_ b) x.
Proof.
  intros Hp Hs. unfold Bitmap_Set.
  assert (Hlt : (word_index pos < length (vec_ b))%nat) by (apply word_index_lt; lia).
  destruct (lookup_lt_is_Some_2 _ _ Hlt) as [w Hw]. rewrite Hw. cbn [deref mbind outcome_bind].
  change (1 =? 0) with false. cbv iota.
  eexists; split; [done|]. rewrite length_insert. split; [done|]. split.
  { apply Forall_insert; [done|]. apply sext_lor; [|apply sext_s64].
    by eapply Forall_lookup_1. }
  intros x Hx. unfold bit_at. rewrite list_lookup_insert, bit_offset_mod.
  pose proof (Z.mod_pos_bound pos 64). pose proof (Z.mod_pos_bound x 64).
  destruct (decide (word_index pos = word_index x)) as [Hi|Hi].
  - rewrite decide_True by (split; [congruence|lia]). rewrite <- Hi, Hw.
    rewrite Z.lor_spec, single_bit, orb_comm by lia. f_equal.
    apply bool_decide_ext. split; [|by intros ->].
    intros Hm. apply word_index_mod_inj; [lia..|congruence|done].
  - rewrite decide_False by (intros [? _]; congruence).
    rewrite bool_decide_false by (intros ->; done). done.
Qed.

(** ** The manager and its abstract state *)

Definition taken_bit (n : Z) (F : gset Z) (x : Z) : bool :=
  bool_decide (0 <= x < n) && negb (bool_decide (x ∈ F)).

(** The words hold exactly the taken numbers. *)
Definition bits_rep (v : list Z) (n : Z) (F : gset Z) : Prop :=
  Z.of_nat (length v) = RoundUp n 64 /\ Forall sext v /\
  forall x, 0 <= x -> bit_at v x = taken_bit n F x.

Definition BitmapMgr_rep (m : BitmapBlockMgr) (n : Z) (F : gset Z) : Prop :=
  bmp_size_ m = n /\ 0 <= n < 2 ^ 32 /\ (forall x, x ∈ F -> 0 <= x < n) /\
  bmp_used_ m = n - Z.of_nat (size F) /\
  bmp_segments_ m = (if decide (n = 0) then 1 else Z.of_nat (length (free_runs n F))) /\
  bits_rep (vec_ (bmp_bitmap_ m)) n F.

Lemma RoundUp_words n : 0 <= n < 2 ^ 32 -> n <= 64 * RoundUp n 64 < n + 64.
Proof.
  intros. unfold RoundUp. rewrite u64_small by lia.
  pose proof (Z.div_mod (n + 64 - 1) 64). pose proof (Z.mod_pos_bound (n + 64 - 1) 64). lia.
Qed.

Lemma bits_rep_Test b n F x :
  0 <= n < 2 ^ 32 -> bits_rep (vec_ b) n F -> 0 <= x < n ->
  Bitmap_Test b x = Ok (Z.b2z (bool_decide (x ∉ F))).
Proof.
  intros Hn (Hl & _ & Hb) Hx. pose proof (RoundUp_words n Hn).
  rewrite Bitmap_Test_bit by lia. rewrite Hb by lia. unfold taken_bit.
  rewrite bool_decide_true by done. by rewrite bool_decide_not.
Qed.

Lemma b2z_eqb_0 b : (Z.b2z b =? 0) = negb b.
Proof. by destruct b. Qed.

Lemma BitmapMgr_Check_rep m n F seq :
  BitmapMgr_rep m n F -> 0 <= seq < n ->
  BitmapMgr_Check m seq = Ok (bool_decide (seq ∉ F)).
Proof.
  intros (Hs & Hn & _ & _ & _ & Hb) Hseq. unfold BitmapMgr_Check. rewrite Hs. pass.
  rewrite (bits_rep_Test _ n F) by done. cbn [mbind outcome_bind].
  by rewrite b2z_eqb_0, negb_involutive.
Qed.

Lemma bits_rep_Set b n F seq :
  0 <= n < 2 ^ 32 -> bits_rep (vec_ b) n F -> 0 <= seq < n ->
  exists v', Bitmap_Set b seq 1 = Ok (mkBitmap (bitmap_size_ b) v') /\
    bits_rep v' n (F ∖ {[seq]}).
Proof.
  intros Hn (Hl & Hs & Hb) Hseq. pose proof (RoundUp_words n Hn).
  destruct (Bitmap_Set_bit b seq) as (v' & -> & Hl' & Hs' & Hb'); [lia|done|].
  exists v'. split; [done|]. split; [congruence|]. split; [done|].
  intros x Hx. rewrite Hb', Hb by done. unfold taken_bit.
  destruct (decide (x = seq)) as [->|Hne].
  - rewrite !(bool_decide_true (0 <= seq < n)) by done.
    rewrite bool_decide_true by done.
    by rewrite (bool_decide_false (seq ∈ F ∖ {[seq]}))
      by (rewrite elem_of_difference, elem_of_singleton; tauto).
  - rewrite (bool_decide_false (x = seq)) by done. simpl. do 2 f_equal.
    apply bool_decide_ext. rewrite elem_of_difference, elem_of_singleton. tauto.
Qed.

(** The two neighbour tests of [Take]. *)
Lemma or_Test_left m n F seq :
  0 <= n < 2 ^ 32 -> bits_rep (vec_ m) n F -> (forall x, x ∈ F -> 0 <= x < n) -> 0 <= seq < n ->
  or_Test (seq =? 0) m (u32 (seq - 1)) = Ok (bool_decide (seq - 1 ∉ F)).
Proof.
  intros Hn Hb HF Hseq. unfold or_Test. case_if E; b2p.
  - rewrite bool_decide_true; [done|]. intros Hx%HF. lia.
  - rewrite u32_small, (bits_rep_Test _ n F) by (done || lia). cbn [mbind outcome_bind].
    by rewrite b2z_eqb_0, negb_involutive.
Qed.

Lemma or_Test_right m n F seq :
  0 <= n < 2 ^ 32 -> bits_rep (vec_ m) n F -> (forall x, x ∈ F -> 0 <= x < n) -> 0 <= seq < n ->
  or_Test (u32 (seq + 1) =? n) m (u32 (seq + 1)) = Ok (bool_decide (seq + 1 ∉ F)).
Proof.
  intros Hn Hb HF Hseq. unfold or_Test. rewrite u32_small by lia. case_if E; b2p.
  - rewrite bool_decide_true; [done|]. intros Hx%HF. lia.
  - rewrite (bits_rep_Test _ n F) by (done || lia). cbn [mbind outcome_bind].
    by rewrite b2z_eqb_0, negb_involutive.
Qed.

(** The counter update of [Take] follows the number of runs. *)
Lemma segments_update s dl dr :
  0 < s < 2 ^ 32 - 1 ->
  let s1 := u32 (s + 1) in
  let s2 := if dl : bool then u32 (s1 - 1) else s1 in
  (if dr : bool then u32 (s2 - 1) else s2) =
  s - 1 + (if dl then 0 else 1) + (if dr then 0 else 1).
Proof. intros Hs. simpl. destruct dl, dr; wrap_lia. Qed.

Lemma free_runs_pos n F seq :
  0 <= n -> (forall x, x ∈ F -> 0 <= x < n) -> seq ∈ F ->
  0 < Z.of_nat (length (free_runs n F)).
Proof.
  intros Hn HF Hs. destruct (free_runs_is_runs n F Hn HF) as [_ Hc].
  apply Hc in Hs as (b & Hb & _). destruct (free_runs n F); [set_solver|simpl; lia].
Qed.

Lemma BitmapMgr_Take_rep m n F seq :
  BitmapMgr_rep m n F -> seq ∈ F ->
  exists m', BitmapMgr_Take m seq = Ok m' /\ BitmapMgr_rep m' n (F ∖ {[seq]}).
Proof.
  intros (Hs & Hn & HF & Hu & Hg & Hb) Hseq. pose proof (HF _ Hseq) as Hlt.
  unfold BitmapMgr_Take. rewrite Hs. pass.
  rewrite (bits_rep_Test _ n F) by done. rewrite bool_decide_false by (intros H; by apply H).
  cbn [mbind outcome_bind Z.b2z Z.eqb negb].
  rewrite (or_Test_left _ n F) by done. cbn [mbind outcome_bind].
  rewrite (or_Test_right _ n F) by done. cbn [mbind outcome_bind].
  destruct (bits_rep_Set (bmp_bitmap_ m) n F seq Hn Hb Hlt) as (v' & -> & Hv').
  cbn [mbind outcome_bind]. eexists; split; [done|].
  rewrite decide_False in Hg by lia.
  pose proof (free_runs_pos n F seq ltac:(lia) HF Hseq).
  pose proof (free_runs_length n F ltac:(lia) HF).
  pose proof (size_bounded n F ltac:(lia) HF).
  assert (Hsz : Z.of_nat (size (F ∖ {[seq]})) = Z.of_nat (size F) - 1).
  { rewrite size_difference by set_solver. rewrite size_singleton.
    assert (size F <> 0%nat); [|lia]. intros He%size_empty_inv. set_solver. }
  unfold BitmapMgr_rep; cbn [bmp_size_ bmp_used_ bmp_segments_ bmp_bitmap_ vec_].
  rewrite (segments_update (bmp_segments_ m)) by lia.
  rewrite free_runs_length_cut by (done || lia). rewrite Hsz, Hu, u32_small by lia.
  rewrite decide_False by lia.
  split; [done|]. split; [done|]. split; [intros x [? _]%elem_of_difference; auto|].
  split; [lia|]. split; [|done].
  rewrite Hg. destruct (decide (seq - 1 ∈ F)) as [Hd|Hd], (decide (seq + 1 ∈ F)) as [He|He];
    rewrite ?(bool_decide_true _ Hd), ?(bool_decide_true _ He);
    repeat first [rewrite (bool_decide_false (_ ∉ F)) by (intros Hx; by apply Hx)
                 |rewrite (bool_decide_true (_ ∉ F)) by done]; lia.
Qed.

Lemma bit_at_resize v k x :
  0 <= x -> (length v <= k)%nat -> bit_at (resize k 0 v) x = bit_at v x.
Proof.
  intros Hx Hk. unfold bit_at. rewrite resize_ge by done.
  destruct (decide (word_index x < length v)%nat) as [Hlt|Hge].
  - by rewrite lookup_app_l.
  - rewrite lookup_app_r by lia. rewrite (lookup_ge_None_2 v) by lia.
    destruct (decide (word_index x - length v < k - length v)%nat).
    + rewrite lookup_replicate_2 by done. by rewrite Z.bits_0.
    + by rewrite (lookup_ge_None_2 (replicate _ _)) by (rewrite length_replicate; lia).
Qed.

Lemma RoundUp_mono n n' : 0 <= n <= n' -> n' < 2 ^ 32 -> RoundUp n 64 <= RoundUp n' 64.
Proof. intros. unfold RoundUp. rewrite !u64_small by lia. apply Z.div_le_mono; lia. Qed.

Lemma taken_bit_grow n n' F x :
  n <= n' -> taken_bit n' (F ∪ range_set n n') x = taken_bit n F x.
Proof.
  intros Hn. unfold taken_bit.
  destruct (decide (0 <= x < n)).
  - rewrite (bool_decide_true (0 <= x < n')), (bool_decide_true (0 <= x < n)) by lia.
    cbn [andb]. f_equal. apply bool_decide_ext.
    rewrite elem_of_union, elem_of_range_set. split; [intros [?|?]; [done|lia]|auto].
  - rewrite (bool_decide_false (0 <= x < n)) by done. simpl.
    destruct (decide (0 <= x < n')); [|by rewrite bool_decide_false by done].
    rewrite (bool_decide_true (0 <= x < n')) by done. simpl.
    rewrite bool_decide_true; [done|]. rewrite elem_of_union, elem_of_range_set. right. lia.
Qed.

Lemma bits_rep_grow b n n' F :
  0 <= n <= n' -> n' < 2 ^ 32 -> bits_rep (vec_ b) n F ->
  bits_rep (vec_ (Bitmap_Resize b n')) n' (F ∪ range_set n n').
Proof.
  intros Hn Hn' (Hl & Hs & Hb). unfold Bitmap_Resize, type_size; cbn [vec_].
  pose proof (RoundUp_mono n n' Hn Hn'). pose proof (RoundUp_words n').
  split; [rewrite length_resize; lia|]. split.
  - rewrite resize_ge by lia. apply Forall_app. split; [done|].
    apply Forall_replicate, sext_0.
  - intros x Hx. rewrite bit_at_resize by lia. rewrite Hb by done.
    symmetry. apply taken_bit_grow. lia.
Qed.

(** Growing when the last number is free only lengthens the last run. *)
Lemma free_runs_grow_length n n' F :
  0 < n < n' -> (forall x, x ∈ F -> 0 <= x < n) -> n - 1 ∈ F ->
  length (free_runs n' (F ∪ range_set n n')) = length (free_runs n F).
Proof.
  intros Hn HF Hlast. pose proof (free_runs_is_runs n F ltac:(lia) HF) as Hruns.
  destruct (decide (free_runs n F = [])) as [He|Hne].
  { rewrite He in Hruns. apply Hruns in Hlast. by apply covered_nil in Hlast. }
  destruct (exists_last Hne) as (l & b & Heq). rewrite Heq in *.
  assert (last b = n) as Hb.
  { destruct Hruns as [Hr Hc]. apply Hc, covered_app in Hlast.
    apply runs_from_split in Hr as (H1 & ? & ? & _). destruct Hlast as [Hx|Hx].
    - pose proof (runs_from_lower _ _ _ _ H1 Hx). lia.
    - apply covered_cons in Hx as [?|[]%covered_nil]. lia. }
  rewrite <- (is_runs_free_runs n' _ (l ++ [mkBlock (first b) n']));
    [by rewrite !length_app|lia|]. by apply is_runs_extend_last; [|lia|].
Qed.

Definition bitmap_resizable (n : Z) (F : gset Z) : Prop := n = 0 \/ n - 1 ∈ F.

Lemma BitmapMgr_Resize_rep m n F n' :
  BitmapMgr_rep m n F -> n < n' < 2 ^ 32 -> bitmap_resizable n F ->
  exists m', BitmapMgr_Resize m n' = Ok m' /\ BitmapMgr_rep m' n' (F ∪ range_set n n').
Proof.
  intros (Hs & Hn & HF & Hu & Hg & Hb) Hn' Hres. unfold BitmapMgr_Resize.
  rewrite Hs, (u32_small n') by lia. pass. rewrite (u32_small (n' - 1)) by lia.
  pose proof (bits_rep_grow (bmp_bitmap_ m) n n' F ltac:(lia) ltac:(lia) Hb) as Hb'.
  rewrite (bits_rep_Test _ n' (F ∪ range_set n n')) by (done || lia).
  rewrite (bool_decide_false (_ ∉ _))
    by (intros Hx; apply Hx, elem_of_union; right; apply elem_of_range_set; lia).
  cbn [mbind outcome_bind]. eexists; split; [done|].
  unfold BitmapMgr_rep; cbn [bmp_size_ bmp_used_ bmp_segments_ bmp_bitmap_].
  split; [done|]. split; [lia|]. split.
  { intros x [Hx%HF|Hx%elem_of_range_set]%elem_of_union; lia. }
  split; [rewrite size_union_range by (done || lia); lia|]. split; [|done].
  change (Z.b2z false =? 0) with true. cbv iota. rewrite Hg.
  rewrite (decide_False (P := n' = 0)) by lia. case_decide as Hz.
  - assert (F = ∅) as -> by (apply set_eq; intros x; split; [intros ?%HF; lia|set_solver]).
    rewrite (left_id_L ∅ union), Hz.
    rewrite <- (is_runs_free_runs n' _ [mkBlock 0 n']) by (lia || apply is_runs_single; lia). done.
  - destruct Hres as [?|Hlast]; [lia|]. rewrite free_runs_grow_length by (done || lia). done.
Qed.

Lemma BitmapMgr_new_rep n : 0 <= n < 2 ^ 32 -> BitmapMgr_rep (BitmapMgr_new n) n (range_set 0 n).
Proof.
  intros Hn. unfold BitmapMgr_rep, BitmapMgr_new; cbn [bmp_size_ bmp_used_ bmp_segments_ bmp_bitmap_].
  rewrite u32_small by done. split; [done|]. split; [done|].
  split; [intros x ?%elem_of_range_set; lia|].
  split; [rewrite size_range_set; lia|]. split.
  - case_decide; [done|].
    rewrite <- (is_runs_free_runs n _ [mkBlock 0 n]) by (lia || apply is_runs_single; lia). done.
  - unfold bits_rep, Bitmap_new, type_size; cbn [vec_].
    pose proof (RoundUp_words n Hn).
    split; [rewrite length_replicate; lia|]. split; [apply Forall_replicate, sext_0|].
    intros x Hx. unfold bit_at, taken_bit.
    replace (bool_decide (0 <= x < n) && negb (bool_decide (x ∈ range_set 0 n))) with false.
    + destruct (replicate _ _ !! _) as [w|] eqn:Hw; [|done].
      apply lookup_replicate in Hw as [-> _]. by rewrite Z.bits_0.
    + case_bool_decide; [|done]. by rewrite bool_decide_true by (apply elem_of_range_set; lia).
Qed.

(** ** Serialization

    The word scan writes what the reference scan lists, provided that bit 63 of
    no word is set: there the builtin would be applied to 0. *)
Section serialize.
Context (n : Z) (F : gset Z).
Context (Hn : 0 <= n <= 2 ^ 32 - 64) (HF : forall x, x ∈ F -> 0 <= x < n).

Let free (x : Z) : bool := bool_decide (x ∈ F).

Lemma free_taken x : 0 <= x < n -> free x = negb (taken_bit n F x).
Proof using.
  intros Hx. unfold free, taken_bit. rewrite (bool_decide_true (0 <= x < n)) by done.
  by rewrite andb_true_l, negb_involutive.
Qed.

Lemma taken_lt x : taken_bit n F x = true -> 0 <= x < n.
Proof using. unfold taken_bit. intros [Hx%bool_decide_eq_true _]%andb_true_iff. done. Qed.

(** [seg] holds the taken numbers of the word at [i] that are not below
    [first0], and no number in [first0, i) is taken. *)
Definition word_inv (i first0 seg : Z) : Prop :=
  sext seg /\ 0 <= first0 <= n /\
  (forall j, 0 <= j < 64 -> Z.testbit seg j = taken_bit n F (i + j) && (first0 <=? i + j)) /\
  (forall x, first0 <= x < i -> taken_bit n F x = false).

(** One turn of the inner loop: up to [i + t] the numbers are free, from there
    up to [i + z] they are taken. *)
Lemma serialize_turn i first0 seg :
  word_inv i first0 seg -> 0 <= i < n -> taken_bit n F (i + 63) = false -> seg <> 0 ->
  exists t z, ctzl seg = Ok t /\ ctzl (Z.lnot (Z.lor seg (Z.lnot (ones_from t)))) = Ok z /\
    0 <= t < z /\ z < 64 /\ first0 <= i + t /\ i + z <= n /\
    runs_between free first0 n =
      (if first0 <? i + t then [mkBlock first0 (i + t)] else []) ++ runs_between free (i + z) n /\
    word_inv i (i + z) (Z.land seg (ones_from z)).
Proof using Hn HF.
  intros (Hs & Hf & Hb & Hpre) Hi H63 Hnz.
  destruct (ctzl_spec seg Hs Hnz) as (t & Ht & Htr & Htb & Htlow).
  exists t. rewrite Hb in Htb by done. apply andb_true_iff in Htb as [Htk Htf]. b2p.
  pose proof (taken_lt _ Htk) as Htn.
  assert (Hx : forall j, 0 <= j < 64 ->
    Z.testbit (Z.lnot (Z.lor seg (Z.lnot (ones_from t)))) j = negb (Z.testbit seg j) && (t <=? j)).
  { intros j Hj. rewrite Z.lnot_spec, Z.lor_spec, Z.lnot_spec, ones_from_testbit by lia.
    by rewrite negb_orb, negb_involutive. }
  destruct (ctzl_spec (Z.lnot (Z.lor seg (Z.lnot (ones_from t))))) as (z & Hz & Hzr & Hzb & Hzlow).
  { apply sext_lnot, sext_lor; [done|]. apply sext_lnot, sext_ones_from. }
  { intros H0. specialize (Hx 63 ltac:(lia)). rewrite H0, Z.bits_0, Hb, H63 in Hx by lia.
    cbn [andb negb] in Hx. symmetry in Hx. b2p. lia. }
  exists z. rewrite Hx in Hzb by done. apply andb_true_iff in Hzb as [Hzb Htz]. b2p.
  assert (t <> z) by (intros ->; rewrite Hb, Htk, (proj2 (Z.leb_le _ _)) in Hzb by lia; done).
  assert (Htaken : forall x, i + t <= x < i + z -> taken_bit n F x = true).
  { intros x Hxr. specialize (Hzlow (x - i) ltac:(lia)). rewrite Hx, Hb in Hzlow by lia.
    replace (i + (x - i)) with x in Hzlow by lia.
    rewrite (proj2 (Z.leb_le t _)), (proj2 (Z.leb_le first0 _)), !andb_true_r in Hzlow by lia.
    by apply negb_false_iff in Hzlow. }
  assert (Hzn : i + z <= n) by (pose proof (taken_lt _ (Htaken (i + z - 1) ltac:(lia))); lia).
  assert (Hfree : forall x, first0 <= x < i + t -> taken_bit n F x = false).
  { intros x Hxr. destruct (decide (x < i)); [apply Hpre; lia|].
    specialize (Htlow (x - i) ltac:(lia)). rewrite Hb in Htlow by lia.
    replace (i + (x - i)) with x in Htlow by lia.
    by rewrite (proj2 (Z.leb_le first0 x)), andb_true_r in Htlow by lia. }
  repeat (split; [done || lia|]). split.
  - transitivity ((if first0 <? i + t then [mkBlock first0 (i + t)] else [])
                  ++ runs_between free (i + t) n).
    + case_if E; b2p; simpl.
      * apply runs_between_free; [lia| |by rewrite free_taken, Htk by lia].
        intros x Hxr. by rewrite free_taken, Hfree by lia.
      * by replace first0 with (i + t) by lia.
    + f_equal. apply runs_between_taken; [lia|]. intros x Hxr.
      by rewrite free_taken, Htaken by lia.
  - split; [by apply sext_land, sext_ones_from|]. split; [lia|]. split; [|intros; lia].
    intros j Hj. rewrite Z.land_spec, Hb, ones_from_testbit by lia.
    rewrite <- andb_assoc. f_equal. apply eq_bool_prop_intro.
    rewrite !Is_true_true, andb_true_iff, !Z.leb_le. lia.
Qed.

(** The inner loop writes a prefix of the remaining runs and leaves the word
    without taken numbers from [first] on. *)
Lemma serialize_word_spec fuel i first0 seg :
  word_inv i first0 seg -> 0 <= i < n -> taken_bit n F (i + 63) = false ->
  65 <= Z.of_nat fuel + Z.max 0 (first0 - i) -> first0 < i + 64 ->
  exists bs first1,
    runs_between free first0 n = bs ++ runs_between free first1 n /\
    (forall strm, serialize_word fuel i first0 seg strm =
       (s ← foldM write_block strm bs; Ok (first1, s))) /\
    0 <= first1 <= n /\ first1 < i + 64 /\
    (forall x, first1 <= x < i + 64 -> taken_bit n F x = false).
Proof using Hn HF.
  revert first0 seg.
  induction fuel as [|fuel IH]; intros first0 seg Hinv Hi H63 Hfuel Hlt; [lia|].
  cbn [serialize_word]. unfold type_size. rewrite u32_small by lia.
  rewrite (proj2 (Z.ltb_lt first0 _)) by lia. rewrite andb_true_r.
  destruct (Z.eqb_spec seg 0) as [->|Hnz]; cbn [negb].
  - exists [], first0. destruct Hinv as (_ & ? & Hb & Hpre). repeat (split; [done || lia|]).
    intros x Hx. destruct (decide (x < i)); [apply Hpre; lia|].
    specialize (Hb (x - i) ltac:(lia)). rewrite Z.bits_0 in Hb.
    replace (i + (x - i)) with x in Hb by lia.
    by rewrite (proj2 (Z.leb_le first0 x)), andb_true_r in Hb by lia.
  - destruct (serialize_turn i first0 seg Hinv Hi H63 Hnz)
      as (t & z & -> & Hz & Htz & Hz64 & Hft & Hzn & Hruns & Hinv').
    destruct (IH (i + z) _ Hinv' Hi H63 ltac:(lia) ltac:(lia)) as (bs & f1 & Hbs & Hrec & Hf1).
    exists ((if first0 <? i + t then [mkBlock first0 (i + t)] else []) ++ bs), f1.
    rewrite Hruns, Hbs, app_assoc. split; [done|]. split; [|done]. intros strm.
    cbn [mbind outcome_bind]. rewrite Hz. unwrap. replace (i + z - i) with z by lia.
    case_if E; cbn [foldM app mbind outcome_bind]; unwrap.
    + destruct (write_block strm _); cbn [mbind outcome_bind]; [|done..].
      unwrap. replace (i + z - i) with z by lia. apply Hrec.
    + replace (i + z - i) with z by lia. apply Hrec.
Qed.

Context (m : BitmapBlockMgr) (Hm : bmp_size_ m = n) (Hbits : bits_rep (vec_ (bmp_bitmap_ m)) n F).
Context (H63 : forall x, 0 <= x < n -> x `mod` 64 = 63 -> x ∈ F).

Lemma bit63_free i : i `mod` 64 = 0 -> taken_bit n F (i + 63) = false.
Proof using H63.
  intros Hi. unfold taken_bit. case_bool_decide as Hx; [|done]. cbn [andb].
  apply negb_false_iff, bool_decide_eq_true, H63; [done|].
  rewrite Z.add_mod, Hi by lia. done.
Qed.

(** The word at a multiple of 64 below the size. *)
Lemma word_at i first0 :
  0 <= i < n -> i `mod` 64 = 0 -> 0 <= first0 <= n -> first0 <= i ->
  (forall x, first0 <= x < i -> taken_bit n F x = false) ->
  exists seg, Bitmap_UnderlayValue (bmp_bitmap_ m) (i `div` type_size) = Ok seg /\
    word_inv i first0 seg.
Proof using Hn Hbits.
  intros Hi Him Hf Hfi Hpre. destruct Hbits as (Hl & Hs & Hb).
  pose proof (RoundUp_words n ltac:(lia)).
  assert (Hlt : (word_index i < length (vec_ (bmp_bitmap_ m)))%nat) by (apply word_index_lt; lia).
  destruct (lookup_lt_is_Some_2 _ _ Hlt) as [w Hw]. exists w.
  unfold Bitmap_UnderlayValue. unfold word_index in Hw. rewrite Hw. split; [done|].
  split; [by eapply Forall_lookup_1|]. split; [done|]. split; [|done].
  intros j Hj. rewrite (proj2 (Z.leb_le first0 _)), andb_true_r by lia.
  rewrite <- Hb by lia. unfold bit_at, word_index, type_size in *.
  replace ((i + j) `div` 64) with (i `div` 64).
  - rewrite Hw. f_equal. rewrite Z.add_mod, Him, Z.add_0_l, Z.mod_mod by lia.
    symmetry. by apply Z.mod_small.
  - pose proof (Z.div_mod i 64). pose proof (Z.div_mod (i + j) 64).
    pose proof (Z.mod_pos_bound (i + j) 64). lia.
Qed.

Lemma serialize_words_spec fuel i first0 :
  0 <= i -> i `mod` 64 = 0 -> i < n + 64 -> n <= i + 64 * (Z.of_nat fuel - 1) ->
  0 <= first0 <= n -> first0 <= i ->
  (forall x, first0 <= x < i -> taken_bit n F x = false) ->
  exists bs first1,
    runs_between free first0 n = bs ++ runs_between free first1 n /\
    (forall strm, serialize_words fuel m i first0 strm =
       (s ← foldM write_block strm bs; Ok (first1, s))) /\
    0 <= first1 <= n /\ (forall x, first1 <= x < n -> taken_bit n F x = false).
Proof using All.
  revert i first0. induction fuel as [|fuel IH]; intros i first0 Hi Him Hin Hfuel Hf Hfi Hpre; [lia|].
  cbn [serialize_words]. rewrite Hm. destruct (Z.ltb_spec i n) as [Hlt|Hge].
  - destruct (word_at i first0) as (seg & Hseg & Hinv); [lia..|done|].
    destruct (serialize_word_spec 65 i first0 seg Hinv ltac:(lia) (bit63_free i Him))
      as (bs & f1 & Hbs & Hw & Hf1 & Hf1i & Htk); [lia..|].
    destruct (IH (i + 64) f1) as (bs' & f2 & Hbs' & Hws & Hf2);
      [lia|rewrite <- Z.add_mod_idemp_r, Z.add_0_r by lia; done|lia..|done|].
    exists (bs ++ bs'), f2. rewrite Hbs, Hbs', app_assoc. split; [done|]. split; [|done].
    intros strm. rewrite Hseg. cbn [mbind outcome_bind]. rewrite Hw, foldM_app.
    destruct (foldM write_block strm bs) as [s| | |]; cbn [mbind outcome_bind fst snd]; [|done..].
    unfold type_size. rewrite u32_small by lia. apply Hws.
  - exists [], first0. repeat (split; [done || lia|]). intros x Hx. apply Hpre. lia.
Qed.

(** The whole function writes the runs in order, then compares the position
    with [ByteSize]. *)
Lemma BitmapMgr_Serialize_writes buf buf_size :
  0 < n ->
  BitmapMgr_SerializeToBuffer m buf buf_size =
    (s ← foldM write_block (Stream_new buf buf_size) (free_runs n F);
     CHECK (Stream_Tell s =? BitmapMgr_ByteSize m);; Ok (p_buffer_ s)).
Proof using All.
  intros Hpos. unfold BitmapMgr_SerializeToBuffer. rewrite Hm.
  pose proof (RoundUp_words n ltac:(lia)).
  destruct (serialize_words_spec (S (Z.to_nat (RoundUp n type_size))) 0 0)
    as (bs & f1 & Hbs & Hws & Hf1 & Htk); [lia|done|lia|unfold type_size; lia|lia..|].
  rewrite Hws. clear Hws.
  assert (Htail : runs_between free f1 n = if f1 <? n then [mkBlock f1 n] else []).
  { case_if E; b2p.
    - apply runs_between_free_end; [done|]. intros x Hx. by rewrite free_taken, Htk by lia.
    - unfold runs_between. by replace (Z.to_nat (n - f1)) with O by lia. }
  rewrite Htail in Hbs. pose proof (free_runs_between n F) as Href. fold free in Href.
  rewrite Href, Hbs, foldM_app.
  destruct (foldM write_block _ bs) as [s1| | |]; [|done..]. cbn [mbind outcome_bind fst snd].
  destruct (f1 <? n); cbn [foldM mbind outcome_bind]; [|done].
  by destruct (write_block s1 _).
Qed.

Lemma BitmapMgr_Serialize_spec buf :
  0 < n -> bmp_segments_ m = Z.of_nat (length (free_runs n F)) ->
  Z.of_nat (length buf) = BitmapMgr_ByteSize m ->
  BitmapMgr_SerializeToBuffer m buf (BitmapMgr_ByteSize m) = Ok (Blocks_bytes (free_runs n F)).
Proof using All.
  intros Hpos Hseg Hbuf. rewrite BitmapMgr_Serialize_writes by done.
  pose proof (free_runs_length n F ltac:(lia) HF).
  assert (Hlen : Z.of_nat (length buf) = 8 * Z.of_nat (length (free_runs n F))).
  { rewrite Hbuf. unfold BitmapMgr_ByteSize, sizeof_Block. rewrite Hseg, u64_small by lia. lia. }
  destruct (write_blocks_exact (free_runs n F) buf) as (s & Hfold & Hb & Ht); [lia..|].
  rewrite <- Hbuf, Hfold. cbn [mbind outcome_bind]. rewrite Ht. pass. by rewrite Hb.
Qed.

(** With room for one block too few, the last write stops the process. *)
Lemma BitmapMgr_Serialize_small buf :
  0 < n -> 0 < Z.of_nat (length (free_runs n F)) ->
  Z.of_nat (length buf) = 8 * (Z.of_nat (length (free_runs n F)) - 1) ->
  BitmapMgr_SerializeToBuffer m buf (Z.of_nat (length buf)) = Fatal.
Proof using All.
  intros Hpos Hruns Hbuf. rewrite BitmapMgr_Serialize_writes by done.
  pose proof (free_runs_length n F ltac:(lia) HF).
  rewrite write_blocks_overflow; [done|lia..|].
  exists (pred (length (free_runs n F))). lia.
Qed.
End serialize.

(** ** The manager implements the interface within its limits *)

Definition bitmap_serializable (n : Z) (F : gset Z) : Prop :=
  n <= 2 ^ 32 - 64 /\ forall x, 0 <= x < n -> x `mod` 64 = 63 -> x ∈ F.

Lemma BitmapMgr_ByteSize_rep m n F :
  BitmapMgr_rep m n F -> 0 < n ->
  BitmapMgr_ByteSize m = sizeof_Block * Z.of_nat (length (free_runs n F)).
Proof.
  intros (_ & Hn & HF & _ & Hg & _) Hpos. pose proof (free_runs_length n F ltac:(lia) HF).
  unfold BitmapMgr_ByteSize, sizeof_Block. rewrite Hg, decide_False by lia.
  rewrite u64_small by lia. lia.
Qed.

#[global] Program Instance BitmapBlockMgr_spec : BlockMgrSpec BitmapBlockMgr := {
  bm_rep := BitmapMgr_rep;
  bm_resizable := bitmap_resizable;
  bm_serializable := bitmap_serializable }.
Next Obligation. by intros m n F (? & ? & _). Qed.
Next Obligation. intros m n F x (_ & _ & HF & _). apply HF. Qed.
Next Obligation. apply BitmapMgr_new_rep. Qed.
Next Obligation. apply BitmapMgr_Resize_rep. Qed.
Next Obligation. apply BitmapMgr_Check_rep. Qed.
Next Obligation. apply BitmapMgr_Take_rep. Qed.
Next Obligation.
  intros m n F (Hs & Hn & HF & Hu & _). pose proof (size_bounded n F ltac:(lia) HF). simpl.
  unfold BitmapMgr_FreeLength. rewrite Hs, Hu, u32_small by lia. lia.
Qed.
Next Obligation. apply BitmapMgr_ByteSize_rep. Qed.
Next Obligation.
  intros m n F buf (Hs & Hn & HF & _ & Hg & Hb) Hpos [Hmax H63] Hbuf. simpl in *.
  rewrite decide_False in Hg by lia.
  apply (BitmapMgr_Serialize_spec n F ltac:(lia) HF m Hs Hb H63); done.
Qed.

(** ** Properties *)

(** C28: for every history of [Resize] and [Take] calls that the abstract
    free-set machine allows and in which the last number is free at each
    [Resize] (or there is no number yet), [BitmapBlockMgr] runs without
    stopping and its [Check] and [FreeLength] report the free set; when in the
    end the number at bit 63 of every word is free, its word-wise
    [SerializeToBuffer], into a region of [ByteSize] bytes, writes the same
    bytes as the number-by-number reference scan. Both conditions are needed:
    [BitmapMgr_Resize_after_last_taken] and [BitmapMgr_Serialize_bit63_undefined]
    say what happens outside them. *)
Theorem BitmapBlockMgr_refines_free_set n0 ops n F
    (Hn0 : 0 <= n0 < 2 ^ 32)
    (Hrun : spec_run (n0, range_set 0 n0) ops = Some (n, F))
    (Hlast : resizes_within bitmap_resizable (n0, range_set 0 n0) ops) :
  exists m, bm_run (BitmapMgr_new n0) ops = Ok m /\
    bm_Size m = n /\
    (forall seq, 0 <= seq < n -> bm_Check m seq = Ok (bool_decide (seq ∉ F))) /\
    bm_FreeLength m = Z.of_nat (size F) /\
    (0 < n <= 2 ^ 32 - 64 -> (forall x, 0 <= x < n -> x `mod` 64 = 63 -> x ∈ F) ->
     forall buf, Z.of_nat (length buf) = bm_ByteSize m ->
     bm_SerializeToBuffer m buf (bm_ByteSize m) = Ok (Blocks_bytes (free_runs n F))).
Proof.
  pose proof (bm_run_refines_within (M := BitmapBlockMgr) ops (bm_new n0) n0 _ n F (bm_new_spec n0 Hn0)) as Hr.
  destruct (Hr Hlast Hrun) as (m & Hm & Hrep).
  exists m. split; [done|]. split; [by destruct (bm_rep_size m n F Hrep)|].
  split; [intros; by apply (bm_Check_spec m n F)|].
  split; [by apply (bm_FreeLength_spec m n F)|]. intros Hpos H63 buf Hbuf.
  apply (bm_Serialize_spec m n F buf); [done|lia|by split; [lia|]|done].
Qed.

Lemma BitmapBlockMgr_refines_free_set_witness :
  exists F m, bm_run (BitmapMgr_new 5) [OpTake 3; OpResize 70; OpTake 62; OpTake 64; OpTake 4] = Ok m /\
    bm_FreeLength m = Z.of_nat (size F) /\
    forall buf, Z.of_nat (length buf) = bm_ByteSize m ->
     bm_SerializeToBuffer m buf (bm_ByteSize m) = Ok (Blocks_bytes (free_runs 70 F)).
Proof.
  set (F := (range_set 0 5 ∖ {[3]} ∪ range_set 5 70) ∖ {[62]} ∖ {[64]} ∖ {[4]}).
  exists F.
  destruct (BitmapBlockMgr_refines_free_set 5 [OpTake 3; OpResize 70; OpTake 62; OpTake 64; OpTake 4] 70 F)
    as (m & Hm & _ & _ & Hfree & Hser).
  - lia.
  - vm_compute. reflexivity.
  - split; [exact I|]. cbn [spec_step]. rewrite decide_True by (apply (bool_decide_unpack _); vm_compute; done).
    split; [right; apply (bool_decide_unpack _); vm_compute; done|].
    cbn [spec_step]. rewrite decide_True by (cbn; lia).
    repeat (split; [exact I|]; cbn [spec_step];
      rewrite decide_True by (apply (bool_decide_unpack _); vm_compute; done)).
    exact I.
  - exists m. split; [exact Hm|]. split; [exact Hfree|]. apply Hser; [lia|].
    intros x Hx Hmod. assert (x = 63) as ->
      by (pose proof (Z.div_mod x 64); pose proof (Z.div_pos x 64); lia).
    apply (bool_decide_unpack _). vm_compute. done.
Defined.

Lemma BitmapMgr_Resize_undercounts m n F n' :
  BitmapMgr_rep m n F -> 0 < n < n' -> n' < 2 ^ 32 -> n - 1 ∉ F ->
  exists m', BitmapMgr_Resize m n' = Ok m' /\ bmp_size_ m' = n' /\
    bits_rep (vec_ (bmp_bitmap_ m')) n' (F ∪ range_set n n') /\
    bmp_segments_ m' = Z.of_nat (length (free_runs n' (F ∪ range_set n n'))) - 1.
Proof.
  intros (Hs & Hn & HF & Hu & Hg & Hb) Hn' Hmax Hlast. unfold BitmapMgr_Resize.
  rewrite Hs, (u32_small n') by lia. pass. rewrite (u32_small (n' - 1)) by lia.
  pose proof (bits_rep_grow (bmp_bitmap_ m) n n' F ltac:(lia) ltac:(lia) Hb) as Hb'.
  rewrite (bits_rep_Test _ n' (F ∪ range_set n n')) by (done || lia).
  rewrite (bool_decide_false (_ ∉ _))
    by (intros Hx; apply Hx, elem_of_union; right; apply elem_of_range_set; lia).
  cbn [mbind outcome_bind]. eexists; split; [done|]. split; [done|]. split; [done|].
  cbn [bmp_segments_]. change (Z.b2z false =? 0) with true. cbv iota.
  rewrite Hg, decide_False by lia.
  rewrite <- (is_runs_free_runs n' _ (free_runs n F ++ [mkBlock n n'])).
  - rewrite length_app. simpl. lia.
  - lia.
  - apply is_runs_extend_new; [apply free_runs_is_runs; [lia|done]|lia|done].
Qed.

(** When the last number of a [BitmapBlockMgr] has been taken, [Resize]
    leaves the segment count one too small (it tests the bit of the new last
    number, not of the old one), so that [SerializeToBuffer] into a region of
    [ByteSize] bytes stops the process. *)
Theorem BitmapMgr_Resize_after_last_taken m n F n' buf
    (Hrep : BitmapMgr_rep m n F) (Hn : 0 < n < n') (Hn' : n' <= 2 ^ 32 - 64)
    (Hlast : n - 1 ∉ F)
    (H63 : forall x, 0 <= x < n' -> x `mod` 64 = 63 -> x ∈ F ∪ range_set n n') :
  exists m', BitmapMgr_Resize m n' = Ok m' /\
    BitmapMgr_ByteSize m' =
      sizeof_Block * (Z.of_nat (length (free_runs n' (F ∪ range_set n n'))) - 1) /\
    (Z.of_nat (length buf) = BitmapMgr_ByteSize m' ->
     BitmapMgr_SerializeToBuffer m' buf (BitmapMgr_ByteSize m') = Fatal).
Proof.
  destruct (BitmapMgr_Resize_undercounts m n F n' Hrep Hn ltac:(lia) Hlast)
    as (m' & Hres & Hs' & Hb' & Hg').
  set (F' := F ∪ range_set n n') in *.
  assert (HF' : forall x, x ∈ F' -> 0 <= x < n').
  { destruct Hrep as (_ & _ & HF & _). intros x [Hx%HF|Hx%elem_of_range_set]%elem_of_union; lia. }
  pose proof (free_runs_length n' F' ltac:(lia) HF').
  pose proof (free_runs_pos n' F' n ltac:(lia) HF'
    ltac:(apply elem_of_union; right; apply elem_of_range_set; lia)).
  assert (Hbs : BitmapMgr_ByteSize m' = sizeof_Block * (Z.of_nat (length (free_runs n' F')) - 1)).
  { unfold BitmapMgr_ByteSize, sizeof_Block. rewrite Hg', u64_small by lia. lia. }
  exists m'. split; [done|]. split; [done|]. intros Hbuf. unfold sizeof_Block in Hbs.
  rewrite <- Hbuf. apply (BitmapMgr_Serialize_small n' F'); done || lia.
Qed.

Lemma BitmapMgr_Resize_after_last_taken_witness :
  exists m m', BitmapMgr_Take (BitmapMgr_new 1) 0 = Ok m /\
    BitmapMgr_Resize m 3 = Ok m' /\ BitmapMgr_SerializeToBuffer m' [] 0 = Fatal.
Proof.
  destruct (BitmapMgr_Take_rep (BitmapMgr_new 1) 1 (range_set 0 1) 0) as (m & Hm & Hrep).
  { apply BitmapMgr_new_rep. lia. }
  { apply elem_of_range_set. lia. }
  destruct (BitmapMgr_Resize_after_last_taken m 1 (range_set 0 1 ∖ {[0]}) 3 [] Hrep)
    as (m' & Hres & Hbs & Hfat); [lia|lia|apply (bool_decide_unpack _); vm_compute; done| |].
  { intros x Hx Hmod. rewrite Z.mod_small in Hmod by lia. lia. }
  assert (BitmapMgr_ByteSize m' = 0) as H0 by (rewrite Hbs; vm_compute; done).
  exists m, m'. split; [done|]. split; [done|]. rewrite <- H0. apply Hfat. by rewrite H0.
Defined.

(** Once a sequence number with residue 63 modulo 64 is taken,
    [SerializeToBuffer] evaluates [__builtin_ctzl(0)]: a manager of 64 numbers
    with number 63 taken runs into undefined behaviour, although the free
    numbers are the single run [0, 63). *)
Theorem BitmapMgr_Serialize_bit63_undefined :
  exists m, bm_run (BitmapMgr_new 64) [OpTake 63] = Ok m /\
    free_runs 64 (range_set 0 64 ∖ {[63]}) = [mkBlock 0 63] /\
    BitmapMgr_ByteSize m = 8 /\
    BitmapMgr_SerializeToBuffer m (replicate 8 0) 8 = Undef.
Proof. eexists. split; [reflexivity|]. repeat split. Qed.
