(* ===== verification/GradPacket.v ===== *)
(** The gradient packet of src/src/mlt/grad_packet.h: the packed header that
    travels in front of the gradient bytes of a datagram. *)

From S2P Require Import Prelude Bytes.

(** [struct GradMessage], packed; [grad_ptr] is local to a process and is not
    part of the header. *)
Record GradPacket := mkGradPacket {
  pkt_msg_id : Z;        (** uint32 *)
  pkt_offset : Z;        (** uint32 *)
  pkt_seq : Z;           (** uint32 *)
  pkt_len : Z;           (** uint16, header included *)
  pkt_dst_comm_id : Z;   (** uint16 *)
  pkt_src_comm_id : Z;   (** uint16 *)
  pkt_tos : Z;           (** uint8 *)
  pkt_is_last : Z;       (** uint8 *)
  pkt_grad_ptr : Z       (** uint64 *)
}.

Definition sizeof_GradPacket : Z := 28.
Definition sizeof_grad_ptr : Z := 8.
Definition kGradPacketHeader : Z := sizeof_GradPacket - sizeof_grad_ptr.

(** The first [kGradPacketHeader] bytes of the struct in memory. *)
Definition header_bytes (p : GradPacket) : list Z :=
  le_bytes 4 (pkt_msg_id p) ++ le_bytes 4 (pkt_offset p) ++ le_bytes 4 (pkt_seq p) ++
  le_bytes 2 (pkt_len p) ++ le_bytes 2 (pkt_dst_comm_id p) ++
  le_bytes 2 (pkt_src_comm_id p) ++ le_bytes 1 (pkt_tos p) ++ le_bytes 1 (pkt_is_last p).

(** The struct read back through a pointer to received bytes, with [grad_ptr]
    set by the reader. *)
Definition parse_header (bs : list Z) (grad_ptr : Z) : GradPacket :=
  mkGradPacket (le_val (slice 0 4 bs)) (le_val (slice 4 4 bs)) (le_val (slice 8 4 bs))
    (le_val (slice 12 2 bs)) (le_val (slice 14 2 bs)) (le_val (slice 16 2 bs))
    (le_val (slice 18 1 bs)) (le_val (slice 19 1 bs)) grad_ptr.

(** [GetNumGradients<T>] for an element type of [sizeof_T] bytes. The
    subtraction is of type [int]; the remainder and quotient convert it to
    [size_t], and the result is truncated to [int]. *)
Definition GetNumGradients (sizeof_T : Z) (p : GradPacket) : outcome Z :=
  let n := u64 (pkt_len p - kGradPacketHeader) in
  CHECK (n `mod` sizeof_T =? 0);;
  Ok (s32 (n `div` sizeof_T)).

(** The fields fit their widths. *)
Definition pkt_wf (p : GradPacket) : Prop :=
  0 <= pkt_msg_id p < 2 ^ 32 /\ 0 <= pkt_offset p < 2 ^ 32 /\ 0 <= pkt_seq p < 2 ^ 32 /\
  0 <= pkt_len p < 2 ^ 16 /\ 0 <= pkt_dst_comm_id p < 2 ^ 16 /\
  0 <= pkt_src_comm_id p < 2 ^ 16 /\ 0 <= pkt_tos p < 2 ^ 8 /\ 0 <= pkt_is_last p < 2 ^ 8.

Lemma length_header_bytes p : length (header_bytes p) = 20%nat.
Proof. unfold header_bytes. by rewrite !length_app, !length_le_bytes. Qed.

(** Reading a field that was written at the front of a byte list. *)
Lemma slice_0_le_bytes k z rest : slice 0 k (le_bytes k z ++ rest) = le_bytes k z.
Proof.
  unfold slice. rewrite drop_0. apply take_app_length'. by rewrite length_le_bytes.
Qed.

(** Skipping a field at the front. *)
Lemma slice_skip_le_bytes off k len z (rest : list Z) :
  slice (k + off) len (le_bytes k z ++ rest) = slice off len rest.
Proof.
  unfold slice. f_equal. rewrite drop_app_ge by (rewrite length_le_bytes; lia).
  rewrite length_le_bytes. f_equal. lia.
Qed.

(** The same with offsets as literals. *)
Ltac read_field :=
  repeat match goal with
  | |- context [slice ?o ?n (le_bytes ?k ?z ++ ?r)] =>
      first
        [ constr_eq o O; constr_eq n k; rewrite (slice_0_le_bytes k z r)
        | let o' := eval vm_compute in (o - k)%nat in
          change (slice o n (le_bytes k z ++ r)) with (slice (k + o')%nat n (le_bytes k z ++ r));
          rewrite (slice_skip_le_bytes o' k n z r) ]
  end.

Lemma parse_header_bytes p rest :
  pkt_wf p -> parse_header (header_bytes p ++ rest) (pkt_grad_ptr p) = p.
Proof.
  destruct p as [mi off seq len dst src tos il gp].
  intros (? & ? & ? & ? & ? & ? & ? & ?). cbn [pkt_msg_id pkt_offset pkt_seq pkt_len
    pkt_dst_comm_id pkt_src_comm_id pkt_tos pkt_is_last] in *.
  unfold parse_header, header_bytes. cbn [pkt_msg_id pkt_offset pkt_seq pkt_len
    pkt_dst_comm_id pkt_src_comm_id pkt_tos pkt_is_last pkt_grad_ptr].
  rewrite <- !app_assoc. read_field. by rewrite !le_val_le_bytes_id by (simpl; lia).
Qed.

(** The header that the sender puts into the first buffer of [sendmsg] is
    read back by the receiver's cast as the same packet, whatever bytes
    follow. *)
Theorem header_roundtrip p rest (Hwf : pkt_wf p) :
  length (header_bytes p) = Z.to_nat kGradPacketHeader /\
  parse_header (header_bytes p ++ rest) (pkt_grad_ptr p) = p.
Proof. split; [apply length_header_bytes|by apply parse_header_bytes]. Qed.

Lemma header_roundtrip_witness :
  parse_header (header_bytes (mkGradPacket 7 2880 2 1472 3 1 129 0 4096) ++ [1; 2]) 4096 =
  mkGradPacket 7 2880 2 1472 3 1 129 0 4096.
Proof.
  apply (header_roundtrip (mkGradPacket 7 2880 2 1472 3 1 129 0 4096) [1; 2]).
  unfold pkt_wf; simpl. lia.
Defined.
