(* ===== verification/Wire.v ===== *)
(** Control messages on the wire: [Buffer] (src/src/mlt/buffer.h), the signal
    structs of src/src/mlt/ltmessage.h as they lie in a buffer, and the length
    prefix of src/src/mlt/rd_endpoint.h. *)

From S2P Require Import Prelude Bytes Runs BlockMgr GradPacket Floats.

(** ** Buffer *)

(** [buf_mem] is the memory at [ptr_], as far as the buffer may use it. *)
Record Buffer := mkBuffer {
  buf_mem : list Z;
  buf_size : Z;            (** size_t *)
  buf_msg_length : Z;      (** uint32_t *)
  buf_handled : Z;         (** uint32_t *)
  buf_is_owner : bool }.

Definition Buffer_null : Buffer := mkBuffer [] 0 0 0 false.

(** [Buffer(size_t size)]: [mem] is the block that [malloc(size)] returned, with
    whatever it contains. *)
Definition Buffer_alloc (mem : list Z) : Buffer :=
  mkBuffer mem (Z.of_nat (length mem)) 0 0 true.

(** [Buffer(void* ptr, size_t size, uint32_t msg_length)]: a view of [mem]. *)
Definition Buffer_view (mem : list Z) (size msg_length : Z) : Buffer :=
  mkBuffer mem size (u32 msg_length) 0 false.

(** [Buffer(Buffer* buffer)] *)
Definition Buffer_of (b : Buffer) : Buffer :=
  Buffer_view (buf_mem b) (buf_size b) (buf_msg_length b).

Definition Buffer_set_msg_length (b : Buffer) (msg_length : Z) : Buffer :=
  mkBuffer (buf_mem b) (buf_size b) (u32 msg_length) (buf_handled b) (buf_is_owner b).

Definition Buffer_GetRemainSize (b : Buffer) : Z := u32 (buf_msg_length b - buf_handled b).

Definition Buffer_IsClear (b : Buffer) : bool := buf_msg_length b =? buf_handled b.

Definition Buffer_MarkHandled (b : Buffer) (nbytes : Z) : Buffer :=
  mkBuffer (buf_mem b) (buf_size b) (buf_msg_length b) (u32 (buf_handled b + nbytes)) (buf_is_owner b).

Definition set_mem (b : Buffer) (mem : list Z) : Buffer :=
  mkBuffer mem (buf_size b) (buf_msg_length b) (buf_handled b) (buf_is_owner b).

(** [memcpy(ptr_ + off, bs, length bs)] *)
Definition Buffer_store (b : Buffer) (off : Z) (bs : list Z) : outcome Buffer :=
  DEFINED ((0 <=? off) && (off + Z.of_nat (length bs) <=? Z.of_nat (length (buf_mem b))));;
  Ok (set_mem b (splice (Z.to_nat off) bs (buf_mem b))).

(** The [n] bytes at [ptr_ + off]. *)
Definition Buffer_load (b : Buffer) (off : Z) (n : Z) : outcome (list Z) :=
  DEFINED ((0 <=? off) && (0 <=? n) && (off + n <=? Z.of_nat (length (buf_mem b))));;
  Ok (slice (Z.to_nat off) (Z.to_nat n) (buf_mem b)).

Definition Buffer_CopyFrom (b other : Buffer) : outcome Buffer :=
  CHECK (buf_msg_length other <=? buf_size b);;
  bs ← Buffer_load other 0 (buf_msg_length other);
  b ← Buffer_store b 0 bs;
  Ok (mkBuffer (buf_mem b) (buf_size b) (buf_msg_length other) (buf_handled b) (buf_is_owner b)).

(** A 32-bit field. *)
Definition store32 (b : Buffer) (off v : Z) : outcome Buffer := Buffer_store b off (le_bytes 4 v).
Definition load32 (b : Buffer) (off : Z) : outcome Z :=
  bs ← Buffer_load b off 4; Ok (le_val bs).
(** As [int]. *)
Definition load_int (b : Buffer) (off : Z) : outcome Z := v ← load32 b off; Ok (s32 v).

(** ** Signals *)

(** [enum class SignalType : uint32_t] *)
Inductive SignalType :=
| kUserData | kFlowStart | kRateAdjustment | kFlowFinish | kRetransmitRequest
| kStopRequest | kStopConfirm.

Definition signal_code (t : SignalType) : Z :=
  match t with
  | kUserData => 0 | kFlowStart => 1 | kRateAdjustment => 2 | kFlowFinish => 3
  | kRetransmitRequest => 4 | kStopRequest => 5 | kStopConfirm => 6
  end.

Definition signal_of_code (c : Z) : option SignalType :=
  if c =? 0 then Some kUserData else if c =? 1 then Some kFlowStart
  else if c =? 2 then Some kRateAdjustment else if c =? 3 then Some kFlowFinish
  else if c =? 4 then Some kRetransmitRequest else if c =? 5 then Some kStopRequest
  else if c =? 6 then Some kStopConfirm else None.

(** Sizes of the structs, as the [static_assert]s of the source have them. *)
Definition sizeof_UserDataHeader : Z := 4.
Definition sizeof_FlowStart : Z := 16.
Definition sizeof_RateAdjustment : Z := 8.
Definition sizeof_FlowFinish : Z := 8.
Definition sizeof_RetransmitRequest : Z := 16.
Definition sizeof_StopRequest : Z := 16.
Definition sizeof_StopConfirm : Z := 8.

Definition GetOutBufferSize (sizeof_T : Z) : Z := sizeof_T + 4.
Definition GetInBufferSize (sizeof_T : Z) : Z := sizeof_T.

(** [GetOutHeader] and [GetInHeader]: where the struct starts in the buffer. *)
Definition out_header : Z := 4.
Definition in_header : Z := 0.

Definition GetTypeFromBuffer (b : Buffer) : outcome Z := load32 b 0.

(** Field offsets, the same for all signals that have the field. *)
Definition fld_type : Z := 0.
Definition fld_msg_id : Z := 4.
Definition fld_flow_size : Z := 8.
Definition fld_max_seq_num : Z := 12.
Definition fld_rate : Z := 4.
Definition fld_comm_id : Z := 8.
Definition fld_num_blocks : Z := 12.
Definition fld_blocks : Z := 16.
Definition fld_payload : Z := 4.

(** [RdEndpoint::WriteLength] *)
Definition WriteLength (b : Buffer) : outcome Buffer :=
  let value := s64 (buf_size b - 4) in
  CHECK (0 <=? value);;
  store32 b 0 (u32 value).

(** *** Building signals: the code that fills an outgoing buffer *)

Section build.
(** [malloc n] is a block of [n] bytes. *)
Context (malloc : Z -> list Z).

(** [buffer->set_msg_length(buffer->size())] *)
Definition seal (b : Buffer) : Buffer := Buffer_set_msg_length b (buf_size b).

Definition new_signal (sizeof_T : Z) (t : SignalType) : outcome Buffer :=
  store32 (Buffer_alloc (malloc (GetOutBufferSize sizeof_T))) (out_header + fld_type) (signal_code t).

(** [MLTCommunicator::PostSend], step 1 *)
Definition make_FlowStart (msg_id flow_size max_seq_num : Z) : outcome Buffer :=
  b ← new_signal sizeof_FlowStart kFlowStart;
  b ← store32 b (out_header + fld_msg_id) (u32 msg_id);
  b ← store32 b (out_header + fld_flow_size) (u32 flow_size);
  b ← store32 b (out_header + fld_max_seq_num) max_seq_num;
  Ok (seal b).

(** [Packetizer::RoutePacket] *)
Definition make_FlowFinish (msg_id : Z) : outcome Buffer :=
  b ← new_signal sizeof_FlowFinish kFlowFinish;
  b ← store32 b (out_header + fld_msg_id) (u32 msg_id);
  Ok (seal b).

(** [ReceivingChannel::RequestRateAdjustment] *)
Definition make_RateAdjustment (rx_speed : double) : outcome Buffer :=
  b ← new_signal sizeof_RateAdjustment kRateAdjustment;
  b ← store32 b (out_header + fld_rate) (f32_bits (f32_of_f64 rx_speed));
  Ok (seal b).

(** [ReceivingChannel::HandleReceive]; [sending_rate] keeps what [malloc] left. *)
Definition make_StopRequest (msg_id comm_id : Z) : outcome Buffer :=
  b ← new_signal sizeof_StopRequest kStopRequest;
  b ← store32 b (out_header + fld_msg_id) (u32 msg_id);
  b ← store32 b (out_header + fld_comm_id) (u32 comm_id);
  Ok (seal b).

(** [PriorityChannel::StopFlow], step 3 *)
Definition make_StopConfirm (msg_id : Z) : outcome Buffer :=
  b ← new_signal sizeof_StopConfirm kStopConfirm;
  b ← store32 b (out_header + fld_msg_id) (u32 msg_id);
  Ok (seal b).

(** [MLTCommunicator::SendMetaAsync] *)
Definition make_UserData (buffer : Buffer) : outcome Buffer :=
  let size := u64 (buf_msg_length buffer + GetOutBufferSize sizeof_UserDataHeader) in
  let b := seal (Buffer_alloc (malloc size)) in
  b ← store32 b (out_header + fld_type) (signal_code kUserData);
  payload ← Buffer_load buffer 0 (buf_msg_length buffer);
  Buffer_store b (out_header + fld_payload) payload.
End build.

(** ** What the buffers hold *)

(** The contents of a control message. *)
Inductive Signal :=
| SigUserData (payload : list Z)
| SigFlowStart (msg_id flow_size max_seq_num : Z)
| SigRateAdjustment (rate : float)
| SigFlowFinish (msg_id : Z)
| SigRetransmitRequest (msg_id comm_id : Z) (blocks : list Block)
| SigStopRequest (msg_id comm_id : Z) (rate_bytes : list Z)
| SigStopConfirm (msg_id : Z).

Definition signal_type (s : Signal) : SignalType :=
  match s with
  | SigUserData _ => kUserData
  | SigFlowStart _ _ _ => kFlowStart
  | SigRateAdjustment _ => kRateAdjustment
  | SigFlowFinish _ => kFlowFinish
  | SigRetransmitRequest _ _ _ => kRetransmitRequest
  | SigStopRequest _ _ _ => kStopRequest
  | SigStopConfirm _ => kStopConfirm
  end.

(** The bytes of the struct, without the length prefix. *)
Definition signal_bytes (s : Signal) : list Z :=
  le_bytes 4 (signal_code (signal_type s)) ++
  match s with
  | SigUserData payload => payload
  | SigFlowStart m f x => le_bytes 4 (u32 m) ++ le_bytes 4 (u32 f) ++ le_bytes 4 x
  | SigRateAdjustment r => le_bytes 4 (f32_bits r)
  | SigFlowFinish m => le_bytes 4 (u32 m)
  | SigRetransmitRequest m c bs =>
      le_bytes 4 (u32 m) ++ le_bytes 4 (u32 c) ++ le_bytes 4 (Z.of_nat (length bs)) ++ Blocks_bytes bs
  | SigStopRequest m c rate => le_bytes 4 (u32 m) ++ le_bytes 4 (u32 c) ++ rate
  | SigStopConfirm m => le_bytes 4 (u32 m)
  end.

(** A filled buffer that has not been sent yet: four bytes for the length, then
    the signal. *)
Definition holds_signal (b : Buffer) (s : Signal) : Prop :=
  exists pre, length pre = 4%nat /\ buf_mem b = pre ++ signal_bytes s /\
    buf_size b = Z.of_nat (4 + length (signal_bytes s)) /\
    buf_msg_length b = buf_size b /\ buf_handled b = 0.

(** Storing over the part [old] of the memory. *)
Lemma Buffer_store_app b off pre old post bs :
  buf_mem b = pre ++ old ++ post -> off = Z.of_nat (length pre) -> length old = length bs ->
  Buffer_store b off bs = Ok (set_mem b (pre ++ bs ++ post)).
Proof.
  intros Hm -> Hl. unfold Buffer_store. rewrite Hm, !length_app. pass.
  rewrite Nat2Z.id. unfold splice. rewrite take_app_length.
  rewrite (app_assoc pre old post), drop_app_length' by (rewrite length_app; lia). done.
Qed.

Lemma Buffer_load_app b off pre mid post :
  buf_mem b = pre ++ mid ++ post -> off = Z.of_nat (length pre) ->
  Buffer_load b off (Z.of_nat (length mid)) = Ok mid.
Proof.
  intros Hm ->. unfold Buffer_load. rewrite Hm, !length_app. pass.
  rewrite !Nat2Z.id. unfold slice. by rewrite drop_app_length, take_app_length.
Qed.

Section build_spec.
Context (malloc : Z -> list Z).
Context (Hmalloc : forall n, 0 <= n -> Z.of_nat (length (malloc n)) = n).

(** A block of [n] bytes, byte by byte. *)
Ltac open_block :=
  match goal with
  | |- context [malloc ?e] =>
      let n := eval vm_compute in e in
      let Hl := fresh "Hl" in let l := fresh "l" in
      change (malloc e) with (malloc n);
      pose proof (Hmalloc n ltac:(done)) as Hl; revert Hl;
      generalize (malloc n); intros l Hl;
      repeat (destruct l as [|? l]; [solve [simpl in Hl; lia]|]);
      destruct l; [clear Hl|simpl in Hl; lia]
  end.

Ltac fixed_signal :=
  open_block; eexists; split; [reflexivity|];
  match goal with
  | |- context [?a :: ?b :: ?c :: ?d :: _] => exists [a; b; c; d]
  end; repeat split.

Lemma make_FlowStart_holds m f x : exists b,
  make_FlowStart malloc m f x = Ok b /\ holds_signal b (SigFlowStart m f x).
Proof. unfold make_FlowStart, new_signal. fixed_signal. Qed.

Lemma make_FlowFinish_holds m : exists b,
  make_FlowFinish malloc m = Ok b /\ holds_signal b (SigFlowFinish m).
Proof. unfold make_FlowFinish, new_signal. fixed_signal. Qed.

Lemma make_RateAdjustment_holds x : exists b,
  make_RateAdjustment malloc x = Ok b /\ holds_signal b (SigRateAdjustment (f32_of_f64 x)).
Proof. unfold make_RateAdjustment, new_signal. fixed_signal. Qed.

Lemma make_StopConfirm_holds m : exists b,
  make_StopConfirm malloc m = Ok b /\ holds_signal b (SigStopConfirm m).
Proof. unfold make_StopConfirm, new_signal. fixed_signal. Qed.

(** The bytes of [sending_rate] are those [malloc] left there. *)
Lemma make_StopRequest_holds m c : exists b,
  make_StopRequest malloc m c = Ok b /\
  holds_signal b (SigStopRequest m c (slice 16 4 (malloc 20))).
Proof. unfold make_StopRequest, new_signal. fixed_signal. Qed.
End build_spec.

Lemma make_UserData_holds malloc buffer payload :
  (forall n, 0 <= n -> Z.of_nat (length (malloc n)) = n) ->
  Buffer_load buffer 0 (buf_msg_length buffer) = Ok payload ->
  Z.of_nat (length payload) = buf_msg_length buffer -> buf_msg_length buffer + 8 < 2 ^ 32 ->
  exists b, make_UserData malloc buffer = Ok b /\ holds_signal b (SigUserData payload).
Proof.
  intros Hmalloc Hload Hlen Hlt. unfold make_UserData. change (GetOutBufferSize _) with 8.
  rewrite Hload, <- Hlen in *. rewrite u64_small by lia.
  pose proof (Hmalloc (Z.of_nat (length payload) + 8) ltac:(lia)) as Hl. revert Hl.
  generalize (malloc (Z.of_nat (length payload) + 8)). intros l Hl.
  assert (Hsplit : l = take 4 l ++ take 4 (drop 4 l) ++ drop 8 l).
  { rewrite <- (take_drop 4 l) at 1. f_equal. rewrite <- (take_drop 4 (drop 4 l)) at 1.
    by rewrite drop_drop. }
  unfold store32. erewrite (Buffer_store_app _ _ (take 4 l) (take 4 (drop 4 l)) (drop 8 l));
    [|exact Hsplit|rewrite length_take; unfold out_header, fld_type; lia
     |rewrite length_le_bytes, length_take, length_drop; lia].
  cbn [mbind outcome_bind].
  erewrite (Buffer_store_app _ _ (take 4 l ++ le_bytes 4 (signal_code kUserData)) (drop 8 l) []);
    [|unfold set_mem; cbn [buf_mem]; by rewrite <- app_assoc, app_nil_r|rewrite length_app, length_take, length_le_bytes;
      unfold out_header, fld_payload; lia|rewrite length_drop; lia].
  eexists. split; [reflexivity|]. exists (take 4 l).
  unfold signal_bytes, seal, Buffer_alloc, set_mem. cbn [signal_type].
  cbn [buf_mem buf_size buf_msg_length buf_handled Buffer_set_msg_length].
  rewrite length_take, length_app, length_le_bytes. split; [lia|]. split; [by rewrite <- app_assoc, app_nil_r|].
  split; [lia|]. split; [rewrite u32_small; lia|done].
Qed.

(** ** The length prefix *)

(** The signal with its length in front, as it travels over TCP. *)
Definition frame (s : Signal) : list Z :=
  le_bytes 4 (Z.of_nat (length (signal_bytes s))) ++ signal_bytes s.

Definition frame_of_bytes (bs : list Z) : list Z := le_bytes 4 (Z.of_nat (length bs)) ++ bs.

(** The bytes [bs] behind the room for their length, as the callers build a
    buffer before it is queued. *)
Definition holds_bytes (b : Buffer) (bs : list Z) : Prop :=
  exists pre, length pre = 4%nat /\ buf_mem b = pre ++ bs /\
    buf_size b = 4 + Z.of_nat (length bs) /\ buf_msg_length b = buf_size b /\ buf_handled b = 0.

Lemma WriteLength_bytes b bs : holds_bytes b bs -> Z.of_nat (length bs) < 2 ^ 32 - 4 ->
  WriteLength b = Ok (mkBuffer (frame_of_bytes bs) (Z.of_nat (length (frame_of_bytes bs)))
    (Z.of_nat (length (frame_of_bytes bs))) 0 (buf_is_owner b)).
Proof.
  intros (pre & Hpre & Hmem & Hsz & Hml & Hh) Hlt. unfold WriteLength. rewrite Hsz.
  rewrite s64_small by lia. pass. unfold store32.
  rewrite (Buffer_store_app b 0 [] pre bs); [|done|done|by rewrite length_le_bytes, Hpre].
  rewrite u32_small by lia. unfold set_mem, frame_of_bytes. rewrite length_app, length_le_bytes.
  rewrite Hml, Hsz, Hh, app_nil_l. replace (4 + Z.of_nat (length bs) - 4) with (Z.of_nat (length bs)) by lia.
  do 2 f_equal; lia.
Qed.

Lemma WriteLength_frame b s : holds_signal b s -> Z.of_nat (length (signal_bytes s)) < 2 ^ 32 - 4 ->
  WriteLength b =
    Ok (mkBuffer (frame s) (Z.of_nat (length (frame s))) (Z.of_nat (length (frame s))) 0 (buf_is_owner b)).
Proof.
  intros (pre & Hpre & Hmem & Hsz & Hml & Hh). apply (WriteLength_bytes b (signal_bytes s)).
  exists pre. split_and!; try done; lia.
Qed.

(** ** Reading an incoming signal *)

(** The buffer of a received message holds the signal from its start. *)
Definition received_signal (b : Buffer) (s : Signal) : Prop := buf_mem b = signal_bytes s.

Lemma load32_app b off pre v post :
  buf_mem b = pre ++ le_bytes 4 v ++ post -> off = Z.of_nat (length pre) -> 0 <= v < 2 ^ 32 ->
  load32 b off = Ok v.
Proof.
  intros Hm Ho Hv. unfold load32. replace 4 with (Z.of_nat (length (le_bytes 4 v)))
    by (by rewrite length_le_bytes).
  rewrite (Buffer_load_app b off pre (le_bytes 4 v) post) by done.
  cbn [mbind outcome_bind]. rewrite le_val_le_bytes_id; [done|]. simpl. lia.
Qed.

Lemma s32_u32 z : s32 (u32 z) = s32 z.
Proof. unfold s32, u32, swrap, wrap. by rewrite Zplus_mod_idemp_l. Qed.

Lemma signal_code_range t : 0 <= signal_code t < 2 ^ 32.
Proof. destruct t; simpl; lia. Qed.

Lemma signal_of_signal_code t : signal_of_code (signal_code t) = Some t.
Proof. by destruct t. Qed.

Lemma received_type b s : received_signal b s ->
  GetTypeFromBuffer b = Ok (signal_code (signal_type s)).
Proof.
  intros Hb. unfold GetTypeFromBuffer. eapply (load32_app b 0 []); [|done|apply signal_code_range].
  rewrite Hb. reflexivity.
Qed.

(** The word after the type: the message id of all signals that have one. *)
Lemma received_msg_id b s m rest : received_signal b s ->
  signal_bytes s = le_bytes 4 (signal_code (signal_type s)) ++ le_bytes 4 (u32 m) ++ rest ->
  load_int b fld_msg_id = Ok (s32 m).
Proof.
  intros Hb Hs. unfold load_int.
  rewrite (load32_app b fld_msg_id (le_bytes 4 (signal_code (signal_type s))) (u32 m) rest);
    [cbn; by rewrite s32_u32|by rewrite Hb, Hs|by rewrite length_le_bytes|apply u32_range].
Qed.

Lemma received_second b s m v rest : received_signal b s ->
  signal_bytes s = le_bytes 4 (signal_code (signal_type s)) ++ le_bytes 4 (u32 m) ++ le_bytes 4 v ++ rest ->
  0 <= v < 2 ^ 32 -> load32 b 8 = Ok v.
Proof.
  intros Hb Hs Hv.
  apply (load32_app b 8 (le_bytes 4 (signal_code (signal_type s)) ++ le_bytes 4 (u32 m)) v rest);
    [by rewrite Hb, Hs, <- app_assoc|by rewrite length_app, !length_le_bytes|done].
Qed.

Lemma received_third b s m c v rest : received_signal b s ->
  signal_bytes s = le_bytes 4 (signal_code (signal_type s)) ++ le_bytes 4 (u32 m) ++
                   le_bytes 4 c ++ le_bytes 4 v ++ rest ->
  0 <= v < 2 ^ 32 -> load32 b 12 = Ok v.
Proof.
  intros Hb Hs Hv.
  apply (load32_app b 12 (le_bytes 4 (signal_code (signal_type s)) ++ le_bytes 4 (u32 m) ++ le_bytes 4 c)
           v rest); [by rewrite Hb, Hs, <- !app_assoc|by rewrite !length_app, !length_le_bytes|done].
Qed.
