(* ===== verification/Framing.v ===== *)
(** The byte-stream side of [RdEndpoint] (src/src/mlt/rd_endpoint.cc):
    [OnSendReady] writes the queued buffers to a non-blocking TCP socket,
    [OnRecvReady] cuts the incoming stream back into messages. The socket is the
    environment: how many bytes a call moves is an input of the model. *)

From S2P Require Import Prelude Bytes Wire.

(** ** Sending *)

(** Result of one [Send]: the kernel has room for [n] bytes, would block, or
    fails. *)
Inductive send_event := SendRoom (n : Z) | SendBlock | SendError.

(** The loop of [OnSendReady]. Returns the queue, the bytes handed to the
    socket, and the events that are left. When the list of events is exhausted
    the socket would block. *)
Fixpoint OnSendReady_loop (fuel : nat) (tx_queue : list Buffer) (evs : list send_event) :
    outcome (list Buffer * list Z * list send_event) :=
  match fuel with
  | O => OutOfFuel
  | S fuel' =>
      match tx_queue with
      | [] => Ok ([], [], evs)
      | buffer :: q =>
          if Buffer_IsClear buffer then OnSendReady_loop fuel' q evs
          else
            match evs with
            | [] => Ok (tx_queue, [], [])
            | SendBlock :: evs' => Ok (tx_queue, [], evs')
            | SendError :: _ => Fatal
            | SendRoom n :: evs' =>
                let nbytes := Z.min n (Buffer_GetRemainSize buffer) in
                bs ← Buffer_load buffer (buf_handled buffer) nbytes;
                let buffer := Buffer_MarkHandled buffer nbytes in
                r ← OnSendReady_loop fuel' (if Buffer_IsClear buffer then q else buffer :: q) evs';
                let '(q', out, evs'') := r in Ok (q', bs ++ out, evs'')
            end
      end
  end.

Definition OnSendReady (tx_queue : list Buffer) (evs : list send_event) :
    outcome (list Buffer * list Z * list send_event) :=
  OnSendReady_loop (S (length tx_queue + length evs)) tx_queue evs.

(** ** Receiving *)

(** Result of one [Recv]: at most [n] bytes of what has arrived, the peer has
    shut down, or an error other than [EWOULDBLOCK]. *)
Inductive recv_event := RecvChunk (n : Z) | RecvEof | RecvError.

(** What the call returns: data, or -1 with [EWOULDBLOCK]. *)
Inductive recv_ret := Data (bs : list Z) | WouldBlock | RecvFailed.

(** [recv] on a socket whose receive queue holds [stream]. *)
Definition tcp_recv (stream : list Z) (len : Z) (ev : recv_event) : recv_ret * list Z :=
  match ev with
  | RecvError => (RecvFailed, stream)
  | RecvEof => (Data [], stream)
  | RecvChunk n =>
      let k := Z.to_nat (Z.min (Z.min n len) (Z.of_nat (length stream))) in
      if len =? 0 then (Data [], stream)
      else if (k =? 0)%nat then (WouldBlock, stream)
      else (Data (take k stream), drop k stream)
  end.

(** Receive side of an endpoint: [rx_buffers_] (its back is the head of the
    list) and [is_dead_]. *)
Record RdRx := mkRdRx { rx_buffers : list Buffer; rx_dead : bool }.

Definition Disconnect (rx : RdRx) : RdRx := mkRdRx (rx_buffers rx) true.

(** The inner loop: the last buffer that is not clear, if any. *)
Fixpoint take_partial (bufs : list Buffer) : list Buffer * option Buffer :=
  match bufs with
  | [] => ([], None)
  | b :: bufs' => if Buffer_IsClear b then take_partial bufs' else (bufs', Some b)
  end.

Section recv.
Context (malloc : Z -> list Z).

(** Reading the length of the next message: [inr] is the new buffer, [inl] an
    early return. *)
Definition recv_length (rx : RdRx) (stream : list Z) (ev : recv_event) :
    outcome ((RdRx + Buffer) * list Z) :=
  match tcp_recv stream 4 ev with
  | (RecvFailed, _) => Fatal
  | (WouldBlock, stream) => Ok (inl rx, stream)
  | (Data [], stream) => Ok (inl (Disconnect rx), stream)
  | (Data bs, stream) =>
      CHECK (Z.of_nat (length bs) =? 4);;
      let length := le_val bs in
      Ok (inr (Buffer_set_msg_length (Buffer_alloc (malloc length)) length), stream)
  end.

(** Reading message bytes into [buffer]: returns the complete message, if it is
    complete now. *)
Definition recv_data (rx : RdRx) (buffer : Buffer) (stream : list Z) (ev : recv_event) :
    outcome (RdRx * list Z * option Buffer) :=
  match tcp_recv stream (Buffer_GetRemainSize buffer) ev with
  | (RecvFailed, _) => Fatal
  | (WouldBlock, stream) => Ok (mkRdRx (buffer :: rx_buffers rx) (rx_dead rx), stream, None)
  | (Data [], stream) => Ok (Disconnect rx, stream, None)
  | (Data bs, stream) =>
      b ← Buffer_store buffer (buf_handled buffer) bs;
      let b := Buffer_MarkHandled b (Z.of_nat (length bs)) in
      if Buffer_IsClear b then Ok (rx, stream, Some b)
      else Ok (mkRdRx (b :: rx_buffers rx) (rx_dead rx), stream, None)
  end.

(** [OnRecvReady]: every path of its loop returns or breaks, so that the body
    runs once. The message it returns goes to [HandleReceivedData]. *)
Definition OnRecvReady (rx : RdRx) (stream : list Z) (ev_len ev_data : recv_event) :
    outcome (RdRx * list Z * option Buffer) :=
  let '(rest, found) := take_partial (rx_buffers rx) in
  let rx := mkRdRx rest (rx_dead rx) in
  match found with
  | Some buffer => recv_data rx buffer stream ev_data
  | None =>
      r ← recv_length rx stream ev_len;
      match r with
      | (inl rx, stream) => Ok (rx, stream, None)
      | (inr buffer, stream) => recv_data rx buffer stream ev_data
      end
  end.

(** ** Runs of the receiver *)

(** Bytes arrive in the socket's receive queue, or the endpoint is polled. *)
Inductive rd_step := Arrive (bs : list Z) | Ready (ev_len ev_data : recv_event).

Record rd_state := mkRd { rd_rx : RdRx; rd_stream : list Z; rd_handled : list Buffer }.

Definition rd_do (st : rd_state) (step : rd_step) : outcome rd_state :=
  match step with
  | Arrive bs => Ok (mkRd (rd_rx st) (rd_stream st ++ bs) (rd_handled st))
  | Ready ev_len ev_data =>
      r ← OnRecvReady (rd_rx st) (rd_stream st) ev_len ev_data;
      let '(rx, stream, m) := r in
      Ok (mkRd rx stream (rd_handled st ++ option_list m))
  end.

Definition rd_run : rd_state -> list rd_step -> outcome rd_state := foldM rd_do.
End recv.

(** ** The sender writes the queue's bytes in order *)

(** A buffer that is being sent. *)
Definition sendable (b : Buffer) : Prop :=
  Z.of_nat (length (buf_mem b)) = buf_msg_length b /\ 0 <= buf_handled b <= buf_msg_length b /\
  buf_msg_length b < 2 ^ 32.

(** The bytes that are left to send. *)
Definition pending (q : list Buffer) : list Z :=
  concat (map (fun b => drop (Z.to_nat (buf_handled b)) (buf_mem b)) q).

Definition good_send (ev : send_event) : Prop :=
  match ev with SendRoom n => 0 < n | SendBlock => True | SendError => False end.

Lemma clear_pending b q : sendable b -> Buffer_IsClear b = true -> pending (b :: q) = pending q.
Proof.
  intros (Hl & Hh & _) Hc. unfold Buffer_IsClear in Hc. b2p. unfold pending. cbn.
  by rewrite drop_ge by lia.
Qed.

Lemma OnSendReady_loop_spec fuel q evs :
  Forall sendable q -> Forall good_send evs -> (length q + length evs < fuel)%nat ->
  exists q' out evs', OnSendReady_loop fuel q evs = Ok (q', out, evs') /\
    Forall sendable q' /\ pending q = out ++ pending q' /\
    (q' = [] \/ evs' = [] \/ exists n, evs = take n evs ++ SendBlock :: evs').
Proof.
  revert q evs. induction fuel as [|fuel IH]; intros q evs Hq Hev Hf; [lia|].
  cbn [OnSendReady_loop]. destruct q as [|b q]; [by eexists [], [], evs; eauto|].
  inversion Hq as [|? ? Hb Hq']; subst. destruct (Buffer_IsClear b) eqn:Hclear.
  { destruct (IH q evs Hq' Hev) as (q' & out & evs' & -> & Hs & Hp & Hend); [simpl in Hf; lia|].
    exists q', out, evs'. rewrite clear_pending by done. eauto. }
  destruct evs as [|[n| |] evs].
  - exists (b :: q), [], []. split; [done|]. split; [done|]. split; [done|]. by right; left.
  - inversion Hev as [|? ? Hn Hev']; subst. simpl in Hn.
    pose proof Hb as (Hl & Hh & Hlt). unfold Buffer_IsClear in Hclear. b2p.
    assert (Hrem : Buffer_GetRemainSize b = buf_msg_length b - buf_handled b)
      by (unfold Buffer_GetRemainSize; apply u32_small; lia).
    rewrite Hrem. set (k := Z.min n (buf_msg_length b - buf_handled b)).
    unfold Buffer_load at 1. rewrite (DEFINED_true _) by (b2p; lia). cbn [mbind outcome_bind].
    set (b' := Buffer_MarkHandled b k).
    assert (Hh' : buf_handled b' = buf_handled b + k) by (unfold b'; cbn; apply u32_small; lia).
    assert (Hb' : sendable b') by (unfold sendable; rewrite Hh'; cbn; lia).
    assert (Hpend : pending (b :: q) =
              slice (Z.to_nat (buf_handled b)) (Z.to_nat k) (buf_mem b) ++
              pending (if Buffer_IsClear b' then q else b' :: q)).
    { transitivity (slice (Z.to_nat (buf_handled b)) (Z.to_nat k) (buf_mem b) ++ pending (b' :: q)).
      - unfold pending. cbn [map concat]. rewrite app_assoc. f_equal. rewrite Hh'.
        unfold b', slice. cbn [buf_mem Buffer_MarkHandled].
        replace (Z.to_nat (buf_handled b + k)) with (Z.to_nat (buf_handled b) + Z.to_nat k)%nat by lia.
        by rewrite <- drop_drop, take_drop.
      - f_equal. destruct (Buffer_IsClear b') eqn:Hc'; [by apply clear_pending|done]. }
    destruct (IH (if Buffer_IsClear b' then q else b' :: q) evs)
      as (q' & out & evs' & -> & Hs & Hp & Hend);
      [destruct (Buffer_IsClear b'); [done|by constructor]|done
      |destruct (Buffer_IsClear b'); simpl in *; lia|].
    cbn [mbind outcome_bind]. eexists q', _, evs'. split; [done|]. split; [done|].
    split; [by rewrite Hpend, Hp, app_assoc|].
    destruct Hend as [|[|[m Hm]]]; [by left|by right; left|right; right].
    exists (S m). cbn. by rewrite <- Hm.
  - exists (b :: q), [], evs. split; [done|]. split; [done|]. split; [done|].
    right. right. by exists 0%nat.
  - inversion Hev as [|? ? Hbad]. done.
Qed.

(** ** The receiver recovers the messages *)

Section receiver.
Context (malloc : Z -> list Z).
Context (Hmalloc : forall n, 0 <= n -> Z.of_nat (length (malloc n)) = n).

Definition frames (msgs : list (list Z)) : list Z := concat (map frame_of_bytes msgs).

Definition good_msg (m : list Z) : Prop := 0 < Z.of_nat (length m) < 2 ^ 32.

(** [b] is the partly received message [m]. *)
Definition partial (b : Buffer) (m : list Z) : Prop :=
  buf_msg_length b = Z.of_nat (length m) /\ length (buf_mem b) = length m /\
  0 <= buf_handled b < buf_msg_length b /\
  take (Z.to_nat (buf_handled b)) (buf_mem b) = take (Z.to_nat (buf_handled b)) m.

(** [rx] has received part of the stream of [todo]: [rest] is still to be
    read. *)
Definition rx_inv (rx : RdRx) (todo : list (list Z)) (rest : list Z) : Prop :=
  (rx_buffers rx = [] /\ rest = frames todo) \/
  (exists b m todo', rx_buffers rx = [b] /\ todo = m :: todo' /\ partial b m /\
     rest = drop (Z.to_nat (buf_handled b)) m ++ frames todo').

Definition chunk_event (ev : recv_event) : Prop :=
  match ev with RecvChunk _ => True | _ => False end.

Lemma partial_not_clear b m : partial b m -> Buffer_IsClear b = false.
Proof. intros (_ & _ & H & _). unfold Buffer_IsClear. b2p. lia. Qed.

Lemma recv_data_inv rx b m todo' stream fut ev :
  good_msg m -> partial b m -> rx_buffers rx = [] -> chunk_event ev ->
  stream ++ fut = drop (Z.to_nat (buf_handled b)) m ++ frames todo' ->
  exists rx' stream' r, recv_data rx b stream ev = Ok (rx', stream', r) /\
    match r with
    | None => rx_inv rx' (m :: todo') (stream' ++ fut)
    | Some b' => buf_mem b' = m /\ rx_inv rx' todo' (stream' ++ fut)
    end.
Proof.
  intros Hm (Hlen & Hmem & Hh & Hpre) Hrx Hev Hs. destruct ev as [n| |]; [|done..].
  unfold good_msg in Hm. unfold recv_data, tcp_recv.
  assert (Hrem : Buffer_GetRemainSize b = buf_msg_length b - buf_handled b)
    by (unfold Buffer_GetRemainSize; apply u32_small; lia).
  rewrite Hrem, (proj2 (Z.eqb_neq _ 0)) by lia.
  set (k := Z.to_nat (Z.min (Z.min n (buf_msg_length b - buf_handled b)) (Z.of_nat (length stream)))).
  destruct (Nat.eqb_spec k 0) as [Hk|Hk].
  { eexists _, _, None. split; [done|]. right. exists b, m, todo'. cbn. by rewrite Hrx. }
  assert (Htk : take k stream = take k (drop (Z.to_nat (buf_handled b)) m)).
  { transitivity (take k (stream ++ fut)); [by rewrite take_app_le by lia|].
    rewrite Hs. by rewrite take_app_le by (rewrite length_drop; lia). }
  assert (Hdk : drop k stream ++ fut = drop (Z.to_nat (buf_handled b) + k) m ++ frames todo').
  { transitivity (drop k (stream ++ fut)); [by rewrite drop_app_le by lia|].
    rewrite Hs, drop_app_le by (rewrite length_drop; lia). by rewrite drop_drop. }
  assert (Hlk : length (take k stream) = k) by (rewrite length_take; lia).
  replace (match take k stream with [] => _ | _ :: _ => _ end) with
    (b1 ← Buffer_store b (buf_handled b) (take k stream);
     let b1 := Buffer_MarkHandled b1 (Z.of_nat (length (take k stream))) in
     if Buffer_IsClear b1 then Ok (rx, drop k stream, Some b1)
     else Ok (mkRdRx (b1 :: rx_buffers rx) (rx_dead rx), drop k stream, None))
    by (destruct (take k stream); [simpl in Hlk; lia|done]).
  unfold Buffer_store. rewrite Hlk. pass.
  set (b' := Buffer_MarkHandled _ _).
  assert (Hh' : buf_handled b' = buf_handled b + Z.of_nat k).
  { unfold b'. cbn. apply u32_small. lia. }
  assert (Hmem' : take (Z.to_nat (buf_handled b) + k) (buf_mem b') =
                  take (Z.to_nat (buf_handled b) + k) m).
  { unfold b'. cbn [buf_mem Buffer_MarkHandled set_mem]. unfold splice. rewrite app_assoc.
    rewrite take_app_length' by (rewrite length_app, length_take, Hlk; lia).
    rewrite Hpre, Htk. by rewrite take_take_drop. }
  assert (Hl' : length (buf_mem b') = length m).
  { unfold b'. cbn [buf_mem Buffer_MarkHandled set_mem]. rewrite length_splice; lia. }
  destruct (Buffer_IsClear b') eqn:Hclear; unfold Buffer_IsClear in Hclear; b2p;
    cbn [buf_msg_length Buffer_MarkHandled set_mem b'] in Hclear; rewrite Hh' in Hclear.
  - eexists _, _, (Some b'). split; [done|]. split.
    + rewrite !take_ge in Hmem' by lia. done.
    + left. split; [done|]. rewrite Hdk, drop_ge by lia. done.
  - eexists _, _, None. split; [done|]. right. exists b', m, todo'. cbn [rx_buffers].
    rewrite Hrx. split; [done|]. split; [done|]. rewrite Hdk, Hh'.
    replace (Z.to_nat (buf_handled b + Z.of_nat k)) with (Z.to_nat (buf_handled b) + k)%nat by lia.
    split; [|done]. unfold partial. rewrite Hh'.
    replace (Z.to_nat (buf_handled b + Z.of_nat k)) with (Z.to_nat (buf_handled b) + k)%nat by lia.
    cbn [buf_msg_length Buffer_MarkHandled set_mem b']. repeat split; try done; lia.
Qed.

(** The read of a length is short: between one and three bytes. *)
Definition short_read (stream : list Z) (ev : recv_event) : Prop :=
  match ev with
  | RecvChunk n => 0 < Z.min n (Z.of_nat (length stream)) < 4
  | _ => False
  end.

Lemma recv_length_inv rx m todo' stream fut ev :
  rx_buffers rx = [] -> good_msg m -> chunk_event ev ->
  stream ++ fut = frames (m :: todo') -> ~ short_read stream ev ->
  (recv_length malloc rx stream ev = Ok (inl rx, stream)) \/
  (exists b stream', recv_length malloc rx stream ev = Ok (inr b, stream') /\
     partial b m /\ buf_handled b = 0 /\ stream' ++ fut = m ++ frames todo').
Proof.
  intros Hrx Hm Hev Hs Hns. destruct ev as [n| |]; [|done..]. simpl in Hns.
  unfold good_msg in Hm. unfold recv_length, tcp_recv. cbn [Z.eqb].
  set (k := Z.to_nat (Z.min (Z.min n 4) (Z.of_nat (length stream)))).
  destruct (Nat.eqb_spec k 0) as [Hk|Hk]; [by left|]. right.
  assert (k = 4%nat) as Hk4 by lia. rewrite Hk4.
  assert (Htk : take 4 stream = le_bytes 4 (Z.of_nat (length m))).
  { transitivity (take 4 (stream ++ fut)); [by rewrite take_app_le by lia|]. rewrite Hs.
    unfold frames. cbn [map concat]. unfold frame_of_bytes at 1. rewrite <- !app_assoc.
    by rewrite take_app_le, take_ge by (rewrite length_le_bytes; lia). }
  assert (Hdk : drop 4 stream ++ fut = m ++ frames todo').
  { transitivity (drop 4 (stream ++ fut)); [by rewrite drop_app_le by lia|]. rewrite Hs.
    unfold frames. cbn [map concat]. unfold frame_of_bytes at 1. rewrite <- !app_assoc.
    by rewrite drop_app_length' by (by rewrite length_le_bytes). }
  rewrite Htk. cbn [le_bytes]. 
  change (_ :: _) with (le_bytes 4 (Z.of_nat (length m))).
  rewrite length_le_bytes, le_val_le_bytes_id by (simpl; lia). pass.
  eexists _, _. split; [done|]. split; [|split; [done|done]].
  pose proof (Hmalloc (Z.of_nat (length m)) ltac:(lia)) as Hl.
  unfold partial. cbn. rewrite u32_small by lia. repeat split; lia.
Qed.

Lemma OnRecvReady_inv rx todo stream fut ev_len ev_data :
  rx_inv rx todo (stream ++ fut) -> Forall good_msg todo ->
  chunk_event ev_len -> chunk_event ev_data ->
  (rx_buffers rx = [] -> ~ short_read stream ev_len) ->
  exists rx' stream' r, OnRecvReady malloc rx stream ev_len ev_data = Ok (rx', stream', r) /\
    match r with
    | None => rx_inv rx' todo (stream' ++ fut)
    | Some b' => exists m todo', todo = m :: todo' /\ buf_mem b' = m /\ rx_inv rx' todo' (stream' ++ fut)
    end.
Proof.
  intros Hinv Hgood Hel Hed Hns. unfold OnRecvReady.
  destruct Hinv as [(Hrx & Hs)|(b & m & todo' & Hrx & -> & Hb & Hs)].
  - rewrite Hrx. cbn [take_partial]. specialize (Hns Hrx).
    destruct todo as [|m todo'].
    { (* nothing to come *)
      cbn in Hs. apply app_eq_nil in Hs as [-> ->]. unfold recv_length, tcp_recv.
      destruct ev_len as [n| |]; [|done..]. cbn [Z.eqb length].
      replace (Z.to_nat _) with 0%nat by lia. cbn. eexists _, _, None. split; [done|]. by left. }
    inversion Hgood as [|? ? Hm Hgood']; subst.
    destruct (recv_length_inv (mkRdRx [] (rx_dead rx)) m todo' stream fut ev_len)
      as [->|(b & stream' & -> & Hb & Hb0 & Hs')]; [done..| |]; cbn [mbind outcome_bind].
    + eexists _, _, None. split; [done|]. by left.
    + destruct (recv_data_inv (mkRdRx [] (rx_dead rx)) b m todo' stream' fut ev_data)
        as (rx' & s' & r & -> & Hr); [done..|by rewrite Hs', Hb0|].
      eexists _, _, r. split; [done|]. destruct r; [|done]. exists m, todo'. tauto.
  - inversion Hgood as [|? ? Hm Hgood']; subst.
    rewrite Hrx. cbn [take_partial]. rewrite (partial_not_clear b m) by done.
    destruct (recv_data_inv (mkRdRx [] (rx_dead rx)) b m todo' stream fut ev_data)
      as (rx' & s' & r & -> & Hr); [done..|].
    eexists _, _, r. split; [done|]. destruct r; [|done]. exists m, todo'. tauto.
Qed.

(** Bytes that arrive in a run. *)
Definition arrivals (steps : list rd_step) : list Z :=
  concat (map (fun s => match s with Arrive bs => bs | Ready _ _ => [] end) steps).

(** No poll of the run reads a length short; the polls run on state [st]. *)
Fixpoint no_short_read (st : rd_state) (steps : list rd_step) : Prop :=
  match steps with
  | [] => True
  | s :: steps' =>
      match s with
      | Arrive _ => True
      | Ready ev_len ev_data =>
          chunk_event ev_len /\ chunk_event ev_data /\
          (rx_buffers (rd_rx st) = [] -> ~ short_read (rd_stream st) ev_len)
      end /\
      match rd_do malloc st s with Ok st' => no_short_read st' steps' | _ => True end
  end.

Lemma rd_run_inv steps st todo fut :
  rx_inv (rd_rx st) todo (rd_stream st ++ arrivals steps ++ fut) -> Forall good_msg todo ->
  no_short_read st steps ->
  exists st' new todo', rd_run malloc st steps = Ok st' /\ todo = new ++ todo' /\
    map buf_mem (rd_handled st') = map buf_mem (rd_handled st) ++ new /\
    rx_inv (rd_rx st') todo' (rd_stream st' ++ fut).
Proof.
  revert st todo. induction steps as [|s steps IH]; intros st todo Hinv Hgood Hns.
  { exists st, [], todo. cbn in *. rewrite app_nil_r. eauto. }
  destruct Hns as [Hs Hns]. unfold rd_run. cbn [foldM]. destruct s as [bs|ev_len ev_data].
  - cbn [rd_do mbind outcome_bind] in *.
    apply (IH (mkRd (rd_rx st) (rd_stream st ++ bs) (rd_handled st))); [|done|done].
    cbn [rd_rx rd_stream]. unfold arrivals in Hinv. cbn [map concat] in Hinv.
    by rewrite <- !app_assoc in *.
  - destruct Hs as (Hel & Hed & Hshort).
    destruct (OnRecvReady_inv (rd_rx st) todo (rd_stream st) (arrivals steps ++ fut) ev_len ev_data)
      as (rx' & s' & r & Hr & Hcase); [exact Hinv|done..|].
    cbn [rd_do] in *. rewrite Hr in *. cbn [mbind outcome_bind] in *.
    destruct r as [b|].
    + destruct Hcase as (m & todo' & -> & Hb & Hinv'). inversion Hgood; subst.
      destruct (IH (mkRd rx' s' (rd_handled st ++ option_list (Some b))) todo')
        as (st' & new & todo'' & Hrun & -> & Hmap & Hfin); [done..|].
      exists st', (buf_mem b :: new), todo''. split; [done|]. split; [done|].
      split; [|done]. rewrite Hmap. cbn. by rewrite map_app, <- app_assoc.
    + destruct (IH (mkRd rx' s' (rd_handled st ++ option_list None)) todo)
        as (st' & new & todo'' & Hrun & -> & Hmap & Hfin); [done..|].
      exists st', new, todo''. split; [done|]. split; [done|].
      split; [|done]. rewrite Hmap. cbn. by rewrite app_nil_r.
Qed.
End receiver.

(** ** Properties *)

(** Several calls of [OnSendReady], with all the bytes they hand to the
    socket. *)
Fixpoint send_calls (q : list Buffer) (calls : list (list send_event)) :
    outcome (list Buffer * list Z) :=
  match calls with
  | [] => Ok (q, [])
  | evs :: calls' =>
      r ← OnSendReady q evs;
      let '(q', out, _) := r in
      r' ← send_calls q' calls';
      let '(q'', out') := r' in Ok (q'', out ++ out')
  end.

Lemma send_calls_spec q calls :
  Forall sendable q -> Forall (Forall good_send) calls ->
  exists q' out, send_calls q calls = Ok (q', out) /\
    Forall sendable q' /\ pending q = out ++ pending q'.
Proof.
  revert q. induction calls as [|evs calls IH]; intros q Hq Hc; [by exists q, []|].
  inversion Hc as [|? ? Hev Hc']; subst. cbn [send_calls]. unfold OnSendReady.
  destruct (OnSendReady_loop_spec (S (length q + length evs)) q evs Hq Hev ltac:(lia))
    as (q1 & out1 & evs' & -> & Hq1 & Hp1 & _). cbn [mbind outcome_bind].
  destruct (IH q1 Hq1 Hc') as (q2 & out2 & -> & Hq2 & Hp2). cbn [mbind outcome_bind].
  exists q2, (out1 ++ out2). split; [done|]. split; [done|]. by rewrite Hp1, Hp2, app_assoc.
Qed.

(** [route_buffer] writes the length in front of each buffer and queues it. *)
Fixpoint write_lengths (bufs : list Buffer) : outcome (list Buffer) :=
  match bufs with
  | [] => Ok []
  | b :: bufs' => b' ← WriteLength b; q ← write_lengths bufs'; Ok (b' :: q)
  end.

Lemma write_lengths_ok bufs msgs : Forall2 holds_bytes bufs msgs ->
  Forall (fun m => Z.of_nat (length m) < 2 ^ 32 - 4) msgs ->
  exists q, write_lengths bufs = Ok q /\ Forall sendable q /\ pending q = frames msgs.
Proof.
  induction 1 as [|b m bufs msgs Hb _ IH]; intros Hm; [by exists []|].
  apply Forall_cons in Hm as [Hm Hms]. destruct (IH Hms) as (q & Hq & Hsend & Hpend).
  cbn [write_lengths]. rewrite (WriteLength_bytes b m Hb Hm), Hq. cbn [mbind outcome_bind].
  eexists. split; [reflexivity|]. split.
  - constructor; [|done]. unfold sendable. cbn [buf_mem buf_msg_length buf_handled].
    unfold frame_of_bytes. rewrite length_app, length_le_bytes. lia.
  - unfold pending, frames in *. cbn [map concat buf_mem buf_handled]. by rewrite Hpend, drop_0.
Qed.

(** C14: messages that are queued with their length written in front
    ([WriteLength]), written to a TCP stream in pieces of any size (as
    [OnSendReady] finds room) and read from it in pieces of any size (as
    [OnRecvReady] finds data) reach [HandleReceivedData] in order and unchanged;
    when everything has been written and read they are all there. The one
    condition on the pieces is that no poll finds a part of a length field only
    ([no_short_read]: [OnRecvReady_short_length] says that the process stops
    then); the bytes of a message may come in any pieces. *)
Theorem framing_roundtrip malloc bufs msgs calls
    (Hmalloc : forall n, 0 <= n -> Z.of_nat (length (malloc n)) = n)
    (Hbufs : Forall2 holds_bytes bufs msgs)
    (Hmsgs : Forall (fun m => 0 < Z.of_nat (length m) < 2 ^ 32 - 4) msgs)
    (Hcalls : Forall (Forall good_send) calls) :
  exists q out, (tx ← write_lengths bufs; send_calls tx calls) = Ok (q, out) /\
    forall steps, arrivals steps = out -> no_short_read malloc (mkRd (mkRdRx [] false) [] []) steps ->
    exists st, rd_run malloc (mkRd (mkRdRx [] false) [] []) steps = Ok st /\
      map buf_mem (rd_handled st) `prefix_of` msgs /\
      (pending q = [] -> rd_stream st = [] -> rx_buffers (rd_rx st) = [] ->
       map buf_mem (rd_handled st) = msgs).
Proof.
  destruct (write_lengths_ok bufs msgs Hbufs) as (tx & Htx & Hq & Hf).
  { eapply Forall_impl; [exact Hmsgs|]. intros m Hm. cbn beta in Hm. lia. }
  destruct (send_calls_spec tx calls Hq Hcalls) as (q & out & Hs & _ & Hp). rewrite Hf in Hp.
  exists q, out. rewrite Htx. split; [exact Hs|]. intros steps Harr Hshort.
  destruct (rd_run_inv malloc Hmalloc steps (mkRd (mkRdRx [] false) [] []) msgs (pending q))
    as (st & new & todo & Hrun & -> & Hmap & Hinv).
  - left. split; [done|]. cbn. by rewrite Harr, Hp.
  - eapply Forall_impl; [exact Hmsgs|]. intros m Hm. cbn beta in Hm. unfold good_msg. lia.
  - done.
  - exists st. split; [done|]. rewrite Hmap. cbn. split; [by exists todo|].
    intros Hpend Hstream Hrx. destruct Hinv as [[_ Hrest]|(b & m & todo' & Hb & _)]; [|congruence].
    rewrite Hstream, Hpend in Hrest.
    destruct todo as [|m todo]; [by rewrite app_nil_r|discriminate Hrest].
Qed.

(** Two messages sent in three pieces and read in five polls. *)
Definition framing_example_malloc (n : Z) : list Z := replicate (Z.to_nat n) 9.
Definition framing_example_buffer (m : list Z) : Buffer :=
  let n := 4 + Z.of_nat (length m) in mkBuffer ([8; 8; 8; 8] ++ m) n n 0 true.

Lemma framing_roundtrip_witness :
  exists q out st,
    (tx ← write_lengths [framing_example_buffer [1; 2; 3]; framing_example_buffer [7]];
     send_calls tx [[SendRoom 2; SendRoom 4; SendBlock]; [SendRoom 100; SendRoom 100]]) = Ok (q, out) /\
    rd_run framing_example_malloc (mkRd (mkRdRx [] false) [] [])
    [Arrive [3; 0; 0; 0; 1; 2]; Ready (RecvChunk 8) (RecvChunk 1); Ready (RecvChunk 8) (RecvChunk 8);
     Arrive [3; 1; 0; 0; 0; 7]; Ready (RecvChunk 8) (RecvChunk 8); Ready (RecvChunk 4) (RecvChunk 8)]
    = Ok st /\ map buf_mem (rd_handled st) `prefix_of` [[1; 2; 3]; [7]].
Proof.
  destruct (framing_roundtrip framing_example_malloc [framing_example_buffer [1; 2; 3]; framing_example_buffer [7]]
    [[1; 2; 3]; [7]] [[SendRoom 2; SendRoom 4; SendBlock]; [SendRoom 100; SendRoom 100]]) as (q & out & H0 & Hrun).
  - intros n Hn. unfold framing_example_malloc. rewrite length_replicate. lia.
  - repeat constructor; exists [8; 8; 8; 8]; repeat split.
  - repeat constructor; simpl; lia.
  - repeat constructor.
  - assert (E : Ok (q, out) = Ok ([], [3; 0; 0; 0; 1; 2; 3; 1; 0; 0; 0; 7])) by (rewrite <- H0; vm_compute; reflexivity).
    injection E as -> ->.
    destruct (Hrun [Arrive [3; 0; 0; 0; 1; 2]; Ready (RecvChunk 8) (RecvChunk 1); Ready (RecvChunk 8) (RecvChunk 8);
      Arrive [3; 1; 0; 0; 0; 7]; Ready (RecvChunk 8) (RecvChunk 8); Ready (RecvChunk 4) (RecvChunk 8)] eq_refl)
      as (st & H1 & H2 & _); [vm_compute; intuition discriminate|].
    eexists _, _, st. split; [exact H0|]. split; [exact H1|exact H2].
Defined.

(** When only one to three bytes of a length field have arrived at the
    time of the poll, [OnRecvReady] stops the process. *)
Theorem OnRecvReady_short_length malloc stream n ev_data dead
    (Hshort : 0 < Z.min n (Z.of_nat (length stream)) < 4) :
  OnRecvReady malloc (mkRdRx [] dead) stream (RecvChunk n) ev_data = Fatal.
Proof.
  unfold OnRecvReady. cbn [take_partial rx_buffers]. unfold recv_length, tcp_recv. cbn [Z.eqb].
  set (k := Z.to_nat (Z.min (Z.min n 4) (Z.of_nat (length stream)))).
  destruct (Nat.eqb_spec k 0) as [|Hk]; [lia|].
  assert (Hl : length (take k stream) = k) by (rewrite length_take; lia).
  destruct (take k stream) as [|x bs]; [simpl in Hl; lia|].
  rewrite CHECK_false by (b2p; lia). done.
Qed.

Lemma OnRecvReady_short_length_witness :
  OnRecvReady framing_example_malloc (mkRdRx [] false) [12; 0; 0] (RecvChunk 4) (RecvChunk 8) = Fatal.
Proof. apply OnRecvReady_short_length. simpl. lia. Defined.
