(* ===== verification/LtMessage.v ===== *)
(** Loss-tolerant messages: src/src/mlt/ltmessage.h. Flow identifiers, the
    message with its receive state, and the copy of a packet's gradients into
    the message buffer. *)

From S2P Require Import Prelude Bytes Runs BlockMgr GradPacket.

(** ** Flow identifiers *)

(** [int] arguments; the sum converts [msg_id] to 64 bits with sign extension. *)
Definition EncodeFlow (dest msg_id : Z) : Z := u64 (u64 (Z.shiftl (u64 dest) 32) + u64 msg_id).

Definition DecodeFlow (flow_id : Z) : Z * Z :=
  (s32 (Z.shiftr flow_id 32), s32 (Z.land flow_id 4294967295)).

(** ** Messages *)

(** [struct LtMessage]; [lt_mem] is the memory that [lt_buf] points to. *)
Record LtMessage := mkLtMessage {
  lt_msg_id : Z;
  lt_buf : Z;
  lt_mem : list Z;
  lt_size : Z }.

(** [struct LtMessageExt] over a block manager [M]. The union of
    [bytes_received] and [bytes_sent] is one field. *)
Record LtMessageExt (M : Type) := mkLtMessageExt {
  ext_msg_id : Z;
  ext_buf : Z;
  ext_mem : list Z;
  ext_size : Z;
  ext_bytes : Z;
  ext_bound : Z;
  ext_stopped : bool;
  ext_block_mgr : M }.
Arguments mkLtMessageExt {M}.
Arguments ext_msg_id {M}. Arguments ext_buf {M}. Arguments ext_mem {M}.
Arguments ext_size {M}. Arguments ext_bytes {M}. Arguments ext_bound {M}.
Arguments ext_stopped {M}. Arguments ext_block_mgr {M}.

Section ext.
Context {M : Type} `{BlockMgr M}.

(** The constructor from an [LtMessage]. *)
Definition LtMessageExt_new (m : LtMessage) : LtMessageExt M :=
  mkLtMessageExt (lt_msg_id m) (lt_buf m) (lt_mem m) (lt_size m) 0 (lt_size m) false (bm_new 0).

Definition set_block_mgr (e : LtMessageExt M) (bm : M) : LtMessageExt M :=
  mkLtMessageExt (ext_msg_id e) (ext_buf e) (ext_mem e) (ext_size e) (ext_bytes e)
    (ext_bound e) (ext_stopped e) bm.

Definition set_bytes (e : LtMessageExt M) (n : Z) : LtMessageExt M :=
  mkLtMessageExt (ext_msg_id e) (ext_buf e) (ext_mem e) (ext_size e) n
    (ext_bound e) (ext_stopped e) (ext_block_mgr e).

Definition set_bound (e : LtMessageExt M) (n : Z) : LtMessageExt M :=
  mkLtMessageExt (ext_msg_id e) (ext_buf e) (ext_mem e) (ext_size e) (ext_bytes e)
    n (ext_stopped e) (ext_block_mgr e).

Definition set_stopped (e : LtMessageExt M) : LtMessageExt M :=
  mkLtMessageExt (ext_msg_id e) (ext_buf e) (ext_mem e) (ext_size e) (ext_bytes e)
    (ext_bound e) true (ext_block_mgr e).

(** The part of [CopyGradients] that records the sequence number: [None] when
    it was seen before. *)
Definition record_seq (bm : M) (seq : Z) : outcome (M * bool) :=
  bm ← (if bm_Size bm <=? seq then bm_Resize bm (u32 (seq + 1)) else Ok bm);
  taken ← bm_Check bm seq;
  if taken : bool then Ok (bm, false)
  else bm ← bm_Take bm seq; Ok (bm, true).

(** [CopyGradients]: [src] is the memory at the packet's gradient pointer. The
    offset check adds two [uint32_t]. *)
Definition CopyGradients (e : LtMessageExt M) (pkt : GradPacket) (src : list Z) :
    outcome (LtMessageExt M * Z) :=
  r ← record_seq (ext_block_mgr e) (pkt_seq pkt);
  let '(bm, fresh) := r in
  if negb fresh then Ok (set_block_mgr e bm, 0)
  else
    let grad_bytes := u32 (pkt_len pkt - kGradPacketHeader) in
    CHECK (u32 (pkt_offset pkt + grad_bytes) <=? ext_size e);;
    DEFINED ((pkt_offset pkt + grad_bytes <=? Z.of_nat (length (ext_mem e))) &&
             (grad_bytes <=? Z.of_nat (length src)));;
    let mem := splice (Z.to_nat (pkt_offset pkt)) (take (Z.to_nat grad_bytes) src) (ext_mem e) in
    Ok (mkLtMessageExt (ext_msg_id e) (ext_buf e) mem (ext_size e)
          (u64 (ext_bytes e + grad_bytes)) (ext_bound e) (ext_stopped e) bm, grad_bytes).

Definition FinishReceiving (e : LtMessageExt M) : bool := ext_bound e <=? ext_bytes e.
End ext.

(** ** Flow identifiers: round trip *)

Lemma land_low32 z : Z.land z 4294967295 = z `mod` 2 ^ 32.
Proof. apply (Z.land_ones z 32). lia. Qed.

Lemma EncodeFlow_nonneg dest msg_id :
  0 <= dest < 2 ^ 31 -> 0 <= msg_id < 2 ^ 31 ->
  EncodeFlow dest msg_id = dest * 2 ^ 32 + msg_id.
Proof.
  intros. unfold EncodeFlow. rewrite Z.shiftl_mul_pow2 by lia. unwrap. done.
Qed.

Lemma EncodeFlow_neg dest msg_id :
  0 < dest < 2 ^ 31 -> - 2 ^ 31 <= msg_id < 0 ->
  EncodeFlow dest msg_id = (dest - 1) * 2 ^ 32 + (2 ^ 32 + msg_id).
Proof.
  intros. unfold EncodeFlow. rewrite Z.shiftl_mul_pow2 by lia. unwrap.
  unfold u64. rewrite wrap_add_r. rewrite wrap_small; [lia|]. unfold fits. lia.
Qed.

Lemma DecodeFlow_split hi lo :
  0 <= hi < 2 ^ 31 -> 0 <= lo < 2 ^ 32 ->
  DecodeFlow (hi * 2 ^ 32 + lo) = (hi, s32 lo).
Proof.
  intros. unfold DecodeFlow. rewrite Z.shiftr_div_pow2, land_low32 by lia. f_equal.
  - rewrite Z.div_add_l, Z.div_small by lia. rewrite Z.add_0_r. unwrap. done.
  - f_equal. rewrite Z.add_comm, Z.mod_add by lia. by apply Z.mod_small.
Qed.

(** For a non-negative message id, decoding an encoded flow gives back the
    destination and the message id. *)
Theorem Flow_roundtrip dest msg_id
    (Hd : 0 <= dest < 2 ^ 31) (Hm : 0 <= msg_id < 2 ^ 31) :
  DecodeFlow (EncodeFlow dest msg_id) = (dest, msg_id).
Proof.
  rewrite EncodeFlow_nonneg, DecodeFlow_split by lia. unwrap. done.
Qed.

Lemma Flow_roundtrip_witness : DecodeFlow (EncodeFlow 5 2147483647) = (5, 2147483647).
Proof. apply (Flow_roundtrip 5 2147483647); lia. Defined.

(** Message ids are [uint32_t] in [LtMessage] but [int] in the flow
    encoding: for an id of at least 2^31 the sign extension borrows from the
    destination, and the decoded flow names the previous communicator. *)
Theorem Flow_large_msg_id dest id (Hd : 0 < dest < 2 ^ 31) (Hm : 2 ^ 31 <= id < 2 ^ 32) :
  DecodeFlow (EncodeFlow dest (s32 id)) = (dest - 1, s32 id).
Proof.
  assert (s32 id = id - 2 ^ 32) as ->.
  { unfold s32, swrap. change (32 - 1) with 31.
    rewrite <- (Z.mod_add (id + 2 ^ 31) (-1) (2 ^ 32)) by lia.
    rewrite Z.mod_small by lia. lia. }
  rewrite EncodeFlow_neg, DecodeFlow_split by lia. f_equal.
  replace (2 ^ 32 + (id - 2 ^ 32)) with id by lia.
  unfold s32, swrap. change (32 - 1) with 31.
  rewrite <- (Z.mod_add (id + 2 ^ 31) (-1) (2 ^ 32)) by lia.
  rewrite Z.mod_small by lia. lia.
Qed.

Lemma Flow_large_msg_id_witness :
  DecodeFlow (EncodeFlow 5 (s32 3000000000)) = (4, s32 3000000000).
Proof. apply (Flow_large_msg_id 5 3000000000); lia. Defined.
