(* ===== verification/Packetizer.v ===== *)
(** The packetizer of src/src/mlt/packetizer.cc and the packet priority
    function of src/src/mlt/prio_func.h: how a message is cut into packets, one
    at a time while it is sent ([PartitionOne]), by sequence number when it is
    retransmitted ([PartitionOneBySeq]), and in one go ([PartitionAndRoute]).
    Routing a packet to an endpoint is in PriorityChannel.v. *)

From S2P Require Import Prelude Bytes Runs BlockMgr GradPacket LtMessage.

(** ** Priority functions *)

(** [struct PktPrioFunc]: the type of service of a packet. *)
Definition PktPrioFunc : Type := GradPacket -> outcome Z.

(** [DefaultPktPrioFunc::operator()]; [u07] and [u01] are the values drawn from
    [gen.Uniform(0, 7)] and [gen.Uniform(0, 1)]. *)
Definition DefaultPktPrioFunc (u07 u01 : Z) : PktPrioFunc := fun pkt =>
  num_grads ← GetNumGradients 4 pkt;
  Ok (Z.lor (Z.shiftl (u07 * 8) 2) u01).

(** [DefaultPktPrioFunc::Encode]; the [int] division truncates. *)
Definition Encode (num_layers num_queues layer : Z) : outcome Z :=
  DEFINED (negb (num_layers =? 0));;
  Ok (Z.quot (layer * num_queues) num_layers).

Section packetizer.
(** [MLTGlobal::Get()->MaxSegment()] and [comm_->comm_id()], both [int]. *)
Context (max_segment comm_id : Z).

(** [size_t bound = MaxSegment() - kGradPacketHeader] *)
Definition seg_bound : Z := u64 (max_segment - kGradPacketHeader).

Definition GetMaxSeqNum (size : Z) : outcome Z :=
  DEFINED (negb (seg_bound =? 0));;
  Ok (u32 (u64 (size + seg_bound - 1) `div` seg_bound - 1)).

(** [(size - accumulated) > bound ? bound : (size - accumulated)] *)
Definition segment (size accumulated : Z) : Z :=
  if seg_bound <? u64 (size - accumulated) then seg_bound else u64 (size - accumulated).

(** The packet whose payload starts at [off] of a message, before the priority
    function has run: [tos] keeps the value it had. *)
Definition fill_packet (msg_id size buf dest seq off tos : Z) : GradPacket :=
  let len := u16 (segment size off + kGradPacketHeader) in
  mkGradPacket (u32 msg_id) (u32 off) (u32 seq) len (u16 dest) (u16 comm_id) tos
    (if u64 (off + len - kGradPacketHeader) =? size then 1 else 0) (u64 (buf + off)).

Definition set_tos (p : GradPacket) (tos : Z) : GradPacket :=
  mkGradPacket (pkt_msg_id p) (pkt_offset p) (pkt_seq p) (pkt_len p) (pkt_dst_comm_id p)
    (pkt_src_comm_id p) (u8 tos) (pkt_is_last p) (pkt_grad_ptr p).

Section ext.
Context {M : Type}.

Definition GetBytes (msg_ext : LtMessageExt M) : Z :=
  u64 (segment (ext_size msg_ext) (ext_bytes msg_ext) + kGradPacketHeader).

(** Returns the packet and the message with its [bytes_sent] advanced;
    [grad_pkt] is the packet the caller passes to be overwritten. *)
Definition PartitionOne (grad_pkt : GradPacket) (dest : Z) (msg_ext : LtMessageExt M)
    (prio_func : PktPrioFunc) : outcome (GradPacket * LtMessageExt M) :=
  let accumulated := ext_bytes msg_ext in
  DEFINED (negb (seg_bound =? 0));;
  let seq := u32 (accumulated `div` seg_bound) in
  let pkt := fill_packet (ext_msg_id msg_ext) (ext_size msg_ext) (ext_buf msg_ext) dest seq
               accumulated (pkt_tos grad_pkt) in
  tos ← prio_func pkt;
  Ok (set_tos pkt tos,
      set_bytes msg_ext (u64 (accumulated + (pkt_len pkt - kGradPacketHeader)))).

(** [seq] is an [int]; the product converts it to [size_t]. *)
Definition PartitionOneBySeq (grad_pkt : GradPacket) (dest : Z) (msg : LtMessageExt M)
    (prio_func : PktPrioFunc) (seq : Z) : outcome GradPacket :=
  let offset := u64 (seg_bound * u64 seq) in
  let pkt := fill_packet (ext_msg_id msg) (ext_size msg) (ext_buf msg) dest seq
               offset (pkt_tos grad_pkt) in
  tos ← prio_func pkt;
  Ok (set_tos pkt tos).
End ext.

(** The [while] loop of [PartitionAndRoute]: the calls [RoutePacket(pkt,
    is_finished)] in order. [rnd k] is the [k]-th result of [rand()]. *)
Fixpoint partition_loop (fuel : nat) (dest : Z) (msg : LtMessage) (rnd : nat -> Z)
    (k : nat) (accumulated seq : Z) : outcome (list (GradPacket * bool)) :=
  match fuel with
  | O => OutOfFuel
  | S fuel' =>
      if accumulated <? lt_size msg then
        let pkt := set_tos (fill_packet (lt_msg_id msg) (lt_size msg) (lt_buf msg) dest seq
                              accumulated 0) (rnd k `mod` 256) in
        rest ← partition_loop fuel' dest msg rnd (S k)
                 (u64 (accumulated + (pkt_len pkt - kGradPacketHeader))) (u32 (seq + 1));
        Ok ((pkt, pkt_is_last pkt =? 1) :: rest)
      else Ok []
  end.

Definition PartitionAndRoute (fuel : nat) (dest : Z) (msg : LtMessage) (rnd : nat -> Z) :
    outcome (list (GradPacket * bool)) := partition_loop fuel dest msg rnd 0 0 0.
End packetizer.

(** ** Chunks: the reference partition of a message *)

Section chunks.
Context (B : Z).

(** Number of packets of a message of [size] bytes. *)
Definition packets (size : Z) : Z := (size + B - 1) `div` B.

(** Payload bytes of packet [i]. *)
Definition chunk_len (size i : Z) : Z := Z.min B (size - i * B).

Definition chunk (data : list Z) (i : Z) : list Z :=
  slice (Z.to_nat (i * B)) (Z.to_nat (chunk_len (Z.of_nat (length data)) i)) data.

Context (HB : 0 < B).

Lemma packets_bounds size : 0 <= size -> (packets size - 1) * B < size <= packets size * B
  \/ (size = 0 /\ packets size = 0).
Proof. intros. unfold packets. assert (size = 0 \/ 0 < size) as [->|] by lia.
  - right. split; [done|]. apply Z.div_small. lia.
  - left. pose proof (Z.div_mod (size + B - 1) B ltac:(lia)).
    pose proof (Z.mod_pos_bound (size + B - 1) B HB). nia.
Qed.

Lemma lt_packets size i : 0 <= size -> 0 <= i -> i < packets size <-> i * B < size.
Proof. intros. pose proof (packets_bounds size ltac:(done)). split; intros; nia. Qed.

Lemma chunk_len_pos size i : 0 <= size -> 0 <= i < packets size -> 0 < chunk_len size i <= B.
Proof. intros ? [? ?%lt_packets]; [|done..]. unfold chunk_len. lia. Qed.

(** The chunk ends the message exactly for the last packet. *)
Lemma chunk_end size i : 0 <= size -> 0 <= i < packets size ->
  i * B + chunk_len size i = size <-> i = packets size - 1.
Proof.
  intros ? [? Hi]. pose proof (packets_bounds size ltac:(done)).
  unfold chunk_len. split; intros; nia.
Qed.

Lemma chunk_next size i : 0 <= size -> 0 <= i < packets size ->
  i * B + chunk_len size i = Z.min size ((i + 1) * B).
Proof. intros. unfold chunk_len. lia. Qed.

Lemma length_chunk data i : 0 <= i < packets (Z.of_nat (length data)) ->
  length (chunk data i) = Z.to_nat (chunk_len (Z.of_nat (length data)) i).
Proof.
  intros Hi. pose proof (chunk_len_pos _ _ (Zle_0_nat (length data)) Hi) as Hc.
  apply length_slice. revert Hc. unfold chunk_len. lia.
Qed.

(** The first [k] chunks are a prefix of the message. *)
Lemma concat_chunks_prefix data k : Z.of_nat k <= packets (Z.of_nat (length data)) ->
  concat (map (chunk data) (seqZ 0 (Z.of_nat k))) = take (Z.to_nat (Z.of_nat k * B)) data.
Proof.
  induction k as [|k IH]; intros Hk; [done|].
  rewrite Nat2Z.inj_succ, <- Z.add_1_r, seqZ_app, map_app, concat_app, IH by lia.
  rewrite Z.add_0_l. simpl. rewrite app_nil_r.
  replace (Z.to_nat ((Z.of_nat k + 1) * B)) with (Z.to_nat (Z.of_nat k * B) + Z.to_nat B)%nat by lia.
  rewrite <- take_take_drop. f_equal. unfold chunk, slice, chunk_len.
  destruct (decide (B <= Z.of_nat (length data) - Z.of_nat k * B)).
  - by rewrite Z.min_l.
  - rewrite Z.min_r by lia. rewrite !take_ge; [done|rewrite length_drop; lia..].
Qed.

(** The chunks are the message, cut without gap or overlap. *)
Lemma concat_chunks data :
  concat (map (chunk data) (seqZ 0 (packets (Z.of_nat (length data))))) = data.
Proof.
  pose proof (packets_bounds (Z.of_nat (length data)) ltac:(lia)).
  assert (0 <= packets (Z.of_nat (length data))) by nia.
  rewrite <- (Z2Nat.id (packets _)) by lia. rewrite concat_chunks_prefix by lia.
  apply take_ge. nia.
Qed.
End chunks.

Section correct.
Context (max_segment comm_id : Z).
Context (Hseg : 20 < max_segment < 2 ^ 16).
Let B := max_segment - 20.

(** Packet [i] of a message. *)
Definition chunk_packet (msg_id size buf dest tos i : Z) : GradPacket :=
  let B := max_segment - 20 in
  mkGradPacket (u32 msg_id) (i * B) i (chunk_len B size i + 20) (u16 dest) (u16 comm_id) tos
    (if i =? packets B size - 1 then 1 else 0) (u64 (buf + i * B)).

Lemma seg_bound_eq : seg_bound max_segment = B.
Proof.
  unfold seg_bound, B. change kGradPacketHeader with 20. apply u64_small. lia.
Qed.

Lemma segment_chunk size i : 0 <= size < 2 ^ 32 -> 0 <= i < packets B size ->
  segment max_segment size (i * B) = chunk_len B size i.
Proof.
  intros Hs Hi. assert (i * B < size) by (apply lt_packets; unfold B in *; lia).
  unfold segment. rewrite seg_bound_eq, u64_small by nia.
  unfold chunk_len. case_if E; b2p; lia.
Qed.

Lemma fill_packet_chunk msg_id size buf dest tos i :
  0 <= size < 2 ^ 32 -> 0 <= i < packets B size ->
  fill_packet max_segment comm_id msg_id size buf dest i (i * B) tos =
  chunk_packet msg_id size buf dest tos i.
Proof.
  intros Hs Hi. assert (HB : 0 < B) by (unfold B; lia).
  assert (i * B < size) by (apply lt_packets; lia).
  pose proof (chunk_len_pos B HB size i ltac:(lia) Hi).
  unfold fill_packet, chunk_packet. fold B. rewrite segment_chunk by done.
  change kGradPacketHeader with 20.
  rewrite (u16_small (chunk_len B size i + 20)) by (unfold B in *; lia).
  rewrite (u32_small (i * B)), (u32_small i), (u64_small (_ - 20)) by nia. f_equal.
  pose proof (chunk_end B HB size i ltac:(lia) Hi).
  destruct (Z.eqb_spec (i * B + (chunk_len B size i + 20) - 20) size),
    (Z.eqb_spec i (packets B size - 1)); lia.
Qed.

Lemma GetMaxSeqNum_packets size : 0 < size < 2 ^ 32 ->
  GetMaxSeqNum max_segment size = Ok (packets B size - 1).
Proof.
  intros Hs. unfold GetMaxSeqNum. rewrite seg_bound_eq. assert (0 < B) by (unfold B; lia).
  pass. f_equal. unfold B in *.
  rewrite (u64_small (size + _ - 1)) by lia. fold (packets (max_segment - 20) size).
  pose proof (packets_bounds (max_segment - 20) ltac:(lia) size ltac:(lia)).
  apply u32_small. nia.
Qed.

Section ext.
Context {M : Type}.
Implicit Types e : LtMessageExt M.

Definition ext_packet e dest tos i : GradPacket :=
  chunk_packet (ext_msg_id e) (ext_size e) (ext_buf e) dest tos i.

Lemma PartitionOne_chunk gp dest e prio i :
  0 <= ext_size e < 2 ^ 32 -> 0 <= i < packets B (ext_size e) -> ext_bytes e = i * B ->
  PartitionOne max_segment comm_id gp dest e prio =
    tos ← prio (ext_packet e dest (pkt_tos gp) i);
    Ok (ext_packet e dest (u8 tos) i, set_bytes e (Z.min (ext_size e) ((i + 1) * B))).
Proof.
  intros Hs Hi Hb. assert (HB : 0 < B) by (unfold B; lia).
  assert (i * B < ext_size e) by (apply lt_packets; lia).
  pose proof (chunk_len_pos B HB (ext_size e) i ltac:(lia) Hi).
  unfold PartitionOne. rewrite seg_bound_eq. pass.
  rewrite Hb, Z.div_mul, u32_small by nia.
  rewrite fill_packet_chunk by done. fold (ext_packet e dest (pkt_tos gp) i).
  destruct (prio _); [|done..]. cbn [mbind outcome_bind]. do 2 f_equal.
  unfold ext_packet, chunk_packet. fold B. cbn [pkt_len]. change kGradPacketHeader with 20.
  f_equal. rewrite <- (chunk_next B) by lia.
  rewrite u64_small; lia.
Qed.

Lemma PartitionOneBySeq_chunk gp dest e prio i :
  0 <= ext_size e < 2 ^ 32 -> 0 <= i < packets B (ext_size e) ->
  PartitionOneBySeq max_segment comm_id gp dest e prio i =
    tos ← prio (ext_packet e dest (pkt_tos gp) i);
    Ok (ext_packet e dest (u8 tos) i).
Proof.
  intros Hs Hi. assert (HB : 0 < B) by (unfold B; lia).
  assert (i * B < ext_size e) by (apply lt_packets; lia).
  unfold PartitionOneBySeq. rewrite seg_bound_eq.
  rewrite (u64_small i), Z.mul_comm, (u64_small (i * B)) by nia.
  rewrite fill_packet_chunk by done. done.
Qed.

End ext.

Lemma partition_loop_chunks fuel dest msg rnd k i :
  0 <= lt_size msg < 2 ^ 32 -> 0 <= i <= packets B (lt_size msg) ->
  (Z.to_nat (packets B (lt_size msg) - i) < fuel)%nat ->
  partition_loop max_segment comm_id fuel dest msg rnd k (Z.min (lt_size msg) (i * B)) i =
  Ok (imap (fun j i => (chunk_packet (lt_msg_id msg) (lt_size msg) (lt_buf msg) dest
                          (rnd (k + j)%nat `mod` 256) i, i =? packets B (lt_size msg) - 1))
           (seqZ i (packets B (lt_size msg) - i))).
Proof.
  intros Hs. assert (HB : 0 < B) by (unfold B; lia).
  pose proof (packets_bounds B HB (lt_size msg) ltac:(lia)) as Hp.
  revert k i. induction fuel as [|fuel IH]; intros k i Hi Hf; [lia|].
  cbn [partition_loop]. case_if E; b2p.
  - assert (Hlt : i * B < lt_size msg) by lia.
    apply (lt_packets B HB) in Hlt; [|lia..]. rewrite Z.min_r by lia.
    rewrite fill_packet_chunk by lia.
    rewrite (seqZ_cons i) by lia. rewrite imap_cons.
    replace (u64 _) with (Z.min (lt_size msg) ((i + 1) * B)).
    2:{ unfold set_tos, chunk_packet. fold B. cbn [pkt_len]. change kGradPacketHeader with 20.
        rewrite <- (chunk_next B) by lia. rewrite u64_small; [lia|].
        pose proof (chunk_len_pos B HB (lt_size msg) i ltac:(lia) ltac:(lia)). nia. }
    rewrite u32_small by nia. rewrite IH by lia. cbn [mbind outcome_bind].
    unfold set_tos, chunk_packet. fold B. cbn. rewrite Nat.add_0_r.
    replace (Z.pred (packets B (lt_size msg) - i)) with (packets B (lt_size msg) - (i + 1)) by lia.
    rewrite <- Z.add_1_r. unfold u8, wrap. change (2 ^ 8) with 256. rewrite Z.mod_mod by done.
    f_equal. f_equal.
    + f_equal. by destruct (i =? _).
    + apply imap_ext. intros j x _. unfold chunk_packet. simpl. by rewrite Nat.add_succ_r.
  - assert (i = packets B (lt_size msg)) as -> by nia. by rewrite Z.sub_diag.
Qed.
End correct.

(** ** Properties *)

(** The packet that [PartitionOne] produces when [i] full segments have been
    sent is the packet that [PartitionOneBySeq] produces for sequence number
    [i], so that a retransmission repeats the original packet; sending it
    advances [bytes_sent] to the start of packet [i + 1] or to the end of the
    message. *)
Theorem retransmission_repeats_packet {M} max_segment comm_id gp dest (e : LtMessageExt M) prio i
    (Hseg : 20 < max_segment < 2 ^ 16) (Hsize : 0 <= ext_size e < 2 ^ 32)
    (Hi : 0 <= i < packets (max_segment - 20) (ext_size e))
    (Hsent : ext_bytes e = i * (max_segment - 20)) :
  PartitionOne max_segment comm_id gp dest e prio =
    pkt ← PartitionOneBySeq max_segment comm_id gp dest e prio i;
    Ok (pkt, set_bytes e (Z.min (ext_size e) ((i + 1) * (max_segment - 20)))).
Proof.
  rewrite (PartitionOne_chunk max_segment comm_id Hseg _ _ _ _ i) by done.
  rewrite (PartitionOneBySeq_chunk max_segment comm_id Hseg) by done.
  by destruct (prio _).
Qed.

Lemma retransmission_repeats_packet_witness :
  PartitionOne 1472 1 (mkGradPacket 0 0 0 0 0 0 0 0 0) 3
    (mkLtMessageExt 7 4096 [] 5000 2904 5000 false tt) (DefaultPktPrioFunc 5 1) =
  Ok (mkGradPacket 7 2904 2 1472 3 1 161 0 7000,
      mkLtMessageExt 7 4096 [] 5000 4356 5000 false tt).
Proof.
  refine (eq_trans (retransmission_repeats_packet 1472 1 _ 3
    (mkLtMessageExt 7 4096 [] 5000 2904 5000 false tt) (DefaultPktPrioFunc 5 1) 2 _ _ _ _) _);
    [lia|simpl; lia| |reflexivity|reflexivity].
  split; [lia|reflexivity].
Defined.

(** [PartitionAndRoute] terminates and routes packets numbered [0] up to
    [GetMaxSeqNum], each with its payload's offset and length; the payloads put
    together are the message, and [is_finished] is set for the last packet
    only. *)
Theorem PartitionAndRoute_partitions max_segment comm_id dest msg rnd fuel
    (Hseg : 20 < max_segment < 2 ^ 16) (Hsize : 0 < lt_size msg < 2 ^ 32)
    (Hmem : Z.of_nat (length (lt_mem msg)) = lt_size msg)
    (Hfuel : (Z.to_nat (lt_size msg) < fuel)%nat) :
  exists calls n,
    PartitionAndRoute max_segment comm_id fuel dest msg rnd = Ok calls /\
    GetMaxSeqNum max_segment (lt_size msg) = Ok (n - 1) /\
    map (fun c => pkt_seq c.1) calls = seqZ 0 n /\
    map snd calls = map (fun i => i =? n - 1) (seqZ 0 n) /\
    concat (map (fun c => slice (Z.to_nat (pkt_offset c.1))
                            (Z.to_nat (pkt_len c.1 - kGradPacketHeader)) (lt_mem msg)) calls)
    = lt_mem msg.
Proof.
  set (B := max_segment - 20). assert (HB : 0 < B) by (unfold B; lia).
  pose proof (packets_bounds B HB (lt_size msg) ltac:(lia)) as Hp.
  eexists _, (packets B (lt_size msg)). split.
  { unfold PartitionAndRoute. change 0 with (0 * B) at 1.
    replace (0 * B) with (Z.min (lt_size msg) (0 * B)) by lia.
    apply (partition_loop_chunks max_segment comm_id Hseg); fold B; [lia|nia..]. }
  split; [by apply GetMaxSeqNum_packets|]. fold B. rewrite Z.sub_0_r.
  set (n := packets B (lt_size msg)).
  split; [|split].
  - rewrite (map_imap_const _ _ id) by done. apply map_id.
  - by apply map_imap_const.
  - rewrite (map_imap_const _ _ (chunk B (lt_mem msg))).
    + unfold n. rewrite <- Hmem. by apply concat_chunks.
    + intros j i. unfold chunk, chunk_packet. cbn [fst pkt_offset pkt_len]. fold B.
      rewrite Hmem. f_equal. change kGradPacketHeader with 20. f_equal. lia.
Qed.

Lemma PartitionAndRoute_partitions_witness :
  exists calls, PartitionAndRoute 24 1 11 3 (mkLtMessage 7 4096 [1; 2; 3; 4; 5; 6; 7; 8; 9; 10] 10)
    (fun k => Z.of_nat k) = Ok calls /\ map (fun c => pkt_seq c.1) calls = [0; 1; 2].
Proof.
  destruct (PartitionAndRoute_partitions 24 1 3
    (mkLtMessage 7 4096 [1; 2; 3; 4; 5; 6; 7; 8; 9; 10] 10) (fun k => Z.of_nat k) 11
    ltac:(lia) ltac:(simpl; lia) eq_refl ltac:(simpl; lia)) as (calls & n & H1 & H2 & H3 & _).
  exists calls. split; [exact H1|]. 
  assert (H4 : Ok 2 = Ok (n - 1)) by exact H2. injection H4 as H4.
  replace n with 3 in H3 by lia. exact H3.
Defined.
