(* ===== verification/Transfer.v ===== *)
(** End-to-end transfer of one message: the packets of src/src/mlt/packetizer.cc
    copied by [LtMessageExt::CopyGradients] (src/src/mlt/ltmessage.h) in
    whatever order, and however often, the network delivers them. The receiver
    is proved against the [BlockMgr] interface. *)

From S2P Require Import Prelude Bytes Runs BlockMgr TreeBlockMgr GradPacket LtMessage Packetizer.

(** ** Sums over a list *)

Fixpoint sumZ (f : Z -> Z) (l : list Z) : Z :=
  match l with [] => 0 | x :: l' => f x + sumZ f l' end.

Lemma sumZ_app f l1 l2 : sumZ f (l1 ++ l2) = sumZ f l1 + sumZ f l2.
Proof. induction l1; simpl; lia. Qed.

Lemma sumZ_ext f g l : (forall x, x ∈ l -> f x = g x) -> sumZ f l = sumZ g l.
Proof.
  induction l as [|x l IH]; intros Hfg; simpl; [done|].
  rewrite Hfg, IH; [done| |]; intros; try apply Hfg; set_solver.
Qed.

Lemma sumZ_le f g l : (forall x, x ∈ l -> f x <= g x) -> sumZ f l <= sumZ g l.
Proof.
  induction l as [|x l IH]; intros Hfg; simpl; [done|].
  pose proof (Hfg x ltac:(set_solver)). pose proof (IH ltac:(set_solver)). lia.
Qed.

Lemma sumZ_nonneg f l : (forall x, x ∈ l -> 0 <= f x) -> 0 <= sumZ f l.
Proof.
  induction l as [|x l IH]; intros Hf; simpl; [done|].
  pose proof (Hf x ltac:(set_solver)). pose proof (IH ltac:(set_solver)). lia.
Qed.

(** Changing one summand. *)
Lemma sumZ_update f g l i : NoDup l -> i ∈ l -> (forall x, x ∈ l -> x <> i -> f x = g x) ->
  sumZ g l = sumZ f l - f i + g i.
Proof.
  induction 1 as [|x l Hx Hl IH]; intros Hin Hfg; [set_solver|]. simpl.
  destruct (decide (x = i)) as [->|Hne].
  - rewrite (sumZ_ext f g l); [lia|]. intros y Hy. apply Hfg; set_solver.
  - rewrite IH by set_solver. rewrite (Hfg x) by set_solver. lia.
Qed.

(** ** The receiver *)

Section receiver.
Context {M} `{TotalBlockMgr M}.
Context (max_segment src_id dst_id : Z) (Hseg : 20 < max_segment < 2 ^ 16).
Context (msg : LtMessage).
Let data := lt_mem msg.
Let size := lt_size msg.
Let B := max_segment - 20.
Let n := packets B size.
Context (Hsize : 0 < size < 2 ^ 32) (Hdata : Z.of_nat (length data) = size).

(** Payload bytes of the packets in [T]. *)
Definition received_bytes (B size : Z) (T : gset Z) : Z :=
  sumZ (fun i => if decide (i ∈ T) then chunk_len B size i else 0) (seqZ 0 (packets B size)).

(** [T] is the set of sequence numbers received into the initial memory
    [mem0]. *)
Definition recv_inv (mem0 : list Z) (e : LtMessageExt M) (T : gset Z) : Prop :=
  ext_size e = size /\ length (ext_mem e) = length data /\
  (exists m F, bm_rep (ext_block_mgr e) m F /\ m <= n /\
     forall i, i ∈ T <-> 0 <= i < m /\ i ∉ F) /\
  (forall j, (j < length data)%nat ->
     ext_mem e !! j = if decide (Z.of_nat j `div` B ∈ T) then data !! j else mem0 !! j) /\
  ext_bytes e = received_bytes B size T.

Lemma n_bounds : 0 < n /\ (n - 1) * B < size <= n * B /\ n < 2 ^ 32.
Proof.
  assert (HB : 0 < B) by (unfold B; lia).
  destruct (packets_bounds B HB size ltac:(lia)) as [Hp|Hp]; fold n in Hp; nia.
Qed.

(** The message as the receiver posts it, over memory [mem0]. *)
Lemma recv_inv_new mid buf mem0 : length mem0 = length data ->
  recv_inv mem0 (LtMessageExt_new (mkLtMessage mid buf mem0 size)) ∅.
Proof.
  intros Hmem. unfold recv_inv. cbn. split; [done|]. split; [done|]. split; [|split].
  - exists 0, (range_set 0 0). split; [apply bm_new_spec; lia|].
    pose proof n_bounds. split; [lia|]. intros i. split; [set_solver|lia].
  - intros j _. done.
  - unfold received_bytes. fold n. induction (seqZ 0 n) as [|x l IH]; [done|].
    cbn [sumZ]. rewrite <- IH. by rewrite decide_False by set_solver.
Qed.

Lemma received_bytes_add T i : 0 <= i < n -> i ∉ T ->
  received_bytes B size (T ∪ {[i]}) = received_bytes B size T + chunk_len B size i.
Proof.
  intros Hi Hnot. unfold received_bytes. fold n.
  rewrite (sumZ_update (fun i => if decide (i ∈ T) then chunk_len B size i else 0) _ _ i).
  - rewrite decide_False, decide_True by set_solver. lia.
  - apply NoDup_seqZ.
  - apply elem_of_seqZ. lia.
  - intros x _ Hne. cbn. repeat case_decide; set_solver.
Qed.

(** The chunks add up to the message. *)
Lemma chunk_lens_sum k : 0 <= k <= n -> sumZ (chunk_len B size) (seqZ 0 k) = Z.min size (k * B).
Proof.
  intros Hk. pose proof n_bounds as Hn. assert (Hk0 : 0 <= k) by lia. revert Hk.
  pattern k. apply Zlt_0_ind; [|done]. clear k Hk0. intros k IH Hk0 Hk. destruct (decide (k = 0)) as [->|]; [simpl; lia|].
  replace k with ((k - 1) + 1) at 1 by lia. rewrite seqZ_app, sumZ_app, IH by lia.
  simpl. unfold chunk_len. nia.
Qed.

Lemma received_bytes_le T : 0 <= received_bytes B size T <= size.
Proof.
  pose proof n_bounds. unfold received_bytes. fold n.
  assert (Hpos : forall x, x ∈ seqZ 0 n -> 0 < chunk_len B size x).
  { intros x Hx%elem_of_seqZ. apply chunk_len_pos; fold n; unfold B; lia. }
  split.
  - apply sumZ_nonneg. intros x Hx. case_decide; [|done]. apply Hpos in Hx. lia.
  - transitivity (sumZ (chunk_len B size) (seqZ 0 n)); [|rewrite chunk_lens_sum; lia].
    apply sumZ_le. intros x Hx. apply Hpos in Hx. case_decide; lia.
Qed.

(** All bytes have arrived exactly when all packets have. *)
Lemma received_bytes_full T : received_bytes B size T = size <-> forall i, 0 <= i < n -> i ∈ T.
Proof.
  pose proof n_bounds as Hn. split.
  - intros Hfull i Hi. destruct (decide (i ∈ T)) as [|Hnot]; [done|exfalso].
    pose proof (received_bytes_add T i Hi Hnot). pose proof (received_bytes_le (T ∪ {[i]})).
    pose proof (chunk_len_pos B ltac:(unfold B; lia) size i ltac:(lia) Hi). lia.
  - intros Hall. unfold received_bytes. fold n.
    rewrite (sumZ_ext _ (chunk_len B size)); [rewrite chunk_lens_sum; lia|].
    intros x Hx%elem_of_seqZ. rewrite decide_True by (apply Hall; lia). done.
Qed.

(** Recording a sequence number: the manager grows to hold it, and says whether
    it was new. *)
Lemma record_seq_spec bm m F i : bm_rep bm m F -> 0 <= i < 2 ^ 32 - 1 ->
  exists bm' m' F',
    record_seq bm i = Ok (bm', bool_decide (i ∈ F \/ m <= i)) /\ bm_rep bm' m' F' /\
    m' = Z.max m (i + 1) /\
    (forall x, 0 <= x < m' /\ x ∉ F' <-> (0 <= x < m /\ x ∉ F) \/ x = i).
Proof.
  intros Hbm Hi. destruct (bm_rep_size bm m F Hbm) as [Hm Hm32]. unfold record_seq. rewrite Hm.
  set (m' := Z.max m (i + 1)). set (F1 := if decide (m <= i) then F ∪ range_set m (i + 1) else F).
  assert (exists bm1, (if m <=? i then bm_Resize bm (u32 (i + 1)) else Ok bm) = Ok bm1 /\
            bm_rep bm1 m' F1) as (bm1 & -> & Hbm1).
  { unfold m', F1. case_decide; destruct (Z.leb_spec m i); try lia.
    - rewrite u32_small, Z.max_r by lia. apply bm_Resize_spec; [done|lia|auto with mlt].
    - rewrite Z.max_l by lia. by exists bm. }
  cbn [mbind outcome_bind]. rewrite (bm_Check_spec bm1 m' F1) by (done || lia).
  assert (HF1 : forall x, x ∈ F1 <-> x ∈ F \/ m <= x <= i).
  { intros x. unfold F1. case_decide; [|intuition lia].
    rewrite elem_of_union, elem_of_range_set. intuition lia. }
  assert (Hb : bool_decide (i ∉ F1) = negb (bool_decide (i ∈ F \/ m <= i))).
  { rewrite <- bool_decide_not. apply bool_decide_ext. rewrite HF1.
    pose proof (bm_rep_bound bm m F i Hbm). intuition lia. }
  rewrite Hb. cbn [mbind outcome_bind].
  assert (Hbnd : forall x, x ∈ F -> 0 <= x < m) by (intros; by apply (bm_rep_bound bm m F)).
  clear Hb. case_bool_decide as Hfree; cbn [negb].
  - destruct (bm_Take_spec bm1 m' F1 i Hbm1) as (bm2 & -> & Hbm2); [apply HF1; destruct Hfree; [by left|right; lia]|].
    exists bm2, m', (F1 ∖ {[i]}). repeat split; try done.
    + intros [Hx Hnot]. rewrite elem_of_difference, elem_of_singleton, HF1 in Hnot.
      destruct (decide (x = i)); [by right|left]. split; [|tauto].
      split; [lia|]. unfold m' in *. destruct (decide (x < m)); [done|]. lia.
    + unfold m'. intuition lia.
    + unfold m'. intuition lia.
    + rewrite elem_of_difference, elem_of_singleton, HF1. intuition lia.
  - exists bm1, m', F1. split; [done|]. split; [done|]. split; [done|].
    intros x. rewrite HF1. unfold m'. split; [intuition lia|].
    intros [?| ->]; intuition lia.
Qed.

(** [pkt] carries chunk [i] of the message. *)
Definition carries (pkt : GradPacket) (i : Z) : Prop :=
  pkt_seq pkt = i /\ pkt_offset pkt = i * B /\ pkt_len pkt = chunk_len B size i + 20.

(** Fields that receiving leaves alone. *)
Definition same_request (e e' : LtMessageExt M) : Prop :=
  ext_msg_id e' = ext_msg_id e /\ ext_buf e' = ext_buf e /\
  ext_bound e' = ext_bound e /\ ext_stopped e' = ext_stopped e.

Lemma chunk_lookup i j : 0 <= i < n -> Z.of_nat j `div` B = i -> (j < length data)%nat ->
  (Z.to_nat (i * B) <= j < Z.to_nat (i * B) + length (chunk B data i))%nat /\
  chunk B data i !! (j - Z.to_nat (i * B))%nat = data !! j.
Proof.
  intros Hi Hj Hlt. assert (HB : 0 < B) by (unfold B; lia).
  pose proof (Z.div_mod (Z.of_nat j) B ltac:(lia)). pose proof (Z.mod_pos_bound (Z.of_nat j) B HB).
  rewrite (length_chunk B HB) by (rewrite Hdata; done). rewrite Hdata.
  assert (Hr : i * B <= Z.of_nat j < i * B + chunk_len B size i) by (unfold chunk_len; nia).
  split; [nia|]. unfold chunk. rewrite Hdata, lookup_slice by nia. f_equal. nia.
Qed.

Lemma chunk_lookup_other i j : 0 <= i < n -> Z.of_nat j `div` B <> i ->
  ~ (Z.to_nat (i * B) <= j < Z.to_nat (i * B) + length (chunk B data i))%nat.
Proof.
  intros Hi Hj Hin. assert (HB : 0 < B) by (unfold B; lia).
  rewrite (length_chunk B HB) in Hin by (rewrite Hdata; done). apply Hj. symmetry.
  apply (Z.div_unique _ _ _ (Z.of_nat j - i * B)); [left|lia].
  revert Hin. unfold chunk_len. nia.
Qed.

Lemma CopyGradients_step mem0 e T pkt rest i :
  recv_inv mem0 e T -> 0 <= i < n -> carries pkt i ->
  exists e',
    CopyGradients e pkt (chunk B data i ++ rest) =
      Ok (e', if decide (i ∈ T) then 0 else chunk_len B size i) /\
    recv_inv mem0 e' (T ∪ {[i]}) /\ same_request e e'.
Proof.
  intros (Hsz & Hlen & (m & F & Hbm & Hmn & HT) & Hmem & Hbytes) Hi (Hseq & Hoff & Hplen).
  assert (HB : 0 < B) by (unfold B; lia). pose proof n_bounds as Hn.
  pose proof (chunk_len_pos B HB size i ltac:(lia) Hi) as Hc.
  destruct (record_seq_spec _ m F i Hbm ltac:(lia)) as (bm' & m' & F' & Hrec & Hbm' & Hm' & HT').
  assert (Hbm2 : exists m F, bm_rep bm' m F /\ m <= n /\
            forall x, x ∈ T ∪ {[i]} <-> 0 <= x < m /\ x ∉ F).
  { exists m', F'. split; [done|]. split; [lia|]. intros x.
    rewrite elem_of_union, elem_of_singleton, HT, HT'. done. }
  unfold CopyGradients. rewrite Hseq, Hrec. cbn [mbind outcome_bind].
  assert (Hdup : bool_decide (i ∈ F \/ m <= i) = bool_decide (i ∉ T)).
  { apply bool_decide_ext. rewrite HT. split.
    - intros [?|?] [? ?]; [done|lia].
    - intros Hno. destruct (decide (i ∈ F)); [by left|right].
      destruct (decide (m <= i)); [done|]. destruct Hno. split; [lia|done]. }
  rewrite Hdup. destruct (decide (i ∈ T)) as [Hin|Hnot].
  - rewrite bool_decide_false by tauto. cbn [negb].
    eexists. split; [done|]. split; [|done].
    replace (T ∪ {[i]}) with T in * by set_solver. by repeat split.
  - rewrite bool_decide_true by done. cbn [negb].
    assert (Hcl : u32 (pkt_len pkt - kGradPacketHeader) = chunk_len B size i).
    { rewrite Hplen. change kGradPacketHeader with 20. rewrite u32_small; unfold B in *; lia. }
    rewrite Hcl, Hoff, Hsz. pose proof (chunk_next B size i ltac:(lia) Hi) as Hnext.
    rewrite u32_small by lia. pass.
    pose proof (length_chunk B HB data i ltac:(by rewrite Hdata)) as Hlc. rewrite Hdata in Hlc.
    rewrite length_app. pass.
    eexists. split; [done|]. rewrite take_app_length' by lia. split; [|done].
    assert (Hfit : (Z.to_nat (i * B) + length (chunk B data i) <= length (ext_mem e))%nat) by nia.
    split; [done|]. split; [cbn; rewrite length_splice; [done|lia]|]. split; [done|]. split.
    + intros j Hj. cbn [ext_mem]. rewrite lookup_splice by done.
      destruct (decide (Z.of_nat j `div` B = i)) as [Heq|Hne].
      * destruct (chunk_lookup i j Hi Heq Hj) as [Hr Hv]. rewrite decide_True by done.
        rewrite Hv, decide_True by set_solver. done.
      * rewrite decide_False by by apply chunk_lookup_other. rewrite Hmem by done.
        repeat case_decide; set_solver.
    + cbn [ext_bytes]. rewrite received_bytes_add by done. rewrite Hbytes.
      pose proof (received_bytes_le T). apply u64_small. lia.
Qed.

(** What the invariant says once every packet has arrived. *)
Lemma recv_inv_complete mem0 e T : recv_inv mem0 e T -> (forall i, 0 <= i < n -> i ∈ T) ->
  ext_mem e = data /\ ext_bytes e = size.
Proof.
  intros (_ & Hlen & _ & Hmem & Hbytes) Hall. assert (HB : 0 < B) by (unfold B; lia).
  pose proof n_bounds. split; [|by rewrite Hbytes, received_bytes_full].
  apply list_eq. intros j. destruct (decide (j < length data)%nat) as [Hj|Hj].
  - rewrite Hmem by done. rewrite decide_True; [done|]. apply Hall. split.
    + apply Z.div_pos; lia.
    + apply Z.div_lt_upper_bound; nia.
  - rewrite !lookup_ge_None_2 by lia. done.
Qed.

(** The deliveries of a run: [(i, region)] is packet [i] with the memory at its
    gradient pointer, whatever it holds when [CopyGradients] reads it. *)
Definition deliver (tos : Z) (e : LtMessageExt M) (d : Z * list Z) : outcome (LtMessageExt M) :=
  r ← CopyGradients e (chunk_packet max_segment src_id (lt_msg_id msg) size (lt_buf msg)
                         dst_id tos d.1) d.2;
  Ok (fst r).

(** The memory at the gradient pointer begins with bytes [i * B ...] of [data]. *)
Definition shows (d : Z * list Z) : Prop :=
  0 <= d.1 < n /\ exists rest, d.2 = chunk B data d.1 ++ rest.

Lemma chunk_packet_carries mid buf tos i :
  carries (chunk_packet max_segment src_id mid size buf dst_id tos i) i.
Proof. done. Qed.

Lemma deliver_all mem0 tos ds e T :
  recv_inv mem0 e T -> (forall d, d ∈ ds -> shows d) ->
  exists e', foldM (deliver tos) e ds = Ok e' /\
    recv_inv mem0 e' (T ∪ list_to_set (map fst ds)) /\ same_request e e'.
Proof.
  revert e T. induction ds as [|d ds IH]; intros e T He Hds.
  - exists e. split; [done|]. split; [|done]. cbn. by replace (T ∪ ∅) with T by set_solver.
  - destruct (Hds d ltac:(set_solver)) as (Hd1 & rest & Hd2).
    destruct (CopyGradients_step mem0 e T _ rest d.1 He Hd1
               (chunk_packet_carries (lt_msg_id msg) (lt_buf msg) tos d.1)) as (e1 & He1 & Hi1 & Hs1).
    assert (Hd : deliver tos e d = Ok e1) by (unfold deliver; by rewrite Hd2, He1).
    cbn [foldM]. rewrite Hd. cbn [mbind outcome_bind].
    destruct (IH e1 _ Hi1 ltac:(set_solver)) as (e2 & -> & Hi2 & Hs2).
    exists e2. split; [done|]. split.
    + cbn [map list_to_set]. by replace (T ∪ ({[d.1]} ∪ list_to_set (map fst ds)))
        with (T ∪ {[d.1]} ∪ list_to_set (map fst ds)) by set_solver.
    + unfold same_request in *. intuition congruence.
Qed.
End receiver.

(** ** Properties *)

(** C9: whatever packets of a message arrive, in any order and any number of
    times, the receiver (with the tree block manager it uses) copies them
    without a failure. [data] are the bytes that it finds at the gradient
    pointers of the packets when it copies them: they need not be those that
    were sent, and in the program they are not ([HandleReceive] writes the
    address of a payload over its first eight bytes, see [Delivery.reception]).
    Afterwards the bytes of the packets that arrived hold [data] and all other
    bytes are untouched, every payload byte is counted once, and the count
    reaches the message size exactly when all packets have arrived, in which
    case the whole memory is [data]. *)
Theorem transfer_any_order max_segment src_id dst_id msg data ds tos mid buf mem0
    (Hseg : 20 < max_segment < 2 ^ 16) (Hsize : 0 < lt_size msg < 2 ^ 32)
    (Hdata : Z.of_nat (length data) = lt_size msg)
    (Hmem0 : length mem0 = length data)
    (Hds : forall d, d ∈ ds -> 0 <= fst d < packets (max_segment - 20) (lt_size msg) /\
       exists rest, snd d = chunk (max_segment - 20) data (fst d) ++ rest) :
  let B := max_segment - 20 in
  let T : gset Z := list_to_set (map fst ds) in
  exists e : LtMessageExt TreeBlockMgr,
    foldM (deliver max_segment src_id dst_id msg tos)
      (LtMessageExt_new (mkLtMessage mid buf mem0 (lt_size msg))) ds = Ok e /\
    (forall j, (j < length data)%nat ->
       ext_mem e !! j = if decide (Z.of_nat j `div` B ∈ T) then data !! j else mem0 !! j) /\
    ext_bytes e = received_bytes B (lt_size msg) T /\
    (ext_bytes e = lt_size msg <-> forall i, 0 <= i < packets B (lt_size msg) -> i ∈ T) /\
    (ext_bytes e = lt_size msg -> ext_mem e = data).
Proof.
  intros B T. set (m := mkLtMessage (lt_msg_id msg) (lt_buf msg) data (lt_size msg)).
  pose proof (recv_inv_new (M := TreeBlockMgr) max_segment Hseg m Hsize Hdata mid buf mem0 Hmem0) as Hnew.
  destruct (deliver_all max_segment src_id dst_id Hseg m Hsize Hdata mem0 tos ds _ _ Hnew Hds)
    as (e & Hrun & He & _).
  replace (∅ ∪ _) with T in He by (unfold T; set_solver).
  pose proof (received_bytes_full max_segment Hseg m Hsize Hdata T) as Hfull.
  exists e. split; [exact Hrun|]. pose proof He as (_ & _ & _ & Hmem & Hbytes).
  split; [exact Hmem|]. split; [exact Hbytes|]. rewrite Hbytes. split; [exact Hfull|].
  intros Hf.
  by destruct (recv_inv_complete max_segment Hseg m Hsize Hdata mem0 e T He (proj1 Hfull Hf)).
Qed.

(** Packets 2 and 0, with the bytes that [HandleReceive] leaves of the payload
    of packet 0 (the first of the address 4116). *)
Lemma transfer_any_order_witness :
  exists e : LtMessageExt TreeBlockMgr,
    foldM (deliver 24 1 3 (mkLtMessage 7 4096 [1; 2; 3; 4; 5; 6; 7; 8; 9; 10] 10) 0)
      (LtMessageExt_new (mkLtMessage 7 0 [0; 0; 0; 0; 0; 0; 0; 0; 0; 0] 10))
      [(2, [9; 10; 5]); (0, [20; 16; 0; 0]); (2, [9; 10])] = Ok e /\ ext_bytes e = 6 /\
    ext_mem e !! 0%nat = Some 20 /\ ext_mem e !! 9%nat = Some 10 /\ ext_mem e !! 5%nat = Some 0.
Proof.
  destruct (transfer_any_order 24 1 3 (mkLtMessage 7 4096 [1; 2; 3; 4; 5; 6; 7; 8; 9; 10] 10)
    [20; 16; 0; 0; 5; 6; 7; 8; 9; 10]
    [(2, [9; 10; 5]); (0, [20; 16; 0; 0]); (2, [9; 10])] 0 7 0 [0; 0; 0; 0; 0; 0; 0; 0; 0; 0]
    ltac:(lia) ltac:(simpl; lia) eq_refl eq_refl) as (e & H1 & H0 & H2 & _).
  { intros d Hd. change (packets (24 - 20) _) with 3.
    apply elem_of_cons in Hd as [->|Hd]; [split; [simpl; lia|by exists [5]]|].
    apply elem_of_cons in Hd as [->|Hd]; [split; [simpl; lia|by exists []]|].
    apply elem_of_cons in Hd as [->|Hd]; [split; [simpl; lia|by exists []]|]. by apply elem_of_nil in Hd. }
  exists e. split; [exact H1|]. split; [rewrite H2; vm_compute; reflexivity|].
  split; [rewrite (H0 0%nat) by (simpl; lia); vm_compute; reflexivity|].
  split; [rewrite (H0 9%nat) by (simpl; lia); vm_compute; reflexivity|].
  rewrite (H0 5%nat) by (simpl; lia); vm_compute; reflexivity.
Defined.
