(* ===== verification/Comm.v ===== *)
(** The state that the threads of a communicator share, from
    src/src/mlt/{conn_meta.h, priority_channel.h, receiving_channel.h,
    rd_endpoint.h, reliable_channel.h, udp_endpoint.h, mlt_communicator.h}, and
    the state-and-outcome monad in which their handlers are written.

    [ConnMeta] objects are shared by pointer between the channels, so they live
    in a store [c_heap]; a pointer that is not in it dangles. The inter-thread
    queues are FIFO lists (Queues.v justifies this for the ring). *)

From S2P Require Import Prelude Bytes Runs BlockMgr GradPacket LtMessage Packetizer Floats Meter Wire Queues Framing.

Definition conn_ptr := Z.

(** ** Ordered maps: [std::map<int, V>] *)

(** [begin()]: the entry with the least key. *)
Definition lower {V} (kv : Z * V) (acc : option (Z * V)) : option (Z * V) :=
  match acc with
  | None => Some kv
  | Some kv' => if fst kv <? fst kv' then Some kv else Some kv'
  end.
Definition map_begin {V} (m : gmap Z V) : option (Z * V) := foldr lower None (map_to_list m).

Lemma foldr_lower_spec {V} (l : list (Z * V)) :
  match foldr lower None l with
  | None => l = []
  | Some kv => kv ∈ l /\ forall kv', kv' ∈ l -> fst kv <= fst kv'
  end.
Proof.
  induction l as [|kv l IH]; cbn [foldr]; [done|].
  destruct (foldr lower None l) as [kv'|]; unfold lower.
  - destruct IH as [Hin Hle]. destruct (Z.ltb_spec (fst kv) (fst kv')).
    + split; [set_solver|]. intros x [->|Hx]%elem_of_cons; [lia|]. pose proof (Hle x Hx). lia.
    + split; [set_solver|]. intros x [->|Hx]%elem_of_cons; [lia|]. by apply Hle.
  - subst. split; [set_solver|]. intros x Hx. apply list_elem_of_singleton in Hx as ->. lia.
Qed.

Lemma map_begin_singleton {V} k (v : V) : map_begin ({[k := v]} : gmap Z V) = Some (k, v).
Proof. unfold map_begin. by rewrite map_to_list_singleton. Qed.

Section state.
Context {M : Type}.

(** ** ConnMeta *)

Record SendRequest := mkSendRequest { sr_msg : LtMessageExt M; sr_prio : PktPrioFunc }.

Record RetransmitState := mkRetransmitState { rs_block_num : Z; rs_seq_num : Z }.

(** Backlog slots are addresses; [cm_backlog_buffer] is what they hold. *)
Record ConnMeta := mkConnMeta {
  cm_dest_comm_id : Z;
  cm_send_window : Z;
  cm_sending_rate : double;
  cm_sending_msgs : gmap Z SendRequest;
  cm_retransmitting_msgs : gmap Z SendRequest;
  cm_retransmit_reqs : gmap Z (Buffer * RetransmitState);
  cm_tx_meter : RateMeter;
  cm_rx_meter : RateMeter;
  cm_recv_msgs : gmap Z (LtMessageExt M);
  cm_backlog_buffer : gmap Z (list Z);
  cm_backlog_free_list : list Z;
  cm_backlog_used_map : gmap Z (list Z) }.

(** The constructor; [InitBacklog] returns at once unless
    [MLT_DISABLE_FLOW_BACKLOG] is 0. *)
Definition ConnMeta_new (dest send_window : Z) (sending_rate : double) (interval_us now : Z) : ConnMeta :=
  mkConnMeta dest send_window sending_rate ∅ ∅ ∅
    (RateMeter_new interval_us 0 now) (RateMeter_new interval_us 0 now) ∅ ∅ [] ∅.

(** The loop of [InitBacklog]: the condition compares [ptr] with itself plus
    the buffer size. *)
Fixpoint InitBacklog (fuel : nat) (ptr backlog_buffer_size max_segment : Z) (free_list : list Z) :
    outcome (list Z) :=
  match fuel with
  | O => OutOfFuel
  | S fuel' =>
      if ptr <? ptr + backlog_buffer_size
      then InitBacklog fuel' (ptr + max_segment) backlog_buffer_size max_segment (free_list ++ [ptr])
      else Ok free_list
  end.

Definition set_sending (c : ConnMeta) (sm rm : gmap Z SendRequest) : ConnMeta :=
  mkConnMeta (cm_dest_comm_id c) (cm_send_window c) (cm_sending_rate c) sm rm
    (cm_retransmit_reqs c) (cm_tx_meter c) (cm_rx_meter c) (cm_recv_msgs c)
    (cm_backlog_buffer c) (cm_backlog_free_list c) (cm_backlog_used_map c).

Definition set_rate (c : ConnMeta) (r : double) : ConnMeta :=
  mkConnMeta (cm_dest_comm_id c) (cm_send_window c) r (cm_sending_msgs c)
    (cm_retransmitting_msgs c) (cm_retransmit_reqs c) (cm_tx_meter c) (cm_rx_meter c)
    (cm_recv_msgs c) (cm_backlog_buffer c) (cm_backlog_free_list c) (cm_backlog_used_map c).

Definition set_retransmit_reqs (c : ConnMeta) (r : gmap Z (Buffer * RetransmitState)) : ConnMeta :=
  mkConnMeta (cm_dest_comm_id c) (cm_send_window c) (cm_sending_rate c) (cm_sending_msgs c)
    (cm_retransmitting_msgs c) r (cm_tx_meter c) (cm_rx_meter c)
    (cm_recv_msgs c) (cm_backlog_buffer c) (cm_backlog_free_list c) (cm_backlog_used_map c).

Definition set_tx_meter (c : ConnMeta) (m : RateMeter) : ConnMeta :=
  mkConnMeta (cm_dest_comm_id c) (cm_send_window c) (cm_sending_rate c) (cm_sending_msgs c)
    (cm_retransmitting_msgs c) (cm_retransmit_reqs c) m (cm_rx_meter c)
    (cm_recv_msgs c) (cm_backlog_buffer c) (cm_backlog_free_list c) (cm_backlog_used_map c).

Definition set_rx_meter (c : ConnMeta) (m : RateMeter) : ConnMeta :=
  mkConnMeta (cm_dest_comm_id c) (cm_send_window c) (cm_sending_rate c) (cm_sending_msgs c)
    (cm_retransmitting_msgs c) (cm_retransmit_reqs c) (cm_tx_meter c) m
    (cm_recv_msgs c) (cm_backlog_buffer c) (cm_backlog_free_list c) (cm_backlog_used_map c).

Definition set_recv_msgs (c : ConnMeta) (r : gmap Z (LtMessageExt M)) : ConnMeta :=
  mkConnMeta (cm_dest_comm_id c) (cm_send_window c) (cm_sending_rate c) (cm_sending_msgs c)
    (cm_retransmitting_msgs c) (cm_retransmit_reqs c) (cm_tx_meter c) (cm_rx_meter c)
    r (cm_backlog_buffer c) (cm_backlog_free_list c) (cm_backlog_used_map c).

Definition set_backlog (c : ConnMeta) (buffer : gmap Z (list Z)) (free : list Z)
    (used : gmap Z (list Z)) : ConnMeta :=
  mkConnMeta (cm_dest_comm_id c) (cm_send_window c) (cm_sending_rate c) (cm_sending_msgs c)
    (cm_retransmitting_msgs c) (cm_retransmit_reqs c) (cm_tx_meter c) (cm_rx_meter c)
    (cm_recv_msgs c) buffer free used.

(** ** Channels *)

Record UdpEndpoint := mkUdpEndpoint { ue_tos : Z; ue_tx_queue : list GradPacket }.

(** [PriorityChannel::Notification] *)
Inductive PrioNotification :=
| ADD_CONNECTION (conn : conn_ptr)
| REMOVE_CONNECTION (conn : conn_ptr)
| STOP_FLOW (flow_id : Z)
| REQUEST_RETRANSMIT (req_buffer : Buffer).

(** [ReceivingChannel::Notification] *)
Inductive RecvNotification :=
| FINISH_FLOW (msg_id max_seq_num : Z) (conn : conn_ptr)
| CONFIRM_STOP (msg_id : Z) (conn : conn_ptr).

Record PriorityChannel := mkPriorityChannel {
  pc_prio_mapping : list Z;                 (** 256 entries, -1 when unused *)
  pc_prio_endpoints : list UdpEndpoint;
  pc_notification_queue : list PrioNotification;
  pc_sr_queue : list (Z * LtMessageExt M * PktPrioFunc);
  pc_conn_metas : list conn_ptr;
  pc_conn_meta_map : gmap Z Z;
  pc_meter : Meter }.

(** [buf] of [ReceivingChannel::Run] is the memory [rc_buf] at address
    [rc_addr]. *)
Record ReceivingChannel := mkReceivingChannel {
  rc_buf : list Z;
  rc_addr : Z;
  rc_rr_queue : list (conn_ptr * LtMessage * double);
  rc_notification_queue : list RecvNotification;
  rc_meter : Meter }.                       (** local to [Run] *)

Record RdEndpoint := mkRdEndpoint {
  re_conn_meta : conn_ptr;
  re_tx_queue : list Buffer;
  re_rx : RdRx;                             (** [rx_buffers_] and [is_dead_] *)
  re_msg_max_seq : gmap Z Z }.

(** [ReliableChannel::Notification] *)
Inductive RelNotification :=
| ADD_ENDPOINT (endpoint : RdEndpoint)
| REMOVE_ENDPOINT (dest_comm_id : Z).

(** A null [shared_ptr] in [ctrl_endpoints_] is [None]. *)
Record ReliableChannel := mkReliableChannel {
  rl_ctrl_endpoints : gmap Z (option RdEndpoint);
  rl_tx_queue : list (Z * Buffer);
  rl_notification_queue : list RelNotification }.

(** A null [unique_ptr] in [id_conn_] is [None]. [c_ticks] counts the readings
    of the clock. *)
Record Comm := mkComm {
  c_comm_id : Z;
  c_id_conn : gmap Z (option conn_ptr);
  c_heap : gmap conn_ptr ConnMeta;
  c_next : conn_ptr;
  c_cq : list Completion;
  c_prio : PriorityChannel;
  c_recv : ReceivingChannel;
  c_rel : ReliableChannel;
  c_meta_queue : list (Z * Buffer);
  c_ticks : nat }.

Definition set_heap (s : Comm) (h : gmap conn_ptr ConnMeta) : Comm :=
  mkComm (c_comm_id s) (c_id_conn s) h (c_next s) (c_cq s) (c_prio s) (c_recv s) (c_rel s)
    (c_meta_queue s) (c_ticks s).
Definition set_id_conn (s : Comm) (m : gmap Z (option conn_ptr)) : Comm :=
  mkComm (c_comm_id s) m (c_heap s) (c_next s) (c_cq s) (c_prio s) (c_recv s) (c_rel s)
    (c_meta_queue s) (c_ticks s).
Definition set_cq (s : Comm) (q : list Completion) : Comm :=
  mkComm (c_comm_id s) (c_id_conn s) (c_heap s) (c_next s) q (c_prio s) (c_recv s) (c_rel s)
    (c_meta_queue s) (c_ticks s).
Definition set_prio (s : Comm) (p : PriorityChannel) : Comm :=
  mkComm (c_comm_id s) (c_id_conn s) (c_heap s) (c_next s) (c_cq s) p (c_recv s) (c_rel s)
    (c_meta_queue s) (c_ticks s).
Definition set_recv (s : Comm) (r : ReceivingChannel) : Comm :=
  mkComm (c_comm_id s) (c_id_conn s) (c_heap s) (c_next s) (c_cq s) (c_prio s) r (c_rel s)
    (c_meta_queue s) (c_ticks s).
Definition set_rel (s : Comm) (r : ReliableChannel) : Comm :=
  mkComm (c_comm_id s) (c_id_conn s) (c_heap s) (c_next s) (c_cq s) (c_prio s) (c_recv s) r
    (c_meta_queue s) (c_ticks s).
Definition set_meta_queue (s : Comm) (q : list (Z * Buffer)) : Comm :=
  mkComm (c_comm_id s) (c_id_conn s) (c_heap s) (c_next s) (c_cq s) (c_prio s) (c_recv s)
    (c_rel s) q (c_ticks s).
Definition set_ticks (s : Comm) (t : nat) : Comm :=
  mkComm (c_comm_id s) (c_id_conn s) (c_heap s) (c_next s) (c_cq s) (c_prio s) (c_recv s)
    (c_rel s) (c_meta_queue s) t.

(** ** Handlers: state passing with an outcome *)

Definition cm (A : Type) : Type := Comm -> outcome (A * Comm).
End state.
Arguments SendRequest : clear implicits.
Arguments ConnMeta : clear implicits.
Arguments PriorityChannel : clear implicits.
Arguments Comm : clear implicits.
Arguments cm : clear implicits.

#[global] Instance cm_ret M : MRet (cm M) := fun A a s => Ok (a, s).
#[global] Instance cm_bind M : MBind (cm M) := fun A B f m s =>
  match m s with
  | Ok (a, s') => f a s'
  | Fatal => Fatal
  | Undef => Undef
  | OutOfFuel => OutOfFuel
  end.

Section monad.
Context {M : Type}.

Definition lift {A} (o : outcome A) : cm M A := fun s => a ← o; Ok (a, s).
Definition get : cm M (Comm M) := fun s => Ok (s, s).
Definition gets {A} (f : Comm M -> A) : cm M A := fun s => Ok (f s, s).
Definition modify (f : Comm M -> Comm M) : cm M unit := fun s => Ok (tt, f s).
Definition fatal {A} : cm M A := fun _ => Fatal.

(** [Clock::now()] *)
Definition clock_now (clock : nat -> Z) : cm M Z := fun s => Ok (clock (c_ticks s), set_ticks s (S (c_ticks s))).

(** Access through a [ConnMeta*]. *)
Definition load_conn (p : conn_ptr) : cm M (ConnMeta M) := fun s => c ← deref (c_heap s !! p); Ok (c, s).
Definition store_conn (p : conn_ptr) (c : ConnMeta M) : cm M unit :=
  fun s => DEFINED (bool_decide (is_Some (c_heap s !! p)));; Ok (tt, set_heap s (<[p := c]> (c_heap s))).

(** [comm_->reliable_channel_->Enqueue(dest, std::move(buffer))] *)
Definition Reliable_Enqueue (dest : Z) (b : Buffer) : cm M unit :=
  modify (fun s => set_rel s (mkReliableChannel (rl_ctrl_endpoints (c_rel s))
    (rl_tx_queue (c_rel s) ++ [(dest, b)]) (rl_notification_queue (c_rel s)))).

(** [comm_->cq_->Push(comp)] *)
Definition cq_Push (comp : Completion) : cm M unit :=
  modify (fun s => set_cq s (CompletionQueue_Push (c_cq s) comp)).

(** [PriorityChannel::Notify] and [ReceivingChannel::Notify] *)
Definition Prio_Notify (n : PrioNotification) : cm M unit :=
  modify (fun s => let p := c_prio s in
    set_prio s (mkPriorityChannel (pc_prio_mapping p) (pc_prio_endpoints p)
      (pc_notification_queue p ++ [n]) (pc_sr_queue p) (pc_conn_metas p) (pc_conn_meta_map p)
      (pc_meter p))).
Definition Recv_Notify (n : RecvNotification) : cm M unit :=
  modify (fun s => let r := c_recv s in
    set_recv s (mkReceivingChannel (rc_buf r) (rc_addr r) (rc_rr_queue r)
      (rc_notification_queue r ++ [n]) (rc_meter r))).

Fixpoint forM {A} (l : list A) (f : A -> cm M unit) : cm M unit :=
  match l with
  | [] => mret tt
  | a :: l' => f a;; forM l' f
  end.

(** [while (queue.TryPop(&x)) handle(x)] *)
Fixpoint drain {A} (fuel : nat) (pop : cm M (option A)) (handle : A -> cm M unit) : cm M unit :=
  match fuel with
  | O => fun _ => OutOfFuel
  | S fuel' =>
      x ← pop;
      match x with
      | None => mret tt
      | Some a => handle a;; drain fuel' pop handle
      end
  end.

Lemma cm_bind_Ok {A B} (m : cm M A) (f : A -> cm M B) s a s' :
  m s = Ok (a, s') -> (m ≫= f) s = f a s'.
Proof. intros H. unfold mbind, cm_bind. by rewrite H. Qed.

Lemma lift_ok {A} (o : outcome A) a s : o = Ok a -> lift o s = Ok (a, s).
Proof. by intros ->. Qed.
End monad.

(** Run the first statement of a handler: one that returned by [H], or a pure
    computation with the result given by [H]. *)
Ltac step H := rewrite (cm_bind_Ok _ _ _ _ _ H).
Ltac lift_step H := rewrite (cm_bind_Ok _ _ _ _ _ (lift_ok _ _ _ H)).
