(* ===== verification/PriorityChannel.v ===== *)
(** The sending side: src/src/mlt/priority_channel.cc, the routing of
    src/src/mlt/packetizer.cc and the UDP endpoints of
    src/src/mlt/udp_endpoint.cc. One iteration of the thread's loop is
    [Prio_Run_once]. *)

From S2P Require Import Prelude Bytes Runs BlockMgr GradPacket LtMessage Packetizer Floats Meter Wire Queues Framing Comm.

(** ** UdpEndpoint *)

(** Result of one [SendMsg]. *)
Inductive udp_event := UdpSent (nbytes : Z) | UdpBlock | UdpError.

Section udp.
(** [AddrFromCommId], which throws for an unknown communicator. *)
Context {SockAddr : Type} (addr_of : Z -> outcome SockAddr).

(** [UdpEndpoint::OnSendReady]: the queue afterwards, the packets sent with
    their destination, and the number of bytes. When the events are exhausted the
    socket would block. *)
Fixpoint Udp_OnSendReady (tx_queue : list GradPacket) (evs : list udp_event) :
    outcome (list GradPacket * list (SockAddr * GradPacket) * Z) :=
  match tx_queue with
  | [] => Ok ([], [], 0)
  | pkt :: q =>
      addr ← addr_of (pkt_dst_comm_id pkt);
      match evs with
      | [] | UdpBlock :: _ => Ok (q, [], 0)
      | UdpError :: _ => Fatal
      | UdpSent nbytes :: evs' =>
          CHECK (nbytes =? pkt_len pkt);;
          r ← Udp_OnSendReady q evs';
          let '(q', sent, total) := r in Ok (q', (addr, pkt) :: sent, nbytes + total)
      end
  end.
End udp.

Section channel.
Context {M : Type} `{BlockMgr M}.
(** [MaxSegment()], the clock, [malloc], and the contents of an uninitialised
    [GradPacket]. *)
Context (max_segment : Z) (clock : nat -> Z) (malloc : Z -> list Z) (uninit : GradPacket).

Definition kMaxPrio : Z := 256.

Definition set_endpoints (p : PriorityChannel M) (mapping : list Z) (eps : list UdpEndpoint) :
    PriorityChannel M :=
  mkPriorityChannel mapping eps (pc_notification_queue p) (pc_sr_queue p) (pc_conn_metas p)
    (pc_conn_meta_map p) (pc_meter p).
Definition set_sr_queue (p : PriorityChannel M) q : PriorityChannel M :=
  mkPriorityChannel (pc_prio_mapping p) (pc_prio_endpoints p) (pc_notification_queue p) q
    (pc_conn_metas p) (pc_conn_meta_map p) (pc_meter p).
Definition set_conns (p : PriorityChannel M) (l : list conn_ptr) (m : gmap Z Z) : PriorityChannel M :=
  mkPriorityChannel (pc_prio_mapping p) (pc_prio_endpoints p) (pc_notification_queue p)
    (pc_sr_queue p) l m (pc_meter p).
Definition set_meter (p : PriorityChannel M) (m : Meter) : PriorityChannel M :=
  mkPriorityChannel (pc_prio_mapping p) (pc_prio_endpoints p) (pc_notification_queue p)
    (pc_sr_queue p) (pc_conn_metas p) (pc_conn_meta_map p) m.
Definition set_prio_notifications (p : PriorityChannel M) q : PriorityChannel M :=
  mkPriorityChannel (pc_prio_mapping p) (pc_prio_endpoints p) q
    (pc_sr_queue p) (pc_conn_metas p) (pc_conn_meta_map p) (pc_meter p).

(** The constructor. *)
Definition PriorityChannel_new (meter : Meter) : PriorityChannel M :=
  mkPriorityChannel (replicate 256 (-1)) [] [] [] [] ∅ meter.

Definition modify_prio (f : PriorityChannel M -> PriorityChannel M) : cm M unit :=
  modify (fun s => set_prio s (f (c_prio s))).

(** [AddEndpoint] of a fresh endpoint with the given type of service. *)
Definition AddEndpoint (p : PriorityChannel M) (ep : UdpEndpoint) : outcome (PriorityChannel M) :=
  CHECK ((0 <=? ue_tos ep) && (ue_tos ep <? kMaxPrio));;
  m ← deref (pc_prio_mapping p !! Z.to_nat (ue_tos ep));
  CHECK (m =? -1);;
  Ok (set_endpoints p
        (<[Z.to_nat (ue_tos ep) := Z.of_nat (length (pc_prio_endpoints p))]> (pc_prio_mapping p))
        (pc_prio_endpoints p ++ [ep])).

(** The loop of [MLTCommunicator::Start] that opens the endpoints. *)
Definition Start_endpoints (p : PriorityChannel M) (num_priorities : Z) : outcome (PriorityChannel M) :=
  foldM (fun p i =>
    let dscp := i * 8 in
    foldM (fun p ecn => AddEndpoint p (mkUdpEndpoint (Z.lor (Z.shiftl dscp 2) ecn) [])) p [1; 0])
    p (seqZ 0 num_priorities).

Definition HasPrio (p : PriorityChannel M) (tos : Z) : bool :=
  (0 <=? tos) && (tos <? kMaxPrio) &&
  match pc_prio_mapping p !! Z.to_nat tos with Some m => negb (m =? -1) | None => false end.

Definition Prio_Enqueue (dest : Z) (msg : LtMessage) (prio_func : PktPrioFunc) : cm M unit :=
  modify_prio (fun p => set_sr_queue p (pc_sr_queue p ++ [(dest, LtMessageExt_new msg, prio_func)])).

(** [Packetizer::RoutePacket]: [prio_endpoints_[prio_mapping_[pkt.tos]]]. *)
Definition route_endpoint (p : PriorityChannel M) (pkt : GradPacket) : outcome (PriorityChannel M) :=
  m ← deref (pc_prio_mapping p !! Z.to_nat (pkt_tos pkt));
  DEFINED (0 <=? m);;
  ep ← deref (pc_prio_endpoints p !! Z.to_nat m);
  Ok (set_endpoints p (pc_prio_mapping p)
        (<[Z.to_nat m := mkUdpEndpoint (ue_tos ep) (ue_tx_queue ep ++ [pkt])]> (pc_prio_endpoints p))).

Definition RoutePacket (pkt : GradPacket) (is_finished : bool) : cm M unit :=
  p ← gets c_prio;
  p ← lift (route_endpoint p pkt);
  modify (fun s => set_prio s p);;
  if is_finished then
    b ← lift (make_FlowFinish malloc (pkt_msg_id pkt));
    Reliable_Enqueue (pkt_dst_comm_id pkt) b
  else mret tt.

(** [conn_metas_[conn_meta_map_[comm_id]]]; [operator[]] inserts 0 for a
    missing key. *)
Definition FindConnMetaById (comm_id : Z) : cm M conn_ptr :=
  p ← gets c_prio;
  let i := default 0 (pc_conn_meta_map p !! comm_id) in
  modify_prio (fun p => set_conns p (pc_conn_metas p) (<[comm_id := i]> (pc_conn_meta_map p)));;
  lift (deref (pc_conn_metas p !! Z.to_nat i)).

(** [meter_.Add(len)] *)
Definition add_meter (len : Z) : cm M unit :=
  p ← gets c_prio;
  now ← clock_now clock;
  r ← lift (Meter_Add (pc_meter p) len now);
  modify_prio (fun p => set_meter p (fst r)).

(** [if (tx_meter.Elapsed()) tx_meter.Clear(); tx_meter.Update(nbytes)] *)
Definition update_tx_meter (ptr : conn_ptr) (nbytes : Z) : cm M unit :=
  c ← load_conn ptr;
  now ← clock_now clock;
  r ← lift (RateMeter_Elapsed (cm_tx_meter c) now);
  now' ← clock_now clock;
  let m := if snd r : bool then RateMeter_Clear (fst r) now' else fst r in
  m ← lift (RateMeter_Update m nbytes);
  store_conn ptr (set_tx_meter c m).

(** [tx_meter.TryBytesPerSecond(nbytes) > sending_rate] *)
Definition throttled (c : ConnMeta M) (nbytes now : Z) : bool :=
  f64_gt (RateMeter_TryBytesPerSecond (cm_tx_meter c) nbytes now) (cm_sending_rate c).

(** [retransmitting_msgs.insert(sending_msgs.extract(msg_id))]; [insert] keeps
    an entry that is already there. *)
Definition move_to_retransmitting (c : ConnMeta M) (msg_id : Z) : ConnMeta M :=
  match cm_sending_msgs c !! msg_id with
  | None => c
  | Some sr =>
      set_sending c (delete msg_id (cm_sending_msgs c))
        (match cm_retransmitting_msgs c !! msg_id with
         | Some _ => cm_retransmitting_msgs c
         | None => <[msg_id := sr]> (cm_retransmitting_msgs c)
         end)
  end.

(** Body of the loop of [PollSendingMessages] for one connection. *)
Definition poll_sending (ptr : conn_ptr) : cm M Z :=
  c ← load_conn ptr;
  let dest := cm_dest_comm_id c in
  match map_begin (cm_sending_msgs c) with
  | None => mret 0
  | Some (key, sr) =>
      let msg := sr_msg sr in
      let nbytes := GetBytes max_segment msg in
      now ← clock_now clock;
      if throttled c nbytes now then mret 0
      else
        self ← gets c_comm_id;
        r ← lift (PartitionOne max_segment self uninit dest msg (sr_prio sr));
        let '(pkt, msg) := r in
        store_conn ptr (set_sending c (<[key := mkSendRequest msg (sr_prio sr)]> (cm_sending_msgs c))
                          (cm_retransmitting_msgs c));;
        RoutePacket pkt (negb (pkt_is_last pkt =? 0));;
        add_meter (pkt_len pkt);;
        update_tx_meter ptr nbytes;;
        c ← load_conn ptr;
        (if ext_size msg <=? ext_bytes msg
         then store_conn ptr (move_to_retransmitting c (s32 (ext_msg_id msg)))
         else mret tt);;
        mret (pkt_len pkt)
  end.

Fixpoint sumM (l : list conn_ptr) (f : conn_ptr -> cm M Z) : cm M Z :=
  match l with
  | [] => mret 0
  | p :: l' => n ← f p; rest ← sumM l' f; mret (u64 (n + rest))
  end.

Definition PollSendingMessages : cm M Z :=
  p ← gets c_prio; sumM (pc_conn_metas p) poll_sending.

(** [hdr->blocks[i]] *)
Definition load_block (b : Buffer) (i : Z) : outcome Block :=
  f ← load32 b (fld_blocks + 8 * i);
  l ← load32 b (fld_blocks + 8 * i + 4);
  Ok (mkBlock f l).

(** [state->seq_num++] and the step to the next block. *)
Definition next_state (b : Buffer) (st : RetransmitState) (block : Block) (num_blocks : Z) :
    outcome RetransmitState :=
  let seq := u32 (rs_seq_num st + 1) in
  if seq =? last block then
    let bn := u32 (rs_block_num st + 1) in
    if bn <? num_blocks then blk ← load_block b bn; Ok (mkRetransmitState bn (first blk))
    else Ok (mkRetransmitState bn seq)
  else Ok (mkRetransmitState (rs_block_num st) seq).

(** Body of the loop of [PollRetransmitRequest] for one connection. *)
Definition poll_retransmit (ptr : conn_ptr) : cm M Z :=
  c ← load_conn ptr;
  let dest := cm_dest_comm_id c in
  match map_begin (cm_retransmit_reqs c) with
  | None => mret 0
  | Some (key, (buffer, st)) =>
      comm_id ← lift (load_int buffer fld_comm_id);
      lift (CHECK (dest =? comm_id));;
      msg_id ← lift (load_int buffer fld_msg_id);
      match cm_retransmitting_msgs c !! msg_id with
      | None => fatal
      | Some sr =>
          let msg := sr_msg sr in
          let nbytes := GetBytes max_segment msg in
          now ← clock_now clock;
          if throttled c nbytes now then mret 0
          else
            num_blocks ← lift (load32 buffer fld_num_blocks);
            lift (CHECK (rs_block_num st <? num_blocks));;
            block ← lift (load_block buffer (rs_block_num st));
            lift (CHECK ((first block <=? rs_seq_num st) && (rs_seq_num st <? last block)));;
            self ← gets c_comm_id;
            pkt ← lift (PartitionOneBySeq max_segment self uninit comm_id msg (sr_prio sr)
                          (s32 (rs_seq_num st)));
            RoutePacket pkt ((u32 (rs_block_num st + 1) =? num_blocks) &&
                             (u32 (rs_seq_num st + 1) =? last block));;
            add_meter (pkt_len pkt);;
            update_tx_meter ptr nbytes;;
            st' ← lift (next_state buffer st block num_blocks);
            c ← load_conn ptr;
            let reqs := <[key := (buffer, st')]> (cm_retransmit_reqs c) in
            store_conn ptr (set_retransmit_reqs c
              (if rs_block_num st' =? num_blocks then delete (s32 (ext_msg_id msg)) reqs else reqs));;
            mret (pkt_len pkt)
      end
  end.

Definition PollRetransmitRequest : cm M Z :=
  p ← gets c_prio; sumM (pc_conn_metas p) poll_retransmit.

(** ** Notifications *)

Definition StopFlow (flow_id : Z) : cm M unit :=
  let '(comm_id, msg_id) := DecodeFlow flow_id in
  ptr ← FindConnMetaById comm_id;
  c ← load_conn ptr;
  (match cm_sending_msgs c !! msg_id with
   | None =>
       store_conn ptr
         (set_retransmit_reqs
            (set_sending c (cm_sending_msgs c) (delete msg_id (cm_retransmitting_msgs c)))
            (delete msg_id (cm_retransmit_reqs c)))
   | Some _ =>
       store_conn ptr (set_sending c (delete msg_id (cm_sending_msgs c)) (cm_retransmitting_msgs c))
   end);;
  b ← lift (make_StopConfirm malloc msg_id);
  Reliable_Enqueue comm_id b;;
  cq_Push (mkCompletion msg_id CompSend comm_id 0).

(** [conn_metas_.erase(std::find(...))]: erasing [end()] is undefined. *)
Definition erase_conn (l : list conn_ptr) (p : conn_ptr) : outcome (list conn_ptr) :=
  match list_find (fun x => x = p) l with
  | Some (i, _) => Ok (delete i l)
  | None => Undef
  end.

(** [comm_->id_conn_[comm_id].reset()] deletes the object. *)
Definition reset_id_conn (comm_id : Z) : cm M unit :=
  modify (fun s =>
    let s := set_heap s (match c_id_conn s !! comm_id with
                         | Some (Some p) => delete p (c_heap s)
                         | _ => c_heap s
                         end) in
    set_id_conn s (<[comm_id := None]> (c_id_conn s))).

Definition handle_prio_notification (n : PrioNotification) : cm M unit :=
  match n with
  | ADD_CONNECTION conn =>
      c ← load_conn conn;
      modify_prio (fun p => set_conns p (pc_conn_metas p ++ [conn])
        (<[cm_dest_comm_id c := Z.of_nat (length (pc_conn_metas p))]> (pc_conn_meta_map p)))
  | REMOVE_CONNECTION conn =>
      c ← load_conn conn;
      let comm_id := cm_dest_comm_id c in
      p ← gets c_prio;
      l ← lift (erase_conn (pc_conn_metas p) conn);
      modify_prio (fun p => set_conns p l (delete comm_id (pc_conn_meta_map p)));;
      reset_id_conn comm_id
  | STOP_FLOW flow_id => StopFlow flow_id
  | REQUEST_RETRANSMIT buffer =>
      ty ← lift (load32 buffer fld_type);
      lift (CHECK (ty =? signal_code kRetransmitRequest));;
      num_blocks ← lift (load32 buffer fld_num_blocks);
      lift (CHECK (0 <? num_blocks));;
      comm_id ← lift (load_int buffer fld_comm_id);
      msg_id ← lift (load_int buffer fld_msg_id);
      ptr ← FindConnMetaById comm_id;
      blk ← lift (load_block buffer 0);
      c ← load_conn ptr;
      store_conn ptr (set_retransmit_reqs c
        (<[msg_id := (buffer, mkRetransmitState 0 (first blk))]> (cm_retransmit_reqs c)))
  end.

Definition pop_prio_notification : cm M (option PrioNotification) :=
  p ← gets c_prio;
  match pc_notification_queue p with
  | [] => mret None
  | n :: q => modify_prio (fun p => set_prio_notifications p q);; mret (Some n)
  end.

Definition Prio_PollNotification : cm M unit :=
  p ← gets c_prio;
  drain (S (length (pc_notification_queue p))) pop_prio_notification handle_prio_notification.

(** ** The loop of [Run] *)

(** A request popped from [sr_queue_]. *)
Definition handle_send_request (r : Z * LtMessageExt M * PktPrioFunc) : cm M unit :=
  let '(dest, msg, prio_func) := r in
  ptr ← FindConnMetaById dest;
  c ← load_conn ptr;
  let msg_id := s32 (ext_msg_id msg) in
  lift (CHECK (bool_decide (cm_sending_msgs c !! msg_id = None)));;
  store_conn ptr (set_sending c (<[msg_id := mkSendRequest msg prio_func]> (cm_sending_msgs c))
                    (cm_retransmitting_msgs c)).

Definition pop_send_request : cm M (option (Z * LtMessageExt M * PktPrioFunc)) :=
  p ← gets c_prio;
  match pc_sr_queue p with
  | [] => mret None
  | r :: q => modify_prio (fun p => set_sr_queue p q);; mret (Some r)
  end.

(** Writable endpoints of an [EpollWait], as index and [SendMsg] results; the
    datagrams go to the network. *)
Definition handle_epollout {SockAddr} (addr_of : Z -> outcome SockAddr)
    (ev : nat * list udp_event) : cm M (list (SockAddr * GradPacket)) :=
  p ← gets c_prio;
  ep ← lift (deref (pc_prio_endpoints p !! fst ev));
  r ← lift (Udp_OnSendReady addr_of (ue_tx_queue ep) (snd ev));
  let '(q, sent, _) := r in
  modify_prio (fun p => set_endpoints p (pc_prio_mapping p)
    (<[fst ev := mkUdpEndpoint (ue_tos ep) q]> (pc_prio_endpoints p)));;
  mret sent.

Fixpoint epoll_round {SockAddr} (addr_of : Z -> outcome SockAddr)
    (evs : list (nat * list udp_event)) : cm M (list (SockAddr * GradPacket)) :=
  match evs with
  | [] => mret []
  | ev :: evs' =>
      sent ← handle_epollout addr_of ev;
      rest ← epoll_round addr_of evs';
      mret (sent ++ rest)
  end.

Fixpoint poll_rounds (n : nat) : cm M Z :=
  match n with
  | O => mret 0
  | S n' =>
      a ← PollSendingMessages;
      b ← PollRetransmitRequest;
      rest ← poll_rounds n';
      mret (u64 (a + b + rest))
  end.

(** One turn of the [while] loop of [Run]. *)
Definition Prio_Run_once {SockAddr} (addr_of : Z -> outcome SockAddr)
    (evs : list (nat * list udp_event)) : cm M (list (SockAddr * GradPacket)) :=
  sent ← epoll_round addr_of evs;
  p ← gets c_prio;
  drain (S (length (pc_sr_queue p))) pop_send_request handle_send_request;;
  total_len ← poll_rounds 100;
  Prio_PollNotification;;
  mret sent.
End channel.

(** ** Steps of the handlers *)

Section steps.
Context {M : Type} `{BlockMgr M}.
Context (max_segment : Z) (clock : nat -> Z) (malloc : Z -> list Z) (uninit : GradPacket).
Context (Hmalloc : forall n, 0 <= n -> Z.of_nat (length (malloc n)) = n).
Implicit Types s : Comm M.

Lemma add_meter_ok len s : m_cnt (pc_meter (c_prio s)) + 1 < 2 ^ 31 ->
  exists m', add_meter clock len s =
    Ok (tt, set_prio (set_ticks s (S (c_ticks s))) (set_meter (c_prio s) m')) /\
    m_cnt m' = m_cnt (pc_meter (c_prio s)) + 1.
Proof.
  intros Hc. unfold add_meter, mbind, cm_bind, gets, clock_now, lift, modify_prio, modify, Meter_Add.
  rewrite (DEFINED_true _) by (b2p; lia). unfold mbind, outcome_bind.
  destruct (_ =? m_sample _); [destruct (_ <=? _)|]; eexists; split; reflexivity.
Qed.

Lemma update_tx_meter_ok ptr c nbytes s :
  c_heap s !! ptr = Some c -> 0 <= rm_scnt (cm_tx_meter c) -> rm_scnt (cm_tx_meter c) + 2 < 2 ^ 31 ->
  exists m', update_tx_meter clock ptr nbytes s =
    Ok (tt, set_heap (set_ticks s (S (S (c_ticks s)))) (<[ptr := set_tx_meter c m']> (c_heap s))) /\
    rm_scnt m' <= rm_scnt (cm_tx_meter c) + 2 /\ 0 <= rm_scnt m'.
Proof.
  intros Hp H0 Hs. unfold update_tx_meter, mbind, cm_bind, load_conn, clock_now, lift.
  rewrite Hp. cbn [deref mbind outcome_bind]. unfold RateMeter_Elapsed, RateMeter_Update, store_conn.
  rewrite (DEFINED_true _) by (b2p; lia). cbn [mbind outcome_bind fst snd].
  destruct (rm_sample (cm_tx_meter c) <=? rm_scnt (cm_tx_meter c) + 1);
    [destruct (_ <=? _)|]; cbn [fst snd mbind outcome_bind RateMeter_Clear rm_scnt];
    rewrite (DEFINED_true _) by (b2p; lia);
    cbn [mbind outcome_bind c_heap set_ticks]; rewrite Hp, bool_decide_true by eauto;
    eexists; (split; [reflexivity|cbn [rm_scnt]; lia]).
Qed.

(** Routing, and the notification that the flow is finished. *)
Lemma RoutePacket_ok pkt (fin : bool) s p' :
  route_endpoint (c_prio s) pkt = Ok p' ->
  exists bs, RoutePacket malloc pkt fin s =
    Ok (tt, let s1 := set_prio s p' in
            set_rel s1 (mkReliableChannel (rl_ctrl_endpoints (c_rel s)) (rl_tx_queue (c_rel s) ++ bs)
                          (rl_notification_queue (c_rel s)))) /\
    if fin then exists b, bs = [(pkt_dst_comm_id pkt, b)] /\ holds_signal b (SigFlowFinish (pkt_msg_id pkt))
    else bs = [].
Proof.
  intros Hr. unfold RoutePacket, mbind, cm_bind, gets, lift. rewrite Hr. cbn [mbind outcome_bind].
  unfold modify. destruct fin.
  - destruct (make_FlowFinish_holds malloc Hmalloc (pkt_msg_id pkt)) as (b & -> & Hb).
    cbn [mbind outcome_bind]. eexists. split; [reflexivity|]. by exists b.
  - exists []. split; [|done]. rewrite app_nil_r. unfold mret, cm_ret, set_rel, set_prio. cbn.
    by destruct s as [? ? ? ? ? ? ? [] ? ?].
Qed.

Lemma route_endpoint_meter (p p' : PriorityChannel M) pkt : route_endpoint p pkt = Ok p' ->
  pc_meter p' = pc_meter p /\ pc_conn_metas p' = pc_conn_metas p /\
  pc_prio_mapping p' = pc_prio_mapping p /\ length (pc_prio_endpoints p') = length (pc_prio_endpoints p).
Proof.
  unfold route_endpoint. intros Hr. inv_ok. subst p'. cbn. by rewrite length_insert.
Qed.

(** The type of service has an endpoint. *)
Definition routable (p : PriorityChannel M) (tos : Z) : Prop :=
  exists m, pc_prio_mapping p !! Z.to_nat tos = Some m /\
    0 <= m < Z.of_nat (length (pc_prio_endpoints p)).

Lemma routable_route (p : PriorityChannel M) pkt : routable p (pkt_tos pkt) -> exists p', route_endpoint p pkt = Ok p'.
Proof.
  intros (m & Hm & Hr). unfold route_endpoint. rewrite Hm. cbn [deref mbind outcome_bind]. pass.
  destruct (lookup_lt_is_Some_2 (pc_prio_endpoints p) (Z.to_nat m)) as [ep ->]; [lia|].
  cbn. eauto.
Qed.

Lemma routable_route_endpoint (p p' : PriorityChannel M) pkt tos : route_endpoint p pkt = Ok p' ->
  routable p tos -> routable p' tos.
Proof.
  intros Hr (m & Hm & Hlt). destruct (route_endpoint_meter _ _ _ Hr) as (_ & _ & H1 & H2).
  exists m. by rewrite H1, H2.
Qed.

(** Routing looks at the endpoints only. *)
Lemma route_endpoint_ext (p q : PriorityChannel M) pkt p' :
  pc_prio_mapping q = pc_prio_mapping p -> pc_prio_endpoints q = pc_prio_endpoints p ->
  route_endpoint p pkt = Ok p' ->
  exists q', route_endpoint q pkt = Ok q' /\ pc_prio_mapping q' = pc_prio_mapping p' /\
    pc_prio_endpoints q' = pc_prio_endpoints p' /\ pc_meter q' = pc_meter q /\
    pc_conn_metas q' = pc_conn_metas q /\ pc_conn_meta_map q' = pc_conn_meta_map q /\
    pc_notification_queue q' = pc_notification_queue q /\ pc_sr_queue q' = pc_sr_queue q.
Proof.
  intros Hm He. unfold route_endpoint. rewrite Hm, He. intros Hr. inv_ok. subst p'.
  rewrite H0. cbn [deref mbind outcome_bind]. pass. rewrite H2. cbn [deref mbind outcome_bind].
  eexists. split; [reflexivity|]. cbn. done.
Qed.

Lemma load_conn_ok ptr c s : c_heap s !! ptr = Some c -> load_conn ptr s = Ok (c, s).
Proof. intros Hp. unfold load_conn. by rewrite Hp. Qed.

Lemma store_conn_ok ptr c c' s : c_heap s !! ptr = Some c ->
  store_conn ptr c' s = Ok (tt, set_heap s (<[ptr := c']> (c_heap s))).
Proof. intros Hp. unfold store_conn. rewrite Hp, bool_decide_true by eauto. done. Qed.

(** Fields that sending leaves alone. *)
Definition same_comm s s' : Prop :=
  c_comm_id s' = c_comm_id s /\ c_id_conn s' = c_id_conn s /\ c_next s' = c_next s /\
  c_cq s' = c_cq s /\ c_recv s' = c_recv s /\ c_meta_queue s' = c_meta_queue s.

(** What routing leaves of the channel. *)
Definition same_prio s s' : Prop :=
  pc_conn_metas (c_prio s') = pc_conn_metas (c_prio s) /\ pc_conn_meta_map (c_prio s') = pc_conn_meta_map (c_prio s) /\
  pc_notification_queue (c_prio s') = pc_notification_queue (c_prio s) /\ pc_sr_queue (c_prio s') = pc_sr_queue (c_prio s).

(** What one routed packet does to the shared state. *)
Definition packet_sent s s' (pkt : GradPacket) (fin : bool) : Prop :=
  same_comm s s' /\
  (exists p', route_endpoint (c_prio s) pkt = Ok p' /\
     pc_prio_mapping (c_prio s') = pc_prio_mapping p' /\
     pc_prio_endpoints (c_prio s') = pc_prio_endpoints p' /\ same_prio s s') /\
  m_cnt (pc_meter (c_prio s')) = m_cnt (pc_meter (c_prio s)) + 1 /\
  rl_ctrl_endpoints (c_rel s') = rl_ctrl_endpoints (c_rel s) /\
  rl_notification_queue (c_rel s') = rl_notification_queue (c_rel s) /\
  exists bs, rl_tx_queue (c_rel s') = rl_tx_queue (c_rel s) ++ bs /\
    if fin then exists b, bs = [(pkt_dst_comm_id pkt, b)] /\ holds_signal b (SigFlowFinish (pkt_msg_id pkt))
    else bs = [].

Lemma packet_sent_routable s s' pkt fin tos : packet_sent s s' pkt fin ->
  routable (c_prio s) tos -> routable (c_prio s') tos.
Proof.
  intros (_ & (p' & Hr & Hm & He & _) & _) Ht.
  destruct (routable_route_endpoint _ _ _ _ Hr Ht) as (m & H1 & H2). exists m. by rewrite Hm, He.
Qed.

(** The common part of sending and retransmitting: routing, then the meters. *)
Lemma send_packet_ok ptr c nbytes pkt (fin : bool) s :
  c_heap s !! ptr = Some c -> routable (c_prio s) (pkt_tos pkt) ->
  m_cnt (pc_meter (c_prio s)) + 1 < 2 ^ 31 ->
  0 <= rm_scnt (cm_tx_meter c) -> rm_scnt (cm_tx_meter c) + 2 < 2 ^ 31 ->
  exists s' m', 
    (forall (B : Type) (k : cm M B),
      (RoutePacket malloc pkt fin;; add_meter clock (pkt_len pkt);; update_tx_meter clock ptr nbytes;; k) s
      = k s') /\
    packet_sent s s' pkt fin /\
    c_heap s' = <[ptr := set_tx_meter c m']> (c_heap s) /\
    0 <= rm_scnt m' <= rm_scnt (cm_tx_meter c) + 2.
Proof.
  intros Hp Hrt Hm H0 H1. destruct (routable_route _ _ Hrt) as [p' Hr].
  destruct (RoutePacket_ok pkt fin s p' Hr) as (bs & Hroute & Hbs).
  destruct (route_endpoint_meter _ _ _ Hr) as (Hme & Hcm & Hma & Hl).
  match type of Hroute with _ = Ok (tt, ?st) => set (s1 := st) in * end.
  destruct (add_meter_ok (pkt_len pkt) s1) as (m1 & Hadd & Hm1).
  { unfold s1; cbn [c_prio set_rel set_prio]. rewrite Hme. done. }
  match type of Hadd with _ = Ok (tt, ?st) => set (s2 := st) in * end.
  destruct (update_tx_meter_ok ptr c nbytes s2) as (m2 & Hup & Hm2); [done..|].
  match type of Hup with _ = Ok (tt, ?st) => set (s3 := st) in * end.
  exists s3, m2. split; [|split; [|split; [reflexivity|lia]]].
  - intros B k. rewrite (cm_bind_Ok _ _ _ _ _ Hroute), (cm_bind_Ok _ _ _ _ _ Hadd).
    by rewrite (cm_bind_Ok _ _ _ _ _ Hup).
  - split; [by repeat split|]. split; [|split; [|split; [done|split; [done|]]]].
    + exists p'. split; [done|]. split; [done|]. split; [done|]. unfold route_endpoint in Hr. inv_ok. by subst p'.
    + unfold s3. cbn. rewrite Hm1. unfold s1. cbn. by rewrite Hme.
    + exists bs. split; [done|]. exact Hbs.
Qed.
End steps.

(** ** Sending a message *)

Section sending.
Context {M : Type} `{BlockMgr M}.
Context (max_segment : Z) (clock : nat -> Z) (malloc : Z -> list Z) (uninit : GradPacket).
Context (Hmalloc : forall n, 0 <= n -> Z.of_nat (length (malloc n)) = n).
Context (Hseg : 20 < max_segment < 2 ^ 16).
Implicit Types s : Comm M.
Implicit Types c : ConnMeta M.

(** The connection lets packets of every size pass. *)
Definition unthrottled c : Prop := cm_sending_rate c = S754_infinity false.

Lemma unthrottled_spec c nbytes now : unthrottled c -> throttled c nbytes now = false.
Proof.
  intros Hr. unfold throttled, f64_gt. rewrite Hr.
  destruct (RateMeter_TryBytesPerSecond _ _ _) as [[]|[]| |[]]; reflexivity.
Qed.

(** The rate holds the next packet of connection [ptr] back at the next reading
    of the clock: what the guards of [PollSendingMessages] and of
    [PollRetransmitRequest] test. *)
Definition sending_held (ptr : conn_ptr) s : bool :=
  match c_heap s !! ptr with
  | Some c =>
      match map_begin (cm_sending_msgs c) with
      | Some (_, sr) => throttled c (GetBytes max_segment (sr_msg sr)) (clock (c_ticks s))
      | None => false
      end
  | None => false
  end.
Definition retransmit_held (ptr : conn_ptr) s : bool :=
  match c_heap s !! ptr with
  | Some c =>
      match map_begin (cm_retransmit_reqs c) with
      | Some (_, (buffer, _)) =>
          match load_int buffer fld_msg_id with
          | Ok msg_id =>
              match cm_retransmitting_msgs c !! msg_id with
              | Some sr => throttled c (GetBytes max_segment (sr_msg sr)) (clock (c_ticks s))
              | None => false
              end
          | _ => false
          end
      | None => false
      end
  | None => false
  end.

Lemma unthrottled_held ptr s c : c_heap s !! ptr = Some c -> unthrottled c ->
  sending_held ptr s = false /\ retransmit_held ptr s = false.
Proof.
  intros Hp Hu. unfold sending_held, retransmit_held. rewrite Hp.
  split; repeat case_match; by rewrite ?unthrottled_spec.
Qed.

(** The counters of the meters have room for [k] more packets. *)
Definition meters_ok s c (k : Z) : Prop :=
  m_cnt (pc_meter (c_prio s)) + k < 2 ^ 31 /\
  0 <= rm_scnt (cm_tx_meter c) /\ rm_scnt (cm_tx_meter c) + 2 * k < 2 ^ 31.

(** Message [e] is the only one being sent, with [i] packets sent. *)
Definition in_sending c (e : LtMessageExt M) (prio : PktPrioFunc) (i : Z) : Prop :=
  0 < ext_size e < 2 ^ 32 /\
  cm_sending_msgs c = {[ s32 (ext_msg_id e) :=
    mkSendRequest (set_bytes e (Z.min (ext_size e) (i * (max_segment - 20)))) prio ]} /\
  cm_retransmitting_msgs c !! s32 (ext_msg_id e) = None.

(** It has been sent and waits for retransmit requests. *)
Definition in_sent c (e : LtMessageExt M) (prio : PktPrioFunc) : Prop :=
  cm_sending_msgs c = ∅ /\
  cm_retransmitting_msgs c !! s32 (ext_msg_id e) =
    Some (mkSendRequest (set_bytes e (ext_size e)) prio).

Local Notation n e := (packets (max_segment - 20) (ext_size e)).

(** One turn for the connection: the next packet is sent, unless the rate
    forbids it. *)
Lemma poll_sending_turn s ptr c e prio i tos :
  c_heap s !! ptr = Some c -> in_sending c e prio i -> 0 <= i < n e ->
  prio (ext_packet max_segment (c_comm_id s) e (cm_dest_comm_id c) (pkt_tos uninit) i) = Ok tos ->
  routable (c_prio s) (u8 tos) -> meters_ok s c 1 ->
  let pkt := ext_packet max_segment (c_comm_id s) e (cm_dest_comm_id c) (u8 tos) i in
  (sending_held ptr s = true /\
    poll_sending max_segment clock malloc uninit ptr s = Ok (0, set_ticks s (S (c_ticks s)))) \/
  sending_held ptr s = false /\
  exists s' c',
    poll_sending max_segment clock malloc uninit ptr s = Ok (pkt_len pkt, s') /\
    packet_sent s s' pkt (i =? n e - 1) /\ c_heap s' = <[ptr := c']> (c_heap s) /\
    cm_dest_comm_id c' = cm_dest_comm_id c /\ cm_retransmit_reqs c' = cm_retransmit_reqs c /\
    cm_recv_msgs c' = cm_recv_msgs c /\ cm_sending_rate c' = cm_sending_rate c /\
    0 <= rm_scnt (cm_tx_meter c') <= rm_scnt (cm_tx_meter c) + 2 /\
    if i =? n e - 1 then in_sent c' e prio else in_sending c' e prio (i + 1).
Proof.
  intros Hp (Hsz & Hmsgs & Hrt) Hi Hprio Htos (Hm1 & Hm2 & Hm3) pkt.
  set (B := max_segment - 20) in *. assert (HB : 0 < B) by (unfold B; lia).
  assert (Hlt : i * B < ext_size e) by (apply lt_packets; [done|lia|lia|lia]).
  set (e1 := set_bytes e (Z.min (ext_size e) (i * B))) in *.
  assert (Hpart : PartitionOne max_segment (c_comm_id s) uninit (cm_dest_comm_id c) e1 prio =
            Ok (pkt, set_bytes e (Z.min (ext_size e) ((i + 1) * B)))).
  { rewrite (PartitionOne_chunk max_segment (c_comm_id s) Hseg uninit _ e1 prio i);
      [|cbn; lia|exact Hi|cbn; unfold B in *; lia].
    change (ext_packet max_segment (c_comm_id s) e1) with (ext_packet max_segment (c_comm_id s) e).
    rewrite Hprio. done. }
  assert (Hheld : sending_held ptr s = throttled c (GetBytes max_segment e1) (clock (c_ticks s)))
    by (unfold sending_held; by rewrite Hp, Hmsgs, map_begin_singleton).
  rewrite Hheld. destruct (throttled c (GetBytes max_segment e1) (clock (c_ticks s))) eqn:Hth; [left|right; split; [done|]].
  { split; [done|]. unfold poll_sending. rewrite (cm_bind_Ok _ _ _ _ _ (load_conn_ok _ _ _ Hp)).
    rewrite Hmsgs, map_begin_singleton. cbn [sr_msg sr_prio].
    unfold clock_now at 1. unfold mbind at 1, cm_bind at 1. by rewrite Hth. }
  unfold poll_sending. rewrite (cm_bind_Ok _ _ _ _ _ (load_conn_ok _ _ _ Hp)).
  rewrite Hmsgs, map_begin_singleton. cbn [sr_msg sr_prio].
  unfold clock_now at 1. unfold mbind at 1, cm_bind at 1. rewrite Hth.
  set (s1 := set_ticks s (S (c_ticks s))).
  unfold gets at 1. unfold mbind at 1, cm_bind at 1. unfold lift at 1.
  unfold mbind at 1, cm_bind at 1. change (c_comm_id s1) with (c_comm_id s). rewrite Hpart.
  cbn [mbind outcome_bind].
  set (e2 := set_bytes e (Z.min (ext_size e) ((i + 1) * B))).
  set (c1 := set_sending c _ _).
  rewrite (cm_bind_Ok _ _ _ _ _ (store_conn_ok ptr c c1 s1 Hp)).
  set (s2 := set_heap s1 _).
  assert (Hp2 : c_heap s2 !! ptr = Some c1) by apply lookup_insert_eq.
  assert (Hlast : negb (pkt_is_last pkt =? 0) = (i =? packets B (ext_size e) - 1)).
  { unfold pkt, ext_packet, chunk_packet. cbn [pkt_is_last]. by destruct (i =? _). }
  destruct (send_packet_ok clock malloc Hmalloc ptr c1 (GetBytes max_segment e1) pkt
              (negb (pkt_is_last pkt =? 0)) s2 Hp2) as (s3 & m3 & Hrun & Hsent & Hheap & Hsc);
    [exact Htos|exact Hm1|exact Hm2|cbn; lia|].
  change (cm_tx_meter c1) with (cm_tx_meter c) in Hsc.
  rewrite Hrun. set (c2 := set_tx_meter c1 m3) in *.
  assert (Hp3 : c_heap s3 !! ptr = Some c2) by (rewrite Hheap; apply lookup_insert_eq).
  rewrite (cm_bind_Ok _ _ _ _ _ (load_conn_ok _ _ _ Hp3)). rewrite Hlast in *.
  assert (Hdone : (ext_size e2 <=? ext_bytes e2) = (i =? packets B (ext_size e) - 1)).
  { cbn [e2 ext_size ext_bytes set_bytes]. pose proof (packets_bounds B HB (ext_size e) ltac:(lia)).
    destruct (Z.eqb_spec i (packets B (ext_size e) - 1));
      [apply Z.leb_le|apply Z.leb_gt]; nia. }
  rewrite Hdone.
  assert (Hh2 : c_heap s2 = <[ptr := c1]> (c_heap s)) by done.
  destruct (Z.eqb_spec i (packets B (ext_size e) - 1)) as [Hl|Hl].
  - rewrite (cm_bind_Ok _ _ _ _ _ (store_conn_ok ptr c2 _ s3 Hp3)).
    eexists _, _. split; [reflexivity|]. split; [exact Hsent|].
    split; [cbn [c_heap set_heap]; rewrite Hheap, Hh2, !insert_insert_eq; reflexivity|].
    unfold move_to_retransmitting, c2, c1. cbn [cm_sending_msgs set_tx_meter set_sending].
    rewrite insert_singleton_eq, lookup_singleton_eq.
    cbn [ext_msg_id set_bytes e2 cm_retransmitting_msgs set_sending set_tx_meter].
    rewrite Hrt. cbn [cm_dest_comm_id cm_retransmit_reqs cm_recv_msgs cm_tx_meter set_sending set_tx_meter].
    repeat split; try done; try lia.
    + cbn. by rewrite delete_singleton_eq.
    + cbn. rewrite lookup_insert_eq. do 3 f_equal.
      pose proof (packets_bounds B HB (ext_size e) ltac:(lia)). nia.
  - rewrite (cm_bind_Ok (mret tt) _ s3 tt s3 eq_refl).
    eexists s3, c2. split; [reflexivity|]. split; [exact Hsent|].
    split; [by rewrite Hheap, Hh2, insert_insert_eq|].
    repeat split; try done; try (cbn; lia).
    unfold c2, c1. cbn [cm_sending_msgs set_tx_meter set_sending].
    by rewrite insert_singleton_eq.
Qed.

End sending.

(** ** Runs of polls *)

Section runs.
Context {M : Type} `{BlockMgr M}.
Implicit Types s : Comm M.

(** Between [s] and [s'] the packets [pkts] were routed, in this order, and the
    control messages [bs] queued. *)
Definition sent_all s s' (pkts : list GradPacket) (bs : list (Z * Buffer)) : Prop :=
  same_comm s s' /\
  (exists p', foldM route_endpoint (c_prio s) pkts = Ok p' /\
     pc_prio_mapping (c_prio s') = pc_prio_mapping p' /\
     pc_prio_endpoints (c_prio s') = pc_prio_endpoints p' /\
     pc_conn_metas (c_prio s') = pc_conn_metas (c_prio s)) /\
  m_cnt (pc_meter (c_prio s')) = m_cnt (pc_meter (c_prio s)) + Z.of_nat (length pkts) /\
  rl_ctrl_endpoints (c_rel s') = rl_ctrl_endpoints (c_rel s) /\
  rl_notification_queue (c_rel s') = rl_notification_queue (c_rel s) /\
  rl_tx_queue (c_rel s') = rl_tx_queue (c_rel s) ++ bs.

Lemma sent_all_nil s : sent_all s s [] [].
Proof.
  split; [by repeat split|]. split; [by exists (c_prio s)|]. rewrite app_nil_r. simpl. repeat split; lia || done.
Qed.

Lemma foldM_route_ext pkts (p q p' : PriorityChannel M) :
  pc_prio_mapping q = pc_prio_mapping p -> pc_prio_endpoints q = pc_prio_endpoints p ->
  foldM route_endpoint p pkts = Ok p' ->
  exists q', foldM route_endpoint q pkts = Ok q' /\ pc_prio_mapping q' = pc_prio_mapping p' /\
    pc_prio_endpoints q' = pc_prio_endpoints p'.
Proof.
  revert p q. induction pkts as [|pkt pkts IH]; intros p q Hm He Hf.
  - injection Hf as <-. by exists q.
  - cbn [foldM] in Hf. inv_ok.
    destruct (route_endpoint_ext _ _ _ _ Hm He H0) as (q1 & Hq1 & Hm1 & He1 & _).
    destruct (IH x q1 Hm1 He1 Hf) as (q2 & Hq2 & ? & ?). exists q2. cbn [foldM]. rewrite Hq1. done.
Qed.

Lemma sent_all_cons s s1 s2 pkt fin pkts bs2 :
  packet_sent s s1 pkt fin -> sent_all s1 s2 pkts bs2 ->
  exists bs1, sent_all s s2 (pkt :: pkts) (bs1 ++ bs2) /\
    if fin then exists b, bs1 = [(pkt_dst_comm_id pkt, b)] /\ holds_signal b (SigFlowFinish (pkt_msg_id pkt))
    else bs1 = [].
Proof.
  intros (Hs & (p1 & Hr1 & Hm1 & He1 & Hc1 & _) & Hcnt1 & Hct1 & Hno1 & bs1 & Htx1 & Hbs1)
    (Hs2 & (p2 & Hr2 & Hm2 & He2 & Hc2) & Hcnt2 & Hct2 & Hno2 & Htx2).
  exists bs1. split; [|done]. split; [unfold same_comm in *; intuition congruence|].
  split; [|repeat split; [cbn [length]; lia|congruence|congruence|by rewrite Htx2, Htx1, app_assoc]].
  destruct (foldM_route_ext pkts (c_prio s1) p1 p2 (eq_sym Hm1) (eq_sym He1) Hr2) as (q & Hq & Hqm & Hqe).
  exists q. cbn [foldM]. rewrite Hr1. cbn [mbind outcome_bind]. intuition congruence.
Qed.

Context (max_segment : Z) (clock : nat -> Z) (malloc : Z -> list Z) (uninit : GradPacket).
Context (Hmalloc : forall n, 0 <= n -> Z.of_nat (length (malloc n)) = n).
Context (Hseg : 20 < max_segment < 2 ^ 16).

(** The priority function gives every packet of the message a type of service
    that has an endpoint. *)
Definition prio_ok s (e : LtMessageExt M) (dest : Z) (prio : PktPrioFunc) : Prop :=
  forall i, 0 <= i < packets (max_segment - 20) (ext_size e) ->
  exists tos, prio (ext_packet max_segment (c_comm_id s) e dest (pkt_tos uninit) i) = Ok tos /\
    routable (c_prio s) (u8 tos).

Lemma prio_ok_sent s s' pkt fin e dest prio :
  packet_sent s s' pkt fin -> prio_ok s e dest prio -> prio_ok s' e dest prio.
Proof.
  intros Hs Hp i Hi. destruct (Hp i Hi) as (tos & H1 & H2). exists tos.
  pose proof (packet_sent_routable _ _ _ _ _ Hs H2) as Hr.
  destruct Hs as ((-> & _) & _). done.
Qed.

(** [pkts] are the packets of [e] with the sequence numbers [seqs]. *)
Definition packets_of (self : Z) (e : LtMessageExt M) (dest : Z) (pkts : list GradPacket) (seqs : list Z) : Prop :=
  Forall2 (fun pkt i => pkt = ext_packet max_segment self e dest (pkt_tos pkt) i) pkts seqs.

End runs.

(** ** Retransmitting blocks *)

(** The sequence numbers that a list of blocks covers, in order. *)
Definition block_seqs (bs : list Block) : list Z :=
  concat (map (fun b => seqZ (first b) (last b - first b)) bs).

Lemma elem_of_block_seqs bs x : x ∈ block_seqs bs <-> covered bs x.
Proof.
  unfold block_seqs. induction bs as [|b bs IH].
  - split; [set_solver|]. by intros ?%covered_nil.
  - cbn [map concat]. rewrite elem_of_app, IH, covered_cons, elem_of_seqZ.
    split; intros [?|?]; [left; lia|by right|left; lia|by right].
Qed.

Section retransmit.
Context {M : Type} `{BlockMgr M}.
Context (max_segment : Z) (clock : nat -> Z) (malloc : Z -> list Z) (uninit : GradPacket).
Context (Hmalloc : forall n, 0 <= n -> Z.of_nat (length (malloc n)) = n).
Context (Hseg : 20 < max_segment < 2 ^ 16).
Implicit Types s : Comm M.
Implicit Types c : ConnMeta M.

(** Blocks of sequence numbers below [n]. *)
Definition good_blocks (n : Z) (bs : list Block) : Prop :=
  Forall (fun b => 0 <= first b < last b /\ last b <= n) bs /\ n < 2 ^ 31 /\
  Z.of_nat (length bs) < 2 ^ 32.

Lemma Blocks_bytes_app bs1 bs2 : Blocks_bytes (bs1 ++ bs2) = Blocks_bytes bs1 ++ Blocks_bytes bs2.
Proof. unfold Blocks_bytes. by rewrite map_app, concat_app. Qed.

Lemma load_block_received b m cid bs k blk n :
  received_signal b (SigRetransmitRequest m cid bs) -> good_blocks n bs ->
  bs !! Z.to_nat k = Some blk -> 0 <= k -> load_block b k = Ok blk.
Proof.
  intros Hb (Hbs & Hn & _) Hk H0. pose proof (lookup_lt_Some _ _ _ Hk) as Hlt.
  rewrite Forall_forall in Hbs. pose proof (Hbs blk (list_elem_of_lookup_2 _ _ _ Hk)) as Hblk.
  cbn beta in Hblk. unfold received_signal in Hb. rewrite <- (take_drop_middle bs _ _ Hk) in Hb.
  unfold signal_bytes in Hb. rewrite Blocks_bytes_app in Hb.
  change (Blocks_bytes (blk :: ?r)) with (Block_bytes blk ++ Blocks_bytes r) in Hb.
  unfold load_block. cbn [signal_type] in Hb.
  set (pre := le_bytes 4 (signal_code kRetransmitRequest) ++ le_bytes 4 (u32 m) ++ le_bytes 4 (u32 cid) ++
              le_bytes 4 (Z.of_nat (length (take (Z.to_nat k) bs ++ blk :: drop (S (Z.to_nat k)) bs))) ++
              Blocks_bytes (take (Z.to_nat k) bs)) in *.
  set (post := Blocks_bytes (drop (S (Z.to_nat k)) bs)) in *.
  assert (Hb' : buf_mem b = pre ++ le_bytes 4 (first blk) ++ le_bytes 4 (last blk) ++ post).
  { rewrite Hb. unfold pre, Block_bytes. by rewrite <- !app_assoc. }
  assert (Hpre : Z.of_nat (length pre) = 16 + 8 * k).
  { unfold pre. rewrite !length_app, !length_le_bytes, length_Blocks_bytes, length_take. lia. }
  unfold fld_blocks. pose proof (load32_app b (16 + 8 * k) pre (first blk) _ Hb') as Hl1.
  rewrite Hl1 by lia. cbn [mbind outcome_bind].
  rewrite (load32_app b _ (pre ++ le_bytes 4 (first blk)) (last blk) post);
    [by destruct blk|by rewrite Hb', <- app_assoc|rewrite length_app, length_le_bytes; lia|lia].
Qed.

(** Where a request stands: the sequence numbers it has left. *)
Definition req_rest (bs : list Block) (st : RetransmitState) (rest : list Z) : Prop :=
  exists blk, 0 <= rs_block_num st /\ bs !! Z.to_nat (rs_block_num st) = Some blk /\
    first blk <= rs_seq_num st < last blk /\
    rest = seqZ (rs_seq_num st) (last blk - rs_seq_num st) ++
           block_seqs (drop (S (Z.to_nat (rs_block_num st))) bs).

Lemma next_state_rest b m cid bs st n x rest :
  received_signal b (SigRetransmitRequest m cid bs) -> good_blocks n bs ->
  req_rest bs st (x :: rest) ->
  exists blk st', bs !! Z.to_nat (rs_block_num st) = Some blk /\
    next_state b st blk (Z.of_nat (length bs)) = Ok st' /\ x = rs_seq_num st /\
    ((rs_block_num st' =? Z.of_nat (length bs)) = bool_decide (rest = [])) /\
    (((u32 (rs_block_num st + 1) =? Z.of_nat (length bs)) && (u32 (rs_seq_num st + 1) =? last blk)) =
     bool_decide (rest = [])) /\
    (rest <> [] -> req_rest bs st' rest).
Proof.
  intros Hb Hgood (blk & Hbn & Hblk & Hseq & Hrest).
  pose proof (lookup_lt_Some _ _ _ Hblk) as Hlt. pose proof Hgood as (Hbs & Hn & Hlen).
  rewrite Forall_forall in Hbs. pose proof (Hbs blk (list_elem_of_lookup_2 _ _ _ Hblk)) as Hb1.
  cbn beta in Hb1. rewrite (seqZ_cons (rs_seq_num st)) in Hrest by lia. injection Hrest as -> Hrest.
  exists blk. unfold next_state. rewrite !u32_small by lia.
  destruct (Z.eqb_spec (rs_seq_num st + 1) (last blk)) as [Hend|Hmid].
  - replace (Z.pred (last blk - rs_seq_num st)) with 0 in Hrest by lia. cbn [seqZ app] in Hrest.
    rewrite seqZ_nil in Hrest by lia. cbn [app] in Hrest.
    destruct (Z.ltb_spec (rs_block_num st + 1) (Z.of_nat (length bs))) as [Hmore|Hno].
    + destruct (lookup_lt_is_Some_2 bs (Z.to_nat (rs_block_num st + 1))) as [blk2 Hblk2]; [lia|].
      pose proof (Hbs blk2 (list_elem_of_lookup_2 _ _ _ Hblk2)) as Hb2. cbn beta in Hb2.
      rewrite (load_block_received b m cid bs _ blk2 n Hb Hgood Hblk2) by lia.
      cbn [mbind outcome_bind]. eexists. split; [done|]. split; [reflexivity|]. split; [done|].
      replace (S (Z.to_nat (rs_block_num st))) with (Z.to_nat (rs_block_num st + 1)) in Hrest by lia.
      rewrite (drop_S bs blk2 _ Hblk2) in Hrest.
      assert (Hne : rest <> []).
      { rewrite Hrest. unfold block_seqs. cbn [map concat]. rewrite (seqZ_cons (first blk2)) by lia. done. }
      rewrite (bool_decide_false (rest = [])) by done. cbn [rs_block_num].
      split; [apply Z.eqb_neq; lia|]. split; [apply andb_false_iff; left; apply Z.eqb_neq; lia|].
      intros _. exists blk2. cbn [rs_block_num rs_seq_num]. repeat split; try done; try lia.
    + assert (Hd : drop (S (Z.to_nat (rs_block_num st))) bs = []) by (apply drop_ge; lia).
      rewrite Hd in Hrest. cbn in Hrest. subst rest.
      eexists. split; [done|]. split; [reflexivity|]. split; [done|]. cbn [rs_block_num].
      rewrite bool_decide_true by done. split; [apply Z.eqb_eq; lia|].
      split; [rewrite andb_true_r; apply Z.eqb_eq; lia|]. done.
  - eexists. split; [done|]. split; [reflexivity|]. split; [done|]. cbn [rs_block_num].
    assert (Hne : rest <> []).
    { rewrite Hrest, (seqZ_cons (Z.succ (rs_seq_num st))) by lia. done. }
    rewrite (bool_decide_false (rest = [])) by done.
    split; [apply Z.eqb_neq; lia|]. split; [apply andb_false_r|].
    intros _. exists blk. cbn [rs_block_num rs_seq_num]. repeat split; try done; try lia.
    rewrite Hrest. f_equal. f_equal; lia.
Qed.

Lemma received_comm_id b m cid bs : received_signal b (SigRetransmitRequest m cid bs) ->
  load_int b fld_comm_id = Ok (s32 cid).
Proof.
  intros Hb. unfold load_int, fld_comm_id.
  erewrite (received_second b _ m (u32 cid)); [|exact Hb|reflexivity|apply u32_range].
  cbn. by rewrite s32_u32.
Qed.

Lemma received_num_blocks b m cid bs : received_signal b (SigRetransmitRequest m cid bs) ->
  Z.of_nat (length bs) < 2 ^ 32 -> load32 b fld_num_blocks = Ok (Z.of_nat (length bs)).
Proof.
  intros Hb Hl. unfold fld_num_blocks.
  eapply (received_third b _ m (u32 cid)); [exact Hb|reflexivity|lia].
Qed.

(** The message [e] has been sent, and the request [b] for the blocks [bs] is
    being served: [rest] is left. *)
Definition in_serving c (e : LtMessageExt M) (prio : PktPrioFunc) (b : Buffer) (bs : list Block)
    (rest : list Z) : Prop :=
  in_sent c e prio /\ 0 < ext_size e < 2 ^ 32 /\
  (exists cid, received_signal b (SigRetransmitRequest (ext_msg_id e) cid bs) /\
     s32 cid = cm_dest_comm_id c) /\
  good_blocks (packets (max_segment - 20) (ext_size e)) bs /\
  match rest with
  | [] => cm_retransmit_reqs c = ∅
  | _ :: _ => exists st, cm_retransmit_reqs c = {[ s32 (ext_msg_id e) := (b, st) ]} /\ req_rest bs st rest
  end.

Lemma poll_retransmit_turn s ptr c e prio b bs i rest tos :
  c_heap s !! ptr = Some c -> in_serving c e prio b bs (i :: rest) ->
  0 <= i < packets (max_segment - 20) (ext_size e) ->
  prio (ext_packet max_segment (c_comm_id s) e (cm_dest_comm_id c) (pkt_tos uninit) i) = Ok tos ->
  routable (c_prio s) (u8 tos) -> meters_ok s c 1 ->
  let pkt := ext_packet max_segment (c_comm_id s) e (cm_dest_comm_id c) (u8 tos) i in
  (retransmit_held max_segment clock ptr s = true /\
    poll_retransmit max_segment clock malloc uninit ptr s = Ok (0, set_ticks s (S (c_ticks s)))) \/
  retransmit_held max_segment clock ptr s = false /\
  exists s' c',
    poll_retransmit max_segment clock malloc uninit ptr s = Ok (pkt_len pkt, s') /\
    packet_sent s s' pkt (bool_decide (rest = [])) /\ c_heap s' = <[ptr := c']> (c_heap s) /\
    cm_dest_comm_id c' = cm_dest_comm_id c /\
    0 <= rm_scnt (cm_tx_meter c') <= rm_scnt (cm_tx_meter c) + 2 /\
    cm_sending_rate c' = cm_sending_rate c /\ cm_recv_msgs c' = cm_recv_msgs c /\ in_serving c' e prio b bs rest.
Proof.
  intros Hp (Hsm & Hsz & (cid & Hb & Hcid) & Hgood & st & Hreqs & Hst) Hi Hprio Htos (Hm1 & Hm2 & Hm3) pkt.
  pose proof Hsm as (Hse & Hrt).
  destruct (next_state_rest b (ext_msg_id e) cid bs st _ i rest Hb Hgood Hst)
    as (blk & st' & Hblk & Hnext & Heq & Hend & Hfin & Hst').
  destruct Hst as (blk0 & Hbn & Hblk0 & Hseq & _). assert (blk0 = blk) as -> by congruence.
  pose proof Hgood as (_ & Hn & Hlen). pose proof (lookup_lt_Some _ _ _ Hblk) as Hlt.
  assert (Hpart : PartitionOneBySeq max_segment (c_comm_id s) uninit (s32 cid)
            (set_bytes e (ext_size e)) prio (s32 (rs_seq_num st)) = Ok pkt).
  { rewrite Hcid, <- Heq, s32_small by lia.
    rewrite (PartitionOneBySeq_chunk max_segment (c_comm_id s) Hseg uninit _ _ prio i);
      [|cbn; lia|exact Hi].
    change (ext_packet max_segment (c_comm_id s) (set_bytes e (ext_size e)))
      with (ext_packet max_segment (c_comm_id s) e).
    by rewrite Hprio. }
  assert (Hheld : retransmit_held max_segment clock ptr s =
      throttled c (GetBytes max_segment (set_bytes e (ext_size e))) (clock (c_ticks s))).
  { unfold retransmit_held. by rewrite Hp, Hreqs, map_begin_singleton, (received_msg_id b _ (ext_msg_id e) _ Hb eq_refl), Hrt. }
  rewrite Hheld.
  destruct (throttled c (GetBytes max_segment (set_bytes e (ext_size e))) (clock (c_ticks s))) eqn:Hth; [left|right; split; [done|]].
  { split; [done|]. unfold poll_retransmit. rewrite (cm_bind_Ok _ _ _ _ _ (load_conn_ok _ _ _ Hp)).
    rewrite Hreqs, map_begin_singleton. cbn [fst snd].
    unfold lift. rewrite (received_comm_id b _ _ _ Hb). cbn [mbind outcome_bind].
    unfold mbind at 1, cm_bind at 1. rewrite (CHECK_true _) by (apply Z.eqb_eq; done).
    unfold mbind at 1, cm_bind at 1. cbn [mbind outcome_bind].
    unfold mbind at 1, cm_bind at 1.
    rewrite (received_msg_id b _ (ext_msg_id e) _ Hb eq_refl). cbn [mbind outcome_bind].
    rewrite Hrt. cbn [sr_msg sr_prio].
    unfold clock_now at 1. unfold mbind at 1, cm_bind at 1. by rewrite Hth. }
  unfold poll_retransmit. rewrite (cm_bind_Ok _ _ _ _ _ (load_conn_ok _ _ _ Hp)).
  rewrite Hreqs, map_begin_singleton. cbn [fst snd].
  unfold lift. rewrite (received_comm_id b _ _ _ Hb). cbn [mbind outcome_bind].
  unfold mbind at 1, cm_bind at 1. rewrite (CHECK_true _) by (apply Z.eqb_eq; done).
  unfold mbind at 1, cm_bind at 1. cbn [mbind outcome_bind].
  unfold mbind at 1, cm_bind at 1.
  rewrite (received_msg_id b _ (ext_msg_id e) _ Hb eq_refl). cbn [mbind outcome_bind].
  rewrite Hrt. cbn [sr_msg sr_prio].
  unfold clock_now at 1. unfold mbind at 1, cm_bind at 1. rewrite Hth.
  set (s1 := set_ticks s (S (c_ticks s))).
  unfold mbind at 1, cm_bind at 1.
  rewrite (received_num_blocks b _ _ _ Hb Hlen). cbn [mbind outcome_bind].
  unfold mbind at 1, cm_bind at 1. rewrite (CHECK_true _) by (apply Z.ltb_lt; lia).
  cbn [mbind outcome_bind]. unfold mbind at 1, cm_bind at 1.
  rewrite (load_block_received b _ cid bs _ blk _ Hb Hgood Hblk) by lia. cbn [mbind outcome_bind].
  unfold mbind at 1, cm_bind at 1. rewrite (CHECK_true _) by (b2p; lia).
  cbn [mbind outcome_bind]. unfold gets at 1. unfold mbind at 1, cm_bind at 1.
  change (c_comm_id s1) with (c_comm_id s). unfold mbind at 1, cm_bind at 1.
  rewrite Hpart. cbn [mbind outcome_bind]. rewrite Hfin.
  destruct (send_packet_ok clock malloc Hmalloc ptr c
              (GetBytes max_segment (set_bytes e (ext_size e))) pkt
              (bool_decide (rest = [])) s1 Hp) as (s2 & m2 & Hrun & Hsent & Hheap & Hsc);
    [exact Htos|exact Hm1|exact Hm2|lia|].
  rewrite Hrun. unfold mbind at 1, cm_bind at 1. rewrite Hnext. cbn [mbind outcome_bind].
  set (c2 := set_tx_meter c m2) in *.
  assert (Hp2 : c_heap s2 !! ptr = Some c2) by (rewrite Hheap; apply lookup_insert_eq).
  rewrite (cm_bind_Ok _ _ _ _ _ (load_conn_ok _ _ _ Hp2)).
  rewrite (cm_bind_Ok _ _ _ _ _ (store_conn_ok ptr c2 _ s2 Hp2)). rewrite Hend.
  change (cm_retransmit_reqs c2) with (cm_retransmit_reqs c). rewrite Hreqs, insert_singleton_eq.
  eexists _, _. split; [reflexivity|]. split; [exact Hsent|].
  split; [cbn [c_heap set_heap]; rewrite Hheap; change (c_heap s1) with (c_heap s);
          rewrite insert_insert_eq; reflexivity|].
  split; [done|]. split; [exact Hsc|]. split; [done|]. split; [done|]. split; [exact Hsm|]. split; [done|]. split; [by exists cid|].
  split; [done|]. cbn [ext_msg_id set_bytes]. destruct rest as [|j rest].
  - rewrite bool_decide_true by done. cbn. by rewrite delete_singleton_eq.
  - rewrite bool_decide_false by done. exists st'. split; [done|]. by apply Hst'.
Qed.

End retransmit.

(** ** Polling a connection again and again *)

(** [k] calls of a poll; for each whether the rate held the next packet back
    when it was called, and the length that it reported. *)
Fixpoint poll_log {M} (k : nat) (held : Comm M -> bool) (poll : cm M Z) : cm M (list (bool * Z)) :=
  match k with
  | O => mret []
  | S k' => h ← gets held; n ← poll; log ← poll_log k' held poll; mret ((h, n) :: log)
  end.

(** How many of them the rate let pass. *)
Fixpoint passes (log : list (bool * Z)) : nat :=
  match log with
  | [] => 0
  | (true, _) :: log' => passes log'
  | (false, _) :: log' => S (passes log')
  end.

(** A call that is held back reports nothing, one that is let pass the length of
    the next packet, until there are no more packets. *)
Inductive log_reports : list (bool * Z) -> list GradPacket -> Prop :=
| log_nil : log_reports [] []
| log_held log pkts : log_reports log pkts -> log_reports ((true, 0) :: log) pkts
| log_sent log pkt pkts : log_reports log pkts -> log_reports ((false, pkt_len pkt) :: log) (pkt :: pkts)
| log_idle log : log_reports log [] -> log_reports ((false, 0) :: log) [].

Section logs.
Context {M : Type} `{BlockMgr M}.
Context (max_segment : Z) (uninit : GradPacket) (e : LtMessageExt M) (prio : PktPrioFunc) (ptr : conn_ptr).
Context (held : Comm M -> bool) (poll : cm M Z).
Implicit Types s : Comm M.
Implicit Types c : ConnMeta M.

(** The connection stands where [seqs] is left to send. *)
Context (stage : ConnMeta M -> list Z -> Prop).
Context (idle : forall s c, c_heap s !! ptr = Some c -> stage c [] -> held s = false /\ poll s = Ok (0, s)).
Context (turn : forall s c i seqs tos,
  c_heap s !! ptr = Some c -> stage c (i :: seqs) -> 0 <= i < packets (max_segment - 20) (ext_size e) ->
  prio (ext_packet max_segment (c_comm_id s) e (cm_dest_comm_id c) (pkt_tos uninit) i) = Ok tos ->
  routable (c_prio s) (u8 tos) -> meters_ok s c 1 ->
  let pkt := ext_packet max_segment (c_comm_id s) e (cm_dest_comm_id c) (u8 tos) i in
  (held s = true /\ poll s = Ok (0, set_ticks s (S (c_ticks s)))) \/
  held s = false /\ exists s' c', poll s = Ok (pkt_len pkt, s') /\
    packet_sent s s' pkt (bool_decide (seqs = [])) /\ c_heap s' = <[ptr := c']> (c_heap s) /\
    cm_dest_comm_id c' = cm_dest_comm_id c /\
    0 <= rm_scnt (cm_tx_meter c') <= rm_scnt (cm_tx_meter c) + 2 /\ stage c' seqs).

(** The flow-finish signal that was queued if all of [seqs] has been sent. *)
Definition finish_queued (dest : Z) (done : bool) (bs : list (Z * Buffer)) : Prop :=
  if done then exists b, bs = [(u16 dest, b)] /\ holds_signal b (SigFlowFinish (u32 (ext_msg_id e))) else bs = [].

Lemma poll_log_idle k s c : c_heap s !! ptr = Some c -> stage c [] ->
  poll_log k held poll s = Ok (replicate k (false, 0), s).
Proof using idle.
  intros Hp Hst. destruct (idle s c Hp Hst) as [Hh Hpoll]. induction k as [|k IH]; [done|]. cbn [poll_log replicate].
  rewrite (cm_bind_Ok (gets held) _ s (held s) s eq_refl), Hh, (cm_bind_Ok _ _ _ _ _ Hpoll).
  by rewrite (cm_bind_Ok _ _ _ _ _ IH).
Qed.

Lemma log_reports_idle k : log_reports (replicate k (false, 0)) [] /\ passes (replicate k (false, 0)) = k.
Proof. induction k as [|k [IH1 IH2]]; [split; [constructor|done]|]. split; [by constructor|cbn; by rewrite IH2]. Qed.

Lemma poll_log_run k s c seqs :
  c_heap s !! ptr = Some c -> stage c seqs ->
  Forall (fun i => 0 <= i < packets (max_segment - 20) (ext_size e)) seqs ->
  prio_ok max_segment uninit s e (cm_dest_comm_id c) prio -> meters_ok s c (Z.of_nat (length seqs)) ->
  exists log s' c' pkts bs, poll_log k held poll s = Ok (log, s') /\ length log = k /\
    log_reports log pkts /\
    packets_of max_segment (c_comm_id s) e (cm_dest_comm_id c) pkts (take (passes log) seqs) /\
    sent_all s s' pkts bs /\
    finish_queued (cm_dest_comm_id c) (bool_decide (seqs <> [] /\ (length seqs <= passes log)%nat)) bs /\
    c_heap s' = <[ptr := c']> (c_heap s) /\ stage c' (drop (passes log) seqs).
Proof using idle turn.
  revert s c seqs. induction k as [|k IH]; intros s c seqs Hp Hst Hall Hprio Hmet.
  { exists [], s, c, [], []. split_and!; try done; [constructor|by constructor|apply sent_all_nil| |by rewrite insert_id].
    unfold finish_queued. by rewrite bool_decide_false by (intros [? ?]; destruct seqs; [done|cbn in *; lia]). }
  destruct seqs as [|i seqs].
  { destruct (log_reports_idle (S k)) as [Hl Hpass].
    exists (replicate (S k) (false, 0)), s, c, [], [].
    split_and!; [by eapply poll_log_idle|apply length_replicate|done|rewrite take_nil; by constructor|apply sent_all_nil|
      |by rewrite insert_id|by rewrite drop_nil].
    unfold finish_queued. by rewrite bool_decide_false by tauto. }
  apply Forall_cons in Hall as [Hi Hall]. destruct (Hprio i Hi) as (tos & Htos & Hrt).
  cbn [poll_log]. rewrite (cm_bind_Ok (gets held) _ s (held s) s eq_refl).
  destruct (turn s c i seqs tos Hp Hst Hi Htos Hrt) as [[Hheld Hrun]|(Hheld & s1 & c1 & Hrun & Hsent & Hheap & Hd & Hsc & Hst1)].
  { unfold meters_ok in *. cbn [length] in *. lia. }
  all: rewrite Hheld, (cm_bind_Ok _ _ _ _ _ Hrun).
  - destruct (IH (set_ticks s (S (c_ticks s))) c (i :: seqs) Hp Hst ltac:(by constructor) Hprio Hmet)
      as (log & s' & c' & pkts & bs & Hlog & Hlen & Hrep & Hpk & Hs & Hfin & Hh & Hst').
    rewrite (cm_bind_Ok _ _ _ _ _ Hlog). exists ((true, 0) :: log), s', c', pkts, bs.
    split_and!; try done; [cbn; by rewrite Hlen|by constructor].
  - set (pkt := ext_packet max_segment (c_comm_id s) e (cm_dest_comm_id c) (u8 tos) i) in *.
    destruct (IH s1 c1 seqs) as (log & s' & c' & pkts & bs & Hlog & Hlen & Hrep & Hpk & Hs & Hfin & Hh & Hst').
    { rewrite Hheap. apply lookup_insert_eq. }
    { done. } { done. }
    { rewrite Hd. by eapply prio_ok_sent. }
    { destruct Hmet as (? & ? & ?). destruct Hsent as (_ & _ & Hcnt & _). unfold meters_ok. cbn [length] in *. lia. }
    rewrite (cm_bind_Ok _ _ _ _ _ Hlog).
    destruct (sent_all_cons _ _ _ _ _ _ _ Hsent Hs) as (bs1 & Hs2 & Hbs1). rewrite Hd in *.
    exists ((false, pkt_len pkt) :: log), s', c', (pkt :: pkts), (bs1 ++ bs). cbn [passes take drop length].
    split_and!; [done|by rewrite Hlen|by constructor| |done| |by rewrite Hh, Hheap, insert_insert_eq|done].
    + constructor; [done|]. destruct Hsent as ((Hid & _) & _). by rewrite <- Hid.
    + unfold finish_queued in *. destruct seqs as [|j seqs].
      * rewrite bool_decide_false in Hfin by tauto. subst bs. rewrite (bool_decide_true ([] = [])) in Hbs1 by done.
        rewrite bool_decide_true by (split; [done|cbn; lia]). destruct Hbs1 as (b & -> & Hb). by exists b.
      * rewrite (bool_decide_false (_ = [])) in Hbs1 by done. subst bs1. cbn [app].
        erewrite bool_decide_ext; [exact Hfin|]. cbn [length]. split; intros [_ ?]; (split; [done|lia]).
Qed.
End logs.
