(* ===== verification/Sender.v ===== *)
(** Properties of the sending side (PriorityChannel.v): a message is sent packet
    by packet and kept, retransmit requests are served block by block, a stopped
    flow is released, and every packet finds its endpoint. *)

From S2P Require Import Prelude Bytes Runs BlockMgr TreeBlockMgr GradPacket LtMessage Packetizer Floats Meter Wire Queues Framing Comm PriorityChannel.

(** ** Endpoints of the types of service *)

Section endpoints.
Context {M : Type}.

(** The channel after the endpoints of eight priorities were opened. *)
Definition eight_priorities (meter : Meter) : outcome (PriorityChannel M) :=
  Start_endpoints (PriorityChannel_new meter) 8.

Lemma eight_priorities_routable meter : exists p, eight_priorities meter = Ok p /\
  forall u07 u01, 0 <= u07 <= 7 -> 0 <= u01 <= 1 ->
    let tos := Z.lor (Z.shiftl (u07 * 8) 2) u01 in
    exists m ep, pc_prio_mapping p !! Z.to_nat tos = Some m /\ 0 <= m /\
      pc_prio_endpoints p !! Z.to_nat m = Some ep /\ ue_tos ep = tos /\ ue_tx_queue ep = [].
Proof.
  unfold eight_priorities. vm_compute (Start_endpoints _ _).
  eexists. split; [reflexivity|]. cbn [pc_prio_mapping pc_prio_endpoints]. intros u07 u01 H7 H1.
  assert (u07 = 0 \/ u07 = 1 \/ u07 = 2 \/ u07 = 3 \/ u07 = 4 \/ u07 = 5 \/ u07 = 6 \/ u07 = 7) by lia.
  assert (u01 = 0 \/ u01 = 1) by lia.
  repeat match goal with Hd : _ \/ _ |- _ => destruct Hd end; subst;
    (eexists _, _; split; [cbv; reflexivity|]; split; [lia|]; split; [cbv; reflexivity|];
     split; reflexivity).
Qed.
End endpoints.

(** With the endpoints of eight priorities open, as [Start] opens them by
    default, the type of service that [DefaultPktPrioFunc] draws always has an
    endpoint, and the packet is queued at the endpoint of exactly that type of
    service. *)
Theorem default_tos_routed {M} meter pkt u07 u01 tos
    (H7 : 0 <= u07 <= 7) (H1 : 0 <= u01 <= 1)
    (Htos : DefaultPktPrioFunc u07 u01 pkt = Ok tos) :
  exists (p p' : PriorityChannel M) m ep,
    eight_priorities meter = Ok p /\ route_endpoint p (set_tos pkt tos) = Ok p' /\
    pc_prio_endpoints p' !! m = Some ep /\ ue_tos ep = tos /\ ue_tx_queue ep = [set_tos pkt tos].
Proof.
  assert (Ht : tos = Z.lor (Z.shiftl (u07 * 8) 2) u01).
  { unfold DefaultPktPrioFunc in Htos. by inv_ok. }
  destruct (eight_priorities_routable (M := M) meter) as (p & Hp & Hall).
  destruct (Hall u07 u01 H7 H1) as (m & ep & Hm & H0 & Hep & Het & Hq).
  assert (Hr : 0 <= tos < 256).
  { rewrite Ht. assert (u07 = 0 \/ u07 = 1 \/ u07 = 2 \/ u07 = 3 \/ u07 = 4 \/ u07 = 5 \/ u07 = 6 \/ u07 = 7) by lia.
    assert (u01 = 0 \/ u01 = 1) by lia.
    repeat match goal with Hd : _ \/ _ |- _ => destruct Hd end; subst; vm_compute; intuition congruence. }
  rewrite <- Ht in *.
  exists p. unfold route_endpoint. cbn [pkt_tos set_tos].
  rewrite (u8_small tos) by (change (2 ^ 8) with 256; lia). rewrite Hm.
  cbn [deref mbind outcome_bind]. rewrite (DEFINED_true _) by (b2p; lia). cbn [mbind outcome_bind].
  rewrite Hep. cbn [deref mbind outcome_bind].
  eexists _, (Z.to_nat m), _. split; [done|]. split; [reflexivity|]. cbn [pc_prio_endpoints set_endpoints].
  rewrite list_lookup_insert_eq by (by eapply lookup_lt_Some).
  split; [reflexivity|]. split; [exact Het|]. by rewrite Hq.
Qed.

Definition example_packet : GradPacket := mkGradPacket 7 0 0 24 2 1 0 0 4096.
Definition example_meter : Meter := mkMeter 255 0 0 0 0 1000.

Lemma default_tos_routed_witness :
  exists (p p' : PriorityChannel TreeBlockMgr) m ep,
    eight_priorities example_meter = Ok p /\ route_endpoint p (set_tos example_packet 161) = Ok p' /\
    pc_prio_endpoints p' !! m = Some ep /\ ue_tos ep = 161 /\ ue_tx_queue ep = [set_tos example_packet 161].
Proof. apply (default_tos_routed example_meter example_packet 5 1 161); [lia|lia|reflexivity]. Defined.

(** [DefaultPktPrioFunc] does not know how many priorities are configured:
    with four ([MLT_NUM_PRIO] or [MLT_NUM_QUEUES] set to 4) a draw of 4 or more
    has no endpoint, and routing the packet indexes the endpoints with -1. *)
Theorem default_tos_four_priorities {M} meter pkt u07 u01 tos
    (H7 : 4 <= u07 <= 7) (H1 : 0 <= u01 <= 1)
    (Htos : DefaultPktPrioFunc u07 u01 pkt = Ok tos) :
  exists p : PriorityChannel M, Start_endpoints (PriorityChannel_new meter) 4 = Ok p /\
    route_endpoint p (set_tos pkt tos) = Undef.
Proof.
  assert (Ht : tos = Z.lor (Z.shiftl (u07 * 8) 2) u01).
  { unfold DefaultPktPrioFunc in Htos. by inv_ok. }
  vm_compute (Start_endpoints _ _). eexists. split; [reflexivity|].
  assert (u07 = 4 \/ u07 = 5 \/ u07 = 6 \/ u07 = 7) by lia. assert (u01 = 0 \/ u01 = 1) by lia.
  repeat match goal with Hd : _ \/ _ |- _ => destruct Hd end; subst; vm_compute; reflexivity.
Qed.

Lemma default_tos_four_priorities_witness :
  exists p : PriorityChannel TreeBlockMgr, Start_endpoints (PriorityChannel_new example_meter) 4 = Ok p /\
    route_endpoint p (set_tos example_packet 161) = Undef.
Proof. apply (default_tos_four_priorities example_meter example_packet 5 1 161); [lia|lia|reflexivity]. Defined.

(** ** A message is sent *)

Section send.
Context (clock : nat -> Z) (malloc : Z -> list Z) (uninit : GradPacket).

Lemma take_seqZ k m n : take k (seqZ m n) = seqZ m (Z.min (Z.of_nat k) n).
Proof.
  revert m n. induction k as [|k IH]; intros m n; [by rewrite (seqZ_nil m (Z.min _ _)) by lia|].
  destruct (Z.ltb_spec 0 n) as [Hn|Hn]; [|by rewrite !seqZ_nil by lia].
  rewrite (seqZ_cons m n), (seqZ_cons m (Z.min _ _)) by lia. cbn [take]. rewrite IH. do 2 f_equal. lia.
Qed.

(** The connection has the packets [seqs] of the message left to send. *)
Definition sending_stage max_segment (e : LtMessageExt TreeBlockMgr) prio (c : ConnMeta TreeBlockMgr) (seqs : list Z) : Prop :=
  exists i, let n := packets (max_segment - 20) (ext_size e) in
    0 <= i <= n /\ seqs = seqZ i (n - i) /\
    if i =? n then in_sent c e prio else in_sending max_segment c e prio i.

Lemma poll_sending_idle max_segment e prio ptr (s : Comm TreeBlockMgr) c :
  0 < packets (max_segment - 20) (ext_size e) ->
  c_heap s !! ptr = Some c -> sending_stage max_segment e prio c [] ->
  sending_held max_segment clock ptr s = false /\ poll_sending max_segment clock malloc uninit ptr s = Ok (0, s).
Proof.
  intros Hn Hp (i & Hi & Hseq & Hst). assert (i = packets (max_segment - 20) (ext_size e)) as ->.
  { apply (f_equal length) in Hseq. rewrite length_seqZ in Hseq. cbn in Hseq. lia. }
  rewrite Z.eqb_refl in Hst. destruct Hst as [Hm _]. unfold sending_held, poll_sending.
  rewrite (cm_bind_Ok _ _ _ _ _ (load_conn_ok _ _ _ Hp)), Hp, Hm. done.
Qed.

Lemma poll_retransmit_idle max_segment e prio b bs ptr (s : Comm TreeBlockMgr) c :
  c_heap s !! ptr = Some c -> in_serving max_segment c e prio b bs [] ->
  retransmit_held max_segment clock ptr s = false /\
  poll_retransmit max_segment clock malloc uninit ptr s = Ok (0, s).
Proof.
  intros Hp (_ & _ & _ & _ & Hr). unfold retransmit_held, poll_retransmit.
  by rewrite (cm_bind_Ok _ _ _ _ _ (load_conn_ok _ _ _ Hp)), Hp, Hr.
Qed.

(** C12: a message that a connection starts to send is cut into its packets,
    under whatever rate limit. Of [k] polls of the connection, those that the
    rate holds back ([sending_held]: the guard of the code on the meter, the rate
    and the clock) report nothing and route nothing; those that it lets pass
    route the packets [0, 1, 2, ...] in this order, each to the endpoint of its
    type of service and as long as there are packets. When as many polls as
    there are packets have been let pass, one flow-finish signal has been queued
    and the message is among the retransmitting messages with everything
    marked as sent; before that it stands at the next packet and nothing has
    been queued. *)
Theorem message_sent_in_order (s : Comm TreeBlockMgr) max_segment ptr c e prio k
    (Hmalloc : forall n, 0 <= n -> Z.of_nat (length (malloc n)) = n)
    (Hseg : 20 < max_segment < 2 ^ 16) (Hptr : c_heap s !! ptr = Some c)
    (Hmsg : in_sending max_segment c e prio 0)
    (Hprio : prio_ok max_segment uninit s e (cm_dest_comm_id c) prio)
    (Hmeters : meters_ok s c (packets (max_segment - 20) (ext_size e))) :
  let n := packets (max_segment - 20) (ext_size e) in
  exists log s' c' pkts bs,
    poll_log k (sending_held max_segment clock ptr) (poll_sending max_segment clock malloc uninit ptr) s = Ok (log, s') /\
    length log = k /\ log_reports log pkts /\
    GetMaxSeqNum max_segment (ext_size e) = Ok (n - 1) /\
    let sent := Z.of_nat (passes log) in
    packets_of max_segment (c_comm_id s) e (cm_dest_comm_id c) pkts (seqZ 0 (Z.min n sent)) /\
    sent_all s s' pkts bs /\ c_heap s' = <[ptr := c']> (c_heap s) /\
    (n <= sent -> in_sent c' e prio /\
       exists b, bs = [(u16 (cm_dest_comm_id c), b)] /\ holds_signal b (SigFlowFinish (u32 (ext_msg_id e)))) /\
    (sent < n -> in_sending max_segment c' e prio sent /\ bs = []).
Proof.
  intros n. pose proof Hmsg as (Hsz & _).
  pose proof (packets_bounds (max_segment - 20) ltac:(lia) (ext_size e) ltac:(lia)) as Hn.
  assert (Hn0 : 0 < n) by (unfold n; nia).
  destruct (poll_log_run max_segment uninit e prio ptr (sending_held max_segment clock ptr)
      (poll_sending max_segment clock malloc uninit ptr) (sending_stage max_segment e prio)) with (k := k) (s := s) (c := c) (seqs := seqZ 0 n)
    as (log & s' & c' & pkts & bs & Hlog & Hlen & Hrep & Hpk & Hs & Hfin & Hh & Hst); try done.
  - intros s0 c0 H0. by apply poll_sending_idle.
  - intros s0 c0 i seqs tos Hp (i0 & Hi0 & Hseq & Hst) Hi Htos Hrt Hm. fold n in Hi0, Hseq, Hst, Hi |- *.
    destruct (Z.eqb_spec i0 n) as [->|Hne]; [by rewrite Z.sub_diag in Hseq|].
    rewrite (seqZ_cons i0) in Hseq by lia. injection Hseq as -> ->.
    destruct (poll_sending_turn max_segment clock malloc uninit Hmalloc Hseg s0 ptr c0 e prio i0 tos Hp Hst Hi Htos Hrt Hm)
      as [Hl|(Hheld & s1 & c1 & H1 & H2 & H3 & H4 & _ & _ & _ & H5 & H6)]; [by left|right]. fold n in H2, H6.
    split; [done|]. exists s1, c1. split; [done|].
    assert (Heq : bool_decide (seqZ (Z.succ i0) (Z.pred (n - i0)) = []) = (i0 =? n - 1)).
    { destruct (Z.eqb_spec i0 (n - 1)) as [->|]; [apply bool_decide_true, seqZ_nil; lia|].
      apply bool_decide_false. rewrite (seqZ_cons (Z.succ i0)) by lia. done. }
    rewrite Heq. do 4 (split; [done|]). exists (i0 + 1). fold n. split; [lia|]. split; [f_equal; lia|].
    destruct (Z.eqb_spec i0 (n - 1)), (Z.eqb_spec (i0 + 1) n); done || lia.
  - exists 0. fold n. split; [lia|]. split; [f_equal; lia|]. by rewrite (proj2 (Z.eqb_neq 0 n)) by lia.
  - apply Forall_forall. intros i Hi%elem_of_seqZ. fold n. lia.
  - rewrite length_seqZ, Z2Nat.id by lia. done.
  - exists log, s', c', pkts, bs. split; [done|]. split; [done|]. split; [done|]. split; [by apply GetMaxSeqNum_packets|].
    cbn zeta. rewrite take_seqZ in Hpk. split; [by rewrite Z.min_comm|].
    split; [done|]. split; [done|]. destruct Hst as (i & Hi & Hseq & Hst). fold n in Hi, Hseq, Hst.
    apply (f_equal length) in Hseq as Hl. rewrite length_drop, !length_seqZ in Hl.
    unfold finish_queued in Hfin. rewrite length_seqZ in Hfin. split; intros Hc.
    + assert (i = n) as -> by lia. rewrite Z.eqb_refl in Hst. split; [done|].
      rewrite bool_decide_true in Hfin; [done|]. split; [by rewrite (seqZ_cons 0) by lia|lia].
    + assert (i = Z.of_nat (passes log)) as -> by lia. rewrite (proj2 (Z.eqb_neq _ n)) in Hst by lia. split; [done|].
      rewrite bool_decide_false in Hfin; [done|lia].
Qed.

(** C18: a retransmit request for the blocks [bs] of a sent message is served
    packet by packet, under whatever rate limit. Of [k] polls, those that the
    rate holds back ([retransmit_held]) report nothing and route nothing; those
    that it lets pass route exactly the packets of the blocks, in order and as
    long as there are any. When as many polls as there are packets in the
    blocks have been let pass, one flow-finish signal has been queued, the request is
    removed and the message kept for further requests; before that the request
    stands at the next packet and nothing has been queued. *)
Theorem retransmission_exact (s : Comm TreeBlockMgr) max_segment ptr c e prio b bs k
    (Hmalloc : forall n, 0 <= n -> Z.of_nat (length (malloc n)) = n)
    (Hseg : 20 < max_segment < 2 ^ 16) (Hptr : c_heap s !! ptr = Some c)
    (Hserve : in_serving max_segment c e prio b bs (block_seqs bs)) (Hbs : bs <> [])
    (Hprio : prio_ok max_segment uninit s e (cm_dest_comm_id c) prio)
    (Hmeters : meters_ok s c (Z.of_nat (length (block_seqs bs)))) :
  exists log s' c' pkts fbs,
    poll_log k (retransmit_held max_segment clock ptr) (poll_retransmit max_segment clock malloc uninit ptr) s
      = Ok (log, s') /\
    length log = k /\ log_reports log pkts /\
    packets_of max_segment (c_comm_id s) e (cm_dest_comm_id c) pkts (take (passes log) (block_seqs bs)) /\
    sent_all s s' pkts fbs /\ c_heap s' = <[ptr := c']> (c_heap s) /\
    ((length (block_seqs bs) <= passes log)%nat -> in_sent c' e prio /\ cm_retransmit_reqs c' = ∅ /\
       exists fb, fbs = [(u16 (cm_dest_comm_id c), fb)] /\ holds_signal fb (SigFlowFinish (u32 (ext_msg_id e)))) /\
    ((passes log < length (block_seqs bs))%nat ->
       in_serving max_segment c' e prio b bs (drop (passes log) (block_seqs bs)) /\ fbs = []).
Proof.
  pose proof Hserve as (_ & _ & _ & (Hgood & _) & _).
  assert (Hne : block_seqs bs <> []).
  { destruct bs as [|b0 bs]; [done|]. inversion Hgood; subst. unfold block_seqs. cbn [map concat].
    rewrite (seqZ_cons (first b0)) by lia. done. }
  destruct (poll_log_run max_segment uninit e prio ptr (retransmit_held max_segment clock ptr)
      (poll_retransmit max_segment clock malloc uninit ptr) (fun c seqs => in_serving max_segment c e prio b bs seqs))
    with (k := k) (s := s) (c := c) (seqs := block_seqs bs)
    as (log & s' & c' & pkts & fbs & Hlog & Hlen & Hrep & Hpk & Hs & Hfin & Hh & Hst); try done.
  - intros s0 c0. apply poll_retransmit_idle.
  - intros s0 c0 i seqs tos Hp Hst Hi Htos Hrt Hm.
    destruct (poll_retransmit_turn max_segment clock malloc uninit Hmalloc Hseg s0 ptr c0 e prio b bs i seqs tos Hp Hst Hi Htos Hrt Hm)
      as [Hl|(Hheld & s1 & c1 & H1 & H2 & H3 & H4 & H5 & _ & _ & H6)]; [by left|right].
    split; [done|]. by exists s1, c1.
  - apply Forall_forall. intros x Hx%elem_of_block_seqs. destruct Hx as (b0 & Hb0 & Hx).
    rewrite Forall_forall in Hgood. apply Hgood in Hb0. cbn beta in Hb0. lia.
  - exists log, s', c', pkts, fbs. do 6 (split; [done|]). unfold finish_queued in Hfin. split; intros Hc.
    + rewrite bool_decide_true in Hfin by done. rewrite drop_ge in Hst by done. by destruct Hst as (? & _ & _ & _ & ?).
    + rewrite bool_decide_false in Hfin by lia. done.
Qed.
End send.

(** A communicator with one connection, to communicator 2, and one endpoint. *)
Definition example_msg : LtMessageExt TreeBlockMgr :=
  mkLtMessageExt 7 4096 [1; 2; 3; 4; 5; 6; 7; 8; 9; 10] 10 0 10 false (Tree_new 0).
Definition example_tos : PktPrioFunc := fun _ => Ok 1.
Definition example_conn (sm rm : gmap Z (SendRequest TreeBlockMgr))
    (rr : gmap Z (Buffer * RetransmitState)) : ConnMeta TreeBlockMgr :=
  mkConnMeta 2 0 (S754_infinity false) sm rm rr (RateMeter_new 100 0 0) (RateMeter_new 100 0 0)
    ∅ ∅ [] ∅.
Definition example_prio : PriorityChannel TreeBlockMgr :=
  mkPriorityChannel (<[1%nat := 0]> (replicate 256 (-1))) [mkUdpEndpoint 1 []] [] [] [1] {[2 := 0]}
    example_meter.
Definition example_comm (c : ConnMeta TreeBlockMgr) : Comm TreeBlockMgr :=
  mkComm 1 {[2 := Some 1]} {[1 := c]} 2 [] example_prio (mkReceivingChannel [] 0 [] [] example_meter)
    (mkReliableChannel ∅ [] []) [] 0.
Definition example_malloc (n : Z) : list Z := replicate (Z.to_nat n) 0.

Lemma example_malloc_length n : 0 <= n -> Z.of_nat (length (example_malloc n)) = n.
Proof. intros. unfold example_malloc. rewrite length_replicate. lia. Qed.

Lemma example_prio_ok c uninit : prio_ok 24 uninit (example_comm c) example_msg 2 example_tos.
Proof.
  intros i _. exists 1. split; [done|]. exists 0. split; [reflexivity|]. simpl. lia.
Qed.

(** The same connection with a rate of 100 bytes per second, and a clock with a
    tick of a tenth of a second: the rate holds back the first polls. *)
Definition example_slow (sm rm : gmap Z (SendRequest TreeBlockMgr))
    (rr : gmap Z (Buffer * RetransmitState)) : ConnMeta TreeBlockMgr :=
  mkConnMeta 2 0 (f64_of_Z 100) sm rm rr (RateMeter_new 1000000 0 0) (RateMeter_new 100 0 0)
    ∅ ∅ [] ∅.
Definition example_ticks (t : nat) : Z := 100000000 * Z.of_nat t.

Example example_slow_sending :
  match poll_log 6 (sending_held 24 example_ticks 1) (poll_sending 24 example_ticks example_malloc example_packet 1)
    (example_comm (example_slow {[7 := mkSendRequest example_msg example_tos]} ∅ ∅)) with
  | Ok (log, _) => log
  | _ => []
  end = [(true, 0); (true, 0); (true, 0); (false, 24); (false, 24); (false, 22)].
Proof. vm_compute. reflexivity. Qed.

Lemma message_sent_in_order_witness :
  let c := example_slow {[7 := mkSendRequest example_msg example_tos]} ∅ ∅ in
  exists s' c' pkts bs,
    poll_log 6 (sending_held 24 example_ticks 1) (poll_sending 24 example_ticks example_malloc example_packet 1)
      (example_comm c) = Ok ([(true, 0); (true, 0); (true, 0); (false, 24); (false, 24); (false, 22)], s') /\
    packets_of 24 1 example_msg 2 pkts [0; 1; 2] /\
    sent_all (example_comm c) s' pkts bs /\
    c_heap s' = <[1 := c']> (c_heap (example_comm c)) /\ in_sent c' example_msg example_tos.
Proof.
  intros c.
  destruct (message_sent_in_order example_ticks example_malloc example_packet (example_comm c)
    24 1 c example_msg example_tos 6) as (log & s' & c' & pkts & bs & H1 & H2 & _ & _ & H4 & H5 & H6 & H7 & _).
  - exact example_malloc_length.
  - lia.
  - reflexivity.
  - split; [simpl; lia|]. split; reflexivity.
  - apply example_prio_ok.
  - unfold meters_ok. change (packets _ _) with 3. simpl. lia.
  - pose proof example_slow_sending as Hlog. fold c in Hlog. rewrite H1 in Hlog. subst log.
    change (packets (24 - 20) (ext_size example_msg)) with 3 in *.
    exists s', c', pkts, bs. split; [exact H1|]. split; [exact H4|]. split; [exact H5|].
    split; [exact H6|]. exact (proj1 (H7 ltac:(simpl; lia))).
Defined.

(** A request for packets 0 and 2. *)
Definition example_request : Buffer :=
  Buffer_alloc (signal_bytes (SigRetransmitRequest 7 2 [mkBlock 0 1; mkBlock 2 3])).

Example example_slow_serving :
  match poll_log 4 (retransmit_held 24 example_ticks 1) (poll_retransmit 24 example_ticks example_malloc example_packet 1)
    (example_comm (example_slow ∅ {[7 := mkSendRequest (set_bytes example_msg 10) example_tos]}
      {[7 := (example_request, mkRetransmitState 0 0)]})) with
  | Ok (log, _) => log
  | _ => []
  end = [(true, 0); (true, 0); (false, 24); (false, 22)].
Proof. vm_compute. reflexivity. Qed.

Lemma retransmission_exact_witness :
  let c := example_slow ∅ {[7 := mkSendRequest (set_bytes example_msg 10) example_tos]}
             {[7 := (example_request, mkRetransmitState 0 0)]} in
  exists s' c' pkts fbs,
    poll_log 4 (retransmit_held 24 example_ticks 1) (poll_retransmit 24 example_ticks example_malloc example_packet 1)
      (example_comm c) = Ok ([(true, 0); (true, 0); (false, 24); (false, 22)], s') /\
    packets_of 24 1 example_msg 2 pkts [0; 2] /\
    sent_all (example_comm c) s' pkts fbs /\
    c_heap s' = <[1 := c']> (c_heap (example_comm c)) /\ in_sent c' example_msg example_tos /\
    cm_retransmit_reqs c' = ∅.
Proof.
  intros c.
  destruct (retransmission_exact example_ticks example_malloc example_packet (example_comm c)
    24 1 c example_msg example_tos example_request [mkBlock 0 1; mkBlock 2 3] 4)
    as (log & s' & c' & pkts & fbs & H1 & H2 & _ & H4 & H5 & H6 & H7 & _).
  - exact example_malloc_length.
  - lia.
  - reflexivity.
  - split; [split; reflexivity|]. split; [simpl; lia|].
    split; [exists 2; split; reflexivity|].
    split; [split; [repeat constructor; vm_compute; congruence|split; vm_compute; reflexivity]|].
    exists (mkRetransmitState 0 0). split; [reflexivity|].
    exists (mkBlock 0 1). repeat split; simpl; lia.
  - discriminate.
  - apply example_prio_ok.
  - unfold meters_ok. simpl. lia.
  - pose proof example_slow_serving as Hlog. fold c in Hlog. rewrite H1 in Hlog. subst log.
    exists s', c', pkts, fbs. split; [exact H1|]. split; [exact H4|]. split; [exact H5|].
    split; [exact H6|]. destruct (H7 (Nat.le_refl 2)) as (H8 & H9 & _). split; [exact H8|exact H9].
Defined.

(** ** Datagrams *)

(** [UdpEndpoint::OnSendReady] hands the queued packets to the socket in
    order and counts their bytes; but when it stops because the socket would
    block, the packet at hand has already left the queue and is lost. *)
Theorem Udp_OnSendReady_loses_one {A} (addr_of : Z -> outcome A) q evs q' sent total
    (Hrun : Udp_OnSendReady addr_of q evs = Ok (q', sent, total)) :
  exists lost, q = map snd sent ++ lost ++ q' /\
    total = foldr Z.add 0 (map (fun ap => pkt_len (snd ap)) sent) /\
    match lost with [] => q' = [] | [_] => True | _ => False end.
Proof.
  revert evs q' sent total Hrun. induction q as [|pkt q IH]; intros evs q' sent total Hrun.
  - injection Hrun as <- <- <-. by exists [].
  - cbn [Udp_OnSendReady] in Hrun. inv_ok. destruct evs as [|[nb| |] evs]; [| | |done].
    1,3: injection Hrun as <- <- <-; by exists [pkt].
    inv_ok. b2p. destruct x1 as [[q1 s1] t1]. injection Hrun as <- <- <-.
    destruct (IH _ _ _ _ H1) as (lost & -> & -> & Hl). exists lost. cbn. subst. done.
Qed.

Lemma Udp_OnSendReady_loses_one_witness :
  Udp_OnSendReady (fun _ => Ok tt) [example_packet; example_packet; example_packet] [UdpSent 24; UdpBlock]
    = Ok ([example_packet], [(tt, example_packet)], 24) /\
  exists lost, [example_packet; example_packet; example_packet] = [example_packet] ++ lost ++ [example_packet].
Proof.
  assert (H : Udp_OnSendReady (fun _ => Ok tt) [example_packet; example_packet; example_packet]
    [UdpSent 24; UdpBlock] = Ok ([example_packet], [(tt, example_packet)], 24)) by reflexivity.
  split; [exact H|].
  destruct (Udp_OnSendReady_loses_one _ _ _ _ _ _ H) as (lost & H1 & _). exists lost. exact H1.
Defined.

(** ** Stopping a flow *)

Section stop.
Context (malloc : Z -> list Z).

(** The channel knows the connection [ptr] under the id [comm_id]. *)
Definition knows {M} (s : Comm M) (comm_id : Z) (ptr : conn_ptr) : Prop :=
  exists i, pc_conn_meta_map (c_prio s) !! comm_id = Some i /\
    pc_conn_metas (c_prio s) !! Z.to_nat i = Some ptr.

Lemma FindConnMetaById_knows {M} (s : Comm M) comm_id ptr : knows s comm_id ptr -> FindConnMetaById comm_id s = Ok (ptr, s).
Proof.
  intros (i & Hi & Hp). unfold FindConnMetaById.
  rewrite (cm_bind_Ok (gets c_prio) _ s (c_prio s) s eq_refl), Hi. cbn [default from_option id].
  unfold modify_prio, modify, mbind, cm_bind, lift. rewrite Hp. cbn [deref mbind outcome_bind].
  rewrite insert_id by done. by destruct s as [? ? ? ? ? [] ? ? ? ?].
Qed.

(** Message [msg_id] is held in no table of the connection. *)
Definition released {M} (c : ConnMeta M) (msg_id : Z) : Prop :=
  cm_sending_msgs c !! msg_id = None /\ cm_retransmitting_msgs c !! msg_id = None /\
  cm_retransmit_reqs c !! msg_id = None.

(** Stopping a flow releases its message, whether it is still being sent or is
    waiting for or serving retransmit requests, leaves every other message
    alone, queues one stop confirmation for the receiver, and reports one send
    completion. *)
Lemma StopFlow_run (s : Comm TreeBlockMgr) comm_id msg_id ptr c
    (Hmalloc : forall n, 0 <= n -> Z.of_nat (length (malloc n)) = n)
    (Hid : 0 <= comm_id < 2 ^ 31) (Hmsg : 0 <= msg_id < 2 ^ 31)
    (Hknow : knows s comm_id ptr) (Hptr : c_heap s !! ptr = Some c)
    (Hone : is_Some (cm_sending_msgs c !! msg_id) ->
            cm_retransmitting_msgs c !! msg_id = None /\ cm_retransmit_reqs c !! msg_id = None) :
  exists s' c' b, StopFlow malloc (EncodeFlow comm_id msg_id) s = Ok (tt, s') /\
    c_heap s' = <[ptr := c']> (c_heap s) /\ released c' msg_id /\
    (forall k, k <> msg_id -> cm_sending_msgs c' !! k = cm_sending_msgs c !! k /\
       cm_retransmitting_msgs c' !! k = cm_retransmitting_msgs c !! k /\
       cm_retransmit_reqs c' !! k = cm_retransmit_reqs c !! k) /\
    rl_tx_queue (c_rel s') = rl_tx_queue (c_rel s) ++ [(comm_id, b)] /\
    holds_signal b (SigStopConfirm msg_id) /\
    c_cq s' = c_cq s ++ [mkCompletion msg_id CompSend comm_id 0] /\
    c_comm_id s' = c_comm_id s /\ c_prio s' = c_prio s /\ cm_dest_comm_id c' = cm_dest_comm_id c /\ cm_tx_meter c' = cm_tx_meter c /\
    cm_sending_rate c' = cm_sending_rate c /\ rl_ctrl_endpoints (c_rel s') = rl_ctrl_endpoints (c_rel s).
Proof.
  destruct (make_StopConfirm_holds malloc Hmalloc msg_id) as (b & Hb & Hsig).
  assert (Hflow : DecodeFlow (EncodeFlow comm_id msg_id) = (comm_id, msg_id)).
  { rewrite EncodeFlow_nonneg, DecodeFlow_split by lia. unwrap. done. }
  unfold StopFlow. rewrite Hflow, (cm_bind_Ok _ _ _ _ _ (FindConnMetaById_knows s comm_id ptr Hknow)).
  rewrite (cm_bind_Ok _ _ _ _ _ (load_conn_ok _ _ _ Hptr)).
  set (c' := match cm_sending_msgs c !! msg_id with
             | None => set_retransmit_reqs
                 (set_sending c (cm_sending_msgs c) (delete msg_id (cm_retransmitting_msgs c)))
                 (delete msg_id (cm_retransmit_reqs c))
             | Some _ => set_sending c (delete msg_id (cm_sending_msgs c)) (cm_retransmitting_msgs c)
             end).
  replace (match cm_sending_msgs c !! msg_id with None => _ | Some _ => _ end) with (store_conn ptr c')
    by (unfold c'; by destruct (cm_sending_msgs c !! msg_id)).
  rewrite (cm_bind_Ok _ _ _ _ _ (store_conn_ok ptr c c' s Hptr)).
  unfold lift. rewrite Hb. unfold mbind, cm_bind. cbn [outcome_bind].
  eexists _, c', b. split; [reflexivity|]. split; [done|].
  assert (Hrel : released c' msg_id /\ forall k, k <> msg_id ->
      cm_sending_msgs c' !! k = cm_sending_msgs c !! k /\
      cm_retransmitting_msgs c' !! k = cm_retransmitting_msgs c !! k /\
      cm_retransmit_reqs c' !! k = cm_retransmit_reqs c !! k).
  { unfold c', released. destruct (cm_sending_msgs c !! msg_id) eqn:Hm; cbn.
    - destruct (Hone ltac:(eauto)) as [H1 H2]. rewrite lookup_delete_eq. split; [done|].
      intros k Hk. by rewrite lookup_delete_ne by done.
    - rewrite !lookup_delete_eq. split; [done|]. intros k Hk. by rewrite !lookup_delete_ne by done. }
  destruct Hrel as [Hrel Hoth]. split; [done|]. split; [done|].
  split; [done|]. split; [done|]. split; [done|]. split; [done|]. split; [done|]. unfold c'. by destruct (cm_sending_msgs c !! msg_id).
Qed.
End stop.

(** ** Connections *)

(** Removing a connection does not renumber the others: when the first of
    three connections is removed, looking up the second one returns the third,
    so that its messages, requests and stops go to the wrong connection. *)
Theorem Find_after_removal_wrong {M} `{BlockMgr M} malloc (s : Comm M) a b d pa pb pd ca
    (Hdist : a <> b /\ a <> d /\ b <> d /\ pa <> pb /\ pa <> pd)
    (Hmetas : pc_conn_metas (c_prio s) = [pa; pb; pd])
    (Hmap : pc_conn_meta_map (c_prio s) = {[a := 0; b := 1; d := 2]})
    (Hheap : c_heap s !! pa = Some ca /\ cm_dest_comm_id ca = a) :
  exists s1 s2, handle_prio_notification malloc (REMOVE_CONNECTION pa) s = Ok (tt, s1) /\
    FindConnMetaById b s1 = Ok (pd, s2) /\ FindConnMetaById d s1 = Undef.
Proof.
  destruct Hdist as (Hab & Had & Hbd & Hpab & Hpad). destruct Hheap as [Hp Hd].
  unfold handle_prio_notification.
  rewrite (cm_bind_Ok _ _ _ _ _ (load_conn_ok _ _ _ Hp)), Hd.
  rewrite (cm_bind_Ok (gets c_prio) _ s (c_prio s) s eq_refl).
  unfold erase_conn. rewrite Hmetas. cbn [list_find]. rewrite decide_True by done.
  unfold lift, modify_prio, modify, reset_id_conn, mbind, cm_bind. cbn [outcome_bind delete list_delete].
  eexists _, _. split; [reflexivity|].
  unfold FindConnMetaById, gets, modify_prio, modify, lift, mbind, cm_bind.
  cbn [c_prio set_prio set_id_conn set_heap set_conns pc_conn_meta_map pc_conn_metas].
  rewrite Hmap. rewrite !lookup_delete_ne by done.
  rewrite (lookup_insert_ne _ a b), lookup_insert_eq by done.
  rewrite (lookup_insert_ne _ a d), (lookup_insert_ne _ b d), lookup_singleton_eq by done.
  cbn. split; reflexivity.
Qed.

Definition example_three : Comm TreeBlockMgr :=
  mkComm 1 {[2 := Some 1]} {[1 := example_conn ∅ ∅ ∅]} 4 []
    (mkPriorityChannel [] [] [] [] [1; 2; 3] {[2 := 0; 3 := 1; 4 := 2]} example_meter)
    (mkReceivingChannel [] 0 [] [] example_meter) (mkReliableChannel ∅ [] []) [] 0.

Lemma Find_after_removal_wrong_witness :
  exists s1 s2, handle_prio_notification example_malloc (REMOVE_CONNECTION 1) example_three = Ok (tt, s1) /\
    FindConnMetaById 3 s1 = Ok (3, s2) /\ FindConnMetaById 4 s1 = Undef.
Proof.
  apply (Find_after_removal_wrong example_malloc example_three 2 3 4 1 2 3 (example_conn ∅ ∅ ∅)).
  - repeat split; lia.
  - reflexivity.
  - reflexivity.
  - split; reflexivity.
Defined.

(** ** Accepting a retransmit request *)

Lemma req_rest_start (bs : list Block) n : good_blocks n bs -> bs <> [] ->
  exists blk, bs !! 0%nat = Some blk /\
    req_rest bs (mkRetransmitState 0 (first blk)) (block_seqs bs).
Proof.
  intros (Hbs & _) Hne. destruct bs as [|blk bs]; [done|]. inversion Hbs; subst.
  exists blk. split; [done|]. exists blk. cbn [rs_block_num rs_seq_num]. repeat split; try done; lia.
Qed.

(** A retransmit request that arrives for a sent message starts at its
    first block. *)
Lemma request_accepted malloc (s : Comm TreeBlockMgr) max_segment ptr c e prio b bs
    (Hsize : 0 < ext_size e < 2 ^ 32)
    (Hknow : knows s (cm_dest_comm_id c) ptr) (Hptr : c_heap s !! ptr = Some c)
    (Hsent : in_sent c e prio) (Hnoreq : cm_retransmit_reqs c = ∅)
    (Hdest : - 2 ^ 31 <= cm_dest_comm_id c < 2 ^ 31)
    (Hb : received_signal b (SigRetransmitRequest (ext_msg_id e) (cm_dest_comm_id c) bs))
    (Hgood : good_blocks (packets (max_segment - 20) (ext_size e)) bs) (Hne : bs <> []) :
  exists r, let c' := set_retransmit_reqs c r in
    handle_prio_notification malloc (REQUEST_RETRANSMIT b) s = Ok (tt, set_heap s (<[ptr := c']> (c_heap s))) /\
    in_serving max_segment c' e prio b bs (block_seqs bs).
Proof.
  destruct (req_rest_start bs _ Hgood Hne) as (blk & Hblk & Hrest).
  pose proof Hgood as (Hall & Hn & Hlen).
  assert (Hpos : 0 < Z.of_nat (length bs)) by (destruct bs; [done|simpl; lia]).
  assert (Hsc : s32 (cm_dest_comm_id c) = cm_dest_comm_id c) by (by apply s32_small).
  unfold handle_prio_notification.
  lift_step (received_type b _ Hb : load32 b fld_type = _).
  lift_step (CHECK_true _ (eq_refl : (signal_code kRetransmitRequest =? signal_code kRetransmitRequest) = true)).
  lift_step (received_num_blocks b _ _ _ Hb Hlen).
  lift_step (CHECK_true _ (proj2 (Z.ltb_lt _ _) Hpos)).
  lift_step (received_comm_id b _ _ _ Hb). rewrite Hsc.
  lift_step (received_msg_id b _ (ext_msg_id e) _ Hb eq_refl).
  step (FindConnMetaById_knows s _ ptr Hknow). lift_step (load_block_received b _ _ bs 0 blk _ Hb Hgood Hblk ltac:(lia)).
  step (load_conn_ok _ _ _ Hptr). rewrite (store_conn_ok ptr c _ s Hptr).
  eexists. split; [reflexivity|].
  split; [exact Hsent|]. split; [done|]. split; [by exists (cm_dest_comm_id c)|].
  split; [done|]. rewrite Hnoreq.
  destruct (block_seqs bs) as [|x rest] eqn:Hseqs.
  { exfalso. destruct bs as [|b0 bs]; [done|]. inversion Hall; subst. unfold block_seqs in Hseqs.
    cbn [map concat] in Hseqs. rewrite (seqZ_cons (first b0)) in Hseqs by lia. done. }
  exists (mkRetransmitState 0 (first blk)). split; [reflexivity|done].
Qed.

(** It is then in the state from which [retransmission_exact] serves it. *)
Theorem retransmit_request_accepted malloc (s : Comm TreeBlockMgr) max_segment ptr c e prio b bs
    (Hsize : 0 < ext_size e < 2 ^ 32)
    (Hknow : knows s (cm_dest_comm_id c) ptr) (Hptr : c_heap s !! ptr = Some c)
    (Hsent : in_sent c e prio) (Hnoreq : cm_retransmit_reqs c = ∅)
    (Hdest : - 2 ^ 31 <= cm_dest_comm_id c < 2 ^ 31)
    (Hb : received_signal b (SigRetransmitRequest (ext_msg_id e) (cm_dest_comm_id c) bs))
    (Hgood : good_blocks (packets (max_segment - 20) (ext_size e)) bs) (Hne : bs <> []) :
  exists s' c', handle_prio_notification malloc (REQUEST_RETRANSMIT b) s = Ok (tt, s') /\
    c_heap s' = <[ptr := c']> (c_heap s) /\
    in_serving max_segment c' e prio b bs (block_seqs bs).
Proof.
  destruct (request_accepted malloc s max_segment ptr c e prio b bs Hsize Hknow Hptr Hsent Hnoreq Hdest Hb Hgood Hne) as (r & Hrun & Hserv).
  eexists _, _. split; [exact Hrun|]. by split.
Qed.

Lemma retransmit_request_accepted_witness :
  let c := example_conn ∅ {[7 := mkSendRequest (set_bytes example_msg 10) example_tos]} ∅ in
  exists s' c', handle_prio_notification example_malloc (REQUEST_RETRANSMIT example_request) (example_comm c)
    = Ok (tt, s') /\ c_heap s' = <[1 := c']> (c_heap (example_comm c)) /\
    in_serving 24 c' example_msg example_tos example_request [mkBlock 0 1; mkBlock 2 3] [0; 2].
Proof.
  intros c.
  apply (retransmit_request_accepted example_malloc (example_comm c) 24 1 c example_msg example_tos
    example_request [mkBlock 0 1; mkBlock 2 3]).
  - simpl; lia.
  - exists 0. split; reflexivity.
  - reflexivity.
  - split; [reflexivity|]. split; reflexivity.
  - reflexivity.
  - simpl; lia.
  - reflexivity.
  - split; [repeat constructor; vm_compute; congruence|split; vm_compute; reflexivity].
  - discriminate.
Defined.
