(* ===== verification/ReceivingChannel.v ===== *)
(** The receiving side: src/src/mlt/receiving_channel.cc. One iteration of the
    thread's loop is [Recv_Run_once]. *)

From S2P Require Import Prelude Bytes Runs BlockMgr GradPacket LtMessage Packetizer Floats Meter Wire Queues Framing Comm.

(** [AlignUp<size_t>] *)
Definition AlignUp (alignment value : Z) : Z :=
  u64 (u64 (value + alignment - 1) `div` alignment * alignment).

(** [AlignUp(sizeof(float), static_cast<size_t>(ltmsg.size * (1 - loss_ratio)))] *)
Definition loss_bound (size : Z) (loss_ratio : double) : outcome Z :=
  v ← f64_to_u64 (f64_mul (f64_of_Z size) (f64_sub (f64_of_Z 1) loss_ratio));
  Ok (AlignUp 4 v).

Section channel.
Context {M : Type} `{BlockMgr M}.
Context (clock : nat -> Z) (malloc : Z -> list Z).

Definition set_rc_buf (r : ReceivingChannel) (buf : list Z) : ReceivingChannel :=
  mkReceivingChannel buf (rc_addr r) (rc_rr_queue r) (rc_notification_queue r) (rc_meter r).
Definition set_rr_queue (r : ReceivingChannel) q : ReceivingChannel :=
  mkReceivingChannel (rc_buf r) (rc_addr r) q (rc_notification_queue r) (rc_meter r).
Definition set_recv_notifications (r : ReceivingChannel) q : ReceivingChannel :=
  mkReceivingChannel (rc_buf r) (rc_addr r) (rc_rr_queue r) q (rc_meter r).
Definition set_rc_meter (r : ReceivingChannel) m : ReceivingChannel :=
  mkReceivingChannel (rc_buf r) (rc_addr r) (rc_rr_queue r) (rc_notification_queue r) m.
Definition modify_recv (f : ReceivingChannel -> ReceivingChannel) : cm M unit :=
  modify (fun s => set_recv s (f (c_recv s))).

Definition Recv_Enqueue (conn : conn_ptr) (msg : LtMessage) (loss_ratio : double) : cm M unit :=
  modify_recv (fun r => set_rr_queue r (rc_rr_queue r ++ [(conn, msg, loss_ratio)])).

(** ** HandleReceive *)

Definition RequestRateAdjustment (dest : Z) (rx_speed : double) : cm M unit :=
  b ← lift (make_RateAdjustment malloc rx_speed);
  Reliable_Enqueue dest b.

(** [pkt->grad_ptr = buf + kGradPacketHeader]: the field lies behind the
    header, where the payload starts. *)
Definition write_grad_ptr (buf : list Z) (ptr : Z) : outcome (list Z) :=
  DEFINED (sizeof_GradPacket <=? Z.of_nat (length buf));;
  Ok (splice (Z.to_nat kGradPacketHeader) (le_bytes 8 ptr) buf).

(** The memory at a gradient pointer: the receive buffer is the only one that
    such a pointer leads to. *)
Definition gradients_at (r : ReceivingChannel) (ptr : Z) : outcome (list Z) :=
  DEFINED (ptr =? rc_addr r + kGradPacketHeader);;
  Ok (drop (Z.to_nat kGradPacketHeader) (rc_buf r)).

(** Updating the receiving-rate monitor. *)
Definition update_rx_meter (ptr : conn_ptr) (dest size : Z) : cm M unit :=
  c ← load_conn ptr;
  m ← lift (RateMeter_Update (cm_rx_meter c) size);
  now ← clock_now clock;
  r ← lift (RateMeter_Elapsed m now);
  if snd r : bool then
    now ← clock_now clock;
    RequestRateAdjustment dest (RateMeter_GetBytesPerSecond (fst r) now);;
    now ← clock_now clock;
    store_conn ptr (set_rx_meter c (RateMeter_Clear (fst r) now))
  else store_conn ptr (set_rx_meter c (fst r)).

(** A packet of a message that has not been posted: into the backlog, if there
    is room. *)
Definition backlog_packet (ptr : conn_ptr) (msg_id size : Z) : cm M unit :=
  c ← load_conn ptr;
  r ← gets c_recv;
  let vec := default [] (cm_backlog_used_map c !! msg_id) in
  match reverse (cm_backlog_free_list c) with
  | [] => store_conn ptr (set_backlog c (cm_backlog_buffer c) (cm_backlog_free_list c)
                              (<[msg_id := vec]> (cm_backlog_used_map c)))
  | slot :: rest =>
      store_conn ptr (set_backlog c
        (<[slot := take (Z.to_nat size) (rc_buf r)]> (cm_backlog_buffer c))
        (reverse rest)
        (<[msg_id := vec ++ [slot]]> (cm_backlog_used_map c)))
  end.

(** The end of [HandleReceive] for a posted message. *)
Definition receive_packet (ptr : conn_ptr) (dest msg_id : Z) (pkt : GradPacket)
    (e : LtMessageExt M) : cm M unit :=
  ch ← gets c_recv;
  src ← lift (gradients_at ch (pkt_grad_ptr pkt));
  r ← lift (CopyGradients e pkt src);
  let '(e, copied) := r in
  let stop := (0 <? copied) && FinishReceiving e && negb (ext_stopped e) in
  let e := if stop then set_stopped e else e in
  c ← load_conn ptr;
  store_conn ptr (set_recv_msgs c (<[msg_id := e]> (cm_recv_msgs c)));;
  if stop then
    self ← gets c_comm_id;
    b ← lift (make_StopRequest malloc msg_id self);
    Reliable_Enqueue dest b
  else mret tt.

Definition HandleReceive (size : Z) : cm M unit :=
  ch ← gets c_recv;
  let grad_ptr := u64 (rc_addr ch + kGradPacketHeader) in
  buf ← lift (write_grad_ptr (rc_buf ch) grad_ptr);
  modify_recv (fun r => set_rc_buf r buf);;
  let pkt := parse_header buf grad_ptr in
  self ← gets c_comm_id;
  lift (CHECK (pkt_dst_comm_id pkt =? u16 self));;
  let dest := pkt_src_comm_id pkt in
  let msg_id := s32 (pkt_msg_id pkt) in
  conns ← gets c_id_conn;
  match conns !! dest with
  | None | Some None => mret tt
  | Some (Some ptr) =>
      update_rx_meter ptr dest size;;
      c ← load_conn ptr;
      match cm_recv_msgs c !! msg_id with
      | None => backlog_packet ptr msg_id size
      | Some e => receive_packet ptr dest msg_id pkt e
      end
  end.

(** ** Receive requests *)

(** A backlogged packet, through its own [grad_ptr]. *)
Definition copy_backlog (ch : ReceivingChannel) (buffer : gmap Z (list Z)) (e : LtMessageExt M)
    (slot : Z) : outcome (LtMessageExt M) :=
  bytes ← deref (buffer !! slot);
  DEFINED (sizeof_GradPacket <=? Z.of_nat (length bytes));;
  let pkt := parse_header bytes (le_val (slice (Z.to_nat kGradPacketHeader) 8 bytes)) in
  src ← gradients_at ch (pkt_grad_ptr pkt);
  r ← CopyGradients e pkt src;
  Ok (fst r).

Definition handle_receive_request (rr : conn_ptr * LtMessage * double) : cm M unit :=
  let '(ptr, ltmsg, loss_ratio) := rr in
  c ← load_conn ptr;
  let key := s32 (lt_msg_id ltmsg) in
  lift (CHECK (bool_decide (cm_recv_msgs c !! key = None)));;
  let vec := default [] (cm_backlog_used_map c !! key) in
  ch ← gets c_recv;
  e ← lift (foldM (copy_backlog ch (cm_backlog_buffer c)) (LtMessageExt_new ltmsg) vec);
  bound ← lift (loss_bound (lt_size ltmsg) loss_ratio);
  let used := match cm_backlog_used_map c !! key with
              | Some (_ :: _) => <[key := []]> (cm_backlog_used_map c)
              | _ => cm_backlog_used_map c
              end in
  store_conn ptr
    (set_backlog (set_recv_msgs c (<[key := set_bound e bound]> (cm_recv_msgs c)))
       (cm_backlog_buffer c) (cm_backlog_free_list c ++ vec) used).

Definition pop_receive_request : cm M (option (conn_ptr * LtMessage * double)) :=
  r ← gets c_recv;
  match rc_rr_queue r with
  | [] => mret None
  | x :: q => modify_recv (fun r => set_rr_queue r q);; mret (Some x)
  end.

Definition PollReceiveRequest : cm M unit :=
  r ← gets c_recv;
  drain (S (length (rc_rr_queue r))) pop_receive_request handle_receive_request.

(** ** Notifications *)

(** The blocks of a retransmit request: where they are written, and what. *)
Definition fill_blocks (b : Buffer) (blocks : list Z -> outcome (list Z)) : outcome Buffer :=
  let off := Z.to_nat (out_header + fld_blocks) in
  region ← blocks (drop off (buf_mem b));
  Ok (set_mem b (take off (buf_mem b) ++ region)).

(** The request of [FinishFlow] for [payload_size] bytes of blocks. *)
Definition make_RetransmitRequest (msg_id comm_id payload_size : Z)
    (blocks : list Z -> outcome (list Z)) : outcome Buffer :=
  let buffer_size := u64 (GetOutBufferSize sizeof_RetransmitRequest + payload_size) in
  let b := Buffer_alloc (malloc buffer_size) in
  b ← store32 b (out_header + fld_type) (signal_code kRetransmitRequest);
  b ← store32 b (out_header + fld_msg_id) (u32 msg_id);
  b ← store32 b (out_header + fld_comm_id) (u32 comm_id);
  b ← store32 b (out_header + fld_num_blocks) (u32 (payload_size `div` sizeof_Block));
  b ← fill_blocks b blocks;
  WriteLength (Buffer_set_msg_length b buffer_size).

(** [hdr->blocks[0] = Block(0, max_seq_num + 1)] in a region of one block. *)
Definition whole_block (max_seq_num : Z) (region : list Z) : outcome (list Z) :=
  DEFINED (sizeof_Block <=? Z.of_nat (length region));;
  Ok (splice 0 (Block_bytes (mkBlock 0 (u32 (max_seq_num + 1)))) region).

Definition FinishFlow (msg_id max_seq_num : Z) (ptr : conn_ptr) : cm M unit :=
  c ← load_conn ptr;
  let src_comm_id := cm_dest_comm_id c in
  self ← gets c_comm_id;
  match cm_recv_msgs c !! msg_id with
  | Some e =>
      if FinishReceiving e then mret tt
      else
        bm ← lift (if bm_Size (ext_block_mgr e) <=? max_seq_num
                   then bm_Resize (ext_block_mgr e) (u32 (max_seq_num + 1))
                   else Ok (ext_block_mgr e));
        store_conn ptr (set_recv_msgs c (<[msg_id := set_block_mgr e bm]> (cm_recv_msgs c)));;
        let payload_size := bm_ByteSize bm in
        if payload_size =? 0 then mret tt
        else
          b ← lift (make_RetransmitRequest msg_id self payload_size
                      (fun region => bm_SerializeToBuffer bm region payload_size));
          Reliable_Enqueue src_comm_id b
  | None =>
      b ← lift (make_RetransmitRequest msg_id self sizeof_Block (whole_block max_seq_num));
      Reliable_Enqueue src_comm_id b
  end.

Definition ConfirmStop (msg_id : Z) (ptr : conn_ptr) : cm M unit :=
  c ← load_conn ptr;
  match cm_recv_msgs c !! msg_id with
  | None => fatal
  | Some e =>
      cq_Push (mkCompletion msg_id CompRecv (cm_dest_comm_id c) (ext_bytes e));;
      store_conn ptr (set_recv_msgs c (delete msg_id (cm_recv_msgs c)))
  end.

Definition handle_recv_notification (n : RecvNotification) : cm M unit :=
  match n with
  | FINISH_FLOW msg_id max_seq_num conn => FinishFlow msg_id max_seq_num conn
  | CONFIRM_STOP msg_id conn => ConfirmStop msg_id conn
  end.

Definition pop_recv_notification : cm M (option RecvNotification) :=
  r ← gets c_recv;
  match rc_notification_queue r with
  | [] => mret None
  | n :: q => modify_recv (fun r => set_recv_notifications r q);; mret (Some n)
  end.

Definition Recv_PollNotification : cm M unit :=
  r ← gets c_recv;
  drain (S (length (rc_notification_queue r))) pop_recv_notification handle_recv_notification.

(** ** The loop of [Run] *)

(** Result of [RecvFrom]: a datagram, [EWOULDBLOCK], or an error. *)
Inductive recvfrom_ret := Datagram (bytes : list Z) | NoDatagram | RecvfromError.

(** [RecvFrom(buf, buffer_size, ...)] cuts a datagram to the buffer. *)
Definition recv_from (bytes : list Z) : cm M Z :=
  ch ← gets c_recv;
  let n := Nat.min (length bytes) (length (rc_buf ch)) in
  modify_recv (fun r => set_rc_buf r (splice 0 (take n bytes) (rc_buf r)));;
  mret (Z.of_nat n).

(** [meter.Add(nbytes)] *)
Definition add_rx_meter (nbytes : Z) : cm M unit :=
  r ← gets c_recv;
  now ← clock_now clock;
  m ← lift (Meter_Add (rc_meter r) nbytes now);
  modify_recv (fun r => set_rc_meter r (fst m)).

Definition Recv_Run_once (r : recvfrom_ret) : cm M unit :=
  (match r with
   | RecvfromError => fatal
   | NoDatagram => mret tt
   | Datagram bytes => nbytes ← recv_from bytes; add_rx_meter nbytes;; HandleReceive nbytes
   end);;
  PollReceiveRequest;;
  Recv_PollNotification.
End channel.
