(* ===== verification/Receiver.v ===== *)
(** Properties of the receiving side (ReceivingChannel.v): what a datagram does
    to the posted message, when the sender is asked to stop, which packets are
    asked for again, and how a flow completes. *)

From S2P Require Import Prelude Bytes Runs BlockMgr TreeBlockMgr GradPacket LtMessage Packetizer Transfer Floats Meter Wire Queues Framing Comm PriorityChannel ReceivingChannel.

(** ** The bytes that reach the message

    [HandleReceive] stores the address of the payload in [pkt->grad_ptr], a
    field that lies where the payload starts: the first eight payload bytes of
    every packet are replaced by that address. *)

Definition corrupt_byte (B ptr : Z) (j : nat) (x : Z) : Z :=
  let o := Z.of_nat j `mod` B in
  if decide (o < 8) then default x (le_bytes 8 ptr !! Z.to_nat o) else x.

Definition corrupt (B ptr : Z) (data : list Z) : list Z := imap (corrupt_byte B ptr) data.

Lemma length_corrupt B ptr data : length (corrupt B ptr data) = length data.
Proof. apply length_imap. Qed.

Section corrupt.
Context (B ptr : Z) (HB : 0 < B).

(** What the receive buffer holds behind the header, cut to the payload. *)
Lemma chunk_corrupt data i rest : 0 <= i < packets B (Z.of_nat (length data)) ->
  chunk B (corrupt B ptr data) i =
  take (length (chunk B data i)) (le_bytes 8 ptr ++ drop 8 (chunk B data i ++ rest)).
Proof.
  intros Hi. pose proof (length_chunk B HB data i Hi) as Hl.
  pose proof (chunk_len_pos B HB (Z.of_nat (length data)) i ltac:(lia) Hi) as Hc.
  pose proof (proj1 (lt_packets B HB (Z.of_nat (length data)) i ltac:(lia) ltac:(lia)) ltac:(lia)) as Hlt.
  set (L := chunk_len B (Z.of_nat (length data)) i) in *.
  assert (HiL : i * B + L <= Z.of_nat (length data)) by (unfold L, chunk_len; lia).
  assert (HLB : L <= B) by lia.
  apply list_eq. intros k. destruct (decide (k < Z.to_nat L)%nat) as [Hk|Hk].
  - rewrite lookup_take_lt by lia. unfold chunk at 1. rewrite length_corrupt. fold L.
    rewrite lookup_slice by lia. unfold corrupt. rewrite list_lookup_imap.
    destruct (lookup_lt_is_Some_2 data (Z.to_nat (i * B) + k)) as [x Hx]; [lia|].
    rewrite Hx. cbn [fmap option_fmap option_map].
    assert (Hmod : Z.of_nat (Z.to_nat (i * B) + k) `mod` B = Z.of_nat k).
    { replace (Z.of_nat (Z.to_nat (i * B) + k)) with (Z.of_nat k + i * B) by lia.
      rewrite Z.mod_add by lia. apply Z.mod_small. lia. }
    unfold corrupt_byte. rewrite Hmod, Nat2Z.id.
    assert (Hxc : chunk B data i !! k = Some x).
    { unfold chunk. fold L. by rewrite lookup_slice by lia. }
    case_decide as H8.
    + rewrite lookup_app_l by (rewrite length_le_bytes; lia).
      destruct (lookup_lt_is_Some_2 (le_bytes 8 ptr) k) as [y Hy]; [rewrite length_le_bytes; lia|].
      by rewrite Hy.
    + rewrite lookup_app_r by (rewrite length_le_bytes; lia). rewrite length_le_bytes, lookup_drop.
      replace (8 + (k - 8))%nat with k by lia. rewrite lookup_app_l by lia. by rewrite Hxc.
  - rewrite !lookup_ge_None_2; [done| |].
    + rewrite length_take. lia.
    + rewrite (length_chunk B HB); rewrite length_corrupt; [fold L; lia|done].
Qed.
End corrupt.

(** ** Steps of the handlers *)

Section steps.
Context {M : Type} `{TotalBlockMgr M}.
Context (clock : nat -> Z) (malloc : Z -> list Z).
Context (Hmalloc : forall n, 0 <= n -> Z.of_nat (length (malloc n)) = n).
Implicit Types s : Comm M.
Implicit Types c : ConnMeta M.

(** The receiving-rate monitor may queue a rate adjustment. *)
Lemma update_rx_meter_ok ptr dest size c s :
  c_heap s !! ptr = Some c -> 0 <= rm_scnt (cm_rx_meter c) -> rm_scnt (cm_rx_meter c) + 2 < 2 ^ 31 ->
  exists m bs t, update_rx_meter clock malloc ptr dest size s =
      Ok (tt, set_heap (set_ticks (set_rel s (mkReliableChannel (rl_ctrl_endpoints (c_rel s))
                (rl_tx_queue (c_rel s) ++ bs) (rl_notification_queue (c_rel s)))) t)
              (<[ptr := set_rx_meter c m]> (c_heap s))) /\
    0 <= rm_scnt m <= rm_scnt (cm_rx_meter c) + 2 /\
    (bs = [] \/ exists b x, bs = [(dest, b)] /\ holds_signal b (SigRateAdjustment x)).
Proof.
  intros Hp Hs0 Hs. unfold update_rx_meter. step (load_conn_ok _ _ _ Hp).
  unfold RateMeter_Update. rewrite (DEFINED_true _) by (b2p; lia). cbn [mbind outcome_bind].
  set (m1 := mkRateMeter _ _ _ _ _ _). lift_step (eq_refl : Ok m1 = Ok m1).
  step (eq_refl : clock_now clock s = Ok (clock (c_ticks s), set_ticks s (S (c_ticks s)))).
  unfold RateMeter_Elapsed. rewrite (DEFINED_true _) by (b2p; cbn; lia). cbn [mbind outcome_bind].
  assert (Hnorm : forall t m, set_heap (set_ticks s t) (<[ptr := set_rx_meter c m]> (c_heap s)) =
     set_heap (set_ticks (set_rel s (mkReliableChannel (rl_ctrl_endpoints (c_rel s))
                (rl_tx_queue (c_rel s) ++ []) (rl_notification_queue (c_rel s)))) t)
              (<[ptr := set_rx_meter c m]> (c_heap s))).
  { intros. rewrite app_nil_r. by destruct s as [? ? ? ? ? ? ? [] ? ?]. }
  destruct (rm_sample m1 <=? rm_scnt m1 + 1).
  - set (m2 := mkRateMeter _ _ _ _ _ _). set (el := _ <=? _).
    lift_step (eq_refl : Ok (m2, el) = Ok (m2, el)). cbn [fst snd]. destruct el.
    + step (eq_refl : clock_now clock (set_ticks s (S (c_ticks s))) = Ok (clock (S (c_ticks s)), set_ticks s (S (S (c_ticks s))))).
      unfold RequestRateAdjustment.
      destruct (make_RateAdjustment_holds malloc Hmalloc (RateMeter_GetBytesPerSecond m2 (clock (S (c_ticks s)))))
        as (b & Hb & Hsig).
      unfold lift. rewrite Hb. unfold mbind, cm_bind, Reliable_Enqueue, modify, clock_now. cbn [outcome_bind].
      unfold store_conn. cbn [c_heap set_ticks set_rel]. rewrite Hp, bool_decide_true by eauto.
      eexists _, [(dest, b)], _. split; [reflexivity|]. split; [cbn; lia|]. right. by exists b, (f32_of_f64 (RateMeter_GetBytesPerSecond m2 (clock (S (c_ticks s))))).
    + rewrite (store_conn_ok ptr c); [|exact Hp]. eexists _, [], _.
      split; [cbn [c_heap set_ticks]; rewrite Hnorm; reflexivity|]. split; [cbn; lia|by left].
  - set (m2 := mkRateMeter _ _ _ _ _ _). lift_step (eq_refl : Ok (m2, false) = Ok (m2, false)).
    cbn [fst snd]. rewrite (store_conn_ok ptr c); [|exact Hp]. eexists _, [], _.
    split; [cbn [c_heap set_ticks]; rewrite Hnorm; reflexivity|]. split; [cbn; lia|by left].
Qed.
End steps.

Lemma recv_from_ok {M} (bytes : list Z) (s : Comm M) : (length bytes <= length (rc_buf (c_recv s)))%nat ->
  recv_from bytes s = Ok (Z.of_nat (length bytes),
    set_recv s (set_rc_buf (c_recv s) (splice 0 bytes (rc_buf (c_recv s))))).
Proof.
  intros Hl. unfold recv_from, mbind, cm_bind, gets, modify_recv, modify, mret, cm_ret.
  by rewrite Nat.min_l, firstn_all by lia.
Qed.

(** ** One datagram *)

Section datagram.
Context {M : Type} `{TotalBlockMgr M}.
Context (clock : nat -> Z) (malloc : Z -> list Z).
Context (Hmalloc : forall n, 0 <= n -> Z.of_nat (length (malloc n)) = n).
Context (max_segment src_id self addr : Z) (Hseg : 28 <= max_segment < 2 ^ 16).
Context (Hsrc : 0 <= src_id < 2 ^ 16) (Hself : 0 <= self < 2 ^ 16) (Haddr : 0 <= addr < 2 ^ 63).
Context (msg : LtMessage).
Context (Hsize : 0 < lt_size msg < 2 ^ 32) (Hdata : Z.of_nat (length (lt_mem msg)) = lt_size msg).
Context (Hmid : 0 <= lt_msg_id msg < 2 ^ 31).
Implicit Types s : Comm M.
Implicit Types c : ConnMeta M.

Local Notation B := (max_segment - 20).
Local Notation n := (packets B (lt_size msg)).

(** The message as the receiver will hold it. *)
Definition corrupt_msg : LtMessage :=
  mkLtMessage (lt_msg_id msg) (lt_buf msg) (corrupt B (addr + 20) (lt_mem msg)) (lt_size msg).

Definition packet_of (tos i : Z) : GradPacket :=
  chunk_packet max_segment src_id (lt_msg_id msg) (lt_size msg) (lt_buf msg) self tos i.

(** Packet [i] on the wire: the header and the sender's bytes. *)
Definition datagram (tos i : Z) : list Z := header_bytes (packet_of tos i) ++ chunk B (lt_mem msg) i.

(** The communicator is receiving the message into [e]; the packets [T] have
    arrived. *)
Definition receiving s ptr c (mem0 : list Z) (e : LtMessageExt M) (T : gset Z) : Prop :=
  c_comm_id s = self /\ cm_dest_comm_id c = src_id /\ c_id_conn s !! src_id = Some (Some ptr) /\
  c_heap s !! ptr = Some c /\
  Z.of_nat (length (rc_buf (c_recv s))) = max_segment /\ rc_addr (c_recv s) = addr /\
  cm_recv_msgs c !! lt_msg_id msg = Some e /\ recv_inv max_segment corrupt_msg mem0 e T.

Lemma packet_of_wf tos i : 0 <= tos < 2 ^ 8 -> 0 <= i < n -> pkt_wf (packet_of tos i).
Proof.
  intros Ht Hi. assert (HB : 0 < B) by lia.
  pose proof (chunk_len_pos B HB (lt_size msg) i ltac:(lia) Hi).
  pose proof (proj1 (lt_packets B HB (lt_size msg) i ltac:(lia) ltac:(lia)) ltac:(lia)).
  unfold pkt_wf, packet_of, chunk_packet. cbn.
  pose proof (u32_range (lt_msg_id msg)). pose proof (u16_range self). pose proof (u16_range src_id).
  destruct (i =? _); nia.
Qed.

Definition with_grad_ptr (p : GradPacket) (g : Z) : GradPacket :=
  mkGradPacket (pkt_msg_id p) (pkt_offset p) (pkt_seq p) (pkt_len p) (pkt_dst_comm_id p)
    (pkt_src_comm_id p) (pkt_tos p) (pkt_is_last p) g.

Lemma length_datagram tos i : 0 <= i < n ->
  Z.of_nat (length (datagram tos i)) = 20 + chunk_len B (lt_size msg) i.
Proof.
  intros Hi. unfold datagram. rewrite length_app, length_header_bytes.
  rewrite (length_chunk B ltac:(lia)), Hdata by (by rewrite Hdata).
  pose proof (chunk_len_pos B ltac:(lia) (lt_size msg) i ltac:(lia) Hi). lia.
Qed.

(** The receive buffer once the datagram is in and [grad_ptr] is written. *)
Lemma buffer_after tos i buf : 0 <= i < n -> 0 <= tos < 2 ^ 8 -> Z.of_nat (length buf) = max_segment ->
  let buf1 := splice 0 (datagram tos i) buf in
  exists buf2 rest, write_grad_ptr buf1 (addr + 20) = Ok buf2 /\
    Z.of_nat (length buf2) = max_segment /\
    parse_header buf2 (addr + 20) = with_grad_ptr (packet_of tos i) (addr + 20) /\
    drop 20 buf2 = chunk B (lt_mem corrupt_msg) i ++ rest.
Proof.
  intros Hi Ht Hlen buf1. assert (HB : 0 < B) by lia.
  pose proof (length_datagram tos i Hi) as Hd.
  pose proof (chunk_len_pos B HB (lt_size msg) i ltac:(lia) Hi) as Hc.
  set (rest := drop (length (datagram tos i)) buf).
  assert (Hb1 : buf1 = header_bytes (packet_of tos i) ++ chunk B (lt_mem msg) i ++ rest).
  { unfold buf1, splice, rest, datagram. cbn [take app Nat.add]. by rewrite app_assoc. }
  assert (Hl1 : Z.of_nat (length buf1) = max_segment)
    by (unfold buf1; rewrite length_splice; lia).
  unfold write_grad_ptr. change sizeof_GradPacket with 28. pass. change (Z.to_nat kGradPacketHeader) with 20%nat.
  set (tail := le_bytes 8 (addr + 20) ++ drop 8 (chunk B (lt_mem msg) i ++ rest)).
  assert (Hb2 : splice 20 (le_bytes 8 (addr + 20)) buf1 = header_bytes (packet_of tos i) ++ tail).
  { unfold splice. rewrite Hb1, length_le_bytes.
    rewrite take_app_length' by (by rewrite length_header_bytes).
    rewrite drop_app_ge by (rewrite length_header_bytes; lia). rewrite length_header_bytes. done. }
  eexists _, (drop (length (chunk B (lt_mem msg) i)) tail). split; [reflexivity|].
  split; [rewrite length_splice; rewrite ?length_le_bytes; lia|]. rewrite Hb2. split.
  - change (header_bytes (packet_of tos i)) with (header_bytes (with_grad_ptr (packet_of tos i) (addr + 20))).
    apply (parse_header_bytes (with_grad_ptr (packet_of tos i) (addr + 20))).
    apply (packet_of_wf tos i Ht Hi).
  - rewrite drop_app_length' by (by rewrite length_header_bytes).
    cbn [lt_mem corrupt_msg]. rewrite (chunk_corrupt B (addr + 20) HB _ i rest) by (by rewrite Hdata).
    fold tail. by rewrite take_drop.
Qed.

(** The stop request goes out when a new packet reaches the bound. *)
Definition stops_now (e : LtMessageExt M) (T : gset Z) (i : Z) : bool :=
  bool_decide (i ∉ T) && (ext_bound e <=? received_bytes B (lt_size msg) (T ∪ {[i]})) &&
  negb (ext_stopped e).

(** The signals that a datagram can make the receiver queue. *)
Definition rate_signals (bs : list (Z * Buffer)) : Prop :=
  bs = [] \/ exists b x, bs = [(src_id, b)] /\ holds_signal b (SigRateAdjustment x).
Definition stop_signals (stop : bool) (bs : list (Z * Buffer)) : Prop :=
  if stop then exists b r, bs = [(src_id, b)] /\ holds_signal b (SigStopRequest (lt_msg_id msg) self r) /\
    length r = 4%nat
  else bs = [].

(** The end of [HandleReceive]: the copy, and the stop request. *)
Lemma receive_packet_ok s ptr c mem0 e T pkt i rest :
  c_comm_id s = self -> c_heap s !! ptr = Some c -> rc_addr (c_recv s) = addr ->
  cm_recv_msgs c !! lt_msg_id msg = Some e -> recv_inv max_segment corrupt_msg mem0 e T ->
  0 <= i < n -> carries max_segment corrupt_msg pkt i -> pkt_grad_ptr pkt = addr + 20 ->
  drop 20 (rc_buf (c_recv s)) = chunk B (lt_mem corrupt_msg) i ++ rest ->
  exists e' bs, receive_packet malloc ptr src_id (lt_msg_id msg) pkt e s =
      Ok (tt, set_heap (set_rel s (mkReliableChannel (rl_ctrl_endpoints (c_rel s))
                (rl_tx_queue (c_rel s) ++ bs) (rl_notification_queue (c_rel s))))
              (<[ptr := set_recv_msgs c (<[lt_msg_id msg := e']> (cm_recv_msgs c))]> (c_heap s))) /\
    recv_inv max_segment corrupt_msg mem0 e' (T ∪ {[i]}) /\
    ext_bound e' = ext_bound e /\ ext_stopped e' = ext_stopped e || stops_now e T i /\
    stop_signals (stops_now e T i) bs.
Proof.
  intros Hid Hp Ha He Hinv Hi Hcar Hgp Hbuf.
  assert (Hd' : Z.of_nat (length (lt_mem corrupt_msg)) = lt_size corrupt_msg)
    by (cbn; by rewrite length_corrupt).
  destruct (CopyGradients_step max_segment ltac:(lia) corrupt_msg Hsize Hd' mem0 e T pkt rest i Hinv Hi Hcar)
    as (e1 & Hcopy & Hinv1 & Hsame). pose proof Hsame as (_ & _ & Hbd & Hst).
  unfold receive_packet. step (eq_refl : gets c_recv s = Ok (c_recv s, s)).
  assert (Hg : gradients_at (c_recv s) (pkt_grad_ptr pkt) = Ok (chunk B (lt_mem corrupt_msg) i ++ rest)).
  { unfold gradients_at. rewrite Hgp, Ha. change kGradPacketHeader with 20. pass. by rewrite <- Hbuf. }
  lift_step Hg. lift_step Hcopy.
  assert (Hstop : (0 <? (if decide (i ∈ T) then 0 else chunk_len B (lt_size corrupt_msg) i)) &&
            FinishReceiving e1 && negb (ext_stopped e1) = stops_now e T i).
  { unfold stops_now, FinishReceiving. rewrite Hst, Hbd.
    destruct Hinv1 as (_ & _ & _ & _ & ->). cbn [lt_size corrupt_msg].
    pose proof (chunk_len_pos B ltac:(lia) (lt_size msg) i ltac:(lia) Hi).
    destruct (decide (i ∈ T)).
    - rewrite bool_decide_false by tauto. done.
    - rewrite bool_decide_true by done. rewrite (proj2 (Z.ltb_lt 0 _)) by lia. done. }
  rewrite Hstop. step (load_conn_ok _ _ _ Hp).
  destruct (stops_now e T i) eqn:Hnow.
  - step (store_conn_ok ptr c (set_recv_msgs c (<[lt_msg_id msg := set_stopped e1]> (cm_recv_msgs c))) s Hp).
    step (eq_refl : gets c_comm_id (set_heap s (<[ptr := set_recv_msgs c (<[lt_msg_id msg := set_stopped e1]> (cm_recv_msgs c))]> (c_heap s)))
          = Ok (c_comm_id s, set_heap s (<[ptr := set_recv_msgs c (<[lt_msg_id msg := set_stopped e1]> (cm_recv_msgs c))]> (c_heap s)))).
    rewrite Hid. destruct (make_StopRequest_holds malloc Hmalloc (lt_msg_id msg) self) as (b & Hb & Hsig).
    lift_step Hb. unfold Reliable_Enqueue, modify.
    eexists (set_stopped e1), [(src_id, b)]. split; [reflexivity|].
    split; [done|]. split; [done|]. split; [cbn; by rewrite orb_true_r|]. eexists b, _.
    split; [done|]. split; [done|]. pose proof (Hmalloc 20 ltac:(lia)). unfold slice. rewrite length_take, length_drop. lia.
  - step (store_conn_ok ptr c (set_recv_msgs c (<[lt_msg_id msg := e1]> (cm_recv_msgs c))) s Hp).
    exists e1, []. rewrite app_nil_r. split; [by destruct s as [? ? ? ? ? ? ? [] ? ?]|].
    split; [done|]. split; [done|]. split; [by rewrite orb_false_r|done].
Qed.

(** What receiving leaves alone. *)
Definition same_flows s s' : Prop :=
  c_prio s' = c_prio s /\ c_cq s' = c_cq s /\ c_meta_queue s' = c_meta_queue s /\
  rc_notification_queue (c_recv s') = rc_notification_queue (c_recv s) /\
  rc_rr_queue (c_recv s') = rc_rr_queue (c_recv s) /\ rc_meter (c_recv s') = rc_meter (c_recv s) /\
  rl_ctrl_endpoints (c_rel s') = rl_ctrl_endpoints (c_rel s).

(** The communicator [self], with its receive buffer, is connected to the
    sender. *)
Definition connected s ptr c : Prop :=
  c_comm_id s = self /\ cm_dest_comm_id c = src_id /\ c_id_conn s !! src_id = Some (Some ptr) /\
  c_heap s !! ptr = Some c /\ Z.of_nat (length (rc_buf (c_recv s))) = max_segment /\ rc_addr (c_recv s) = addr.

Lemma receiving_connected s ptr c mem0 e T : receiving s ptr c mem0 e T <->
  connected s ptr c /\ cm_recv_msgs c !! lt_msg_id msg = Some e /\ recv_inv max_segment corrupt_msg mem0 e T.
Proof. clear clock malloc Hmalloc Hseg Hsrc Hself Haddr Hsize Hdata Hmid. unfold receiving, connected. tauto. Qed.

(** The datagram lies at the front of the receive buffer. *)
Definition buffered s tos i : Prop := exists buf, Z.of_nat (length buf) = max_segment /\ rc_buf (c_recv s) = splice 0 (datagram tos i) buf.

(** Up to the search for the message: the checks and the rate monitor. *)
Lemma HandleReceive_header s ptr c tos i nbytes :
  connected s ptr c -> buffered s tos i -> 0 <= i < n -> 0 <= tos < 2 ^ 8 ->
  0 <= rm_scnt (cm_rx_meter c) -> rm_scnt (cm_rx_meter c) + 2 < 2 ^ 31 ->
  exists s' m bs rest,
    HandleReceive clock malloc nbytes s =
      match cm_recv_msgs c !! lt_msg_id msg with
      | None => backlog_packet ptr (lt_msg_id msg) nbytes
      | Some e => receive_packet malloc ptr src_id (lt_msg_id msg) (with_grad_ptr (packet_of tos i) (addr + 20)) e
      end s' /\
    connected s' ptr (set_rx_meter c m) /\ 0 <= rm_scnt m <= rm_scnt (cm_rx_meter c) + 2 /\
    rl_tx_queue (c_rel s') = rl_tx_queue (c_rel s) ++ bs /\ rate_signals bs /\ same_flows s s' /\
    drop 20 (rc_buf (c_recv s')) = chunk B (lt_mem corrupt_msg) i ++ rest.
Proof.
  intros (Hid & Hdest & Hconn & Hp & _ & Ha) (buf & Hbl & Hbuf) Hi Ht Hs0 Hs1.
  destruct (buffer_after tos i buf Hi Ht Hbl) as (buf2 & rest & Hw & Hl2 & Hparse & Hdrop).
  unfold HandleReceive. step (eq_refl : gets c_recv s = Ok (c_recv s, s)).
  rewrite Ha, Hbuf. change kGradPacketHeader with 20. rewrite (u64_small (addr + 20)) by lia. lift_step Hw.
  set (s2 := set_recv s (set_rc_buf (c_recv s) buf2)).
  step (eq_refl : modify_recv (fun r => set_rc_buf r buf2) s = Ok (tt, s2)).
  step (eq_refl : gets c_comm_id s2 = Ok (c_comm_id s2, s2)). rewrite Hparse.
  cbn [pkt_dst_comm_id pkt_src_comm_id pkt_msg_id with_grad_ptr packet_of chunk_packet].
  change (c_comm_id s2) with (c_comm_id s). rewrite Hid.
  lift_step (CHECK_true _ (Z.eqb_refl (u16 self))).
  step (eq_refl : gets c_id_conn s2 = Ok (c_id_conn s, s2)). rewrite (u16_small src_id) by lia.
  rewrite Hconn, s32_u32, (s32_small (lt_msg_id msg)) by lia.
  destruct (update_rx_meter_ok clock malloc Hmalloc ptr src_id nbytes c s2 Hp Hs0 Hs1)
    as (m & bs1 & t & Hup & Hm & Hbs1).
  step Hup. match type of Hup with _ = Ok (tt, ?st) => set (s3 := st) in * end.
  set (c3 := set_rx_meter c m) in *.
  assert (Hp3 : c_heap s3 !! ptr = Some c3) by apply lookup_insert_eq.
  step (load_conn_ok _ _ _ Hp3). change (cm_recv_msgs c3) with (cm_recv_msgs c).
  change (mkGradPacket _ _ _ _ _ _ _ _ (addr + 20)) with (with_grad_ptr (packet_of tos i) (addr + 20)).
  exists s3, m, bs1, rest. split; [reflexivity|]. by repeat (split; [done|]).
Qed.

Lemma HandleReceive_datagram s ptr c mem0 e T tos i nbytes :
  receiving s ptr c mem0 e T -> buffered s tos i -> 0 <= i < n -> 0 <= tos < 2 ^ 8 ->
  0 <= rm_scnt (cm_rx_meter c) -> rm_scnt (cm_rx_meter c) + 2 < 2 ^ 31 ->
  exists s' c' e' bs1 bs2,
    HandleReceive clock malloc nbytes s = Ok (tt, s') /\
    receiving s' ptr c' mem0 e' (T ∪ {[i]}) /\
    ext_bound e' = ext_bound e /\ ext_stopped e' = ext_stopped e || stops_now e T i /\
    0 <= rm_scnt (cm_rx_meter c') <= rm_scnt (cm_rx_meter c) + 2 /\
    rl_tx_queue (c_rel s') = rl_tx_queue (c_rel s) ++ bs1 ++ bs2 /\
    rate_signals bs1 /\ stop_signals (stops_now e T i) bs2 /\
    same_flows s s' /\ cm_backlog_free_list c' = cm_backlog_free_list c.
Proof.
  intros (Hconn & He & Hinv)%receiving_connected Hbuf Hi Ht Hs0 Hs1.
  destruct (HandleReceive_header s ptr c tos i nbytes Hconn Hbuf Hi Ht Hs0 Hs1)
    as (s3 & m & bs1 & rest & Hrun & Hc3 & Hm & Htx & Hbs1 & Hflows & Hdrop).
  rewrite He in Hrun. pose proof Hc3 as (Hid & Hdest & Hid_conn & Hp3 & Hl & Ha).
  destruct (receive_packet_ok s3 ptr (set_rx_meter c m) mem0 e T (with_grad_ptr (packet_of tos i) (addr + 20)) i rest)
    as (e' & bs2 & Hrun2 & Hinv' & Hb' & Hst' & Hbs2); [done..|].
  eexists _, (set_recv_msgs (set_rx_meter c m) (<[lt_msg_id msg := e']> (cm_recv_msgs c))), e', bs1, bs2.
  split; [rewrite Hrun; exact Hrun2|]. split.
  { apply receiving_connected. split; [|by split; [apply lookup_insert_eq|]].
    do 3 (split; [done|]). split; [apply lookup_insert_eq|done]. }
  split; [done|]. split; [done|]. split; [exact Hm|]. split; [cbn; by rewrite Htx, app_assoc|]. by repeat split; try apply Hflows.
Qed.

(** A packet of a message that is not posted is dropped, as without a backlog
    there is no room for it. *)
Lemma HandleReceive_dropped s ptr c tos i nbytes :
  connected s ptr c -> cm_recv_msgs c !! lt_msg_id msg = None -> cm_backlog_free_list c = [] ->
  buffered s tos i -> 0 <= i < n -> 0 <= tos < 2 ^ 8 ->
  0 <= rm_scnt (cm_rx_meter c) -> rm_scnt (cm_rx_meter c) + 2 < 2 ^ 31 ->
  exists s' c' bs,
    HandleReceive clock malloc nbytes s = Ok (tt, s') /\ connected s' ptr c' /\
    cm_recv_msgs c' = cm_recv_msgs c /\ cm_backlog_free_list c' = [] /\
    default [] (cm_backlog_used_map c' !! lt_msg_id msg) = default [] (cm_backlog_used_map c !! lt_msg_id msg) /\
    0 <= rm_scnt (cm_rx_meter c') <= rm_scnt (cm_rx_meter c) + 2 /\
    rl_tx_queue (c_rel s') = rl_tx_queue (c_rel s) ++ bs /\ rate_signals bs /\ same_flows s s'.
Proof.
  intros Hconn He Hfree Hbuf Hi Ht Hs0 Hs1.
  destruct (HandleReceive_header s ptr c tos i nbytes Hconn Hbuf Hi Ht Hs0 Hs1)
    as (s3 & m & bs & rest & Hrun & Hc3 & Hm & Htx & Hbs & Hflows & _).
  rewrite He in Hrun. pose proof Hc3 as (Hid & Hdest & Hid_conn & Hp3 & Hl & Ha).
  unfold backlog_packet in Hrun. revert Hrun. step (load_conn_ok _ _ _ Hp3).
  step (eq_refl : gets c_recv s3 = Ok (c_recv s3, s3)).
  cbn [cm_backlog_free_list cm_backlog_used_map cm_backlog_buffer set_rx_meter]. rewrite Hfree. cbn [reverse rev_append].
  rewrite (store_conn_ok _ _ _ _ Hp3).
  match goal with |- context [<[ptr := ?x]> (c_heap s3)] => set (c' := x) end. intros Hrun.
  eexists _, c', bs. split; [exact Hrun|]. split.
  { do 3 (split; [done|]). split; [apply lookup_insert_eq|done]. }
  split; [done|]. split; [done|]. split; [cbn; by rewrite lookup_insert_eq|].
  split; [exact Hm|]. split; [exact Htx|]. by split.
Qed.

Lemma receive_datagram s ptr c mem0 e T tos i :
  receiving s ptr c mem0 e T -> 0 <= i < n -> 0 <= tos < 2 ^ 8 ->
  0 <= rm_scnt (cm_rx_meter c) -> rm_scnt (cm_rx_meter c) + 2 < 2 ^ 31 ->
  exists s' c' e' bs1 bs2,
    (nbytes ← recv_from (datagram tos i); HandleReceive clock malloc nbytes) s = Ok (tt, s') /\
    receiving s' ptr c' mem0 e' (T ∪ {[i]}) /\
    ext_bound e' = ext_bound e /\ ext_stopped e' = ext_stopped e || stops_now e T i /\
    0 <= rm_scnt (cm_rx_meter c') <= rm_scnt (cm_rx_meter c) + 2 /\
    rl_tx_queue (c_rel s') = rl_tx_queue (c_rel s) ++ bs1 ++ bs2 /\
    rate_signals bs1 /\ stop_signals (stops_now e T i) bs2.
Proof.
  intros Hr Hi Ht Hs0 Hs1. pose proof Hr as (Hid & Hdest & Hconn & Hp & Hbl & Ha & He & Hinv).
  pose proof (length_datagram tos i Hi) as Hdl. pose proof (chunk_len_pos B ltac:(lia) (lt_size msg) i ltac:(lia) Hi) as Hc.
  step (recv_from_ok (datagram tos i) s ltac:(lia)).
  destruct (HandleReceive_datagram (set_recv s (set_rc_buf (c_recv s) (splice 0 (datagram tos i) (rc_buf (c_recv s))))) ptr c mem0 e T tos i
    (Z.of_nat (length (datagram tos i)))) as (s' & c' & e' & bs1 & bs2 & G1 & G2 & G3 & G4 & G5 & G6 & G7 & G8 & _); try done.
  - do 4 (split; [done|]). split; [|done]. cbn [c_recv set_recv rc_buf set_rc_buf]. rewrite length_splice; lia.
  - by eexists.
  - by exists s', c', e', bs1, bs2.
Qed.

(** ** Any sequence of datagrams *)

(** The reception of the datagrams [(tos, i)], one after the other. *)
Fixpoint receive_all (ds : list (Z * Z)) : cm M unit :=
  match ds with
  | [] => mret tt
  | d :: ds' =>
      (nbytes ← recv_from (datagram (fst d) (snd d)); HandleReceive clock malloc nbytes);;
      receive_all ds'
  end.

(** The queued control messages are the signals [sigs] to the sender. *)
Definition signals_to_sender (bs : list (Z * Buffer)) (sigs : list Signal) : Prop :=
  Forall2 (fun db sg => fst db = src_id /\ holds_signal (snd db) sg) bs sigs.

Definition is_stop_request (sg : Signal) : bool :=
  match sg with SigStopRequest _ _ _ => true | _ => false end.
Definition stop_requests (sigs : list Signal) : nat :=
  length (List.filter is_stop_request sigs).

Lemma signals_of_datagram bs1 bs2 stop : rate_signals bs1 -> stop_signals stop bs2 ->
  exists sigs, signals_to_sender (bs1 ++ bs2) sigs /\ stop_requests sigs = if stop then 1%nat else 0%nat.
Proof.
  intros H1' H2'.
  assert (exists l, signals_to_sender bs1 l /\ stop_requests l = 0%nat) as (l1 & Hl1 & Hc1).
  { destruct H1' as [->|(b & x & -> & Hb)]; [by exists []; split; [constructor|]|].
    exists [SigRateAdjustment x]. split; [by repeat constructor|done]. }
  assert (exists l, signals_to_sender bs2 l /\ stop_requests l = if stop then 1%nat else 0%nat)
    as (l2 & Hl2 & Hc2).
  { destruct stop; [|rewrite H2'; by exists []; split; [constructor|]].
    destruct H2' as (b & r & -> & Hb & _). eexists [_]. split; [by repeat constructor|done]. }
  exists (l1 ++ l2). split; [by apply Forall2_app|]. unfold stop_requests in *.
  rewrite List.filter_app, length_app. lia.
Qed.

(** The stop flag says whether the bound has been reached. *)
Definition stop_flag (e : LtMessageExt M) (T : gset Z) : Prop :=
  ext_stopped e = (ext_bound e <=? received_bytes B (lt_size msg) T).

Lemma stop_flag_step e e' T i : 0 <= i < n -> stop_flag e T -> ext_bound e' = ext_bound e ->
  ext_stopped e' = ext_stopped e || stops_now e T i -> stop_flag e' (T ∪ {[i]}).
Proof.
  intros Hi Hf Hb Hs. unfold stop_flag, stops_now in *. rewrite Hs, Hb, Hf.
  destruct (decide (i ∈ T)) as [Hin|Hnot].
  - rewrite bool_decide_false by tauto. cbn [andb]. rewrite orb_false_r.
    by replace (T ∪ {[i]}) with T by set_solver.
  - rewrite bool_decide_true by done. cbn [andb].
    rewrite (received_bytes_add max_segment ltac:(lia) msg Hsize Hdata T i) by done.
    pose proof (chunk_len_pos B ltac:(lia) (lt_size msg) i ltac:(lia) Hi).
    destruct (Z.leb_spec (ext_bound e) (received_bytes B (lt_size msg) T)),
      (Z.leb_spec (ext_bound e) (received_bytes B (lt_size msg) T + chunk_len B (lt_size msg) i));
      cbn; lia || done.
Qed.

Lemma receive_all_run ds s ptr c mem0 e T :
  receiving s ptr c mem0 e T -> stop_flag e T ->
  (forall d, d ∈ ds -> 0 <= fst d < 2 ^ 8 /\ 0 <= snd d < n) ->
  0 <= rm_scnt (cm_rx_meter c) -> rm_scnt (cm_rx_meter c) + 2 * Z.of_nat (length ds) < 2 ^ 31 ->
  exists s' c' e' bs sigs,
    receive_all ds s = Ok (tt, s') /\
    receiving s' ptr c' mem0 e' (T ∪ list_to_set (map snd ds)) /\
    0 <= rm_scnt (cm_rx_meter c') <= rm_scnt (cm_rx_meter c) + 2 * Z.of_nat (length ds) /\
    ext_bound e' = ext_bound e /\ stop_flag e' (T ∪ list_to_set (map snd ds)) /\
    rl_tx_queue (c_rel s') = rl_tx_queue (c_rel s) ++ bs /\ signals_to_sender bs sigs /\
    stop_requests sigs = if ext_stopped e' && negb (ext_stopped e) then 1%nat else 0%nat.
Proof.
  revert s c e T. induction ds as [|d ds IH]; intros s c e T Hr Hf Hds Hs0 Hs1.
  { exists s, c, e, [], []. cbn [map list_to_set]. replace (T ∪ ∅) with T by set_solver.
    rewrite app_nil_r, andb_negb_r. split; [done|]. split; [done|]. split; [cbn; lia|]. split; [done|].
    split; [done|]. split; [done|]. split; [constructor|done]. }
  destruct (Hds d) as [Ht Hi]; [set_solver|]. cbn [length] in Hs1.
  destruct (receive_datagram s ptr c mem0 e T (fst d) (snd d) Hr Hi Ht) as
    (s1 & c1 & e1 & b1 & b2 & Hrun & Hr1 & Hb1 & Hst1 & Hsc & Htx & Hrate & Hstop); [lia|lia|].
  destruct (signals_of_datagram b1 b2 _ Hrate Hstop) as (sg1 & Hsg1 & Hc1).
  pose proof (stop_flag_step e e1 T (snd d) Hi Hf Hb1 Hst1) as Hf1.
  destruct (IH s1 c1 e1 _ Hr1 Hf1) as (s2 & c2 & e2 & bs & sigs & Hrun2 & Hr2 & Hsc2 & Hb2 & Hf2 & Htx2 & Hsg2 & Hc2);
    [set_solver|lia|lia|].
  exists s2, c2, e2, ((b1 ++ b2) ++ bs), (sg1 ++ sigs).
  cbn [receive_all]. step Hrun. split; [done|].
  cbn [map list_to_set].
  replace (T ∪ ({[snd d]} ∪ list_to_set (map snd ds))) with (T ∪ {[snd d]} ∪ list_to_set (map snd ds)) by set_solver.
  split; [done|]. split; [cbn [length]; lia|]. split; [congruence|]. split; [done|].
  split; [by rewrite Htx2, Htx, !app_assoc|]. split; [by apply Forall2_app|].
  unfold stop_requests in *. rewrite List.filter_app, length_app, Hc1, Hc2, Hst1.
  assert (Hmono : ext_stopped e1 = true -> ext_stopped e2 = true).
  { unfold stop_flag in Hf1, Hf2. rewrite Hf1, Hf2, Hb2. intros Hle%Z.leb_le. apply Z.leb_le.
    etransitivity; [exact Hle|]. apply sumZ_le. intros x Hx%elem_of_seqZ.
    pose proof (chunk_len_pos B ltac:(lia) (lt_size msg) x ltac:(lia) ltac:(lia)).
    repeat case_decide; try lia; set_solver. }
  assert (Hno : ext_stopped e = true -> stops_now e T (snd d) = false).
  { intros Hst. unfold stops_now. rewrite Hst. apply andb_false_r. }
  rewrite Hst1 in Hmono. destruct (ext_stopped e), (stops_now e T (snd d)), (ext_stopped e2);
    cbn in *; try done; (by specialize (Hmono eq_refl)) || (by specialize (Hno eq_refl)).
Qed.
End datagram.

(** ** Asking for the missing packets *)

Section finish.
Context {M : Type} `{TotalBlockMgr M}.
Context (malloc : Z -> list Z).
Context (Hmalloc : forall n, 0 <= n -> Z.of_nat (length (malloc n)) = n).
Implicit Types s : Comm M.

Lemma split_word (l : list Z) : (4 <= length l)%nat ->
  exists w rest, l = w ++ rest /\ length w = 4%nat /\ length rest = (length l - 4)%nat.
Proof.
  intros. exists (take 4 l), (drop 4 l). split; [by rewrite take_drop|].
  rewrite length_take, length_drop. lia.
Qed.

(** The finished request: the length, the header, and the blocks. *)
Lemma make_RetransmitRequest_ok msg_id comm_id bs blocks :
  (forall region, length region = (8 * length bs)%nat -> blocks region = Ok (Blocks_bytes bs)) ->
  Z.of_nat (8 * length bs) < 2 ^ 32 - 20 ->
  let f := frame (SigRetransmitRequest msg_id comm_id bs) in
  make_RetransmitRequest malloc msg_id comm_id (Z.of_nat (8 * length bs)) blocks =
    Ok (mkBuffer f (Z.of_nat (length f)) (Z.of_nat (length f)) 0 true).
Proof.
  intros Hblocks Hlt f. unfold make_RetransmitRequest.
  change (GetOutBufferSize sizeof_RetransmitRequest) with 20. rewrite u64_small by lia.
  pose proof (Hmalloc (20 + Z.of_nat (8 * length bs)) ltac:(lia)) as Hl. revert Hl.
  generalize (malloc (20 + Z.of_nat (8 * length bs))). intros l Hl.
  destruct (split_word l) as (w0 & l0 & -> & H0' & Hl0); [lia|]. rewrite length_app in Hl.
  destruct (split_word l0) as (w1 & l1 & -> & H1' & Hl1); [lia|]. rewrite length_app in Hl.
  destruct (split_word l1) as (w2 & l2 & -> & H2' & Hl2); [lia|]. rewrite length_app in Hl.
  destruct (split_word l2) as (w3 & l3 & -> & H3' & Hl3); [lia|]. rewrite length_app in Hl.
  destruct (split_word l3) as (w4 & r & -> & H4' & Hr); [lia|]. rewrite length_app in Hl.
  clear Hl0 Hl1 Hl2 Hl3 Hr. unfold store32.
  set (t0 := le_bytes 4 (signal_code kRetransmitRequest)). set (t1 := le_bytes 4 (u32 msg_id)).
  set (t2 := le_bytes 4 (u32 comm_id)). set (t3 := le_bytes 4 (u32 _)).
  rewrite (Buffer_store_app _ _ w0 w1 (w2 ++ w3 ++ w4 ++ r) t0);
    [|done|by rewrite H0'|done]. cbn [mbind outcome_bind].
  rewrite (Buffer_store_app _ _ (w0 ++ t0) w2 (w3 ++ w4 ++ r) t1);
    [|cbn; by rewrite <- app_assoc|rewrite length_app, H0'; done|done]. cbn [mbind outcome_bind].
  rewrite (Buffer_store_app _ _ (w0 ++ t0 ++ t1) w3 (w4 ++ r) t2);
    [|cbn; by rewrite <- !app_assoc|rewrite !length_app, H0'; done|done]. cbn [mbind outcome_bind].
  rewrite (Buffer_store_app _ _ (w0 ++ t0 ++ t1 ++ t2) w4 r t3);
    [|cbn; by rewrite <- !app_assoc|rewrite !length_app, H0'; done|done]. cbn [mbind outcome_bind].
  unfold fill_blocks. change (Z.to_nat (out_header + fld_blocks)) with 20%nat.
  cbn [buf_mem set_mem]. rewrite (app_assoc _ t3 r).
  rewrite drop_app_length' by (rewrite !length_app, H0'; done).
  rewrite take_app_length' by (rewrite !length_app, H0'; done).
  rewrite Hblocks by lia. cbn [mbind outcome_bind].
  assert (Ht3 : t3 = le_bytes 4 (Z.of_nat (length bs))).
  { unfold t3. f_equal. change sizeof_Block with 8.
    rewrite Nat2Z.inj_mul, Z.mul_comm, Z.div_mul by lia. apply u32_small. lia. }
  rewrite (WriteLength_frame _ (SigRetransmitRequest msg_id comm_id bs)); [done| |].
  - exists w0. unfold signal_bytes. cbn [signal_type buf_mem buf_size buf_msg_length buf_handled
      Buffer_set_msg_length set_mem Buffer_alloc].
    fold t0 t1 t2. rewrite <- Ht3. split; [done|]. split; [by rewrite <- !app_assoc|].
    rewrite !length_app, length_Blocks_bytes, H0', H1', H2', H3', H4'.
    change (length t0) with 4%nat. change (length t1) with 4%nat.
    change (length t2) with 4%nat. change (length t3) with 4%nat.
    split; [lia|]. split; [rewrite u32_small; lia|done].
  - unfold signal_bytes. rewrite !length_app, !length_le_bytes, length_Blocks_bytes. lia.
Qed.

Context (max_segment : Z) (Hseg : 28 <= max_segment < 2 ^ 16).
Context (msg : LtMessage).
Context (Hsize : 0 < lt_size msg < 2 ^ 32) (Hdata : Z.of_nat (length (lt_mem msg)) = lt_size msg).
Local Notation B := (max_segment - 20).
Local Notation n := (packets B (lt_size msg)).

(** The packets that have not arrived. *)
Definition missing (T : gset Z) : gset Z := range_set 0 n ∖ T.

Lemma n_small : 0 < n < 2 ^ 30 - 7.
Proof.
  pose proof (packets_bounds B ltac:(lia) (lt_size msg) ltac:(lia)). nia.
Qed.

(** After the resize the manager's free set is what is missing. *)
Lemma grown_manager mem0 e T : recv_inv max_segment msg mem0 e T ->
  exists bm, (if bm_Size (ext_block_mgr e) <=? n - 1 then bm_Resize (ext_block_mgr e) (u32 (n - 1 + 1))
              else Ok (ext_block_mgr e)) = Ok bm /\
    bm_rep bm n (missing T) /\ recv_inv max_segment msg mem0 (set_block_mgr e bm) T.
Proof.
  intros Hinv. pose proof Hinv as (Hsz & Hlen & (m & F & Hbm & Hmn & HT) & Hmem & Hbytes).
  pose proof n_small as Hn. destruct (bm_rep_size _ _ _ Hbm) as [-> Hm32].
  assert (Hfree : forall F', (forall x, x ∈ F' <-> x ∈ F \/ m <= x < n) -> F' = missing T).
  { intros F' HF'. apply set_eq. intros x. unfold missing.
    rewrite elem_of_difference, elem_of_range_set, HT, HF'.
    pose proof (bm_rep_bound _ _ _ x Hbm) as Hb. destruct (decide (x ∈ F)) as [Hx|Hx].
    - specialize (Hb Hx). split; [intros _|by left]. split; [lia|by intros [_ ?]].
    - split.
      + intros [?|?]; [done|]. split; [lia|intros [? _]; lia].
      + intros [? Hno]. right. destruct (decide (m <= x)); [lia|]. exfalso. apply Hno. split; [lia|done]. }
  assert (Hgoal : exists bm, (if m <=? n - 1 then bm_Resize (ext_block_mgr e) (u32 (n - 1 + 1))
              else Ok (ext_block_mgr e)) = Ok bm /\ bm_rep bm n (missing T)).
  { destruct (Z.leb_spec m (n - 1)).
    - rewrite u32_small by lia. replace (n - 1 + 1) with n by lia.
      destruct (bm_Resize_spec _ m F n Hbm) as (bm & Hbm' & Hrep); [lia|auto with mlt|].
      exists bm. split; [done|]. rewrite <- (Hfree (F ∪ range_set m n)); [done|].
      intros x. by rewrite elem_of_union, elem_of_range_set.
    - exists (ext_block_mgr e). split; [done|]. assert (m = n) as -> by lia.
      rewrite <- (Hfree F); [done|]. intros x. intuition lia. }
  destruct Hgoal as (bm & Hbm' & Hrep). exists bm. split; [done|]. split; [done|].
  split; [done|]. split; [done|]. split; [|split; done].
  exists n, (missing T). split; [done|]. split; [lia|]. intros x. unfold missing.
  rewrite elem_of_difference, elem_of_range_set. destruct (decide (x ∈ T)) as [Hx|Hx].
  - pose proof (proj1 (HT x) Hx). split; [intros _|done]. split; [lia|by intros [_ ?]].
  - split; [done|]. intros [? Hno]. exfalso. apply Hno. split; [lia|done].
Qed.

Lemma missing_empty T : missing T = ∅ <-> forall i, 0 <= i < n -> i ∈ T.
Proof.
  clear - max_segment msg T.
  unfold missing. rewrite set_eq. split.
  - intros Hm i Hi. destruct (decide (i ∈ T)) as [|Hno]; [done|]. exfalso.
    apply (proj1 (elem_of_empty (C := gset Z) i)). apply Hm.
    rewrite elem_of_difference, elem_of_range_set. split; [lia|done].
  - intros Ha x. rewrite elem_of_difference, elem_of_range_set. split; [|set_solver].
    intros [Hx Hno]. destruct Hno. by apply Ha.
Qed.

Lemma free_runs_missing T : is_runs n (missing T) (free_runs n (missing T)).
Proof.
  pose proof n_small. apply free_runs_is_runs; [lia|]. intros x. unfold missing.
  rewrite elem_of_difference, elem_of_range_set. tauto.
Qed.

Lemma free_runs_nil T : length (free_runs n (missing T)) = 0%nat <-> missing T = ∅.
Proof.
  pose proof (free_runs_missing T) as [_ Hcov]. split.
  - intros Hl%nil_length_inv. rewrite Hl in Hcov. apply set_eq. intros x. split; [|set_solver].
    intros Hx%Hcov. by apply covered_nil in Hx.
  - intros Hm. rewrite Hm. unfold free_runs.
    destruct (free_runs n ∅) as [|b l] eqn:Hf; [by unfold free_runs in Hf; rewrite Hf|exfalso].
    rewrite <- Hm in Hf. rewrite Hf in Hcov. rewrite Hm in Hcov.
    destruct (free_runs_missing T) as [Hr _]. rewrite Hf in Hr. cbn in Hr.
    apply (proj1 (elem_of_empty (C := gset Z) (first b))). apply Hcov.
    apply covered_cons. left. lia.
Qed.

Lemma FinishFlow_missing s ptr c mem0 e T msg_id :
  c_heap s !! ptr = Some c -> cm_recv_msgs c !! msg_id = Some e ->
  recv_inv max_segment msg mem0 e T -> FinishReceiving e = false ->
  exists s' e',
    FinishFlow malloc msg_id (n - 1) ptr s = Ok (tt, s') /\
    c_heap s' = <[ptr := set_recv_msgs c (<[msg_id := e']> (cm_recv_msgs c))]> (c_heap s) /\
    recv_inv max_segment msg mem0 e' T /\ same_request e e' /\ ext_mem e' = ext_mem e /\
    c_comm_id s' = c_comm_id s /\ c_id_conn s' = c_id_conn s /\ c_recv s' = c_recv s /\
    c_cq s' = c_cq s /\ c_prio s' = c_prio s /\ c_meta_queue s' = c_meta_queue s /\
    rl_ctrl_endpoints (c_rel s') = rl_ctrl_endpoints (c_rel s) /\
    if decide (missing T = ∅) then c_rel s' = c_rel s
    else let f := frame (SigRetransmitRequest msg_id (c_comm_id s) (free_runs n (missing T))) in
         rl_tx_queue (c_rel s') = rl_tx_queue (c_rel s) ++
           [(cm_dest_comm_id c, mkBuffer f (Z.of_nat (length f)) (Z.of_nat (length f)) 0 true)].
Proof.
  intros Hp He Hinv Hfin. pose proof n_small as Hn.
  destruct (grown_manager mem0 e T Hinv) as (bm & Hgrow & Hbm & Hinv').
  unfold FinishFlow. step (load_conn_ok _ _ _ Hp).
  step (eq_refl : gets c_comm_id s = Ok (c_comm_id s, s)). rewrite He, Hfin.
  lift_step Hgrow.
  step (store_conn_ok ptr c (set_recv_msgs c (<[msg_id := set_block_mgr e bm]> (cm_recv_msgs c))) s Hp).
  pose proof (bm_ByteSize_spec bm n (missing T) Hbm ltac:(lia)) as Hbs. rewrite Hbs.
  change sizeof_Block with 8.
  destruct (decide (missing T = ∅)) as [Hm|Hm].
  - rewrite (proj2 (free_runs_nil T) Hm). cbn [Z.of_nat Z.mul Z.eqb].
    eexists _, (set_block_mgr e bm). split; [reflexivity|]. split; [done|]. split; [done|].
    split; [done|]. split; [done|]. done.
  - assert (Hne : length (free_runs n (missing T)) <> 0%nat) by (by rewrite free_runs_nil).
    rewrite (proj2 (Z.eqb_neq _ 0)) by lia.
    replace (8 * Z.of_nat (length (free_runs n (missing T))))
      with (Z.of_nat (8 * length (free_runs n (missing T)))) by lia.
    assert (Hlen : 2 * Z.of_nat (length (free_runs n (missing T))) <= n + 1).
    { apply free_runs_length; [lia|]. intros x. unfold missing.
      rewrite elem_of_difference, elem_of_range_set. tauto. }
    assert (Hser : forall region, length region = (8 * length (free_runs n (missing T)))%nat ->
      bm_SerializeToBuffer bm region (Z.of_nat (8 * length (free_runs n (missing T)))) =
        Ok (Blocks_bytes (free_runs n (missing T)))).
    { intros region Hr. pose proof (bm_Serialize_spec bm n (missing T) region Hbm ltac:(lia)
          ltac:(auto with mlt) ltac:(rewrite Hbs; change sizeof_Block with 8; lia)) as Hser.
      rewrite Hbs in Hser. change sizeof_Block with 8 in Hser.
      by replace (Z.of_nat (8 * length (free_runs n (missing T))))
        with (8 * Z.of_nat (length (free_runs n (missing T)))) by lia. }
    rewrite (cm_bind_Ok _ _ _ _ _ (lift_ok _ _ _ (make_RetransmitRequest_ok msg_id (c_comm_id s)
      (free_runs n (missing T)) _ Hser ltac:(lia)))).
    eexists _, (set_block_mgr e bm). split; [reflexivity|]. split; [done|]. split; [done|].
    by repeat (split; [done|]).
Qed.
End finish.
