(* ===== verification/Delivery.v ===== *)
(** Properties of the receiving side, from the lemmas of Receiver.v: what a
    posted message holds after any datagrams, when the sender is asked to stop,
    which packets are asked for again, and what ends a flow. *)

From S2P Require Import Prelude Bytes Runs BlockMgr TreeBlockMgr GradPacket LtMessage Packetizer Transfer Floats Meter Wire Queues Framing Comm PriorityChannel Sender ReceivingChannel Receiver.

(** ** Posting the receive request *)

Section post.
Context {M : Type} `{TotalBlockMgr M}.
Context (max_segment src_id self addr : Z) (Hseg : 28 <= max_segment < 2 ^ 16).
Context (msg : LtMessage) (Hsize : 0 < lt_size msg < 2 ^ 32).
Context (Hdata : Z.of_nat (length (lt_mem msg)) = lt_size msg).
Context (Hmid : 0 <= lt_msg_id msg < 2 ^ 31).
Implicit Types s : Comm M.
Implicit Types c : ConnMeta M.

(** The communicator [self] is connected to [src_id], and has neither posted
    the message nor kept a packet of it. *)
Definition awaiting s ptr c : Prop :=
  connected max_segment src_id self addr s ptr c /\
  cm_recv_msgs c !! lt_msg_id msg = None /\ default [] (cm_backlog_used_map c !! lt_msg_id msg) = [].

Lemma handle_receive_request_fresh s ptr c buf mem0 loss bound :
  awaiting s ptr c -> length mem0 = length (lt_mem msg) -> loss_bound (lt_size msg) loss = Ok bound ->
  exists s' c' e,
    handle_receive_request (ptr, mkLtMessage (lt_msg_id msg) buf mem0 (lt_size msg), loss) s = Ok (tt, s') /\
    receiving max_segment src_id self addr msg s' ptr c' mem0 e ∅ /\
    ext_bound e = bound /\ ext_stopped e = false /\ c_rel s' = c_rel s /\
    cm_rx_meter c' = cm_rx_meter c /\ s' = set_heap s (<[ptr := c']> (c_heap s)) /\
    cm_backlog_free_list c' = cm_backlog_free_list c.
Proof.
  intros ((Hid & Hdest & Hconn & Hp & Hbl & Ha) & Hr & Hu) Hm0 Hb.
  unfold handle_receive_request. cbn [lt_msg_id lt_size]. step (load_conn_ok _ _ _ Hp).
  rewrite s32_small by lia. lift_step (CHECK_true _ (bool_decide_eq_true_2 _ Hr)).
  rewrite Hu. step (eq_refl : gets c_recv s = Ok (c_recv s, s)). cbn [foldM].
  set (e := LtMessageExt_new _). lift_step (eq_refl : Ok e = Ok e). lift_step Hb.
  match goal with |- context [store_conn ptr ?c'] => set (c1 := c') end.
  rewrite (store_conn_ok ptr c _ s Hp). exists (set_heap s (<[ptr := c1]> (c_heap s))), c1, (set_bound e bound).
  split; [reflexivity|]. split; [|repeat (split; [done|]); apply app_nil_r].
  rewrite receiving_connected. split; [do 3 (split; [done|]); split; [apply lookup_insert_eq|done]|].
  split; [apply lookup_insert_eq|].
  apply (recv_inv_new max_segment ltac:(lia) (corrupt_msg max_segment addr msg) Hsize
    ltac:(cbn; by rewrite length_corrupt) (lt_msg_id msg) buf mem0).
  cbn. by rewrite length_corrupt.
Qed.
End post.

(** ** The end of a flow that has not reached its bound *)

Section round.
Context (malloc : Z -> list Z) (Hmalloc : forall n, 0 <= n -> Z.of_nat (length (malloc n)) = n).
Context (max_segment src_id self addr : Z) (Hseg : 28 <= max_segment < 2 ^ 16).
Context (msg : LtMessage) (Hsize : 0 < lt_size msg < 2 ^ 32).
Context (Hdata : Z.of_nat (length (lt_mem msg)) = lt_size msg).

Local Notation B := (max_segment - 20).
Local Notation n := (packets B (lt_size msg)).

Lemma runs_good_blocks lo bs : 0 <= lo -> runs_from lo bs n -> n < 2 ^ 31 -> Z.of_nat (length bs) < 2 ^ 32 -> good_blocks n bs.
Proof.
  intros Hlo Hr Hn Hl. split; [|done]. clear Hl. revert lo Hlo Hr. induction bs as [|b bs IH]; intros lo Hlo; [by constructor|].
  intros (H1 & H2 & H3). constructor; [lia|]. apply (IH (last b + 1)); [lia|done].
Qed.

Lemma runs_NoDup lo bs hi : runs_from lo bs hi -> NoDup (block_seqs bs) /\ forall x, x ∈ block_seqs bs -> lo <= x.
Proof.
  revert lo. induction bs as [|b bs IH]; intros lo Hr; [by split; [constructor|intros x Hx%elem_of_nil]|].
  destruct Hr as (H1 & H2 & H3). destruct (IH _ H3) as [Hn Hx]. unfold block_seqs in *. cbn [map concat]. split.
  - apply NoDup_app. split; [apply NoDup_seqZ|]. split; [|done]. intros x Hx1%elem_of_seqZ Hx2%Hx. lia.
  - intros x [Hx1%elem_of_seqZ|Hx2%Hx]%elem_of_app; lia.
Qed.

(** [FinishFlow] asks the sender for exactly the packets outside [T], and the
    communicator goes on receiving. *)
Lemma FinishFlow_requests (s : Comm TreeBlockMgr) ptr c mem0 e T :
  receiving max_segment src_id self addr msg s ptr c mem0 e T ->
  received_bytes B (lt_size msg) T < Z.min (ext_bound e) (lt_size msg) ->
  exists s' c' e' blocks,
    FinishFlow malloc (lt_msg_id msg) (n - 1) ptr s = Ok (tt, s') /\
    receiving max_segment src_id self addr msg s' ptr c' mem0 e' T /\
    ext_bound e' = ext_bound e /\ ext_stopped e' = ext_stopped e /\
    cm_rx_meter c' = cm_rx_meter c /\
    (let f := frame (SigRetransmitRequest (lt_msg_id msg) self blocks) in
     rl_tx_queue (c_rel s') = rl_tx_queue (c_rel s) ++
      [(src_id, mkBuffer f (Z.of_nat (length f)) (Z.of_nat (length f)) 0 true)]) /\
    (forall i, i ∈ block_seqs blocks <-> 0 <= i < n /\ i ∉ T) /\
    good_blocks n blocks /\ blocks <> [] /\ NoDup (block_seqs blocks) /\ Z.of_nat (length blocks) < 2 ^ 29 - 3 /\ same_flows s s' /\
    cm_backlog_free_list c' = cm_backlog_free_list c.
Proof.
  intros (Hid & Hdest & Hconn & Hp & Hbl & Ha & He & Hinv) Hlt.
  set (cmsg := corrupt_msg max_segment addr msg) in *.
  assert (Hcdata : Z.of_nat (length (lt_mem cmsg)) = lt_size cmsg) by (cbn; by rewrite length_corrupt).
  assert (Hfin : FinishReceiving e = false).
  { unfold FinishReceiving. destruct Hinv as (_ & _ & _ & _ & ->). apply Z.leb_gt. cbn. lia. }
  destruct (FinishFlow_missing malloc Hmalloc max_segment Hseg cmsg Hsize Hcdata s ptr c mem0 e
    T (lt_msg_id msg) Hp He Hinv Hfin)
    as (s2 & e2 & Hff & Hheap & Hinv2 & (_ & _ & Hbd2 & Hst2) & _ & Hid2 & Hconn2 & Hrecv2 & Hcq2 & Hprio2 & Hmeta2 & Hctrl2 & Hrel).
  assert (Hmiss : missing max_segment cmsg T <> ∅).
  { intros Hm. pose proof (proj1 (missing_empty max_segment cmsg T) Hm) as Hall.
      pose proof (proj2 (received_bytes_full max_segment ltac:(lia) msg Hsize Hdata T) Hall). lia. }
  rewrite decide_False in Hrel by done. cbv zeta in Hrel. rewrite Hid, Hdest in Hrel.
  exists s2, (set_recv_msgs c (<[lt_msg_id msg := e2]> (cm_recv_msgs c))), e2,
    (free_runs n (missing max_segment cmsg T)).
  split; [exact Hff|]. split; [|split; [done|split; [done|split; [done|split; [exact Hrel|]]]]].
  - split; [congruence|]. split; [done|]. split; [congruence|]. rewrite Hheap.
    split; [apply lookup_insert_eq|]. rewrite Hrecv2. split; [done|]. split; [done|].
    split; [apply lookup_insert_eq|done].
  - destruct (free_runs_missing max_segment Hseg cmsg Hsize Hcdata T) as [Hruns Hcov].
    assert (Hlen : 2 * Z.of_nat (length (free_runs n (missing max_segment cmsg T))) <= n + 1).
    { pose proof (n_small max_segment Hseg msg Hsize). apply free_runs_length; [lia|]. intros x. unfold missing.
      rewrite elem_of_difference, elem_of_range_set. cbn [lt_size cmsg corrupt_msg]. tauto. }
    pose proof (n_small max_segment Hseg msg Hsize) as Hn. change (lt_size cmsg) with (lt_size msg) in *.
    split; [|split; [|split; [|split; [by apply (runs_NoDup 0 _ n)|split; [lia|]]]]].
    + intros i. rewrite elem_of_block_seqs. etransitivity; [symmetry; apply Hcov|]. unfold missing.
      by rewrite elem_of_difference, elem_of_range_set.
    + apply (runs_good_blocks 0); [lia|exact Hruns|lia|lia].
    + intros Hnil. apply Hmiss, set_eq. intros x. split; [|set_solver].
      intros Hx%Hcov. rewrite Hnil in Hx. by apply covered_nil in Hx.
    + split; [|done]. unfold same_flows. rewrite Hrecv2. tauto.
Qed.
End round.

(** ** Any datagrams *)

(** A posted message after the datagrams [ds] (type of service and packet
    number): its bytes, the bytes counted, and the control messages queued. *)
Section delivery.
Context (clock : nat -> Z) (malloc : Z -> list Z).
Context (Hmalloc : forall n, 0 <= n -> Z.of_nat (length (malloc n)) = n).
Context (max_segment src_id self addr : Z) (Hseg : 28 <= max_segment < 2 ^ 16).
Context (Hsrc : 0 <= src_id < 2 ^ 16) (Hself : 0 <= self < 2 ^ 16) (Haddr : 0 <= addr < 2 ^ 63).
Context (msg : LtMessage) (Hsize : 0 < lt_size msg < 2 ^ 32).
Context (Hdata : Z.of_nat (length (lt_mem msg)) = lt_size msg).
Context (Hmid : 0 <= lt_msg_id msg < 2 ^ 31).
Context (s : Comm TreeBlockMgr) (ptr : conn_ptr) (c : ConnMeta TreeBlockMgr).
Context (Hs : awaiting max_segment src_id self addr msg s ptr c).
Context (Hscnt : rm_scnt (cm_rx_meter c) = 0).

Local Notation B := (max_segment - 20).
Local Notation n := (packets B (lt_size msg)).
Local Notation arrived ds := (list_to_set (map snd ds) : gset Z).

(** The receive request, then the datagrams. *)
Definition post_and_receive (buf : Z) (mem0 : list Z) (loss : double) (ds : list (Z * Z)) :
    cm TreeBlockMgr unit :=
  handle_receive_request (ptr, mkLtMessage (lt_msg_id msg) buf mem0 (lt_size msg), loss);;
  receive_all clock malloc max_segment src_id self msg ds.

Lemma post_and_receive_run buf mem0 loss bound ds :
  length mem0 = length (lt_mem msg) -> loss_bound (lt_size msg) loss = Ok bound -> 0 < bound ->
  (forall d, d ∈ ds -> 0 <= fst d < 2 ^ 8 /\ 0 <= snd d < n) -> Z.of_nat (length ds) < 2 ^ 30 ->
  exists s' c' e bs sigs,
    post_and_receive buf mem0 loss ds s = Ok (tt, s') /\
    receiving max_segment src_id self addr msg s' ptr c' mem0 e (arrived ds) /\
    0 <= rm_scnt (cm_rx_meter c') <= 2 * Z.of_nat (length ds) /\
    ext_bound e = bound /\ ext_stopped e = (bound <=? received_bytes B (lt_size msg) (arrived ds)) /\
    rl_tx_queue (c_rel s') = rl_tx_queue (c_rel s) ++ bs /\ signals_to_sender src_id bs sigs /\
    stop_requests sigs = if bound <=? received_bytes B (lt_size msg) (arrived ds) then 1%nat else 0%nat.
Proof.
  intros Hm0 Hb Hpos Hds Hn.
  destruct (handle_receive_request_fresh max_segment src_id self addr Hseg msg Hsize Hdata Hmid s ptr c
    buf mem0 loss bound Hs Hm0 Hb) as (s1 & c1 & e1 & Hrun & Hr & Hb1 & Hst & Hrel & Hm & _).
  assert (Hz : received_bytes B (lt_size msg) ∅ = 0).
  { unfold received_bytes. rewrite (sumZ_ext _ (fun _ => 0)).
    - induction (seqZ 0 n); cbn; lia.
    - intros. by rewrite decide_False by set_solver. }
  assert (Hflag : stop_flag max_segment msg e1 ∅).
  { unfold stop_flag. rewrite Hst, Hb1, Hz. symmetry. apply Z.leb_gt. lia. }
  destruct (receive_all_run clock malloc Hmalloc max_segment src_id self addr Hseg Hsrc Hself Haddr msg Hsize
    Hdata Hmid ds s1 ptr c1 mem0 e1 ∅ Hr Hflag Hds) as (s2 & c2 & e2 & bs & sigs & Hrun2 & Hr2 & Hsc2 & Hb2 & Hf2 & Htx & Hsg & Hc);
    [rewrite Hm; lia..|].
  replace (∅ ∪ arrived ds) with (arrived ds) in * by set_solver.
  exists s2, c2, e2, bs, sigs. unfold post_and_receive. step Hrun. split; [done|]. split; [done|].
  rewrite Hm in Hsc2. split; [lia|]. unfold stop_flag in Hf2. rewrite Hb2, Hb1 in Hf2. split; [congruence|]. split; [done|].
  rewrite Htx, Hrel. split; [done|]. split; [done|]. by rewrite Hc, Hf2, Hst, andb_true_r.
Qed.

(** C19: a posted message after any datagrams of it, in any order and any number
    of times: the process has not failed, the bytes of the packets that arrived
    are in place with the first eight bytes of every packet replaced by the
    address of the payload in the receive buffer ([corrupt]), the other bytes
    are untouched, every byte is counted once, and the sender has been sent
    exactly one stop request when the count has reached the loss bound and none
    before. *)
Theorem reception buf mem0 loss bound ds :
  length mem0 = length (lt_mem msg) -> loss_bound (lt_size msg) loss = Ok bound -> 0 < bound ->
  (forall d, d ∈ ds -> 0 <= fst d < 2 ^ 8 /\ 0 <= snd d < n) -> Z.of_nat (length ds) < 2 ^ 30 ->
  exists s' c' e bs sigs,
    post_and_receive buf mem0 loss ds s = Ok (tt, s') /\
    c_heap s' !! ptr = Some c' /\ cm_recv_msgs c' !! lt_msg_id msg = Some e /\
    (forall j, (j < length (lt_mem msg))%nat ->
       ext_mem e !! j = if decide (Z.of_nat j `div` B ∈ arrived ds)
                        then corrupt B (addr + 20) (lt_mem msg) !! j else mem0 !! j) /\
    ext_bytes e = received_bytes B (lt_size msg) (arrived ds) /\
    rl_tx_queue (c_rel s') = rl_tx_queue (c_rel s) ++ bs /\ signals_to_sender src_id bs sigs /\
    stop_requests sigs = if bound <=? ext_bytes e then 1%nat else 0%nat.
Proof.
  intros Hm0 Hb Hpos Hds Hn.
  destruct (post_and_receive_run buf mem0 loss bound ds Hm0 Hb Hpos Hds Hn)
    as (s' & c' & e & bs & sigs & Hrun & (_ & _ & _ & Hp & _ & _ & He & Hinv) & _ & _ & _ & Htx & Hsg & Hc).
  destruct Hinv as (_ & _ & _ & Hmem & Hbytes). cbn [lt_mem lt_size corrupt_msg] in *.
  exists s', c', e, bs, sigs. split; [done|]. split; [done|]. split; [done|].
  split; [intros j Hj; apply Hmem; by rewrite length_corrupt|].
  rewrite Hbytes. by repeat (split; [done|]).
Qed.

(** A loss bound above the message size is never reached, as happens to
    messages whose size is not a multiple of four with a loss ratio of 0
    ([AlignUp] rounds the bound up): even when every packet has arrived, no stop
    request is sent, and the end of the flow ([FinishFlow]) asks for nothing and
    completes nothing, so the flow hangs. *)
Theorem unaligned_never_finishes buf mem0 loss bound ds :
  length mem0 = length (lt_mem msg) -> loss_bound (lt_size msg) loss = Ok bound -> lt_size msg < bound ->
  (forall d, d ∈ ds -> 0 <= fst d < 2 ^ 8 /\ 0 <= snd d < n) -> Z.of_nat (length ds) < 2 ^ 30 ->
  (forall i, 0 <= i < n -> i ∈ map snd ds) ->
  exists s' s'' bs sigs,
    post_and_receive buf mem0 loss ds s = Ok (tt, s') /\
    rl_tx_queue (c_rel s') = rl_tx_queue (c_rel s) ++ bs /\ signals_to_sender src_id bs sigs /\
    stop_requests sigs = 0%nat /\
    FinishFlow malloc (lt_msg_id msg) (n - 1) ptr s' = Ok (tt, s'') /\
    c_rel s'' = c_rel s' /\ c_cq s'' = c_cq s'.
Proof.
  intros Hm0 Hb Hlt Hds Hn Hall.
  destruct (post_and_receive_run buf mem0 loss bound ds Hm0 Hb ltac:(lia) Hds Hn)
    as (s' & c' & e & bs & sigs & Hrun & (_ & _ & _ & Hp & _ & _ & He & Hinv) & _ & Hbd & Hst & Htx & Hsg & Hc).
  pose proof (received_bytes_le max_segment ltac:(lia) msg Hsize Hdata (arrived ds)) as Hle.
  assert (Hgt : (bound <=? received_bytes B (lt_size msg) (arrived ds)) = false) by (apply Z.leb_gt; lia).
  rewrite Hgt in Hc.
  assert (Hfin : FinishReceiving e = false).
  { unfold FinishReceiving. destruct Hinv as (_ & _ & _ & _ & ->). by rewrite Hbd. }
  destruct (FinishFlow_missing malloc Hmalloc max_segment Hseg (corrupt_msg max_segment addr msg) Hsize
    ltac:(cbn; by rewrite length_corrupt) s' ptr c' mem0 e (arrived ds) (lt_msg_id msg) Hp He Hinv Hfin)
    as (s'' & e' & Hff & _ & _ & _ & _ & _ & _ & _ & Hcq & _ & _ & _ & Hrel).
  rewrite decide_True in Hrel; [by exists s', s'', bs, sigs|].
  apply (proj2 (missing_empty _ _ _)). intros i Hi. apply elem_of_list_to_set. by apply Hall.
Qed.

(** C8: a retransmission round repairs any loss. The loss bound is positive and at
    most the size of the message: with a larger one a flow never ends
    ([unaligned_never_finishes]). When the flow ends before the bound is reached,
    [FinishFlow] queues one request to the sender whose blocks hold exactly the
    packets that have not arrived; once those arrive, in any order, every byte is
    counted, the one stop request is queued, and the memory holds every packet as
    the receiving channel leaves it: the message with the first eight bytes of
    each packet overwritten ([corrupt]; receiving_channel.cc:65). *)
Theorem retransmission_round buf mem0 loss bound ds :
  length mem0 = length (lt_mem msg) -> loss_bound (lt_size msg) loss = Ok bound ->
  0 < bound <= lt_size msg ->
  (forall d, d ∈ ds -> 0 <= fst d < 2 ^ 8 /\ 0 <= snd d < n) -> Z.of_nat (length ds) < 2 ^ 28 ->
  received_bytes B (lt_size msg) (arrived ds) < bound ->
  exists s1 s2 blocks f,
    post_and_receive buf mem0 loss ds s = Ok (tt, s1) /\
    FinishFlow malloc (lt_msg_id msg) (n - 1) ptr s1 = Ok (tt, s2) /\
    f = frame (SigRetransmitRequest (lt_msg_id msg) self blocks) /\
    rl_tx_queue (c_rel s2) = rl_tx_queue (c_rel s1) ++
      [(src_id, mkBuffer f (Z.of_nat (length f)) (Z.of_nat (length f)) 0 true)] /\
    (forall i, i ∈ block_seqs blocks <-> 0 <= i < n /\ i ∉ map snd ds) /\
    forall ds', map snd ds' ≡ₚ block_seqs blocks ->
      (forall d, d ∈ ds' -> 0 <= fst d < 2 ^ 8) -> Z.of_nat (length ds') < 2 ^ 28 ->
      exists s3 c3 e bs sigs,
        receive_all clock malloc max_segment src_id self msg ds' s2 = Ok (tt, s3) /\
        c_heap s3 !! ptr = Some c3 /\ cm_recv_msgs c3 !! lt_msg_id msg = Some e /\
        ext_mem e = corrupt B (addr + 20) (lt_mem msg) /\ ext_bytes e = lt_size msg /\
        rl_tx_queue (c_rel s3) = rl_tx_queue (c_rel s2) ++ bs /\ signals_to_sender src_id bs sigs /\
        stop_requests sigs = 1%nat.
Proof.
  intros Hm0 Hb Hpos Hds Hn Hlt.
  destruct (post_and_receive_run buf mem0 loss bound ds Hm0 Hb ltac:(lia) Hds ltac:(lia))
    as (s1 & c1 & e & bs & sigs & Hrun & Hrec & Hsc & Hbd & Hst & Htx & Hsg & Hc).
  destruct (FinishFlow_requests malloc Hmalloc max_segment src_id self addr Hseg msg Hsize Hdata
    s1 ptr c1 mem0 e (arrived ds) Hrec ltac:(lia))
    as (s2 & c2 & e2 & blocks & Hff & Hrec2 & Hbd2 & Hst2 & Hm2 & Hrel & Hblocks & _).
  setoid_rewrite elem_of_list_to_set in Hblocks.
  exists s1, s2, blocks, (frame (SigRetransmitRequest (lt_msg_id msg) self blocks)).
  split; [done|]. split; [done|]. split; [done|]. split; [done|]. split; [exact Hblocks|].
  intros ds' Hperm Htos Hn'.
  destruct (receive_all_run clock malloc Hmalloc max_segment src_id self addr Hseg Hsrc Hself Haddr msg Hsize
    Hdata Hmid ds' s2 ptr _ mem0 e2 (arrived ds) Hrec2) as
    (s3 & c3 & e3 & bs3 & sigs3 & Hrun3 & Hr3 & _ & Hb3 & Hf3 & Htx3 & Hsg3 & Hc3).
  { unfold stop_flag. by rewrite Hbd2, Hst2, Hst, Hbd. }
  { intros d Hd. split; [by apply Htos|].
    apply (Hblocks (snd d)). rewrite <- Hperm. by apply list_elem_of_fmap_2. }
  { rewrite Hm2. lia. }
  { rewrite Hm2. lia. }
  assert (Hall : forall i, 0 <= i < n -> i ∈ arrived ds ∪ arrived ds').
  { intros i Hi. rewrite elem_of_union, !elem_of_list_to_set.
    destruct (decide (i ∈ map snd ds)); [by left|right]. rewrite Hperm. by apply Hblocks. }
  destruct Hr3 as (_ & _ & _ & Hp3 & _ & _ & He3 & Hinv3).
  destruct (recv_inv_complete max_segment ltac:(lia) (corrupt_msg max_segment addr msg) Hsize
    ltac:(cbn; by rewrite length_corrupt) mem0 e3 _ Hinv3 Hall) as [Hmem3 Hby3].
  exists s3, c3, e3, bs3, sigs3. split; [done|]. split; [done|]. split; [done|]. split; [done|].
  split; [done|]. split; [done|]. split; [done|].
  rewrite Hc3, Hst2, Hst, (proj2 (Z.leb_gt _ _) Hlt), Hf3, Hb3, Hbd2, Hbd, andb_true_r.
  rewrite (proj2 (received_bytes_full max_segment ltac:(lia) msg Hsize Hdata _) Hall).
  by rewrite (proj2 (Z.leb_le _ _)) by lia.
Qed.
End delivery.

(** ** Witnesses *)

Definition example_data (len : nat) : list Z := map (fun i => Z.of_nat i) (seq 1 len).
Definition example_sent (len : nat) : LtMessage := mkLtMessage 7 4096 (example_data len) (Z.of_nat len).
Definition example_receiver : Comm TreeBlockMgr :=
  mkComm 1 {[2 := Some 1]} {[1 := example_conn ∅ ∅ ∅]} 2 [] example_prio
    (mkReceivingChannel (replicate 32 0) 8192 [] [] example_meter) (mkReliableChannel ∅ [] []) [] 0.
Definition example_clock (t : nat) : Z := Z.of_nat t.

Lemma example_awaiting len :
  awaiting 32 2 1 8192 (example_sent len) example_receiver 1 (example_conn ∅ ∅ ∅).
Proof. by repeat split. Qed.

Ltac forall_datagrams :=
  let d := fresh "d" in let Hd := fresh "Hd" in
  intros d Hd; repeat (apply elem_of_cons in Hd as [->|Hd]; [vm_compute; intuition congruence|]);
  by apply elem_of_nil in Hd.

Lemma reception_witness :
  exists s' c' e bs sigs,
    post_and_receive example_clock example_malloc 32 2 1 (example_sent 24) 1 0 (replicate 24 0)
      (S754_zero false) [(0, 1); (4, 0); (4, 1)] example_receiver = Ok (tt, s') /\
    c_heap s' !! 1 = Some c' /\ cm_recv_msgs c' !! 7 = Some e /\
    ext_mem e !! 12%nat = Some 20 /\ ext_bytes e = 24 /\
    rl_tx_queue (c_rel s') = [] ++ bs /\ signals_to_sender 2 bs sigs /\ stop_requests sigs = 1%nat.
Proof.
  destruct (reception example_clock example_malloc example_malloc_length 32 2 1 8192 ltac:(lia) ltac:(lia)
    ltac:(lia) ltac:(lia) (example_sent 24) ltac:(simpl; lia) eq_refl ltac:(simpl; lia) example_receiver 1
    (example_conn ∅ ∅ ∅) (example_awaiting 24) eq_refl 0 (replicate 24 0) (S754_zero false) 24
    [(0, 1); (4, 0); (4, 1)]) as (s' & c' & e & bs & sigs & H1 & H2 & H3 & H4 & H5 & H6 & H7 & H8).
  - reflexivity.
  - vm_compute. reflexivity.
  - lia.
  - forall_datagrams.
  - simpl; lia.
  - exists s', c', e, bs, sigs.
    assert (Hb : ext_bytes e = 24) by (rewrite H5; vm_compute; reflexivity).
    rewrite (H4 12%nat) by (vm_compute; lia). rewrite Hb in H8.
    by repeat (split; [assumption || (vm_compute; reflexivity)|]).
Defined.

Lemma unaligned_never_finishes_witness :
  exists s' s'' bs sigs,
    post_and_receive example_clock example_malloc 32 2 1 (example_sent 10) 1 0 (replicate 10 0)
      (S754_zero false) [(0, 0)] example_receiver = Ok (tt, s') /\
    rl_tx_queue (c_rel s') = [] ++ bs /\ signals_to_sender 2 bs sigs /\ stop_requests sigs = 0%nat /\
    FinishFlow example_malloc 7 0 1 s' = Ok (tt, s'') /\ c_rel s'' = c_rel s' /\ c_cq s'' = c_cq s'.
Proof.
  apply (unaligned_never_finishes example_clock example_malloc example_malloc_length 32 2 1 8192 ltac:(lia)
    ltac:(lia) ltac:(lia) ltac:(lia) (example_sent 10) ltac:(simpl; lia) eq_refl ltac:(simpl; lia)
    example_receiver 1 (example_conn ∅ ∅ ∅) (example_awaiting 10) eq_refl 0 (replicate 10 0)
    (S754_zero false) 12 [(0, 0)]).
  - reflexivity.
  - vm_compute. reflexivity.
  - simpl; lia.
  - forall_datagrams.
  - simpl; lia.
  - intros i Hi. change (packets (32 - 20) _) with 1 in Hi. assert (i = 0) as -> by lia. left.
Defined.

Lemma retransmission_round_witness :
  exists s1 s2 blocks f,
    post_and_receive example_clock example_malloc 32 2 1 (example_sent 24) 1 0 (replicate 24 0)
      (S754_zero false) [(0, 1)] example_receiver = Ok (tt, s1) /\
    FinishFlow example_malloc 7 1 1 s1 = Ok (tt, s2) /\
    f = frame (SigRetransmitRequest 7 1 blocks) /\
    forall i, i ∈ block_seqs blocks <-> 0 <= i < 2 /\ i ∉ [1].
Proof.
  destruct (retransmission_round example_clock example_malloc example_malloc_length 32 2 1 8192 ltac:(lia)
    ltac:(lia) ltac:(lia) ltac:(lia) (example_sent 24) ltac:(simpl; lia) eq_refl ltac:(simpl; lia)
    example_receiver 1 (example_conn ∅ ∅ ∅) (example_awaiting 24) eq_refl 0 (replicate 24 0)
    (S754_zero false) 24 [(0, 1)]) as (s1 & s2 & blocks & f & H1 & H2 & H3 & _ & H4 & _).
  - reflexivity.
  - vm_compute. reflexivity.
  - simpl; lia.
  - forall_datagrams.
  - simpl; lia.
  - vm_compute. reflexivity.
  - exists s1, s2, blocks, f. by repeat (split; [assumption|]).
Defined.
