(* ===== verification/ReliableChannel.v ===== *)
(** The control channel: [RdEndpoint::HandleReceivedData]
    (src/src/mlt/rd_endpoint.cc) and the thread of
    src/src/mlt/reliable_channel.cc. The byte streams are in Framing.v. *)

From S2P Require Import Prelude Bytes Runs BlockMgr GradPacket LtMessage Packetizer Floats Meter Wire Queues Framing Comm.

(** The new sending rate on a [kRateAdjustment] signal. *)
Definition adjust_rate (init_rate rate : double) (hdr_rate : float) : double :=
  let throttle := f64_max (f64_of_f32 hdr_rate) init_rate in
  if f64_gt rate throttle then throttle else f64_mul rate (f64_of_Z 2).

Section channel.
Context {M : Type}.
Context (clock : nat -> Z) (malloc : Z -> list Z).
(** [InitialSendingRate()], [InitialSendingWindow()] and
    [RateMonitorIntervalUs()] of [MLTGlobal]. *)
Context (init_rate : double) (init_window interval_us : Z).

(** ** HandleReceivedData *)

Definition HandleReceivedData (ep : RdEndpoint) (buffer : Buffer) : cm M RdEndpoint :=
  code ← lift (GetTypeFromBuffer buffer);
  conn ← load_conn (re_conn_meta ep);
  let comm_id := cm_dest_comm_id conn in
  match signal_of_code code with
  | Some kUserData =>
      modify (fun s => set_meta_queue s (c_meta_queue s ++ [(comm_id, buffer)]));;
      mret ep
  | Some kFlowStart =>
      msg_id ← lift (load_int buffer fld_msg_id);
      max_seq_num ← lift (load32 buffer fld_max_seq_num);
      mret (mkRdEndpoint (re_conn_meta ep) (re_tx_queue ep) (re_rx ep)
              (<[msg_id := max_seq_num]> (re_msg_max_seq ep)))
  | Some kFlowFinish =>
      msg_id ← lift (load_int buffer fld_msg_id);
      match re_msg_max_seq ep !! msg_id with
      | None => fatal
      | Some max_seq => Recv_Notify (FINISH_FLOW msg_id max_seq (re_conn_meta ep));; mret ep
      end
  | Some kRateAdjustment =>
      bits ← lift (load32 buffer fld_rate);
      store_conn (re_conn_meta ep)
        (set_rate conn (adjust_rate init_rate (cm_sending_rate conn) (f32_of_bits bits)));;
      mret ep
  | Some kRetransmitRequest =>
      _ ← lift (load_int buffer fld_msg_id);
      _ ← lift (load_int buffer fld_comm_id);
      Prio_Notify (REQUEST_RETRANSMIT buffer);; mret ep
  | Some kStopRequest =>
      msg_id ← lift (load_int buffer fld_msg_id);
      hdr_comm_id ← lift (load_int buffer fld_comm_id);
      lift (CHECK (hdr_comm_id =? comm_id));;
      Prio_Notify (STOP_FLOW (EncodeFlow comm_id msg_id));; mret ep
  | Some kStopConfirm =>
      msg_id ← lift (load_int buffer fld_msg_id);
      Recv_Notify (CONFIRM_STOP msg_id (re_conn_meta ep));;
      mret (mkRdEndpoint (re_conn_meta ep) (re_tx_queue ep) (re_rx ep)
              (delete msg_id (re_msg_max_seq ep)))
  | None => fatal
  end.

(** ** Endpoints *)

Definition set_ctrl (r : ReliableChannel) (m : gmap Z (option RdEndpoint)) : ReliableChannel :=
  mkReliableChannel m (rl_tx_queue r) (rl_notification_queue r).
Definition set_rel_tx (r : ReliableChannel) q : ReliableChannel :=
  mkReliableChannel (rl_ctrl_endpoints r) q (rl_notification_queue r).
Definition set_rel_notifications (r : ReliableChannel) q : ReliableChannel :=
  mkReliableChannel (rl_ctrl_endpoints r) (rl_tx_queue r) q.
Definition modify_rel (f : ReliableChannel -> ReliableChannel) : cm M unit :=
  modify (fun s => set_rel s (f (c_rel s))).
Definition put_endpoint (id : Z) (ep : option RdEndpoint) : cm M unit :=
  modify_rel (fun r => set_ctrl r (<[id := ep]> (rl_ctrl_endpoints r))).

Definition set_re_rx (ep : RdEndpoint) (rx : RdRx) : RdEndpoint :=
  mkRdEndpoint (re_conn_meta ep) (re_tx_queue ep) rx (re_msg_max_seq ep).
Definition set_re_tx (ep : RdEndpoint) (q : list Buffer) : RdEndpoint :=
  mkRdEndpoint (re_conn_meta ep) q (re_rx ep) (re_msg_max_seq ep).

Definition RdEndpoint_new (conn : conn_ptr) : RdEndpoint :=
  mkRdEndpoint conn [] (mkRdRx [] false) ∅.

Definition Rel_AddEndpoint (ep : RdEndpoint) : cm M unit :=
  conn ← load_conn (re_conn_meta ep);
  r ← gets c_rel;
  lift (CHECK (bool_decide (rl_ctrl_endpoints r !! cm_dest_comm_id conn = None)));;
  put_endpoint (cm_dest_comm_id conn) (Some ep).

Definition RemoveEndpoint (dest : Z) : cm M unit :=
  r ← gets c_rel;
  match rl_ctrl_endpoints r !! dest with
  | Some (Some ep) =>
      if rx_dead (re_rx ep) then mret tt
      else put_endpoint dest (Some (set_re_rx ep (Disconnect (re_rx ep))))
  | _ => mret tt
  end.

(** [std::make_unique<ConnMeta>(dest)] assigned to [id_conn_[dest]]: an object
    that was there is deleted. *)
Definition new_conn (dest : Z) : cm M conn_ptr :=
  now ← clock_now clock;
  s ← get;
  let p := c_next s in
  let old := match c_id_conn s !! dest with Some (Some q) => delete q (c_heap s) | _ => c_heap s end in
  modify (fun s => mkComm (c_comm_id s) (<[dest := Some p]> (c_id_conn s))
    (<[p := ConnMeta_new dest (u64 init_window) init_rate interval_us now]> old)
    (p + 1) (c_cq s) (c_prio s) (c_recv s) (c_rel s) (c_meta_queue s) (c_ticks s));;
  mret p.

(** [HandleNewConnection], with the id that the peer sends. *)
Definition HandleNewConnection (dest : Z) : cm M unit :=
  p ← new_conn dest;
  Rel_AddEndpoint (RdEndpoint_new p);;
  Prio_Notify (ADD_CONNECTION p).

(** ** The loop of [Run] *)

(** Epoll events: a connection is accepted; data of [stream] can be read; there
    is room to send; an error. *)
Inductive rel_event :=
| EvAccept (dest : Z)
| EvIn (id : Z) (stream : list Z) (ev_len ev_data : recv_event)
| EvOut (id : Z) (evs : list send_event)
| EvErr (id : Z).

Definition endpoint (id : Z) : cm M RdEndpoint :=
  r ← gets c_rel; lift (deref (mjoin (rl_ctrl_endpoints r !! id))).

(** Handling one event; returns the bytes that went to the socket. *)
Definition handle_rel_event (ev : rel_event) : cm M (list Z) :=
  match ev with
  | EvAccept dest => HandleNewConnection dest;; mret []
  | EvIn id stream ev_len ev_data =>
      ep ← endpoint id;
      r ← lift (OnRecvReady malloc (re_rx ep) stream ev_len ev_data);
      let '(rx, _, m) := r in
      ep ← (match m with
            | None => mret (set_re_rx ep rx)
            | Some b => HandleReceivedData (set_re_rx ep rx) b
            end);
      put_endpoint id (Some ep);; mret []
  | EvOut id evs =>
      ep ← endpoint id;
      r ← lift (OnSendReady (re_tx_queue ep) evs);
      let '(q, out, _) := r in
      put_endpoint id (Some (set_re_tx ep q));; mret out
  | EvErr id =>
      ep ← endpoint id;
      put_endpoint id None;; mret []
  end.

Definition handle_rel_notification (n : RelNotification) : cm M unit :=
  match n with
  | ADD_ENDPOINT ep => Rel_AddEndpoint ep
  | REMOVE_ENDPOINT dest => RemoveEndpoint dest
  end.

Definition pop_rel_notification : cm M (option RelNotification) :=
  r ← gets c_rel;
  match rl_notification_queue r with
  | [] => mret None
  | n :: q => modify_rel (fun r => set_rel_notifications r q);; mret (Some n)
  end.

(** Routing a queued buffer to the endpoint of its destination. *)
Definition route_buffer (t : Z * Buffer) : cm M unit :=
  r ← gets c_rel;
  match rl_ctrl_endpoints r !! fst t with
  | Some (Some ep) =>
      b ← lift (WriteLength (snd t));
      put_endpoint (fst t) (Some (set_re_tx ep (re_tx_queue ep ++ [b])))
  | _ => mret tt
  end.

Definition pop_rel_tx : cm M (option (Z * Buffer)) :=
  r ← gets c_rel;
  match rl_tx_queue r with
  | [] => mret None
  | t :: q => modify_rel (fun r => set_rel_tx r q);; mret (Some t)
  end.

Fixpoint rel_events (evs : list rel_event) : cm M (list (list Z)) :=
  match evs with
  | [] => mret []
  | ev :: evs' => o ← handle_rel_event ev; rest ← rel_events evs'; mret (o :: rest)
  end.

Definition Rel_Run_once (evs : list rel_event) : cm M (list (list Z)) :=
  out ← rel_events evs;
  r ← gets c_rel;
  drain (S (length (rl_notification_queue r))) pop_rel_notification handle_rel_notification;;
  r ← gets c_rel;
  drain (S (length (rl_tx_queue r))) pop_rel_tx route_buffer;;
  mret out.
End channel.
