(* ===== verification/Communicator.v ===== *)
(** The user interface: src/src/mlt/mlt_communicator.{h,cc}. *)

From S2P Require Import Prelude Bytes Runs BlockMgr GradPacket LtMessage Packetizer Floats Meter Wire Queues Framing Comm PriorityChannel ReceivingChannel ReliableChannel.

Section comm.
Context {M : Type} `{BlockMgr M}.
Context (max_segment : Z) (clock : nat -> Z) (malloc : Z -> list Z).
Context (init_rate : double) (init_window interval_us : Z).

(** The object after [Start], with [num_priorities] priorities; [buf] is the
    receive buffer at address [addr]. *)
Definition Comm_Start (comm_id num_prio num_queues : Z) (meter rx_meter : Meter) (buf : list Z) (addr : Z) :
    outcome (Comm M) :=
  let num_priorities := if num_queues <? num_prio then num_queues else num_prio in
  p ← Start_endpoints (PriorityChannel_new meter) num_priorities;
  Ok (mkComm comm_id ∅ ∅ 1 [] p (mkReceivingChannel buf addr [] [] rx_meter) (mkReliableChannel ∅ [] []) [] 0).

(** [Lock(); ... id_conn_.count(dest) ... Unlock()]: the connecting side of
    [AddConnection], used when our id is smaller. *)
Definition AddConnection_connect (dest : Z) : cm M unit :=
  s ← get;
  ptr ← (match c_id_conn s !! dest with
         | None => new_conn clock init_rate init_window interval_us dest
         | Some (Some p) => mret p
         | Some None => mret 0
         end);
  modify_rel (fun r => set_rel_notifications r (rl_notification_queue r ++ [ADD_ENDPOINT (RdEndpoint_new ptr)]));;
  Prio_Notify (ADD_CONNECTION ptr).

(** The waiting side passes once the connection is in [id_conn_]. *)
Definition AddConnection_connected (dest : Z) : cm M bool :=
  gets (fun s => bool_decide (is_Some (c_id_conn s !! dest))).

(** A null pointer is 0. [id_conn_[dest]] inserts a null entry. *)
Definition conn_or_null (dest : Z) : cm M conn_ptr :=
  s ← get;
  let e := default None (c_id_conn s !! dest) in
  modify (fun s => set_id_conn s (<[dest := e]> (c_id_conn s)));;
  mret (default 0 e).

Definition RemoveConnection (dest : Z) : cm M unit :=
  ptr ← conn_or_null dest;
  Prio_Notify (REMOVE_CONNECTION ptr);;
  modify_rel (fun r => set_rel_notifications r (rl_notification_queue r ++ [REMOVE_ENDPOINT dest])).

Definition SendMetaAsync (dest : Z) (buffer : Buffer) : cm M unit :=
  b ← lift (make_UserData malloc buffer);
  Reliable_Enqueue dest b.

(** [RecvMeta]: the oldest meta message, copied into the caller's buffer;
    [None] while there is none. *)
Definition RecvMeta (buffer : Buffer) : cm M (option (Z * Buffer)) :=
  s ← get;
  match c_meta_queue s with
  | [] => mret None
  | (dest, b) :: q =>
      modify (fun s => set_meta_queue s q);;
      let n := u32 (buf_msg_length b - sizeof_UserDataHeader) in
      payload ← lift (Buffer_load b fld_payload n);
      out ← lift (Buffer_store (Buffer_set_msg_length buffer n) 0 payload);
      mret (Some (dest, out))
  end.

Definition PostSend (dest : Z) (msg : LtMessage) (prio_func : PktPrioFunc) : cm M unit :=
  max_seq ← lift (GetMaxSeqNum max_segment (lt_size msg));
  b ← lift (make_FlowStart malloc (lt_msg_id msg) (lt_size msg) max_seq);
  Reliable_Enqueue dest b;;
  Prio_Enqueue dest msg prio_func.

Definition PostRecv (dest : Z) (msg : LtMessage) (loss_ratio : double) : cm M unit :=
  ptr ← conn_or_null dest;
  lift (CHECK (negb (ptr =? 0)));;
  Recv_Enqueue ptr msg loss_ratio.
End comm.
