(* ===== verification/Control.v ===== *)
(** Properties of the control channel (ReliableChannel.v) and of the user
    interface (Communicator.v): what a received signal does, how the two ends of
    a flow agree on its length, how a flow is stopped, and meta messages.

    A signal that one side has queued ([holds_signal]) arrives at the other as a
    buffer that starts with its bytes ([received_signal]); Framing.v shows this
    of the TCP stream. *)

From S2P Require Import Prelude Bytes Runs BlockMgr TreeBlockMgr GradPacket LtMessage Packetizer Transfer Floats Meter Wire Queues Framing Comm PriorityChannel Sender ReceivingChannel Receiver Delivery ReliableChannel Communicator.

(** Four bytes hold a number modulo [2 ^ 32]. *)
Lemma le_bytes_u32 z : le_bytes 4 (u32 z) = le_bytes 4 z.
Proof.
  pose proof (le_bytes_le_val (le_bytes 4 z) (le_bytes_bytes 4 z)) as H. rewrite length_le_bytes, le_val_le_bytes in H.
  rewrite <- H. f_equal.
Qed.

(** ** Received signals *)

Section signals.
Context {M : Type} (init_rate : double).
Implicit Types s : Comm M.

(** What a handler has done once [n] is queued for the other thread. *)
Definition notified_prio s (n : PrioNotification) : Comm M :=
  let p := c_prio s in
  set_prio s (mkPriorityChannel (pc_prio_mapping p) (pc_prio_endpoints p)
    (pc_notification_queue p ++ [n]) (pc_sr_queue p) (pc_conn_metas p) (pc_conn_meta_map p)
    (pc_meter p)).
Definition notified_recv s (n : RecvNotification) : Comm M :=
  let r := c_recv s in
  set_recv s (mkReceivingChannel (rc_buf r) (rc_addr r) (rc_rr_queue r)
    (rc_notification_queue r ++ [n]) (rc_meter r)).
Definition with_max_seq (ep : RdEndpoint) (m : gmap Z Z) : RdEndpoint :=
  mkRdEndpoint (re_conn_meta ep) (re_tx_queue ep) (re_rx ep) m.

(** The meaning of each signal. *)
Definition signal_effect (ep : RdEndpoint) (c : ConnMeta M) (b : Buffer) (sg : Signal) s :
    outcome (RdEndpoint * Comm M) :=
  match sg with
  | SigUserData _ => Ok (ep, set_meta_queue s (c_meta_queue s ++ [(cm_dest_comm_id c, b)]))
  | SigFlowStart m _ x => Ok (with_max_seq ep (<[m := x]> (re_msg_max_seq ep)), s)
  | SigRateAdjustment r =>
      Ok (ep, set_heap s (<[re_conn_meta ep :=
                set_rate c (adjust_rate init_rate (cm_sending_rate c) (f32_of_bits (u32 (f32_bits r))))]> (c_heap s)))
  | SigFlowFinish m =>
      match re_msg_max_seq ep !! m with
      | None => Fatal
      | Some x => Ok (ep, notified_recv s (FINISH_FLOW m x (re_conn_meta ep)))
      end
  | SigRetransmitRequest _ _ _ => Ok (ep, notified_prio s (REQUEST_RETRANSMIT b))
  | SigStopRequest m comm_id _ =>
      if comm_id =? cm_dest_comm_id c
      then Ok (ep, notified_prio s (STOP_FLOW (EncodeFlow (cm_dest_comm_id c) m)))
      else Fatal
  | SigStopConfirm m =>
      Ok (with_max_seq ep (delete m (re_msg_max_seq ep)),
          notified_recv s (CONFIRM_STOP m (re_conn_meta ep)))
  end.

(** The fields are those of a program: ids are non-negative [int]s. *)
Definition signal_wf (sg : Signal) : Prop :=
  let id m := 0 <= m < 2 ^ 31 in
  match sg with
  | SigUserData _ => True
  | SigFlowStart m f x => id m /\ 0 <= x < 2 ^ 32
  | SigRateAdjustment _ => True
  | SigFlowFinish m | SigStopConfirm m => id m
  | SigRetransmitRequest m c _ | SigStopRequest m c _ => id m /\ id c
  end.

Lemma received_peer_id b sg m d rest : received_signal b sg ->
  signal_bytes sg = le_bytes 4 (signal_code (signal_type sg)) ++ le_bytes 4 (u32 m) ++ le_bytes 4 (u32 d) ++ rest ->
  0 <= d < 2 ^ 31 -> load_int b fld_comm_id = Ok d.
Proof.
  intros Hb Hs Hd. unfold load_int. change fld_comm_id with 8.
  rewrite (received_second b sg m (u32 d) rest Hb Hs (u32_range d)). cbn.
  by rewrite s32_u32, s32_small by lia.
Qed.

Lemma HandleReceivedData_effect ep c b sg s :
  received_signal b sg -> signal_wf sg -> c_heap s !! re_conn_meta ep = Some c ->
  HandleReceivedData init_rate ep b s = signal_effect ep c b sg s.
Proof.
  intros Hb Hwf Hp. unfold HandleReceivedData. lift_step (received_type b sg Hb).
  step (load_conn_ok _ _ _ Hp). rewrite signal_of_signal_code.
  destruct sg as [pl|m f x|r|m|m d bs|m d rb|m]; cbn [signal_type signal_effect]; cbn [signal_wf] in Hwf.
  - reflexivity.
  - lift_step (received_msg_id b _ m (le_bytes 4 (u32 f) ++ le_bytes 4 x) Hb eq_refl).
    lift_step (received_third b _ m (u32 f) x [] Hb ltac:(cbn [signal_bytes]; by rewrite app_nil_r) ltac:(lia)).
    rewrite s32_small by lia. reflexivity.
  - assert (Hr : load32 b fld_rate = Ok (u32 (f32_bits r))).
    { apply (load32_app b fld_rate (le_bytes 4 (signal_code kRateAdjustment)) (u32 (f32_bits r)) []);
        [rewrite Hb; cbn [signal_bytes signal_type]; by rewrite app_nil_r, le_bytes_u32|done|apply u32_range]. }
    lift_step Hr. step (store_conn_ok (re_conn_meta ep) c
      (set_rate c (adjust_rate init_rate (cm_sending_rate c) (f32_of_bits (u32 (f32_bits r))))) s Hp). reflexivity.
  - lift_step (received_msg_id b _ m [] Hb ltac:(cbn [signal_bytes]; by rewrite app_nil_r)).
    rewrite s32_small by lia. by destruct (re_msg_max_seq ep !! m).
  - lift_step (received_msg_id b _ m _ Hb eq_refl).
    lift_step (received_peer_id b _ m d _ Hb eq_refl ltac:(lia)). reflexivity.
  - lift_step (received_msg_id b _ m (le_bytes 4 (u32 d) ++ rb) Hb eq_refl).
    lift_step (received_peer_id b _ m d rb Hb eq_refl ltac:(lia)). rewrite s32_small by lia. unfold CHECK. by destruct (d =? cm_dest_comm_id c).
  - lift_step (received_msg_id b _ m [] Hb ltac:(cbn [signal_bytes]; by rewrite app_nil_r)).
    rewrite s32_small by lia. reflexivity.
Qed.
End signals.

(** ** Stopping a flow *)

Lemma ConfirmStop_run {M} (s : Comm M) msg_id ptr c e :
  c_heap s !! ptr = Some c -> cm_recv_msgs c !! msg_id = Some e ->
  ConfirmStop msg_id ptr s =
    Ok (tt, set_heap (set_cq s (c_cq s ++ [mkCompletion msg_id CompRecv (cm_dest_comm_id c) (ext_bytes e)]))
              (<[ptr := set_recv_msgs c (delete msg_id (cm_recv_msgs c))]> (c_heap s))).
Proof.
  intros Hp He. unfold ConfirmStop. step (load_conn_ok _ _ _ Hp). rewrite He.
  unfold cq_Push, modify, CompletionQueue_Push, mbind, cm_bind.
  rewrite (store_conn_ok ptr c); [reflexivity|exact Hp].
Qed.

Lemma ConfirmStop_unknown {M} (s : Comm M) msg_id ptr c :
  c_heap s !! ptr = Some c -> cm_recv_msgs c !! msg_id = None -> ConfirmStop msg_id ptr s = Fatal.
Proof. intros Hp He. unfold ConfirmStop. step (load_conn_ok _ _ _ Hp). by rewrite He. Qed.

(** The stop handshake. At the sender [sA] the stop request of the
    receiver [sB] releases the message in every table, completes the send once
    and queues a confirmation; at the receiver the confirmation completes the
    receive once, with the bytes that were counted, and forgets the message at
    the endpoint and at the connection. A second confirmation would stop the
    process. *)
Theorem stop_handshake malloc init_rate (sA sB : Comm TreeBlockMgr) epA epB cA cB msg_id req rate e
    (Hmalloc : forall n, 0 <= n -> Z.of_nat (length (malloc n)) = n)
    (Hmsg : 0 <= msg_id < 2 ^ 31) (HidA : 0 <= c_comm_id sA < 2 ^ 31) (HidB : 0 <= c_comm_id sB < 2 ^ 31)
    (HA : c_heap sA !! re_conn_meta epA = Some cA) (HdA : cm_dest_comm_id cA = c_comm_id sB)
    (Hknow : knows sA (c_comm_id sB) (re_conn_meta epA))
    (Hone : is_Some (cm_sending_msgs cA !! msg_id) ->
            cm_retransmitting_msgs cA !! msg_id = None /\ cm_retransmit_reqs cA !! msg_id = None)
    (HB : c_heap sB !! re_conn_meta epB = Some cB) (HdB : cm_dest_comm_id cB = c_comm_id sA)
    (He : cm_recv_msgs cB !! msg_id = Some e)
    (Hreq : received_signal req (SigStopRequest msg_id (c_comm_id sB) rate)) :
  exists sA1 sA2 cA2 nA conf,
    HandleReceivedData init_rate epA req sA = Ok (epA, sA1) /\
    pc_notification_queue (c_prio sA1) = pc_notification_queue (c_prio sA) ++ [nA] /\
    handle_prio_notification malloc nA sA1 = Ok (tt, sA2) /\
    c_heap sA2 !! re_conn_meta epA = Some cA2 /\ released cA2 msg_id /\
    c_cq sA2 = c_cq sA ++ [mkCompletion msg_id CompSend (c_comm_id sB) 0] /\
    rl_tx_queue (c_rel sA2) = rl_tx_queue (c_rel sA) ++ [(c_comm_id sB, conf)] /\
    holds_signal conf (SigStopConfirm msg_id) /\
    forall conf', received_signal conf' (SigStopConfirm msg_id) ->
      exists sB1 sB2 epB' cB2 nB,
        HandleReceivedData init_rate epB conf' sB = Ok (epB', sB1) /\
        re_msg_max_seq epB' !! msg_id = None /\
        rc_notification_queue (c_recv sB1) = rc_notification_queue (c_recv sB) ++ [nB] /\
        handle_recv_notification malloc nB sB1 = Ok (tt, sB2) /\
        c_heap sB2 !! re_conn_meta epB = Some cB2 /\ cm_recv_msgs cB2 !! msg_id = None /\
        c_cq sB2 = c_cq sB ++ [mkCompletion msg_id CompRecv (c_comm_id sA) (ext_bytes e)] /\
        handle_recv_notification malloc nB sB2 = Fatal.
Proof.
  rewrite (HandleReceivedData_effect init_rate epA cA req _ sA Hreq ltac:(cbn; lia) HA).
  cbn [signal_effect]. rewrite HdA, Z.eqb_refl.
  set (sA1 := notified_prio sA _).
  destruct (StopFlow_run malloc sA1 (c_comm_id sB) msg_id (re_conn_meta epA) cA Hmalloc HidB Hmsg Hknow HA Hone)
    as (sA2 & cA2 & conf & Hrun & Hheap & Hrel & _ & Htx & Hconf & Hcq & _).
  exists sA1, sA2, cA2, (STOP_FLOW (EncodeFlow (c_comm_id sB) msg_id)), conf.
  split; [done|]. split; [done|]. split; [exact Hrun|].
  split; [rewrite Hheap; apply lookup_insert_eq|]. do 4 (split; [done|]).
  intros conf' Hconf'.
  rewrite (HandleReceivedData_effect init_rate epB cB conf' _ sB Hconf' ltac:(cbn; lia) HB).
  cbn [signal_effect]. set (sB1 := notified_recv sB _).
  pose proof (ConfirmStop_run sB1 msg_id (re_conn_meta epB) cB e HB He) as Hc. rewrite HdB in Hc.
  match type of Hc with _ = Ok (_, ?st) => set (sB2 := st) in * end.
  exists sB1, sB2. eexists _, _, (CONFIRM_STOP msg_id (re_conn_meta epB)). split; [reflexivity|].
  split; [apply lookup_delete_eq|]. split; [done|]. split; [exact Hc|].
  split; [apply lookup_insert_eq|]. split; [apply lookup_delete_eq|]. split; [done|].
  eapply ConfirmStop_unknown; [apply lookup_insert_eq|apply lookup_delete_eq].
Qed.

Definition example_endpoint : RdEndpoint := mkRdEndpoint 1 [] (mkRdRx [] false) {[7 := 2]}.
Definition example_receiving : Comm TreeBlockMgr :=
  let c := example_conn ∅ ∅ ∅ in
  mkComm 2 {[1 := Some 1]}
    {[1 := set_recv_msgs (mkConnMeta 1 0 (S754_infinity false) ∅ ∅ ∅ (cm_tx_meter c) (cm_rx_meter c) ∅ ∅ [] ∅)
             {[7 := set_bytes example_msg 10]}]} 2 [] example_prio
    (mkReceivingChannel (replicate 32 0) 8192 [] [] example_meter) (mkReliableChannel ∅ [] []) [] 0.

Lemma stop_handshake_witness :
  let cA := example_conn {[7 := mkSendRequest example_msg example_tos]} ∅ ∅ in
  exists sA1 sA2 cA2 nA conf,
    HandleReceivedData (f64_of_Z 1) example_endpoint
      (Buffer_alloc (signal_bytes (SigStopRequest 7 2 [0; 0; 0; 0]))) (example_comm cA)
      = Ok (example_endpoint, sA1) /\
    handle_prio_notification example_malloc nA sA1 = Ok (tt, sA2) /\
    c_heap sA2 !! 1 = Some cA2 /\ released cA2 7 /\ c_cq sA2 = [mkCompletion 7 CompSend 2 0] /\
    holds_signal conf (SigStopConfirm 7).
Proof.
  intros cA.
  destruct (stop_handshake example_malloc (f64_of_Z 1) (example_comm cA) example_receiving example_endpoint
    example_endpoint cA (set_recv_msgs (mkConnMeta 1 0 (S754_infinity false) ∅ ∅ ∅ (cm_tx_meter cA)
      (cm_rx_meter cA) ∅ ∅ [] ∅) {[7 := set_bytes example_msg 10]}) 7
    (Buffer_alloc (signal_bytes (SigStopRequest 7 2 [0; 0; 0; 0]))) [0; 0; 0; 0] (set_bytes example_msg 10))
    as (sA1 & sA2 & cA2 & nA & conf & H1 & _ & H2 & H3 & H4 & H5 & _ & H6 & _);
    try reflexivity; try (simpl; lia).
  - exact example_malloc_length.
  - exists 0. split; reflexivity.
  - intros _. split; reflexivity.
  - exists sA1, sA2, cA2, nA, conf. by repeat (split; [assumption|]).
Defined.

(** ** The length of a flow *)

(** Both ends agree on the number of packets. [PostSend] queues the message
    for the sending thread and a [FlowStart] signal for the receiver; when the
    receiver's endpoint handles that signal and later the [FlowFinish] signal,
    the receiving thread is told the number of the last packet that the
    packetizer will produce. A [FlowFinish] without a [FlowStart] stops the
    process. *)
Theorem flow_length_agreed malloc init_rate max_segment (sA sB : Comm TreeBlockMgr) dest msg prio ep c
    (Hmalloc : forall n, 0 <= n -> Z.of_nat (length (malloc n)) = n)
    (Hseg : 20 < max_segment < 2 ^ 16) (Hsize : 0 < lt_size msg < 2 ^ 32)
    (Hmsg : 0 <= lt_msg_id msg < 2 ^ 31) (HB : c_heap sB !! re_conn_meta ep = Some c) :
  let last := packets (max_segment - 20) (lt_size msg) - 1 in
  exists sA' start,
    PostSend max_segment malloc dest msg prio sA = Ok (tt, sA') /\
    rl_tx_queue (c_rel sA') = rl_tx_queue (c_rel sA) ++ [(dest, start)] /\
    holds_signal start (SigFlowStart (lt_msg_id msg) (lt_size msg) last) /\
    pc_sr_queue (c_prio sA') = pc_sr_queue (c_prio sA) ++ [(dest, LtMessageExt_new msg, prio)] /\
    forall start' fin, received_signal start' (SigFlowStart (lt_msg_id msg) (lt_size msg) last) ->
      received_signal fin (SigFlowFinish (lt_msg_id msg)) ->
      (exists ep',
        HandleReceivedData init_rate ep start' sB = Ok (ep', sB) /\
        HandleReceivedData init_rate ep' fin sB =
          Ok (ep', notified_recv sB (FINISH_FLOW (lt_msg_id msg) last (re_conn_meta ep)))) /\
      (re_msg_max_seq ep !! lt_msg_id msg = None -> HandleReceivedData init_rate ep fin sB = Fatal).
Proof.
  intros last. assert (Hlast : 0 <= last < 2 ^ 32).
  { unfold last. pose proof (packets_bounds (max_segment - 20) ltac:(lia) (lt_size msg) ltac:(lia)). nia. }
  destruct (make_FlowStart_holds malloc Hmalloc (lt_msg_id msg) (lt_size msg) last) as (b & Hb & Hsig).
  unfold PostSend. lift_step (GetMaxSeqNum_packets max_segment Hseg (lt_size msg) Hsize).
  fold last. lift_step Hb. eexists _, b. split; [reflexivity|]. do 3 (split; [done|]).
  intros start' fin Hs Hf. split.
  - eexists (with_max_seq ep (<[lt_msg_id msg := last]> (re_msg_max_seq ep))).
    rewrite (HandleReceivedData_effect init_rate ep c start' _ sB Hs ltac:(cbn; lia) HB). split; [done|].
    rewrite (HandleReceivedData_effect init_rate _ c fin _ sB Hf ltac:(cbn; lia)) by exact HB.
    cbn [signal_effect re_msg_max_seq with_max_seq]. by rewrite lookup_insert_eq.
  - intros Hno. rewrite (HandleReceivedData_effect init_rate ep c fin _ sB Hf ltac:(cbn; lia) HB).
    cbn [signal_effect]. by rewrite Hno.
Qed.

Lemma flow_length_agreed_witness :
  exists sA' start,
    PostSend 32 example_malloc 2 (example_sent 24) example_tos (example_comm (example_conn ∅ ∅ ∅)) = Ok (tt, sA') /\
    holds_signal start (SigFlowStart 7 24 1).
Proof.
  destruct (flow_length_agreed example_malloc (f64_of_Z 1) 32 (example_comm (example_conn ∅ ∅ ∅))
    (example_comm (example_conn ∅ ∅ ∅)) 2 (example_sent 24) example_tos example_endpoint (example_conn ∅ ∅ ∅)
    example_malloc_length) as (sA' & start & H1 & _ & H2 & _); try reflexivity; try (simpl; lia).
  exists sA', start. split; [exact H1|exact H2].
Defined.

(** ** Meta messages *)

(** A meta message arrives unchanged. The payload that [SendMetaAsync]
    takes from the caller's buffer is what [RecvMeta] writes to the front of the
    buffer of the receiving caller, with its length and the sender's id,
    provided that buffer has the room ([RecvMeta] does not check it). *)
Theorem meta_roundtrip malloc init_rate (sA sB : Comm TreeBlockMgr) dest out ep c inb payload
    (Hmalloc : forall n, 0 <= n -> Z.of_nat (length (malloc n)) = n)
    (Hload : Buffer_load out 0 (buf_msg_length out) = Ok payload)
    (Hlen : Z.of_nat (length payload) = buf_msg_length out) (Hlt : buf_msg_length out + 8 < 2 ^ 32)
    (HB : c_heap sB !! re_conn_meta ep = Some c) (Hq : c_meta_queue sB = [])
    (Hroom : (length payload <= length (buf_mem inb))%nat) :
  exists sA' b,
    SendMetaAsync malloc dest out sA = Ok (tt, sA') /\
    rl_tx_queue (c_rel sA') = rl_tx_queue (c_rel sA) ++ [(dest, b)] /\
    holds_signal b (SigUserData payload) /\
    forall b', received_signal b' (SigUserData payload) -> buf_msg_length b' = Z.of_nat (length (buf_mem b')) ->
      exists sB1 sB2 got,
        HandleReceivedData init_rate ep b' sB = Ok (ep, sB1) /\
        RecvMeta inb sB1 = Ok (Some (cm_dest_comm_id c, got), sB2) /\
        c_meta_queue sB2 = [] /\ buf_msg_length got = Z.of_nat (length payload) /\
        take (length payload) (buf_mem got) = payload.
Proof.
  destruct (make_UserData_holds malloc out payload Hmalloc Hload Hlen Hlt) as (b & Hb & Hsig).
  unfold SendMetaAsync. lift_step Hb. eexists _, b. split; [reflexivity|]. do 2 (split; [done|]).
  intros b' Hb' Hml.
  rewrite (HandleReceivedData_effect init_rate ep c b' _ sB Hb' I HB). cbn [signal_effect].
  rewrite Hq. set (sB1 := set_meta_queue sB _).
  assert (Hl' : length (buf_mem b') = (4 + length payload)%nat).
  { rewrite Hb'. unfold signal_bytes. by rewrite length_app, length_le_bytes. }
  assert (Hn : u32 (buf_msg_length b' - sizeof_UserDataHeader) = Z.of_nat (length payload)).
  { rewrite Hml, Hl'. unfold sizeof_UserDataHeader. rewrite u32_small; lia. }
  assert (Hp : Buffer_load b' fld_payload (Z.of_nat (length payload)) = Ok payload).
  { apply (Buffer_load_app b' fld_payload (le_bytes 4 0) payload []);
      [rewrite Hb', app_nil_r; reflexivity|by rewrite length_le_bytes]. }
  exists sB1. unfold RecvMeta. step (eq_refl : get sB1 = Ok (sB1, sB1)).
  change (c_meta_queue sB1) with [(cm_dest_comm_id c, b')]. cbv iota beta.
  step (eq_refl : modify (fun s => set_meta_queue s []) sB1 = Ok (tt, set_meta_queue sB1 [])).
  rewrite Hn. lift_step Hp.
  rewrite <- (take_drop (length payload) (buf_mem inb)) in Hroom.
  assert (Hst : Buffer_store (Buffer_set_msg_length inb (Z.of_nat (length payload))) 0 payload =
    Ok (set_mem (Buffer_set_msg_length inb (Z.of_nat (length payload)))
          ([] ++ payload ++ drop (length payload) (buf_mem inb)))).
  { apply (Buffer_store_app _ 0 [] (take (length payload) (buf_mem inb))); [|done|].
    - cbn. by rewrite take_drop.
    - rewrite length_app, length_take, length_drop in Hroom. rewrite length_take. lia. }
  lift_step Hst. eexists _, _. split; [reflexivity|]. split; [reflexivity|]. split; [done|].
  cbn. split; [apply u32_small; lia|]. by rewrite take_app_length.
Qed.

Lemma meta_roundtrip_witness :
  exists sA' b,
    SendMetaAsync example_malloc 2 (Buffer_view [5; 6; 7] 3 3) (example_comm (example_conn ∅ ∅ ∅)) = Ok (tt, sA') /\
    holds_signal b (SigUserData [5; 6; 7]).
Proof.
  destruct (meta_roundtrip example_malloc (f64_of_Z 1) (example_comm (example_conn ∅ ∅ ∅))
    (example_comm (example_conn ∅ ∅ ∅)) 2 (Buffer_view [5; 6; 7] 3 3) example_endpoint (example_conn ∅ ∅ ∅)
    (Buffer_alloc [0; 0; 0; 0]) [5; 6; 7] example_malloc_length)
    as (sA' & b & H1 & _ & H2 & _); try reflexivity; try (simpl; lia).
  exists sA', b. split; [exact H1|exact H2].
Defined.

(** ** The backlog *)

(** When the backlog is enabled, the loop of [InitBacklog] never ends: its
    condition [ptr < ptr + size] holds for every [ptr], so no number of
    iterations brings the constructor of [ConnMeta] to return (the free list
    grows, with addresses past the buffer, until the memory is exhausted). *)
Theorem InitBacklog_diverges fuel ptr size max_segment free (Hsize : 0 < size) :
  InitBacklog fuel ptr size max_segment free = OutOfFuel.
Proof.
  revert ptr free. induction fuel as [|fuel IH]; intros; [done|]. cbn [InitBacklog].
  rewrite (proj2 (Z.ltb_lt _ _)) by lia. apply IH.
Qed.

Lemma InitBacklog_diverges_witness : InitBacklog 100 4096 65536 1500 [] = OutOfFuel.
Proof. apply InitBacklog_diverges. lia. Defined.
