(* ===== verification/Flow.v ===== *)
(** One flow end to end: two communicators, the datagrams between them and the
    control connection, as a state machine whose steps are the handlers of
    src/src/mlt/{priority_channel,udp_endpoint,receiving_channel,reliable_channel,rd_endpoint}.cc
    in any order that the four threads and the network can produce.

    [Flow] is the state, [action] a turn of one handler or an event of the
    network, [do_action] runs it. The network loses, duplicates and reorders
    datagrams; a control frame crosses the TCP connection whole (Framing.v shows
    that cutting it up changes nothing). FlowProtocol.v is the abstract protocol
    and FlowState.v the relation between its states and these; FlowSender.v,
    FlowReceiver.v and FlowRefine.v show that each action is a step of the
    protocol, FlowSafety.v and FlowProgress.v what follows for whole runs,
    FlowTurns.v that the loops of the threads run sequences of actions, and
    FlowTheorems.v states the results. *)

From S2P Require Import Prelude Bytes Runs BlockMgr TreeBlockMgr GradPacket LtMessage Packetizer Transfer Floats Meter Wire Queues Framing Comm PriorityChannel Sender ReceivingChannel Receiver Delivery ReliableChannel Communicator Control.

(** ** The state machine *)

Record Flow := mkFlow {
  fl_a : Comm TreeBlockMgr;      (** the sender *)
  fl_b : Comm TreeBlockMgr;      (** the receiver *)
  fl_net : list (list Z);        (** datagrams on their way *)
  fl_user : list Z }.            (** the memory of the receiving user *)

Inductive action :=
| TakeSend                       (** the sending thread takes a request from [sr_queue_] *)
| PollSend                       (** [PollSendingMessages], the connection's turn *)
| PollRetransmit                 (** [PollRetransmitRequest], the connection's turn *)
| PrioNotify                     (** [PollNotification] of the sending thread, one notification *)
| Transmit (ep k : nat)          (** endpoint [ep] can send, with room for [k] packets *)
| Lose (k : nat)                 (** the network loses a datagram *)
| Duplicate (k : nat)            (** it repeats one *)
| Receive (k : nat)              (** it delivers one: the receiving thread handles it *)
| TakeReceive                    (** the receiving thread takes a request from [rr_queue_] *)
| RecvNotify                     (** [PollNotification] of the receiving thread, one notification *)
| ControlToB                     (** a queued control message crosses to the receiver *)
| ControlToA.                    (** and to the sender *)

Section system.
Context (clock : nat -> Z) (malloc : Z -> list Z) (uninit : GradPacket).
Context (init_rate : double) (init_window interval_us : Z).
Context {SockAddr : Type} (addr_of : Z -> outcome SockAddr).
Context (max_segment src dst : Z) (pa pb : conn_ptr) (msg : LtMessage).

(** The two pieces that [sendmsg] gathers: the header and the gradients that
    [grad_ptr] leads to. *)
Definition gather (p : GradPacket) : outcome (list Z) :=
  let off := pkt_grad_ptr p - lt_buf msg in
  DEFINED ((0 <=? off) && (kGradPacketHeader <=? pkt_len p) &&
           (off + (pkt_len p - kGradPacketHeader) <=? Z.of_nat (length (lt_mem msg))));;
  Ok (header_bytes p ++ slice (Z.to_nat off) (Z.to_nat (pkt_len p - kGradPacketHeader)) (lt_mem msg)).

Definition take_one {A} (pop : cm TreeBlockMgr (option A)) (handle : A -> cm TreeBlockMgr unit) :
    cm TreeBlockMgr unit :=
  x ← pop; match x with None => mret tt | Some a => handle a end.

(** The oldest queued control message goes to its endpoint and from there to the
    socket. *)
Definition send_control (peer : Z) : cm TreeBlockMgr (option (list Z)) :=
  t ← pop_rel_tx;
  match t with
  | None => mret None
  | Some t =>
      route_buffer t;;
      out ← handle_rel_event clock malloc init_rate init_window interval_us
              (EvOut peer [SendRoom (2 ^ 32)]);
      mret (Some out)
  end.

Definition receive_control (peer : Z) (stream : list Z) : cm TreeBlockMgr unit :=
  handle_rel_event clock malloc init_rate init_window interval_us
    (EvIn peer stream (RecvChunk 4) (RecvChunk (2 ^ 32)));;
  mret tt.

(** The user's memory is that of the posted message. *)
Definition observe (s : Comm TreeBlockMgr) (old : list Z) : list Z :=
  match c_heap s !! pb ≫= fun c => cm_recv_msgs c !! lt_msg_id msg with
  | Some e => ext_mem e
  | None => old
  end.

Definition step_a {A} (m : cm TreeBlockMgr A) (f : Flow) : outcome (A * Flow) :=
  r ← m (fl_a f); Ok (fst r, mkFlow (snd r) (fl_b f) (fl_net f) (fl_user f)).
Definition step_b {A} (m : cm TreeBlockMgr A) (f : Flow) : outcome (A * Flow) :=
  r ← m (fl_b f); Ok (fst r, mkFlow (fl_a f) (snd r) (fl_net f) (observe (snd r) (fl_user f))).
Definition set_net (f : Flow) (net : list (list Z)) : Flow := mkFlow (fl_a f) (fl_b f) net (fl_user f).

Definition handle_datagram (d : list Z) : cm TreeBlockMgr unit :=
  nbytes ← recv_from d; add_rx_meter clock nbytes;; HandleReceive clock malloc nbytes.

(** The socket takes [k] packets of the endpoint, then would block. *)
Definition room_for (s : Comm TreeBlockMgr) (ep k : nat) : list udp_event :=
  let q := match pc_prio_endpoints (c_prio s) !! ep with Some e => ue_tx_queue e | None => [] end in
  map (fun p => UdpSent (pkt_len p)) (take k q) ++ [UdpBlock].

Definition has_endpoint (s : Comm TreeBlockMgr) (ep : nat) : bool :=
  (ep <? length (pc_prio_endpoints (c_prio s)))%nat.

Definition do_action (f : Flow) (a : action) : outcome Flow :=
  match a with
  | TakeSend => r ← step_a (take_one pop_send_request handle_send_request) f; Ok (snd r)
  | PollSend => r ← step_a (poll_sending max_segment clock malloc uninit pa) f; Ok (snd r)
  | PollRetransmit => r ← step_a (poll_retransmit max_segment clock malloc uninit pa) f; Ok (snd r)
  | PrioNotify => r ← step_a (take_one pop_prio_notification (handle_prio_notification malloc)) f; Ok (snd r)
  | Transmit ep k =>
      if has_endpoint (fl_a f) ep then
        r ← step_a (handle_epollout addr_of (ep, room_for (fl_a f) ep k)) f;
        let '(sent, f) := r in
        ds ← foldM (fun ds p => d ← gather (snd p); Ok (ds ++ [d])) [] sent;
        Ok (set_net f (fl_net f ++ ds))
      else Ok f
  | Lose k => Ok (set_net f (delete k (fl_net f)))
  | Duplicate k => Ok (set_net f (fl_net f ++ option_list (fl_net f !! k)))
  | Receive k =>
      match fl_net f !! k with
      | None => Ok f
      | Some d => r ← step_b (handle_datagram d) f; Ok (set_net (snd r) (delete k (fl_net f)))
      end
  | TakeReceive => r ← step_b (take_one pop_receive_request handle_receive_request) f; Ok (snd r)
  | RecvNotify => r ← step_b (take_one pop_recv_notification (handle_recv_notification malloc)) f; Ok (snd r)
  | ControlToB =>
      r ← step_a (send_control dst) f;
      match r with
      | (None, f) => Ok f
      | (Some out, f) => r ← step_b (receive_control src out) f; Ok (snd r)
      end
  | ControlToA =>
      r ← step_b (send_control src) f;
      match r with
      | (None, f) => Ok f
      | (Some out, f) => r ← step_a (receive_control dst out) f; Ok (snd r)
      end
  end.

Definition run_flow : Flow -> list action -> outcome Flow := foldM do_action.

Lemma run_flow_app acts1 acts2 f : run_flow f (acts1 ++ acts2) = (f' ← run_flow f acts1; run_flow f' acts2).
Proof.
  revert f. induction acts1 as [|a acts1 IH]; intros f; [done|]. cbn. destruct (do_action f a); cbn; [apply IH|done..].
Qed.

(** Both users post their requests. *)
Definition post_flow (sA sB : Comm TreeBlockMgr) (prio : PktPrioFunc) (recv : LtMessage) (loss : double) :
    outcome Flow :=
  a ← PostSend max_segment malloc dst msg prio sA;
  b ← PostRecv src recv loss sB;
  Ok (mkFlow (snd a) (snd b) [] (lt_mem recv)).
End system.

(** ** A control message crosses *)

Section control.
Context (clock : nat -> Z) (malloc : Z -> list Z) (init_rate : double) (init_window interval_us : Z).
Context (Hmalloc : forall n, 0 <= n -> Z.of_nat (length (malloc n)) = n).
Implicit Types s : Comm TreeBlockMgr.

(** The endpoint of [peer] has nothing half sent and nothing half received. *)
Definition idle_endpoint s (peer : Z) (conn : conn_ptr) (m : gmap Z Z) : Prop :=
  rl_ctrl_endpoints (c_rel s) !! peer = Some (Some (mkRdEndpoint conn [] (mkRdRx [] false) m)).

Lemma send_control_ok s peer conn m b q sg :
  idle_endpoint s peer conn m -> rl_tx_queue (c_rel s) = (peer, b) :: q -> holds_signal b sg ->
  Z.of_nat (length (signal_bytes sg)) < 2 ^ 32 - 4 ->
  send_control clock malloc init_rate init_window interval_us peer s =
    Ok (Some (frame sg), set_rel s (set_rel_tx (c_rel s) q)).
Proof.
  intros Hep Hq Hb Hlen. unfold send_control. rewrite (cm_bind_Ok _ _ _ (Some (peer, b)) (set_rel s (set_rel_tx (c_rel s) q))).
  2:{ unfold pop_rel_tx. step (eq_refl : gets c_rel s = Ok (c_rel s, s)). by rewrite Hq. }
  cbn [option_bind]. set (s1 := set_rel s (set_rel_tx (c_rel s) q)).
  assert (Hflen : Z.of_nat (length (frame sg)) = 4 + Z.of_nat (length (signal_bytes sg)))
    by (unfold frame; rewrite length_app, length_le_bytes; lia).
  pose proof (WriteLength_frame b sg Hb Hlen) as Hwl. remember (Z.of_nat (length (frame sg))) as L eqn:HL.
  set (fb := mkBuffer (frame sg) L L 0 (buf_is_owner b)) in *.
  set (ep1 := mkRdEndpoint conn [fb] (mkRdRx [] false) m).
  assert (Hroute : route_buffer (peer, b) s1 = put_endpoint peer (Some ep1) s1).
  { unfold route_buffer. step (eq_refl : gets c_rel s1 = Ok (c_rel s1, s1)). cbn [fst snd].
    change (rl_ctrl_endpoints (c_rel s1)) with (rl_ctrl_endpoints (c_rel s)). rewrite Hep.
    by lift_step Hwl. }
  unfold put_endpoint in Hroute. step Hroute.
  set (s2 := set_rel s1 (set_ctrl (c_rel s1) (<[peer := Some ep1]> (rl_ctrl_endpoints (c_rel s1))))).
  unfold handle_rel_event. rewrite (cm_bind_Ok _ _ s2 (frame sg) (set_rel s (set_rel_tx (c_rel s) q))); [done|].
  unfold endpoint. rewrite (cm_bind_Ok _ _ s2 ep1 s2).
  2:{ step (eq_refl : gets c_rel s2 = Ok (c_rel s2, s2)). cbn. by rewrite lookup_insert_eq. }
  assert (Hsend : OnSendReady (re_tx_queue ep1) [SendRoom (2 ^ 32)] = Ok ([], frame sg, [])).
  { unfold OnSendReady, ep1. cbn [re_tx_queue length Nat.add OnSendReady_loop].
    assert (Hclear : Buffer_IsClear fb = false) by (unfold Buffer_IsClear, fb; cbn; apply Z.eqb_neq; lia).
    rewrite Hclear. assert (Hrem : Buffer_GetRemainSize fb = L).
    { unfold Buffer_GetRemainSize, fb. cbn. rewrite u32_small by lia. lia. }
    rewrite Hrem, Z.min_r by lia. unfold Buffer_load. cbn [buf_handled fb buf_mem]. pass.
    assert (Hdone : Buffer_IsClear (Buffer_MarkHandled fb L) = true).
    { unfold Buffer_IsClear, Buffer_MarkHandled, fb. cbn. rewrite u32_small by lia. apply Z.eqb_eq. lia. }
    rewrite Hdone. cbn [OnSendReady_loop mbind outcome_bind]. rewrite app_nil_r. unfold slice. by rewrite drop_0, take_ge by lia. }
  lift_step Hsend. cbv beta iota.
  step (eq_refl : put_endpoint peer (Some (set_re_tx ep1 [])) s2 =
    Ok (tt, set_rel s2 (set_ctrl (c_rel s2) (<[peer := Some (set_re_tx ep1 [])]> (rl_ctrl_endpoints (c_rel s2)))))).
  unfold mret, cm_ret. do 2 f_equal. unfold s2, s1.
  clear - Hep. unfold idle_endpoint in Hep. destruct s as [? ? ? ? ? ? ? [ctrl tx ns] ? ?]. cbn in *.
  unfold set_rel, set_ctrl. cbn. by rewrite insert_insert_eq, insert_id.
Qed.

(** A frame that is there whole is read in one poll. *)
Lemma OnRecvReady_whole dead bs : 0 < Z.of_nat (length bs) < 2 ^ 32 ->
  exists b, OnRecvReady malloc (mkRdRx [] dead) (frame_of_bytes bs) (RecvChunk 4) (RecvChunk (2 ^ 32)) =
    Ok (mkRdRx [] dead, [], Some b) /\ buf_mem b = bs.
Proof.
  intros Hlen. unfold OnRecvReady. cbn [rx_buffers take_partial rx_dead].
  pose proof (length_le_bytes 4 (Z.of_nat (length bs))) as Hl4.
  unfold recv_length, tcp_recv, frame_of_bytes. cbn [Z.eqb]. rewrite Z.min_id, length_app, Hl4, Z.min_l by lia.
  change (Z.to_nat 4) with 4%nat. cbn [Nat.eqb].
  rewrite take_app_length' by done. rewrite drop_app_length' by done.
  destruct (le_bytes 4 (Z.of_nat (length bs))) as [|x l] eqn:Hle; [done|]. rewrite <- Hle in *.
  rewrite Hl4, le_val_le_bytes_id by (simpl; lia). pass.
  set (len := Z.of_nat (length bs)) in *.
  set (b0 := Buffer_set_msg_length (Buffer_alloc (malloc len)) len).
  assert (Hb0 : buf_msg_length b0 = len) by (unfold b0; cbn; apply u32_small; lia).
  unfold recv_data, tcp_recv. assert (Hrem : Buffer_GetRemainSize b0 = len).
  { unfold Buffer_GetRemainSize. rewrite Hb0. cbn. rewrite u32_small by lia. lia. }
  rewrite Hrem, (proj2 (Z.eqb_neq len 0)) by lia. fold len.
  rewrite (Z.min_r (2 ^ 32)), Z.min_id by lia.
  replace (Z.to_nat len) with (length bs) by (unfold len; lia).
  destruct (Nat.eqb_spec (length bs) 0) as [|Hne]; [lia|]. rewrite take_ge, drop_ge by lia.
  destruct bs as [|y bs]; [done|]. set (bs' := y :: bs) in *.
  pose proof (Hmalloc len ltac:(lia)) as Hml. unfold Buffer_store. cbn [buf_handled b0 Buffer_set_msg_length Buffer_alloc buf_mem].
  pass. eexists. split.
  - replace (Buffer_IsClear _) with true; [reflexivity|]. symmetry. unfold Buffer_IsClear. apply Z.eqb_eq.
    cbn [buf_msg_length Buffer_MarkHandled set_mem buf_handled b0 Buffer_set_msg_length Buffer_alloc]. fold len.
    rewrite !u32_small by lia. lia.
  - cbn [buf_mem Buffer_MarkHandled set_mem b0 Buffer_set_msg_length Buffer_alloc]. unfold splice.
    rewrite Z2Nat.inj_0, take_0, drop_ge by lia. apply app_nil_r.
Qed.

Lemma receive_control_ok s peer conn m c sg :
  idle_endpoint s peer conn m -> c_heap s !! conn = Some c -> signal_wf sg ->
  0 < Z.of_nat (length (signal_bytes sg)) < 2 ^ 32 ->
  exists b, received_signal b sg /\
    receive_control clock malloc init_rate init_window interval_us peer (frame sg) s =
      r ← signal_effect init_rate (mkRdEndpoint conn [] (mkRdRx [] false) m) c b sg s;
      Ok (tt, set_rel (snd r) (set_ctrl (c_rel (snd r)) (<[peer := Some (fst r)]> (rl_ctrl_endpoints (c_rel (snd r)))))).
Proof.
  intros Hep Hc Hwf Hlen. destruct (OnRecvReady_whole false (signal_bytes sg) Hlen) as (b & Hrecv & Hb).
  exists b. split; [exact Hb|]. unfold receive_control, handle_rel_event.
  set (ep := mkRdEndpoint conn [] (mkRdRx [] false) m) in *.
  unfold mbind at 1. unfold cm_bind at 1. unfold endpoint. rewrite (cm_bind_Ok _ _ s ep s).
  2:{ step (eq_refl : gets c_rel s = Ok (c_rel s, s)). cbn. by rewrite Hep. }
  cbn [re_rx ep]. lift_step Hrecv. unfold mbind at 1. unfold cm_bind at 1.
  change (set_re_rx _ _) with ep. rewrite (HandleReceivedData_effect init_rate ep c b sg s Hb Hwf Hc).
  destruct (signal_effect init_rate ep c b sg s) as [[ep' s']| | |]; reflexivity.
Qed.
End control.
