(* ===== verification/FlowProtocol.v ===== *)
(** The protocol of one flow, without the machines: what the two ends and the
    network do, as an automaton over sequence numbers and control messages, its
    invariant, and why it always reaches the end. FlowRefine.v shows that the
    handlers implement it. *)

From S2P Require Import Prelude Bytes Runs BlockMgr PriorityChannel Flow.

(** ** States *)

(** The sender has the message in its queue, sends packet [i] next, waits, has
    the packets [rest] to send again, or has been stopped. *)
Inductive phase := Queued | Sending (i : Z) | Waiting | Serving (rest : list Z) | Stopped.

(** The receiver has not taken the request, has received [T], or is done. *)
Inductive status := Unposted | Posted (T : gset Z) | Done (T : gset Z).

(** Control messages to the receiver and to the sender. *)
Inductive fsig := Fin | Conf.
Inductive bsig := Req (bs : list Block) | Stop.
Inductive bmsg := Ctl (b : bsig) | Rate.

Record View := mkView {
  v_phase : phase;
  v_status : status;
  v_start : bool;              (** [FlowStart] is still in the sender's queue *)
  v_fs : list fsig;            (** what else is in it *)
  v_nb : list fsig;            (** notifications of the receiving thread *)
  v_txb : list bmsg;           (** queued by the receiver *)
  v_na : list bsig;            (** notifications of the sending thread *)
  v_out : list (list Z);       (** packets queued at each endpoint *)
  v_net : list Z;              (** packets on their way *)
  v_free : bool }.             (** the sender is not throttled *)

Definition arrived (q : status) : gset Z := match q with Unposted => ∅ | Posted T | Done T => T end.
Definition is_done (q : status) : bool := match q with Done _ => true | _ => false end.
Definition ctls (l : list bmsg) : list bsig := omap (fun m => match m with Ctl b => Some b | Rate => None end) l.

#[global] Arguments ctls : simpl never.

Definition set_phase v p := mkView p (v_status v) (v_start v) (v_fs v) (v_nb v) (v_txb v) (v_na v) (v_out v) (v_net v) (v_free v).
Definition set_status v q := mkView (v_phase v) q (v_start v) (v_fs v) (v_nb v) (v_txb v) (v_na v) (v_out v) (v_net v) (v_free v).
Definition add_fs v l := mkView (v_phase v) (v_status v) (v_start v) (v_fs v ++ l) (v_nb v) (v_txb v) (v_na v) (v_out v) (v_net v) (v_free v).
Definition set_nb v l := mkView (v_phase v) (v_status v) (v_start v) (v_fs v) l (v_txb v) (v_na v) (v_out v) (v_net v) (v_free v).
Definition set_txb v l := mkView (v_phase v) (v_status v) (v_start v) (v_fs v) (v_nb v) l (v_na v) (v_out v) (v_net v) (v_free v).
Definition set_na v l := mkView (v_phase v) (v_status v) (v_start v) (v_fs v) (v_nb v) (v_txb v) l (v_out v) (v_net v) (v_free v).
Definition set_out v l := mkView (v_phase v) (v_status v) (v_start v) (v_fs v) (v_nb v) (v_txb v) (v_na v) l (v_net v) (v_free v).
Definition set_vnet v l := mkView (v_phase v) (v_status v) (v_start v) (v_fs v) (v_nb v) (v_txb v) (v_na v) (v_out v) l (v_free v).
Definition set_fwd v st fs nb := mkView (v_phase v) (v_status v) st fs nb (v_txb v) (v_na v) (v_out v) (v_net v) (v_free v).

Section protocol.
(** The number of packets, and whether the packets [T] reach the bound. *)
Context (n : Z) (reached : gset Z -> bool).

(** ** Steps *)

(** Packet [i] goes to endpoint [m]; after the last one the flow is finished. *)
Definition packet_queued (v : View) (m : nat) (i : Z) (next : option phase) : View :=
  let v := set_out v (alter (fun q => q ++ [i]) m (v_out v)) in
  match next with
  | Some p => set_phase v p
  | None => add_fs (set_phase v Waiting) [Fin]
  end.

Definition routed (v v' : View) (i : Z) (next : option phase) : Prop :=
  exists m, (m < length (v_out v))%nat /\ v' = packet_queued v m i next.

(** A poll may be held back when the rate is limited. *)
Definition polled (v v' : View) (i : Z) (next : option phase) : Prop :=
  (v_free v = false /\ v' = v) \/ routed v v' i next.

(** The packet that the next poll sends, and where the sender stands then. *)
Definition poll_next (p : phase) : option (Z * option phase) :=
  match p with
  | Sending i => Some (i, if i =? n - 1 then None else Some (Sending (i + 1)))
  | Serving (i :: rest) => Some (i, if bool_decide (rest = []) then None else Some (Serving rest))
  | _ => None
  end.
Definition poll_action (p : phase) : action := match p with Serving _ => PollRetransmit | _ => PollSend end.

Definition data (q : status) (i : Z) : status :=
  match q with Posted T => Posted (T ∪ {[i]}) | _ => q end.

(** The packets that the receiver asks for again. *)
Definition asks_for (T : gset Z) (bs : list Block) : Prop :=
  good_blocks n bs /\ bs <> [] /\ NoDup (block_seqs bs) /\
  forall i, i ∈ block_seqs bs <-> 0 <= i < n /\ i ∉ T.

Definition vstep (a : action) (v v' : View) : Prop :=
  match a with
  | TakeSend => v' = match v_phase v with Queued => set_phase v (Sending 0) | _ => v end
  | PollSend =>
      match v_phase v with
      | Sending i => polled v v' i (if i =? n - 1 then None else Some (Sending (i + 1)))
      | _ => v' = v
      end
  | PollRetransmit =>
      match v_phase v with
      | Serving (i :: rest) => polled v v' i (if bool_decide (rest = []) then None else Some (Serving rest))
      | _ => v' = v
      end
  | PrioNotify =>
      match v_na v with
      | [] => v' = v
      | Req bs :: na => v' = set_phase (set_na v na) (Serving (block_seqs bs))
      | Stop :: na => v' = add_fs (set_phase (set_na v na) Stopped) [Conf]
      end
  | Transmit ep k =>
      v' = match v_out v !! ep with
           | None => v
           | Some q => set_vnet (set_out v (<[ep := drop (S k) q]> (v_out v))) (v_net v ++ take k q)
           end
  | Lose k => v' = set_vnet v (delete k (v_net v))
  | Duplicate k => v' = set_vnet v (v_net v ++ option_list (v_net v !! k))
  | Receive k =>
      match v_net v !! k with
      | None => v' = v
      | Some i => exists rates, (rates = [] \/ rates = [Rate]) /\
          let q := data (v_status v) i in
          let stop := reached (arrived q) && negb (reached (arrived (v_status v))) in
          v' = set_txb (set_status (set_vnet v (delete k (v_net v))) q)
                 (v_txb v ++ rates ++ if stop then [Ctl Stop] else [])
      end
  | TakeReceive => v' = match v_status v with Unposted => set_status v (Posted ∅) | _ => v end
  | RecvNotify =>
      match v_nb v with
      | [] => v' = v
      | Fin :: nb =>
          if reached (arrived (v_status v)) then v' = set_nb v nb
          else exists bs, asks_for (arrived (v_status v)) bs /\
                 v' = set_txb (set_nb v nb) (v_txb v ++ [Ctl (Req bs)])
      | Conf :: nb => v' = set_status (set_nb v nb) (Done (arrived (v_status v)))
      end
  | ControlToB =>
      v' = if v_start v then set_fwd v false (v_fs v) (v_nb v)
           else match v_fs v with [] => v | x :: fs => set_fwd v false fs (v_nb v ++ [x]) end
  | ControlToA =>
      v' = match v_txb v with
           | [] => v
           | Rate :: l => set_txb v l
           | Ctl b :: l => set_na (set_txb v l) (v_na v ++ [b])
           end
  end.

(** ** The invariant *)

Definition in_range (i : Z) : Prop := 0 <= i < n.

Definition active (p : phase) : Prop :=
  match p with
  | Sending i => in_range i
  | Serving rest => rest <> [] /\ Forall in_range rest /\ Z.of_nat (length rest) <= n
  | _ => False
  end.

Definition stops (st : bool) : list bsig := if st then [Stop] else [].

(** The control messages on their way to the receiver and to the sender, by
    the phase of the sender; [st]: the receiver has asked to stop; [dn]: it is
    done. *)
Inductive legal : phase -> list fsig -> list bsig -> bool -> bool -> Prop :=
| lg_queued : legal Queued [] [] false false
| lg_active p st : active p -> legal p [] (stops st) st false
| lg_finish st : legal Waiting [Fin] (stops st) st false
| lg_request bs st : active (Serving (block_seqs bs)) -> good_blocks n bs -> bs <> [] ->
    legal Waiting [] (Req bs :: stops st) st false
| lg_quiet : legal Waiting [] [Stop] true false
| lg_finish_stopped : legal Stopped [Fin; Conf] [] true false
| lg_stopped : legal Stopped [Conf] [] true false
| lg_done : legal Stopped [] [] true true.

Definition protocol (v : View) : Prop :=
  legal (v_phase v) (v_nb v ++ v_fs v) (v_na v ++ ctls (v_txb v))
    (reached (arrived (v_status v))) (is_done (v_status v)) /\
  (v_start v = true -> v_nb v = []) /\
  (v_phase v = Queued -> v_net v = [] /\ Forall (eq []) (v_out v)) /\
  Forall in_range (v_net v) /\ Forall (Forall in_range) (v_out v).

Context (Hn : 0 < n).
Context (reached_mono : forall T i, reached T = true -> reached (T ∪ {[i]}) = true).
Context (reached_empty : reached ∅ = false).
Context (reached_full : forall T, (forall i, 0 <= i < n -> i ∈ T) -> reached T = true).

Ltac legal := solve [ by apply lg_active | by apply lg_finish | by apply lg_request | by apply (lg_active _ true) | by apply (lg_active _ false) | by apply (lg_finish true)
  | by apply (lg_finish false) | by apply (lg_request _ true) | by apply (lg_request _ false) | by constructor ].

Lemma ctls_app l1 l2 : ctls (l1 ++ l2) = ctls l1 ++ ctls l2.
Proof. apply omap_app. Qed.

(** Appending the stop request, once. *)
Lemma legal_stop p fwd bwd st st' dn : legal p fwd bwd st dn -> p <> Queued -> (st = true -> st' = true) ->
  legal p fwd (bwd ++ stops (st' && negb st)) st' dn.
Proof.
  intros Hl Hp Hst. destruct st; [rewrite (Hst eq_refl); cbn; by rewrite app_nil_r|].
  inversion Hl; subst; try done; destruct st'; legal.
Qed.

Lemma legal_active_inv p fwd bwd st dn : legal p fwd bwd st dn -> active p ->
  fwd = [] /\ bwd = stops st /\ dn = false.
Proof. intros Hl Ha. by inversion Hl; subst. Qed.

(** A control message at the head of the channel to the sender. *)
Lemma legal_bwd_inv p fwd b bwd st dn : legal p fwd (b :: bwd) st dn ->
  match b with
  | Stop => bwd = [] /\ st = true /\ dn = false /\ p <> Queued /\ p <> Stopped /\ (fwd = [] \/ fwd = [Fin])
  | Req bs => p = Waiting /\ fwd = [] /\ bwd = stops st /\ dn = false /\ active (Serving (block_seqs bs)) /\
      good_blocks n bs /\ bs <> []
  end.
Proof.
  intros Hl. inversion Hl; subst; try (destruct st; simplify_eq/=); split_and?; try done; auto; try tauto; intros Hp; by subst p.
Qed.

(** A control message at the head of the channel to the receiver. *)
Lemma legal_fwd_inv p f fwd bwd st dn : legal p (f :: fwd) bwd st dn ->
  dn = false /\
  match f with
  | Fin => (p = Waiting /\ fwd = [] /\ bwd = stops st) \/ (p = Stopped /\ fwd = [Conf] /\ bwd = [] /\ st = true)
  | Conf => p = Stopped /\ fwd = [] /\ bwd = [] /\ st = true
  end.
Proof. inversion 1; subst; intuition congruence. Qed.

Lemma Forall_alter {A} (P : A -> Prop) f m l : Forall P l -> (forall x, P x -> P (f x)) -> Forall P (alter f m l).
Proof.
  intros Hl Hf. revert m. induction Hl as [|x l Hx Hl IH]; intros [|m]; cbn; constructor; auto.
Qed.

Lemma protocol_packet v m i next : protocol v -> active (v_phase v) -> in_range i ->
  match next with Some p' => active p' | None => True end -> protocol (packet_queued v m i next).
Proof.
  intros (Hl & Hst & Hq & Hnet & Hout) Ha Hi Hnext.
  destruct (legal_active_inv _ _ _ _ _ Hl Ha) as ([Hnb Hfs]%app_eq_nil & Hbwd & Hdn).
  unfold protocol, packet_queued. destruct next as [p'|]; cbn; rewrite Hnb, Hfs, Hbwd, Hdn; cbn.
  all: split; [legal|]; split; [done|]; split; [intros Hp'; first [discriminate|by subst]|]; split; [done|].
  all: apply Forall_alter; [done|]; intros q Hq'; apply Forall_app; split; [done|by constructor].
Qed.

Lemma NoDup_in_range l : NoDup l -> (forall i, i ∈ l -> 0 <= i < n) -> Z.of_nat (length l) <= n.
Proof.
  intros Hnd Hl. assert (Hsub : (length l <= length (seqZ 0 n))%nat); [|rewrite length_seqZ in Hsub; lia].
  apply submseteq_length, NoDup_submseteq; [done|]. intros i Hi%Hl. apply elem_of_seqZ. lia.
Qed.

(** Every step keeps the invariant. *)
Lemma protocol_step a v v' : protocol v -> vstep a v v' -> protocol v'.
Proof.
  intros Hv Hs. pose proof Hv as (Hl & Hst & Hq & Hnet & Hout). destruct a; cbn [vstep] in Hs.
  - subst v'. destruct (v_phase v) eqn:Hp; try done.
    split; [|by repeat split]. cbn. inversion Hl; subst; [|done]. apply (lg_active (Sending 0) false). cbn. unfold in_range. lia.
  - destruct (v_phase v) as [|i| | |] eqn:Hp; try (by subst v').
    destruct Hs as [[_ ->]|(m & _ & ->)]; [done|].
    assert (Ha : active (v_phase v)) by (rewrite Hp; inversion Hl; by subst).
    apply protocol_packet; [done|done|by rewrite Hp in Ha|]. rewrite Hp in Ha. cbn in Ha. unfold in_range in *.
    destruct (Z.eqb_spec i (n - 1)); [done|]. cbn. unfold in_range. lia.
  - destruct (v_phase v) as [| | |[|i rest]|] eqn:Hp; try (by subst v').
    destruct Hs as [[_ ->]|(m & _ & ->)]; [done|].
    assert (Ha : active (v_phase v)) by (rewrite Hp; inversion Hl; by subst).
    apply protocol_packet; [done|done|..]; rewrite Hp in Ha;
      destruct Ha as (_ & [Hi Hr]%Forall_cons & Hlen); [done|].
    case_bool_decide as Hne; [done|]. cbn in Hlen. split; [done|]. split; [done|lia].
  - destruct (v_na v) as [|[bs|] na] eqn:Hna; [by subst v'|..]; subst v'; cbn in Hl;
      pose proof (legal_bwd_inv _ _ _ _ _ _ Hl) as Hb.
    + destruct Hb as (Hp & Hf & Hbwd & Hdn & Ha & Hg & Hne). split; [|by repeat split].
      cbn. rewrite Hf, Hbwd, Hdn. legal.
    + destruct Hb as (Hbwd & Hr & Hdn & Hp & _ & Hf). split; [|by repeat split].
      cbn. rewrite app_assoc, Hbwd, Hr, Hdn. destruct Hf as [-> | ->]; legal.
  - subst v'. destruct (v_out v !! ep) as [q|] eqn:Hep; [|done].
    assert (Hqr : Forall in_range q) by (by apply (Forall_lookup_1 _ _ ep q Hout)).
    split; [done|]. split; [done|]. split; [|split].
    + intros [Hn0 Ho]%Hq. assert (q = []) as -> by (symmetry; by apply (Forall_lookup_1 _ _ ep q Ho)).
      cbn. rewrite Hn0. split; [by destruct k|]. apply Forall_insert; [done|by destruct k].
    + cbn. apply Forall_app. split; [done|]. by apply Forall_take.
    + cbn. apply Forall_insert; [done|]. by apply Forall_drop.
  - subst v'. split; [done|]. split; [done|]. split; [|split; [|done]]; cbn.
    + intros [Hn0 Ho]%Hq. by rewrite Hn0.
    + by apply Forall_delete.
  - subst v'. split; [done|]. split; [done|]. split; [|split; [|done]]; cbn.
    + intros [Hn0 Ho]%Hq. by rewrite Hn0.
    + apply Forall_app. split; [done|]. destruct (v_net v !! k) as [i|] eqn:Hk; cbn; [|done].
      constructor; [|done]. by apply (Forall_lookup_1 _ _ k i Hnet).
  - destruct (v_net v !! k) as [i|] eqn:Hk; [|by subst v'].
    destruct Hs as (rates & Hrates & ->).
    assert (Hp : v_phase v <> Queued) by (intros [Hn0 _]%Hq; by rewrite Hn0 in Hk).
    assert (Hmono : reached (arrived (v_status v)) = true -> reached (arrived (data (v_status v) i)) = true).
    { destruct (v_status v); cbn; auto. }
    split; [|split; [done|split; [done|split; [|done]]]]; cbn; [|by apply Forall_delete].
    replace (ctls _) with (ctls (v_txb v) ++
      stops (reached (arrived (data (v_status v) i)) && negb (reached (arrived (v_status v))))).
    2:{ rewrite !ctls_app. f_equal. by destruct Hrates as [-> | ->]; destruct (_ && _). }
    rewrite app_assoc. replace (is_done (data (v_status v) i)) with (is_done (v_status v)) by (by destruct (v_status v)).
    by apply legal_stop.
  - subst v'. by destruct (v_status v) eqn:Hq'.
  - destruct (v_nb v) as [|[|] nb] eqn:Hnb; [by subst v'|..]; cbn in Hl;
      destruct (legal_fwd_inv _ _ _ _ _ _ Hl) as [Hdn Hf];
      (assert (Hstart : v_start v = true -> nb = []) by (intros Hs1; by specialize (Hst Hs1))).
    + destruct (reached (arrived (v_status v))) eqn:Hr.
      * subst v'. split; [|exact (conj Hstart (conj Hq (conj Hnet Hout)))]. cbn. rewrite Hr, Hdn.
        destruct Hf as [(-> & -> & ->)|(-> & -> & -> & _)]; legal.
      * destruct Hs as (bs & (Hg & Hne & Hnd & Hbs) & ->). split; [|exact (conj Hstart (conj Hq (conj Hnet Hout)))]. cbn. rewrite Hr, Hdn.
        destruct Hf as [(-> & -> & Hb)|(_ & _ & _ & ?)]; [|done].
        rewrite ctls_app, app_assoc, Hb. cbn. apply (lg_request bs false); [|done|done].
        split; [|split; [apply Forall_forall; intros i Hi; by apply Hbs|apply (NoDup_in_range _ Hnd); intros i Hi%Hbs; lia]].
        intros Hnil. rewrite (reached_full (arrived (v_status v))) in Hr; [done|]. intros i Hi.
        destruct (decide (i ∈ arrived (v_status v))) as [|Hno]; [done|]. exfalso.
        pose proof (proj2 (Hbs i) (conj Hi Hno)) as Hin. rewrite Hnil in Hin. by apply elem_of_nil in Hin.
    + destruct Hf as (Hp & Hfs & Hb & Hr). subst v'. split; [|cbn; tauto]. cbn. rewrite Hp, Hfs, Hb, Hr. legal.
  - subst v'. destruct (v_start v) eqn:Hs1.
    + split; [done|]. split; [done|]. exact (conj Hq (conj Hnet Hout)).
    + destruct (v_fs v) as [|x fs] eqn:Hfs; [done|]. split; [|split; [done|exact (conj Hq (conj Hnet Hout))]]. cbn. by rewrite <- app_assoc.
  - subst v'. destruct (v_txb v) as [|[b|] l] eqn:Htx; [done|..]; split; try exact (conj Hst (conj Hq (conj Hnet Hout))); cbn in *.
    + by rewrite <- app_assoc.
    + done.
Qed.
End protocol.
