(* ===== verification/FlowState.v ===== *)
(** What the two communicators look like in a state of the protocol
    (FlowProtocol.v): the environment and the flow ([Setup]), the conditions on
    them, and the relation [represents] between a state of the machines and a
    state of the protocol. *)

From S2P Require Import Prelude Bytes Runs BlockMgr TreeBlockMgr GradPacket LtMessage Packetizer Transfer Floats Meter Wire Queues Framing Comm PriorityChannel Sender ReceivingChannel Receiver Delivery ReliableChannel Communicator Control Flow FlowProtocol.

(** ** The setting *)

Record Setup := mkSetup {
  su_clock : nat -> Z;
  su_malloc : Z -> list Z;
  su_uninit : GradPacket;
  su_init_rate : double;
  su_init_window : Z;
  su_interval : Z;
  su_addr_of : Z -> outcome Z;
  su_seg : Z;                 (** [MaxSegment()] *)
  su_src : Z;                 (** the ids of the sender and of the receiver *)
  su_dst : Z;
  su_pa : conn_ptr;           (** their connections to each other *)
  su_pb : conn_ptr;
  su_msg : LtMessage;         (** what is sent *)
  su_prio : PktPrioFunc;
  su_rx : Z;                  (** the address of the receive buffer *)
  su_recv : LtMessage;        (** where it is to be received *)
  su_loss : double;
  su_bound : Z;               (** the bytes after which the receiver is content *)
  su_cqa : list Completion;   (** earlier completions *)
  su_cqb : list Completion }.

Record good_setup (P : Setup) : Prop := {
  gs_malloc : forall n, 0 <= n -> Z.of_nat (length (su_malloc P n)) = n;
  gs_addr : exists a, su_addr_of P (su_dst P) = Ok a;
  gs_seg : 28 <= su_seg P < 2 ^ 16;
  gs_src : 0 <= su_src P < 2 ^ 16;
  gs_dst : 0 <= su_dst P < 2 ^ 16;
  gs_size : 0 < lt_size (su_msg P) < 2 ^ 32;
  gs_data : Z.of_nat (length (lt_mem (su_msg P))) = lt_size (su_msg P);
  gs_mid : 0 <= lt_msg_id (su_msg P) < 2 ^ 31;
  gs_buf : 0 <= lt_buf (su_msg P) /\ lt_buf (su_msg P) + lt_size (su_msg P) < 2 ^ 64;
  gs_rx : 0 <= su_rx P < 2 ^ 63;
  gs_recv : lt_msg_id (su_recv P) = lt_msg_id (su_msg P) /\ lt_size (su_recv P) = lt_size (su_msg P) /\
    length (lt_mem (su_recv P)) = length (lt_mem (su_msg P));
  gs_loss : loss_bound (lt_size (su_msg P)) (su_loss P) = Ok (su_bound P);
  gs_bound : 0 < su_bound P <= lt_size (su_msg P) }.

Section setting.
Context (P : Setup).

Definition flow_do : Flow -> action -> outcome Flow :=
  do_action (su_clock P) (su_malloc P) (su_uninit P) (su_init_rate P) (su_init_window P) (su_interval P)
    (su_addr_of P) (su_seg P) (su_src P) (su_dst P) (su_pa P) (su_pb P) (su_msg P).
Definition flow_run : Flow -> list action -> outcome Flow :=
  run_flow (su_clock P) (su_malloc P) (su_uninit P) (su_init_rate P) (su_init_window P) (su_interval P)
    (su_addr_of P) (su_seg P) (su_src P) (su_dst P) (su_pa P) (su_pb P) (su_msg P).

Notation mid := (lt_msg_id (su_msg P)).
Notation size := (lt_size (su_msg P)).

Definition flow_packets : Z := packets (su_seg P - 20) size.
Definition flow_bytes (T : gset Z) : Z := received_bytes (su_seg P - 20) size T.
Definition flow_reached (T : gset Z) : bool := su_bound P <=? flow_bytes T.
Definition flow_ext : LtMessageExt TreeBlockMgr := LtMessageExt_new (su_msg P).
Definition flow_packet (tos i : Z) : GradPacket := packet_of (su_seg P) (su_src P) (su_dst P) (su_msg P) tos i.
Definition flow_datagram (tos i : Z) : list Z := datagram (su_seg P) (su_src P) (su_dst P) (su_msg P) tos i.

(** ** Control messages *)

Definition start_signal : Signal := SigFlowStart mid size (flow_packets - 1).
Definition fsig_signal (f : fsig) : Signal :=
  match f with Fin => SigFlowFinish mid | Conf => SigStopConfirm mid end.

(** What the sender has queued for the receiver. *)
Definition tx_signals (v : View) : list Signal :=
  (if v_start v then [start_signal] else []) ++ map fsig_signal (v_fs v).

Definition fsig_notification (f : fsig) : RecvNotification :=
  match f with
  | Fin => FINISH_FLOW mid (flow_packets - 1) (su_pb P)
  | Conf => CONFIRM_STOP mid (su_pb P)
  end.

Definition bmsg_signal (m : bmsg) (sg : Signal) : Prop :=
  match m with
  | Rate => exists x, sg = SigRateAdjustment x
  | Ctl Stop => exists r, length r = 4%nat /\ sg = SigStopRequest mid (su_dst P) r
  | Ctl (Req bs) => Z.of_nat (length bs) < 2 ^ 29 - 3 /\ sg = SigRetransmitRequest mid (su_dst P) bs
  end.

Definition bsig_notification (b : bsig) (x : PrioNotification) : Prop :=
  match b with
  | Stop => x = STOP_FLOW (EncodeFlow (su_dst P) mid)
  | Req bs => exists buf, x = REQUEST_RETRANSMIT buf /\
      received_signal buf (SigRetransmitRequest mid (su_dst P) bs)
  end.

(** ** The sender *)

Definition sending_phase (c : ConnMeta TreeBlockMgr) (p : phase) : Prop :=
  match p with
  | Queued => cm_sending_msgs c = ∅ /\ cm_retransmitting_msgs c !! mid = None /\ cm_retransmit_reqs c = ∅
  | Sending i => in_sending (su_seg P) c flow_ext (su_prio P) i /\ cm_retransmit_reqs c = ∅
  | Waiting => in_sent c flow_ext (su_prio P) /\ cm_retransmit_reqs c = ∅
  | Serving rest => exists b bs, in_serving (su_seg P) c flow_ext (su_prio P) b bs rest
  | Stopped => cm_sending_msgs c = ∅ /\ cm_retransmit_reqs c = ∅ /\ cm_retransmitting_msgs c !! mid = None
  end.

(** A queued packet, a datagram. *)
Definition is_packet (p : GradPacket) (i : Z) : Prop := exists tos, 0 <= tos < 2 ^ 8 /\ p = flow_packet tos i.
Definition is_datagram (d : list Z) (i : Z) : Prop := exists tos, 0 <= tos < 2 ^ 8 /\ d = flow_datagram tos i.

(** [k]: the calls of the meters that are left before their counters
    overflow. *)
Record sender_inv (k : Z) (s : Comm TreeBlockMgr) (v : View) (c : ConnMeta TreeBlockMgr) (m : gmap Z Z) : Prop := {
  sd_id : c_comm_id s = su_src P;
  sd_conn : c_heap s !! su_pa P = Some c;
  sd_dest : cm_dest_comm_id c = su_dst P;
  sd_knows : knows s (su_dst P) (su_pa P);
  sd_ep : idle_endpoint s (su_dst P) (su_pa P) m;
  sd_notif : Forall2 (fun x b => bsig_notification b x) (pc_notification_queue (c_prio s)) (v_na v);
  sd_tx : Forall2 (fun t sg => fst t = su_dst P /\ holds_signal (snd t) sg) (rl_tx_queue (c_rel s)) (tx_signals v);
  sd_prio : prio_ok (su_seg P) (su_uninit P) s flow_ext (su_dst P) (su_prio P);
  sd_out : Forall2 (fun ep q => Forall2 is_packet (ue_tx_queue ep) q) (pc_prio_endpoints (c_prio s)) (v_out v);
  sd_meters : meters_ok s c k;
  sd_queue : pc_sr_queue (c_prio s) =
    match v_phase v with Queued => [(su_dst P, flow_ext, su_prio P)] | _ => [] end;
  sd_phase : sending_phase c (v_phase v);
  sd_cq : c_cq s = su_cqa P ++
    match v_phase v with Stopped => [mkCompletion mid CompSend (su_dst P) 0] | _ => [] end;
  sd_free : v_free v = true -> su_init_rate P = S754_infinity false /\ unthrottled c }.

Definition sender_at (k : Z) (s : Comm TreeBlockMgr) (v : View) : Prop := exists c m, sender_inv k s v c m.

(** The rate holds the next poll back. *)
Definition poll_held (p : phase) (s : Comm TreeBlockMgr) : bool :=
  match p with
  | Serving _ => retransmit_held (su_seg P) (su_clock P) (su_pa P) s
  | _ => sending_held (su_seg P) (su_clock P) (su_pa P) s
  end.

(** Of the next polls, each of which reads the clock once, the rate holds at
    most [W] in a row back. *)
Definition lets_through (W : nat) (s : Comm TreeBlockMgr) : Prop :=
  forall p, exists j, (j <= W)%nat /\ poll_held p (set_ticks s (c_ticks s + j)) = false.

(** ** The receiver *)

Definition receiving_status (c : ConnMeta TreeBlockMgr) (q : status) : Prop :=
  match q with
  | Unposted => cm_recv_msgs c !! mid = None /\ default [] (cm_backlog_used_map c !! mid) = []
  | Posted T => exists e, cm_recv_msgs c !! mid = Some e /\
      recv_inv (su_seg P) (corrupt_msg (su_seg P) (su_rx P) (su_msg P)) (lt_mem (su_recv P)) e T /\
      ext_bound e = su_bound P /\ stop_flag (su_seg P) (su_msg P) e T
  | Done _ => cm_recv_msgs c !! mid = None
  end.

Record receiver_inv (k : Z) (s : Comm TreeBlockMgr) (v : View) (c : ConnMeta TreeBlockMgr) (m : gmap Z Z) : Prop := {
  rv_conn : connected (su_seg P) (su_src P) (su_dst P) (su_rx P) s (su_pb P) c;
  rv_ep : idle_endpoint s (su_src P) (su_pb P) m;
  rv_max : v_start v = false -> Conf ∉ v_nb v -> is_done (v_status v) = false -> m !! mid = Some (flow_packets - 1);
  rv_notif : rc_notification_queue (c_recv s) = map fsig_notification (v_nb v);
  rv_tx : Forall2 (fun t b => fst t = su_src P /\ exists sg, holds_signal (snd t) sg /\ bmsg_signal b sg)
    (rl_tx_queue (c_rel s)) (v_txb v);
  rv_meter : 0 <= rm_scnt (cm_rx_meter c) /\ rm_scnt (cm_rx_meter c) + 2 * k < 2 ^ 31;
  rv_meter2 : m_cnt (rc_meter (c_recv s)) + k < 2 ^ 31;
  rv_backlog : cm_backlog_free_list c = [];
  rv_queue : rc_rr_queue (c_recv s) =
    match v_status v with Unposted => [(su_pb P, su_recv P, su_loss P)] | _ => [] end;
  rv_status : receiving_status c (v_status v);
  rv_cq : c_cq s = su_cqb P ++
    match v_status v with Done T => [mkCompletion mid CompRecv (su_src P) (flow_bytes T)] | _ => [] end }.

Definition receiver_at (k : Z) (s : Comm TreeBlockMgr) (v : View) : Prop := exists c m, receiver_inv k s v c m.

(** The user's memory holds the packets [T], as the receiver stores them, and
    is otherwise as it was. *)
Definition memory_holds (T : gset Z) (mem : list Z) : Prop :=
  length mem = length (lt_mem (su_msg P)) /\
  forall j, (j < length (lt_mem (su_msg P)))%nat ->
    mem !! j = if decide (Z.of_nat j `div` (su_seg P - 20) ∈ T)
               then corrupt (su_seg P - 20) (su_rx P + 20) (lt_mem (su_msg P)) !! j
               else lt_mem (su_recv P) !! j.

Definition represents (k : Z) (f : Flow) (v : View) : Prop :=
  sender_at k (fl_a f) v /\ receiver_at k (fl_b f) v /\ Forall2 is_datagram (fl_net f) (v_net v) /\
  memory_holds (arrived (v_status v)) (fl_user f).
End setting.
