(* ===== verification/FlowSender.v ===== *)
(** The sender implements the protocol: what each handler of its threads does
    to a communicator that stands as [sender_at] says. *)

From S2P Require Import Prelude Bytes Runs BlockMgr TreeBlockMgr GradPacket LtMessage Packetizer Transfer Floats Meter Wire Queues Framing Comm PriorityChannel Sender ReceivingChannel Receiver Delivery ReliableChannel Communicator Control Flow FlowProtocol FlowState.

Lemma alter_insert {A} (f : A -> A) (l : list A) i x : l !! i = Some x -> alter f i l = <[i := f x]> l.
Proof.
  revert i. induction l as [|y l IH]; intros [|i] Hi; try done; cbn in *; [congruence|]. f_equal. by apply IH.
Qed.

Lemma take_one_none {A} (pop : cm TreeBlockMgr (option A)) handle s s' :
  pop s = Ok (None, s') -> take_one pop handle s = Ok (tt, s').
Proof. intros H. unfold take_one. by step H. Qed.
Lemma take_one_some {A} (pop : cm TreeBlockMgr (option A)) handle s s' a :
  pop s = Ok (Some a, s') -> take_one pop handle s = handle a s'.
Proof. intros H. unfold take_one. by step H. Qed.

Section sender.
Context (P : Setup) (HP : good_setup P).

Notation mid := (lt_msg_id (su_msg P)).
Notation size := (lt_size (su_msg P)).
Notation n := (flow_packets P).
Notation e0 := (flow_ext P).
Implicit Types s : Comm TreeBlockMgr.

Lemma flow_packets_small : 0 < n < 2 ^ 30 - 7.
Proof. exact (n_small (su_seg P) (gs_seg P HP) (su_msg P) (gs_size P HP) (gs_data P HP)). Qed.

Lemma mid_key : s32 (ext_msg_id e0) = mid.
Proof. pose proof (gs_mid P HP). apply s32_small. cbn. lia. Qed.

(** What of the protocol's state the sender sees. *)
Definition sender_view (v v' : View) : Prop :=
  v_phase v' = v_phase v /\ v_start v' = v_start v /\ v_fs v' = v_fs v /\ v_na v' = v_na v /\ v_out v' = v_out v /\
  v_free v' = v_free v.

Lemma sender_at_view k k' s v v' : sender_at P k s v -> k' <= k -> sender_view v v' -> sender_at P k' s v'.
Proof.
  intros (c & m & H) Hk (H1 & H2 & H3 & H4 & H5 & H6). exists c, m. destruct H. constructor; try done.
  - by rewrite H4.
  - unfold tx_signals. by rewrite H2, H3.
  - by rewrite H5.
  - unfold meters_ok in *. lia.
  - by rewrite H1.
  - by rewrite H1.
  - by rewrite H1.
  - by rewrite H6.
Qed.

(** ** Taking the request *)

Lemma send_request_ok k s v : sender_at P k s v ->
  exists s', take_one pop_send_request handle_send_request s = Ok (tt, s') /\
    sender_at P k s' (match v_phase v with Queued => set_phase v (Sending 0) | _ => v end).
Proof.
  intros (c & m & H). destruct (v_phase v) eqn:Hp.
  2-5: exists s; split; [|by exists c, m]; apply take_one_none; unfold pop_send_request;
    step (eq_refl : gets c_prio s = Ok (c_prio s, s)); by rewrite (sd_queue _ _ _ _ _ _ H), Hp.
  set (s1 := set_prio s (set_sr_queue (c_prio s) [])).
  assert (Hpop : pop_send_request s = Ok (Some (su_dst P, e0, su_prio P), s1)).
  { unfold pop_send_request. step (eq_refl : gets c_prio s = Ok (c_prio s, s)).
    rewrite (sd_queue _ _ _ _ _ _ H), Hp. reflexivity. }
  pose proof (sd_phase _ _ _ _ _ _ H) as Hph. rewrite Hp in Hph. destruct Hph as (Hsm & Hrm & Hrr).
  set (c' := set_sending c {[ mid := mkSendRequest e0 (su_prio P) ]} (cm_retransmitting_msgs c)).
  exists (set_heap s1 (<[su_pa P := c']> (c_heap s1))). split.
  - rewrite (take_one_some _ _ _ _ _ Hpop). unfold handle_send_request.
    step (FindConnMetaById_knows s1 (su_dst P) (su_pa P) (sd_knows _ _ _ _ _ _ H)).
    step (load_conn_ok (su_pa P) c s1 (sd_conn _ _ _ _ _ _ H)). rewrite mid_key, Hsm.
    lift_step (CHECK_true _ (bool_decide_eq_true_2 _ (lookup_empty (M := gmap Z) (A := SendRequest TreeBlockMgr) mid))).
    rewrite (store_conn_ok (su_pa P) c _ s1 (sd_conn _ _ _ _ _ _ H)). by rewrite insert_empty.
  - pose proof (sd_cq _ _ _ _ _ _ H) as Hcq. rewrite Hp in Hcq. exists c', m. destruct H. constructor; try done; cbn.
    + apply lookup_insert_eq.
    + split; [|done]. split; [apply HP|]. rewrite mid_key. split; [|done]. f_equal.
      unfold flow_ext, LtMessageExt_new, set_bytes. cbn. pose proof (gs_size P HP). by rewrite Z.min_r by lia.
Qed.

(** ** Sending a packet *)

(** What a routed packet makes of the sender. *)
Lemma packet_sent_view k s s' v c c' m tos i next :
  sender_inv P (k + 1) s v c m -> active n (v_phase v) -> 0 <= tos < 2 ^ 8 ->
  packet_sent s s' (flow_packet P tos i) (match next with None => true | Some _ => false end) ->
  c_heap s' = <[su_pa P := c']> (c_heap s) -> cm_dest_comm_id c' = cm_dest_comm_id c ->
  cm_sending_rate c' = cm_sending_rate c -> 0 <= rm_scnt (cm_tx_meter c') <= rm_scnt (cm_tx_meter c) + 2 ->
  match next with Some p => active n p /\ sending_phase P c' p | None => sending_phase P c' Waiting end ->
  exists mi, (mi < length (v_out v))%nat /\ sender_at P k s' (packet_queued v mi i next).
Proof.
  intros H Ha Htos Hsent Hheap Hdest Hrate Hscnt Hnext. pose proof (prio_ok_sent _ _ _ _ _ _ _ _ _ Hsent (sd_prio _ _ _ _ _ _ H)) as Hprio'.
  destruct Hsent as ((Hid & _ & _ & Hcq & _ & _) & (p' & Hroute & Hmap & Heps & (Hmetas & Hmm & Hnq & Hsr)) & Hcnt & Hctrl & _ & bs & Htx & Hbs).
  pose proof (gs_dst P HP) as Hd. pose proof (gs_mid P HP) as Hm.
  unfold route_endpoint in Hroute. cbn [pkt_tos flow_packet packet_of chunk_packet] in Hroute.
  destruct (pc_prio_mapping (c_prio s) !! Z.to_nat tos) as [mi|] eqn:Hmi; [|done]. cbn in Hroute.
  destruct (0 <=? mi) eqn:Hmi0; [|done]. cbn in Hroute.
  destruct (pc_prio_endpoints (c_prio s) !! Z.to_nat mi) as [ep|] eqn:Hep; [|done]. cbn in Hroute.
  injection Hroute as <-. cbn in Heps.
  destruct (Forall2_lookup_l _ _ _ _ _ (sd_out _ _ _ _ _ _ H) Hep) as (q & Hq & Hqs).
  exists (Z.to_nat mi). split; [by eapply lookup_lt_Some|]. exists c', m.
  assert (Hph : v_phase (packet_queued v (Z.to_nat mi) i next) = match next with Some p => p | None => Waiting end)
    by (by destruct next).
  destruct H. constructor.
  - by rewrite Hid.
  - rewrite Hheap. apply lookup_insert_eq.
  - by rewrite Hdest.
  - unfold knows in *. by rewrite Hmm, Hmetas.
  - unfold idle_endpoint in *. by rewrite Hctrl.
  - rewrite Hnq. by destruct next.
  - rewrite Htx. unfold tx_signals in *. destruct next as [p|]; cbn.
    + subst bs. by rewrite app_nil_r.
    + destruct Hbs as (b & -> & Hb). rewrite map_app, app_assoc. apply Forall2_app; [done|].
      constructor; [|constructor]. cbn in *. rewrite u16_small, u32_small in * by lia. done.
  - done.
  - rewrite Heps. replace (v_out (packet_queued v (Z.to_nat mi) i next)) with (<[Z.to_nat mi := q ++ [i]]> (v_out v))
      by (destruct next; cbn; by rewrite (alter_insert _ _ _ _ Hq)).
    apply Forall2_insert; [done|]. cbn. apply Forall2_app; [done|]. constructor; [|constructor]. by exists tos.
  - unfold meters_ok in *. lia.
  - rewrite Hsr, sd_queue. 
    destruct (v_phase v), next as [[]|]; try done; by destruct Hnext.
  - rewrite Hph. destruct next; tauto.
  - rewrite Hcq, sd_cq. destruct (v_phase v), next as [[]|]; try done; by destruct Hnext.
  - intros Hf. unfold unthrottled in *. rewrite Hrate. apply sd_free. by destruct next.
Qed.

(** The packet that the packetizer makes. *)
Lemma flow_packet_eq s tos i : c_comm_id s = su_src P ->
  ext_packet (su_seg P) (c_comm_id s) e0 (su_dst P) tos i = flow_packet P tos i.
Proof. by intros ->. Qed.

Lemma seg_small : 20 < su_seg P < 2 ^ 16.
Proof. pose proof (gs_seg P HP). lia. Qed.

Lemma poll_sending_ok k s v : sender_at P (k + 1) s v -> 0 <= k -> (forall i, v_phase v = Sending i -> 0 <= i < n) ->
  exists x s' v', poll_sending (su_seg P) (su_clock P) (su_malloc P) (su_uninit P) (su_pa P) s = Ok (x, s') /\
    sender_at P k s' v' /\
    match v_phase v with
    | Sending i => polled v v' i (if i =? n - 1 then None else Some (Sending (i + 1))) /\
        if poll_held P (v_phase v) s then v' = v /\ s' = set_ticks s (S (c_ticks s))
        else routed v v' i (if i =? n - 1 then None else Some (Sending (i + 1)))
    | _ => v' = v
    end.
Proof.
  intros (c & m & H) Hk Hi. pose proof (sd_phase _ _ _ _ _ _ H) as Hph.
  destruct (v_phase v) as [|i| | |] eqn:Hp.
  1,3,4,5: exists 0, s, v; split; [|by split; [apply (sender_at_view (k + 1) _ s v); [by exists c, m|lia|]|]];
    unfold poll_sending; step (load_conn_ok _ _ _ (sd_conn _ _ _ _ _ _ H));
    replace (cm_sending_msgs c) with (∅ : gmap Z (SendRequest TreeBlockMgr)); [done|].
  { by destruct Hph as (-> & _). }
  { by destruct Hph as ((-> & _) & _). }
  { by destruct Hph as (b & bs & (-> & _) & _). }
  { by destruct Hph as (-> & _). }
  destruct Hph as [Hsnd Hreq]. specialize (Hi i eq_refl).
  destruct (sd_prio _ _ _ _ _ _ H i Hi) as (tos & Htos & Hrt). rewrite <- (sd_dest _ _ _ _ _ _ H) in Htos.
  destruct (poll_sending_turn (su_seg P) (su_clock P) (su_malloc P) (su_uninit P) (gs_malloc P HP) seg_small s (su_pa P) c
    e0 (su_prio P) i tos (sd_conn _ _ _ _ _ _ H) Hsnd Hi Htos Hrt) as [[Hheld Hrun]|(Hheld & s' & c' & Hrun & Hsent & Hheap & Hdest &
    Hreq' & _ & Hrate & Hscnt & Hst)].
  { pose proof (sd_meters _ _ _ _ _ _ H). unfold meters_ok in *. lia. }
  { eexists 0, _, v. split; [exact Hrun|]. split.
    - apply (sender_at_view (k + 1) _ (set_ticks s (S (c_ticks s))) v); [|lia|done]. exists c, m. by destruct H.
    - unfold poll_held. rewrite Hheld. split; [|done]. left. split; [|done]. destruct (v_free v) eqn:Hf; [|done].
      destruct (sd_free _ _ _ _ _ _ H Hf) as [_ Hu].
      destruct (unthrottled_held (su_seg P) (su_clock P) _ s c (sd_conn _ _ _ _ _ _ H) Hu). congruence. }
  rewrite (sd_dest _ _ _ _ _ _ H), (flow_packet_eq s _ _ (sd_id _ _ _ _ _ _ H)) in Hsent.
  set (next := if i =? n - 1 then None else Some (Sending (i + 1))).
  destruct (packet_sent_view k s s' v c c' m (u8 tos) i next) as (mi & Hmi & Hs'); try done.
  - by rewrite Hp.
  - apply u8_range.
  - change (packets (su_seg P - 20) (ext_size e0)) with n in Hsent. unfold next. by destruct (i =? n - 1).
  - change (packets (su_seg P - 20) (ext_size e0)) with n in Hst. rewrite Hreq in Hreq'. unfold next.
    destruct (Z.eqb_spec i (n - 1)); [done|]. cbn. unfold in_range. split; [lia|done].
  - eexists _, s', (packet_queued v mi i next). split; [exact Hrun|]. split; [done|].
    unfold poll_held. rewrite Hheld. split; [right|]; by exists mi.
Qed.

Lemma poll_retransmit_ok k s v : sender_at P (k + 1) s v -> 0 <= k ->
  (forall rest, v_phase v = Serving rest -> active n (Serving rest)) ->
  exists x s' v', poll_retransmit (su_seg P) (su_clock P) (su_malloc P) (su_uninit P) (su_pa P) s = Ok (x, s') /\
    sender_at P k s' v' /\
    match v_phase v with
    | Serving (i :: rest) => polled v v' i (if bool_decide (rest = []) then None else Some (Serving rest)) /\
        if poll_held P (v_phase v) s then v' = v /\ s' = set_ticks s (S (c_ticks s))
        else routed v v' i (if bool_decide (rest = []) then None else Some (Serving rest))
    | _ => v' = v
    end.
Proof.
  intros (c & m & H) Hk Ha. pose proof (sd_phase _ _ _ _ _ _ H) as Hph.
  destruct (v_phase v) as [|i| |rest|] eqn:Hp.
  1,2,3,5: exists 0, s, v; split; [|by split; [apply (sender_at_view (k + 1) _ s v); [by exists c, m|lia|]|]];
    unfold poll_retransmit; step (load_conn_ok _ _ _ (sd_conn _ _ _ _ _ _ H));
    replace (cm_retransmit_reqs c) with (∅ : gmap Z (Buffer * RetransmitState)); [done|].
  { by destruct Hph as (_ & _ & ->). }
  { by destruct Hph as (_ & ->). }
  { by destruct Hph as (_ & ->). }
  { by destruct Hph as (_ & -> & _). }
  destruct (Ha rest eq_refl) as (Hne & Hall & Hlen). destruct rest as [|i rest]; [done|]. apply Forall_cons in Hall as [Hi Hall].
  cbn in Hlen.
  destruct Hph as (b & bs & Hserv).
  destruct (sd_prio _ _ _ _ _ _ H i Hi) as (tos & Htos & Hrt). rewrite <- (sd_dest _ _ _ _ _ _ H) in Htos.
  destruct (poll_retransmit_turn (su_seg P) (su_clock P) (su_malloc P) (su_uninit P) (gs_malloc P HP) seg_small s (su_pa P) c
    e0 (su_prio P) b bs i rest tos (sd_conn _ _ _ _ _ _ H) Hserv Hi Htos Hrt) as [[Hheld Hrun]|(Hheld & s' & c' & Hrun & Hsent & Hheap & Hdest &
    Hscnt & Hrate & _ & Hst)].
  { pose proof (sd_meters _ _ _ _ _ _ H). unfold meters_ok in *. lia. }
  { eexists 0, _, v. split; [exact Hrun|]. split.
    - apply (sender_at_view (k + 1) _ (set_ticks s (S (c_ticks s))) v); [|lia|done]. exists c, m. by destruct H.
    - unfold poll_held. rewrite Hheld. split; [|done]. left. split; [|done]. destruct (v_free v) eqn:Hf; [|done].
      destruct (sd_free _ _ _ _ _ _ H Hf) as [_ Hu].
      destruct (unthrottled_held (su_seg P) (su_clock P) _ s c (sd_conn _ _ _ _ _ _ H) Hu). congruence. }
  rewrite (sd_dest _ _ _ _ _ _ H), (flow_packet_eq s _ _ (sd_id _ _ _ _ _ _ H)) in Hsent.
  set (next := if bool_decide (rest = []) then None else Some (Serving rest)).
  destruct (packet_sent_view k s s' v c c' m (u8 tos) i next) as (mi & Hmi & Hs'); try done.
  - rewrite Hp. split; [done|]. split; [by constructor|cbn; lia].
  - apply u8_range.
  - unfold next. by case_bool_decide.
  - unfold next. case_bool_decide as Hr; [|by split; [split; [done|split; [done|lia]]|exists b, bs]].
    subst rest. destruct Hst as (Hst & _ & _ & _ & Hreq). by split.
  - eexists _, s', (packet_queued v mi i next). split; [exact Hrun|]. split; [done|].
    unfold poll_held. rewrite Hheld. split; [right|]; by exists mi.
Qed.

(** ** Notifications *)

(** Only this message is on the connection. *)
Lemma sending_phase_only c p j : sending_phase P c p -> j <> mid ->
  cm_sending_msgs c !! j = None /\ cm_retransmit_reqs c !! j = None.
Proof.
  intros Hp Hj. destruct p as [|i| |rest|].
  - by destruct Hp as (-> & _ & ->).
  - destruct Hp as [(_ & -> & _) ->]. rewrite mid_key, lookup_singleton_ne by done. done.
  - by destruct Hp as [[-> _] ->].
  - destruct Hp as (b & bs & (-> & _) & _ & _ & _ & Hr). destruct rest; [by rewrite Hr|].
    destruct Hr as (st & -> & _). rewrite mid_key, lookup_singleton_ne by done. done.
  - by destruct Hp as (-> & -> & _).
Qed.

Lemma sending_phase_one c p : sending_phase P c p -> is_Some (cm_sending_msgs c !! mid) ->
  cm_retransmitting_msgs c !! mid = None /\ cm_retransmit_reqs c !! mid = None.
Proof.
  intros Hp [x Hx]. destruct p as [|i| |rest|].
  - destruct Hp as (Hs & _). by rewrite Hs in Hx.
  - destruct Hp as [(_ & _ & Hr) ->]. by rewrite mid_key in Hr.
  - destruct Hp as [[Hs _] _]. by rewrite Hs in Hx.
  - destruct Hp as (b & bs & (Hs & _) & _). by rewrite Hs in Hx.
  - destruct Hp as (Hs & _). by rewrite Hs in Hx.
Qed.

Lemma pop_prio_cons s x l : pc_notification_queue (c_prio s) = x :: l ->
  pop_prio_notification s = Ok (Some x, set_prio s (set_prio_notifications (c_prio s) l)).
Proof.
  intros Hq. unfold pop_prio_notification. step (eq_refl : gets c_prio s = Ok (c_prio s, s)). by rewrite Hq.
Qed.

(** The connection is asked to send the packets of [bs] again. *)
Lemma accept_ok k s v bs na : sender_at P k s v -> v_na v = Req bs :: na -> v_phase v = Waiting ->
  good_blocks n bs -> bs <> [] ->
  exists s', take_one pop_prio_notification (handle_prio_notification (su_malloc P)) s = Ok (tt, s') /\
    sender_at P k s' (set_phase (set_na v na) (Serving (block_seqs bs))).
Proof.
  intros (c & m & H) Hna Hp Hg Hne. pose proof (sd_notif _ _ _ _ _ _ H) as Hnq. rewrite Hna in Hnq.
  apply Forall2_cons_inv_r in Hnq as (x & l & (buf & -> & Hbuf) & Hl & Hq).
  pose proof (sd_phase _ _ _ _ _ _ H) as Hph. rewrite Hp in Hph. destruct Hph as [Hsent Hreq].
  pose proof (gs_dst P HP) as Hd. rewrite (take_one_some _ _ _ _ _ (pop_prio_cons s _ _ Hq)).
  set (s1 := set_prio s (set_prio_notifications (c_prio s) l)).
  destruct (request_accepted (su_malloc P) s1 (su_seg P) (su_pa P) c e0 (su_prio P) buf bs) as (r & Hrun & Hserv);
    rewrite ?(sd_dest _ _ _ _ _ _ H); try done; try apply H; try apply HP; [lia|].
  eexists. split; [exact Hrun|]. pose proof (sd_queue _ _ _ _ _ _ H) as Hsq. pose proof (sd_cq _ _ _ _ _ _ H) as Hcq.
  rewrite Hp in Hsq, Hcq. exists (set_retransmit_reqs c r), m. destruct H. constructor; try done.
  - apply lookup_insert_eq.
  - by exists buf, bs.
Qed.

(** The flow is stopped. *)
Lemma stop_ok k s v na : sender_at P k s v -> v_na v = Stop :: na -> v_phase v <> Queued -> v_phase v <> Stopped ->
  exists s', take_one pop_prio_notification (handle_prio_notification (su_malloc P)) s = Ok (tt, s') /\
    sender_at P k s' (add_fs (set_phase (set_na v na) Stopped) [Conf]).
Proof.
  intros (c & m & H) Hna Hp1 Hp2. pose proof (sd_notif _ _ _ _ _ _ H) as Hnq. rewrite Hna in Hnq.
  apply Forall2_cons_inv_r in Hnq as (x & l & -> & Hl & Hq).
  pose proof (gs_dst P HP) as Hd. rewrite (take_one_some _ _ _ _ _ (pop_prio_cons s _ _ Hq)).
  set (s1 := set_prio s (set_prio_notifications (c_prio s) l)).
  destruct (StopFlow_run (su_malloc P) s1 (su_dst P) mid (su_pa P) c) as
    (s' & c' & b & Hrun & Hheap & Hrel & Hoth & Htx & Hb & Hcq & Hid & Hprio & Hdest & Hmet & Hrate & Hctrl);
    try done; try apply H; try apply HP; [lia|by apply (sending_phase_one c (v_phase v)), H|].
  eexists. split; [exact Hrun|]. exists c', m.
  pose proof (sd_queue _ _ _ _ _ _ H) as Hsq. pose proof (sd_cq _ _ _ _ _ _ H) as Hcq0.
  pose proof (sending_phase_only c (v_phase v)) as Honly. destruct H. constructor.
  - by rewrite Hid.
  - rewrite Hheap. apply lookup_insert_eq.
  - by rewrite Hdest.
  - unfold knows in *. by rewrite Hprio.
  - unfold idle_endpoint in *. by rewrite Hctrl.
  - by rewrite Hprio.
  - rewrite Htx. unfold tx_signals in *. cbn. rewrite map_app, app_assoc. apply Forall2_app; [done|].
    by constructor; [|constructor].
  - intros i Hi. rewrite Hid, Hprio. by apply sd_prio.
  - by rewrite Hprio.
  - unfold meters_ok in *. by rewrite Hprio, Hmet.
  - rewrite Hprio. cbn. rewrite Hsq. by destruct (v_phase v).
  - destruct Hrel as (Hr1 & Hr2 & Hr3). split; [|split; [|done]]; apply map_eq; intros j; rewrite lookup_empty;
      (destruct (decide (j = mid)) as [->|Hj]; [done|]); destruct (Honly j sd_phase Hj), (Hoth j Hj) as (Ho1 & _ & Ho2); by rewrite ?Ho1, ?Ho2.
  - rewrite Hcq. cbn. rewrite Hcq0. destruct (v_phase v); by rewrite ?app_nil_r.
  - cbn. unfold unthrottled in *. by rewrite Hrate.
Qed.

(** ** Datagrams *)

Lemma Udp_OnSendReady_room (addr_of : Z -> outcome Z) a q j :
  (forall p, p ∈ q -> addr_of (pkt_dst_comm_id p) = Ok a) ->
  exists total, Udp_OnSendReady addr_of q (map (fun p => UdpSent (pkt_len p)) (take j q) ++ [UdpBlock]) =
    Ok (drop (S j) q, map (pair a) (take j q), total).
Proof.
  intros Ha. revert j. induction q as [|p q IH]; intros j; [by destruct j; eexists|].
  cbn [Udp_OnSendReady]. rewrite Ha by set_solver. cbn [mbind outcome_bind].
  destruct j as [|j]; [by eexists|]. cbn [take map app]. rewrite Z.eqb_refl.
  destruct (IH ltac:(set_solver) j) as (total & Ht). cbn [CHECK mbind outcome_bind]. rewrite Ht. by eexists.
Qed.

Lemma is_packet_addr p i a : su_addr_of P (su_dst P) = Ok a -> is_packet P p i -> su_addr_of P (pkt_dst_comm_id p) = Ok a.
Proof.
  intros Ha (tos & _ & ->). cbn. pose proof (gs_dst P HP). by rewrite u16_small by lia.
Qed.

Lemma gather_ok p i : is_packet P p i -> 0 <= i < n ->
  exists d, gather (su_msg P) p = Ok d /\ is_datagram P d i.
Proof.
  intros (tos & Htos & ->) Hi. exists (flow_datagram P tos i). split; [|by exists tos].
  pose proof (gs_size P HP) as Hs. pose proof (gs_seg P HP) as Hseg. pose proof (gs_buf P HP) as Hbuf.
  pose proof (gs_data P HP) as Hdata.
  pose proof (chunk_len_pos (su_seg P - 20) ltac:(lia) size i ltac:(lia) Hi) as Hc.
  pose proof (chunk_next (su_seg P - 20) size i ltac:(lia) Hi) as He.
  assert (0 <= i * (su_seg P - 20)) by nia.
  unfold gather. cbn [pkt_grad_ptr pkt_len flow_packet packet_of chunk_packet]. change kGradPacketHeader with 20.
  rewrite u64_small by lia. replace (lt_buf (su_msg P) + i * (su_seg P - 20) - lt_buf (su_msg P)) with (i * (su_seg P - 20)) by lia.
  replace (chunk_len (su_seg P - 20) size i + 20 - 20) with (chunk_len (su_seg P - 20) size i) by lia.
  pass. f_equal. unfold flow_datagram, datagram, chunk. by rewrite Hdata.
Qed.

Lemma epollout_ok k s v ep j q : sender_at P k s v -> v_out v !! ep = Some q ->
  exists a s' pkts, handle_epollout (su_addr_of P) (ep, room_for s ep j) s = Ok (map (pair a) pkts, s') /\
    has_endpoint s ep = true /\ Forall2 (is_packet P) pkts (take j q) /\
    sender_at P k s' (set_out v (<[ep := drop (S j) q]> (v_out v))).
Proof.
  intros (c & m & H) Hq. destruct (gs_addr P HP) as (a & Ha).
  destruct (Forall2_lookup_r _ _ _ _ _ (sd_out _ _ _ _ _ _ H) Hq) as (e & He & Heq).
  destruct (Udp_OnSendReady_room (su_addr_of P) a (ue_tx_queue e) j) as (total & Hrun).
  { intros p [i Hi]%list_elem_of_lookup. destruct (Forall2_lookup_l _ _ _ _ _ Heq Hi) as (x & _ & Hx).
    by apply (is_packet_addr p x). }
  eexists a, _, (take j (ue_tx_queue e)). split; [|split; [|split]].
  - unfold handle_epollout. step (eq_refl : gets c_prio s = Ok (c_prio s, s)). cbn [fst snd].
    unfold room_for. rewrite He. lift_step (eq_refl : deref (Some e) = Ok e). lift_step Hrun. reflexivity.
  - unfold has_endpoint. apply Nat.ltb_lt. by eapply lookup_lt_Some.
  - by apply Forall2_take.
  - exists c, m. destruct H. constructor; try done; cbn.
    + intros i Hi. destruct (sd_prio i Hi) as (tos & Ht & (mi & Hm & Hr)). exists tos. split; [done|]. exists mi.
      split; [done|]. cbn. by rewrite length_insert.
    + apply Forall2_insert; [done|]. by apply Forall2_drop.
Qed.

(** ** Control messages *)

Lemma signal_small sg : sg = start_signal P \/ (exists f, sg = fsig_signal P f) \/ (exists b, bmsg_signal P b sg) ->
  0 < Z.of_nat (length (signal_bytes sg)) < 2 ^ 32 - 4.
Proof.
  intros [-> |[[f ->] |[b Hb]]].
  - cbn. lia.
  - destruct f; cbn; lia.
  - destruct b as [[bs|]|].
    + destruct Hb as [Hl ->]. unfold signal_bytes. rewrite !length_app, !length_le_bytes, length_Blocks_bytes. lia.
    + destruct Hb as (r & Hr & ->). unfold signal_bytes. rewrite !length_app, !length_le_bytes. lia.
    + destruct Hb as (x & ->). unfold signal_bytes. rewrite !length_app, !length_le_bytes. lia.
Qed.

Lemma signal_sane sg : sg = start_signal P \/ (exists f, sg = fsig_signal P f) \/ (exists b, bmsg_signal P b sg) ->
  signal_wf sg.
Proof.
  pose proof (gs_mid P HP). pose proof (gs_dst P HP). pose proof flow_packets_small.
  intros [-> |[[f ->] |[b Hb]]].
  - cbn. lia.
  - destruct f; cbn; lia.
  - destruct b as [[bs|]|].
    + destruct Hb as [Hl ->]. cbn. lia.
    + destruct Hb as (r & Hr & ->). cbn. lia.
    + by destruct Hb as (x & ->).
Qed.

Lemma sender_sends k s v : sender_at P k s v ->
  exists s', send_control (su_clock P) (su_malloc P) (su_init_rate P) (su_init_window P) (su_interval P) (su_dst P) s =
      Ok (match tx_signals P v with [] => None | sg :: _ => Some (frame sg) end, s') /\
    sender_at P k s' (if v_start v then set_fwd v false (v_fs v) (v_nb v)
                      else match v_fs v with [] => v | x :: fs => set_fwd v false fs (v_nb v ++ [x]) end).
Proof.
  intros (c & m & H). pose proof (sd_tx _ _ _ _ _ _ H) as Htx.
  destruct (tx_signals P v) as [|sg sgs] eqn:Hsg.
  - exists s. apply Forall2_nil_inv_r in Htx. split.
    + unfold send_control. rewrite (cm_bind_Ok _ _ s None s); [done|]. unfold pop_rel_tx.
      step (eq_refl : gets c_rel s = Ok (c_rel s, s)). by rewrite Htx.
    + unfold tx_signals in Hsg. destruct (v_start v), (v_fs v); try done. by exists c, m.
  - apply Forall2_cons_inv_r in Htx as ((d & b) & q & (Hd & Hb) & Hq & Hl). cbn in Hd, Hb. subst d.
    assert (Hsmall : Z.of_nat (length (signal_bytes sg)) < 2 ^ 32 - 4).
    { apply signal_small. unfold tx_signals in Hsg. destruct (v_start v); [left; by simplify_eq/=|].
      destruct (v_fs v) as [|f fs]; [done|]. right. left. exists f. by simplify_eq/=. }
    eexists. split; [exact (send_control_ok _ _ _ _ _ s _ _ m b q sg (sd_ep _ _ _ _ _ _ H) Hl Hb Hsmall)|].
    set (v' := if v_start v then _ else _).
    assert (Hv' : tx_signals P v' = sgs /\ sender_view (set_fwd v (v_start v') (v_fs v') (v_nb v')) v').
    { unfold v', tx_signals in *. destruct (v_start v) eqn:Hst; [by simplify_eq/=|].
      destruct (v_fs v) as [|f fs]; [done|]. by simplify_eq/=. }
    destruct Hv' as [Hv1 (V1 & _ & _ & V4 & V5 & V6)]. cbn in V1, V4, V5, V6.
    exists c, m. destruct H. constructor; rewrite ?V1, ?V4, ?V5, ?V6, ?Hv1; done.
Qed.

(** An unthrottled connection stays so when the initial rate is infinite. *)
Lemma adjust_rate_free x : adjust_rate (S754_infinity false) (S754_infinity false) x = S754_infinity false.
Proof.
  unfold adjust_rate. by destruct (f64_of_f32 x) as [[]|[]| |[] m e].
Qed.

Lemma sender_receives k s v b sg : sender_at P k s v -> bmsg_signal P b sg ->
  exists s', receive_control (su_clock P) (su_malloc P) (su_init_rate P) (su_init_window P) (su_interval P) (su_dst P)
      (frame sg) s = Ok (tt, s') /\
    sender_at P k s' (match b with Rate => v | Ctl x => set_na v (v_na v ++ [x]) end).
Proof.
  intros (c & m & H) Hb. pose proof (or_intror (or_intror (ex_intro _ b Hb)) :
    sg = start_signal P \/ (exists f, sg = fsig_signal P f) \/ (exists b, bmsg_signal P b sg)) as Hsg.
  destruct (receive_control_ok (su_clock P) (su_malloc P) (su_init_rate P) (su_init_window P) (su_interval P) (gs_malloc P HP)
    s (su_dst P) (su_pa P) m c sg (sd_ep _ _ _ _ _ _ H) (sd_conn _ _ _ _ _ _ H) (signal_sane sg Hsg)
    ltac:(pose proof (signal_small sg Hsg); lia)) as (buf & Hbuf & Hrun).
  pose proof (sd_dest _ _ _ _ _ _ H) as Hdest. destruct b as [[bs|]|].
  - destruct Hb as [Hbs ->]. cbn [signal_effect mbind outcome_bind] in Hrun. eexists. split; [exact Hrun|].
    exists c, m. destruct H. constructor; try done.
    + unfold idle_endpoint. cbn. apply lookup_insert_eq.
    + cbn. apply Forall2_app; [done|]. constructor; [|constructor]. by exists buf.
  - destruct Hb as (r & Hr & ->). cbn [signal_effect] in Hrun. rewrite Hdest, Z.eqb_refl in Hrun. eexists. split; [exact Hrun|].
    exists c, m. destruct H. constructor; try done.
    + unfold idle_endpoint. cbn. apply lookup_insert_eq.
    + cbn. apply Forall2_app; [done|]. by constructor; [|constructor].
  - destruct Hb as (x & ->). cbn [signal_effect mbind outcome_bind] in Hrun. eexists. split; [exact Hrun|].
    cbn [fst snd re_conn_meta]. set (r := adjust_rate _ _ _). exists (set_rate c r), m. destruct H. constructor; try done.
    + cbn. apply lookup_insert_eq.
    + unfold idle_endpoint. cbn. apply lookup_insert_eq.
    + intros Hf. destruct (sd_free Hf) as [Hi Hu]. split; [done|]. unfold unthrottled, r in *. cbn. rewrite Hi, Hu.
      apply adjust_rate_free.
Qed.
End sender.
