(* ===== verification/FlowReceiver.v ===== *)
(** The receiver implements the protocol: what each handler of its threads does
    to a communicator that stands as [receiver_at] says. *)

From S2P Require Import Prelude Bytes Runs BlockMgr TreeBlockMgr GradPacket LtMessage Packetizer Transfer Floats Meter Wire Queues Framing Comm PriorityChannel Sender ReceivingChannel Receiver Delivery ReliableChannel Communicator Control Flow FlowProtocol FlowState FlowSender.

Section receiver.
Context (P : Setup) (HP : good_setup P).

Notation mid := (lt_msg_id (su_msg P)).
Notation size := (lt_size (su_msg P)).
Notation n := (flow_packets P).
Notation reached := (flow_reached P).
Implicit Types s : Comm TreeBlockMgr.

(** What of the protocol's state the receiver sees. *)
Definition receiver_view (v v' : View) : Prop :=
  v_status v' = v_status v /\ v_start v' = v_start v /\ v_nb v' = v_nb v /\ v_txb v' = v_txb v.

Lemma receiver_at_view k k' s v v' : receiver_at P k s v -> k' <= k -> receiver_view v v' -> receiver_at P k' s v'.
Proof.
  intros (c & m & H) Hk (H1 & H2 & H3 & H4). exists c, m. destruct H. constructor; rewrite ?H1, ?H2, ?H3, ?H4; try done; lia.
Qed.

Lemma reached_empty : reached ∅ = false.
Proof.
  unfold flow_reached, flow_bytes. apply Z.leb_gt. pose proof (gs_bound P HP). enough (received_bytes (su_seg P - 20) size ∅ = 0) by lia.
  unfold received_bytes. generalize (seqZ 0 (packets (su_seg P - 20) size)). intros l. induction l as [|x l IH]; [done|]. cbn [sumZ].
  rewrite IH, decide_False by set_solver. done.
Qed.

(** ** The receive request *)

Lemma su_recv_eq : su_recv P = mkLtMessage mid (lt_buf (su_recv P)) (lt_mem (su_recv P)) size.
Proof. destruct (gs_recv P HP) as (H1 & H2 & _). destruct (su_recv P). cbn in *. congruence. Qed.

Lemma take_receive_ok k s v : receiver_at P k s v ->
  exists s', take_one pop_receive_request handle_receive_request s = Ok (tt, s') /\
    receiver_at P k s' (match v_status v with Unposted => set_status v (Posted ∅) | _ => v end).
Proof.
  intros (c & m & H). pose proof (rv_queue _ _ _ _ _ _ H) as Hq. destruct (v_status v) eqn:Hst.
  2-3: exists s; split; [|by exists c, m]; apply take_one_none; unfold pop_receive_request;
    step (eq_refl : gets c_recv s = Ok (c_recv s, s)); by rewrite Hq.
  set (s1 := set_recv s (set_rr_queue (c_recv s) [])).
  assert (Hpop : pop_receive_request s = Ok (Some (su_pb P, su_recv P, su_loss P), s1)).
  { unfold pop_receive_request. step (eq_refl : gets c_recv s = Ok (c_recv s, s)). by rewrite Hq. }
  pose proof (rv_status _ _ _ _ _ _ H) as Hrs. rewrite Hst in Hrs. destruct Hrs as [Hno Hused].
  destruct (handle_receive_request_fresh (su_seg P) (su_src P) (su_dst P) (su_rx P) (gs_seg P HP) (su_msg P) (gs_size P HP)
    (gs_data P HP) (gs_mid P HP) s1 (su_pb P) c (lt_buf (su_recv P)) (lt_mem (su_recv P)) (su_loss P) (su_bound P))
    as (s' & c' & e & Hrun & Hrecv & Hb & Hstop & Hrel & Hmet & Hs' & Hfree).
  { split; [exact (rv_conn _ _ _ _ _ _ H)|done]. }
  { apply HP. } { apply HP. }
  rewrite <- su_recv_eq in Hrun. exists s'. split; [by rewrite (take_one_some _ _ _ _ _ Hpop)|].
  apply receiving_connected in Hrecv as (Hconn & He & Hinv).
  exists c', m. pose proof (rv_cq _ _ _ _ _ _ H) as Hcq. rewrite Hst in Hcq.
  pose proof (rv_max _ _ _ _ _ _ H) as Hmax. rewrite Hst in Hmax. destruct H.
  assert (Hrecv' : c_recv s' = c_recv s1) by (by rewrite Hs').
  constructor; cbn [v_status v_nb v_txb v_start set_status]; rewrite ?Hrecv', ?Hmet, ?Hfree; try done.
  - unfold idle_endpoint in *. by rewrite Hrel.
  - by rewrite Hrel.
  - exists e. split; [done|]. split; [done|]. split; [done|]. unfold stop_flag. rewrite Hstop, Hb. symmetry. apply reached_empty.
  - by rewrite Hs'.
Qed.

(** ** Datagrams *)

Lemma add_rx_meter_ok nbytes s : m_cnt (rc_meter (c_recv s)) + 1 < 2 ^ 31 ->
  exists m' t, add_rx_meter (su_clock P) nbytes s = Ok (tt, set_recv (set_ticks s t) (set_rc_meter (c_recv s) m')) /\
    m_cnt m' = m_cnt (rc_meter (c_recv s)) + 1.
Proof.
  intros Hc. unfold add_rx_meter, mbind, cm_bind, gets, clock_now, lift, modify_recv, modify, Meter_Add.
  rewrite (DEFINED_true _) by (b2p; lia). unfold mbind, outcome_bind.
  destruct (_ =? m_sample _); [destruct (_ <=? _)|]; eexists _, _; split; reflexivity.
Qed.

(** The datagram is in the buffer and counted. *)
Lemma buffered_ok k s v c m tos i : receiver_inv P (k + 1) s v c m -> 0 <= k -> 0 <= i < n -> 0 <= tos < 2 ^ 8 ->
  exists nb s1, handle_datagram (su_clock P) (su_malloc P) (flow_datagram P tos i) s =
      HandleReceive (su_clock P) (su_malloc P) nb s1 /\
    connected (su_seg P) (su_src P) (su_dst P) (su_rx P) s1 (su_pb P) c /\
    buffered (su_seg P) (su_src P) (su_dst P) (su_msg P) s1 tos i /\
    m_cnt (rc_meter (c_recv s1)) = m_cnt (rc_meter (c_recv s)) + 1 /\
    c_rel s1 = c_rel s /\ c_cq s1 = c_cq s /\ c_heap s1 = c_heap s /\
    rc_notification_queue (c_recv s1) = rc_notification_queue (c_recv s) /\
    rc_rr_queue (c_recv s1) = rc_rr_queue (c_recv s).
Proof.
  intros H Hk Hi Ht. destruct (rv_conn _ _ _ _ _ _ H) as (Hid & Hd & Hc & Hp & Hl & Ha).
  pose proof (length_datagram (su_seg P) (su_src P) (su_dst P) (gs_seg P HP) (su_msg P) (gs_size P HP) (gs_data P HP) tos i Hi) as Hdl.
  pose proof (gs_seg P HP) as Hseg. pose proof (gs_size P HP) as Hsz.
  pose proof (chunk_len_pos (su_seg P - 20) ltac:(lia) size i ltac:(lia) Hi) as Hcl.
  fold (flow_datagram P tos i) in Hdl.
  set (s0 := set_recv s (set_rc_buf (c_recv s) (splice 0 (flow_datagram P tos i) (rc_buf (c_recv s))))).
  destruct (add_rx_meter_ok (Z.of_nat (length (flow_datagram P tos i))) s0) as (m' & t & Hadd & Hcnt).
  { pose proof (rv_meter2 _ _ _ _ _ _ H). cbn. lia. }
  exists (Z.of_nat (length (flow_datagram P tos i))), (set_recv (set_ticks s0 t) (set_rc_meter (c_recv s0) m')).
  split; [|split; [|split; [|split; [exact Hcnt|]]]].
  - unfold handle_datagram. step (recv_from_ok (flow_datagram P tos i) s ltac:(lia)). fold s0. by step Hadd.
  - do 4 (split; [done|]). split; [|done]. unfold s0. cbn [c_recv set_recv rc_buf set_rc_buf set_rc_meter set_ticks]. rewrite length_splice; lia.
  - by exists (rc_buf (c_recv s)).
  - done.
Qed.

(** The protocol's view of what a datagram makes the receiver send. *)
Definition newly (q : status) (i : Z) : bool := reached (arrived (data q i)) && negb (reached (arrived q)).

Lemma rate_tx bs : rate_signals (su_src P) bs -> exists rates, (rates = [] \/ rates = [Rate]) /\
  Forall2 (fun t b => fst t = su_src P /\ exists sg, holds_signal (snd t) sg /\ bmsg_signal P b sg) bs rates.
Proof.
  intros [->|(b & x & -> & Hb)]; [exists []; split; [by left|constructor]|].
  exists [Rate]. split; [by right|]. constructor; [|constructor]. split; [done|]. eexists. split; [exact Hb|]. by exists x.
Qed.

Lemma stop_tx st bs : stop_signals (su_src P) (su_dst P) (su_msg P) st bs ->
  Forall2 (fun t b => fst t = su_src P /\ exists sg, holds_signal (snd t) sg /\ bmsg_signal P b sg) bs
    (if st then [Ctl Stop] else []).
Proof.
  destruct st; [|intros ->; constructor]. intros (b & r & -> & Hb & Hr). constructor; [|constructor]. split; [done|].
  eexists. split; [exact Hb|]. by exists r.
Qed.

Lemma newly_posted T e i : ext_bound e = su_bound P -> stop_flag (su_seg P) (su_msg P) e T ->
  newly (Posted T) i = stops_now (M := TreeBlockMgr) (su_seg P) (su_msg P) e T i.
Proof.
  intros Hb Hs. unfold newly, stops_now. rewrite Hs, Hb. unfold flow_reached, flow_bytes. cbn [arrived data].
  destruct (decide (i ∈ T)) as [Hi|Hi]; [|by rewrite bool_decide_true].
  rewrite bool_decide_false by tauto. replace (T ∪ {[i]}) with T by set_solver. cbn. by rewrite andb_negb_r.
Qed.

Lemma receive_ok k s v d i : receiver_at P (k + 1) s v -> 0 <= k -> is_datagram P d i -> 0 <= i < n ->
  exists s' rates, handle_datagram (su_clock P) (su_malloc P) d s = Ok (tt, s') /\ (rates = [] \/ rates = [Rate]) /\
    receiver_at P k s' (set_txb (set_status v (data (v_status v) i))
      (v_txb v ++ rates ++ if newly (v_status v) i then [Ctl Stop] else [])).
Proof.
  intros (c & m & H) Hk (tos & Ht & ->) Hi.
  destruct (buffered_ok k s v c m tos i H Hk Hi Ht) as (nb & s1 & Hrun & Hconn & Hbuf & Hcnt & Hrel & Hcq & Hheap & Hnq & Hrq).
  rewrite Hrun. pose proof (rv_meter _ _ _ _ _ _ H) as Hm. pose proof (rv_status _ _ _ _ _ _ H) as Hst.
  pose proof (rv_backlog _ _ _ _ _ _ H) as Hbl. pose proof (gs_malloc P HP) as Hmalloc.
  assert (Hpost : (exists T, v_status v = Posted T) \/
    (cm_recv_msgs c !! mid = None /\ data (v_status v) i = v_status v /\ newly (v_status v) i = false)).
  { unfold newly. destruct (v_status v) as [|T|T]; [right|by left; exists T|right]; cbn; rewrite andb_negb_r; [by destruct Hst|done]. }
  destruct Hpost as [[T Hq]|(Hno & Hd & Hnew)].
  - rewrite Hq in *. destruct Hst as (e & He & Hinv & Hb & Hs).
    destruct (HandleReceive_datagram (su_clock P) (su_malloc P) Hmalloc (su_seg P) (su_src P) (su_dst P) (su_rx P)
      (gs_seg P HP) (gs_src P HP) (gs_dst P HP) (gs_rx P HP) (su_msg P) (gs_size P HP) (gs_data P HP) (gs_mid P HP)
      s1 (su_pb P) c (lt_mem (su_recv P)) e T tos i nb) as (s' & c' & e' & bs1 & bs2 & Hrun' & Hrecv' & Hb' & Hs' & Hm' & Htx &
      Hr1 & Hr2 & Hflows & Hbl'); [by apply receiving_connected|done..|lia|lia|].
    destruct (rate_tx bs1 Hr1) as (rates & Hrates & Hr). apply receiving_connected in Hrecv' as (Hconn' & He' & Hinv').
    exists s', rates. split; [done|]. split; [done|]. exists c', m.
    destruct Hflows as (_ & Hf2 & _ & Hf4 & Hf5 & Hf6 & Hf7). destruct H.
    constructor; cbn [v_status v_nb v_txb v_start set_status set_txb data]; try done.
    + unfold idle_endpoint in *. by rewrite Hf7, Hrel.
    + intros. apply rv_max; try done. by rewrite Hq.
    + by rewrite Hf4, Hnq.
    + rewrite Htx, Hrel. apply Forall2_app; [done|]. apply Forall2_app; [done|].
      rewrite (newly_posted T e i Hb Hs). by apply stop_tx.
    + lia.
    + rewrite Hf6. lia.
    + by rewrite Hbl'.
    + by rewrite Hf5, Hrq, rv_queue, Hq.
    + exists e'. split; [done|]. split; [done|]. split; [congruence|].
      by apply (stop_flag_step (su_malloc P) Hmalloc (su_seg P) (su_src P) (su_dst P) (su_rx P) (gs_seg P HP) (gs_src P HP)
        (gs_dst P HP) (gs_rx P HP) (su_msg P) (gs_size P HP) (gs_data P HP) (gs_mid P HP) e).
    + by rewrite Hf2, Hcq, rv_cq, Hq.
  - destruct (HandleReceive_dropped (su_clock P) (su_malloc P) Hmalloc (su_seg P) (su_src P) (su_dst P) (su_rx P)
      (gs_seg P HP) (gs_src P HP) (gs_rx P HP) (su_msg P) (gs_size P HP) (gs_data P HP) (gs_mid P HP)
      s1 (su_pb P) c tos i nb Hconn Hno Hbl Hbuf Hi Ht ltac:(lia) ltac:(lia))
      as (s' & c' & bs & Hrun' & Hconn' & Hrm & Hbl' & Hu & Hm' & Htx & Hbs & Hflows).
    destruct (rate_tx bs Hbs) as (rates & Hrates & Hr). exists s', rates. split; [done|]. split; [done|].
    rewrite Hd, Hnew, app_nil_r. exists c', m.
    destruct Hflows as (_ & Hf2 & _ & Hf4 & Hf5 & Hf6 & Hf7). destruct H.
    constructor; cbn [v_status v_nb v_txb v_start set_status set_txb data]; try done.
    + unfold idle_endpoint in *. by rewrite Hf7, Hrel.
    + by rewrite Hf4, Hnq.
    + rewrite Htx, Hrel. by apply Forall2_app.
    + lia.
    + rewrite Hf6. lia.
    + by rewrite Hf5, Hrq.
    + unfold receiving_status in *. rewrite Hrm, Hu. destruct (v_status v); [done| |done].
      destruct Hst as (e & He & _). by rewrite Hno in He.
    + by rewrite Hf2, Hcq.
Qed.

(** ** Notifications *)

Lemma pop_recv_cons s x l : rc_notification_queue (c_recv s) = x :: l ->
  pop_recv_notification s = Ok (Some x, set_recv s (set_recv_notifications (c_recv s) l)).
Proof.
  intros Hq. unfold pop_recv_notification. step (eq_refl : gets c_recv s = Ok (c_recv s, s)). by rewrite Hq.
Qed.

Lemma frame_holds sg o : let f := frame sg in
  holds_signal (mkBuffer f (Z.of_nat (length f)) (Z.of_nat (length f)) 0 o) sg.
Proof.
  exists (le_bytes 4 (Z.of_nat (length (signal_bytes sg)))). rewrite length_le_bytes. split; [done|]. split; [done|].
  cbn [buf_size buf_msg_length buf_handled]. unfold frame. rewrite length_app, length_le_bytes. done.
Qed.

(** The end of a flow whose message is not posted: everything is asked for. *)
Lemma FinishFlow_unposted s c : c_heap s !! su_pb P = Some c -> cm_recv_msgs c !! mid = None ->
  cm_dest_comm_id c = su_src P -> c_comm_id s = su_dst P ->
  let f := frame (SigRetransmitRequest mid (su_dst P) [mkBlock 0 n]) in
  FinishFlow (su_malloc P) mid (n - 1) (su_pb P) s =
    Ok (tt, set_rel s (mkReliableChannel (rl_ctrl_endpoints (c_rel s))
      (rl_tx_queue (c_rel s) ++ [(su_src P, mkBuffer f (Z.of_nat (length f)) (Z.of_nat (length f)) 0 true)])
      (rl_notification_queue (c_rel s)))).
Proof.
  intros Hp Hno Hd Hid. cbv zeta. pose proof (flow_packets_small P HP) as Hn. unfold FinishFlow.
  step (load_conn_ok _ _ _ Hp). step (eq_refl : gets c_comm_id s = Ok (c_comm_id s, s)). rewrite Hno, Hid, Hd.
  assert (Hw : forall region, length region = (8 * length [mkBlock 0 n])%nat ->
    whole_block (n - 1) region = Ok (Blocks_bytes [mkBlock 0 n])).
  { intros region Hr. cbn in Hr. unfold whole_block. change sizeof_Block with 8. pass. rewrite u32_small by lia.
    replace (n - 1 + 1) with n by lia. unfold splice. rewrite take_0, drop_ge by (rewrite length_Block_bytes; lia). done. }
  lift_step (make_RetransmitRequest_ok (su_malloc P) (gs_malloc P HP) mid (su_dst P) [mkBlock 0 n] _ Hw ltac:(cbn; lia)).
  reflexivity.
Qed.

Lemma asks_for_all : asks_for n ∅ [mkBlock 0 n].
Proof.
  pose proof (flow_packets_small P HP) as Hn. assert (Hs : block_seqs [mkBlock 0 n] = seqZ 0 n).
  { unfold block_seqs. cbn [map concat first last]. rewrite app_nil_r. f_equal. lia. }
  unfold asks_for. rewrite Hs. split; [|split; [done|split; [apply NoDup_seqZ|]]].
  - split; [|cbn; lia]. constructor; [cbn; lia|constructor].
  - intros i. rewrite elem_of_seqZ. set_solver by lia.
Qed.

Lemma finish_ok k s v nb : receiver_at P k s v -> v_nb v = Fin :: nb -> is_done (v_status v) = false ->
  exists s', take_one pop_recv_notification (handle_recv_notification (su_malloc P)) s = Ok (tt, s') /\
    if reached (arrived (v_status v)) then receiver_at P k s' (set_nb v nb)
    else exists bs, asks_for n (arrived (v_status v)) bs /\
      receiver_at P k s' (set_txb (set_nb v nb) (v_txb v ++ [Ctl (Req bs)])).
Proof.
  intros (c & m & H) Hnb Hdn. pose proof (rv_notif _ _ _ _ _ _ H) as Hnq. rewrite Hnb in Hnq. cbn in Hnq.
  rewrite (take_one_some _ _ _ _ _ (pop_recv_cons s _ _ Hnq)). cbn [fsig_notification handle_recv_notification].
  set (s1 := set_recv s (set_recv_notifications (c_recv s) (map (fsig_notification P) nb))).
  destruct (rv_conn _ _ _ _ _ _ H) as (Hid & Hd & Hc & Hp & Hl & Ha).
  pose proof (rv_status _ _ _ _ _ _ H) as Hst. destruct (v_status v) as [|T|T] eqn:Hq; [| |done].
  - cbn [arrived]. rewrite reached_empty. destruct Hst as [Hno Hused].
    eexists. split; [exact (FinishFlow_unposted s1 c Hp Hno Hd Hid)|]. exists [mkBlock 0 n]. split; [apply asks_for_all|].
    exists c, m. destruct H. constructor; cbn [v_status v_nb v_txb v_start set_nb set_txb]; rewrite ?Hq; try done.
    + intros Hs Hc' _. apply rv_max; [done|rewrite Hnb; set_solver|by rewrite Hq].
    + cbn [c_rel set_rel rl_tx_queue set_recv s1]. apply Forall2_app; [done|]. constructor; [|constructor].
      split; [done|]. exists (SigRetransmitRequest mid (su_dst P) [mkBlock 0 n]). by split; [apply frame_holds|].
    + by rewrite Hq in rv_queue.
    + by rewrite Hq in rv_cq.
  - destruct Hst as (e & He & Hinv & Hb & Hs). cbn [arrived].
    assert (Hbytes : ext_bytes e = flow_bytes P T) by (by destruct Hinv as (_ & _ & _ & _ & ->)).
    destruct (reached T) eqn:Hr.
    + exists s1. split.
      { unfold FinishFlow. step (load_conn_ok (su_pb P) c s1 Hp). step (eq_refl : gets c_comm_id s1 = Ok (c_comm_id s1, s1)).
        rewrite He. unfold FinishReceiving. rewrite Hb, Hbytes. unfold flow_reached in Hr. by rewrite Hr. }
      exists c, m. destruct H. constructor; cbn [v_status v_nb v_txb v_start set_nb set_txb]; rewrite ?Hq; try done.
      * intros Hs' Hc' _. apply rv_max; [done|rewrite Hnb; set_solver|by rewrite Hq].
      * by rewrite Hq in rv_queue.
      * by exists e.
      * by rewrite Hq in rv_cq.
    + assert (Hlt : received_bytes (su_seg P - 20) size T < Z.min (ext_bound e) size).
      { unfold flow_reached, flow_bytes in Hr. apply Z.leb_gt in Hr. pose proof (gs_bound P HP). lia. }
      destruct (FinishFlow_requests (su_malloc P) (gs_malloc P HP) (su_seg P) (su_src P) (su_dst P) (su_rx P) (gs_seg P HP)
        (su_msg P) (gs_size P HP) (gs_data P HP) s1 (su_pb P) c (lt_mem (su_recv P)) e T)
        as (s' & c' & e' & bs & Hrun & Hrecv & Hb' & Hs' & Hmet & Htx & Hin & Hg & Hne & Hnd & Hlen & Hflows & Hfree);
        [apply receiving_connected; split; [exact (rv_conn _ _ _ _ _ _ H)|done]|done|].
      apply receiving_connected in Hrecv as (Hconn' & He' & Hinv').
      exists s'. split; [exact Hrun|]. exists bs. split; [by split_and!|]. exists c', m.
      destruct Hflows as (_ & Hf2 & _ & Hf4 & Hf5 & Hf6 & Hf7). destruct H.
      constructor; cbn [v_status v_nb v_txb v_start set_nb set_txb]; rewrite ?Hq; try done.
      * unfold idle_endpoint in *. by rewrite Hf7.
      * intros Hs0 Hc' _. apply rv_max; [done|rewrite Hnb; set_solver|by rewrite Hq].
      * cbn [c_rel set_rel rl_tx_queue set_recv s1] in Htx. rewrite Htx. apply Forall2_app; [done|].
        constructor; [|constructor]. split; [done|]. exists (SigRetransmitRequest mid (su_dst P) bs).
        by split; [apply frame_holds|].
      * by rewrite Hmet.
      * by rewrite Hf6.
      * by rewrite Hfree.
      * rewrite Hf5. cbn. by rewrite rv_queue, Hq.
      * exists e'. split; [done|]. split; [done|]. split; [congruence|]. unfold stop_flag in *. by rewrite Hs', Hb'.
      * rewrite Hf2. cbn. by rewrite rv_cq, Hq.
Qed.

Lemma confirm_ok k s v T nb : receiver_at P k s v -> v_nb v = Conf :: nb -> v_status v = Posted T ->
  exists s', take_one pop_recv_notification (handle_recv_notification (su_malloc P)) s = Ok (tt, s') /\
    receiver_at P k s' (set_status (set_nb v nb) (Done T)).
Proof.
  intros (c & m & H) Hnb Hq. pose proof (rv_notif _ _ _ _ _ _ H) as Hnq. rewrite Hnb in Hnq. cbn in Hnq.
  rewrite (take_one_some _ _ _ _ _ (pop_recv_cons s _ _ Hnq)). cbn [fsig_notification handle_recv_notification].
  set (s1 := set_recv s (set_recv_notifications (c_recv s) (map (fsig_notification P) nb))).
  destruct (rv_conn _ _ _ _ _ _ H) as (Hid & Hd & Hc & Hp & Hl & Ha).
  pose proof (rv_status _ _ _ _ _ _ H) as Hst. rewrite Hq in Hst. destruct Hst as (e & He & Hinv & Hb & Hs).
  assert (Hbytes : ext_bytes e = flow_bytes P T) by (by destruct Hinv as (_ & _ & _ & _ & ->)).
  eexists. split; [exact (ConfirmStop_run s1 mid (su_pb P) c e Hp He)|].
  eexists (set_recv_msgs c (delete mid (cm_recv_msgs c))), m. destruct H.
  constructor; cbn [v_status v_nb v_txb v_start set_nb set_status]; try done.
  - do 3 (split; [done|]). split; [apply lookup_insert_eq|done].
  - cbn. by rewrite rv_queue, Hq.
  - cbn. apply lookup_delete_eq.
  - cbn. by rewrite rv_cq, Hq, app_nil_r, Hbytes, Hd.
Qed.

(** ** Control messages *)

Lemma receiver_sends k s v : receiver_at P k s v ->
  exists s', match v_txb v with
    | [] => send_control (su_clock P) (su_malloc P) (su_init_rate P) (su_init_window P) (su_interval P) (su_src P) s = Ok (None, s') /\
        receiver_at P k s' v
    | b :: l => exists sg, bmsg_signal P b sg /\
        send_control (su_clock P) (su_malloc P) (su_init_rate P) (su_init_window P) (su_interval P) (su_src P) s =
          Ok (Some (frame sg), s') /\ receiver_at P k s' (set_txb v l)
    end.
Proof.
  intros (c & m & H). pose proof (rv_tx _ _ _ _ _ _ H) as Htx. destruct (v_txb v) as [|b l] eqn:Hb.
  - exists s. apply Forall2_nil_inv_r in Htx. split; [|by exists c, m].
    unfold send_control. rewrite (cm_bind_Ok _ _ s None s); [done|]. unfold pop_rel_tx.
    step (eq_refl : gets c_rel s = Ok (c_rel s, s)). by rewrite Htx.
  - apply Forall2_cons_inv_r in Htx as ((d & buf) & q & (Hd & sg & Hbuf & Hsg) & Hq & Hl). cbn in Hd, Hbuf. subst d.
    pose proof (signal_small P sg (or_intror (or_intror (ex_intro _ b Hsg)))) as Hsmall.
    eexists. exists sg. split; [done|].
    split; [exact (send_control_ok _ _ _ _ _ s _ _ m buf q sg (rv_ep _ _ _ _ _ _ H) Hl Hbuf ltac:(lia))|].
    exists c, m. by destruct H.
Qed.

(** A message [x] of the sender. *)
Lemma receiver_receives k s v x : receiver_at P k s v ->
  match x with
  | None => v_nb v = []
  | Some Fin => v_start v = false /\ Conf ∉ v_nb v /\ is_done (v_status v) = false
  | Some Conf => True
  end ->
  exists s', receive_control (su_clock P) (su_malloc P) (su_init_rate P) (su_init_window P) (su_interval P) (su_src P)
      (frame (match x with None => start_signal P | Some f => fsig_signal P f end)) s = Ok (tt, s') /\
    forall fs, receiver_at P k s' (set_fwd v false fs (v_nb v ++ option_list x)).
Proof.
  intros (c & m & H) Hx. set (sg := match x with None => _ | Some _ => _ end).
  assert (Hsg : sg = start_signal P \/ (exists f, sg = fsig_signal P f) \/ (exists b, bmsg_signal P b sg)).
  { unfold sg. destruct x as [f|]; [right; left; by exists f|by left]. }
  destruct (rv_conn _ _ _ _ _ _ H) as (Hid & Hd & Hc & Hp & Hl & Ha).
  destruct (receive_control_ok (su_clock P) (su_malloc P) (su_init_rate P) (su_init_window P) (su_interval P) (gs_malloc P HP)
    s (su_src P) (su_pb P) m c sg (rv_ep _ _ _ _ _ _ H) Hp (signal_sane P HP sg Hsg)
    ltac:(pose proof (signal_small P sg Hsg); lia)) as (buf & Hbuf & Hrun).
  destruct x as [[|]|]; unfold sg in Hrun; cbn [fsig_signal start_signal signal_effect re_msg_max_seq] in Hrun.
  - destruct Hx as (Hs & Hno & Hdn). pose proof (rv_max _ _ _ _ _ _ H Hs Hno Hdn) as Hm. rewrite Hm in Hrun.
    eexists. split; [exact Hrun|]. intros fs. exists c, m. destruct H.
    constructor; cbn [v_status v_nb v_txb v_start set_fwd]; try done.
    + unfold idle_endpoint. cbn. apply lookup_insert_eq.
    + cbn. by rewrite rv_notif, map_app.
  - eexists. split; [exact Hrun|]. intros fs. exists c, (delete mid m). destruct H.
    constructor; cbn [v_status v_nb v_txb v_start set_fwd]; try done.
    + unfold idle_endpoint. cbn. apply lookup_insert_eq.
    + cbn. intros _ Hno. set_solver.
    + cbn. by rewrite rv_notif, map_app.
  - eexists. split; [exact Hrun|]. intros fs. exists c, (<[mid := n - 1]> m). destruct H.
    constructor; cbn [v_status v_nb v_txb v_start set_fwd]; try done.
    + unfold idle_endpoint. cbn. apply lookup_insert_eq.
    + intros. apply lookup_insert_eq.
    + cbn. by rewrite rv_notif, app_nil_r.
Qed.

(** ** The user's memory *)

Lemma observe_ok k s v old : receiver_at P k s v ->
  ((forall T, v_status v <> Posted T) -> memory_holds P (arrived (v_status v)) old) ->
  memory_holds P (arrived (v_status v)) (observe (su_pb P) (su_msg P) s old).
Proof.
  intros (c & m & H) Hold. destruct (rv_conn _ _ _ _ _ _ H) as (Hid & Hd & Hc & Hp & Hl & Ha).
  pose proof (rv_status _ _ _ _ _ _ H) as Hst. unfold observe. rewrite Hp. cbn [mbind option_bind].
  destruct (v_status v) as [|T|T].
  - destruct Hst as [-> _]. by apply Hold.
  - destruct Hst as (e & He & (_ & Hlen & _ & Hlook & _) & _). rewrite He. cbn [lt_mem corrupt_msg] in *.
    rewrite length_corrupt in *. by split.
  - rewrite Hst. by apply Hold.
Qed.
End receiver.
