(* ===== verification/FlowRefine.v ===== *)
(** The handlers implement the protocol of FlowProtocol.v: every turn of a
    handler and every event of the network is a step of the protocol, and none
    fails. *)

From S2P Require Import Prelude Bytes Runs BlockMgr TreeBlockMgr GradPacket LtMessage Packetizer Transfer Floats Meter Wire Queues Framing Comm PriorityChannel Sender ReceivingChannel Receiver Delivery ReliableChannel Communicator Control Flow FlowProtocol FlowState FlowSender FlowReceiver.

Section refine.
Context (P : Setup) (HP : good_setup P).

Notation n := (flow_packets P).
Notation reached := (flow_reached P).

Lemma step_a_ok {A} (m : cm TreeBlockMgr A) f x s' : m (fl_a f) = Ok (x, s') ->
  step_a m f = Ok (x, mkFlow s' (fl_b f) (fl_net f) (fl_user f)).
Proof. intros H. unfold step_a. by rewrite H. Qed.
Lemma step_b_ok {A} pb msg (m : cm TreeBlockMgr A) f x s' : m (fl_b f) = Ok (x, s') ->
  step_b pb msg m f = Ok (x, mkFlow (fl_a f) s' (fl_net f) (observe pb msg s' (fl_user f))).
Proof. intros H. unfold step_b. by rewrite H. Qed.

Lemma represents_le k k' f v : represents P k f v -> k' <= k -> represents P k' f v.
Proof.
  intros (Ha & Hb & H) Hk. split; [by apply (sender_at_view P k _ _ v)|]. by split; [apply (receiver_at_view P k _ _ v)|].
Qed.

(** A step of the sender, of the receiver. *)
Lemma represents_a k f v s' v' : represents P (k + 1) f v -> sender_at P k s' v' -> receiver_view v v' ->
  v_net v' = v_net v -> represents P k (mkFlow s' (fl_b f) (fl_net f) (fl_user f)) v'.
Proof.
  intros (_ & Hb & Hnet & Hmem) Ha Hv Hn. pose proof Hv as (Hst & _).
  split; [done|]. split; [apply (receiver_at_view P (k + 1) _ _ v); [done|lia|done]|]. cbn. rewrite Hn, Hst. done.
Qed.

Lemma represents_b k f v s' v' net : represents P (k + 1) f v -> receiver_at P k s' v' -> sender_view v v' ->
  Forall2 (is_datagram P) net (v_net v') ->
  ((forall T, v_status v' <> Posted T) -> arrived (v_status v') = arrived (v_status v)) ->
  represents P k (mkFlow (fl_a f) s' net (observe (su_pb P) (su_msg P) s' (fl_user f))) v'.
Proof.
  intros (Ha & _ & _ & Hmem) Hb Hv Hn Harr.
  split; [apply (sender_at_view P (k + 1) _ _ v); [done|lia|done]|]. split; [done|]. split; [done|].
  apply (observe_ok P k _ _ _ Hb). intros Hno. by rewrite Harr.
Qed.

Lemma protocol_active v : protocol n reached v -> match v_phase v with Sending _ | Serving _ => active n (v_phase v) | _ => True end.
Proof. intros (Hl & _). destruct (v_phase v); try done; inversion Hl; by subst. Qed.

Lemma refine_poll (k : Z) f v v' i next : represents P (k + 1) f v -> polled v v' i next -> receiver_view v v' /\ v_net v' = v_net v.
Proof. intros _ [[_ ->]|(m & _ & ->)]; [done|]. by destruct next. Qed.

Lemma gather_all a pkts idx : Forall2 (is_packet P) pkts idx -> Forall (in_range n) idx -> forall acc,
  exists ds, foldM (fun ds p => d ← gather (su_msg P) (snd p); Ok (ds ++ [d])) acc (map (pair (A := Z) a) pkts) = Ok (acc ++ ds) /\
    Forall2 (is_datagram P) ds idx.
Proof.
  induction 1 as [|p i pkts idx Hp H IH]; intros Hi acc; [exists []; by rewrite app_nil_r|].
  apply Forall_cons in Hi as [Hi His]. destruct (gather_ok P HP p i Hp Hi) as (d & Hd & Hdi).
  destruct (IH His (acc ++ [d])) as (ds & Hds & Hall). exists (d :: ds). cbn. rewrite Hd. cbn. rewrite Hds, <- app_assoc.
  by split; [|constructor].
Qed.

Lemma refine_sender k f v a : represents P (k + 1) f v -> 0 <= k -> protocol n reached v ->
  match a with TakeSend | PollSend | PollRetransmit | PrioNotify | Transmit _ _ => True | _ => False end ->
  exists f' v', flow_do P f a = Ok f' /\ vstep n reached a v v' /\ represents P k f' v'.
Proof.
  intros Hrep Hk Hv Ha. pose proof Hrep as (Hsnd & _). pose proof Hv as (Hl & Hst & Hq & Hnet & Hout).
  assert (Hsnd' : sender_at P k (fl_a f) v) by (apply (sender_at_view P (k + 1) _ _ v); [done|lia|done]).
  destruct a as [| | | |ep j|j|j|j| | | |]; try done; unfold flow_do; cbn [do_action vstep].
  - destruct (send_request_ok P HP k (fl_a f) v Hsnd') as (s' & Hrun & Hs').
    rewrite (step_a_ok _ _ _ _ Hrun). eexists _, _. split; [reflexivity|]. split; [reflexivity|].
    apply (represents_a k f v); [done|done|by destruct (v_phase v)|by destruct (v_phase v)].
  - destruct (poll_sending_ok P HP k (fl_a f) v Hsnd Hk) as (x & s' & v' & Hrun & Hs' & Hstep).
    { intros i Hp. pose proof (protocol_active v Hv) as Ha'. by rewrite Hp in Ha'. }
    rewrite (step_a_ok _ _ _ _ Hrun). eexists _, v'. split; [reflexivity|].
    split; [destruct (v_phase v) as [| | |[|? ?]|]; try done; by destruct Hstep|].
    assert (receiver_view v v' /\ v_net v' = v_net v) as [? ?].
    { destruct (v_phase v); try (by subst v'). destruct Hstep. by eapply refine_poll. }
    by apply (represents_a k f v).
  - destruct (poll_retransmit_ok P HP k (fl_a f) v Hsnd Hk) as (x & s' & v' & Hrun & Hs' & Hstep).
    { intros rest Hp. pose proof (protocol_active v Hv) as Ha'. by rewrite Hp in Ha'. }
    rewrite (step_a_ok _ _ _ _ Hrun). eexists _, v'. split; [reflexivity|].
    split; [destruct (v_phase v) as [| | |[|? ?]|]; try done; by destruct Hstep|].
    assert (receiver_view v v' /\ v_net v' = v_net v) as [? ?].
    { destruct (v_phase v) as [| | |[|i rest]|]; try (by subst v'). destruct Hstep. by eapply refine_poll. }
    by apply (represents_a k f v).
  - destruct (v_na v) as [|[bs|] na] eqn:Hna.
    + eexists _, v. split; [|split; [done|by apply (represents_a k f v)]].
      erewrite step_a_ok; [reflexivity|]. destruct Hsnd as (c & m & H). pose proof (sd_notif _ _ _ _ _ _ H) as Hnq.
      rewrite Hna in Hnq. apply Forall2_nil_inv_r in Hnq. apply take_one_none. unfold pop_prio_notification.
      step (eq_refl : gets c_prio (fl_a f) = Ok (c_prio (fl_a f), fl_a f)). by rewrite Hnq.
    + cbn in Hl. destruct (legal_bwd_inv _ _ _ _ _ _ _ Hl) as (Hp & _ & _ & _ & _ & Hg & Hne).
      destruct (accept_ok P HP k (fl_a f) v bs na Hsnd' Hna Hp Hg Hne) as (s' & Hrun & Hs').
      rewrite (step_a_ok _ _ _ _ Hrun). eexists _, _. split; [reflexivity|]. split; [reflexivity|]. by apply (represents_a k f v).
    + cbn in Hl. destruct (legal_bwd_inv _ _ _ _ _ _ _ Hl) as (_ & _ & _ & Hp1 & Hp2 & _).
      destruct (stop_ok P HP k (fl_a f) v na Hsnd' Hna Hp1 Hp2) as (s' & Hrun & Hs').
      rewrite (step_a_ok _ _ _ _ Hrun). eexists _, _. split; [reflexivity|]. split; [reflexivity|]. by apply (represents_a k f v).
  - destruct (v_out v !! ep) as [q|] eqn:Hep.
    + destruct (epollout_ok P HP k (fl_a f) v ep j q Hsnd' Hep) as (a & s' & pkts & Hrun & Hhas & Hpk & Hs').
      destruct (gather_all a pkts (take j q) Hpk) with (acc := @nil (list Z)) as (ds & Hds & Hdg).
      { apply Forall_take. by apply (Forall_lookup_1 _ _ ep q Hout). }
      rewrite Hhas. rewrite (step_a_ok _ _ _ _ Hrun). cbn [mbind outcome_bind]. rewrite Hds.
      eexists _, _. split; [reflexivity|]. split; [reflexivity|].
      destruct Hrep as (_ & Hb & Hn & Hmem). split; [by apply (sender_at_view P k _ _ _ _ Hs'); [lia|]|].
      split; [apply (receiver_at_view P (k + 1) _ _ v); [done|lia|done]|]. split; [|done]. cbn. by apply Forall2_app.
    + assert (Hhas : has_endpoint (fl_a f) ep = false).
      { destruct Hsnd as (c & m & H). unfold has_endpoint. apply Nat.ltb_ge.
        rewrite (Forall2_length _ _ _ (sd_out _ _ _ _ _ _ H)). by apply lookup_ge_None. }
      rewrite Hhas. exists f, v. split; [done|]. split; [done|]. apply (represents_le (k + 1)); [done|lia].
Qed.

Lemma refine_network k f v a : represents P (k + 1) f v -> 0 <= k -> protocol n reached v ->
  match a with Lose _ | Duplicate _ | Receive _ => True | _ => False end ->
  exists f' v', flow_do P f a = Ok f' /\ vstep n reached a v v' /\ represents P k f' v'.
Proof.
  intros Hrep Hk Hv Ha. pose proof Hrep as (Hsnd & Hrcv & Hnet & Hmem). pose proof Hv as (Hl & Hst & Hq & Hrange & Hout).
  assert (Hsnd' : sender_at P k (fl_a f) v) by (apply (sender_at_view P (k + 1) _ _ v); [done|lia|done]).
  assert (Hrcv' : receiver_at P k (fl_b f) v) by (apply (receiver_at_view P (k + 1) _ _ v); [done|lia|done]).
  destruct a as [| | | |ep j|j|j|j| | | |]; try done; unfold flow_do; cbn [do_action vstep].
  - eexists _, _. split; [reflexivity|]. split; [reflexivity|]. split; [|split; [|split; [|done]]].
    + by apply (sender_at_view P k k _ v).
    + by apply (receiver_at_view P k k _ v).
    + cbn. by apply Forall2_delete.
  - eexists _, _. split; [reflexivity|]. split; [reflexivity|]. split; [|split; [|split; [|done]]].
    + by apply (sender_at_view P k k _ v).
    + by apply (receiver_at_view P k k _ v).
    + cbn. apply Forall2_app; [done|]. destruct (fl_net f !! j) as [d|] eqn:Hd.
      * destruct (Forall2_lookup_l _ _ _ _ _ Hnet Hd) as (i & -> & Hi). by constructor.
      * apply lookup_ge_None in Hd. rewrite (Forall2_length _ _ _ Hnet) in Hd. apply lookup_ge_None in Hd. by rewrite Hd.
  - destruct (fl_net f !! j) as [d|] eqn:Hd.
    + destruct (Forall2_lookup_l _ _ _ _ _ Hnet Hd) as (i & Hi & Hdi). rewrite Hi.
      pose proof (Forall_lookup_1 _ _ j i Hrange Hi) as Hir.
      destruct (receive_ok P HP k (fl_b f) v d i Hrcv Hk Hdi Hir) as (s' & rates & Hrun & Hrates & Hs').
      rewrite (step_b_ok _ _ _ _ _ _ Hrun). eexists _, _. split; [reflexivity|]. split; [by exists rates|].
      apply (represents_b k f v); [done| |done| |].
      * by apply (receiver_at_view P k k _ _ _ Hs').
      * cbn. by apply Forall2_delete.
      * cbn. destruct (v_status v) as [|T|T]; [done|intros Hno; by destruct (Hno (T ∪ {[i]}))|done].
    + pose proof Hd as Hd'. apply lookup_ge_None in Hd'. rewrite (Forall2_length _ _ _ Hnet) in Hd'. apply lookup_ge_None in Hd'.
      rewrite Hd'. exists f, v. split; [done|]. split; [done|]. apply (represents_le (k + 1)); [done|lia].
Qed.

Lemma refine_receiver k f v a : represents P (k + 1) f v -> 0 <= k -> protocol n reached v ->
  match a with TakeReceive | RecvNotify => True | _ => False end ->
  exists f' v', flow_do P f a = Ok f' /\ vstep n reached a v v' /\ represents P k f' v'.
Proof.
  intros Hrep Hk Hv Ha. pose proof Hrep as (_ & Hrcv & Hnet & Hmem). pose proof Hv as (Hl & Hst & Hq & Hrange & Hout).
  assert (Hrcv' : receiver_at P k (fl_b f) v) by (apply (receiver_at_view P (k + 1) _ _ v); [done|lia|done]).
  destruct a as [| | | |ep j|j|j|j| | | |]; try done; unfold flow_do; cbn [do_action vstep].
  - destruct (take_receive_ok P HP k (fl_b f) v Hrcv') as (s' & Hrun & Hs').
    rewrite (step_b_ok _ _ _ _ _ _ Hrun). eexists _, _. split; [reflexivity|]. split; [reflexivity|].
    apply (represents_b k f v); [done|done|by destruct (v_status v)|by destruct (v_status v)|].
    intros _. by destruct (v_status v) eqn:Hs0; cbn; rewrite ?Hs0.
  - destruct (v_nb v) as [|[|] nb] eqn:Hnb.
    + eexists _, v. split; [|split; [done|by apply (represents_b k f v)]].
      erewrite step_b_ok; [reflexivity|]. destruct Hrcv as (c & m & H). pose proof (rv_notif _ _ _ _ _ _ H) as Hnq.
      rewrite Hnb in Hnq. apply take_one_none. unfold pop_recv_notification.
      step (eq_refl : gets c_recv (fl_b f) = Ok (c_recv (fl_b f), fl_b f)). by rewrite Hnq.
    + cbn in Hl. destruct (legal_fwd_inv _ _ _ _ _ _ _ Hl) as [Hdn _].
      destruct (finish_ok P HP k (fl_b f) v nb Hrcv' Hnb Hdn) as (s' & Hrun & Hs').
      rewrite (step_b_ok _ _ _ _ _ _ Hrun). destruct (reached (arrived (v_status v))).
      * eexists _, _. split; [reflexivity|]. split; [reflexivity|]. by apply (represents_b k f v).
      * destruct Hs' as (bs & Hbs & Hs'). eexists _, _. split; [reflexivity|]. split; [by exists bs|].
        by apply (represents_b k f v).
    + cbn in Hl. destruct (legal_fwd_inv _ _ _ _ _ _ _ Hl) as [Hdn (_ & _ & _ & Hr)].
      destruct (v_status v) as [|T|T] eqn:Hs; [by rewrite (reached_empty P HP : reached (arrived Unposted) = false) in Hr| |done].
      destruct (confirm_ok P k (fl_b f) v T nb Hrcv' Hnb Hs) as (s' & Hrun & Hs').
      rewrite (step_b_ok _ _ _ _ _ _ Hrun). eexists _, _. split; [reflexivity|]. split; [reflexivity|].
      apply (represents_b k f v); [done|done|done|done|]. cbn. by rewrite Hs.
Qed.

Lemma refine_control_b k f v : represents P (k + 1) f v -> 0 <= k -> protocol n reached v ->
  exists f' v', flow_do P f ControlToB = Ok f' /\ vstep n reached ControlToB v v' /\ represents P k f' v'.
Proof.
  intros Hrep Hk Hv. pose proof Hrep as (Hsnd & Hrcv & Hnet & Hmem). pose proof Hv as (Hl & Hst & _).
  assert (Hsnd' : sender_at P k (fl_a f) v) by (apply (sender_at_view P (k + 1) _ _ v); [done|lia|done]).
  assert (Hrcv' : receiver_at P k (fl_b f) v) by (apply (receiver_at_view P (k + 1) _ _ v); [done|lia|done]).
  unfold flow_do. cbn [do_action vstep]. destruct (sender_sends P k (fl_a f) v Hsnd') as (s' & Hrun & Hs').
  rewrite (step_a_ok _ _ _ _ Hrun). cbn [mbind outcome_bind]. unfold tx_signals in *.
  assert (Hx : v_start v = true \/ v_start v = false /\ (v_fs v = [] \/ exists x fs, v_fs v = x :: fs)).
  { destruct (v_start v); [by left|right]. split; [done|]. destruct (v_fs v); [by left|right; eauto]. }
  assert (Hgo : forall x fs, match x with
      | None => v_nb v = []
      | Some Fin => v_start v = false /\ Conf ∉ v_nb v /\ is_done (v_status v) = false
      | Some Conf => True
      end -> sender_at P k s' (set_fwd v false fs (v_nb v ++ option_list x)) ->
    exists f', (r ← step_b (su_pb P) (su_msg P) (receive_control (su_clock P) (su_malloc P) (su_init_rate P) (su_init_window P)
        (su_interval P) (su_src P) (frame (match x with None => start_signal P | Some f => fsig_signal P f end)))
        (mkFlow s' (fl_b f) (fl_net f) (fl_user f)); Ok (snd r)) = Ok f' /\
      represents P k f' (set_fwd v false fs (v_nb v ++ option_list x))).
  { intros x fs Hc Hs1. destruct (receiver_receives P HP k (fl_b f) v x Hrcv' Hc) as (s2 & Hr & Hs2).
    rewrite (step_b_ok _ _ _ (mkFlow s' (fl_b f) (fl_net f) (fl_user f)) _ _ Hr). eexists. split; [reflexivity|].
    split; [done|]. split; [done|]. split; [done|]. apply (observe_ok P k _ _ _ (Hs2 fs)). done. }
  destruct Hx as [Hx|[Hx [Hfs|(x & fs & Hfs)]]]; rewrite Hx in *.
  - cbn [app]. destruct (Hgo None (v_fs v)) as (f' & Hf & Hr); [by apply Hst|cbn; by rewrite app_nil_r|].
    rewrite Hf. eexists _, _. split; [done|]. split; [done|]. cbn in Hr. by rewrite app_nil_r in Hr.
  - rewrite Hfs in *. cbn [app map]. eexists _, _. split; [done|]. split; [done|].
    by apply (represents_a k f v).
  - rewrite Hfs in *. cbn [app map]. destruct (Hgo (Some x) fs) as (f' & Hf & Hr); [|done|].
    + destruct x; [|done]. split; [done|]. clear - Hl. destruct (v_nb v) as [|y nb].
      * cbn in Hl. destruct (legal_fwd_inv _ _ _ _ _ _ _ Hl) as [Hdn _]. split; [set_solver|done].
      * cbn in Hl. destruct (legal_fwd_inv _ _ _ _ _ _ _ Hl) as [_ Hf]. exfalso.
        destruct y; [destruct Hf as [(_ & Hf & _)|(_ & Hf & _)]|destruct Hf as (_ & Hf & _)]; by destruct nb as [|? []].
    + rewrite Hf. eexists _, _. by split; [done|split; [done|]].
Qed.

Lemma refine_control_a k f v : represents P (k + 1) f v -> 0 <= k -> protocol n reached v ->
  exists f' v', flow_do P f ControlToA = Ok f' /\ vstep n reached ControlToA v v' /\ represents P k f' v'.
Proof.
  intros Hrep Hk Hv. pose proof Hrep as (Hsnd & Hrcv & Hnet & Hmem).
  assert (Hsnd' : sender_at P k (fl_a f) v) by (apply (sender_at_view P (k + 1) _ _ v); [done|lia|done]).
  assert (Hrcv' : receiver_at P k (fl_b f) v) by (apply (receiver_at_view P (k + 1) _ _ v); [done|lia|done]).
  unfold flow_do. cbn [do_action vstep]. destruct (receiver_sends P k (fl_b f) v Hrcv') as (s' & Hs').
  destruct (v_txb v) as [|b l] eqn:Htx.
  - destruct Hs' as [Hrun Hs']. rewrite (step_b_ok _ _ _ _ _ _ Hrun). eexists _, _. split; [reflexivity|]. split; [reflexivity|].
    by apply (represents_b k f v).
  - destruct Hs' as (sg & Hsg & Hrun & Hs'). rewrite (step_b_ok _ _ _ _ _ _ Hrun). cbn [mbind outcome_bind].
    destruct (sender_receives P HP k (fl_a f) v b sg Hsnd' Hsg) as (s2 & Hr & Hs2).
    erewrite step_a_ok; [|exact Hr]. eexists _, _. split; [reflexivity|]. split; [reflexivity|]. cbn [fl_a fl_b fl_net fl_user snd].
    split; [|split; [|split]].
    + apply (sender_at_view P k k _ _ _ Hs2); [done|]. by destruct b.
    + apply (receiver_at_view P k k _ _ _ Hs'); [done|]. by destruct b.
    + by destruct b.
    + replace (v_status _) with (v_status (set_txb v l)) by (by destruct b). by apply (observe_ok P k _ _ _ Hs').
Qed.

(** A poll that has a packet to send sends it, unless the rate holds it back;
    then it does nothing but read the clock. *)
Lemma flow_poll k f v i next : represents P (k + 1) f v -> 0 <= k -> protocol n reached v ->
  poll_next n (v_phase v) = Some (i, next) ->
  exists f' v', flow_do P f (poll_action (v_phase v)) = Ok f' /\ represents P k f' v' /\
    if poll_held P (v_phase v) (fl_a f)
    then v' = v /\ fl_a f' = set_ticks (fl_a f) (S (c_ticks (fl_a f))) else routed v v' i next.
Proof.
  intros Hrep Hk Hv Hn. pose proof Hrep as (Hsnd & _). pose proof (protocol_active v Hv) as Ha.
  destruct (v_phase v) as [|j| |[|j rest]|] eqn:Hp; try done; cbn [poll_next] in Hn; injection Hn as <- <-;
    cbn [poll_action]; unfold flow_do; cbn [do_action].
  - destruct (poll_sending_ok P HP k (fl_a f) v Hsnd Hk) as (x & s' & v' & Hrun & Hs' & Hstep).
    { intros i Hi. rewrite Hp in Hi. by injection Hi as ->. }
    rewrite Hp in Hstep. destruct Hstep as [Hpoll Hstep]. destruct (refine_poll k f v v' _ _ Hrep Hpoll) as [Hr Hnet].
    rewrite (step_a_ok _ _ _ _ Hrun). eexists _, v'. split; [reflexivity|]. split; [by apply (represents_a k f v)|done].
  - destruct (poll_retransmit_ok P HP k (fl_a f) v Hsnd Hk) as (x & s' & v' & Hrun & Hs' & Hstep).
    { intros rest0 Hi. rewrite Hp in Hi. by injection Hi as <-. }
    rewrite Hp in Hstep. destruct Hstep as [Hpoll Hstep]. destruct (refine_poll k f v v' _ _ Hrep Hpoll) as [Hr Hnet].
    rewrite (step_a_ok _ _ _ _ Hrun). eexists _, v'. split; [reflexivity|]. split; [by apply (represents_a k f v)|done].
Qed.

(** Every action is a step of the protocol. *)
Lemma flow_step k f v a : represents P (k + 1) f v -> 0 <= k -> protocol n reached v ->
  exists f' v', flow_do P f a = Ok f' /\ vstep n reached a v v' /\ represents P k f' v'.
Proof.
  intros Hrep Hk Hv. destruct a; [by apply refine_sender..|by apply refine_network|by apply refine_network|by apply refine_network|
    by apply refine_receiver|by apply refine_receiver|by apply refine_control_b|by apply refine_control_a].
Qed.
End refine.
