(* ===== verification/FlowSafety.v ===== *)
(** A flow from its posting on: whatever the threads and the network do, no
    handler fails, each side completes at most once and in order, and the user's
    memory holds what has arrived. *)

From S2P Require Import Prelude Bytes Runs BlockMgr TreeBlockMgr GradPacket LtMessage Packetizer Transfer Floats Meter Wire Queues Framing Comm PriorityChannel Sender ReceivingChannel Receiver Delivery ReliableChannel Communicator Control Flow FlowProtocol FlowState FlowSender FlowReceiver FlowRefine.

(** ** Two idle communicators *)

Section posting.
Context (P : Setup).
Notation mid := (lt_msg_id (su_msg P)).

(** The sender, connected to the receiver, sends nothing; its meters have room
    for [K] calls. [free]: the connection does not limit the rate. *)
Record idle_sender (K : Z) (free : bool) (s : Comm TreeBlockMgr) (c : ConnMeta TreeBlockMgr) (m : gmap Z Z) : Prop := {
  ia_id : c_comm_id s = su_src P;
  ia_conn : c_heap s !! su_pa P = Some c;
  ia_dest : cm_dest_comm_id c = su_dst P;
  ia_knows : knows s (su_dst P) (su_pa P);
  ia_ep : idle_endpoint s (su_dst P) (su_pa P) m;
  ia_notif : pc_notification_queue (c_prio s) = [];
  ia_tx : rl_tx_queue (c_rel s) = [];
  ia_prio : prio_ok (su_seg P) (su_uninit P) s (flow_ext P) (su_dst P) (su_prio P);
  ia_out : Forall (fun ep => ue_tx_queue ep = []) (pc_prio_endpoints (c_prio s));
  ia_meters : meters_ok s c K;
  ia_queue : pc_sr_queue (c_prio s) = [];
  ia_phase : sending_phase P c Queued;
  ia_cq : c_cq s = su_cqa P;
  ia_free : free = true -> su_init_rate P = S754_infinity false /\ unthrottled c }.

(** The receiver, connected to the sender, does not know the message. *)
Record idle_receiver (K : Z) (s : Comm TreeBlockMgr) (c : ConnMeta TreeBlockMgr) (m : gmap Z Z) : Prop := {
  ib_conn : connected (su_seg P) (su_src P) (su_dst P) (su_rx P) s (su_pb P) c;
  ib_ptr : su_pb P <> 0;
  ib_ep : idle_endpoint s (su_src P) (su_pb P) m;
  ib_notif : rc_notification_queue (c_recv s) = [];
  ib_tx : rl_tx_queue (c_rel s) = [];
  ib_meter : 0 <= rm_scnt (cm_rx_meter c) /\ rm_scnt (cm_rx_meter c) + 2 * K < 2 ^ 31;
  ib_meter2 : m_cnt (rc_meter (c_recv s)) + K < 2 ^ 31;
  ib_backlog : cm_backlog_free_list c = [];
  ib_queue : rc_rr_queue (c_recv s) = [];
  ib_status : receiving_status P c Unposted;
  ib_cq : c_cq s = su_cqb P }.

Definition start_view (endpoints : nat) (free : bool) : View :=
  mkView Queued Unposted true [] [] [] [] (replicate endpoints []) [] free.

(** Posting the requests of both users. *)
Definition flow_post (sA sB : Comm TreeBlockMgr) : outcome Flow :=
  post_flow (su_malloc P) (su_seg P) (su_src P) (su_dst P) (su_msg P) sA sB (su_prio P) (su_recv P) (su_loss P).

Context (HP : good_setup P).

Lemma Forall2_nils l : Forall (fun ep => ue_tx_queue ep = []) l ->
  Forall2 (fun ep q => Forall2 (is_packet P) (ue_tx_queue ep) q) l (replicate (length l) []).
Proof. induction 1 as [|ep l Hep Hl IH]; constructor; [by rewrite Hep|done]. Qed.

Lemma flow_post_ok K free sA sB cA cB mA mB :
  idle_sender K free sA cA mA -> idle_receiver K sB cB mB ->
  exists f, flow_post sA sB = Ok f /\ represents P K f (start_view (length (pc_prio_endpoints (c_prio sA))) free).
Proof.
  intros HA HB. destruct (make_FlowStart_holds (su_malloc P) (gs_malloc P HP) mid (lt_size (su_msg P)) (flow_packets P - 1)) as (b & Hb & Hsig).
  pose proof (gs_seg P HP) as Hseg. pose proof (gs_size P HP) as Hsize.
  assert (Hmax : GetMaxSeqNum (su_seg P) (lt_size (su_msg P)) = Ok (flow_packets P - 1)) 
    by (apply (GetMaxSeqNum_packets (su_seg P) ltac:(lia)); lia).
  set (sA1 := set_rel sA (mkReliableChannel (rl_ctrl_endpoints (c_rel sA)) (rl_tx_queue (c_rel sA) ++ [(su_dst P, b)])
    (rl_notification_queue (c_rel sA)))).
  set (sA2 := set_prio sA1 (set_sr_queue (c_prio sA1) (pc_sr_queue (c_prio sA1) ++ [(su_dst P, flow_ext P, su_prio P)]))).
  assert (HpA : PostSend (su_seg P) (su_malloc P) (su_dst P) (su_msg P) (su_prio P) sA = Ok (tt, sA2)).
  { unfold PostSend. lift_step Hmax. by lift_step Hb. }
  destruct (ib_conn _ _ _ _ HB) as (Hid & Hd & Hc & Hp & Hl & Ha).
  set (sB1 := set_id_conn sB (<[su_src P := Some (su_pb P)]> (c_id_conn sB))).
  set (sB2 := set_recv sB1 (set_rr_queue (c_recv sB1) (rc_rr_queue (c_recv sB1) ++ [(su_pb P, su_recv P, su_loss P)]))).
  assert (HpB : PostRecv (su_src P) (su_recv P) (su_loss P) sB = Ok (tt, sB2)).
  { assert (Hcn : conn_or_null (su_src P) sB = Ok (su_pb P, sB1)).
    { unfold conn_or_null, get, modify, mbind, cm_bind, mret, cm_ret, sB1. unfold conn_ptr in *. by rewrite Hc. }
    unfold PostRecv. step Hcn.
    assert (Hptr : negb (su_pb P =? 0) = true) by (apply negb_true_iff, Z.eqb_neq, HB). by lift_step (CHECK_true _ Hptr). }
  exists (mkFlow sA2 sB2 [] (lt_mem (su_recv P))). split.
  { unfold flow_post, post_flow. rewrite HpA. cbn [mbind outcome_bind]. by rewrite HpB. }
  split; [|split; [|split; [constructor|]]].
  - exists cA, mA. destruct HA. constructor; try done.
    + cbn. by rewrite ia_notif0.
    + cbn. rewrite ia_tx0. by constructor; [|constructor].
    + by apply Forall2_nils.
    + cbn. by rewrite ia_queue0.
    + cbn. by rewrite ia_cq0, app_nil_r.
  - exists cB, mB. destruct HB. constructor; try done.
    + do 2 (split; [done|]). split; [apply lookup_insert_eq|done].
    + cbn. by rewrite ib_tx0.
    + cbn. by rewrite ib_queue0.
    + cbn. by rewrite ib_cq0, app_nil_r.
  - split; [apply HP|]. intros j Hj. by rewrite decide_False by (cbn; set_solver).
Qed.

(** ** Runs *)

Lemma flow_reached_mono T i : flow_reached P T = true -> flow_reached P (T ∪ {[i]}) = true.
Proof.
  unfold flow_reached, flow_bytes, received_bytes. intros Hle%Z.leb_le. apply Z.leb_le. etransitivity; [exact Hle|].
  apply sumZ_le. intros x Hx%elem_of_seqZ. pose proof (gs_seg P HP) as Hseg. pose proof (gs_size P HP) as Hsize.
  pose proof (chunk_len_pos (su_seg P - 20) ltac:(lia) (lt_size (su_msg P)) x ltac:(lia) ltac:(lia)).
  destruct (decide (x ∈ T)); [rewrite decide_True by set_solver; lia|]. case_decide; lia.
Qed.

Lemma flow_bytes_full T : (forall i, 0 <= i < flow_packets P -> i ∈ T) <-> flow_bytes P T = lt_size (su_msg P).
Proof.
  symmetry. pose proof (gs_seg P HP) as Hseg.
  exact (received_bytes_full (su_seg P) ltac:(lia) (su_msg P) (gs_size P HP) (gs_data P HP) T).
Qed.

Lemma flow_reached_full T : (forall i, 0 <= i < flow_packets P -> i ∈ T) -> flow_reached P T = true.
Proof.
  intros H%flow_bytes_full. unfold flow_reached. rewrite H. apply Z.leb_le. apply HP.
Qed.

Fixpoint vsteps (v : View) (acts : list action) (v' : View) : Prop :=
  match acts with
  | [] => v' = v
  | a :: acts => exists v1, vstep (flow_packets P) (flow_reached P) a v v1 /\ vsteps v1 acts v'
  end.

Lemma protocol_start endpoints free : protocol (flow_packets P) (flow_reached P) (start_view endpoints free).
Proof.
  split; [|split; [done|split; [|split; [constructor|]]]]; cbn.
  - rewrite (reached_empty P HP). constructor.
  - intros _. split; [done|]. by apply Forall_replicate.
  - by apply Forall_replicate.
Qed.

Lemma flow_run_refines acts k f v : represents P (k + Z.of_nat (length acts)) f v -> 0 <= k ->
  protocol (flow_packets P) (flow_reached P) v ->
  exists f' v', flow_run P f acts = Ok f' /\ vsteps v acts v' /\ represents P k f' v' /\
    protocol (flow_packets P) (flow_reached P) v'.
Proof.
  revert f v. induction acts as [|a acts IH]; intros f v Hrep Hk Hv.
  { exists f, v. rewrite Z.add_0_r in Hrep. by split. }
  cbn [length] in Hrep. destruct (flow_step P HP (k + Z.of_nat (length acts)) f v a) as (f1 & v1 & Hf & Hs & Hrep1);
    [by replace (k + Z.of_nat (length acts) + 1) with (k + Z.of_nat (S (length acts))) by lia|lia|done|].
  pose proof (flow_packets_small P HP) as Hn.
  assert (Hv1 : protocol (flow_packets P) (flow_reached P) v1).
  { by apply (protocol_step (flow_packets P) (flow_reached P) ltac:(lia) flow_reached_mono flow_reached_full a v). }
  destruct (IH f1 v1 Hrep1 Hk Hv1) as (f' & v' & Hf' & Hs' & Hrep' & Hv'). exists f', v'.
  split; [|split; [by exists v1|done]]. unfold flow_run, run_flow. cbn [foldM]. unfold flow_do in Hf. rewrite Hf. exact Hf'.
Qed.

(** Posting and then running. *)
Lemma flow_post_run K free sA sB cA cB mA mB acts :
  idle_sender K free sA cA mA -> idle_receiver K sB cB mB -> Z.of_nat (length acts) <= K ->
  exists f v, (f0 ← flow_post sA sB; flow_run P f0 acts) = Ok f /\
    vsteps (start_view (length (pc_prio_endpoints (c_prio sA))) free) acts v /\
    represents P (K - Z.of_nat (length acts)) f v /\ protocol (flow_packets P) (flow_reached P) v.
Proof.
  intros HA HB Hroom. destruct (flow_post_ok K free sA sB cA cB mA mB HA HB) as (f0 & -> & Hrep).
  cbn [mbind outcome_bind]. apply (flow_run_refines acts _ f0 _); [|lia|apply protocol_start].
  by replace (K - Z.of_nat (length acts) + Z.of_nat (length acts)) with K by lia.
Qed.

(** What the users see in a state of the protocol. *)
Definition send_completion : Completion := mkCompletion mid CompSend (su_dst P) 0.
Definition recv_completion (T : gset Z) : Completion := mkCompletion mid CompRecv (su_src P) (flow_bytes P T).
Definition visible (f : Flow) (T : gset Z) : Prop :=
  memory_holds P T (fl_user f) /\
  (c_cq (fl_a f) = su_cqa P /\ c_cq (fl_b f) = su_cqb P \/
   c_cq (fl_a f) = su_cqa P ++ [send_completion] /\ su_bound P <= flow_bytes P T /\
   (c_cq (fl_b f) = su_cqb P \/ c_cq (fl_b f) = su_cqb P ++ [recv_completion T])).

Lemma represents_visible k f v : represents P k f v -> protocol (flow_packets P) (flow_reached P) v ->
  visible f (arrived (v_status v)).
Proof.
  intros ((ca & ma & HA) & (cb & mb & HB) & _ & Hmem) (Hl & _). split; [done|].
  rewrite (sd_cq _ _ _ _ _ _ HA), (rv_cq _ _ _ _ _ _ HB).
  assert (Hr : flow_reached P (arrived (v_status v)) = true -> su_bound P <= flow_bytes P (arrived (v_status v)))
    by (intros H%Z.leb_le; exact H).
  destruct (v_phase v) eqn:Hp, (v_status v) as [|T|T] eqn:Hq; rewrite ?app_nil_r; cbn in Hl, Hr |- *;
    first [by left|inversion Hl; by subst|right; split; [done|]; split; [apply Hr; inversion Hl; by subst|]].
  all: first [by left|by right].
Qed.
End posting.

(** Everything has arrived. *)
Lemma memory_full P T mem : good_setup P -> memory_holds P T mem -> flow_bytes P T = lt_size (su_msg P) ->
  mem = corrupt (su_seg P - 20) (su_rx P + 20) (lt_mem (su_msg P)).
Proof.
  intros HP [Hlen Hmem] Hfull. pose proof (proj2 (flow_bytes_full P HP T) Hfull) as Hall. pose proof (gs_seg P HP) as Hseg. pose proof (gs_size P HP) as Hsize.
  pose proof (gs_data P HP) as Hdata. apply list_eq. intros j. destruct (decide (j < length mem)%nat) as [Hj|Hj].
  - rewrite Hmem by lia. rewrite decide_True; [done|]. apply Hall.
    pose proof (Z.mul_div_le (Z.of_nat j) (su_seg P - 20) ltac:(lia)).
    split; [apply Z.div_pos; lia|]. apply (lt_packets (su_seg P - 20) ltac:(lia)); [lia|apply Z.div_pos; lia|lia].
  - rewrite !(proj2 (lookup_ge_None _ _)); [done|rewrite length_corrupt; lia|lia].
Qed.
