(* ===== verification/FlowProgress.v ===== *)
(** A flow whose rate limit holds back a bounded number of polls in a row always
    reaches its end: from every state that the threads and the network can bring
    about, a bounded number of turns completes both sides. *)

From S2P Require Import Prelude Bytes Runs BlockMgr TreeBlockMgr GradPacket LtMessage Packetizer Transfer Floats Meter Wire Queues Framing Comm PriorityChannel Sender ReceivingChannel Receiver Delivery ReliableChannel Communicator Control Flow FlowProtocol FlowState FlowSender FlowReceiver FlowRefine FlowSafety.

Section progress.
Context (n : Z) (reached : gset Z -> bool).

(** ** What is left to do *)

(** The packets that are on their way to the receiver or will be. *)
Definition phase_seqs (p : phase) : list Z :=
  match p with Queued => seqZ 0 n | Sending i => seqZ i (n - i) | Serving rest => rest | _ => [] end.
Definition bsig_seqs (b : bsig) : list Z := match b with Req bs => block_seqs bs | Stop => [] end.
Definition pending (v : View) : list Z :=
  phase_seqs (v_phase v) ++ concat (map bsig_seqs (v_na v ++ ctls (v_txb v))) ++ concat (v_out v) ++ v_net v.

(** No packet is lost for good: each has arrived or is on its way. *)
Definition covered_by (v : View) : Prop :=
  reached (arrived (v_status v)) = true \/
  Forall (fun i => i ∈ arrived (v_status v) \/ i ∈ pending v) (seqZ 0 n).

#[global] Instance covered_by_dec v : Decision (covered_by v).
Proof. unfold covered_by. apply _. Defined.

Definition len (l : list Z) : Z := Z.of_nat (length l).
Definition phase_cost (p : phase) : Z :=
  match p with Queued => 8 * n + 4 | Sending i => 8 * (n - i) + 3 | Serving rest => 8 * len rest + 3 | _ => 0 end.
Definition bsig_cost (b : bsig) : Z := match b with Req bs => 8 * len (block_seqs bs) + 4 | Stop => 3 end.
Definition bmsg_cost (m : bmsg) : Z := match m with Rate => 1 | Ctl b => bsig_cost b + 1 end.
Fixpoint total {A} (f : A -> Z) (l : list A) : Z := match l with [] => 0 | x :: l' => f x + total f l' end.

Definition lost (v : View) : Z := if decide (covered_by v) then 0 else 8 * n + 5.

(** An upper bound of the turns that are left. *)
Definition cost (v : View) : Z :=
  lost v + phase_cost (v_phase v) + (if v_start v then 1 else 0) +
  (match v_status v with Unposted => 1 | _ => 0 end) + total (fun _ => 2) (v_fs v) + total (fun _ => 1) (v_nb v) +
  total bmsg_cost (v_txb v) + total bsig_cost (v_na v) + total (fun q => 7 * len q) (v_out v) + 6 * len (v_net v).

(** ** A turn that makes progress *)

Fixpoint first_nonempty (l : list (list Z)) : option (nat * nat) :=
  match l with
  | [] => None
  | [] :: l' => match first_nonempty l' with Some (i, k) => Some (S i, k) | None => None end
  | q :: _ => Some (0%nat, length q)
  end.

Definition next_action (v : View) : action :=
  match v_txb v, v_na v with
  | _ :: _, _ => ControlToA
  | [], _ :: _ => PrioNotify
  | [], [] =>
      if v_start v then ControlToB
      else match v_status v with
           | Unposted => TakeReceive
           | _ =>
               match v_net v, first_nonempty (v_out v) with
               | _ :: _, _ => Receive 0
               | [], Some (i, k) => Transmit i k
               | [], None =>
                   match v_fs v, v_nb v with
                   | _ :: _, _ => ControlToB
                   | [], _ :: _ => RecvNotify
                   | [], [] => match v_phase v with Queued => TakeSend | Serving _ => PollRetransmit | _ => PollSend end
                   end
               end
           end
  end.

Lemma total_app {A} (f : A -> Z) l1 l2 : total f (l1 ++ l2) = total f l1 + total f l2.
Proof. induction l1 as [|x l1 IH]; cbn [app total]; lia. Qed.

Lemma len_app l1 l2 : len (l1 ++ l2) = len l1 + len l2.
Proof. unfold len. rewrite length_app. lia. Qed.

(** The part of the cost for lost packets does not grow while no packet gets
    lost. *)
Lemma lost_le v v' : (covered_by v -> covered_by v') -> 0 < n ->
  lost v' <= lost v.
Proof. intros H Hn. unfold lost. destruct (decide (covered_by v)) as [Hc|Hc], (decide (covered_by v')) as [Hc'|Hc']; try lia; exfalso; auto. Qed.

Lemma covered_same v v' : arrived (v_status v') = arrived (v_status v) -> (forall i, i ∈ pending v -> i ∈ pending v') ->
  covered_by v -> covered_by v'.
Proof.
  intros Ha Hp [Hr|Hf]; [left; by rewrite Ha|right]. apply Forall_forall. intros i Hi.
  destruct (proj1 (Forall_forall _ _) Hf i Hi) as [H|H]; [left; by rewrite Ha|right; auto].
Qed.

Lemma first_nonempty_spec l :
  match first_nonempty l with
  | None => concat l = []
  | Some (i, k) => exists q, l !! i = Some q /\ k = length q /\ q <> []
  end.
Proof.
  induction l as [|[|x q] l IH]; cbn; [done| |by eexists].
  destruct (first_nonempty l) as [[i k]|]; [|done]. exact IH.
Qed.

Lemma total_insert {A} (f : A -> Z) l i x y : l !! i = Some x -> total f (<[i := y]> l) = total f l - f x + f y.
Proof.
  revert i. induction l as [|z l IH]; intros [|i] Hi; try done; cbn in *; [simplify_eq; lia|]. rewrite IH by done. lia.
Qed.

Lemma elem_concat_insert (l : list (list Z)) i q q' x : l !! i = Some q -> x ∈ concat l ->
  x ∈ concat (<[i := q']> l) \/ x ∈ q.
Proof.
  revert i. induction l as [|z l IH]; intros [|i] Hi; try done; cbn in *.
  - simplify_eq. rewrite !elem_of_app. tauto.
  - rewrite !elem_of_app. intros [Hx|Hx]; [by left; left|]. destruct (IH i Hi Hx); tauto.
Qed.

Lemma elem_concat_new (l : list (list Z)) i q' x : (i < length l)%nat -> x ∈ q' -> x ∈ concat (<[i := q']> l).
Proof.
  revert i. induction l as [|z l IH]; intros [|i] Hi Hx; cbn in *; try lia; rewrite elem_of_app; [by left|right].
  apply IH; [lia|done].
Qed.

Lemma total_nonneg {A} (f : A -> Z) l : (forall x, x ∈ l -> 0 <= f x) -> 0 <= total f l.
Proof.
  induction l as [|x l IH]; intros H; cbn; [lia|]. pose proof (H x ltac:(set_solver)). pose proof (IH ltac:(set_solver)). lia.
Qed.

Lemma phase_cost_nonneg p fwd bwd st dn : legal n p fwd bwd st dn -> 0 < n -> 0 <= phase_cost p.
Proof.
  intros Hl Hn. inversion Hl as [|? ? Ha| | | | | |]; subst; cbn; try lia.
  destruct p; cbn in *; unfold in_range, len in *; lia.
Qed.

(** Reduces the claim about a step to arithmetic on what it changed. *)
Ltac spend := unfold cost; cbn [set_phase set_status add_fs set_nb set_txb set_na set_out set_vnet set_fwd
  v_phase v_status v_start v_fs v_nb v_txb v_na v_out v_net v_free] in *; rewrite ?total_app, ?len_app;
  cbn [total bmsg_cost bsig_cost phase_cost phase_seqs] in *.

Lemma progress_a v v' m l : v_txb v = m :: l -> vstep n reached ControlToA v v' -> 0 < n -> cost v' < cost v /\ v_free v' = v_free v.
Proof.
  intros Hm Hs Hn. cbn [vstep] in Hs. rewrite Hm in Hs. destruct m as [b|]; subst v'; (split; [|done]).
  - pose proof (lost_le v (set_na (set_txb v l) (v_na v ++ [b]))) as Hl. spend. rewrite Hm. cbn [total bmsg_cost].
    enough (lost (set_na (set_txb v l) (v_na v ++ [b])) <= lost v) by (destruct b; cbn [bsig_cost]; lia).
    apply Hl; [|done]. apply covered_same; [done|]. intros i. unfold pending. cbn. rewrite Hm.
    by rewrite <- app_assoc.
  - pose proof (lost_le v (set_txb v l)) as Hl. spend. rewrite Hm. cbn [total bmsg_cost].
    enough (lost (set_txb v l) <= lost v) by lia. apply Hl; [|done]. apply covered_same; [done|].
    intros i. unfold pending. cbn. by rewrite Hm.
Qed.

Lemma progress_notify v v' b na : protocol n reached v -> v_na v = b :: na -> vstep n reached PrioNotify v v' -> 0 < n ->
  cost v' < cost v /\ v_free v' = v_free v.
Proof.
  intros (Hl & _) Hna Hs Hn. cbn [vstep] in Hs. rewrite Hna in Hs. rewrite Hna in Hl. cbn in Hl.
  pose proof (legal_bwd_inv _ _ _ _ _ _ _ Hl) as Hb. destruct b as [bs|]; subst v'; (split; [|done]).
  - destruct Hb as (Hp & _). pose proof (lost_le v (set_phase (set_na v na) (Serving (block_seqs bs)))) as Hle.
    spend. rewrite Hna, Hp. cbn [total bsig_cost phase_cost].
    enough (lost (set_phase (set_na v na) (Serving (block_seqs bs))) <= lost v) by lia.
    apply Hle; [|done]. apply covered_same; [done|]. intros i. unfold pending. cbn. rewrite Hna, Hp. cbn.
    by rewrite <- app_assoc.
  - destruct Hb as (_ & Hr & _). pose proof (lost_le v (add_fs (set_phase (set_na v na) Stopped) [Conf])) as Hle.
    assert (Hpc : 0 <= phase_cost (v_phase v)).
    { by eapply phase_cost_nonneg. }
    spend. rewrite Hna. cbn [total bsig_cost phase_cost].
    enough (lost (add_fs (set_phase (set_na v na) Stopped) [Conf]) <= lost v) by lia.
    apply Hle; [|done]. intros _. by left.
Qed.

Lemma progress_b v v' : v_start v = true \/ v_fs v <> [] -> vstep n reached ControlToB v v' -> 0 < n ->
  cost v' < cost v /\ v_free v' = v_free v.
Proof.
  intros Hq Hs Hn. cbn [vstep] in Hs. destruct (v_start v) eqn:Hst.
  - subst v'. split; [|done]. pose proof (lost_le v (set_fwd v false (v_fs v) (v_nb v))) as Hle. spend. rewrite Hst.
    enough (lost (set_fwd v false (v_fs v) (v_nb v)) <= lost v) by lia. apply Hle; [|done]. by apply covered_same.
  - destruct Hq as [?|Hq]; [done|]. destruct (v_fs v) as [|x fs] eqn:Hfs; [done|]. subst v'. split; [|done].
    pose proof (lost_le v (set_fwd v false fs (v_nb v ++ [x]))) as Hle. spend. rewrite Hst, Hfs. cbn [total].
    enough (lost (set_fwd v false fs (v_nb v ++ [x])) <= lost v) by lia. apply Hle; [|done]. by apply covered_same.
Qed.

Lemma progress_take v v' : v_status v = Unposted -> vstep n reached TakeReceive v v' -> 0 < n ->
  cost v' < cost v /\ v_free v' = v_free v.
Proof.
  intros Hq Hs Hn. cbn [vstep] in Hs. rewrite Hq in Hs. subst v'. split; [|done].
  pose proof (lost_le v (set_status v (Posted ∅))) as Hle. spend. rewrite Hq.
  enough (lost (set_status v (Posted ∅)) <= lost v) by lia. apply Hle; [|done]. apply covered_same; [|done]. cbn. by rewrite Hq.
Qed.

Lemma ctls_more na txb l j : j ∈ concat (map bsig_seqs (na ++ ctls txb)) ->
  j ∈ concat (map bsig_seqs (na ++ ctls (txb ++ l))).
Proof. rewrite ctls_app, app_assoc, (map_app _ (na ++ ctls txb)), concat_app, elem_of_app. auto. Qed.

Lemma progress_receive v v' T i net : v_status v = Posted T -> v_net v = i :: net -> vstep n reached (Receive 0) v v' -> 0 < n ->
  (reached T = true -> reached (T ∪ {[i]}) = true) -> cost v' < cost v /\ v_free v' = v_free v.
Proof.
  intros Hq Hnet Hs Hn Hmono. cbn [vstep] in Hs. rewrite Hnet in Hs. cbn [lookup list_lookup] in Hs.
  destruct Hs as (rates & Hrates & Hv'). split; [|by rewrite Hv'].
  assert (Hle : lost v' <= lost v).
  { apply lost_le; [|done]. rewrite Hv', Hq. intros [Hr|Hf]; [left; cbn; rewrite Hq in Hr; auto|right].
    eapply Forall_impl; [exact Hf|]. intros j. unfold pending. cbn. rewrite Hq, Hnet. cbn [arrived delete list_delete].
    rewrite !elem_of_app, elem_of_union, elem_of_singleton, elem_of_cons.
    intros [Hj|[Hj|[Hj|[Hj|[Hj|Hj]]]]]; [eauto 10|eauto 10|right; right; left; by apply ctls_more|eauto 10..]. }
  assert (Hstop : total bmsg_cost (rates ++ (if reached (arrived (data (v_status v) i)) && negb (reached (arrived (v_status v)))
    then [Ctl Stop] else [])) <= 5).
  { rewrite total_app. by destruct Hrates as [-> | ->], (_ && _). }
  revert Hle. rewrite Hv'. intros Hle. spend. rewrite Hq, Hnet. rewrite Hq in Hstop, Hle. cbn [data delete list_delete] in *.
  change (len (i :: net)) with (len ([i] ++ net)). rewrite len_app. change (len [i]) with 1. rewrite total_app in Hstop. lia.
Qed.

Lemma progress_transmit v v' ep q : v_out v !! ep = Some q -> q <> [] -> vstep n reached (Transmit ep (length q)) v v' -> 0 < n ->
  cost v' < cost v /\ v_free v' = v_free v.
Proof.
  intros Hep Hq Hs Hn. cbn [vstep] in Hs. rewrite Hep, drop_ge, take_ge in Hs by lia. subst v'. split; [|done].
  set (v1 := set_vnet (set_out v (<[ep := []]> (v_out v))) (v_net v ++ q)).
  assert (Hle : lost v1 <= lost v).
  { apply lost_le; [|done]. apply covered_same; [done|]. intros j. unfold pending, v1. cbn. rewrite !elem_of_app.
    intros [Hj|[Hj|[Hj|Hj]]]; [auto|auto| |auto]. destruct (elem_concat_insert _ _ _ [] _ Hep Hj); auto. }
  assert (Hpos : 0 < len q) by (unfold len; destruct q; [done|cbn; lia]).
  unfold v1 in *. spend. rewrite (total_insert _ _ _ _ [] Hep). change (len []) with 0. lia.
Qed.

Lemma progress_packet v m i next : (m < length (v_out v))%nat -> 0 < n ->
  (forall j, j ∈ phase_seqs (v_phase v) -> j = i \/ j ∈ phase_seqs (match next with Some p => p | None => Waiting end)) ->
  phase_cost (match next with Some p => p | None => Waiting end) + (match next with Some _ => 8 | None => 10 end) <= phase_cost (v_phase v) ->
  cost (packet_queued v m i next) < cost v.
Proof.
  intros Hm Hn Hseqs Hcost. destruct (lookup_lt_is_Some_2 _ _ Hm) as [q Hq].
  set (v1 := packet_queued v m i next). assert (Hout : v_out v1 = <[m := q ++ [i]]> (v_out v)).
  { unfold v1, packet_queued. by destruct next; cbn; rewrite (alter_insert _ _ _ _ Hq). }
  assert (Hle : lost v1 <= lost v).
  { apply lost_le; [|done]. apply covered_same; [by unfold v1; destruct next|]. intros j. unfold pending.
    replace (phase_seqs (v_phase v1)) with (phase_seqs (match next with Some p => p | None => Waiting end))
      by (unfold v1; by destruct next).
    replace (v_na v1) with (v_na v) by (unfold v1; by destruct next).
    replace (v_txb v1) with (v_txb v) by (unfold v1; by destruct next).
    replace (v_net v1) with (v_net v) by (unfold v1; by destruct next).
    rewrite Hout, !elem_of_app.
    assert (Hin : forall x, x ∈ q ++ [i] -> x ∈ concat (<[m := q ++ [i]]> (v_out v))) by (intros; by apply elem_concat_new).
    intros [Hj|[Hj|[Hj|Hj]]]; [|auto| |auto].
    - destruct (Hseqs j Hj) as [-> |?]; [|auto]. right; right; left. apply Hin. set_solver.
    - right; right; left. destruct (elem_concat_insert _ _ _ (q ++ [i]) _ Hq Hj) as [?|?]; [done|]. apply Hin. set_solver. }
  assert (Htot : total (fun q => 7 * len q) (v_out v1) = total (fun q => 7 * len q) (v_out v) + 7).
  { rewrite Hout, (total_insert _ _ _ _ _ Hq), len_app. change (len [i]) with 1. lia. }
  unfold cost. rewrite Htot. unfold v1 in *. destruct next as [p|]; cbn [packet_queued] in *; spend; lia.
Qed.

Context (Hn : 0 < n).
Context (reached_mono : forall T i, reached T = true -> reached (T ∪ {[i]}) = true).
Context (reached_empty : reached ∅ = false).
Context (reached_full : forall T, (forall i, 0 <= i < n -> i ∈ T) -> reached T = true).

Lemma progress_finish v v' f nb : protocol n reached v -> v_nb v = f :: nb -> v_txb v = [] -> v_na v = [] -> v_net v = [] ->
  concat (v_out v) = [] -> vstep n reached RecvNotify v v' -> cost v' < cost v /\ v_free v' = v_free v.
Proof.
  intros (Hl & _) Hnb Htx Hna Hnet Hout Hs. cbn [vstep] in Hs. rewrite Hnb in Hs, Hl. cbn in Hl.
  destruct (legal_fwd_inv _ _ _ _ _ _ _ Hl) as [Hdn Hf]. destruct f.
  - destruct (reached (arrived (v_status v))) eqn:Hr.
    + subst v'. split; [|done]. assert (Hle : lost (set_nb v nb) <= lost v) by (apply lost_le; [intros _; by left|done]).
      spend. rewrite Hnb. cbn [total]. lia.
    + destruct Hs as (bs & (Hg & Hne & Hnd & Hin) & ->). split; [|done].
      destruct Hf as [(Hp & _ & _)|(_ & _ & _ & ?)]; [|done].
      assert (Hlost : lost v = 8 * n + 5).
      { unfold lost. rewrite decide_False; [done|]. intros [?|Hc]; [by rewrite Hr in *|].
        rewrite reached_full in Hr; [done|]. intros i Hi. apply Forall_forall with (x := i) in Hc; [|apply elem_of_seqZ; lia].
        destruct Hc as [?|Hc]; [done|]. unfold pending in Hc. rewrite Hp, Hna, Htx, Hnet, Hout in Hc. by apply elem_of_nil in Hc. }
      set (v1 := set_txb (set_nb v nb) (v_txb v ++ [Ctl (Req bs)])).
      assert (Hlost1 : lost v1 = 0).
      { unfold lost. rewrite decide_True; [done|]. right. apply Forall_forall. intros i Hi%elem_of_seqZ.
        destruct (decide (i ∈ arrived (v_status v))) as [|Hno]; [by left|right]. unfold pending, v1. cbn.
        rewrite Hp, Htx, Hna. cbn [app]. change (ctls [Ctl (Req bs)]) with [Req bs].
        cbn [map concat bsig_seqs phase_seqs app]. rewrite app_nil_r, !elem_of_app. left. apply Hin. split; [lia|done]. }
      assert (Hlen : len (block_seqs bs) <= n) by (apply NoDup_in_range; [done|done|]; intros i Hi%Hin; lia).
      unfold cost. rewrite Hlost, Hlost1. unfold v1. spend. rewrite Hnb. cbn [total bmsg_cost bsig_cost]. lia.
  - subst v'. split; [|done]. destruct Hf as (_ & _ & _ & Hr).
    set (v1 := set_status (set_nb v nb) (Done (arrived (v_status v)))).
    assert (Hle : lost v1 <= lost v) by (apply lost_le; [intros _; by left|done]).
    unfold v1 in *. spend. rewrite Hnb. cbn [total]. destruct (v_status v); lia.
Qed.

(** The turn that [next_action] picks brings the end closer. *)
Lemma progress_routed v v' i next : protocol n reached v -> is_done (v_status v) = false ->
  poll_next n (v_phase v) = Some (i, next) -> routed v v' i next -> cost v' < cost v.
Proof using Hn.
  intros (Hl & _) Hdn Hnext (m & Hm & ->). destruct (v_phase v) as [|j| |rest|] eqn:Hp; try done; cbn [poll_next] in Hnext.
  - assert (Hj : in_range n j) by (inversion Hl; by subst). unfold in_range in Hj. injection Hnext as <- <-.
    apply progress_packet; [done|done|..]; rewrite Hp; destruct (Z.eqb_spec j (n - 1)); cbn.
    + intros x Hx%elem_of_seqZ. left. lia.
    + intros x Hx%elem_of_seqZ. rewrite elem_of_seqZ. lia.
    + lia.
    + lia.
  - destruct rest as [|j rest]; [done|]. injection Hnext as <- <-.
    apply progress_packet; [done|done|..]; rewrite Hp; case_bool_decide as Hr; cbn.
    + subst rest. intros x Hx%list_elem_of_singleton. by left.
    + intros x [->|Hx]%elem_of_cons; auto.
    + subst rest. unfold len. cbn. lia.
    + unfold len. cbn [length]. lia.
Qed.

Lemma progress v v' : protocol n reached v -> is_done (v_status v) = false ->
  vstep n reached (next_action v) v v' ->
  cost v' < cost v \/ exists i next, poll_next n (v_phase v) = Some (i, next) /\ next_action v = poll_action (v_phase v).
Proof.
  intros Hv Hdn. pose proof Hv as (Hl & _). unfold next_action.
  destruct (v_txb v) as [|m l] eqn:Htx; [|intros Hs; left; by eapply progress_a].
  destruct (v_na v) as [|b na] eqn:Hna; [|intros Hs; left; by eapply progress_notify].
  destruct (v_start v) eqn:Hst; [intros Hs; left; apply progress_b; auto|].
  assert (Hrest : forall T, v_status v = Posted T -> vstep n reached
    match v_net v, first_nonempty (v_out v) with
    | _ :: _, _ => Receive 0
    | [], Some (i, k) => Transmit i k
    | [], None =>
        match v_fs v, v_nb v with
        | _ :: _, _ => ControlToB
        | [], _ :: _ => RecvNotify
        | [], [] => match v_phase v with Queued => TakeSend | Serving _ => PollRetransmit | _ => PollSend end
        end
    end v v' -> cost v' < cost v \/ exists i next, poll_next n (v_phase v) = Some (i, next) /\
    match v_net v, first_nonempty (v_out v) with
    | _ :: _, _ => Receive 0
    | [], Some (i, k) => Transmit i k
    | [], None =>
        match v_fs v, v_nb v with
        | _ :: _, _ => ControlToB
        | [], _ :: _ => RecvNotify
        | [], [] => match v_phase v with Queued => TakeSend | Serving _ => PollRetransmit | _ => PollSend end
        end
    end = poll_action (v_phase v)).
  2:{ destruct (v_status v) as [|T|T] eqn:Hq; [intros Hs; left; by apply progress_take|by apply (Hrest T)|done]. }
  intros T Hq. destruct (v_net v) as [|i net] eqn:Hnet; [|intros Hs; left; apply (progress_receive v v' T i net); auto].
  pose proof (first_nonempty_spec (v_out v)) as Hout. destruct (first_nonempty (v_out v)) as [[ep k]|].
  { destruct Hout as (q & Hep & -> & Hne). intros Hs. left. by apply (progress_transmit v v' ep q). }
  destruct (v_fs v) as [|x fs] eqn:Hfs; [|intros Hs; left; apply progress_b; auto; right; by rewrite Hfs].
  destruct (v_nb v) as [|x nb] eqn:Hnb; [|intros Hs; left; by apply (progress_finish v v' x nb)].
  rewrite Hq in Hl. cbn in Hl. destruct (v_phase v) as [|i| |rest|] eqn:Hp.
  - intros Hs. cbn [vstep] in Hs. rewrite Hp in Hs. subst v'. left.
    assert (Hle : lost (set_phase v (Sending 0)) <= lost v).
    { apply lost_le; [|done]. apply covered_same; [done|]. intros j. unfold pending. cbn. rewrite Hp. cbn. by rewrite Z.sub_0_r. }
    spend. rewrite Hp. cbn [phase_cost]. lia.
  - intros _. right. by eexists _, _.
  - inversion Hl; by subst.
  - intros _. right. assert (Ha : active n (Serving rest)) by (inversion Hl; by subst).
    destruct rest as [|i rest]; [by destruct Ha|]. by eexists _, _.
  - inversion Hl; by subst.
Qed.

(** ** How much there can be to do *)

Lemma len_nonneg l : 0 <= len l.
Proof. unfold len. lia. Qed.

Lemma cost_nonneg v : protocol n reached v -> 0 <= cost v.
Proof.
  intros (Hl & _). unfold cost.
  assert (0 <= phase_cost (v_phase v)) by (by eapply phase_cost_nonneg).
  assert (0 <= lost v) by (unfold lost; case_decide; lia).
  assert (0 <= total (fun _ : fsig => 2) (v_fs v)) by (apply total_nonneg; intros; lia).
  assert (0 <= total (fun _ : fsig => 1) (v_nb v)) by (apply total_nonneg; intros; lia).
  assert (Hb : forall b, 0 <= bsig_cost b) by (intros []; cbn; unfold len; lia).
  assert (0 <= total bmsg_cost (v_txb v)).
  { apply total_nonneg. intros [b|] _; cbn; [|lia]. pose proof (Hb b). lia. }
  assert (0 <= total bsig_cost (v_na v)) by (apply total_nonneg; intros; apply Hb).
  assert (0 <= total (fun q => 7 * len q) (v_out v)) by (apply total_nonneg; intros q _; unfold len; lia).
  pose proof (len_nonneg (v_net v)). destruct (v_start v), (v_status v); lia.
Qed.

Lemma length_delete_le (l : list Z) i : (length (delete i l) <= length l)%nat.
Proof.
  revert i. induction l as [|x l IH]; intros [|i]; [done|done|cbn; lia|].
  change (delete (S i) (x :: l)) with (x :: delete i l). specialize (IH i). cbn [length]. lia.
Qed.

(** Queued rate adjustments, packets and datagrams. *)
Definition rate_count (m : bmsg) : Z := match m with Rate => 1 | Ctl _ => 0 end.
Definition extra (v : View) : Z :=
  total rate_count (v_txb v) + total (fun q => 7 * len q) (v_out v) + 6 * len (v_net v).

Lemma total_ctls l : total bmsg_cost l = total bsig_cost (ctls l) + Z.of_nat (length (ctls l)) + total rate_count l.
Proof.
  induction l as [|[b|] l IH]; [done|..]; cbn [total bmsg_cost rate_count].
  - change (ctls (Ctl b :: l)) with (b :: ctls l). cbn [total length]. lia.
  - change (ctls (Rate :: l)) with (ctls l). lia.
Qed.

(** While the flow is not done there is something left to do. *)
Lemma cost_positive v : protocol n reached v -> is_done (v_status v) = false -> 0 < cost v.
Proof using Hn.
  intros (Hl & _) Hdn. unfold cost.
  assert (Hf : Z.of_nat (length (v_nb v ++ v_fs v)) <= total (fun _ => 2) (v_fs v) + total (fun _ => 1) (v_nb v)).
  { rewrite length_app. generalize (v_fs v), (v_nb v). intros fs nb.
    assert (forall l : list fsig, total (fun _ => 2) l = 2 * Z.of_nat (length l)) as -> by (induction l; cbn [total length]; lia).
    assert (forall l : list fsig, total (fun _ => 1) l = Z.of_nat (length l)) as -> by (induction l; cbn [total length]; lia).
    lia. }
  assert (Hr : 0 <= total rate_count (v_txb v)) by (apply total_nonneg; intros [] _; cbn; lia).
  pose proof (total_app bsig_cost (v_na v) (ctls (v_txb v))) as Hb. rewrite total_ctls.
  assert (0 <= phase_cost (v_phase v)) by (by eapply phase_cost_nonneg).
  assert (0 <= lost v) by (unfold lost; case_decide; lia).
  assert (0 <= total (fun q => 7 * len q) (v_out v)) by (apply total_nonneg; intros q _; unfold len; lia).
  pose proof (len_nonneg (v_net v)).
  enough (0 < phase_cost (v_phase v) + Z.of_nat (length (v_nb v ++ v_fs v)) + total bsig_cost (v_na v ++ ctls (v_txb v)))
    by (destruct (v_start v), (v_status v); lia).
  assert (Hc : forall l, 0 <= total bsig_cost l) by (intros l; apply total_nonneg; intros [] _; cbn; unfold len; lia).
  pose proof (Hc (stops (reached (arrived (v_status v))))) as Hs. rewrite Hdn in Hl. clear Hdn Hf Hr Hb.
  inversion Hl as [Hp Hx Hy|p st Ha Hp Hx Hy|st Hp Hx Hy|bs st Ha Hg Hne Hp Hx Hy|Hp Hx Hy|Hp Hx Hy|Hp Hx Hy|]; subst;
    rewrite <- ?Hp, <- ?Hx, <- ?Hy in *; cbn [total length phase_cost bsig_cost app] in *; unfold len; try lia.
  destruct (v_phase v) as [|i| |rest|]; cbn in Ha |- *; try done; unfold in_range, len in *; lia.
Qed.

Lemma cost_bound v : protocol n reached v -> cost v <= 16 * n + 20 + extra v.
Proof.
  intros (Hl & _). unfold cost, extra. rewrite total_ctls.
  assert (Hlost : lost v <= 8 * n + 5) by (unfold lost; case_decide; lia).
  assert (Hfwd : total (fun _ : fsig => 2) (v_fs v) + total (fun _ : fsig => 1) (v_nb v) <= 4).
  { assert (Hf : (length (v_nb v ++ v_fs v) <= 2)%nat) by (inversion Hl; subst; cbn; lia). revert Hf. rewrite length_app.
    generalize (v_nb v) as l2. induction (v_fs v) as [|x l1 IH]; cbn.
    - intros l2 H. assert (total (fun _ : fsig => 1) l2 = Z.of_nat (length l2)) by (clear; induction l2; cbn [total length]; lia). lia.
    - intros l2 H. destruct l1 as [|y l1]; cbn in *; [|destruct l1; cbn in *; [|lia]].
      all: assert (total (fun _ : fsig => 1) l2 = Z.of_nat (length l2)) by (clear; induction l2; cbn [total length]; lia); lia. }
  assert (Hbwd : phase_cost (v_phase v) + total bsig_cost (v_na v) + total bsig_cost (ctls (v_txb v)) <= 8 * n + 7 /\
    Z.of_nat (length (ctls (v_txb v))) <= 2).
  { enough (phase_cost (v_phase v) + total bsig_cost (v_na v ++ ctls (v_txb v)) <= 8 * n + 7 /\
      (length (v_na v ++ ctls (v_txb v)) <= 2)%nat) as [H1 H2] by (rewrite total_app in H1; rewrite length_app in H2; lia).
    assert (Hst : forall st, total bsig_cost (stops st) <= 3 /\ (length (stops st) <= 1)%nat) by (intros []; cbn; lia).
    inversion Hl as [|p st Ha|st|bs st Ha Hg Hne| | | |]; subst; cbn [total bsig_cost length phase_cost]; try (unfold len; lia);
      pose proof (Hst (reached (arrived (v_status v)))).
    - destruct (v_phase v); cbn in Ha; try done; [unfold in_range in Ha|destruct Ha as (_ & _ & Ha)]; cbn; unfold len; lia.
    - lia.
    - destruct Ha as (_ & _ & Ha). unfold len. lia. }
  destruct (v_start v), (v_status v); lia.
Qed.

Lemma extra_step a v v' : vstep n reached a v v' -> extra v' <= extra v + 7.
Proof.
  intros Hs. unfold extra.
  assert (Hpk : forall m i next, (m < length (v_out v))%nat -> v' = packet_queued v m i next ->
    total (fun q => 7 * len q) (v_out v') = total (fun q => 7 * len q) (v_out v) + 7 /\ v_txb v' = v_txb v /\ v_net v' = v_net v).
  { intros m i next Hm ->. destruct (lookup_lt_is_Some_2 _ _ Hm) as [q Hq].
    destruct next; cbn; rewrite (alter_insert _ _ _ _ Hq), (total_insert _ _ _ _ _ Hq), len_app; change (len [i]) with 1; (split; [lia|done]). }
  assert (Hpolled : forall i next, polled v v' i next -> extra v' <= extra v + 7).
  { unfold extra. intros i next [[_ ->]|(m & Hm & Hv')]; [lia|]. destruct (Hpk m i next Hm Hv') as (H1 & H2 & H3). rewrite H1, H2, H3. lia. }
  unfold extra in Hpolled. destruct a as [| | | |ep j|j|j|j| | | |]; cbn [vstep] in Hs.
  - subst v'. destruct (v_phase v); cbn; lia.
  - destruct (v_phase v); try (subst v'; lia). by apply (Hpolled _ _ Hs).
  - destruct (v_phase v) as [| | |[|i rest]|]; try (subst v'; lia). by apply (Hpolled _ _ Hs).
  - destruct (v_na v) as [|[|] na]; subst v'; cbn; lia.
  - subst v'. destruct (v_out v !! ep) as [q|] eqn:Hq; [|lia]. cbn. rewrite (total_insert _ _ _ _ _ Hq), len_app.
    unfold len. rewrite length_drop, length_take. lia.
  - subst v'. cbn. pose proof (length_delete_le (v_net v) j). unfold len. lia.
  - subst v'. cbn. rewrite len_app. destruct (v_net v !! j); cbn; unfold len; cbn; lia.
  - destruct (v_net v !! j) as [i|]; [|subst v'; lia]. destruct Hs as (rates & Hr & ->). cbn.
    pose proof (length_delete_le (v_net v) j). rewrite !total_app.
    assert (total rate_count rates <= 1) by (by destruct Hr as [-> | ->]).
    assert (total rate_count (if reached (arrived (data (v_status v) i)) && negb (reached (arrived (v_status v)))
      then [Ctl Stop] else []) = 0) by (by destruct (_ && _)). unfold len. lia.
  - subst v'. destruct (v_status v); cbn; lia.
  - destruct (v_nb v) as [|[|] nb]; [subst v'; lia| |subst v'; cbn; lia].
    destruct (reached (arrived (v_status v))); [subst v'; cbn; lia|]. destruct Hs as (bs & _ & ->). cbn. rewrite total_app. cbn. lia.
  - subst v'. destruct (v_start v); [cbn; lia|]. destruct (v_fs v); cbn; lia.
  - subst v'. destruct (v_txb v) as [|[|] l] eqn:Htx; cbn; rewrite ?Htx; cbn; lia.
Qed.
End progress.

(** ** The machines reach the end *)

Lemma vstep_free n reached a v v' : vstep n reached a v v' -> v_free v' = v_free v.
Proof.
  intros Hs. destruct a as [| | | |ep j|j|j|j| | | |]; cbn [vstep] in Hs.
  all: repeat (case_match || destruct Hs as [Hs|Hs] || destruct Hs as (? & Hs)); try by subst.
  all: try (destruct Hs as (_ & ->)); try done; by repeat case_match; subst.
Qed.

Section completion.
Context (P : Setup) (HP : good_setup P).
Notation n := (flow_packets P).
Notation reached := (flow_reached P).

Lemma flow_protocol_step a v v' : protocol n reached v -> vstep n reached a v v' -> protocol n reached v'.
Proof.
  pose proof (flow_packets_small P HP).
  by apply (protocol_step n reached ltac:(lia) (flow_reached_mono P HP) (flow_reached_full P HP)).
Qed.

Lemma vsteps_bound v acts v' : vsteps P v acts v' ->
  v_free v' = v_free v /\ extra v' <= extra v + 7 * Z.of_nat (length acts).
Proof.
  revert v. induction acts as [|a acts IH]; intros v; [intros ->; cbn; split; [done|lia]|].
  intros (v1 & Hs & [Hf He]%IH). cbn [length]. pose proof (vstep_free n reached a v v1 Hs).
  pose proof (extra_step n reached a v v1 Hs). split; [congruence|lia].
Qed.

Definition lossless (a : action) : Prop := forall k, a <> Lose k.

Lemma next_action_lossless v : lossless (next_action v).
Proof. unfold next_action. intros k. by repeat case_match. Qed.

Lemma set_ticks_same (s : Comm TreeBlockMgr) : set_ticks s (c_ticks s) = s.
Proof. by destruct s. Qed.

(** A poll that is held back at most [W] times in a row sends its packet. *)
Lemma flow_poll_paced W k f v i next : represents P (k + 1 + Z.of_nat W) f v -> 0 <= k -> protocol n reached v ->
  poll_next n (v_phase v) = Some (i, next) ->
  (exists j, (j <= W)%nat /\ poll_held P (v_phase v) (set_ticks (fl_a f) (c_ticks (fl_a f) + j)) = false) ->
  exists acts f' v', (length acts <= S W)%nat /\ Forall lossless acts /\ flow_run P f acts = Ok f' /\
    routed v v' i next /\ represents P k f' v'.
Proof.
  revert f v. induction W as [|W IH]; intros f v Hrep Hk Hv Hn (j & Hj & Hopen);
    match type of Hrep with represents _ ?r _ _ => destruct (flow_poll P HP (r - 1) f v i next)
      as (f1 & v1 & Hf1 & Hrep1 & Hpoll); [by replace (r - 1 + 1) with r by lia|lia|done|done|] end;
    assert (Hl : lossless (poll_action (v_phase v))) by (intros x; by destruct (v_phase v));
    assert (Hone : flow_run P f [poll_action (v_phase v)] = Ok f1)
      by (unfold flow_run, run_flow; cbn [foldM]; unfold flow_do in Hf1; by rewrite Hf1);
    destruct (poll_held P (v_phase v) (fl_a f)) eqn:Hheld.
  2,4: exists [poll_action (v_phase v)], f1, v1; split; [cbn; lia|]; split; [by constructor|]; split; [done|]; split; [done|];
    apply (represents_le P _ k) in Hrep1; [done|lia].
  - assert (j = 0%nat) as -> by lia. by rewrite Nat.add_0_r, set_ticks_same, Hheld in Hopen.
  - destruct Hpoll as [-> Ha]. destruct j as [|j]; [by rewrite Nat.add_0_r, set_ticks_same, Hheld in Hopen|].
    destruct (IH f1 v) as (acts & f' & v' & Hlen & Hall & Hrun & Hr & Hrep');
      [by replace (k + 1 + Z.of_nat W) with (k + 1 + Z.of_nat (S W) - 1) by lia|done|done|done| |].
    { exists j. split; [lia|]. rewrite Ha. cbn [set_ticks c_ticks] in *. rewrite <- Nat.add_succ_comm in Hopen. done. }
    exists (poll_action (v_phase v) :: acts), f', v'. split; [cbn; lia|]. split; [by constructor|]. split; [|done].
    unfold flow_run, run_flow. cbn [foldM]. unfold flow_do in Hf1. by rewrite Hf1.
Qed.

(** One turn that brings the end closer: an action, or a poll that is repeated
    until the rate lets it pass. *)
Lemma flow_turn W k f v : represents P (k + 1 + Z.of_nat W) f v -> 0 <= k -> protocol n reached v ->
  is_done (v_status v) = false -> lets_through P W (fl_a f) ->
  exists acts f' v', (length acts <= S W)%nat /\ Forall lossless acts /\ flow_run P f acts = Ok f' /\
    represents P k f' v' /\ protocol n reached v' /\ cost n reached v' < cost n reached v.
Proof.
  pose proof (flow_packets_small P HP) as Hn. intros Hrep Hk Hv Hdn Hpass.
  destruct (flow_step P HP k f v (next_action v)) as (f1 & v1 & Hf1 & Hs1 & Hrep1);
    [apply (represents_le P (k + 1 + Z.of_nat W)); [done|lia]|done|done|].
  destruct (progress n reached ltac:(lia) (flow_reached_mono P HP) (flow_reached_full P HP) v v1 Hv Hdn Hs1)
    as [Hless|(i & next & Hnext & Hpoll)].
  - exists [next_action v], f1, v1. split; [cbn; lia|]. split; [constructor; [apply next_action_lossless|done]|].
    split; [unfold flow_run, run_flow; cbn [foldM]; unfold flow_do in Hf1; by rewrite Hf1|].
    split; [done|]. split; [by eapply flow_protocol_step|done].
  - destruct (flow_poll_paced W k f v i next Hrep Hk Hv Hnext (Hpass (v_phase v)))
      as (acts & f' & v' & Hlen & Hall & Hrun & Hr & Hrep').
    exists acts, f', v'. do 4 (split; [done|]). split; [|by apply (progress_routed n reached ltac:(lia) v v' i next)].
    apply (flow_protocol_step (poll_action (v_phase v)) v v' Hv).
    destruct (v_phase v) as [|x| |[|x rest]|] eqn:Hp; try done; injection Hnext as <- <-; cbn [poll_action vstep]; rewrite Hp; by right.
Qed.

Lemma flow_run_trans f acts1 f1 acts2 f2 : flow_run P f acts1 = Ok f1 -> flow_run P f1 acts2 = Ok f2 ->
  flow_run P f (acts1 ++ acts2) = Ok f2.
Proof. intros H1 H2. unfold flow_run in *. rewrite run_flow_app, H1. exact H2. Qed.

(** Each turn costs the protocol at least one of the turns that are left, and it
    never fails. *)
Lemma flow_finishes W k c f v : represents P (k + (Z.of_nat W + 1) * Z.of_nat c) f v -> 0 <= k -> protocol n reached v ->
  cost n reached v <= Z.of_nat c ->
  (forall acts f', (length acts <= S W * c)%nat -> flow_run P f acts = Ok f' -> lets_through P W (fl_a f')) ->
  exists acts f' v' k', (length acts <= S W * c)%nat /\ Forall lossless acts /\ flow_run P f acts = Ok f' /\
    represents P k' f' v' /\ protocol n reached v' /\ is_done (v_status v') = true.
Proof.
  revert f v. induction c as [|c IH]; intros f v Hrep Hk Hv Hcost Hpass.
  all: destruct (is_done (v_status v)) eqn:Hdn; [exists [], f, v; eexists; split; [cbn; lia|split; [constructor|split; [done|split; [exact Hrep|by split]]]]|].
  - pose proof (flow_packets_small P HP). pose proof (cost_positive n reached ltac:(lia) v Hv Hdn). lia.
  - destruct (flow_turn W (k + (Z.of_nat W + 1) * Z.of_nat c) f v) as (acts1 & f1 & v1 & Hlen1 & Hall1 & Hrun1 & Hrep1 & Hv1 & Hless);
      [by replace (k + (Z.of_nat W + 1) * Z.of_nat c + 1 + Z.of_nat W) with (k + (Z.of_nat W + 1) * Z.of_nat (S c)) by lia
      |lia|done|done|by apply (Hpass [] f); [cbn; lia|]|].
    destruct (IH f1 v1 Hrep1 Hk Hv1 ltac:(lia)) as (acts & f' & v' & k' & Hlen & Hall & Hrun & Hrest).
    { intros acts f' Hlen Hrun. apply (Hpass (acts1 ++ acts)); [rewrite length_app; lia|by eapply flow_run_trans]. }
    exists (acts1 ++ acts), f', v', k'. split; [rewrite length_app; lia|]. split; [by apply Forall_app|].
    split; [by eapply flow_run_trans|done].
Qed.

(** A receive that is complete comes after a complete send. *)
Lemma done_visible k f v : represents P k f v -> protocol n reached v -> is_done (v_status v) = true ->
  exists T, c_cq (fl_a f) = su_cqa P ++ [send_completion P] /\ c_cq (fl_b f) = su_cqb P ++ [recv_completion P T] /\
    su_bound P <= flow_bytes P T /\ memory_holds P T (fl_user f).
Proof.
  intros Hrep Hv Hdn. destruct (represents_visible P k f v Hrep Hv) as (Hmem & Hvis). exists (arrived (v_status v)).
  destruct Hrep as (_ & (cb & mb & HB) & _). pose proof (rv_cq _ _ _ _ _ _ HB) as Hcq. destruct (v_status v) as [| |T]; try done.
  cbn [arrived] in *. fold (recv_completion P T) in Hcq. assert (Hne : c_cq (fl_b f) <> su_cqb P).
  { rewrite Hcq. intros H%(f_equal length). rewrite length_app in H. cbn in H. lia. }
  destruct Hvis as [[_ ?]|(Ha & Hr & _)]; [done|by auto].
Qed.

(** Without a rate limit no poll is ever held back. *)
Lemma free_lets_through k s v W : sender_at P k s v -> v_free v = true -> lets_through P W s.
Proof.
  intros (c & m & H) Hf p. destruct (sd_free _ _ _ _ _ _ H Hf) as [_ Hu]. exists 0%nat. split; [lia|].
  destruct (unthrottled_held (su_seg P) (su_clock P) (su_pa P) (set_ticks s (c_ticks s + 0)) c (sd_conn _ _ _ _ _ _ H) Hu).
  by destruct p.
Qed.

Lemma start_extra endpoints free : extra (start_view endpoints free) = 0.
Proof. unfold extra. cbn. by induction endpoints. Qed.
End completion.
