(* ===== verification/FlowTurns.v ===== *)
(** The loops of the threads. One turn of [ReceivingChannel::Run] or of
    [PriorityChannel::Run] runs several handlers, and empties several queues; it
    does what a sequence of the actions of Flow.v does. *)

From S2P Require Import Prelude State Bytes Runs BlockMgr TreeBlockMgr GradPacket LtMessage Packetizer Transfer Floats Meter Wire Queues Framing Comm PriorityChannel Sender ReceivingChannel Receiver Delivery ReliableChannel Communicator Control Flow FlowProtocol FlowState FlowSender FlowReceiver FlowRefine FlowSafety FlowProgress.

#[local] Notation cm := (Comm.cm TreeBlockMgr).
#[local] Notation Comm := (Comm.Comm TreeBlockMgr).

(** ** What a handler keeps alone *)

Section keeping_rules.
Context {B : Type} (g : Comm -> B).

Lemma cm_keeps_ret {A} (a : A) : keeps g (mret a : cm A).
Proof. apply keeps_ret. Qed.
Lemma cm_keeps_lift {A} (o : outcome A) : keeps g (lift o).
Proof. apply keeps_lift. Qed.
Lemma cm_keeps_gets {A} (f : Comm -> A) : keeps g (gets f).
Proof. apply keeps_gets. Qed.
Lemma cm_keeps_fatal {A} : keeps g (fatal : cm A).
Proof. by intros s x s'. Qed.
Lemma cm_keeps_modify f : (forall s, g (f s) = g s) -> keeps g (modify f).
Proof. apply keeps_modify. Qed.
Lemma cm_keeps_load_conn p : keeps g (load_conn p).
Proof. intros s x s'. unfold load_conn. destruct (c_heap s !! p); cbn; congruence. Qed.
Lemma cm_keeps_store_conn p c : (forall s h, g (set_heap s h) = g s) -> keeps g (store_conn p c).
Proof. intros H s x s'. unfold store_conn. destruct (bool_decide _); cbn; [intros [= <- <-]; apply H|done]. Qed.
Lemma cm_keeps_clock clock : (forall s n, g (set_ticks s n) = g s) -> keeps g (clock_now clock).
Proof. intros H s x s' [= <- <-]. apply H. Qed.
End keeping_rules.

#[local] Hint Resolve cm_keeps_ret cm_keeps_lift cm_keeps_gets cm_keeps_fatal cm_keeps_load_conn : keeps.

(** Walks through a handler. *)
Ltac keep := repeat (intros; first
  [ solve [auto with keeps nocore] | match goal with |- keeps _ (_ ≫= _) => apply keeps_bind end | apply cm_keeps_modify; reflexivity
  | apply cm_keeps_store_conn; reflexivity | apply cm_keeps_clock; reflexivity | case_match ]).

(** The queues of the threads, and the connections of the sending thread. *)
Definition recv_requests (s : Comm) := rc_rr_queue (c_recv s).
Definition recv_notifications (s : Comm) := rc_notification_queue (c_recv s).
Definition send_requests (s : Comm) := pc_sr_queue (c_prio s).
Definition prio_notifications (s : Comm) := pc_notification_queue (c_prio s).
Definition connections (s : Comm) := pc_conn_metas (c_prio s).

Section keeping.
Context (P : Setup).
Notation clock := (su_clock P).
Notation malloc := (su_malloc P).

Lemma flow_keeps_handle_datagram d : keeps recv_requests (handle_datagram clock malloc d) /\ keeps recv_notifications (handle_datagram clock malloc d).
Proof.
  unfold handle_datagram, recv_from, add_rx_meter, modify_recv, HandleReceive, update_rx_meter, RequestRateAdjustment, backlog_packet,
    receive_packet, Reliable_Enqueue. split; keep.
Qed.

Lemma flow_keeps_handle_receive_request r : keeps recv_requests (handle_receive_request r) /\ keeps recv_notifications (handle_receive_request r).
Proof. destruct r as [[]]. unfold handle_receive_request. split; keep. Qed.

Lemma flow_keeps_handle_recv_notification x : keeps recv_notifications (handle_recv_notification malloc x).
Proof. destruct x; cbn [handle_recv_notification]; unfold FinishFlow, ConfirmStop, Reliable_Enqueue, cq_Push; keep. Qed.

Lemma flow_keeps_handle_send_request r : keeps send_requests (handle_send_request r) /\
  keeps prio_notifications (handle_send_request r) /\ keeps connections (handle_send_request r).
Proof. destruct r as [[]]. unfold handle_send_request, FindConnMetaById, modify_prio. split_and!; keep. Qed.

Lemma route_endpoint_queues (p p' : PriorityChannel TreeBlockMgr) pkt : route_endpoint p pkt = Ok p' ->
  pc_notification_queue p' = pc_notification_queue p /\ pc_conn_metas p' = pc_conn_metas p.
Proof.
  unfold route_endpoint. destruct (pc_prio_mapping p !! _) as [m|]; cbn; [|done]. destruct (0 <=? m); cbn; [|done].
  destruct (pc_prio_endpoints p !! _) as [ep|]; cbn; [|done]. by intros [= <-].
Qed.

Lemma flow_keeps_RoutePacket {B} (g : Comm -> B) pkt fin :
  (forall s p, route_endpoint (c_prio s) pkt = Ok p -> g (set_prio s p) = g s) -> (forall s r, g (set_rel s r) = g s) ->
  keeps g (RoutePacket malloc pkt fin : cm unit).
Proof.
  intros Hp Hr s x s'. unfold RoutePacket. step (eq_refl : gets c_prio s = Ok (c_prio s, s)).
  destruct (route_endpoint (c_prio s) pkt) as [p| | |] eqn:E; try done.
  step (eq_refl : lift (Ok p) s = Ok (p, s)).
  rewrite <- (Hp s p E). revert s x s' Hp E. intros s x s' _ _.
  assert (Hk : keeps g (if fin then b ← lift (make_FlowFinish malloc (pkt_msg_id pkt)); Reliable_Enqueue (pkt_dst_comm_id pkt) b
    else mret tt)) by (unfold Reliable_Enqueue; keep; intros; apply cm_keeps_modify; intros; apply Hr).
  step (eq_refl : modify (fun s => set_prio s p) s = Ok (tt, set_prio s p)). apply Hk.
Qed.

Lemma flow_keeps_poll ptr : (keeps prio_notifications (poll_sending (su_seg P) clock malloc (su_uninit P) ptr) /\
  keeps connections (poll_sending (su_seg P) clock malloc (su_uninit P) ptr)) /\
  keeps prio_notifications (poll_retransmit (su_seg P) clock malloc (su_uninit P) ptr) /\
  keeps connections (poll_retransmit (su_seg P) clock malloc (su_uninit P) ptr).
Proof.
  assert (H1 : forall pkt fin, keeps prio_notifications (RoutePacket malloc pkt fin : cm unit))
    by (intros; apply flow_keeps_RoutePacket; try done; intros s p Hp; by apply (route_endpoint_queues _ _ _ Hp)).
  assert (H2 : forall pkt fin, keeps connections (RoutePacket malloc pkt fin : cm unit))
    by (intros; apply flow_keeps_RoutePacket; try done; intros s p Hp; by apply (route_endpoint_queues _ _ _ Hp)).
  unfold poll_sending, poll_retransmit, add_meter, update_tx_meter, modify_prio. split_and!; keep.
Qed.

Lemma flow_keeps_handle_prio_notification x : keeps prio_notifications (handle_prio_notification malloc x).
Proof.
  destruct x; cbn [handle_prio_notification]; unfold StopFlow, FindConnMetaById, modify_prio, reset_id_conn, Reliable_Enqueue, cq_Push; keep.
Qed.
End keeping.

(** ** Emptying a queue *)

Fixpoint times (n : nat) (m : cm unit) : cm unit := match n with O => mret tt | S n' => m;; times n' m end.

(** [pop] takes from the queue [g]. *)
Definition pops {A} (g : Comm -> list A) (pop : cm (option A)) : Prop :=
  forall s, match g s with
            | [] => pop s = Ok (None, s)
            | x :: q => exists s', pop s = Ok (Some x, s') /\ g s' = q
            end.

Lemma bind_same {A B} (m1 m2 : cm A) (f : A -> cm B) s1 s2 : m1 s1 = m2 s2 -> (m1 ≫= f) s1 = (m2 ≫= f) s2.
Proof. unfold mbind, cm_bind. by intros ->. Qed.
Lemma bind_ext {A B} (m : cm A) (f g : A -> cm B) s : (forall a s', m s = Ok (a, s') -> f a s' = g a s') ->
  (m ≫= f) s = (m ≫= g) s.
Proof. unfold mbind, cm_bind. intros H. destruct (m s) as [[a s1]| | |]; auto. Qed.

Lemma drain_times {A} (g : Comm -> list A) pop handle fuel s : pops g pop -> (forall a, keeps g (handle a)) ->
  (length (g s) < fuel)%nat -> drain fuel pop handle s = times (length (g s)) (take_one pop handle) s.
Proof.
  intros Hpop Hkeep. revert s. induction fuel as [|fuel IH]; intros s Hf; [lia|]. cbn [drain]. pose proof (Hpop s) as Hp.
  destruct (g s) as [|x q] eqn:Hg.
  - by step Hp.
  - destruct Hp as (s1 & Hp & Hq). step Hp. cbn [length times] in *.
    assert (Htake : take_one pop handle s = handle x s1) by (unfold take_one; by step Hp).
    rewrite (bind_same _ _ _ _ _ Htake). apply bind_ext. intros [] s2 Hx.
    rewrite IH; rewrite (Hkeep _ _ _ _ Hx), Hq; [done|lia].
Qed.

Lemma pops_receive_request : pops recv_requests pop_receive_request.
Proof. intros s. unfold recv_requests. destruct (rc_rr_queue (c_recv s)) eqn:E; [|eexists]; unfold pop_receive_request; step (eq_refl : gets c_recv s = Ok (c_recv s, s)); rewrite E; by try split. Qed.
Lemma pops_recv_notification : pops recv_notifications pop_recv_notification.
Proof. intros s. unfold recv_notifications. destruct (rc_notification_queue (c_recv s)) eqn:E; [|eexists]; unfold pop_recv_notification; step (eq_refl : gets c_recv s = Ok (c_recv s, s)); rewrite E; by try split. Qed.
Lemma pops_send_request : pops send_requests pop_send_request.
Proof. intros s. unfold send_requests. destruct (pc_sr_queue (c_prio s)) eqn:E; [|eexists]; unfold pop_send_request; step (eq_refl : gets c_prio s = Ok (c_prio s, s)); rewrite E; by try split. Qed.
Lemma pops_prio_notification : pops prio_notifications pop_prio_notification.
Proof. intros s. unfold prio_notifications. destruct (pc_notification_queue (c_prio s)) eqn:E; [|eexists]; unfold pop_prio_notification; step (eq_refl : gets c_prio s = Ok (c_prio s, s)); rewrite E; by try split. Qed.

(** ** Turns as sequences of actions *)

(** What the threads and the network hold. *)
Record Machines := mkMachines { ma_a : Comm; ma_b : Comm; ma_net : list (list Z) }.
Definition machines (f : Flow) : Machines := mkMachines (fl_a f) (fl_b f) (fl_net f).

Section turns.
Context (P : Setup).
Notation clock := (su_clock P).
Notation malloc := (su_malloc P).
Implicit Types f : Flow.

Lemma flow_run_app acts1 acts2 f f' : flow_run P f (acts1 ++ acts2) = Ok f' ->
  exists f1, flow_run P f acts1 = Ok f1 /\ flow_run P f1 acts2 = Ok f'.
Proof. unfold flow_run. rewrite run_flow_app. destruct (run_flow _ _ _ _ _ _ _ _ _ _ _ _ _ f acts1) as [f1| | |]; try done. by exists f1. Qed.

Lemma flow_run_cons a acts f f' : flow_run P f (a :: acts) = Ok f' ->
  exists f1, flow_do P f a = Ok f1 /\ flow_run P f1 acts = Ok f'.
Proof. unfold flow_run, run_flow, flow_do. cbn. destruct (do_action _ _ _ _ _ _ _ _ _ _ _ _ _ f a) as [f1| | |]; try done. by exists f1. Qed.

Lemma flow_run_one a f f' : flow_do P f a = Ok f' -> flow_run P f [a] = Ok f'.
Proof. unfold flow_run, run_flow, flow_do. cbn [foldM]. by intros ->. Qed.

(** The actions of one side. *)
Definition on_a (m : cm unit) f f' : Prop :=
  m (fl_a f) = Ok (tt, fl_a f') /\ fl_b f' = fl_b f /\ fl_net f' = fl_net f.
Definition on_b (m : cm unit) f f' : Prop :=
  m (fl_b f) = Ok (tt, fl_b f') /\ fl_a f' = fl_a f /\ fl_net f' = fl_net f.

Lemma step_a_on {A} (m : cm A) f f' : (r ← step_a m f; Ok (snd r)) = Ok f' ->
  exists x, m (fl_a f) = Ok (x, fl_a f') /\ fl_b f' = fl_b f /\ fl_net f' = fl_net f.
Proof. unfold step_a. destruct (m (fl_a f)) as [[x s]| | |]; try done. intros [= <-]. by exists x. Qed.
Lemma step_b_on {A} (m : cm A) f f' : (r ← step_b (su_pb P) (su_msg P) m f; Ok (snd r)) = Ok f' ->
  exists x, m (fl_b f) = Ok (x, fl_b f') /\ fl_a f' = fl_a f /\ fl_net f' = fl_net f.
Proof. unfold step_b. destruct (m (fl_b f)) as [[x s]| | |]; try done. intros [= <-]. by exists x. Qed.

Lemma on_b_times a m n f f' : (forall f f', flow_do P f a = Ok f' -> on_b m f f') ->
  flow_run P f (replicate n a) = Ok f' -> on_b (times n m) f f'.
Proof.
  intros Ha. revert f. induction n as [|n IH]; intros f; cbn [replicate times].
  - intros [= <-]. by repeat split.
  - intros (f1 & (H1 & H2 & H3)%Ha & (H4 & H5 & H6)%IH)%flow_run_cons. split; [by step H1|]. by rewrite H5, H6.
Qed.
Lemma on_a_times a m n f f' : (forall f f', flow_do P f a = Ok f' -> on_a m f f') ->
  flow_run P f (replicate n a) = Ok f' -> on_a (times n m) f f'.
Proof.
  intros Ha. revert f. induction n as [|n IH]; intros f; cbn [replicate times].
  - intros [= <-]. by repeat split.
  - intros (f1 & (H1 & H2 & H3)%Ha & (H4 & H5 & H6)%IH)%flow_run_cons. split; [by step H1|]. by rewrite H5, H6.
Qed.

(** ** The receiving thread *)

Lemma do_TakeReceive f f' : flow_do P f TakeReceive = Ok f' -> on_b (take_one pop_receive_request handle_receive_request) f f'.
Proof. intros ([] & H)%step_b_on. exact H. Qed.
Lemma do_RecvNotify f f' : flow_do P f RecvNotify = Ok f' -> on_b (take_one pop_recv_notification (handle_recv_notification malloc)) f f'.
Proof. intros ([] & H)%step_b_on. exact H. Qed.

Lemma PollReceiveRequest_times s :
  (PollReceiveRequest : cm unit) s = times (length (recv_requests s)) (take_one pop_receive_request handle_receive_request) s.
Proof.
  unfold PollReceiveRequest. step (eq_refl : gets c_recv s = Ok (c_recv s, s)).
  apply (drain_times recv_requests); [apply pops_receive_request|apply flow_keeps_handle_receive_request|unfold recv_requests; lia].
Qed.
Lemma Recv_PollNotification_times s : Recv_PollNotification malloc s =
  times (length (recv_notifications s)) (take_one pop_recv_notification (handle_recv_notification malloc)) s.
Proof.
  unfold Recv_PollNotification. step (eq_refl : gets c_recv s = Ok (c_recv s, s)).
  apply (drain_times recv_notifications); [apply pops_recv_notification|apply flow_keeps_handle_recv_notification|unfold recv_notifications; lia].
Qed.

Definition recv_actions (s : Comm) : list action :=
  replicate (length (recv_requests s)) TakeReceive ++ replicate (length (recv_notifications s)) RecvNotify.

Lemma flow_keeps_times {B} (g : Comm -> B) n m : keeps g m -> keeps g (times n m).
Proof. intros H. induction n; cbn; keep. Qed.

(** The polls behind the datagram. *)
Lemma recv_polls f f' : flow_run P f (recv_actions (fl_b f)) = Ok f' ->
  on_b (PollReceiveRequest;; Recv_PollNotification malloc) f f'.
Proof.
  intros (f1 & (H1 & H2 & H3)%(on_b_times _ _ _ _ _ do_TakeReceive) & (H4 & H5 & H6)%(on_b_times _ _ _ _ _ do_RecvNotify))%flow_run_app.
  split; [|by rewrite H5, H6]. rewrite <- PollReceiveRequest_times in H1. step H1. rewrite Recv_PollNotification_times.
  enough (recv_notifications (fl_b f1) = recv_notifications (fl_b f)) as -> by done.
  rewrite PollReceiveRequest_times in H1. eapply (flow_keeps_times recv_notifications); [|exact H1].
  unfold take_one, pop_receive_request, modify_recv. keep. apply flow_keeps_handle_receive_request.
Qed.

Lemma receiving_turn f f' k d : fl_net f !! k = Some d -> flow_run P f (Receive k :: recv_actions (fl_b f)) = Ok f' ->
  Recv_Run_once clock malloc (Datagram d) (fl_b f) = Ok (tt, fl_b f') /\ fl_a f' = fl_a f /\ fl_net f' = delete k (fl_net f).
Proof.
  intros Hk (f1 & Hf1 & Hrun)%flow_run_cons. unfold flow_do, do_action in Hf1. rewrite Hk in Hf1.
  unfold step_b in Hf1. destruct (handle_datagram clock malloc d (fl_b f)) as [[[] s]| | |] eqn:Hd; try done.
  cbn in Hf1. injection Hf1 as <-. destruct (flow_keeps_handle_datagram P d) as [Kr Kn]. apply Kr in Hd as Hr. apply Kn in Hd as Hn.
  replace (recv_actions (fl_b f)) with (recv_actions s) in Hrun by (unfold recv_actions; by rewrite Hr, Hn).
  apply recv_polls in Hrun as (H1 & H2 & H3). split; [|by rewrite H2, H3].
  unfold Recv_Run_once. change (nbytes ← recv_from d; _) with (handle_datagram clock malloc d). by step Hd.
Qed.

Lemma receiving_turn_none f f' : flow_run P f (recv_actions (fl_b f)) = Ok f' ->
  Recv_Run_once clock malloc NoDatagram (fl_b f) = Ok (tt, fl_b f') /\ fl_a f' = fl_a f /\ fl_net f' = fl_net f.
Proof. intros (H1 & H2 & H3)%recv_polls. done. Qed.

(** ** The sending thread *)

Lemma do_TakeSend f f' : flow_do P f TakeSend = Ok f' -> on_a (take_one pop_send_request handle_send_request) f f'.
Proof. intros ([] & H)%step_a_on. exact H. Qed.
Lemma do_PrioNotify f f' : flow_do P f PrioNotify = Ok f' -> on_a (take_one pop_prio_notification (handle_prio_notification malloc)) f f'.
Proof. intros ([] & H)%step_a_on. exact H. Qed.

Lemma Prio_PollNotification_times s : Prio_PollNotification malloc s =
  times (length (prio_notifications s)) (take_one pop_prio_notification (handle_prio_notification malloc)) s.
Proof.
  unfold Prio_PollNotification. step (eq_refl : gets c_prio s = Ok (c_prio s, s)).
  apply (drain_times prio_notifications); [apply pops_prio_notification|apply flow_keeps_handle_prio_notification|unfold prio_notifications; lia].
Qed.

Notation poll_rounds := (poll_rounds (su_seg P) clock malloc (su_uninit P)).

(** The only connection of the thread is that of the flow. *)
Lemma polling f f' n : connections (fl_a f) = [su_pa P] ->
  flow_run P f (concat (replicate n [PollSend; PollRetransmit])) = Ok f' ->
  (exists z, poll_rounds n (fl_a f) = Ok (z, fl_a f')) /\ fl_b f' = fl_b f /\ fl_net f' = fl_net f /\
  prio_notifications (fl_a f') = prio_notifications (fl_a f) /\ connections (fl_a f') = [su_pa P].
Proof.
  revert f. induction n as [|n IH]; intros f Hc; cbn [replicate concat app].
  { intros [= <-]. split; [by eexists|]. by repeat split. }
  intros (f1 & H1 & (f2 & H2 & Hrun)%flow_run_cons)%flow_run_cons.
  destruct (step_a_on _ _ _ H1) as (x & H1a & H1b & H1n), (step_a_on _ _ _ H2) as (y & H2a & H2b & H2n).
  destruct (flow_keeps_poll P (su_pa P)) as [[K1 K2] [K3 K4]].
  pose proof (K2 _ _ _ H1a) as E2. pose proof (K4 _ _ _ H2a) as E4. rewrite Hc in E2. rewrite E2 in E4.
  destruct (IH f2 E4 Hrun) as ((z & Hz) & Hb & Hnet & Hpn & Hcn).
  split; [|by rewrite Hb, Hnet, Hpn, (K3 _ _ _ H2a), (K1 _ _ _ H1a), H2b, H1b, H2n, H1n].
  assert (Hs : PollSendingMessages (su_seg P) clock malloc (su_uninit P) (fl_a f) = Ok (u64 (x + 0), fl_a f1)).
  { unfold PollSendingMessages. step (eq_refl : gets c_prio (fl_a f) = Ok (c_prio (fl_a f), fl_a f)).
    unfold connections in Hc. rewrite Hc. cbn [sumM]. by step H1a. }
  assert (Ht : PollRetransmitRequest (su_seg P) clock malloc (su_uninit P) (fl_a f1) = Ok (u64 (y + 0), fl_a f2)).
  { unfold PollRetransmitRequest. step (eq_refl : gets c_prio (fl_a f1) = Ok (c_prio (fl_a f1), fl_a f1)).
    unfold connections in E2. rewrite E2. cbn [sumM]. by step H2a. }
  eexists. cbn [PriorityChannel.poll_rounds]. step Hs. step Ht. by step Hz.
Qed.

(** Endpoints that are ready, each with the number of packets that the socket
    takes. *)
Definition ready_events (s : Comm) (ready : list (nat * nat)) : list (nat * list udp_event) :=
  omap (fun r => if has_endpoint s (fst r) then Some (fst r, room_for s (fst r) (snd r)) else None) ready.
Definition transmits (ready : list (nat * nat)) : list action := map (fun r => Transmit (fst r) (snd r)) ready.
Fixpoint gather_all (ps : list (Z * GradPacket)) : outcome (list (list Z)) :=
  match ps with
  | [] => Ok []
  | p :: ps' => d ← gather (su_msg P) (snd p); ds ← gather_all ps'; Ok (d :: ds)
  end.

Lemma gather_all_fold ps l : foldM (fun ds p => d ← gather (su_msg P) (snd p); Ok (ds ++ [d])) l ps =
  (ds ← gather_all ps; Ok (l ++ ds)).
Proof.
  revert l. induction ps as [|p ps IH]; intros l; cbn; [by rewrite app_nil_r|].
  destruct (gather (su_msg P) (snd p)) as [d| | |]; cbn; [|done..]. rewrite IH. destruct (gather_all ps); cbn; [|done..].
  by rewrite <- app_assoc.
Qed.

Lemma gather_all_app ps1 ps2 ds1 ds2 : gather_all ps1 = Ok ds1 -> gather_all ps2 = Ok ds2 ->
  gather_all (ps1 ++ ps2) = Ok (ds1 ++ ds2).
Proof.
  revert ds1. induction ps1 as [|p ps1 IH]; intros ds1; cbn; [by intros [= <-]|].
  destruct (gather (su_msg P) (snd p)) as [d| | |]; cbn; [|done..]. destruct (gather_all ps1) as [ds| | |]; cbn; [|done..].
  intros [= <-] H2. by rewrite (IH ds eq_refl H2).
Qed.

(** Sending on an endpoint changes nothing else. *)
Definition sent_on (ep : nat) (s s' : Comm) : Prop :=
  exists e, s' = set_prio s (set_endpoints (c_prio s) (pc_prio_mapping (c_prio s)) (<[ep := e]> (pc_prio_endpoints (c_prio s)))).

Lemma handle_epollout_sent ev s x s' : handle_epollout (su_addr_of P) ev s = Ok (x, s') -> sent_on (fst ev) s s'.
Proof.
  unfold handle_epollout. step (eq_refl : gets c_prio s = Ok (c_prio s, s)).
  destruct (pc_prio_endpoints (c_prio s) !! fst ev) as [ep|]; [|done].
  step (eq_refl : lift (deref (Some ep)) s = Ok (ep, s)).
  destruct (Udp_OnSendReady (su_addr_of P) (ue_tx_queue ep) (snd ev)) as [[[q sent] r]| | |] eqn:E; [|by unfold lift, mbind, cm_bind; cbn..].
  step (eq_refl : lift (Ok (q, sent, r)) s = Ok ((q, sent, r), s)). intros [= <- <-]. by eexists.
Qed.

Lemma sent_on_ready ep s s' ready : sent_on ep s s' -> ep ∉ map fst ready -> ready_events s' ready = ready_events s ready.
Proof.
  intros (e & ->) Hep. induction ready as [|r ready IH]; [done|]. cbn in Hep. apply not_elem_of_cons in Hep as [Hne Hep].
  unfold ready_events in *. cbn [omap list_omap]. rewrite IH by done.
  assert (Hh : forall n, has_endpoint (set_prio s (set_endpoints (c_prio s) (pc_prio_mapping (c_prio s))
    (<[ep:=e]> (pc_prio_endpoints (c_prio s))))) n = has_endpoint s n) by (intros; unfold has_endpoint; cbn; by rewrite length_insert).
  rewrite Hh. destruct (has_endpoint s (fst r)); [|done]. do 2 f_equal. unfold room_for. cbn. by rewrite list_lookup_insert_ne.
Qed.

Lemma transmitting ready f f' : NoDup (map fst ready) -> flow_run P f (transmits ready) = Ok f' ->
  exists sent ds, epoll_round (su_addr_of P) (ready_events (fl_a f) ready) (fl_a f) = Ok (sent, fl_a f') /\
    gather_all sent = Ok ds /\ fl_net f' = fl_net f ++ ds /\ fl_b f' = fl_b f /\
    send_requests (fl_a f') = send_requests (fl_a f) /\ prio_notifications (fl_a f') = prio_notifications (fl_a f) /\
    connections (fl_a f') = connections (fl_a f).
Proof.
  revert f. induction ready as [|[ep k] ready IH]; intros f; cbn [transmits map].
  { intros _ [= <-]. exists [], []. by rewrite app_nil_r. }
  intros [Hep Hnd]%NoDup_cons (f1 & H1 & Hrun)%flow_run_cons. destruct (IH f1 Hnd Hrun) as (sent & ds & Hs & Hg & Hnet & Hb & E1 & E2 & E3).
  unfold ready_events. cbn [omap list_omap fst snd]. fold (ready_events (fl_a f) ready).
  unfold flow_do, do_action in H1. cbn [fst snd] in H1. destruct (has_endpoint (fl_a f) ep); [|injection H1 as <-; exists sent, ds; by repeat split].
  unfold step_a in H1. destruct (handle_epollout _ _ _) as [[sent0 s1]| | |] eqn:E; try done. cbn in H1.
  pose proof (handle_epollout_sent _ _ _ _ E) as Hsent. rewrite gather_all_fold in H1.
  destruct (gather_all sent0) as [ds0| | |] eqn:Hg0; cbn in H1; try done. injection H1 as <-. cbn in *.
  exists (sent0 ++ sent), (ds0 ++ ds). rewrite <- (sent_on_ready _ _ _ ready Hsent Hep). 
  split; [step E; by step Hs|]. split; [by apply gather_all_app|]. rewrite Hnet, Hb, E1, E2, E3, app_assoc.
  destruct Hsent as (e & ->). by split_and!.
Qed.
Definition send_actions (s : Comm) (ready : list (nat * nat)) : list action :=
  transmits ready ++ replicate (length (send_requests s)) TakeSend ++
  concat (replicate 100 [PollSend; PollRetransmit]) ++ replicate (length (prio_notifications s)) PrioNotify.

Lemma sending_turn f f' ready : NoDup (map fst ready) -> connections (fl_a f) = [su_pa P] ->
  flow_run P f (send_actions (fl_a f) ready) = Ok f' ->
  exists sent ds, Prio_Run_once (su_seg P) clock malloc (su_uninit P) (su_addr_of P) (ready_events (fl_a f) ready) (fl_a f) =
      Ok (sent, fl_a f') /\
    gather_all sent = Ok ds /\ fl_net f' = fl_net f ++ ds /\ fl_b f' = fl_b f.
Proof.
  intros Hnd Hc (f1 & H1 & (f2 & H2 & (f3 & H3 & H4)%flow_run_app)%flow_run_app)%flow_run_app.
  destruct (transmitting ready f f1 Hnd H1) as (sent & ds & Hs & Hg & Hnet & Hb & E1 & E2 & E3). rewrite <- E1 in H2.
  apply (on_a_times _ _ _ _ _ do_TakeSend) in H2 as (H2 & Hb2 & Hn2).
  assert (Hkeep : prio_notifications (fl_a f2) = prio_notifications (fl_a f1) /\ connections (fl_a f2) = connections (fl_a f1)).
  { split; (eapply (flow_keeps_times _); [|exact H2]); unfold take_one, pop_send_request, modify_prio; keep; apply flow_keeps_handle_send_request. }
  destruct Hkeep as [K1 K2]. destruct (polling f2 f3 100) as ((z & Hz) & Hb3 & Hn3 & K3 & _); [by rewrite K2, E3|done|].
  rewrite <- E2, <- K1, <- K3 in H4. apply (on_a_times _ _ _ _ _ do_PrioNotify) in H4 as (H4 & Hb4 & Hn4).
  exists sent, ds. split; [|split; [done|by rewrite Hn4, Hn3, Hn2, Hb4, Hb3, Hb2]].
  unfold Prio_Run_once. step Hs. step (eq_refl : gets c_prio (fl_a f1) = Ok (c_prio (fl_a f1), fl_a f1)).
  assert (Hd : drain (S (length (pc_sr_queue (c_prio (fl_a f1))))) pop_send_request handle_send_request (fl_a f1) = Ok (tt, fl_a f2)).
  { rewrite (drain_times send_requests); [exact H2|apply pops_send_request|apply flow_keeps_handle_send_request|unfold send_requests; lia]. }
  step Hd. step Hz. rewrite <- Prio_PollNotification_times in H4. by step H4.
Qed.

(** No action changes the connections of the sending thread. *)
Lemma flow_keeps_connections :
  keeps connections (take_one pop_send_request handle_send_request) /\
  (forall r, keeps connections (send_control clock malloc (su_init_rate P) (su_init_window P) (su_interval P) r)) /\
  (forall r bs, keeps connections (receive_control clock malloc (su_init_rate P) (su_init_window P) (su_interval P) r bs)).
Proof.
  split_and!.
  - unfold take_one, pop_send_request, modify_prio. keep. apply flow_keeps_handle_send_request.
  - intros. unfold send_control, pop_rel_tx, route_buffer, put_endpoint, modify_rel, handle_rel_event, endpoint. keep.
  - intros. unfold receive_control, handle_rel_event, endpoint, HandleReceivedData, put_endpoint, modify_rel, Recv_Notify, Prio_Notify. keep.
Qed.

Lemma flow_keeps_connections_notification b x : bsig_notification P b x -> keeps connections (handle_prio_notification malloc x).
Proof.
  destruct b as [bs|]; cbn; [intros (buf & -> & _)|intros ->]; cbn [handle_prio_notification];
    unfold StopFlow, FindConnMetaById, modify_prio, Reliable_Enqueue, cq_Push; keep.
Qed.

Lemma connections_notify k f v f' : represents P k f v -> flow_do P f PrioNotify = Ok f' ->
  connections (fl_a f') = connections (fl_a f).
Proof.
  intros ((ca & ma & HA) & _) (H & _)%do_PrioNotify. pose proof (sd_notif _ _ _ _ _ _ HA) as Hnot.
  pose proof (pops_prio_notification (fl_a f)) as Hp. unfold prio_notifications in Hp. unfold take_one in H.
  destruct (pc_notification_queue (c_prio (fl_a f))) as [|x q]; [by rewrite (cm_bind_Ok _ _ _ _ _ Hp) in H; injection H as ->|].
  destruct Hp as (s1 & Hp & _). rewrite (cm_bind_Ok _ _ _ _ _ Hp) in H. apply Forall2_cons_inv_l in Hnot as (b & bs & Hx & _ & _).
  assert (Hk : keeps connections pop_prio_notification) by (unfold pop_prio_notification, modify_prio; keep).
  by rewrite (flow_keeps_connections_notification _ _ Hx _ _ _ H), (Hk _ _ _ Hp).
Qed.

Lemma connections_kept k f v a f' : represents P k f v -> flow_do P f a = Ok f' ->
  connections (fl_a f') = connections (fl_a f).
Proof.
  intros Hrep Hdo. destruct (flow_keeps_poll P (su_pa P)) as [[_ K1] [_ K2]]. destruct flow_keeps_connections as (K3 & K4 & K5).
  destruct a as [| | | |ep n|n|n|n| | | |].
  - apply do_TakeSend in Hdo as (H & _). exact (K3 _ _ _ H).
  - apply step_a_on in Hdo as (x & H & _). exact (K1 _ _ _ H).
  - apply step_a_on in Hdo as (x & H & _). exact (K2 _ _ _ H).
  - by eapply connections_notify.
  - assert (Hrun : flow_run P f (transmits [(ep, n)]) = Ok f') by by apply flow_run_one.
    apply transmitting in Hrun as (? & ? & _ & _ & _ & _ & _ & _ & E); [done|apply NoDup_singleton].
  - by injection Hdo as <-.
  - by injection Hdo as <-.
  - unfold flow_do, do_action, step_b in Hdo. destruct (fl_net f !! n) as [d|]; [|by injection Hdo as <-].
    destruct (handle_datagram _ _ _ _) as [[]| | |]; try done. by injection Hdo as <-.
  - by apply do_TakeReceive in Hdo as (_ & -> & _).
  - by apply do_RecvNotify in Hdo as (_ & -> & _).
  - unfold flow_do, do_action, step_a, step_b in Hdo. destruct (send_control _ _ _ _ _ _ _) as [[out s]| | |] eqn:E; try done.
    apply K4 in E. cbn [mbind outcome_bind fst snd] in Hdo. destruct out; [|by injection Hdo as <-]. cbn [mbind outcome_bind fst snd] in Hdo.
    cbn [fl_a fl_b] in Hdo; destruct (receive_control _ _ _ _ _ _ _ _) as [[]| | |]; try done. by injection Hdo as <-.
  - unfold flow_do, do_action, step_a, step_b in Hdo. destruct (send_control _ _ _ _ _ _ _) as [[out s]| | |] eqn:E; try done.
    cbn [mbind outcome_bind fst snd] in Hdo. destruct out; [|by injection Hdo as <-]. cbn [mbind outcome_bind fst snd] in Hdo.
    cbn [fl_a fl_b] in Hdo; destruct (receive_control _ _ _ _ _ _ _ _) as [[]| | |] eqn:E2; try done. apply K5 in E2. by injection Hdo as <-.
Qed.

(** ** Turns *)

(** A turn of the loop of one of the two threads that handle packets, with what
    [EpollWait] and [RecvFrom] return, or an event of the network or of the
    control connection. *)
Inductive turn :=
| PriorityTurn (ready : list (nat * nat))
| ReceivingTurn (arrival : option nat)
| Event (a : action).

Definition is_event (a : action) : bool :=
  match a with Lose _ | Duplicate _ | ControlToB | ControlToA => true | _ => false end.

(** [EpollWait] reports an endpoint once. *)
Definition turn_ok (t : turn) : Prop :=
  match t with PriorityTurn ready => NoDup (map fst ready) | ReceivingTurn _ => True | Event a => is_event a = true end.

Definition datagram_at (m : Machines) (o : option nat) : recvfrom_ret :=
  match o ≫= fun k => ma_net m !! k with Some d => Datagram d | None => NoDatagram end.

Definition do_turn (m : Machines) (t : turn) : outcome Machines :=
  match t with
  | PriorityTurn ready =>
      r ← Prio_Run_once (su_seg P) clock malloc (su_uninit P) (su_addr_of P) (ready_events (ma_a m) ready) (ma_a m);
      ds ← gather_all (fst r);
      Ok (mkMachines (snd r) (ma_b m) (ma_net m ++ ds))
  | ReceivingTurn o =>
      r ← Recv_Run_once clock malloc (datagram_at m o) (ma_b m);
      Ok (mkMachines (ma_a m) (snd r) (match o with Some k => delete k (ma_net m) | None => ma_net m end))
  | Event a => f ← flow_do P (mkFlow (ma_a m) (ma_b m) (ma_net m) []) a; Ok (machines f)
  end.

Definition run_turns : Machines -> list turn -> outcome Machines := foldM do_turn.

Definition turn_actions (m : Machines) (t : turn) : list action :=
  match t with
  | PriorityTurn ready => send_actions (ma_a m) ready
  | ReceivingTurn o => match o with Some k => [Receive k] | None => [] end ++ recv_actions (ma_b m)
  | Event a => [a]
  end.

(** The actions that a turn can take. *)
Definition turn_cost (t : turn) : Z :=
  match t with PriorityTurn ready => Z.of_nat (length ready) + 203 | ReceivingTurn _ => 4 | Event _ => 1 end.
Definition turns_cost (ts : list turn) : Z := total turn_cost ts.

(** An event does not look at the user's memory. *)
Lemma event_machines a f f' u : is_event a = true -> flow_do P f a = Ok f' ->
  exists f1, flow_do P (mkFlow (fl_a f) (fl_b f) (fl_net f) u) a = Ok f1 /\ machines f1 = machines f'.
Proof.
  intros Ha. unfold flow_do, do_action, step_a, step_b, set_net.
  destruct a; try done; cbn [fl_a fl_b fl_net]; intros H; [injection H as <-; by eexists..| |].
  - destruct (send_control _ _ _ _ _ _ _) as [[[out|] s]| | |]; cbn [mbind outcome_bind fst snd fl_a fl_b] in *; try done;
      [|injection H as <-; by eexists].
    destruct (receive_control _ _ _ _ _ _ _ _) as [[]| | |]; try done. injection H as <-. by eexists.
  - destruct (send_control _ _ _ _ _ _ _) as [[[out|] s]| | |]; cbn [mbind outcome_bind fst snd fl_a fl_b] in *; try done;
      [|injection H as <-; by eexists].
    destruct (receive_control _ _ _ _ _ _ _ _) as [[]| | |]; try done. injection H as <-. by eexists.
Qed.

(** A turn is a run of its actions. *)
Lemma turn_runs f f' t : turn_ok t -> connections (fl_a f) = [su_pa P] ->
  flow_run P f (turn_actions (machines f) t) = Ok f' -> do_turn (machines f) t = Ok (machines f').
Proof.
  destruct t as [ready|o|a]; cbn [turn_ok turn_actions machines ma_a ma_b ma_net]; intros Hok Hc Hrun.
  - destruct (sending_turn f f' ready Hok Hc Hrun) as (sent & ds & Hs & Hg & Hnet & Hb).
    unfold do_turn. cbn [machines ma_a ma_b ma_net]. rewrite Hs. cbn [mbind outcome_bind fst snd]. rewrite Hg. cbn.
    by rewrite <- Hnet, <- Hb.
  - unfold do_turn, datagram_at. destruct o as [k|]; cbn [machines ma_a ma_b ma_net option_bind mbind] in *.
    + destruct (fl_net f !! k) as [d|] eqn:Hk.
      * destruct (receiving_turn f f' k d Hk Hrun) as (H1 & H2 & H3). rewrite H1. cbn. unfold machines. by rewrite H2, H3.
      * apply flow_run_cons in Hrun as (f1 & Hf1 & Hrun). unfold flow_do, do_action in Hf1. rewrite Hk in Hf1. injection Hf1 as <-.
        destruct (receiving_turn_none f f' Hrun) as (H1 & H2 & H3). rewrite H1. cbn. unfold machines. rewrite H2, H3.
        by rewrite delete_take_drop, take_ge, drop_ge, app_nil_r by (apply lookup_ge_None in Hk; lia).
    + destruct (receiving_turn_none f f' Hrun) as (H1 & H2 & H3). rewrite H1. cbn. unfold machines. by rewrite H2, H3.
  - apply flow_run_cons in Hrun as (f1 & Hf1 & [= <-]). destruct (event_machines a f f1 [] Hok Hf1) as (f2 & Hf2 & Hm).
    unfold do_turn. cbn [machines ma_a ma_b ma_net]. rewrite Hf2. cbn. by rewrite Hm.
Qed.

(** ** Sequences of turns *)

Lemma recv_queue_length k f v : represents P k f v -> protocol (flow_packets P) (flow_reached P) v ->
  (length (recv_requests (fl_b f)) <= 1)%nat /\ (length (recv_notifications (fl_b f)) <= 2)%nat.
Proof.
  intros (_ & (cb & mb & HB) & _) (Hl & _). unfold recv_requests, recv_notifications.
  rewrite (rv_queue _ _ _ _ _ _ HB), (rv_notif _ _ _ _ _ _ HB), length_map.
  split; [by destruct (v_status v); cbn; lia|].
  enough (length (v_nb v ++ v_fs v) <= 2)%nat by (rewrite length_app in *; lia). inversion Hl; subst; cbn; lia.
Qed.

Lemma send_queue_length k f v : represents P k f v -> protocol (flow_packets P) (flow_reached P) v ->
  (length (send_requests (fl_a f)) <= 1)%nat /\ (length (prio_notifications (fl_a f)) <= 2)%nat.
Proof.
  intros ((ca & ma & HA) & _) (Hl & _). unfold send_requests, prio_notifications.
  rewrite (sd_queue _ _ _ _ _ _ HA), (Forall2_length _ _ _ (sd_notif _ _ _ _ _ _ HA)).
  split; [by destruct (v_phase v); cbn; lia|].
  enough (length (v_na v ++ ctls (v_txb v)) <= 2)%nat by (rewrite length_app in *; lia).
  assert (Hst : forall st, (length (stops st) <= 1)%nat) by (intros []; cbn; lia). 
  pose proof (Hst (flow_reached P (arrived (v_status v)))). inversion Hl; subst; cbn [length] in *; lia.
Qed.

Lemma turn_actions_length k f v t : represents P k f v -> protocol (flow_packets P) (flow_reached P) v ->
  Z.of_nat (length (turn_actions (machines f) t)) <= turn_cost t.
Proof.
  intros Hrep Hv. destruct (recv_queue_length k f v Hrep Hv), (send_queue_length k f v Hrep Hv).
  destruct t as [ready|o|a]; cbn [turn_actions turn_cost machines ma_a ma_b]; [| |by cbn].
  - unfold send_actions, transmits. rewrite !length_app, length_map, !length_replicate.
    change (length (concat (replicate 100 [PollSend; PollRetransmit]))) with 200%nat. lia.
  - unfold recv_actions. rewrite !length_app, !length_replicate. destruct o; cbn; lia.
Qed.

Lemma flow_run_connections (HP : good_setup P) acts k f v f' : represents P (k + Z.of_nat (length acts)) f v -> 0 <= k ->
  protocol (flow_packets P) (flow_reached P) v -> flow_run P f acts = Ok f' -> connections (fl_a f') = connections (fl_a f).
Proof.
  revert f v. induction acts as [|a acts IH]; intros f v Hrep Hk Hv; [by intros [= <-]|].
  intros (f1 & Hf1 & Hrun)%flow_run_cons. cbn [length] in Hrep.
  destruct (flow_step P HP (k + Z.of_nat (length acts)) f v a) as (f2 & v2 & Hf2 & Hs & Hrep2);
    [by replace (k + Z.of_nat (length acts) + 1) with (k + Z.of_nat (S (length acts))) by lia|lia|done|].
  rewrite Hf1 in Hf2. injection Hf2 as <-. rewrite (IH f1 v2); [|done..|by eapply flow_protocol_step|done].
  by eapply connections_kept.
Qed.

Lemma turns_run (HP : good_setup P) ts k f v : represents P (k + turns_cost ts) f v -> 0 <= k ->
  protocol (flow_packets P) (flow_reached P) v -> connections (fl_a f) = [su_pa P] -> Forall turn_ok ts ->
  exists acts f' v', Z.of_nat (length acts) <= turns_cost ts /\ flow_run P f acts = Ok f' /\
    run_turns (machines f) ts = Ok (machines f') /\ represents P k f' v' /\ protocol (flow_packets P) (flow_reached P) v'.
Proof.
  revert f v. induction ts as [|t ts IH]; intros f v Hrep Hk Hv Hc Hok.
  { exists [], f, v. unfold turns_cost in *. cbn in *. rewrite Z.add_0_r in Hrep. by split. }
  apply Forall_cons in Hok as [Ht Hok]. unfold turns_cost in Hrep |- *. cbn [total] in Hrep |- *. fold (turns_cost ts) in *.
  pose proof (turn_actions_length _ f v t Hrep Hv) as Hlen. set (acts := turn_actions (machines f) t) in *.
  assert (Hcost : 0 <= turns_cost ts) by (apply total_nonneg; intros [] _; cbn; lia).
  assert (Hrep1 : represents P (k + turns_cost ts + Z.of_nat (length acts)) f v) by (eapply represents_le; [exact Hrep|lia]).
  destruct (flow_run_refines P HP acts (k + turns_cost ts) f v Hrep1 ltac:(lia) Hv) as (f1 & v1 & Hrun & _ & Hrep2 & Hv1).
  pose proof (flow_run_connections HP acts _ f v f1 Hrep1 ltac:(lia) Hv Hrun) as Hc1.
  destruct (IH f1 v1 Hrep2 Hk Hv1 ltac:(congruence) Hok) as (acts2 & f2 & v2 & Hlen2 & Hrun2 & Hturns & Hrest).
  exists (acts ++ acts2), f2, v2. split; [rewrite length_app; lia|]. split.
  { unfold flow_run in *. by rewrite run_flow_app, Hrun. }
  split; [|done]. unfold run_turns. cbn [foldM]. by rewrite (turn_runs f f1 t Ht Hc Hrun).
Qed.

Lemma flow_post_connections sA sB f : flow_post P sA sB = Ok f -> connections (fl_a f) = connections sA.
Proof.
  unfold flow_post, post_flow. destruct (PostSend _ _ _ _ _ sA) as [[[] s]| | |] eqn:E; try done.
  destruct (PostRecv _ _ _ sB) as [[[] s2]| | |]; try done. intros [= <-].
  assert (Hk : keeps connections (PostSend (su_seg P) malloc (su_dst P) (su_msg P) (su_prio P)))
    by (unfold PostSend, Reliable_Enqueue, Prio_Enqueue, modify_prio; keep).
  exact (Hk _ _ _ E).
Qed.
End turns.
