(* ===== verification/FlowTheorems.v ===== *)
(** The theorems about a flow from end to end, and a concrete flow they apply
    to: two packets of 12 bytes, one of which gets lost. *)

From S2P Require Import Prelude Bytes Runs BlockMgr TreeBlockMgr GradPacket LtMessage Packetizer Transfer Floats Meter Wire Queues Framing Comm PriorityChannel Sender ReceivingChannel Receiver Delivery ReliableChannel Communicator Control Flow FlowProtocol FlowState FlowSender FlowReceiver FlowRefine FlowSafety FlowProgress FlowTurns.

(** ** A concrete flow *)

Definition example_peer (peer : Z) : ConnMeta TreeBlockMgr :=
  mkConnMeta peer 0 (S754_infinity false) ∅ ∅ ∅ (RateMeter_new 100 0 0) (RateMeter_new 100 0 0) ∅ ∅ [] ∅.
Definition example_side (self peer : Z) (prio : PriorityChannel TreeBlockMgr) (recv : ReceivingChannel) : Comm TreeBlockMgr :=
  mkComm self {[peer := Some 1]} {[1 := example_peer peer]} 2 [] prio recv
    (mkReliableChannel {[peer := Some (RdEndpoint_new 1)]} [] []) [] 0.
Definition example_a : Comm TreeBlockMgr :=
  example_side 1 2 example_prio (mkReceivingChannel [] 0 [] [] example_meter).
Definition example_b : Comm TreeBlockMgr :=
  example_side 2 1 (PriorityChannel_new example_meter) (mkReceivingChannel (replicate 32 0) 8192 [] [] example_meter).

Definition example_flow : Setup :=
  {| su_clock := example_clock; su_malloc := example_malloc; su_uninit := example_packet;
     su_init_rate := S754_infinity false; su_init_window := 0; su_interval := 100; su_addr_of := fun x => Ok x;
     su_seg := 32; su_src := 1; su_dst := 2; su_pa := 1; su_pb := 1; su_msg := example_sent 24; su_prio := example_tos;
     su_rx := 8192; su_recv := mkLtMessage 7 0 (replicate 24 0) 24; su_loss := S754_zero false; su_bound := 24;
     su_cqa := []; su_cqb := [] |}.

Lemma example_flow_good : good_setup example_flow.
Proof.
  constructor; try by (cbn; lia). 
  - exact example_malloc_length.
  - by exists 2.
  - by vm_compute.
Qed.

Lemma example_a_idle : idle_sender example_flow 1000 true example_a (example_peer 2) ∅.
Proof.
  constructor; try done.
  - exists 0. by split.
  - intros i _. exists 1. split; [done|]. exists 0. split; [reflexivity|]. cbn. lia.
  - by repeat constructor.
Qed.

Lemma example_b_idle : idle_receiver example_flow 1000 example_b (example_peer 1) ∅.
Proof. by constructor. Qed.

(** The datagram with packet 0 gets lost; the receiver asks for it and gets it. *)
Definition example_turns : list action :=
  [TakeSend; PollSend; PollSend; ControlToB; ControlToB; TakeReceive; Transmit 0 3; Lose 0; Receive 0; RecvNotify;
   ControlToA; ControlToA; PrioNotify; PollRetransmit; Transmit 0 1; Receive 0; ControlToB; ControlToA; ControlToA;
   RecvNotify; PrioNotify; ControlToB; RecvNotify].

Example example_flow_runs :
  match (f0 ← flow_post example_flow example_a example_b; flow_run example_flow f0 example_turns) with
  | Ok f => (c_cq (fl_a f), c_cq (fl_b f), fl_user f)
  | _ => ([], [], [])
  end = ([mkCompletion 7 CompSend 2 0], [mkCompletion 7 CompRecv 1 24], corrupt 12 8212 (example_data 24)).
Proof. vm_compute. reflexivity. Qed.

(** ** Properties *)

(** C3: the handlers refine the protocol. From two idle communicators on whose
    connection the users post a send and a receive request, every sequence of
    turns of the threads and of losses, repetitions and deliveries of datagrams
    runs without a failure, and it is a run of the protocol: the queues, the
    tables of the connections, the packets and the datagrams are those of the
    protocol's state after the same steps. *)
Theorem flow_refines_protocol P sA sB cA cB mA mB K free acts
    (HP : good_setup P) (HA : idle_sender P K free sA cA mA) (HB : idle_receiver P K sB cB mB)
    (Hroom : Z.of_nat (length acts) <= K) :
  exists f v, (f0 ← flow_post P sA sB; flow_run P f0 acts) = Ok f /\
    vsteps P (start_view (length (pc_prio_endpoints (c_prio sA))) free) acts v /\
    represents P (K - Z.of_nat (length acts)) f v /\ protocol (flow_packets P) (flow_reached P) v.
Proof.
  by apply (flow_post_run P HP K free sA sB cA cB mA mB).
Qed.

Lemma flow_refines_protocol_witness : exists f v,
  (f0 ← flow_post example_flow example_a example_b; flow_run example_flow f0 example_turns) = Ok f /\
  vsteps example_flow (start_view 1 true) example_turns v /\ represents example_flow 977 f v.
Proof.
  destruct (flow_refines_protocol example_flow example_a example_b (example_peer 2) (example_peer 1) ∅ ∅ 1000 true example_turns
    example_flow_good example_a_idle example_b_idle ltac:(cbn; lia)) as (f & v & H1 & H2 & H3 & _).
  exists f, v. split; [exact H1|split; [exact H2|exact H3]].
Defined.

(** C1: a flow is safe. The loss bound is positive and at most the size of the
    message ([gs_bound]). Whatever the threads and the network do after the
    requests are posted, no handler fails; the sender has reported nothing, or
    one completion, and then the packets that arrived reach the loss bound; the
    receiver has reported nothing, or, after the sender, one completion with the
    number of bytes that arrived. The user's memory holds the packets that
    arrived, and nothing else, as the receiving channel leaves them: not the
    bytes that were sent, since the first eight bytes of every packet are
    overwritten with the address of its payload (receiving_channel.cc:65;
    [corrupt]). When the loss bound is the whole size and the receive is
    complete, all packets are there, corrupted so. *)
Theorem flow_safe P sA sB cA cB mA mB K free acts
    (HP : good_setup P) (HA : idle_sender P K free sA cA mA) (HB : idle_receiver P K sB cB mB)
    (Hroom : Z.of_nat (length acts) <= K) :
  exists f T, (f0 ← flow_post P sA sB; flow_run P f0 acts) = Ok f /\ visible P f T /\
    (c_cq (fl_b f) <> su_cqb P -> su_bound P = lt_size (su_msg P) ->
     fl_user f = corrupt (su_seg P - 20) (su_rx P + 20) (lt_mem (su_msg P))).
Proof.
  destruct (flow_post_run P HP K free sA sB cA cB mA mB acts HA HB Hroom) as (f & v & Hrun & _ & Hf & Hv).
  pose proof (represents_visible P _ f v Hf Hv) as Hvis. exists f, (arrived (v_status v)).
  split; [done|]. split; [done|]. intros Hcq Hb. destruct Hvis as (Hmem & [(_ & ?)|(_ & Hr & _)]); [done|].
  apply (memory_full P _ _ HP Hmem). pose proof (gs_seg P HP) as Hseg.
  pose proof (received_bytes_le (su_seg P) ltac:(lia) (su_msg P) (gs_size P HP) (gs_data P HP) (arrived (v_status v))) as Hle.
  unfold flow_bytes in *. lia.
Qed.

Lemma flow_safe_witness : exists f T,
  (f0 ← flow_post example_flow example_a example_b; flow_run example_flow f0 example_turns) = Ok f /\
  visible example_flow f T.
Proof.
  destruct (flow_safe example_flow example_a example_b (example_peer 2) (example_peer 1) ∅ ∅ 1000 true example_turns
    example_flow_good example_a_idle example_b_idle ltac:(cbn; lia)) as (f & T & H1 & H2 & _).
  exists f, T. split; [exact H1|exact H2].
Defined.

(** C2: a flow can always be completed. The loss bound is positive and at most
    the size of the message ([gs_bound]; for a loss ratio of 0 it is at most the
    size only when the size is a multiple of 4, see
    [Delivery.unaligned_never_finishes]), and the rate limit holds at most [W]
    polls of the sender's connection in a row back ([lets_through]: of the next
    [W + 1] readings of the clock one lets the packet pass). Then, from two idle
    communicators on whose connection the users post a send and a receive
    request, and after whatever the threads and the network did since (losses
    and repetitions of datagrams included), a bounded number of further turns
    without a loss completes both sides: [W + 1] times at most 16 for each
    packet of the message, 7 for each earlier step, and 20. *)
Theorem flow_completes P sA sB cA cB mA mB K free acts W
    (HP : good_setup P) (HA : idle_sender P K free sA cA mA) (HB : idle_receiver P K sB cB mB)
    (Hroom : Z.of_nat (length acts) + (Z.of_nat W + 1) * (16 * flow_packets P + 20 + 7 * Z.of_nat (length acts)) <= K)
    (Hrate : forall acts0 f0, Z.of_nat (length acts0) <= K ->
       (f ← flow_post P sA sB; flow_run P f acts0) = Ok f0 -> lets_through P W (fl_a f0)) :
  exists acts' f T,
    Z.of_nat (length acts') <= (Z.of_nat W + 1) * (16 * flow_packets P + 20 + 7 * Z.of_nat (length acts)) /\
    Forall lossless acts' /\
    (f0 ← flow_post P sA sB; flow_run P f0 (acts ++ acts')) = Ok f /\
    c_cq (fl_a f) = su_cqa P ++ [send_completion P] /\ c_cq (fl_b f) = su_cqb P ++ [recv_completion P T] /\
    su_bound P <= flow_bytes P T /\ memory_holds P T (fl_user f).
Proof.
  pose proof (flow_packets_small P HP) as Hn.
  destruct (flow_post_run P HP K free sA sB cA cB mA mB acts HA HB ltac:(nia)) as (f1 & v1 & Hrun1 & Hsteps & Hrep & Hv).
  destruct (vsteps_bound P _ _ _ Hsteps) as [_ Hextra]. rewrite start_extra in Hextra.
  pose proof (cost_bound (flow_packets P) (flow_reached P) ltac:(lia) v1 Hv) as Hcost.
  set (c := Z.to_nat (16 * flow_packets P + 20 + 7 * Z.of_nat (length acts))).
  assert (Hc : Z.of_nat c = 16 * flow_packets P + 20 + 7 * Z.of_nat (length acts)) by (unfold c; lia).
  rewrite <- Hc in Hroom |- *.
  assert (Hall : forall acts0 f0, flow_run P f1 acts0 = Ok f0 ->
    (f ← flow_post P sA sB; flow_run P f (acts ++ acts0)) = Ok f0).
  { intros acts0 f0 H0. destruct (flow_post P sA sB) as [fp| | |]; try done. cbn [mbind outcome_bind] in *.
    by eapply flow_run_trans. }
  destruct (flow_finishes P HP W (K - Z.of_nat (length acts) - (Z.of_nat W + 1) * Z.of_nat c) c f1 v1) as
    (acts' & f & v & k & Hlen & Hless & Hrun & Hend & Hv' & Hdn);
    [by replace (_ - _ + _) with (K - Z.of_nat (length acts)) by lia|lia|done|lia| |].
  { intros acts0 f0 Hl H0. apply (Hrate (acts ++ acts0)); [rewrite length_app; nia|by apply Hall]. }
  destruct (done_visible P k f v Hend Hv' Hdn) as (T & HT). exists acts', f, T. split; [nia|].
  split; [done|]. split; [by apply Hall|done].
Qed.

Lemma flow_completes_witness : exists acts' f T,
  (f0 ← flow_post example_flow example_a example_b;
   flow_run example_flow f0 ([TakeSend; PollSend; PollSend; Transmit 0 2; Lose 0; Lose 0] ++ acts')) = Ok f /\
  c_cq (fl_a f) = [send_completion example_flow] /\ c_cq (fl_b f) = [recv_completion example_flow T].
Proof.
  destruct (flow_completes example_flow example_a example_b (example_peer 2) (example_peer 1) ∅ ∅ 1000 true
    [TakeSend; PollSend; PollSend; Transmit 0 2; Lose 0; Lose 0] 0
    example_flow_good example_a_idle example_b_idle ltac:(by vm_compute)) as (acts' & f & T & _ & _ & H1 & H2 & H3 & _).
  - intros acts0 f0 Hl Hrun.
    destruct (flow_post_run example_flow example_flow_good 1000 true example_a example_b (example_peer 2) (example_peer 1) ∅ ∅ acts0
      example_a_idle example_b_idle Hl) as (f & v & Hrun' & Hsteps & (Hs & _) & _).
    rewrite Hrun in Hrun'. injection Hrun' as <-.
    apply (free_lets_through example_flow _ _ v 0 Hs). by apply (vsteps_bound example_flow _ _ _ Hsteps).
  - exists acts', f, T. split; [exact H1|split; [exact H2|exact H3]].
Defined.

(** C4: the loops of the threads refine the handlers. The bodies of the loops of
    the sending and of the receiving thread, in every interleaving with each
    other, with the control connection and with a network that loses and repeats
    datagrams, run without a failure: sockets that are ready, a round of polling,
    a datagram or none, and queues that are emptied. What they reach is reached by
    a sequence of single handlers, of bounded length, so that both users see what
    [flow_safe] says. *)
Theorem threads_refine_handlers P sA sB cA cB mA mB K free ts
    (HP : good_setup P) (HA : idle_sender P K free sA cA mA) (HB : idle_receiver P K sB cB mB)
    (Honly : pc_conn_metas (c_prio sA) = [su_pa P]) (Hok : Forall turn_ok ts) (Hroom : turns_cost ts <= K) :
  exists acts f T, (f0 ← flow_post P sA sB; run_turns P (machines f0) ts) = Ok (machines f) /\
    (f0 ← flow_post P sA sB; flow_run P f0 acts) = Ok f /\ Z.of_nat (length acts) <= turns_cost ts /\ visible P f T.
Proof.
  destruct (flow_post_ok P HP K free sA sB cA cB mA mB HA HB) as (f0 & Hpost & Hrep).
  pose proof (flow_post_connections P sA sB f0 Hpost) as Hc. rewrite Hpost. cbn [mbind outcome_bind].
  destruct (turns_run P HP ts (K - turns_cost ts) f0 (start_view (length (pc_prio_endpoints (c_prio sA))) free))
    as (acts & f & v & Hlen & Hrun & Hturns & Hf & Hv);
    [by replace (K - turns_cost ts + turns_cost ts) with K by lia|lia|by apply protocol_start|by rewrite Hc|done|].
  exists acts, f, (arrived (v_status v)). split; [done|]. split; [done|]. split; [done|]. by eapply represents_visible.
Qed.

Lemma threads_refine_handlers_witness : exists acts f T,
  (f0 ← flow_post example_flow example_a example_b;
   run_turns example_flow (machines f0) [PriorityTurn []; Event ControlToB; PriorityTurn [(0%nat, 2%nat)];
     Event (Lose 0); ReceivingTurn (Some 0%nat); Event ControlToB; ReceivingTurn None]) = Ok (machines f) /\
  (f0 ← flow_post example_flow example_a example_b; flow_run example_flow f0 acts) = Ok f /\ visible example_flow f T.
Proof.
  destruct (threads_refine_handlers example_flow example_a example_b (example_peer 2) (example_peer 1) ∅ ∅ 1000 true
    [PriorityTurn []; Event ControlToB; PriorityTurn [(0%nat, 2%nat)]; Event (Lose 0); ReceivingTurn (Some 0%nat);
     Event ControlToB; ReceivingTurn None]
    example_flow_good example_a_idle example_b_idle eq_refl) as (acts & f & T & H1 & H2 & _ & H3).
  - repeat (apply Forall_cons; split); try done; apply NoDup_nil_2 || apply NoDup_singleton.
  - by vm_compute.
  - exists acts, f, T. split; [exact H1|split; [exact H2|exact H3]].
Defined.
