(* ===== verification/PsMessage.v ===== *)
(** Messages of the parameter server: src/include/ps/internal/message.h, their
    raw form src/src/meta.h, and [PackMeta] / [UnpackMeta] of src/src/van.cc.
    Strings are byte lists; struct layouts are those of x86-64. *)

From S2P Require Import Prelude Bytes Memory.

(** ** message.h *)

Inductive DataType :=
| CHAR | INT8 | INT16 | INT32 | INT64 | UINT8 | UINT16 | UINT32 | UINT64 | FLOAT | DOUBLE | OTHER.

Definition DataType_code (d : DataType) : Z :=
  match d with
  | CHAR => 0 | INT8 => 1 | INT16 => 2 | INT32 => 3 | INT64 => 4 | UINT8 => 5 | UINT16 => 6
  | UINT32 => 7 | UINT64 => 8 | FLOAT => 9 | DOUBLE => 10 | OTHER => 11
  end.
Definition DataTypes : list DataType :=
  [CHAR; INT8; INT16; INT32; INT64; UINT8; UINT16; UINT32; UINT64; FLOAT; DOUBLE; OTHER].

(** [std::numeric_limits<int>::max()] *)
Definition kEmpty : Z := 2 ^ 31 - 1.

Inductive Role := SERVER | WORKER | SCHEDULER.
#[global] Instance Role_eq_dec : EqDecision Role.
Proof. solve_decision. Defined.

Definition Role_code (r : Role) : Z := match r with SERVER => 0 | WORKER => 1 | SCHEDULER => 2 end.
Definition Roles : list Role := [SERVER; WORKER; SCHEDULER].

Record Node := mkNode {
  n_role : Role;
  n_id : Z;
  n_customer_id : Z;
  n_hostname : list Z;
  n_port : Z;
  n_is_recovery : bool }.

(** The default constructor leaves the role and the customer id as they were. *)
Definition Node_new (role : Role) (customer_id : Z) : Node :=
  mkNode role kEmpty customer_id [] kEmpty false.

Inductive Command := EMPTY | TERMINATE | ADD_NODE | BARRIER | ACK | HEARTBEAT.
#[global] Instance Command_eq_dec : EqDecision Command.
Proof. solve_decision. Defined.

Definition Command_code (c : Command) : Z :=
  match c with
  | EMPTY => 0 | TERMINATE => 1 | ADD_NODE => 2 | BARRIER => 3 | ACK => 4 | HEARTBEAT => 5
  end.
Definition Commands : list Command := [EMPTY; TERMINATE; ADD_NODE; BARRIER; ACK; HEARTBEAT].

Record Control := mkControl {
  ct_cmd : Command;
  ct_node : list Node;
  ct_barrier_group : Z;
  ct_msg_sig : Z }.                (** uint64_t *)

Definition Control_empty (c : Control) : bool := bool_decide (ct_cmd c = EMPTY).

(** [Control()]; the fields that it does not set are given. *)
Definition Control_new (barrier_group msg_sig : Z) : Control := mkControl EMPTY [] barrier_group msg_sig.

Record Meta := mkMeta {
  mt_head : Z;
  mt_app_id : Z;
  mt_customer_id : Z;
  mt_timestamp : Z;
  mt_sender : Z;
  mt_recver : Z;
  mt_request : bool;
  mt_push : bool;
  mt_simple_app : bool;
  mt_body : list Z;
  mt_data_type : list DataType;
  mt_control : Control;
  mt_data_size : Z;
  mt_key : Z;                      (** uint64_t *)
  mt_addr : Z;                     (** uint64_t *)
  mt_val_len : Z;
  mt_option : Z }.

(** [Meta()]; the fields that it does not set are given. *)
Definition Meta_new (barrier_group msg_sig key val_len option : Z) : Meta :=
  mkMeta kEmpty kEmpty kEmpty kEmpty kEmpty kEmpty false false false [] []
    (Control_new barrier_group msg_sig) 0 key 0 val_len option.

(** Every element of [data] is the contents of an [SArray<char>]. *)
Record Message := mkMessage { ms_meta : Meta; ms_data : list (list Z) }.

(** [meta.data_size += bytes.size()] is computed in [size_t] and narrowed. *)
Definition AddData (d : DataType) (bytes : list Z) (m : Message) : outcome Message :=
  let t := ms_meta m in
  CHECK (Nat.eqb (length (ms_data m)) (length (mt_data_type t)));;
  Ok (mkMessage
        (mkMeta (mt_head t) (mt_app_id t) (mt_customer_id t) (mt_timestamp t) (mt_sender t) (mt_recver t)
           (mt_request t) (mt_push t) (mt_simple_app t) (mt_body t) (mt_data_type t ++ [d]) (mt_control t)
           (s32 (mt_data_size t + Z.of_nat (length bytes))) (mt_key t) (mt_addr t) (mt_val_len t) (mt_option t))
        (ms_data m ++ [bytes])).

(** The value of an enum, undefined for a code that it does not have. *)
Definition enum_of {E} (code : E -> Z) (all : list E) (v : Z) : outcome E :=
  deref (find (fun e => code e =? v) all).

(** ** meta.h *)

(** Offsets of the fields of [RawMeta], and its size. *)
Definition raw_head : Z := 0.
Definition raw_body_size : Z := 4.
Definition raw_cmd : Z := 8.
Definition raw_node_size : Z := 12.
Definition raw_barrier_group : Z := 16.
Definition raw_msg_sig : Z := 24.
Definition raw_request : Z := 32.
Definition raw_app_id : Z := 36.
Definition raw_timestamp : Z := 40.
Definition raw_data_type_size : Z := 44.
Definition raw_customer_id : Z := 48.
Definition raw_push : Z := 52.
Definition raw_simple_app : Z := 53.
Definition raw_data_size : Z := 56.
Definition raw_key : Z := 64.
Definition raw_addr : Z := 72.
Definition raw_val_len : Z := 80.
Definition raw_option : Z := 84.
Definition sizeof_RawMeta : Z := 88.

(** The same for [RawNode]. *)
Definition raw_role : Z := 0.
Definition raw_id : Z := 4.
Definition raw_hostname : Z := 8.
Definition raw_port : Z := 72.
Definition raw_is_recovery : Z := 76.
Definition raw_node_customer_id : Z := 80.
Definition sizeof_RawNode : Z := 84.

(** ** PackMeta *)

Definition body_size (m : Meta) : Z := Z.of_nat (length (mt_body m)).
Definition num_data_types (m : Meta) : Z := Z.of_nat (length (mt_data_type m)).
Definition num_nodes (m : Meta) : Z := Z.of_nat (length (ct_node (mt_control m))).

Definition GetPackMetaLen (m : Meta) : Z :=
  s32 (sizeof_RawMeta + body_size m + num_data_types m * 4 + num_nodes m * sizeof_RawNode).

(** The stores of one node at [off]. *)
Definition node_writes (off : Z) (n : Node) : list write :=
  [ w_i32 (off + raw_id) (n_id n);
    w_i32 (off + raw_role) (Role_code (n_role n));
    w_i32 (off + raw_port) (n_port n);
    w_zero (off + raw_hostname) 64;
    (off + raw_hostname, n_hostname n);
    w_bool (off + raw_is_recovery) (n_is_recovery n);
    w_i32 (off + raw_node_customer_id) (n_customer_id n) ].

Fixpoint nodes_writes (off : Z) (ns : list Node) : list write :=
  match ns with
  | [] => []
  | n :: ns' => node_writes off n ++ nodes_writes (off + sizeof_RawNode) ns'
  end.

Fixpoint data_type_writes (off : Z) (ds : list DataType) : list write :=
  match ds with
  | [] => []
  | d :: ds' => w_i32 off (DataType_code d) :: data_type_writes (off + 4) ds'
  end.

Definition control_writes (raw_node : Z) (c : Control) : list write :=
  if Control_empty c then [w_i32 raw_cmd (Command_code EMPTY)]
  else
    [w_i32 raw_cmd (Command_code (ct_cmd c))] ++
    (if decide (ct_cmd c = BARRIER) then [w_i32 raw_barrier_group (ct_barrier_group c)]
     else if decide (ct_cmd c = ACK) then [w_u64 raw_msg_sig (ct_msg_sig c)]
     else []) ++
    [w_i32 raw_node_size (s32 (Z.of_nat (length (ct_node c))))] ++
    nodes_writes raw_node (ct_node c).

(** The stores of [PackMeta], in the order of the source. *)
Definition pack_writes (m : Meta) : list write :=
  let raw_body := sizeof_RawMeta in
  let raw_data_type := raw_body + body_size m in
  let raw_node := raw_data_type + 4 * num_data_types m in
  [ w_zero 0 (Z.to_nat sizeof_RawMeta);
    w_i32 raw_head (mt_head m);
    w_i32 raw_app_id (mt_app_id m);
    w_i32 raw_timestamp (mt_timestamp m) ] ++
  (if body_size m =? 0 then [] else [(raw_body, mt_body m); w_i32 raw_body_size (s32 (body_size m))]) ++
  [ w_bool raw_push (mt_push m);
    w_bool raw_request (mt_request m);
    w_bool raw_simple_app (mt_simple_app m);
    w_i32 raw_customer_id (mt_customer_id m) ] ++
  data_type_writes raw_data_type (mt_data_type m) ++
  [ w_i32 raw_data_type_size (s32 (num_data_types m)) ] ++
  control_writes raw_node (mt_control m) ++
  [ w_i32 raw_data_size (mt_data_size m);
    w_u64 raw_key (mt_key m);
    w_u64 raw_addr (mt_addr m);
    w_i32 raw_val_len (mt_val_len m);
    w_i32 raw_option (mt_option m) ].

(** [buf] is the memory at [*meta_buf]: the caller's, or a new block of
    [GetPackMetaLen + 1] bytes with unknown contents. *)
Definition PackMeta (m : Meta) (buf : list Z) : outcome (list Z * Z) :=
  mem ← mem_stores buf (pack_writes m);
  Ok (mem, GetPackMetaLen m).

(** ** UnpackMeta *)

Fixpoint unpack_data_types (k : nat) (mem : list Z) (off : Z) : outcome (list DataType) :=
  match k with
  | O => Ok []
  | S k' =>
      v ← load_i32 mem off;
      d ← enum_of DataType_code DataTypes v;
      ds ← unpack_data_types k' mem (off + 4);
      Ok (d :: ds)
  end.

Definition unpack_node (mem : list Z) (off : Z) : outcome Node :=
  r ← load_i32 mem (off + raw_role);
  role ← enum_of Role_code Roles r;
  port ← load_i32 mem (off + raw_port);
  hostname ← load_string mem (off + raw_hostname);
  id ← load_i32 mem (off + raw_id);
  is_recovery ← load_bool mem (off + raw_is_recovery);
  customer_id ← load_i32 mem (off + raw_node_customer_id);
  Ok (mkNode role id customer_id hostname port is_recovery).

Fixpoint unpack_nodes (k : nat) (mem : list Z) (off : Z) : outcome (list Node) :=
  match k with
  | O => Ok []
  | S k' =>
      n ← unpack_node mem off;
      ns ← unpack_nodes k' mem (off + sizeof_RawNode);
      Ok (n :: ns)
  end.

(** [meta] is the object to be filled; its nodes are kept, and the sender and
    receiver are not part of the raw form. A negative size throws. *)
Definition UnpackMeta (mem : list Z) (meta : Meta) : outcome Meta :=
  body_size ← load_i32 mem raw_body_size;
  data_type_size ← load_i32 mem raw_data_type_size;
  let raw_body := sizeof_RawMeta in
  let raw_data_type := raw_body + body_size in
  let raw_node := raw_data_type + 4 * data_type_size in
  head ← load_i32 mem raw_head;
  app_id ← load_i32 mem raw_app_id;
  timestamp ← load_i32 mem raw_timestamp;
  request ← load_bool mem raw_request;
  push ← load_bool mem raw_push;
  simple_app ← load_bool mem raw_simple_app;
  CHECK (0 <=? body_size);;
  body ← mem_load mem raw_body body_size;
  customer_id ← load_i32 mem raw_customer_id;
  CHECK (0 <=? data_type_size);;
  data_type ← unpack_data_types (Z.to_nat data_type_size) mem raw_data_type;
  c ← load_i32 mem raw_cmd;
  cmd ← enum_of Command_code Commands c;
  barrier_group ← load_i32 mem raw_barrier_group;
  msg_sig ← load_u64 mem raw_msg_sig;
  node_size ← load_i32 mem raw_node_size;
  nodes ← unpack_nodes (Z.to_nat node_size) mem raw_node;
  data_size ← load_i32 mem raw_data_size;
  key ← load_u64 mem raw_key;
  addr ← load_u64 mem raw_addr;
  val_len ← load_i32 mem raw_val_len;
  option ← load_i32 mem raw_option;
  Ok (mkMeta head app_id customer_id timestamp (mt_sender meta) (mt_recver meta) request push simple_app
        body data_type (mkControl cmd (ct_node (mt_control meta) ++ nodes) barrier_group msg_sig)
        data_size key addr val_len option).

(** ** The round trip *)

Definition is_int (v : Z) : Prop := - 2 ^ 31 <= v < 2 ^ 31.
Definition is_u64 (v : Z) : Prop := 0 <= v < 2 ^ 64.

Definition node_wf (n : Node) : Prop :=
  is_int (n_id n) /\ is_int (n_customer_id n) /\ is_int (n_port n) /\
  Forall (fun b => b <> 0) (n_hostname n) /\ (length (n_hostname n) < 64)%nat.

Definition raw_len (m : Meta) : Z :=
  sizeof_RawMeta + body_size m + num_data_types m * 4 + num_nodes m * sizeof_RawNode.

(** Values of the right width; hostnames that fit their field. *)
Definition meta_wf (m : Meta) : Prop :=
  is_int (mt_head m) /\ is_int (mt_app_id m) /\ is_int (mt_customer_id m) /\ is_int (mt_timestamp m) /\
  is_int (mt_data_size m) /\ is_u64 (mt_key m) /\ is_u64 (mt_addr m) /\ is_int (mt_val_len m) /\
  is_int (mt_option m) /\ is_int (ct_barrier_group (mt_control m)) /\ is_u64 (ct_msg_sig (mt_control m)) /\
  Forall node_wf (ct_node (mt_control m)) /\ raw_len m < 2 ^ 31.

(** What arrives: a field of the control part only when the command has it, and
    sender, receiver and earlier nodes of the object that is filled. *)
Definition arrives (m m0 : Meta) : Meta :=
  let c := mt_control m in
  mkMeta (mt_head m) (mt_app_id m) (mt_customer_id m) (mt_timestamp m) (mt_sender m0) (mt_recver m0)
    (mt_request m) (mt_push m) (mt_simple_app m) (mt_body m) (mt_data_type m)
    (mkControl (ct_cmd c) (ct_node (mt_control m0) ++ if Control_empty c then [] else ct_node c)
       (if decide (ct_cmd c = BARRIER) then ct_barrier_group c else 0)
       (if decide (ct_cmd c = ACK) then ct_msg_sig c else 0))
    (mt_data_size m) (mt_key m) (mt_addr m) (mt_val_len m) (mt_option m).


Lemma DataType_round d : enum_of DataType_code DataTypes (DataType_code d) = Ok d.
Proof. by destruct d. Qed.
Lemma Role_round r : enum_of Role_code Roles (Role_code r) = Ok r.
Proof. by destruct r. Qed.
Lemma Command_round c : enum_of Command_code Commands (Command_code c) = Ok c.
Proof. by destruct c. Qed.

Lemma DataType_code_int d : is_int (DataType_code d).
Proof. destruct d; unfold is_int; cbn; lia. Qed.
Lemma Role_code_int r : is_int (Role_code r).
Proof. destruct r; unfold is_int; cbn; lia. Qed.
Lemma Command_code_int c : is_int (Command_code c).
Proof. destruct c; unfold is_int; cbn; lia. Qed.

(** The store lies in [[lo, hi)]. *)
Definition within (lo hi : Z) (w : write) : Prop := lo <= fst w /\ fst w + Z.of_nat (length (snd w)) <= hi.

Lemma within_apart lo hi off n ws : Forall (within lo hi) ws -> off + n <= lo \/ hi <= off ->
  Forall (apart off n) ws.
Proof.
  intros Hws Hoff. eapply Forall_impl; [exact Hws|]. intros w [H1 H2]. unfold apart. cbn in *. lia.
Qed.

Lemma apart_only off bs ws : Forall (apart off (Z.of_nat (length bs))) ws -> Forall (only off bs) ws.
Proof. intros H. eapply Forall_impl; [exact H|]. by right. Qed.

Lemma within_weaken lo hi lo' hi' ws : lo' <= lo -> hi <= hi' -> Forall (within lo hi) ws ->
  Forall (within lo' hi') ws.
Proof. intros H1 H2 H. eapply Forall_impl; [exact H|]. intros w [? ?]. unfold within. lia. Qed.

(** Offsets and sizes as numbers. *)
Ltac offsets :=
  unfold raw_head, raw_body_size, raw_cmd, raw_node_size, raw_barrier_group, raw_msg_sig, raw_request,
    raw_app_id, raw_timestamp, raw_data_type_size, raw_customer_id, raw_push, raw_simple_app, raw_data_size,
    raw_key, raw_addr, raw_val_len, raw_option, sizeof_RawMeta, raw_role, raw_id, raw_hostname, raw_port,
    raw_is_recovery, raw_node_customer_id, sizeof_RawNode in *.

(** Solve [Forall] over a list of stores at known offsets. *)
Ltac one_write :=
  unfold apart, within, write_fits, w_i32, w_u64, w_bool, w_zero; cbn [fst snd];
  rewrite ?length_le_bytes, ?length_replicate; cbn [length]; offsets; lia.
Ltac each_write :=
  repeat (apply List.Forall_cons);
  try apply List.Forall_nil;
  first [one_write | left; reflexivity | right; one_write].

Lemma data_type_writes_within off ds :
  Forall (within off (off + 4 * Z.of_nat (length ds))) (data_type_writes off ds).
Proof.
  revert off. induction ds as [|d ds IH]; intros off; cbn [data_type_writes length]; constructor.
  - unfold within. cbn. lia.
  - eapply within_weaken; [| |apply IH]; lia.
Qed.

Lemma node_writes_within off n : (length (n_hostname n) < 64)%nat ->
  Forall (within off (off + sizeof_RawNode)) (node_writes off n).
Proof. intros. unfold node_writes. each_write. Qed.

Lemma nodes_writes_within off ns : Forall node_wf ns ->
  Forall (within off (off + Z.of_nat (length ns) * sizeof_RawNode)) (nodes_writes off ns).
Proof.
  intros Hns. revert off. induction Hns as [|n ns Hn Hns IH]; intros off; cbn [nodes_writes length]; [constructor|].
  apply Forall_app. split.
  - destruct Hn as (_ & _ & _ & _ & Hl). eapply within_weaken; [| |by apply node_writes_within]; [lia|].
    unfold sizeof_RawNode. lia.
  - eapply within_weaken; [| |apply IH]; unfold sizeof_RawNode; lia.
Qed.

Lemma apart_sub off n off' n' ws : off <= off' -> off' + n' <= off + n ->
  Forall (apart off n) ws -> Forall (apart off' n') ws.
Proof. intros H1 H2 H. eapply Forall_impl; [exact H|]. intros w Hw. unfold apart in *. lia. Qed.

(** *** The arrays behind the header *)

Lemma unpack_data_types_ok ds off mem mem' pre post :
  mem_stores mem (pre ++ data_type_writes off ds ++ post) = Ok mem' ->
  Forall (apart off (4 * Z.of_nat (length ds))) post ->
  unpack_data_types (length ds) mem' off = Ok ds.
Proof.
  revert off pre. induction ds as [|d ds IH]; intros off pre Hrun Hpost; [done|].
  cbn [data_type_writes length unpack_data_types app] in *.
  rewrite (load_i32_bytes mem' off (DataType_code d)); [|
    apply (load_stored mem pre off (le_bytes 4 (DataType_code d)) (data_type_writes (off + 4) ds ++ post) mem' Hrun)
    |apply DataType_code_int].
  - cbn [mbind outcome_bind]. rewrite DataType_round. cbn [mbind outcome_bind].
    rewrite (IH (off + 4) (pre ++ [w_i32 off (DataType_code d)])); [done| |].
    + by rewrite <- app_assoc.
    + eapply apart_sub; [| |exact Hpost]; lia.
  - rewrite length_le_bytes. apply Forall_app. split.
    + eapply within_apart; [apply data_type_writes_within|]. left. lia.
    + eapply apart_sub; [| |exact Hpost]; lia.
Qed.

Lemma load_after_writes mem mem' pre ws1 off bs ws2 post lo :
  mem_stores mem (pre ++ (ws1 ++ (off, bs) :: ws2) ++ post) = Ok mem' ->
  Forall (apart lo sizeof_RawNode) post -> lo <= off -> off + Z.of_nat (length bs) <= lo + sizeof_RawNode ->
  Forall (apart off (Z.of_nat (length bs))) ws2 ->
  mem_load mem' off (Z.of_nat (length bs)) = Ok bs.
Proof.
  intros Hrun Hpost H1 H2 Hws. apply (load_stored mem (pre ++ ws1) off bs (ws2 ++ post) mem').
  - rewrite <- Hrun. by rewrite <- !app_assoc.
  - apply Forall_app. split; [done|]. eapply apart_sub; [| |exact Hpost]; lia.
Qed.

(** The field of the host name: zeroed, then overwritten from its start. *)
Lemma load_zeroed_string mem mem' pre off s k post : (length s <= k)%nat ->
  mem_stores mem (pre ++ [w_zero off k; (off, s)] ++ post) = Ok mem' ->
  Forall (apart off (Z.of_nat k)) post ->
  mem_load mem' off (Z.of_nat k) = Ok (s ++ replicate (k - length s) 0).
Proof.
  intros Hk Hrun Hpost. rewrite mem_stores_app in Hrun. inv_ok.
  unfold mem_stores in Hrun. cbn [app foldM] in Hrun. inv_ok.
  rewrite (load_stores_apart post x1 mem'); [|exact Hrun|exact Hpost].
  pose proof (mem_store_length _ _ _ H0) as Hl0. pose proof (mem_store_length _ _ _ H1) as Hl1.
  unfold mem_store, w_zero in H0, H1. inv_ok. cbn [fst snd] in *. b2p. rewrite length_replicate in *. subst.
  unfold mem_load. rewrite Hl1, Hl0. pass. rewrite Nat2Z.id. f_equal. apply list_eq. intros j.
  destruct (decide (j < k)%nat) as [Hj|Hj].
  - rewrite lookup_slice, lookup_splice by lia. case_decide.
    + replace (Z.to_nat off + j - Z.to_nat off)%nat with j by lia. by rewrite lookup_app_l by lia.
    + rewrite lookup_splice by (rewrite length_replicate; lia). rewrite length_replicate, decide_True by lia.
      rewrite lookup_app_r by lia. rewrite !lookup_replicate_2 by lia. done.
  - unfold slice. rewrite lookup_take_ge by lia. rewrite lookup_ge_None_2; [done|].
    rewrite length_app, length_replicate. lia.
Qed.

Ltac node_field := [>reflexivity|one_write|one_write|cbn [drop node_writes]; each_write].

Lemma unpack_node_ok n off mem mem' pre post : 0 <= off -> node_wf n ->
  mem_stores mem (pre ++ node_writes off n ++ post) = Ok mem' ->
  Forall (apart off sizeof_RawNode) post -> unpack_node mem' off = Ok n.
Proof.
  intros Hoff (Hid & Hcid & Hport & Hnz & Hlen) Hrun Hpost. unfold unpack_node.
  assert (Hload : forall i o bs, node_writes off n !! i = Some (o, bs) ->
    off <= o -> o + Z.of_nat (length bs) <= off + sizeof_RawNode ->
    Forall (apart o (Z.of_nat (length bs))) (drop (S i) (node_writes off n)) ->
    mem_load mem' o (Z.of_nat (length bs)) = Ok bs).
  { intros i o bs Hi H1 H2 H3.
    apply (load_after_writes mem mem' pre (take i (node_writes off n)) o bs (drop (S i) (node_writes off n)) post off);
      [|done..]. rewrite <- Hrun. do 3 f_equal. by apply take_drop_middle. }
  rewrite (load_i32_bytes mem' (off + raw_role) (Role_code (n_role n))); [|
    apply (Hload 1%nat _ (le_bytes 4 _)); node_field
    |apply Role_code_int].
  cbn [mbind outcome_bind]. rewrite Role_round. cbn [mbind outcome_bind].
  rewrite (load_i32_bytes mem' (off + raw_port) (n_port n)); [|
    apply (Hload 2%nat _ (le_bytes 4 _)); node_field
    |exact Hport].
  cbn [mbind outcome_bind].
  rewrite (load_string_field mem' (off + raw_hostname) (n_hostname n) 64); [|offsets; lia|exact Hnz|exact Hlen|].
  2:{ apply (load_zeroed_string mem mem' (pre ++ take 3 (node_writes off n)) (off + raw_hostname) (n_hostname n) 64
        (drop 5 (node_writes off n) ++ post)); [lia|rewrite <- Hrun; by rewrite <- app_assoc|].
      apply Forall_app. split; [cbn [drop node_writes]; each_write|].
      eapply apart_sub; [| |exact Hpost]; offsets; lia. }
  cbn [mbind outcome_bind].
  rewrite (load_i32_bytes mem' (off + raw_id) (n_id n)); [|
    apply (Hload 0%nat _ (le_bytes 4 _)); node_field|exact Hid].
  cbn [mbind outcome_bind].
  rewrite (load_bool_bytes mem' (off + raw_is_recovery) (n_is_recovery n)); [|
    apply (Hload 5%nat _ [_]); node_field].
  cbn [mbind outcome_bind].
  rewrite (load_i32_bytes mem' (off + raw_node_customer_id) (n_customer_id n)); [|
    apply (Hload 6%nat _ (le_bytes 4 _)); node_field
    |exact Hcid].
  cbn. by destruct n.
Qed.

Lemma unpack_nodes_ok ns off mem mem' pre post : 0 <= off -> Forall node_wf ns ->
  mem_stores mem (pre ++ nodes_writes off ns ++ post) = Ok mem' ->
  Forall (apart off (Z.of_nat (length ns) * sizeof_RawNode)) post ->
  unpack_nodes (length ns) mem' off = Ok ns.
Proof.
  intros Hoff Hns. revert off Hoff pre. induction Hns as [|n ns Hn Hns IH]; intros off Hoff pre Hrun Hpost; [done|].
  cbn [nodes_writes length unpack_nodes] in *.
  rewrite (unpack_node_ok n off mem mem' pre (nodes_writes (off + sizeof_RawNode) ns ++ post)); [|done|done| |].
  - cbn [mbind outcome_bind]. rewrite (IH (off + sizeof_RawNode) ltac:(offsets; lia) (pre ++ node_writes off n)); [done| |].
    + rewrite <- Hrun. by rewrite <- !app_assoc.
    + eapply apart_sub; [| |exact Hpost]; offsets; lia.
  - rewrite <- Hrun. by rewrite <- !app_assoc.
  - apply Forall_app. split.
    + eapply within_apart; [by apply nodes_writes_within|]. left. lia.
    + eapply apart_sub; [| |exact Hpost]; offsets; lia.
Qed.

(** *** The header *)

Section fields.
Context (m : Meta) (Hwf : meta_wf m) (mem mem' : list Z).
Context (Hrun : mem_stores mem (pack_writes m) = Ok mem').

Local Notation data_off := (sizeof_RawMeta + body_size m).
Local Notation node_off := (data_off + 4 * num_data_types m).

(** The stores of the header between those of the variable parts. *)
Definition early_writes : list write :=
  [ w_i32 raw_head (mt_head m); w_i32 raw_app_id (mt_app_id m); w_i32 raw_timestamp (mt_timestamp m) ].
Definition body_writes : list write :=
  if body_size m =? 0 then [] else [(sizeof_RawMeta, mt_body m); w_i32 raw_body_size (s32 (body_size m))].
Definition flag_writes : list write :=
  [ w_bool raw_push (mt_push m); w_bool raw_request (mt_request m);
    w_bool raw_simple_app (mt_simple_app m); w_i32 raw_customer_id (mt_customer_id m) ].
Definition late_writes : list write :=
  [ w_i32 raw_data_size (mt_data_size m); w_u64 raw_key (mt_key m); w_u64 raw_addr (mt_addr m);
    w_i32 raw_val_len (mt_val_len m); w_i32 raw_option (mt_option m) ].
Definition tail_writes : list write :=
  early_writes ++ body_writes ++ flag_writes ++ data_type_writes data_off (mt_data_type m) ++
  [ w_i32 raw_data_type_size (s32 (num_data_types m)) ] ++
  control_writes node_off (mt_control m) ++ late_writes.

Lemma pack_writes_tail : pack_writes m = w_zero 0 88 :: tail_writes.
Proof. reflexivity. Qed.

Lemma node_off_bounds : 88 <= data_off <= node_off /\ node_off + num_nodes m * 84 < 2 ^ 31.
Proof.
  destruct Hwf as (_ & _ & _ & _ & _ & _ & _ & _ & _ & _ & _ & _ & Hlen).
  unfold raw_len, sizeof_RawNode in Hlen. unfold sizeof_RawMeta in *.
  unfold body_size, num_data_types, num_nodes in *. lia.
Qed.

(** Stores behind the header do not touch it. *)
Lemma data_apart off n : off + n <= 88 -> Forall (apart off n) (data_type_writes data_off (mt_data_type m)).
Proof.
  intros. pose proof node_off_bounds. eapply within_apart; [apply data_type_writes_within|]. left. lia.
Qed.
Lemma nodes_apart off n : off + n <= 88 -> Forall (apart off n) (nodes_writes node_off (ct_node (mt_control m))).
Proof.
  intros. pose proof node_off_bounds. destruct Hwf as (_ & _ & _ & _ & _ & _ & _ & _ & _ & _ & _ & Hns & _).
  eapply within_apart; [by apply nodes_writes_within|]. left. lia.
Qed.

(** The control part touches only its own fields. *)
Lemma control_apart off n : off + n <= 88 -> off + n <= raw_cmd \/ raw_request <= off ->
  Forall (apart off n) (control_writes node_off (mt_control m)).
Proof.
  intros Hh Hoff. unfold raw_cmd, raw_request in *. unfold control_writes.
  destruct (Control_empty _); [each_write|]. rewrite !Forall_app. repeat split.
  - each_write.
  - repeat case_decide; each_write.
  - each_write.
  - by apply nodes_apart.
Qed.

Lemma body_apart off n : off + n <= 88 -> off + n <= 4 \/ 8 <= off -> Forall (apart off n) body_writes.
Proof.
  intros Hh Hoff. unfold body_writes. destruct (body_size m =? 0); [constructor|].
  each_write.
Qed.

Lemma tail_run : exists mem1, mem_stores mem1 tail_writes = Ok mem'.
Proof.
  rewrite pack_writes_tail in Hrun. unfold mem_stores in *. cbn [foldM] in Hrun. inv_ok. by exists x.
Qed.

(** A field of the header outside the control part. *)
Lemma header_field off bs : let n := Z.of_nat (length bs) in
  off + n <= 88 -> off + n <= 4 \/ 32 <= off ->
  (off, bs) ∈ early_writes ++ flag_writes ++ [w_i32 raw_data_type_size (s32 (num_data_types m))] ++ late_writes ->
  Forall (only off bs) (early_writes ++ flag_writes ++ [w_i32 raw_data_type_size (s32 (num_data_types m))] ++ late_writes) ->
  mem_load mem' off n = Ok bs.
Proof.
  intros n Hh Hoff Hin Hall. destruct tail_run as (mem1 & H1). apply (load_only tail_writes mem1); [done| |].
  - unfold tail_writes. rewrite !elem_of_app in *. tauto.
  - unfold tail_writes. rewrite !Forall_app in *. destruct Hall as (Ha & Hb & Hc & Hd).
    repeat split; try done; apply apart_only.
    + apply body_apart; lia.
    + by apply data_apart.
    + apply control_apart; unfold raw_cmd, raw_request; lia.
Qed.

Lemma header_apart off n : 88 <= off ->
  Forall (apart off n) (early_writes ++ flag_writes ++ [w_i32 raw_data_type_size (s32 (num_data_types m))] ++ late_writes).
Proof. intros. unfold early_writes, flag_writes, late_writes. cbn [app]. each_write. Qed.

Lemma control_head_apart off n : 88 <= off -> off + n <= node_off ->
  Forall (apart off n) (control_writes node_off (mt_control m)).
Proof.
  intros Hh Hoff. unfold control_writes. destruct (Control_empty _); [each_write|]. rewrite !Forall_app. repeat split.
  - each_write.
  - repeat case_decide; each_write.
  - each_write.
  - destruct Hwf as (_ & _ & _ & _ & _ & _ & _ & _ & _ & _ & _ & Hns & _).
    eapply within_apart; [by apply nodes_writes_within|]. left. lia.
Qed.

Lemma body_size_ok : load_i32 mem' raw_body_size = Ok (body_size m).
Proof.
  pose proof node_off_bounds as Hb. unfold sizeof_RawMeta in Hb. unfold num_nodes, num_data_types in Hb.
  assert (Hs : s32 (body_size m) = body_size m) by (apply s32_small; unfold body_size in *; lia).
  destruct (Z.eqb_spec (body_size m) 0) as [H0|H0].
  - rewrite H0. apply load_i32_bytes; [|lia].
    rewrite pack_writes_tail in Hrun. rewrite (load_zero tail_writes mem mem' 88 raw_body_size 4 Hrun); [done|..];
      [|offsets; lia..].
    unfold tail_writes, body_writes. rewrite H0. rewrite !Forall_app. cbn [Z.eqb].
    repeat split; [unfold early_writes; each_write|constructor|unfold flag_writes; each_write| | | |unfold late_writes; each_write].
    + rewrite <- H0. apply data_apart. offsets. lia.
    + each_write.
    + rewrite <- H0. apply control_apart; offsets; lia.
  - apply load_i32_bytes; [|unfold body_size in *; lia]. destruct tail_run as (mem1 & H1).
    apply (load_only tail_writes mem1 mem' raw_body_size (le_bytes 4 (body_size m)) H1).
    + unfold tail_writes, body_writes. rewrite (proj2 (Z.eqb_neq _ _) H0), Hs, !elem_of_app. right. left. right. left.
    + unfold tail_writes, body_writes. rewrite (proj2 (Z.eqb_neq _ _) H0), Hs, !Forall_app.
      repeat split; [unfold early_writes; each_write| |unfold flag_writes; each_write| | | |unfold late_writes; each_write].
      * apply List.Forall_cons; [right; one_write|]. apply List.Forall_cons; [by left|constructor].
      * apply apart_only, data_apart. rewrite length_le_bytes. offsets. lia.
      * each_write.
      * apply apart_only, control_apart; rewrite length_le_bytes; offsets; lia.
Qed.

Lemma body_ok : mem_load mem' sizeof_RawMeta (body_size m) = Ok (mt_body m).
Proof.
  pose proof node_off_bounds as Hb. unfold sizeof_RawMeta in Hb.
  destruct (Z.eqb_spec (body_size m) 0) as [H0|H0].
  - rewrite H0. unfold body_size in H0. destruct (mt_body m); [|cbn in H0; lia].
    rewrite pack_writes_tail in Hrun. pose proof (mem_stores_length _ _ _ Hrun) as Hl.
    unfold mem_stores in Hrun. cbn [foldM] in Hrun. inv_ok. unfold mem_store, w_zero in H. inv_ok.
    cbn [fst snd] in *. b2p. rewrite length_replicate in *. unfold mem_load. rewrite Hl.
    unfold sizeof_RawMeta. pass. done.
  - destruct tail_run as (mem1 & H1).
    apply (load_only tail_writes mem1 mem' sizeof_RawMeta (mt_body m) H1).
    + unfold tail_writes, body_writes. rewrite (proj2 (Z.eqb_neq _ _) H0), !elem_of_app. right. left. left.
    + pose proof (header_apart sizeof_RawMeta (body_size m) ltac:(offsets; lia)) as Hh.
      rewrite !Forall_app in Hh. destruct Hh as (Ha & Hf & Hd & Hl).
      unfold tail_writes, body_writes. rewrite (proj2 (Z.eqb_neq _ _) H0), !Forall_app.
      repeat split; try (by apply apart_only).
      * apply List.Forall_cons; [by left|]. apply List.Forall_cons; [right; one_write|constructor].
      * apply apart_only. eapply within_apart; [apply data_type_writes_within|]. left.
        unfold body_size, sizeof_RawMeta. lia.
      * apply apart_only, control_head_apart; [offsets; lia|].
        unfold body_size, num_data_types, sizeof_RawMeta. lia.
Qed.

Lemma data_types_ok : unpack_data_types (length (mt_data_type m)) mem' data_off = Ok (mt_data_type m).
Proof.
  pose proof node_off_bounds as Hb. unfold sizeof_RawMeta in Hb.
  apply (unpack_data_types_ok _ _ mem mem' (w_zero 0 88 :: early_writes ++ body_writes ++ flag_writes)
    ([w_i32 raw_data_type_size (s32 (num_data_types m))] ++ control_writes node_off (mt_control m) ++ late_writes)).
  - rewrite <- Hrun, pack_writes_tail. unfold tail_writes. cbn [app]. by rewrite <- !app_assoc.
  - pose proof (header_apart data_off (4 * num_data_types m) ltac:(offsets; lia)) as Hh.
    rewrite !Forall_app in Hh. destruct Hh as (_ & _ & Hd & Hl). rewrite !Forall_app.
    split; [done|]. split; [|done]. apply control_head_apart; unfold sizeof_RawMeta in *; unfold num_data_types; lia.
Qed.

(** The control part: only its own stores reach it. *)
Lemma others_apart off n : raw_cmd <= off -> off + n <= raw_request ->
  Forall (apart off n) (early_writes ++ body_writes ++ flag_writes ++
    data_type_writes data_off (mt_data_type m) ++ [w_i32 raw_data_type_size (s32 (num_data_types m))]) /\
  Forall (apart off n) late_writes.
Proof.
  intros H1 H2. rewrite !Forall_app. unfold early_writes, flag_writes, late_writes.
  repeat split; try each_write; [apply body_apart|apply data_apart]; offsets; lia.
Qed.

Lemma tail_control : tail_writes = (early_writes ++ body_writes ++ flag_writes ++
    data_type_writes data_off (mt_data_type m) ++ [w_i32 raw_data_type_size (s32 (num_data_types m))]) ++
  control_writes node_off (mt_control m) ++ late_writes.
Proof. unfold tail_writes. by rewrite <- !app_assoc. Qed.

Lemma control_field off bs : raw_cmd <= off -> off + Z.of_nat (length bs) <= raw_request ->
  (off, bs) ∈ control_writes node_off (mt_control m) ->
  Forall (only off bs) (control_writes node_off (mt_control m)) ->
  mem_load mem' off (Z.of_nat (length bs)) = Ok bs.
Proof.
  intros H1 H2 Hin Hall. destruct (others_apart off (Z.of_nat (length bs)) H1 H2) as [Ho Hl].
  destruct tail_run as (mem1 & Hr). apply (load_only tail_writes mem1 mem' off bs Hr); rewrite tail_control.
  - rewrite !elem_of_app. tauto.
  - apply Forall_app. split; [by apply apart_only|]. apply Forall_app. split; [done|by apply apart_only].
Qed.

Lemma control_zero off n : raw_cmd <= off -> 0 <= n -> off + n <= raw_request ->
  Forall (apart off n) (control_writes node_off (mt_control m)) ->
  mem_load mem' off n = Ok (replicate (Z.to_nat n) 0).
Proof.
  intros H1 Hn H2 Hall. destruct (others_apart off n H1 H2) as [Ho Hl].
  rewrite pack_writes_tail in Hrun. apply (load_zero tail_writes mem mem' 88 off n Hrun); [|offsets; lia..].
  rewrite tail_control. apply Forall_app. split; [done|]. apply Forall_app. done.
Qed.

Lemma num_nodes_small : s32 (num_nodes m) = num_nodes m /\ is_int (num_nodes m).
Proof.
  pose proof node_off_bounds as Hb. unfold sizeof_RawMeta, num_nodes, body_size, num_data_types in *.
  split; [apply s32_small|unfold is_int]; lia.
Qed.

Ltac only_control :=
  repeat apply Forall_app_2;
  repeat (apply List.Forall_cons; [first [one_write | by left | right; one_write]|]);
  first [ apply List.Forall_nil
        | apply apart_only; apply nodes_apart; rewrite ?length_le_bytes; offsets; lia
        | apply nodes_apart; offsets; lia ].

Lemma control_writes_cases : let c := mt_control m in
  control_writes node_off c =
    if decide (ct_cmd c = EMPTY) then [w_i32 raw_cmd 0]
    else (w_i32 raw_cmd (Command_code (ct_cmd c)) ::
          (if decide (ct_cmd c = BARRIER) then [w_i32 raw_barrier_group (ct_barrier_group c)] else []) ++
          (if decide (ct_cmd c = ACK) then [w_u64 raw_msg_sig (ct_msg_sig c)] else [])) ++
         w_i32 raw_node_size (num_nodes m) :: nodes_writes node_off (ct_node c).
Proof.
  intros c. unfold control_writes, Control_empty. fold c. destruct (decide (ct_cmd c = EMPTY)) as [H0|H0].
  - by rewrite bool_decide_true by done.
  - rewrite bool_decide_false by done. unfold num_nodes in *. destruct num_nodes_small as [Hs _].
    unfold num_nodes in Hs. fold c in Hs. rewrite Hs. cbn [app].
    destruct (decide (ct_cmd c = BARRIER)), (decide (ct_cmd c = ACK)); try congruence; done.
Qed.

Lemma cmd_ok : load_i32 mem' raw_cmd = Ok (Command_code (ct_cmd (mt_control m))).
Proof.
  apply load_i32_bytes; [|apply Command_code_int].
  apply (control_field raw_cmd (le_bytes 4 _)); [offsets; rewrite ?length_le_bytes; lia..| |];
    rewrite control_writes_cases; destruct (decide (ct_cmd (mt_control m) = EMPTY)) as [H0|H0]; rewrite ?H0; try left.
  - each_write.
  - cbn [app]. apply List.Forall_cons; [by left|]. repeat case_decide; only_control.
Qed.

Lemma barrier_group_ok : is_int (ct_barrier_group (mt_control m)) ->
  load_i32 mem' raw_barrier_group =
    Ok (if decide (ct_cmd (mt_control m) = BARRIER) then ct_barrier_group (mt_control m) else 0).
Proof.
  intros Hint. case_decide as Hb; (apply load_i32_bytes; [|unfold is_int in *; lia]).
  - apply (control_field raw_barrier_group (le_bytes 4 _)); [offsets; rewrite ?length_le_bytes; lia..| |];
      rewrite control_writes_cases, !Hb; repeat (rewrite decide_False by done || rewrite decide_True by done); cbn [app].
    + right. left.
    + only_control.
  - change (le_bytes 4 0) with (replicate (Z.to_nat 4) 0).
    apply control_zero; [offsets; lia..|]. rewrite control_writes_cases. rewrite (decide_False _ _ Hb).
    repeat case_decide; cbn [app]; only_control.
Qed.

Lemma msg_sig_ok : is_u64 (ct_msg_sig (mt_control m)) ->
  load_u64 mem' raw_msg_sig =
    Ok (if decide (ct_cmd (mt_control m) = ACK) then ct_msg_sig (mt_control m) else 0).
Proof.
  intros Hint. case_decide as Hb; (apply load_u64_bytes; [|unfold is_u64 in *; lia]).
  - apply (control_field raw_msg_sig (le_bytes 8 _)); [offsets; rewrite ?length_le_bytes; lia..| |];
      rewrite control_writes_cases, !Hb; repeat (rewrite decide_False by done || rewrite decide_True by done); cbn [app].
    + right. left.
    + only_control.
  - change (le_bytes 8 0) with (replicate (Z.to_nat 8) 0).
    apply control_zero; [offsets; lia..|]. rewrite control_writes_cases. rewrite (decide_False _ _ Hb).
    repeat case_decide; cbn [app]; only_control.
Qed.

Lemma regroup (z w : write) o x l late :
  z :: o ++ (x ++ w :: l) ++ late = (z :: o ++ x ++ [w]) ++ l ++ late.
Proof. cbn [app]. by rewrite <- !app_assoc. Qed.

Lemma nodes_ok : exists k, load_i32 mem' raw_node_size = Ok k /\
  unpack_nodes (Z.to_nat k) mem' node_off =
    Ok (if Control_empty (mt_control m) then [] else ct_node (mt_control m)).
Proof.
  destruct num_nodes_small as [_ Hint]. unfold Control_empty.
  destruct (decide (ct_cmd (mt_control m) = EMPTY)) as [H0|H0].
  - exists 0. rewrite bool_decide_true by done. split; [|done].
    apply load_i32_bytes; [|lia]. change (le_bytes 4 0) with (replicate (Z.to_nat 4) 0).
    apply control_zero; [offsets; lia..|]. rewrite control_writes_cases, (decide_True _ _ H0). each_write.
  - exists (num_nodes m). rewrite bool_decide_false by done. split.
    + apply load_i32_bytes; [|exact Hint].
      apply (control_field raw_node_size (le_bytes 4 _)); [offsets; rewrite ?length_le_bytes; lia..| |];
        rewrite control_writes_cases, (decide_False _ _ H0).
      * apply elem_of_app. right. left.
      * repeat case_decide; cbn [app]; only_control.
    + pose proof node_off_bounds as Hb.
      destruct Hwf as (_ & _ & _ & _ & _ & _ & _ & _ & _ & _ & _ & Hns & _).
      unfold num_nodes. rewrite Nat2Z.id.
      pose proof Hrun as Hr. rewrite pack_writes_tail, tail_control, control_writes_cases, (decide_False _ _ H0) in Hr.
      rewrite regroup in Hr.
      apply (unpack_nodes_ok (ct_node (mt_control m)) node_off mem mem' _ _ ltac:(unfold sizeof_RawMeta in *; lia) Hns Hr).
      pose proof (header_apart node_off (num_nodes m * sizeof_RawNode) ltac:(offsets; lia)) as Hh.
      rewrite !Forall_app in Hh. by destruct Hh as (_ & _ & _ & Hl).
Qed.

Ltac hfield :=
  unfold early_writes, flag_writes, late_writes; cbn [app];
  repeat (apply List.Forall_cons; [first [one_write | by left | right; one_write]|]); apply List.Forall_nil.
Ltac hmember := unfold early_writes, flag_writes, late_writes; cbn [app]; repeat (left || right).

Lemma header_i32 off v : is_int v -> off + 4 <= 4 \/ 32 <= off -> off + 4 <= 88 ->
  w_i32 off v ∈ early_writes ++ flag_writes ++ [w_i32 raw_data_type_size (s32 (num_data_types m))] ++ late_writes ->
  Forall (only off (le_bytes 4 v)) (early_writes ++ flag_writes ++ [w_i32 raw_data_type_size (s32 (num_data_types m))] ++ late_writes) ->
  load_i32 mem' off = Ok v.
Proof.
  intros Hv H1 H2 Hin Hall. apply load_i32_bytes; [|exact Hv].
  apply (header_field off (le_bytes 4 v)); rewrite ?length_le_bytes; done || lia.
Qed.

Lemma header_bool off b : 32 <= off -> off + 1 <= 88 ->
  w_bool off b ∈ early_writes ++ flag_writes ++ [w_i32 raw_data_type_size (s32 (num_data_types m))] ++ late_writes ->
  Forall (only off [if b then 1 else 0]) (early_writes ++ flag_writes ++ [w_i32 raw_data_type_size (s32 (num_data_types m))] ++ late_writes) ->
  load_bool mem' off = Ok b.
Proof.
  intros H1 H2 Hin Hall. apply load_bool_bytes. apply (header_field off [if b then 1 else 0]); cbn; done || lia.
Qed.

Lemma header_u64 off v : is_u64 v -> 32 <= off -> off + 8 <= 88 ->
  w_u64 off v ∈ early_writes ++ flag_writes ++ [w_i32 raw_data_type_size (s32 (num_data_types m))] ++ late_writes ->
  Forall (only off (le_bytes 8 v)) (early_writes ++ flag_writes ++ [w_i32 raw_data_type_size (s32 (num_data_types m))] ++ late_writes) ->
  load_u64 mem' off = Ok v.
Proof.
  intros Hv H1 H2 Hin Hall. apply load_u64_bytes; [|exact Hv].
  apply (header_field off (le_bytes 8 v)); rewrite ?length_le_bytes; done || lia.
Qed.

Lemma data_type_size_ok : load_i32 mem' raw_data_type_size = Ok (num_data_types m).
Proof.
  pose proof node_off_bounds as Hb. unfold sizeof_RawMeta, num_nodes, body_size, num_data_types in Hb.
  assert (Hs : s32 (num_data_types m) = num_data_types m) by (apply s32_small; unfold num_data_types; lia).
  apply header_i32; [unfold is_int, num_data_types; lia|offsets; lia..| |]; rewrite Hs.
  - rewrite !elem_of_app. right. right. left. left.
  - hfield.
Qed.

Lemma UnpackMeta_packed m0 : UnpackMeta mem' m0 = Ok (arrives m m0).
Proof.
  pose proof node_off_bounds as Hb.
  pose proof Hwf as (H1 & H2 & H3 & H4 & H5 & H6 & H7 & H8 & H9 & H10 & H11 & _).
  unfold UnpackMeta. rewrite body_size_ok. cbn [mbind outcome_bind].
  rewrite data_type_size_ok. cbn [mbind outcome_bind].
  rewrite (header_i32 raw_head (mt_head m)); [|done|offsets; lia..|hmember|hfield]. cbn [mbind outcome_bind].
  rewrite (header_i32 raw_app_id (mt_app_id m)); [|done|offsets; lia..|right; left|hfield]. cbn [mbind outcome_bind].
  rewrite (header_i32 raw_timestamp (mt_timestamp m)); [|done|offsets; lia..|do 2 right; left|hfield]. cbn [mbind outcome_bind].
  rewrite (header_bool raw_request (mt_request m)); [|offsets; lia..|do 4 right; left|hfield]. cbn [mbind outcome_bind].
  rewrite (header_bool raw_push (mt_push m)); [|offsets; lia..|do 3 right; left|hfield]. cbn [mbind outcome_bind].
  rewrite (header_bool raw_simple_app (mt_simple_app m)); [|offsets; lia..|do 5 right; left|hfield]. cbn [mbind outcome_bind].
  rewrite (CHECK_true (0 <=? body_size m)) by (b2p; unfold body_size; lia). cbn [mbind outcome_bind].
  rewrite body_ok. cbn [mbind outcome_bind].
  rewrite (header_i32 raw_customer_id (mt_customer_id m)); [|done|offsets; lia..|do 6 right; left|hfield]. cbn [mbind outcome_bind].
  rewrite (CHECK_true (0 <=? num_data_types m)) by (b2p; unfold num_data_types; lia). cbn [mbind outcome_bind].
  replace (Z.to_nat (num_data_types m)) with (length (mt_data_type m)) by (unfold num_data_types; lia).
  rewrite data_types_ok. cbn [mbind outcome_bind]. rewrite cmd_ok. cbn [mbind outcome_bind].
  rewrite Command_round. cbn [mbind outcome_bind]. rewrite (barrier_group_ok H10). cbn [mbind outcome_bind].
  rewrite (msg_sig_ok H11). cbn [mbind outcome_bind].
  destruct nodes_ok as (k & -> & Hn). cbn [mbind outcome_bind]. rewrite Hn. cbn [mbind outcome_bind].
  rewrite (header_i32 raw_data_size (mt_data_size m)); [|done|offsets; lia..|do 8 right; left|hfield]. cbn [mbind outcome_bind].
  rewrite (header_u64 raw_key (mt_key m)); [|done|offsets; lia..|do 9 right; left|hfield]. cbn [mbind outcome_bind].
  rewrite (header_u64 raw_addr (mt_addr m)); [|done|offsets; lia..|do 10 right; left|hfield]. cbn [mbind outcome_bind].
  rewrite (header_i32 raw_val_len (mt_val_len m)); [|done|offsets; lia..|do 11 right; left|hfield]. cbn [mbind outcome_bind].
  rewrite (header_i32 raw_option (mt_option m)); [|done|offsets; lia..|do 12 right; left|hfield]. cbn [mbind outcome_bind].
  reflexivity.
Qed.
End fields.

Lemma within_fits lo hi len ws : 0 <= lo -> hi <= len -> Forall (within lo hi) ws -> Forall (write_fits len) ws.
Proof. intros H1 H2 H. eapply Forall_impl; [exact H|]. intros w [? ?]. unfold write_fits. lia. Qed.

Lemma pack_writes_fit m len : meta_wf m -> raw_len m <= len -> Forall (write_fits len) (pack_writes m).
Proof.
  intros Hwf Hlen. pose proof (node_off_bounds m Hwf) as Hb.
  pose proof Hwf as (_ & _ & _ & _ & _ & _ & _ & _ & _ & _ & _ & Hns & _).
  assert (Hr : 88 + body_size m + 4 * num_data_types m + num_nodes m * 84 <= len).
  { unfold raw_len in Hlen. offsets. lia. }
  assert (H0 : 0 <= num_nodes m /\ 0 <= num_data_types m /\ 0 <= body_size m)
    by (unfold num_nodes, num_data_types, body_size; lia).
  rewrite pack_writes_tail, tail_control. apply List.Forall_cons; [one_write|].
  rewrite !Forall_app. unfold early_writes, flag_writes, late_writes, body_writes.
  repeat split; try (each_write).
  - destruct (body_size m =? 0); [constructor|]. apply List.Forall_cons; [|each_write].
    unfold write_fits. cbn [fst snd]. fold (body_size m). offsets. lia.
  - eapply within_fits; [| |apply data_type_writes_within]; fold (num_data_types m); offsets; lia.
  - rewrite (control_writes_cases m Hwf). case_decide; [each_write|]. apply Forall_app. split.
    + repeat case_decide; cbn [app]; each_write.
    + apply List.Forall_cons; [one_write|].
      eapply within_fits; [| |by apply nodes_writes_within]; fold (num_nodes m); offsets; lia.
Qed.

Lemma GetPackMetaLen_ok m : meta_wf m -> GetPackMetaLen m = raw_len m.
Proof.
  intros (_ & _ & _ & _ & _ & _ & _ & _ & _ & _ & _ & _ & Hlen). unfold GetPackMetaLen. fold (raw_len m). apply s32_small.
  unfold raw_len, body_size, num_data_types, num_nodes in *. offsets. lia.
Qed.

(** What is packed, without the rest of the buffer. *)
Lemma PackMeta_packed m buf : meta_wf m -> raw_len m <= Z.of_nat (length buf) ->
  exists mem, PackMeta m buf = Ok (mem, raw_len m) /\ length mem = length buf /\
    forall m0, UnpackMeta (take (Z.to_nat (raw_len m)) mem) m0 = Ok (arrives m m0).
Proof.
  intros Hwf Hbuf. destruct (mem_stores_ok (pack_writes m) buf) as (mem & Hrun & Hlen); [by apply pack_writes_fit|].
  exists mem. unfold PackMeta. rewrite Hrun, GetPackMetaLen_ok by done. split; [done|]. split; [done|]. intros m0.
  assert (H0 : 0 <= raw_len m) by (unfold raw_len, body_size, num_data_types, num_nodes; offsets; lia).
  apply (UnpackMeta_packed m Hwf (take (Z.to_nat (raw_len m)) buf)).
  apply mem_stores_take; [|lia|done]. apply pack_writes_fit; [done|lia].
Qed.

(** C11: [UnpackMeta] reads back what [PackMeta] wrote, into a buffer of the
    length that [GetPackMetaLen] gives and whatever that buffer held before:
    every field of the message's meta data, its body, data types and node list,
    with the barrier group and the signature only for the commands that carry
    them. Sender and receiver are not transmitted, and nodes are appended to
    those of the object that is filled. *)
Theorem PackMeta_roundtrip m m0 buf (Hwf : meta_wf m) (Hbuf : raw_len m <= Z.of_nat (length buf)) :
  exists mem, PackMeta m buf = Ok (mem, raw_len m) /\ UnpackMeta mem m0 = Ok (arrives m m0).
Proof.
  destruct (mem_stores_ok (pack_writes m) buf) as (mem & Hrun & _); [by apply pack_writes_fit|].
  exists mem. unfold PackMeta. rewrite Hrun, GetPackMetaLen_ok by done. split; [done|]. by apply (UnpackMeta_packed m Hwf buf).
Qed.

Definition example_node (id port : Z) : Node := mkNode WORKER id 0 [49; 46; 50] port false.
Definition example_meta : Meta :=
  mkMeta 5 0 3 17 kEmpty 1 true false false [97; 98] [UINT64; FLOAT]
    (mkControl ADD_NODE [example_node 9 8000; example_node 11 8001] 0 0) 12 77 0 (-1) 0.

Lemma PackMeta_roundtrip_witness :
  exists mem, PackMeta example_meta (replicate 300 7) = Ok (mem, 266) /\
    UnpackMeta mem (Meta_new 0 0 0 0 0) = Ok (arrives example_meta (Meta_new 0 0 0 0 0)).
Proof.
  apply (PackMeta_roundtrip example_meta (Meta_new 0 0 0 0 0) (replicate 300 7)).
  - unfold meta_wf, is_int, is_u64, kEmpty. cbn. repeat split; try lia.
    repeat constructor; cbn; try lia.
  - vm_compute. congruence.
Defined.
