(* ===== verification/Ps.v ===== *)
(** The state of a parameter-server process, shared by the classes of
    src/include/ps/internal/{postoffice.h, van.h, customer.h} and
    src/src/resender.h, and the state-and-outcome monad of their operations.

    Messages given to the transport ([Van::SendMsg]) and connections it is told
    to open ([Van::Connect]) are appended to [ps_sent] and [ps_connects]. A
    [Customer*] is a number, the object is in [ps_customers]. Every reading of
    the clock takes the next element of a sequence. *)

From S2P Require Import Prelude Bytes Memory PsMessage.

(** ** State *)

Record Range := mkRange { rg_begin : Z; rg_end : Z }.
Definition Range_size (r : Range) : Z := u64 (rg_end r - rg_begin r).

Record Customer := mkCustomer {
  cu_app_id : Z;
  cu_customer_id : Z;
  cu_recv_queue : list Message;
  cu_tracker : list (Z * Z) }.

Record Postoffice := mkPostoffice {
  po_customers : gmap Z (gmap Z Z);
  po_node_ids : gmap Z (list Z);
  po_server_key_ranges : list Range;
  po_is_worker : bool;
  po_is_server : bool;
  po_is_scheduler : bool;
  po_num_servers : Z;
  po_num_workers : Z;
  po_barrier_done : gmap Z (gmap Z bool);
  po_init_stage : Z;
  po_heartbeats : gmap Z Z;
  po_start_time : Z }.

(** An entry of the send buffer of the resender. *)
Record Entry := mkEntry { en_msg : Message; en_send : Z; en_num_retry : Z }.

Record Resender := mkResender {
  rs_send_buff : gmap Z Entry;
  rs_acked : gset Z;
  rs_timeout : Z;
  rs_max_num_retry : Z }.

(** [v_nodes] and [v_recovery_nodes] are the local variables of
    [Van::Receiving]; addresses are the strings [host:port]. *)
Record Van := mkVan {
  v_scheduler : Node;
  v_my_node : Node;
  v_is_scheduler : bool;
  v_connected_nodes : gmap (list Z) Z;
  v_shared_node_mapping : gmap Z Z;
  v_ready : bool;
  v_send_bytes : Z;
  v_recv_bytes : Z;
  v_num_servers : Z;
  v_num_workers : Z;
  v_barrier_count : list Z;
  v_resender : option Resender;
  v_timestamp : Z;
  v_init_stage : Z;
  v_heartbeat_timeout : Z;
  v_nodes : Meta;
  v_recovery_nodes : Meta }.

Record Ps := mkPs {
  ps_po : Postoffice;
  ps_van : Van;
  ps_customers : gmap Z Customer;
  ps_dmlc_rank : option Z;           (** the variable [DMLC_RANK] *)
  ps_sent : list Message;
  ps_connects : list Node;
  ps_ticks : nat }.

Definition set_po (s : Ps) (p : Postoffice) : Ps :=
  mkPs p (ps_van s) (ps_customers s) (ps_dmlc_rank s) (ps_sent s) (ps_connects s) (ps_ticks s).
Definition set_van (s : Ps) (v : Van) : Ps :=
  mkPs (ps_po s) v (ps_customers s) (ps_dmlc_rank s) (ps_sent s) (ps_connects s) (ps_ticks s).
Definition set_customers (s : Ps) (c : gmap Z Customer) : Ps :=
  mkPs (ps_po s) (ps_van s) c (ps_dmlc_rank s) (ps_sent s) (ps_connects s) (ps_ticks s).
Definition set_dmlc_rank (s : Ps) (r : option Z) : Ps :=
  mkPs (ps_po s) (ps_van s) (ps_customers s) r (ps_sent s) (ps_connects s) (ps_ticks s).
Definition add_sent (s : Ps) (m : Message) : Ps :=
  mkPs (ps_po s) (ps_van s) (ps_customers s) (ps_dmlc_rank s) (ps_sent s ++ [m]) (ps_connects s) (ps_ticks s).
Definition add_connect (s : Ps) (n : Node) : Ps :=
  mkPs (ps_po s) (ps_van s) (ps_customers s) (ps_dmlc_rank s) (ps_sent s) (ps_connects s ++ [n]) (ps_ticks s).

(** ** Operations *)

Definition ps (A : Type) : Type := Ps -> outcome (A * Ps).
#[global] Instance ps_ret : MRet ps := fun A a s => Ok (a, s).
#[global] Instance ps_bind : MBind ps := fun A B f m s =>
  match m s with
  | Ok (a, s') => f a s'
  | Fatal => Fatal
  | Undef => Undef
  | OutOfFuel => OutOfFuel
  end.

Definition ps_lift {A} (o : outcome A) : ps A := fun s => a ← o; Ok (a, s).
Definition ps_gets {A} (f : Ps -> A) : ps A := fun s => Ok (f s, s).
Definition ps_modify (f : Ps -> Ps) : ps unit := fun s => Ok (tt, f s).
Definition modify_po (f : Postoffice -> Postoffice) : ps unit := ps_modify (fun s => set_po s (f (ps_po s))).
Definition modify_van (f : Van -> Van) : ps unit := ps_modify (fun s => set_van s (f (ps_van s))).

(** [time(NULL)] or [Now()] *)
Definition ps_now (clock : nat -> Z) : ps Z := fun s =>
  Ok (clock (ps_ticks s),
      mkPs (ps_po s) (ps_van s) (ps_customers s) (ps_dmlc_rank s) (ps_sent s) (ps_connects s) (S (ps_ticks s))).

(** A range-based [for] loop. *)
Fixpoint ps_forM {A} (l : list A) (f : A -> ps unit) : ps unit :=
  match l with
  | [] => mret tt
  | a :: l' => f a;; ps_forM l' f
  end.

Lemma ps_bind_Ok {A B} (m : ps A) (f : A -> ps B) s a s' :
  m s = Ok (a, s') -> (m ≫= f) s = f a s'.
Proof. intros H. unfold mbind, ps_bind. by rewrite H. Qed.

Lemma ps_lift_Ok {A} (o : outcome A) a s : o = Ok a -> ps_lift o s = Ok (a, s).
Proof. by intros ->. Qed.

(** Run the first statement, or a pure computation. *)
Ltac ps_step H := rewrite (ps_bind_Ok _ _ _ _ _ H).
Ltac ps_lift_step H := rewrite (ps_bind_Ok _ _ _ _ _ (ps_lift_Ok _ _ _ H)).
