(* ===== verification/Resender.v ===== *)
(** [Van::Send] (src/src/van.cc) and the resender (src/src/resender.h), which
    acknowledges messages, drops duplicates and repeats what was not
    acknowledged. *)

From S2P Require Import Prelude Bytes Memory PsMessage Ps.

Section resender.
(** [SendMsg msg] is the number of bytes the transport says it sent; [junk]
    stands for the fields that [Meta()] leaves uninitialised. *)
Context (SendMsg : Message -> Z) (clock : nat -> Z) (junk : Z).

Definition Message_new : Message := mkMessage (Meta_new junk junk junk junk junk) [].

(** [Van::my_node()] *)
Definition my_node : ps Node :=
  v ← ps_gets ps_van;
  ps_lift (CHECK (v_ready v));;
  mret (v_my_node v).

Definition set_resender (v : Van) (r : Resender) : Van :=
  mkVan (v_scheduler v) (v_my_node v) (v_is_scheduler v) (v_connected_nodes v) (v_shared_node_mapping v)
    (v_ready v) (v_send_bytes v) (v_recv_bytes v) (v_num_servers v) (v_num_workers v) (v_barrier_count v)
    (Some r) (v_timestamp v) (v_init_stage v) (v_heartbeat_timeout v) (v_nodes v) (v_recovery_nodes v).
Definition set_send_bytes (v : Van) (n : Z) : Van :=
  mkVan (v_scheduler v) (v_my_node v) (v_is_scheduler v) (v_connected_nodes v) (v_shared_node_mapping v)
    (v_ready v) n (v_recv_bytes v) (v_num_servers v) (v_num_workers v) (v_barrier_count v)
    (v_resender v) (v_timestamp v) (v_init_stage v) (v_heartbeat_timeout v) (v_nodes v) (v_recovery_nodes v).
Definition set_timestamp (v : Van) t : Van :=
  mkVan (v_scheduler v) (v_my_node v) (v_is_scheduler v) (v_connected_nodes v) (v_shared_node_mapping v)
    (v_ready v) (v_send_bytes v) (v_recv_bytes v) (v_num_servers v) (v_num_workers v) (v_barrier_count v)
    (v_resender v) t (v_init_stage v) (v_heartbeat_timeout v) (v_nodes v) (v_recovery_nodes v).
Definition set_send_buff (r : Resender) (b : gmap Z Entry) : Resender :=
  mkResender b (rs_acked r) (rs_timeout r) (rs_max_num_retry r).
Definition set_acked (r : Resender) (a : gset Z) : Resender :=
  mkResender (rs_send_buff r) a (rs_timeout r) (rs_max_num_retry r).
Definition modify_resender (f : Resender -> Resender) : ps unit :=
  modify_van (fun v => match v_resender v with Some r => set_resender v (f r) | None => v end).

(** [Van::GetTimestamp], and [timestamp_++] *)
Definition GetTimestamp : ps Z :=
  v ← ps_gets ps_van;
  modify_van (fun v => set_timestamp v (s32 (v_timestamp v + 1)));;
  mret (v_timestamp v).

(** The signature of a message. The id parts are cut to 16 and 8 bits; the
    timestamp is shifted as an [int]. *)
Definition key_bits (app_id sender recver timestamp : Z) (request : bool) : Z :=
  Z.lor (Z.lor (Z.lor (Z.lor (Z.shiftl (u16 app_id) 48) (Z.shiftl (u8 sender) 40))
                      (Z.shiftl (u8 recver) 32))
               (u64 (s32 (Z.shiftl timestamp 1))))
        (if request then 1 else 0).

Definition GetKey (msg : Message) : ps Z :=
  let t := ms_meta msg in
  ps_lift (CHECK (negb (mt_timestamp t =? kEmpty)));;
  sender ← (if mt_sender t =? kEmpty then n ← my_node; mret (n_id n) else mret (mt_sender t));
  ps_lift (DEFINED ((0 <=? mt_timestamp t) && (Z.shiftl (mt_timestamp t) 1 <? 2 ^ 32)));;
  mret (key_bits (mt_app_id t) sender (mt_recver t) (mt_timestamp t) (mt_request t)).

Definition AddOutgoing (r : Resender) (msg : Message) : ps unit :=
  if decide (ct_cmd (mt_control (ms_meta msg)) = ACK) then mret tt
  else
    ps_lift (CHECK (negb (mt_timestamp (ms_meta msg) =? kEmpty)));;
    key ← GetKey msg;
    match rs_send_buff r !! key with
    | Some _ => mret tt
    | None =>
        now ← ps_now clock;
        modify_resender (fun r => set_send_buff r (<[key := mkEntry msg now 0]> (rs_send_buff r)))
    end.

(** [Van::Send] *)
Definition Send (msg : Message) : ps Z :=
  let send_bytes := SendMsg msg in
  ps_modify (fun s => add_sent s msg);;
  ps_lift (CHECK (negb (send_bytes =? -1)));;
  modify_van (fun v => set_send_bytes v (u64 (v_send_bytes v + send_bytes)));;
  v ← ps_gets ps_van;
  (match v_resender v with Some r => AddOutgoing r msg | None => mret tt end);;
  mret send_bytes.

Definition set_control (t : Meta) (c : Control) : Meta :=
  mkMeta (mt_head t) (mt_app_id t) (mt_customer_id t) (mt_timestamp t) (mt_sender t) (mt_recver t)
    (mt_request t) (mt_push t) (mt_simple_app t) (mt_body t) (mt_data_type t) c (mt_data_size t) (mt_key t)
    (mt_addr t) (mt_val_len t) (mt_option t).
Definition set_ends (t : Meta) (sender recver timestamp : Z) : Meta :=
  mkMeta (mt_head t) (mt_app_id t) (mt_customer_id t) timestamp sender recver
    (mt_request t) (mt_push t) (mt_simple_app t) (mt_body t) (mt_data_type t) (mt_control t) (mt_data_size t)
    (mt_key t) (mt_addr t) (mt_val_len t) (mt_option t).

(** The acknowledgement of a message with signature [key]. *)
Definition make_ack (msg : Message) (key : Z) : Message :=
  let t := ms_meta Message_new in
  mkMessage (set_control (set_ends t (mt_recver (ms_meta msg)) (mt_sender (ms_meta msg)) (mt_timestamp t))
               (mkControl ACK [] (ct_barrier_group (mt_control t)) key)) [].

(** Returns whether the message is to be dropped. *)
Definition AddIncomming (r : Resender) (msg : Message) : ps bool :=
  let c := mt_control (ms_meta msg) in
  if decide (ct_cmd c = TERMINATE) then mret false
  else if decide (ct_cmd c = ACK) then
    modify_resender (fun r => set_send_buff r (delete (ct_msg_sig c) (rs_send_buff r)));;
    mret true
  else
    key ← GetKey msg;
    let duplicated := bool_decide (key ∈ rs_acked r) in
    (if duplicated then mret tt else modify_resender (fun r => set_acked r ({[key]} ∪ rs_acked r)));;
    Send (make_ack msg key);;
    mret duplicated.

(** One round of [Monitoring]: the entries in the order of the table. *)
Fixpoint overdue (max_num_retry timeout now : Z) (entries : list (Z * Entry)) :
    outcome (list Message * list (Z * Entry)) :=
  match entries with
  | [] => Ok ([], [])
  | (k, e) :: es =>
      if en_send e + timeout * (1 + en_num_retry e) <? now then
        CHECK (en_num_retry e + 1 <? max_num_retry);;
        r ← overdue max_num_retry timeout now es;
        Ok (en_msg e :: fst r, (k, mkEntry (en_msg e) (en_send e) (en_num_retry e + 1)) :: snd r)
      else
        r ← overdue max_num_retry timeout now es;
        Ok (fst r, (k, e) :: snd r)
  end.

Definition Monitoring_once (r : Resender) : ps unit :=
  now ← ps_now clock;
  out ← ps_lift (overdue (rs_max_num_retry r) (rs_timeout r) now (map_to_list (rs_send_buff r)));
  modify_resender (fun r => set_send_buff r (list_to_map (snd out)));;
  ps_forM (fst out) (fun m => Send m;; mret tt).
End resender.

(** ** The signature *)

Lemma lor_low a b n : 0 <= n -> 0 <= b < 2 ^ n -> Z.lor (a * 2 ^ n) b = a * 2 ^ n + b.
Proof.
  intros Hn Hb. assert (Hl : Z.land (a * 2 ^ n) b = 0).
  { apply Z.bits_inj'. intros i Hi. rewrite Z.land_spec, Z.bits_0. destruct (Z.ltb_spec i n).
    - by rewrite Z.mul_pow2_bits_low by lia.
    - destruct (Z.eq_dec b 0) as [->|]; [by rewrite Z.bits_0, andb_false_r|].
      rewrite (Z.bits_above_log2 b), andb_false_r; [done|lia|]. apply (Z.lt_le_trans _ n); [|lia].
      apply Z.log2_lt_pow2; lia. }
  by rewrite Z.add_nocarry_lxor, Z.lxor_lor by done.
Qed.

Lemma key_bits_sum app_id sender recver ts (request : bool) : 0 <= ts < 2 ^ 30 ->
  key_bits app_id sender recver ts request =
    u16 app_id * 2 ^ 48 + u8 sender * 2 ^ 40 + u8 recver * 2 ^ 32 + ts * 2 + (if request then 1 else 0).
Proof.
  intros Hts. unfold key_bits. pose proof (u16_range app_id). pose proof (u8_range sender). pose proof (u8_range recver).
  rewrite !Z.shiftl_mul_pow2 by lia. rewrite s32_small, u64_small by lia.
  rewrite lor_low by lia.
  replace (u16 app_id * 2 ^ 48 + u8 sender * 2 ^ 40) with ((u16 app_id * 2 ^ 8 + u8 sender) * 2 ^ 40) by lia.
  rewrite lor_low by lia.
  replace ((u16 app_id * 2 ^ 8 + u8 sender) * 2 ^ 40 + u8 recver * 2 ^ 32)
    with (((u16 app_id * 2 ^ 8 + u8 sender) * 2 ^ 8 + u8 recver) * 2 ^ 32) by lia.
  rewrite lor_low by lia.
  replace (((u16 app_id * 2 ^ 8 + u8 sender) * 2 ^ 8 + u8 recver) * 2 ^ 32 + ts * 2 ^ 1)
    with ((((u16 app_id * 2 ^ 8 + u8 sender) * 2 ^ 8 + u8 recver) * 2 ^ 31 + ts) * 2 ^ 1) by lia.
  rewrite lor_low by (destruct request; lia). lia.
Qed.

(** What the signature is made of. The customer id is not part of it: messages of
    two customers of an application can have the same signature. *)
Definition identity (m : Message) : Z * Z * Z * Z * bool :=
  let t := ms_meta m in (mt_app_id t, mt_sender t, mt_recver t, mt_timestamp t, mt_request t).

Definition msg_key (m : Message) : Z :=
  let t := ms_meta m in key_bits (mt_app_id t) (mt_sender t) (mt_recver t) (mt_timestamp t) (mt_request t).

(** The ids fit the bits that the signature keeps of them. *)
Definition small_ids (m : Message) : Prop :=
  let t := ms_meta m in
  0 <= mt_app_id t < 2 ^ 16 /\ 0 <= mt_sender t < 2 ^ 8 /\ 0 <= mt_recver t < 2 ^ 8 /\
  0 <= mt_timestamp t < 2 ^ 30.

(** The message has a sender, and a timestamp that the shift does not overflow. *)
Definition numbered (m : Message) : Prop :=
  let t := ms_meta m in mt_sender t <> kEmpty /\ 0 <= mt_timestamp t < 2 ^ 30.

Lemma small_numbered m : small_ids m -> numbered m.
Proof. intros (_ & ? & _ & ?). unfold numbered, kEmpty. lia. Qed.

Lemma msg_key_identity m1 m2 : small_ids m1 -> small_ids m2 ->
  msg_key m1 = msg_key m2 <-> identity m1 = identity m2.
Proof.
  intros (Ha1 & Hs1 & Hr1 & Ht1) (Ha2 & Hs2 & Hr2 & Ht2). unfold msg_key, identity.
  split; [|by intros [= -> -> -> -> ->]]. rewrite !key_bits_sum by lia. unwrap. intros Hk.
  assert (mt_app_id (ms_meta m1) = mt_app_id (ms_meta m2) /\ mt_sender (ms_meta m1) = mt_sender (ms_meta m2) /\
    mt_recver (ms_meta m1) = mt_recver (ms_meta m2) /\ mt_timestamp (ms_meta m1) = mt_timestamp (ms_meta m2) /\
    mt_request (ms_meta m1) = mt_request (ms_meta m2)) as (-> & -> & -> & -> & ->); [|done].
  destruct (mt_request (ms_meta m1)), (mt_request (ms_meta m2)); repeat split; done || lia.
Qed.

(** ** Incoming messages *)

Section incoming.
Context (SendMsg : Message -> Z) (clock : nat -> Z) (junk : Z).
Context (Hsend : forall m, SendMsg m <> -1).

(** The messages [ms] arrive; the flags say which are dropped. *)
Fixpoint incoming_all (ms : list Message) : ps (list bool) :=
  match ms with
  | [] => mret []
  | m :: ms' =>
      v ← ps_gets ps_van;
      d ← (match v_resender v with Some r => AddIncomming SendMsg clock junk r m | None => mret false end);
      ds ← incoming_all ms';
      mret (d :: ds)
  end.

Definition delivered (ms : list Message) (flags : list bool) : list Message :=
  map fst (List.filter (fun mf => negb (snd mf)) (zip ms flags)).

(** An application message: not one of the resender's or of the shutdown. *)
Definition ordinary (m : Message) : Prop :=
  ct_cmd (mt_control (ms_meta m)) <> TERMINATE /\ ct_cmd (mt_control (ms_meta m)) <> ACK.

Lemma GetKey_ok m s : numbered m -> GetKey m s = Ok (msg_key m, s).
Proof.
  intros (Hs & Ht). unfold GetKey.
  ps_lift_step (CHECK_true (negb (mt_timestamp (ms_meta m) =? kEmpty)) ltac:(b2p; unfold kEmpty; lia)).
  rewrite (proj2 (Z.eqb_neq (mt_sender (ms_meta m)) kEmpty)) by done.
  ps_step (eq_refl : (mret (mt_sender (ms_meta m)) : ps Z) s = Ok (mt_sender (ms_meta m), s)).
  ps_lift_step (DEFINED_true ((0 <=? mt_timestamp (ms_meta m)) && (Z.shiftl (mt_timestamp (ms_meta m)) 1 <? 2 ^ 32))
    ltac:(rewrite Z.shiftl_mul_pow2 by lia; b2p; lia)).
  done.
Qed.

(** Acknowledgements are not buffered. *)
Lemma Send_ack_ok m k s :
  exists s', Send SendMsg clock (make_ack junk m k) s = Ok (SendMsg (make_ack junk m k), s') /\
    ps_sent s' = ps_sent s ++ [make_ack junk m k] /\ v_resender (ps_van s') = v_resender (ps_van s).
Proof.
  unfold Send.
  ps_step (eq_refl : ps_modify (fun s => add_sent s (make_ack junk m k)) s = Ok (tt, add_sent s (make_ack junk m k))).
  ps_lift_step (CHECK_true (negb (SendMsg (make_ack junk m k) =? -1)) ltac:(b2p; apply Hsend)).
  set (s1 := add_sent s _). set (s2 := set_van s1 (set_send_bytes (ps_van s1) (u64 (v_send_bytes (ps_van s1) + SendMsg (make_ack junk m k))))).
  ps_step (eq_refl : modify_van (fun v => set_send_bytes v (u64 (v_send_bytes v + SendMsg (make_ack junk m k)))) s1 = Ok (tt, s2)).
  ps_step (eq_refl : ps_gets ps_van s2 = Ok (ps_van s2, s2)).
  exists s2. split; [|done]. destruct (v_resender (ps_van s2)) as [r|].
  - unfold AddOutgoing. rewrite decide_True by done. done.
  - done.
Qed.

Lemma AddIncomming_ok m s r : ordinary m -> numbered m -> v_resender (ps_van s) = Some r ->
  exists s', AddIncomming SendMsg clock junk r m s = Ok (bool_decide (msg_key m ∈ rs_acked r), s') /\
    ps_sent s' = ps_sent s ++ [make_ack junk m (msg_key m)] /\
    v_resender (ps_van s') = Some (set_acked r ({[msg_key m]} ∪ rs_acked r)).
Proof.
  intros [Ht Ha] Hids Hr. unfold AddIncomming. rewrite (decide_False _ _ Ht), (decide_False _ _ Ha).
  ps_step (GetKey_ok m s Hids). case_bool_decide as Hin.
  - ps_step (eq_refl : (mret tt : ps unit) s = Ok (tt, s)).
    destruct (Send_ack_ok m (msg_key m) s) as (s' & Hs & Hsent & Hres). ps_step Hs.
    exists s'. split; [done|]. split; [done|]. rewrite Hres, Hr. f_equal.
    replace ({[msg_key m]} ∪ rs_acked r) with (rs_acked r) by set_solver. by destruct r.
  - set (s1 := set_van s (set_resender (ps_van s) (set_acked r ({[msg_key m]} ∪ rs_acked r)))).
    assert (Hm : modify_resender (fun r => set_acked r ({[msg_key m]} ∪ rs_acked r)) s = Ok (tt, s1)).
    { unfold modify_resender, modify_van, ps_modify. by rewrite Hr. }
    ps_step Hm. destruct (Send_ack_ok m (msg_key m) s1) as (s' & Hs & Hsent & Hres). ps_step Hs.
    exists s'. split; [done|]. split; [done|]. by rewrite Hres.
Qed.

Lemma incoming_all_run ms s r : Forall ordinary ms -> Forall numbered ms -> v_resender (ps_van s) = Some r ->
  exists s' flags r', incoming_all ms s = Ok (flags, s') /\ length flags = length ms /\
    ps_sent s' = ps_sent s ++ map (fun m => make_ack junk m (msg_key m)) ms /\
    v_resender (ps_van s') = Some r' /\ rs_acked r' = list_to_set (map msg_key ms) ∪ rs_acked r /\
    NoDup (map msg_key (delivered ms flags)) /\
    (forall k, k ∈ map msg_key (delivered ms flags) <-> k ∈ map msg_key ms /\ k ∉ rs_acked r) /\
    delivered ms flags ⊆ ms.
Proof.
  intros Ho Hi. revert s r. induction Ho as [|m ms Hm Ho IH]; intros s r Hr.
  { exists s, [], r. split; [done|]. split; [done|]. cbn. rewrite app_nil_r.
    split; [done|]. split; [done|]. split; [set_solver|]. split; [constructor|]. split; [set_solver|done]. }
  inversion Hi as [|? ? Hi1 Hi2]; subst.
  destruct (AddIncomming_ok m s r Hm Hi1 Hr) as (s1 & Hrun1 & Hsent1 & Hres1).
  destruct (IH Hi2 s1 _ Hres1) as (s2 & flags & r2 & Hrun2 & Hlen & Hsent2 & Hres2 & Hack & Hnd & Hin & Hsub).
  exists s2, (bool_decide (msg_key m ∈ rs_acked r) :: flags), r2.
  cbn [incoming_all]. ps_step (eq_refl : ps_gets ps_van s = Ok (ps_van s, s)). rewrite Hr.
  ps_step Hrun1. ps_step Hrun2. split; [done|]. split; [cbn; by rewrite Hlen|].
  split; [rewrite Hsent2, Hsent1, <- app_assoc; done|]. split; [done|].
  split; [rewrite Hack; cbn; set_solver|]. cbn [rs_acked set_acked] in Hin.
  unfold delivered in *. cbn [zip zip_with List.filter snd map].
  case_bool_decide as Hd; cbn [negb map fst].
  - split; [done|]. split; [|set_solver]. intros k. rewrite Hin. cbn. set_solver.
  - split; [constructor; [|done]; rewrite Hin; set_solver|]. split; [|set_solver].
    intros k. rewrite !elem_of_cons, Hin. destruct (decide (k = msg_key m)) as [->|]; set_solver.
Qed.

(** A message is dropped exactly if its signature has been seen. *)
Lemma incoming_all_flags ms s r s' flags : Forall ordinary ms -> Forall numbered ms -> v_resender (ps_van s) = Some r ->
  incoming_all ms s = Ok (flags, s') ->
  forall i m d, ms !! i = Some m -> flags !! i = Some d ->
    d = true <-> msg_key m ∈ map msg_key (take i ms) \/ msg_key m ∈ rs_acked r.
Proof.
  intros Ho Hi. revert s r flags. induction Ho as [|m ms Hm Ho IH]; intros s r flags Hr Hrun i m' d Hi' Hd; [done|].
  inversion Hi as [|? ? Hi1 Hi2]; subst.
  destruct (AddIncomming_ok m s r Hm Hi1 Hr) as (s1 & Hrun1 & _ & Hres1).
  destruct (incoming_all_run ms s1 _ Ho Hi2 Hres1) as (s2 & fl & _ & Hrun2 & _).
  assert (Heq : incoming_all (m :: ms) s = Ok (bool_decide (msg_key m ∈ rs_acked r) :: fl, s2)).
  { cbn [incoming_all]. ps_step (eq_refl : ps_gets ps_van s = Ok (ps_van s, s)). rewrite Hr. ps_step Hrun1. ps_step Hrun2. done. }
  rewrite Hrun in Heq. injection Heq as -> ->. destruct i as [|i].
  - injection Hi' as <-. injection Hd as <-. rewrite bool_decide_eq_true. cbn. set_solver.
  - rewrite (IH Hi2 s1 _ fl Hres1 Hrun2 i m' d Hi' Hd). cbn [rs_acked set_acked take map]. set_solver.
Qed.
End incoming.

Section properties.
Context (SendMsg : Message -> Z) (clock : nat -> Z) (junk : Z).

(** C13: delivery is exactly once, as long as the signature tells the messages
    apart. Node ids are below 256, application ids below 65536 and timestamps
    below 2^30 ([small_ids]), and messages of the run that agree in application,
    sender, receiver, timestamp and request flag are the same message: the
    signature has no more of a message, in particular not its customer
    ([customers_collide]). Then, whatever messages arrive, repeated by the
    network or by the sender's resender in any order, the first copy of every
    message is handed on and no other, so that every message is handed on
    exactly once, and every copy is acknowledged with its signature. *)
Theorem delivered_exactly_once ms s r
    (Hsend : forall m, SendMsg m <> -1) (Ho : Forall ordinary ms) (Hi : Forall small_ids ms)
    (Hdistinct : forall m1 m2, m1 ∈ ms -> m2 ∈ ms -> identity m1 = identity m2 -> m1 = m2)
    (Hr : v_resender (ps_van s) = Some r) (Hnew : rs_acked r = ∅) :
  exists s' flags, incoming_all SendMsg clock junk ms s = Ok (flags, s') /\ length flags = length ms /\
    (forall i m d, ms !! i = Some m -> flags !! i = Some d -> d = true <-> m ∈ take i ms) /\
    NoDup (delivered ms flags) /\ (forall m, m ∈ delivered ms flags <-> m ∈ ms) /\
    ps_sent s' = ps_sent s ++ map (fun m => make_ack junk m (msg_key m)) ms.
Proof.
  assert (Hn : Forall numbered ms) by (eapply Forall_impl; [exact Hi|apply small_numbered]).
  destruct (incoming_all_run SendMsg clock junk Hsend ms s r Ho Hn Hr)
    as (s' & flags & r' & Hrun & Hlen & Hsent & _ & _ & Hnd & Hin & Hsub).
  assert (Hkey : forall m1 m2, m1 ∈ ms -> m2 ∈ ms -> msg_key m1 = msg_key m2 -> m1 = m2).
  { rewrite Forall_forall in Hi. intros m1 m2 H1 H2 Hk. apply Hdistinct; [done..|]. apply msg_key_identity; auto. }
  exists s', flags. split; [done|]. split; [done|]. split; [|split; [by apply NoDup_fmap_1 in Hnd|split; [|done]]].
  - intros i m d Hm Hd.
    rewrite (incoming_all_flags SendMsg clock junk Hsend ms s r s' flags Ho Hn Hr Hrun i m d Hm Hd), Hnew. split.
    + intros [(m' & Hk & Hm')%list_elem_of_fmap|Hx]; [|set_solver].
      assert (m' ∈ ms) by (rewrite <- (take_drop i ms); apply elem_of_app; by left).
      rewrite (Hkey m m'); [done|by eapply list_elem_of_lookup_2|done|done].
    + intros Hm'. left. by apply list_elem_of_fmap_2.
  - intros m. split; [apply Hsub|]. intros Hm.
    assert (Hk : msg_key m ∈ map msg_key (delivered ms flags)).
    { apply Hin. split; [by apply list_elem_of_fmap_2|]. rewrite Hnew. set_solver. }
    apply list_elem_of_fmap in Hk as (m' & Heq & Hm'). rewrite (Hkey m m'); [done|done|by apply Hsub|done].
Qed.

(** A message whose signature is that of an earlier, different one is
    acknowledged, but dropped. *)
Lemma same_signature_dropped m1 m2 s r
    (Hsend : forall m, SendMsg m <> -1) (Ho : Forall ordinary [m1; m2]) (Hi : Forall numbered [m1; m2])
    (Hk : msg_key m2 = msg_key m1) (Hr : v_resender (ps_van s) = Some r) (Hnew : rs_acked r = ∅) :
  exists s', incoming_all SendMsg clock junk [m1; m2] s = Ok ([false; true], s') /\
    ps_sent s' = ps_sent s ++ [make_ack junk m1 (msg_key m1); make_ack junk m2 (msg_key m1)].
Proof.
  inversion Ho as [|? ? Ho1 Ho2]; subst. inversion Ho2; subst.
  inversion Hi as [|? ? Hi1 Hi2]; subst. inversion Hi2; subst. cbn [incoming_all].
  destruct (AddIncomming_ok SendMsg clock junk Hsend m1 s r Ho1 Hi1 Hr) as (s1 & Hrun1 & Hsent1 & Hres1).
  ps_step (eq_refl : ps_gets ps_van s = Ok (ps_van s, s)). rewrite Hr. ps_step Hrun1.
  destruct (AddIncomming_ok SendMsg clock junk Hsend m2 s1 _ ltac:(done) ltac:(done) Hres1) as (s2 & Hrun2 & Hsent2 & Hres2).
  unfold mbind, ps_bind, ps_gets, mret, ps_ret. rewrite Hres1, Hrun2. exists s2.
  rewrite Hnew. cbn [rs_acked set_acked]. rewrite bool_decide_false by set_solver.
  rewrite bool_decide_true by (rewrite Hk; set_solver). split; [done|].
  by rewrite Hsent2, Hsent1, Hk, <- app_assoc.
Qed.

(** Node ids beyond 255 are not told apart: of two messages whose senders differ
    by a multiple of 256 the second is dropped. *)
Theorem large_ids_collide m1 m2 s r
    (Hsend : forall m, SendMsg m <> -1) (Ho : Forall ordinary [m1; m2]) (Hi : Forall numbered [m1; m2])
    (Hsame : u8 (mt_sender (ms_meta m1)) = u8 (mt_sender (ms_meta m2)))
    (Hrest : mt_app_id (ms_meta m1) = mt_app_id (ms_meta m2) /\ mt_recver (ms_meta m1) = mt_recver (ms_meta m2) /\
             mt_timestamp (ms_meta m1) = mt_timestamp (ms_meta m2) /\ mt_request (ms_meta m1) = mt_request (ms_meta m2))
    (Hr : v_resender (ps_van s) = Some r) (Hnew : rs_acked r = ∅) :
  exists s', incoming_all SendMsg clock junk [m1; m2] s = Ok ([false; true], s') /\
    ps_sent s' = ps_sent s ++ [make_ack junk m1 (msg_key m1); make_ack junk m2 (msg_key m1)].
Proof.
  apply (same_signature_dropped m1 m2 s r Hsend Ho Hi); [|done..].
  unfold msg_key, key_bits. destruct Hrest as (-> & -> & -> & ->). by rewrite Hsame.
Qed.

(** Nor are the customers of an application: of two requests that differ in the
    customer (and in what they carry), but have the same timestamp, which every
    customer counts for itself, the second is dropped. *)
Theorem customers_collide m1 m2 s r
    (Hsend : forall m, SendMsg m <> -1) (Ho : Forall ordinary [m1; m2]) (Hi : Forall small_ids [m1; m2])
    (Hsame : identity m1 = identity m2)
    (Hother : mt_customer_id (ms_meta m1) <> mt_customer_id (ms_meta m2))
    (Hr : v_resender (ps_van s) = Some r) (Hnew : rs_acked r = ∅) :
  m1 <> m2 /\ exists s', incoming_all SendMsg clock junk [m1; m2] s = Ok ([false; true], s') /\
    ps_sent s' = ps_sent s ++ [make_ack junk m1 (msg_key m1); make_ack junk m2 (msg_key m1)].
Proof.
  split; [by intros ->|]. apply (same_signature_dropped m1 m2 s r Hsend Ho); [|rewrite Forall_forall in Hi|done..].
  - eapply Forall_impl; [exact Hi|apply small_numbered].
  - symmetry. apply msg_key_identity; [apply Hi; set_solver..|done].
Qed.
End properties.

Definition example_ps_meta (sender ts : Z) : Meta :=
  mkMeta 0 0 0 ts sender 1 true false false [] [] (Control_new 0 0) 0 0 0 0 0.
Definition example_ps_message (sender ts : Z) : Message := mkMessage (example_ps_meta sender ts) [].
Definition example_ps_node (id : Z) (role : Role) : Node := mkNode role id 0 [] 0 false.
Definition example_van (r : option Resender) : Van :=
  mkVan (example_ps_node 1 SCHEDULER) (example_ps_node 1 SCHEDULER) true ∅ ∅ true 0 0 0 0 [] r 0 2 0
    (Meta_new 0 0 0 0 0) (Meta_new 0 0 0 0 0).
Definition example_ps (po : Postoffice) (r : option Resender) : Ps :=
  mkPs po (example_van r) ∅ None [] [] 0.
Definition example_office : Postoffice := mkPostoffice ∅ ∅ [] false false true 0 0 ∅ 0 ∅ 0.
Definition example_resender : Resender := mkResender ∅ ∅ 1000 10.

Definition example_customer_message (customer ts : Z) : Message :=
  mkMessage (mkMeta 0 0 customer ts 9 1 true false false [] [] (Control_new 0 0) 0 0 0 0 0) [].

Lemma customers_collide_witness :
  exists s',
    incoming_all (fun _ => 1) (fun _ => 0) 0 [example_customer_message 0 3; example_customer_message 1 3]
      (example_ps example_office (Some example_resender)) = Ok ([false; true], s').
Proof.
  destruct (customers_collide (fun _ => 1) (fun _ => 0) 0 (example_customer_message 0 3) (example_customer_message 1 3)
    (example_ps example_office (Some example_resender)) example_resender)
    as (_ & s' & H1 & _); try reflexivity.
  - intros; lia.
  - repeat constructor; discriminate.
  - repeat constructor; cbn; lia.
  - discriminate.
  - exists s'. exact H1.
Defined.

Lemma delivered_exactly_once_witness :
  exists s' f0 f1 f2,
    incoming_all (fun _ => 1) (fun _ => 0) 0 [example_ps_message 9 3; example_ps_message 11 3; example_ps_message 9 3]
      (example_ps example_office (Some example_resender)) = Ok ([f0; f1; f2], s') /\ f2 = true /\ f1 <> true.
Proof.
  destruct (delivered_exactly_once (fun _ => 1) (fun _ => 0) 0
    [example_ps_message 9 3; example_ps_message 11 3; example_ps_message 9 3]
    (example_ps example_office (Some example_resender)) example_resender)
    as (s' & flags & H1 & H2 & H3 & _); try reflexivity.
  - intros; lia.
  - repeat constructor; discriminate.
  - repeat constructor; cbn; lia.
  - intros m1 m2 Hm1 Hm2. repeat (apply elem_of_cons in Hm1 as [->|Hm1]); try (by apply elem_of_nil in Hm1);
      repeat (apply elem_of_cons in Hm2 as [->|Hm2]); try (by apply elem_of_nil in Hm2); done.
  - destruct flags as [|f0 [|f1 [|f2 [|]]]]; try discriminate H2. exists s', f0, f1, f2. split; [exact H1|]. split.
    + apply (H3 2%nat (example_ps_message 9 3) f2 eq_refl eq_refl). set_solver.
    + intros Hf. apply (H3 1%nat (example_ps_message 11 3) f1 eq_refl eq_refl), list_elem_of_singleton in Hf. discriminate.
Defined.

Lemma large_ids_collide_witness :
  exists s',
    incoming_all (fun _ => 1) (fun _ => 0) 0 [example_ps_message 9 3; example_ps_message 265 3]
      (example_ps example_office (Some example_resender)) = Ok ([false; true], s').
Proof.
  destruct (large_ids_collide (fun _ => 1) (fun _ => 0) 0 (example_ps_message 9 3) (example_ps_message 265 3)
    (example_ps example_office (Some example_resender)) example_resender)
    as (s' & H1 & _); try reflexivity.
  - intros; lia.
  - repeat constructor; discriminate.
  - unfold numbered, kEmpty. repeat constructor; cbn; lia.
  - repeat split.
  - exists s'. exact H1.
Defined.

(** ** Sending *)

Section sending.
Context (SendMsg : Message -> Z) (clock : nat -> Z) (junk : Z).
Context (Hsend : forall m, 0 < SendMsg m).

(** The state after [new] has been sent, with the timestamp and byte counter
    at [ts] and [n]. *)
Definition after_sends (s : Ps) (ts n : Z) (new : list Message) : Ps :=
  mkPs (ps_po s) (set_timestamp (set_send_bytes (ps_van s) n) ts) (ps_customers s) (ps_dmlc_rank s)
    (ps_sent s ++ new) (ps_connects s) (ps_ticks s).

(** No resender, and the nodes that share an address are [sh]. *)
Definition plain (sh : gmap Z Z) (s : Ps) : Prop :=
  v_resender (ps_van s) = None /\ v_shared_node_mapping (ps_van s) = sh.

(** One message leaves, numbered. *)
Definition sent_one (mk : Z -> Message) (s : Ps) : Ps :=
  let m := mk (v_timestamp (ps_van s)) in
  after_sends s (s32 (v_timestamp (ps_van s) + 1)) (u64 (v_send_bytes (ps_van s) + SendMsg m)) [m].

Lemma numbered_send {A} (mk : Z -> Message) (k : Z -> ps A) s : v_resender (ps_van s) = None ->
  (ts ← GetTimestamp; n ← Send SendMsg clock (mk ts); k n) s =
    k (SendMsg (mk (v_timestamp (ps_van s)))) (sent_one mk s).
Proof.
  intros Hr. unfold GetTimestamp, Send, ps_gets, ps_modify, modify_van, ps_modify, ps_lift, mbind, ps_bind, mret, ps_ret.
  cbn. specialize (Hsend (mk (v_timestamp (ps_van s)))).
  rewrite CHECK_true by (b2p; lia). cbn. rewrite Hr. done.
Qed.

Lemma send_loop {A} sh (skip : A -> bool) (mk : A -> Z -> Message) (f : A -> ps unit) l s :
  (forall r s, plain sh s -> f r s = Ok (tt, if skip r then s else sent_one (mk r) s)) ->
  plain sh s ->
  exists ts n new, ps_forM l f s = Ok (tt, after_sends s ts n new) /\
    Forall2 (fun r m => exists t, m = mk r t) (List.filter (fun r => negb (skip r)) l) new.
Proof.
  intros Hf. revert s. induction l as [|r l IH]; intros s Hs; cbn [ps_forM List.filter].
  - exists (v_timestamp (ps_van s)), (v_send_bytes (ps_van s)), []. split; [|constructor].
    unfold after_sends. rewrite app_nil_r. by destruct s as [? []].
  - ps_step (Hf r s Hs). destruct (skip r); cbn [negb]; [by apply IH|].
    destruct (IH (sent_one (mk r) s)) as (ts & n & new & Hrun & Hnew); [done|].
    exists ts, n, (mk r (v_timestamp (ps_van s)) :: new). split.
    + rewrite Hrun. unfold after_sends, sent_one. cbn. by rewrite <- app_assoc.
    + constructor; [by eexists|done].
Qed.
End sending.
