(* ===== verification/Postoffice.v ===== *)
(** The post office: src/src/postoffice.cc and
    src/include/ps/internal/postoffice.h, with the constants of
    src/include/ps/base.h and src/include/ps/range.h. *)

From stdpp Require Import strings.
From S2P Require Import Prelude Bytes Memory PsMessage Ps Resender.

(** ** Node ids *)

Definition kMaxKey : Z := 2 ^ 64 - 1.
Definition kScheduler : Z := 1.
Definition kServerGroup : Z := 2.
Definition kWorkerGroup : Z := 4.

Definition WorkerRankToID (rank : Z) : Z := rank * 2 + 9.
Definition ServerRankToID (rank : Z) : Z := rank * 2 + 8.
(** The division of [int]s truncates. *)
Definition IDtoRank (id : Z) : Z := Z.max (Z.quot (id - 8) 2) 0.

(** [node_ids_[g].push_back(id)] *)
Definition push_node (id : Z) (m : gmap Z (list Z)) (g : Z) : gmap Z (list Z) :=
  <[g := default [] (m !! g) ++ [id]]> m.

Definition worker_groups (id : Z) : list Z :=
  [id; kWorkerGroup; kWorkerGroup + kServerGroup; kWorkerGroup + kScheduler;
   kWorkerGroup + kServerGroup + kScheduler].
Definition server_groups (id : Z) : list Z :=
  [id; kServerGroup; kWorkerGroup + kServerGroup; kServerGroup + kScheduler;
   kWorkerGroup + kServerGroup + kScheduler].
Definition scheduler_groups : list Z :=
  [kScheduler; kScheduler + kServerGroup + kWorkerGroup; kScheduler + kWorkerGroup;
   kScheduler + kServerGroup].

(** The loops of [Start] that fill [node_ids_]. *)
Definition init_node_ids (num_workers num_servers : Z) (m : gmap Z (list Z)) : gmap Z (list Z) :=
  let m := foldl (fun m i => foldl (push_node (WorkerRankToID i)) m (worker_groups (WorkerRankToID i)))
             m (seqZ 0 num_workers) in
  let m := foldl (fun m i => foldl (push_node (ServerRankToID i)) m (server_groups (ServerRankToID i)))
             m (seqZ 0 num_servers) in
  foldl (push_node kScheduler) m scheduler_groups.

(** ** Setters *)

Definition po_set_customers (p : Postoffice) c bd : Postoffice :=
  mkPostoffice c (po_node_ids p) (po_server_key_ranges p) (po_is_worker p) (po_is_server p)
    (po_is_scheduler p) (po_num_servers p) (po_num_workers p) bd (po_init_stage p) (po_heartbeats p)
    (po_start_time p).
Definition po_set_key_ranges (p : Postoffice) r : Postoffice :=
  mkPostoffice (po_customers p) (po_node_ids p) r (po_is_worker p) (po_is_server p)
    (po_is_scheduler p) (po_num_servers p) (po_num_workers p) (po_barrier_done p) (po_init_stage p)
    (po_heartbeats p) (po_start_time p).
Definition po_set_heartbeats (p : Postoffice) h : Postoffice :=
  mkPostoffice (po_customers p) (po_node_ids p) (po_server_key_ranges p) (po_is_worker p) (po_is_server p)
    (po_is_scheduler p) (po_num_servers p) (po_num_workers p) (po_barrier_done p) (po_init_stage p)
    h (po_start_time p).
Definition po_set_start (p : Postoffice) stage time : Postoffice :=
  mkPostoffice (po_customers p) (po_node_ids p) (po_server_key_ranges p) (po_is_worker p) (po_is_server p)
    (po_is_scheduler p) (po_num_servers p) (po_num_workers p) (po_barrier_done p) stage
    (po_heartbeats p) time.
Definition po_set_nodes (p : Postoffice) ids stage : Postoffice :=
  mkPostoffice (po_customers p) ids (po_server_key_ranges p) (po_is_worker p) (po_is_server p)
    (po_is_scheduler p) (po_num_servers p) (po_num_workers p) (po_barrier_done p) stage
    (po_heartbeats p) (po_start_time p).

(** ** Operations *)

Section office.
Context (SendMsg : Message -> Z) (clock : nat -> Z) (junk : Z).
(** The environment variables, and [atoi]. *)
Context (env : string -> option string) (atoi : string -> Z).

(** The kind of van that [InitEnvironment] creates. *)
Inductive VanType := RDMA_VAN | MLT_VAN | ZMQ_VAN.

(** [GetEnv(name, default)] *)
Definition GetEnv (name : string) (default : Z) : Z :=
  match env name with Some v => atoi v | None => default end.

(** [CHECK_NOTNULL(Environment::Get()->find(name))] *)
Definition required (name : string) : ps string :=
  match env name with Some v => mret v | None => ps_lift Fatal end.

Definition InitEnvironment : ps VanType :=
  let van := if negb (GetEnv "DMLC_ENABLE_RDMA" 0 =? 0) then RDMA_VAN
             else if negb (GetEnv "USE_MLT" 0 =? 0) then MLT_VAN else ZMQ_VAN in
  w ← required "DMLC_NUM_WORKER";
  sv ← required "DMLC_NUM_SERVER";
  role ← required "DMLC_ROLE";
  modify_po (fun p =>
    mkPostoffice (po_customers p) (po_node_ids p) (po_server_key_ranges p)
      (bool_decide (role = "worker")) (bool_decide (role = "server")) (bool_decide (role = "scheduler"))
      (atoi sv) (atoi w) (po_barrier_done p) (po_init_stage p) (po_heartbeats p) (po_start_time p));;
  mret van.

(** The first block of [Start]. *)
Definition Start_init : ps unit :=
  p ← ps_gets ps_po;
  if po_init_stage p =? 0 then
    InitEnvironment;;
    modify_po (fun p => po_set_nodes p
      (init_node_ids (po_num_workers p) (po_num_servers p) (po_node_ids p)) (po_init_stage p + 1))
  else mret tt.

(** The second block, after the van has started. *)
Definition Start_time : ps unit :=
  p ← ps_gets ps_po;
  if po_init_stage p =? 1 then
    now ← ps_now clock;
    modify_po (fun p => po_set_start p (po_init_stage p + 1) now)
  else mret tt.

Definition GetNodeIDs (node_id : Z) : ps (list Z) :=
  p ← ps_gets ps_po;
  match po_node_ids p !! node_id with Some ids => mret ids | None => ps_lift Fatal end.

Definition AddCustomer (ptr : Z) (c : Customer) : ps unit :=
  p ← ps_gets ps_po;
  let app := default ∅ (po_customers p !! cu_app_id c) in
  ps_lift (CHECK (bool_decide (app !! cu_customer_id c = None)));;
  let done := default ∅ (po_barrier_done p !! cu_app_id c) in
  (* [insert] leaves an entry that exists *)
  let done := match done !! cu_customer_id c with
              | Some _ => done | None => <[cu_customer_id c := false]> done end in
  modify_po (fun p => po_set_customers p
    (<[cu_app_id c := <[cu_customer_id c := ptr]> app]> (po_customers p))
    (<[cu_app_id c := done]> (po_barrier_done p))).

Definition RemoveCustomer (c : Customer) : ps unit :=
  p ← ps_gets ps_po;
  let app := delete (cu_customer_id c) (default ∅ (po_customers p !! cu_app_id c)) in
  modify_po (fun p => po_set_customers p
    (if decide (app = ∅) then delete (cu_app_id c) (po_customers p)
     else <[cu_app_id c := app]> (po_customers p))
    (po_barrier_done p)).

(** What a poll of [GetCustomer] sees: [None] to wait and try again (up to the
    timeout), [Some] for the result, a null pointer being [Some None]. *)
Definition GetCustomer_poll (p : Postoffice) (app_id customer_id : Z) : option (option Z) :=
  match po_customers p !! app_id with
  | Some customers_in_app => Some (customers_in_app !! customer_id)
  | None => None
  end.

(** The request of a barrier. *)
Definition barrier_message (customer_id node_group ts : Z) : Message :=
  let t := ms_meta (Message_new junk) in
  mkMessage
    (mkMeta (mt_head t) 0 customer_id ts (mt_sender t) kScheduler true (mt_push t) (mt_simple_app t) (mt_body t)
       (mt_data_type t) (mkControl BARRIER [] node_group (ct_msg_sig (mt_control t)))
       (mt_data_size t) (mt_key t) (mt_addr t) (mt_val_len t) (mt_option t)) [].

(** The part of [Barrier] up to the wait; [false] when there is nothing to wait
    for. *)
Definition Barrier_request (customer_id node_group : Z) : ps bool :=
  ids ← GetNodeIDs node_group;
  if (Z.of_nat (length ids) <=? 1) then mret false
  else
    me ← my_node;
    ps_lift (CHECK (match n_role me with
                    | SCHEDULER => negb (Z.land node_group kScheduler =? 0)
                    | WORKER => negb (Z.land node_group kWorkerGroup =? 0)
                    | SERVER => negb (Z.land node_group kServerGroup =? 0)
                    end));;
    modify_po (fun p => po_set_customers p (po_customers p)
      (<[0 := <[customer_id := false]> (default ∅ (po_barrier_done p !! 0))]> (po_barrier_done p)));;
    ts ← GetTimestamp;
    n ← Send SendMsg clock (barrier_message customer_id node_group ts);
    ps_lift (CHECK (0 <? n));;
    mret true.

(** The condition that [Barrier] waits for. *)
Definition Barrier_passed (p : Postoffice) (customer_id : Z) : bool :=
  default false (default ∅ (po_barrier_done p !! 0) !! customer_id).

Fixpoint mark_done (k : nat) (customer_id : Z) (done : gmap Z bool) : gmap Z bool :=
  match k with
  | O => done
  | S k' => mark_done k' (customer_id + 1) (<[customer_id := true]> done)
  end.

Definition Manage (recv : Message) : ps unit :=
  let t := ms_meta recv in
  ps_lift (CHECK (negb (Control_empty (mt_control t))));;
  if bool_decide (ct_cmd (mt_control t) = BARRIER) && negb (mt_request t) then
    modify_po (fun p =>
      let done := default ∅ (po_barrier_done p !! mt_app_id t) in
      po_set_customers p (po_customers p)
        (<[mt_app_id t := mark_done (size done) 0 done]> (po_barrier_done p)))
  else mret tt.

(** [Range(kMaxKey / n * i, kMaxKey / n * (i + 1))] *)
Definition key_range (n i : Z) : Range :=
  mkRange (u64 (kMaxKey `div` n * i)) (u64 (kMaxKey `div` n * (i + 1))).

Definition GetServerKeyRanges : ps (list Range) :=
  p ← ps_gets ps_po;
  match po_server_key_ranges p with
  | [] =>
      let r := map (key_range (po_num_servers p)) (seqZ 0 (po_num_servers p)) in
      modify_po (fun p => po_set_key_ranges p r);;
      mret r
  | r => mret r
  end.

Definition UpdateHeartbeat (node_id t : Z) : ps unit :=
  modify_po (fun p => po_set_heartbeats p (<[node_id := t]> (po_heartbeats p))).

Definition is_dead (p : Postoffice) (t curr_time r : Z) : bool :=
  (match po_heartbeats p !! r with None => true | Some h => h + t <? curr_time end) &&
  (po_start_time p + t <? curr_time).

Definition GetDeadNodes (t : Z) : ps (list Z) :=
  v ← ps_gets ps_van;
  if negb (v_ready v) || (t =? 0) then mret []
  else
    curr_time ← ps_now clock;
    p ← ps_gets ps_po;
    nodes ← (if po_is_scheduler p then GetNodeIDs (kWorkerGroup + kServerGroup) else GetNodeIDs kScheduler);
    p ← ps_gets ps_po;
    mret (List.filter (is_dead p t curr_time) nodes).
End office.

(** ** Groups *)

Definition members (m : gmap Z (list Z)) (g : Z) : list Z := default [] (m !! g).

Lemma members_push id m g' g :
  members (push_node id m g') g = members m g ++ if decide (g = g') then [id] else [].
Proof.
  unfold members, push_node. case_decide as Hg.
  - subst. by rewrite lookup_insert_eq.
  - by rewrite lookup_insert_ne, app_nil_r by done.
Qed.

Lemma members_pushes id gs m g : NoDup gs ->
  members (foldl (push_node id) m gs) g = members m g ++ if decide (g ∈ gs) then [id] else [].
Proof.
  revert m. induction gs as [|g' gs IH]; intros m Hnd; cbn [foldl].
  - by rewrite decide_False, app_nil_r by set_solver.
  - inversion Hnd; subst. rewrite IH, members_push by done.
    rewrite <- app_assoc. f_equal. destruct (decide (g = g')) as [->|].
    + rewrite decide_False by done. rewrite decide_True by set_solver. done.
    + destruct (decide (g ∈ gs)); [rewrite decide_True by set_solver|rewrite decide_False by set_solver]; done.
Qed.

Lemma members_ranks (toID : Z -> Z) (groups : Z -> list Z) l m g : (forall i, i ∈ l -> NoDup (groups (toID i))) ->
  members (foldl (fun m i => foldl (push_node (toID i)) m (groups (toID i))) m l) g =
  members m g ++ concat (map (fun i => if decide (g ∈ groups (toID i)) then [toID i] else []) l).
Proof.
  revert m. induction l as [|i l IH]; intros m Hnd; cbn [foldl map concat]; [by rewrite app_nil_r|].
  rewrite IH by set_solver. rewrite members_pushes by (apply Hnd; set_solver). by rewrite <- app_assoc.
Qed.

Lemma concat_all (toID : Z -> Z) (P : Z -> Prop) `{forall i, Decision (P i)} l : (forall i, i ∈ l -> P i) ->
  concat (map (fun i => if decide (P i) then [toID i] else []) l) = map toID l.
Proof.
  intros Hall. induction l as [|i l IH]; [done|]. cbn [map concat].
  rewrite decide_True by (apply Hall; set_solver). cbn. rewrite IH by set_solver. done.
Qed.

Lemma concat_none (toID : Z -> Z) (P : Z -> Prop) `{forall i, Decision (P i)} l : (forall i, i ∈ l -> ~ P i) ->
  concat (map (fun i => if decide (P i) then [toID i] else []) l) = [].
Proof.
  intros Hall. induction l as [|i l IH]; [done|]. cbn [map concat].
  rewrite decide_False by (apply Hall; set_solver). cbn. apply IH. set_solver.
Qed.

Lemma concat_if (toID : Z -> Z) (P : Z -> Prop) `{forall i, Decision (P i)} l (b : bool) :
  (forall i, i ∈ l -> P i <-> b = true) ->
  concat (map (fun i => if decide (P i) then [toID i] else []) l) = if b then map toID l else [].
Proof.
  intros Hall. destruct b; [apply concat_all|apply concat_none]; intros i Hi; specialize (Hall i Hi); naive_solver.
Qed.

(** The nodes of the roles whose bits are set in the group. *)
Definition group_nodes (w s g : Z) : list Z :=
  (if Z.testbit g 2 then map WorkerRankToID (seqZ 0 w) else []) ++
  (if Z.testbit g 1 then map ServerRankToID (seqZ 0 s) else []) ++
  (if Z.testbit g 0 then [kScheduler] else []).

Lemma worker_groups_nodup i : 0 <= i -> NoDup (worker_groups (WorkerRankToID i)).
Proof.
  intros. unfold worker_groups, WorkerRankToID, kWorkerGroup, kServerGroup, kScheduler.
  repeat (constructor; [rewrite ?elem_of_cons, elem_of_nil; lia|]). constructor.
Qed.
Lemma server_groups_nodup i : 0 <= i -> NoDup (server_groups (ServerRankToID i)).
Proof.
  intros. unfold server_groups, ServerRankToID, kWorkerGroup, kServerGroup, kScheduler.
  repeat (constructor; [rewrite ?elem_of_cons, elem_of_nil; lia|]). constructor.
Qed.

Lemma members_init w s g :
  members (init_node_ids w s ∅) g =
    concat (map (fun i => if decide (g ∈ worker_groups (WorkerRankToID i)) then [WorkerRankToID i] else []) (seqZ 0 w)) ++
    concat (map (fun i => if decide (g ∈ server_groups (ServerRankToID i)) then [ServerRankToID i] else []) (seqZ 0 s)) ++
    (if decide (g ∈ scheduler_groups) then [kScheduler] else []).
Proof.
  unfold init_node_ids. rewrite members_pushes.
  2:{ unfold scheduler_groups. repeat (constructor; [rewrite ?elem_of_cons, elem_of_nil; vm_compute; intuition congruence|]). constructor. }
  rewrite (members_ranks ServerRankToID server_groups) by (intros i Hi%elem_of_seqZ; apply server_groups_nodup; lia).
  rewrite (members_ranks WorkerRankToID worker_groups) by (intros i Hi%elem_of_seqZ; apply worker_groups_nodup; lia).
  unfold members at 1. rewrite lookup_empty. cbn [default from_option app]. by rewrite app_assoc.
Qed.

Lemma small_group g : 1 <= g <= 7 -> g = 1 \/ g = 2 \/ g = 3 \/ g = 4 \/ g = 5 \/ g = 6 \/ g = 7.
Proof. lia. Qed.

Lemma members_group w s g : 1 <= g <= 7 -> members (init_node_ids w s ∅) g = group_nodes w s g.
Proof.
  intros Hg. rewrite members_init. unfold group_nodes.
  rewrite (concat_if WorkerRankToID (fun i => g ∈ worker_groups (WorkerRankToID i)) _ (Z.testbit g 2)).
  2:{ intros i Hi%elem_of_seqZ. unfold worker_groups, WorkerRankToID, kWorkerGroup, kServerGroup, kScheduler.
      rewrite !elem_of_cons, elem_of_nil.
      destruct (small_group g Hg) as [->|[->|[->|[->|[->|[->| ->]]]]]]; cbn; intuition (lia || congruence). }
  rewrite (concat_if ServerRankToID (fun i => g ∈ server_groups (ServerRankToID i)) _ (Z.testbit g 1)).
  2:{ intros i Hi%elem_of_seqZ. unfold server_groups, ServerRankToID, kWorkerGroup, kServerGroup, kScheduler.
      rewrite !elem_of_cons, elem_of_nil.
      destruct (small_group g Hg) as [->|[->|[->|[->|[->|[->| ->]]]]]]; cbn; intuition (lia || congruence). }
  do 2 f_equal. destruct (small_group g Hg) as [->|[->|[->|[->|[->|[->| ->]]]]]]; reflexivity.
Qed.

Lemma members_single w s id : 8 <= id ->
  members (init_node_ids w s ∅) id =
    concat (map (fun i => if decide (id = WorkerRankToID i) then [WorkerRankToID i] else []) (seqZ 0 w)) ++
    concat (map (fun i => if decide (id = ServerRankToID i) then [ServerRankToID i] else []) (seqZ 0 s)).
Proof.
  intros Hid. rewrite members_init.
  rewrite (decide_False (P := id ∈ scheduler_groups)).
  2:{ unfold scheduler_groups, kWorkerGroup, kServerGroup, kScheduler. rewrite !elem_of_cons, elem_of_nil. lia. }
  rewrite app_nil_r. f_equal; f_equal; apply list_fmap_ext; intros k i Hi%list_elem_of_lookup_2%elem_of_seqZ;
    apply decide_ext;
    unfold worker_groups, server_groups, WorkerRankToID, ServerRankToID, kWorkerGroup, kServerGroup, kScheduler;
    rewrite !elem_of_cons, elem_of_nil; lia.
Qed.

Lemma concat_one (toID : Z -> Z) id l : (forall i j, toID i = toID j -> i = j) -> NoDup l ->
  concat (map (fun i => if decide (id = toID i) then [toID i] else []) l) =
    if decide (id ∈ map toID l) then [id] else [].
Proof.
  intros Hinj Hnd. induction Hnd as [|i l Hi Hnd IH]; [done|]. cbn [map concat]. rewrite IH.
  destruct (decide (id = toID i)) as [->|Hne].
  - rewrite decide_False.
    + rewrite decide_True by left. done.
    + intros (j & Hj & Hin)%list_elem_of_fmap. apply Hinj in Hj as ->. done.
  - destruct (decide (id ∈ map toID l)); [rewrite decide_True by set_solver|rewrite decide_False by set_solver]; done.
Qed.

Lemma all_nodes_nodup w s : NoDup (group_nodes w s 7).
Proof.
  change (group_nodes w s 7) with (map WorkerRankToID (seqZ 0 w) ++ map ServerRankToID (seqZ 0 s) ++ [kScheduler]).
  apply NoDup_app. split; [|split].
  - apply NoDup_fmap_2; [intros i j; unfold WorkerRankToID; lia|apply NoDup_seqZ].
  - intros x (i & -> & Hi%elem_of_seqZ)%list_elem_of_fmap. rewrite elem_of_app, list_elem_of_singleton.
    intros [(j & Hj & _)%list_elem_of_fmap|Hj]; unfold WorkerRankToID, ServerRankToID, kScheduler in *; lia.
  - apply NoDup_app. split; [|split].
    + apply NoDup_fmap_2; [intros i j; unfold ServerRankToID; lia|apply NoDup_seqZ].
    + intros x (i & -> & Hi%elem_of_seqZ)%list_elem_of_fmap. rewrite list_elem_of_singleton.
      unfold ServerRankToID, kScheduler. lia.
    + apply NoDup_singleton.
Qed.

Lemma group_nodes_nodup w s : NoDup (group_nodes w s 6).
Proof.
  pose proof (all_nodes_nodup w s) as H.
  change (group_nodes w s 7) with (map WorkerRankToID (seqZ 0 w) ++ map ServerRankToID (seqZ 0 s) ++ [kScheduler]) in H.
  change (group_nodes w s 6) with (map WorkerRankToID (seqZ 0 w) ++ map ServerRankToID (seqZ 0 s) ++ []).
  rewrite app_nil_r. rewrite app_assoc in H. by apply NoDup_app in H as (H & _).
Qed.

(** C40: the node groups that [Start] sets up for [w] workers and [s] servers, so
    many that their ids fit in an [int]. A group number, the sum of any of
    scheduler, servers and workers, stands for exactly the nodes of those roles;
    every worker and server id stands for itself and no other id above the
    groups for anything; all ids are different; and [IDtoRank] inverts both
    rank-to-id maps. *)
Theorem node_groups w s (Hw : 0 <= w < 2 ^ 30 - 4) (Hs : 0 <= s < 2 ^ 30 - 4) :
  (forall g, 1 <= g <= 7 -> members (init_node_ids w s ∅) g = group_nodes w s g) /\
  (forall id, 8 <= id -> members (init_node_ids w s ∅) id = if decide (id ∈ group_nodes w s 6) then [id] else []) /\
  NoDup (group_nodes w s 7) /\
  (forall r, 0 <= r < 2 ^ 30 - 4 -> IDtoRank (WorkerRankToID r) = r /\ IDtoRank (ServerRankToID r) = r).
Proof.
  split; [intros; by apply members_group|]. split; [|split; [apply all_nodes_nodup|]].
  - intros id Hid. rewrite members_single by done.
    rewrite (concat_one WorkerRankToID), (concat_one ServerRankToID);
      try (intros i j; unfold WorkerRankToID, ServerRankToID; lia); try apply NoDup_seqZ.
    change (group_nodes w s 6) with (map WorkerRankToID (seqZ 0 w) ++ map ServerRankToID (seqZ 0 s) ++ []).
    rewrite app_nil_r.
    destruct (decide (id ∈ map WorkerRankToID (seqZ 0 w))) as [Hin|Hin].
    + rewrite (decide_True (P := id ∈ _ ++ _)) by (apply elem_of_app; by left).
      rewrite decide_False; [done|]. apply list_elem_of_fmap in Hin as (i & -> & _).
      intros (j & Hj & _)%list_elem_of_fmap. unfold WorkerRankToID, ServerRankToID in *. lia.
    + cbn [app]. apply decide_ext. rewrite elem_of_app. tauto.
  - intros r Hr. unfold IDtoRank, WorkerRankToID, ServerRankToID.
    replace (r * 2 + 9 - 8) with (r * 2 + 1) by lia. replace (r * 2 + 8 - 8) with (r * 2) by lia.
    rewrite !Z.quot_div_nonneg by lia. rewrite Z.div_mul, Z.div_add_l by lia. change (1 `div` 2) with 0. lia.
Qed.

Lemma node_groups_witness :
  members (init_node_ids 2 1 ∅) 6 = [9; 11; 8] /\ members (init_node_ids 2 1 ∅) 11 = [11].
Proof.
  destruct (node_groups 2 1 ltac:(lia) ltac:(lia)) as (H1 & H2 & _).
  split; [rewrite (H1 6 ltac:(lia)); vm_compute; reflexivity|rewrite (H2 11 ltac:(lia)); vm_compute; reflexivity].
Defined.

(** ** Key ranges *)

Definition in_range (k : Z) (r : Range) : Prop := rg_begin r <= k < rg_end r.

(** C31: the key ranges of [n] servers. They follow one another without gap or
    overlap from 0 on, all of the same size, so every key below
    [kMaxKey / n * n] belongs to exactly one server; the keys from there to the
    largest belong to none. *)
Theorem key_ranges_partition (s : Ps) n
    (Hn : 0 < n < 2 ^ 31) (Hservers : po_num_servers (ps_po s) = n)
    (Hempty : po_server_key_ranges (ps_po s) = []) :
  exists s' rs, GetServerKeyRanges s = Ok (rs, s') /\ GetServerKeyRanges s' = Ok (rs, s') /\
    Z.of_nat (length rs) = n /\
    (forall k, 0 <= k < kMaxKey `div` n * n ->
       forall j r, rs !! j = Some r -> in_range k r <-> Z.of_nat j = k `div` (kMaxKey `div` n)) /\
    (forall k, 0 <= k < kMaxKey `div` n * n -> 0 <= k `div` (kMaxKey `div` n) < n) /\
    (forall k r, kMaxKey `div` n * n <= k <= kMaxKey -> r ∈ rs -> ~ in_range k r).
Proof.
  unfold GetServerKeyRanges. ps_step (eq_refl : ps_gets ps_po s = Ok (ps_po s, s)). rewrite Hempty, Hservers.
  set (rs := map (key_range n) (seqZ 0 n)). set (q := kMaxKey `div` n).
  assert (Hq : 0 < q) by (apply Z.div_str_pos; unfold kMaxKey; lia).
  assert (Hqn : q * n <= kMaxKey) by (pose proof (Z.mul_div_le kMaxKey n); unfold q; lia).
  assert (Hr : forall j r, rs !! j = Some r -> r = mkRange (q * Z.of_nat j) (q * (Z.of_nat j + 1)) /\ Z.of_nat j < n).
  { intros j r Hj. unfold rs in Hj. rewrite list_lookup_fmap in Hj.
    destruct (seqZ 0 n !! j) as [i|] eqn:Hi; [|done]. injection Hj as <-.
    apply lookup_seqZ in Hi as [-> Hj]. cbn [Z.add]. split; [|lia]. unfold key_range. fold q.
    unfold kMaxKey in Hqn. rewrite !u64_small by nia. done. }
  set (s' := set_po s (po_set_key_ranges (ps_po s) rs)).
  exists s', rs. split; [reflexivity|]. split.
  { unfold GetServerKeyRanges. ps_step (eq_refl : ps_gets ps_po s' = Ok (ps_po s', s')).
    change (po_server_key_ranges (ps_po s')) with rs. destruct rs eqn:Hrs; [|done].
    exfalso. unfold rs in Hrs. apply (f_equal length) in Hrs. rewrite length_fmap, length_seqZ in Hrs. cbn in Hrs. lia. }
  split; [unfold rs; rewrite length_fmap, length_seqZ; lia|]. split; [|split].
  - intros k Hk j r Hj. destruct (Hr j r Hj) as [-> Hjn]. unfold in_range. cbn [rg_begin rg_end].
    pose proof (Z.div_mod k q ltac:(lia)). pose proof (Z.mod_pos_bound k q ltac:(lia)). nia.
  - intros k Hk. split; [apply Z.div_pos; lia|]. apply Z.div_lt_upper_bound; lia.
  - intros k r Hk (j & Hj)%list_elem_of_lookup. destruct (Hr j r Hj) as [-> Hjn].
    unfold in_range. cbn [rg_begin rg_end]. nia.
Qed.

Lemma key_ranges_partition_witness :
  exists s' rs,
    GetServerKeyRanges (example_ps (mkPostoffice ∅ ∅ [] false false true 4 2 ∅ 0 ∅ 0) None) = Ok (rs, s') /\
    Z.of_nat (length rs) = 4.
Proof.
  destruct (key_ranges_partition (example_ps (mkPostoffice ∅ ∅ [] false false true 4 2 ∅ 0 ∅ 0) None) 4
    ltac:(lia) eq_refl eq_refl) as (s' & rs & H1 & _ & H2 & _).
  exists s', rs. split; [exact H1|exact H2].
Defined.
