(* ===== verification/Van.v ===== *)
(** The van: the message loop and the control commands of src/src/van.cc, over
    a transport whose [SendMsg], [Connect] and [RecvMsg] are the virtual
    functions of the class. *)

From stdpp Require Import strings.
From S2P Require Import Prelude Bytes Memory PsMessage Ps Resender Postoffice.

(** ** Setters *)

Definition set_connected (v : Van) c sh : Van :=
  mkVan (v_scheduler v) (v_my_node v) (v_is_scheduler v) c sh
    (v_ready v) (v_send_bytes v) (v_recv_bytes v) (v_num_servers v) (v_num_workers v) (v_barrier_count v)
    (v_resender v) (v_timestamp v) (v_init_stage v) (v_heartbeat_timeout v) (v_nodes v) (v_recovery_nodes v).
Definition set_ranks (v : Van) ns nw : Van :=
  mkVan (v_scheduler v) (v_my_node v) (v_is_scheduler v) (v_connected_nodes v) (v_shared_node_mapping v)
    (v_ready v) (v_send_bytes v) (v_recv_bytes v) ns nw (v_barrier_count v)
    (v_resender v) (v_timestamp v) (v_init_stage v) (v_heartbeat_timeout v) (v_nodes v) (v_recovery_nodes v).
Definition set_ready (v : Van) b : Van :=
  mkVan (v_scheduler v) (v_my_node v) (v_is_scheduler v) (v_connected_nodes v) (v_shared_node_mapping v)
    b (v_send_bytes v) (v_recv_bytes v) (v_num_servers v) (v_num_workers v) (v_barrier_count v)
    (v_resender v) (v_timestamp v) (v_init_stage v) (v_heartbeat_timeout v) (v_nodes v) (v_recovery_nodes v).
Definition set_barrier_count (v : Van) b : Van :=
  mkVan (v_scheduler v) (v_my_node v) (v_is_scheduler v) (v_connected_nodes v) (v_shared_node_mapping v)
    (v_ready v) (v_send_bytes v) (v_recv_bytes v) (v_num_servers v) (v_num_workers v) b
    (v_resender v) (v_timestamp v) (v_init_stage v) (v_heartbeat_timeout v) (v_nodes v) (v_recovery_nodes v).
Definition set_my_node (v : Van) n : Van :=
  mkVan (v_scheduler v) n (v_is_scheduler v) (v_connected_nodes v) (v_shared_node_mapping v)
    (v_ready v) (v_send_bytes v) (v_recv_bytes v) (v_num_servers v) (v_num_workers v) (v_barrier_count v)
    (v_resender v) (v_timestamp v) (v_init_stage v) (v_heartbeat_timeout v) (v_nodes v) (v_recovery_nodes v).
Definition set_recv_bytes (v : Van) n : Van :=
  mkVan (v_scheduler v) (v_my_node v) (v_is_scheduler v) (v_connected_nodes v) (v_shared_node_mapping v)
    (v_ready v) (v_send_bytes v) n (v_num_servers v) (v_num_workers v) (v_barrier_count v)
    (v_resender v) (v_timestamp v) (v_init_stage v) (v_heartbeat_timeout v) (v_nodes v) (v_recovery_nodes v).
Definition set_node_lists (v : Van) nodes recovery : Van :=
  mkVan (v_scheduler v) (v_my_node v) (v_is_scheduler v) (v_connected_nodes v) (v_shared_node_mapping v)
    (v_ready v) (v_send_bytes v) (v_recv_bytes v) (v_num_servers v) (v_num_workers v) (v_barrier_count v)
    (v_resender v) (v_timestamp v) (v_init_stage v) (v_heartbeat_timeout v) nodes recovery.

(** The node list of a [Meta], and its command. *)
Definition meta_nodes (t : Meta) : list Node := ct_node (mt_control t).
Definition with_nodes (t : Meta) (cmd : Command) (ns : list Node) : Meta :=
  set_control t (mkControl cmd ns (ct_barrier_group (mt_control t)) (ct_msg_sig (mt_control t))).
Definition node_with_id (n : Node) (id : Z) : Node :=
  mkNode (n_role n) id (n_customer_id n) (n_hostname n) (n_port n) (n_is_recovery n).

(** ** Addresses and their order *)

Fixpoint digits (fuel : nat) (n : Z) (acc : list Z) : list Z :=
  match fuel with
  | O => acc
  | S fuel' =>
      let acc := (48 + n `mod` 10) :: acc in
      if n `div` 10 =? 0 then acc else digits fuel' (n `div` 10) acc
  end.
(** [std::to_string(int)] *)
Definition to_string (n : Z) : list Z := if n <? 0 then 45 :: digits 11 (- n) [] else digits 11 n [].

(** [node.hostname + ":" + std::to_string(node.port)] *)
Definition addr_str (n : Node) : list Z := n_hostname n ++ 58 :: to_string (n_port n).

(** The sign of [a.compare(b)]. *)
Fixpoint string_compare (a b : list Z) : Z :=
  match a, b with
  | [], [] => 0
  | [], _ => -1
  | _, [] => 1
  | x :: a', y :: b' => if x <? y then -1 else if y <? x then 1 else string_compare a' b'
  end.

(** [(a.hostname.compare(b.hostname) | (a.port < b.port)) > 0] *)
Definition node_before (a b : Node) : bool :=
  0 <? Z.lor (string_compare (n_hostname a) (n_hostname b)) (if n_port a <? n_port b then 1 else 0).

(** [std::sort] with that order. *)
Definition sort_nodes (l : list Node) : list Node := sort_by node_before l.

(** ** Commands *)

Section van.
Context (SendMsg : Message -> Z) (clock : nat -> Z) (junk : Z).

Definition Connect (n : Node) : ps unit := ps_modify (fun s => add_connect s n).

Definition ProcessTerminateCommand : ps unit := modify_van (fun v => set_ready v false).

(** The body of the loop that assigns ids. *)
Definition assign_rank (t : Z) (node : Node) : ps Node :=
  v ← ps_gets ps_van;
  let id := if decide (n_role node = SERVER) then ServerRankToID (v_num_servers v)
            else WorkerRankToID (v_num_workers v) in
  node ← (match v_connected_nodes v !! addr_str node with
          | None =>
              ps_lift (CHECK (n_id node =? kEmpty));;
              let node := node_with_id node id in
              Connect node;;
              UpdateHeartbeat (n_id node) t;;
              modify_van (fun v => set_connected v (<[addr_str node := id]> (v_connected_nodes v))
                                     (v_shared_node_mapping v));;
              mret node
          | Some first =>
              modify_van (fun v => set_connected v (v_connected_nodes v)
                                     (<[id := first]> (v_shared_node_mapping v)));;
              mret (node_with_id node first)
          end);
  modify_van (fun v => set_ranks v
    (if decide (n_role node = SERVER) then v_num_servers v + 1 else v_num_servers v)
    (if decide (n_role node = WORKER) then v_num_workers v + 1 else v_num_workers v));;
  mret node.

Fixpoint assign_ranks (t : Z) (l : list Node) : ps (list Node) :=
  match l with
  | [] => mret []
  | n :: l' => n ← assign_rank t n; ns ← assign_ranks t l'; mret (n :: ns)
  end.

(** [back.meta.recver = r; back.meta.timestamp = timestamp_++; Send(back)] *)
Definition send_to (t : Meta) (r : Z) : ps Z :=
  ts ← GetTimestamp;
  Send SendMsg clock (mkMessage (set_ends t (mt_sender t) r ts) []).

Definition ProcessAddNodeCommandAtScheduler : ps unit :=
  modify_van (fun v => set_node_lists v (v_nodes v)
    (with_nodes (v_recovery_nodes v) ADD_NODE (meta_nodes (v_recovery_nodes v))));;
  t ← ps_now clock;
  p ← ps_gets ps_po;
  v ← ps_gets ps_van;
  let num_nodes := po_num_servers p + po_num_workers p in
  if Z.of_nat (length (meta_nodes (v_nodes v))) =? num_nodes then
    ns ← assign_ranks t (sort_nodes (meta_nodes (v_nodes v)));
    modify_van (fun v => set_node_lists v (with_nodes (v_nodes v) ADD_NODE (ns ++ [v_my_node v]))
                           (v_recovery_nodes v));;
    v ← ps_gets ps_van;
    ids ← GetNodeIDs (kWorkerGroup + kServerGroup);
    ps_forM ids (fun r =>
      if decide (v_shared_node_mapping v !! r = None) then send_to (v_nodes v) r;; mret tt else mret tt);;
    modify_van (fun v => set_ready v true)
  else
    match meta_nodes (v_recovery_nodes v) with
    | [] => mret tt
    | rn :: more =>
        dead ← GetDeadNodes clock (v_heartbeat_timeout v);
        ps_lift (CHECK (Nat.eqb (length (rn :: more)) 1));;
        Connect rn;;
        UpdateHeartbeat (n_id rn) t;;
        ids ← GetNodeIDs (kWorkerGroup + kServerGroup);
        ps_forM ids (fun r =>
          if negb (r =? n_id rn) && bool_decide (r ∈ dead) then mret tt
          else send_to (if r =? n_id rn then v_nodes v else v_recovery_nodes v) r;; mret tt)
    end.

(** The search for a dead node of the same role among the nodes but the last. *)
Fixpoint replace_dead (dead : list Z) (new : Node) (l : list Node) : option (list Node * Node) :=
  match l with
  | [] | [_] => None
  | n :: l' =>
      if bool_decide (n_id n ∈ dead) && bool_decide (n_role n = n_role new) then
        let rec_node := mkNode (n_role new) (n_id n) (n_customer_id new) (n_hostname new) (n_port new) true in
        Some (rec_node :: l', rec_node)
      else
        match replace_dead dead new l' with
        | Some (l'', r) => Some (n :: l'', r)
        | None => None
        end
  end.

(** The registration part of [UpdateLocalID]; returns the nodes of the message,
    whose first may have become a recovery node. *)
Definition register_node (msg : Message) (dead : list Z) : ps (list Node) :=
  let ctrl := mt_control (ms_meta msg) in
  v ← ps_gets ps_van;
  p ← ps_gets ps_po;
  if mt_sender (ms_meta msg) =? kEmpty then
    ps_lift (CHECK (v_is_scheduler v));;
    match ct_node ctrl with
    | [n] =>
        if Z.of_nat (length (meta_nodes (v_nodes v))) <? po_num_servers p + po_num_workers p then
          modify_van (fun v => set_node_lists v
            (with_nodes (v_nodes v) (ct_cmd (mt_control (v_nodes v))) (meta_nodes (v_nodes v) ++ [n]))
            (v_recovery_nodes v));;
          mret [n]
        else
          ps_lift (CHECK (v_ready v));;
          match replace_dead dead n (meta_nodes (v_nodes v)) with
          | Some (ns, r) =>
              modify_van (fun v => set_node_lists v
                (with_nodes (v_nodes v) (ct_cmd (mt_control (v_nodes v))) ns)
                (with_nodes (v_recovery_nodes v) (ct_cmd (mt_control (v_recovery_nodes v)))
                   (meta_nodes (v_recovery_nodes v) ++ [r])));;
              mret [r]
          | None => mret [n]
          end
    | _ => ps_lift Fatal
    end
  else mret (ct_node ctrl).

(** [my_node_ = node; setenv("DMLC_RANK", ...)] when the addresses agree. *)
Definition update_my_id (node : Node) : ps unit :=
  s ← ps_gets id;
  let me := v_my_node (ps_van s) in
  if bool_decide (n_hostname me = n_hostname node) && (n_port me =? n_port node) &&
     (bool_decide (ps_dmlc_rank s = None) || (n_id me =? kEmpty))
  then
    modify_van (fun v => set_my_node v node);;
    ps_modify (fun s => set_dmlc_rank s (Some (IDtoRank (n_id node))))
  else mret tt.

Definition UpdateLocalID (msg : Message) (dead : list Z) : ps (list Node) :=
  ns ← register_node msg dead;
  ps_forM ns update_my_id;;
  mret ns.

(** A node that is not the scheduler learns of the others. *)
Definition learn_node (node : Node) : ps unit :=
  v ← ps_gets ps_van;
  (match v_connected_nodes v !! addr_str node with
   | None =>
       Connect node;;
       modify_van (fun v => set_connected v (<[addr_str node := n_id node]> (v_connected_nodes v))
                              (v_shared_node_mapping v))
   | Some _ => mret tt
   end);;
  modify_van (fun v => set_ranks v
    (if negb (n_is_recovery node) && bool_decide (n_role node = SERVER) then v_num_servers v + 1 else v_num_servers v)
    (if negb (n_is_recovery node) && bool_decide (n_role node = WORKER) then v_num_workers v + 1 else v_num_workers v)).

Definition ProcessAddNodeCommand (msg : Message) : ps unit :=
  v ← ps_gets ps_van;
  dead ← GetDeadNodes clock (v_heartbeat_timeout v);
  ns ← UpdateLocalID msg dead;
  v ← ps_gets ps_van;
  if v_is_scheduler v then ProcessAddNodeCommandAtScheduler
  else
    ps_forM ns learn_node;;
    modify_van (fun v => set_ready v true).

(** A control message of the van itself. *)
Definition control_message (cmd : Command) (recver : Z) (ns : list Node) (ts : Z) : Message :=
  let t := ms_meta (Message_new junk) in
  mkMessage (set_control (set_ends t (mt_sender t) recver ts)
               (mkControl cmd ns (ct_barrier_group (mt_control t)) (ct_msg_sig (mt_control t)))) [].

Definition ProcessHearbeat (msg : Message) : ps unit :=
  t ← ps_now clock;
  ps_forM (ct_node (mt_control (ms_meta msg))) (fun node =>
    UpdateHeartbeat (n_id node) t;;
    v ← ps_gets ps_van;
    if v_is_scheduler v then
      ts ← GetTimestamp;
      Send SendMsg clock (control_message HEARTBEAT (n_id node) [v_my_node v] ts);;
      mret tt
    else mret tt).

(** The response of a barrier to [r]. *)
Definition barrier_response (msg : Message) (r ts : Z) : Message :=
  let t := ms_meta (Message_new junk) in
  mkMessage
    (mkMeta (mt_head t) (mt_app_id (ms_meta msg)) (mt_customer_id (ms_meta msg)) ts (mt_sender t) r false
       (mt_push t) (mt_simple_app t) (mt_body t) (mt_data_type t)
       (mkControl BARRIER [] (ct_barrier_group (mt_control t)) (ct_msg_sig (mt_control t)))
       (mt_data_size t) (mt_key t) (mt_addr t) (mt_val_len t) (mt_option t)) [].

(** [barrier_count_], made of 8 counters at the first request. *)
Definition barrier_counts (v : Van) : list Z :=
  match v_barrier_count v with [] => replicate 8 0 | c => c end.

(** One turn of the loop over the group. *)
Definition barrier_respond (msg : Message) (r : Z) : ps unit :=
  v ← ps_gets ps_van;
  if decide (v_shared_node_mapping v !! r = None) then
    ts ← GetTimestamp;
    n ← Send SendMsg clock (barrier_response msg r ts);
    ps_lift (CHECK (0 <? n))
  else mret tt.

(** [barrier_count_[group]] must exist: groups are below 8. *)
Definition ProcessBarrierCommand (msg : Message) : ps unit :=
  if mt_request (ms_meta msg) then
    let group := ct_barrier_group (mt_control (ms_meta msg)) in
    v ← ps_gets ps_van;
    let counts := barrier_counts v in
    ps_lift (DEFINED (0 <=? group));;
    c ← ps_lift (deref (counts !! Z.to_nat group));
    modify_van (fun v => set_barrier_count v (<[Z.to_nat group := c + 1]> counts));;
    ids ← GetNodeIDs group;
    if c + 1 =? Z.of_nat (length ids) then
      modify_van (fun v => set_barrier_count v (<[Z.to_nat group := 0]> (v_barrier_count v)));;
      ps_forM ids (barrier_respond msg)
    else mret tt
  else Manage msg.

(** [obj->Accept(msg)] *)
Definition Accept (ptr : Z) (msg : Message) : ps unit :=
  s ← ps_gets id;
  c ← ps_lift (deref (ps_customers s !! ptr));
  ps_modify (fun s => set_customers s (<[ptr := mkCustomer (cu_app_id c) (cu_customer_id c)
    (cu_recv_queue c ++ [msg]) (cu_tracker c)]> (ps_customers s))).

(** [None] as the result of [GetCustomer] is its timeout. *)
Definition ProcessDataMsg (msg : Message) : ps unit :=
  let t := ms_meta msg in
  ps_lift (CHECK (negb (mt_sender t =? kEmpty)));;
  ps_lift (CHECK (negb (mt_recver t =? kEmpty)));;
  ps_lift (CHECK (negb (mt_app_id t =? kEmpty)));;
  p ← ps_gets ps_po;
  let customer_id := if po_is_worker p then mt_customer_id t else mt_app_id t in
  match mjoin (GetCustomer_poll p (mt_app_id t) customer_id) with
  | None => ps_lift Fatal
  | Some ptr => Accept ptr msg
  end.

(** One turn of [Receiving]: a message of [recv_bytes] bytes has arrived;
    [dropped] says that a positive drop rate and the random number ask to drop
    it. [false] ends the loop. *)
Definition Receiving_once (dropped : bool) (recv_bytes : Z) (msg : Message) : ps bool :=
  v ← ps_gets ps_van;
  if v_ready v && dropped then mret true
  else
  ps_lift (CHECK (negb (recv_bytes =? -1)));;
  modify_van (fun v => set_recv_bytes v (u64 (v_recv_bytes v + recv_bytes)));;
  v ← ps_gets ps_van;
  dup ← (match v_resender v with
         | Some r => AddIncomming SendMsg clock junk r msg
         | None => mret false
         end);
  if (dup : bool) then mret true
  else
    match ct_cmd (mt_control (ms_meta msg)) with
    | EMPTY => ProcessDataMsg msg;; mret true
    | TERMINATE => ProcessTerminateCommand;; mret false
    | ADD_NODE => ProcessAddNodeCommand msg;; mret true
    | BARRIER => ProcessBarrierCommand msg;; mret true
    | HEARTBEAT => ProcessHearbeat msg;; mret true
    | ACK => mret true
    end.

(** The messages that a node sends of its own: to register ([Start]) and to
    show that it is alive ([Heartbeat]). *)
Definition announce (customer_id : Z) : ps unit :=
  v ← ps_gets ps_van;
  if v_is_scheduler v then mret tt
  else
    let me := v_my_node v in
    ts ← GetTimestamp;
    Send SendMsg clock (control_message ADD_NODE kScheduler
      [mkNode (n_role me) (n_id me) customer_id (n_hostname me) (n_port me) (n_is_recovery me)] ts);;
    mret tt.

Definition Heartbeat_once : ps unit :=
  ts ← GetTimestamp;
  v ← ps_gets ps_van;
  Send SendMsg clock (control_message HEARTBEAT kScheduler [v_my_node v] ts);;
  mret tt.

(** The message with which [Stop] ends the receiving thread; it goes to the
    transport directly. *)
Definition Stop_request : ps unit :=
  v ← ps_gets ps_van;
  let t := ms_meta (Message_new junk) in
  let exit := mkMessage
    (mkMeta (mt_head t) (mt_app_id t) 0 (mt_timestamp t) (mt_sender t) (n_id (v_my_node v)) (mt_request t)
       (mt_push t) (mt_simple_app t) (mt_body t) (mt_data_type t)
       (mkControl TERMINATE [] (ct_barrier_group (mt_control t)) (ct_msg_sig (mt_control t)))
       (mt_data_size t) (mt_key t) (mt_addr t) (mt_val_len t) (mt_option t)) [] in
  ps_modify (fun s => add_sent s exit);;
  ps_lift (CHECK (negb (SendMsg exit =? -1))).

(** [Stop], once the receiving thread has ended. The pointer to the resender is
    not cleared, and neither are the numbers of servers and workers. *)
Definition Stop_reset : ps unit :=
  modify_van (fun v =>
    mkVan (v_scheduler v) (node_with_id (v_my_node v) kEmpty) (v_is_scheduler v) ∅ ∅ false 0
      (v_recv_bytes v) (v_num_servers v) (v_num_workers v) [] (v_resender v) 0 0
      (v_heartbeat_timeout v) (v_nodes v) (v_recovery_nodes v)).

(** [Postoffice::Finalize] for customer 0, with its two halves of [Stop]. *)
Definition Finalize_request : ps unit :=
  modify_po (fun p => mkPostoffice (po_customers p) (po_node_ids p) (po_server_key_ranges p) (po_is_worker p)
    (po_is_server p) (po_is_scheduler p) 0 0 (po_barrier_done p) (po_init_stage p) (po_heartbeats p)
    (po_start_time p));;
  Stop_request.
Definition Finalize_reset : ps unit :=
  Stop_reset;;
  modify_po (fun p => mkPostoffice ∅ ∅ [] (po_is_worker p) (po_is_server p) (po_is_scheduler p)
    (po_num_servers p) (po_num_workers p) ∅ 0 ∅ (po_start_time p)).

(** ** Start *)

Section start.
(** The environment, and the queries of src/src/network_utils.h: the address of
    an interface, an interface with its address, a free port, and the port that
    [Bind] got. *)
Context (env : string -> option string) (atoi : string -> Z).
Context (GetIP : string -> list Z) (GetAvailableInterfaceAndIP : string * list Z).
Context (GetAvailablePort : Z) (Bind : Node -> Z -> Z).

Definition string_bytes (s : string) : list Z :=
  map (fun a => Z.of_N (Ascii.N_of_ascii a)) (String.list_ascii_of_string s).

(** The host of a node that is not the scheduler. *)
Definition my_host : ps (list Z) :=
  let ip := match env "DMLC_NODE_HOST" with Some h => string_bytes h | None => [] end in
  match ip with
  | [] =>
      let itf := default "" (env "DMLC_INTERFACE") in
      let found := if decide (itf = "") then GetAvailableInterfaceAndIP else (itf, GetIP itf) in
      ps_lift (CHECK (negb (bool_decide (fst found = ""))));;
      mret (snd found)
  | _ => mret ip
  end.

(** [my_node_] of a node that is not the scheduler. *)
Definition my_new_node (role : Role) (customer_id : Z) (me : Node) : ps Node :=
  ip ← my_host;
  let port := match env "PORT" with Some p => atoi p | None => GetAvailablePort end in
  ps_lift (CHECK (negb (bool_decide (ip = []))));;
  ps_lift (CHECK (negb (port =? 0)));;
  mret (mkNode role kEmpty customer_id ip port (n_is_recovery me)).

(** The first block of [Start], up to the creation of the receiving thread,
    which begins with empty node lists. *)
Definition Van_Start_init (customer_id : Z) : ps unit :=
  v ← ps_gets ps_van;
  if v_init_stage v =? 0 then
    uri ← required env "DMLC_PS_ROOT_URI";
    port ← required env "DMLC_PS_ROOT_PORT";
    let scheduler := mkNode SCHEDULER kScheduler (n_customer_id (v_scheduler v)) (string_bytes uri) (atoi port)
                       (n_is_recovery (v_scheduler v)) in
    p ← ps_gets ps_po;
    me ← (if po_is_scheduler p then mret scheduler
          else my_new_node (if po_is_worker p then WORKER else SERVER) customer_id (v_my_node v));
    let bound := Bind me (if po_is_scheduler p then 0 else 40) in
    let me := mkNode (n_role me) (n_id me) (n_customer_id me) (n_hostname me) bound (n_is_recovery me) in
    ps_lift (CHECK (negb (bound =? -1)));;
    Connect scheduler;;
    let t := ms_meta (Message_new junk) in
    modify_van (fun v =>
      mkVan scheduler me (po_is_scheduler p) (v_connected_nodes v) (v_shared_node_mapping v) (v_ready v)
        (v_send_bytes v) (v_recv_bytes v) (v_num_servers v) (v_num_workers v) (v_barrier_count v) (v_resender v)
        (v_timestamp v) (v_init_stage v + 1) (v_heartbeat_timeout v) t (with_nodes t ADD_NODE []))
  else mret tt.

(** The last block of [Start], once the van is ready. *)
Definition Van_Start_resender : ps unit :=
  v ← ps_gets ps_van;
  if v_init_stage v =? 1 then
    let timeout := match env "PS_RESEND_TIMEOUT" with Some t => atoi t | None => 1000 end in
    let on := match env "PS_RESEND" with Some r => negb (atoi r =? 0) | None => false end in
    modify_van (fun v =>
      mkVan (v_scheduler v) (v_my_node v) (v_is_scheduler v) (v_connected_nodes v) (v_shared_node_mapping v)
        (v_ready v) (v_send_bytes v) (v_recv_bytes v) (v_num_servers v) (v_num_workers v) (v_barrier_count v)
        (if on then Some (mkResender ∅ ∅ timeout 10) else v_resender v) (v_timestamp v) (v_init_stage v + 1)
        (v_heartbeat_timeout v) (v_nodes v) (v_recovery_nodes v))
  else mret tt.
End start.
End van.

(** ** Barriers *)

Section barrier.
Context (SendMsg : Message -> Z) (clock : nat -> Z) (junk : Z).
Context (Hsend : forall m, 0 < SendMsg m).

(** A request to enter the barrier of [group]. *)
Definition barrier_request (group : Z) (m : Message) : Prop :=
  mt_request (ms_meta m) = true /\ ct_barrier_group (mt_control (ms_meta m)) = group.

Definition barrier_all (ms : list Message) : ps unit :=
  ps_forM ms (ProcessBarrierCommand SendMsg clock junk).

Lemma GetNodeIDs_ok g ids s : po_node_ids (ps_po s) !! g = Some ids -> GetNodeIDs g s = Ok (ids, s).
Proof. intros H. unfold GetNodeIDs, ps_gets, mbind, ps_bind. by rewrite H. Qed.

(** The counter of a group goes up by one, and releases the group when all
    have come. *)
Lemma barrier_step g ids c m s :
  barrier_request g m -> 0 <= g -> po_node_ids (ps_po s) !! g = Some ids ->
  barrier_counts (ps_van s) !! Z.to_nat g = Some c ->
  ProcessBarrierCommand SendMsg clock junk m s =
    let s1 := set_van s (set_barrier_count (ps_van s) (<[Z.to_nat g := c + 1]> (barrier_counts (ps_van s)))) in
    if c + 1 =? Z.of_nat (length ids) then
      ps_forM ids (barrier_respond SendMsg clock junk m)
        (set_van s1 (set_barrier_count (ps_van s1) (<[Z.to_nat g := 0]> (v_barrier_count (ps_van s1)))))
    else Ok (tt, s1).
Proof.
  intros [Hreq Hg] Hg0 Hids Hc. unfold ProcessBarrierCommand. rewrite Hreq, Hg.
  ps_step (eq_refl : ps_gets ps_van s = Ok (ps_van s, s)).
  ps_lift_step (DEFINED_true (0 <=? g) ltac:(b2p; lia)).
  ps_lift_step (proj2 (deref_Ok_iff _ _) Hc).
  set (s1 := set_van s _). ps_step (eq_refl : modify_van (fun v =>
    set_barrier_count v (<[Z.to_nat g := c + 1]> (barrier_counts (ps_van s)))) s = Ok (tt, s1)).
  ps_step (GetNodeIDs_ok g ids s1 Hids). by destruct (c + 1 =? Z.of_nat (length ids)).
Qed.

Lemma barrier_counts_cons v c : v_barrier_count v = c -> c <> [] -> barrier_counts v = c.
Proof. intros H Hc. unfold barrier_counts. rewrite H. by destruct c. Qed.

(** The state with other barrier counters. *)
Definition with_counts (s : Ps) (c : list Z) : Ps := set_van s (set_barrier_count (ps_van s) c).

Lemma with_counts_twice s c c' : with_counts (with_counts s c) c' = with_counts s c'.
Proof. done. Qed.

Lemma lookup_not_nil {A} (l : list A) i x : l !! i = Some x -> l <> [].
Proof. by intros H ->. Qed.

Lemma barrier_waits g ids ms c s :
  Forall (barrier_request g) ms -> 0 <= g -> po_node_ids (ps_po s) !! g = Some ids ->
  barrier_counts (ps_van s) !! Z.to_nat g = Some c ->
  c + Z.of_nat (length ms) < Z.of_nat (length ids) ->
  exists cnt, barrier_all ms s = Ok (tt, with_counts s cnt) /\
    barrier_counts (ps_van (with_counts s cnt)) =
      <[Z.to_nat g := c + Z.of_nat (length ms)]> (barrier_counts (ps_van s)).
Proof.
  intros Hms Hg. revert c s. induction Hms as [|m ms Hm Hms IH]; intros c s Hids Hc Hlt.
  - exists (v_barrier_count (ps_van s)). split; [by destruct s as [? []]|].
    cbn [length]. rewrite Z.add_0_r, list_insert_id by done. by destruct s as [? []].
  - cbn [length] in Hlt. unfold barrier_all. cbn [ps_forM].
    set (cnt1 := <[Z.to_nat g := c + 1]> (barrier_counts (ps_van s))).
    assert (Hstep : ProcessBarrierCommand SendMsg clock junk m s = Ok (tt, with_counts s cnt1)).
    { rewrite (barrier_step g ids c m s) by done. cbn zeta. case_if E; [b2p; lia|done]. }
    ps_step Hstep.
    assert (Hlen : (Z.to_nat g < length (barrier_counts (ps_van s)))%nat) by (by apply lookup_lt_Some in Hc).
    assert (Hcnt1 : barrier_counts (ps_van (with_counts s cnt1)) = cnt1).
    { apply barrier_counts_cons; [done|]. apply (lookup_not_nil _ (Z.to_nat g) (c + 1)).
      unfold cnt1. by rewrite list_lookup_insert_eq. }
    destruct (IH (c + 1) (with_counts s cnt1)) as (cnt & Hrun & Hcnt); [done| |lia|].
    { rewrite Hcnt1. unfold cnt1. by rewrite list_lookup_insert_eq. }
    exists cnt. split; [exact Hrun|]. rewrite with_counts_twice in Hcnt. rewrite Hcnt, Hcnt1. unfold cnt1.
    rewrite list_insert_insert_eq. f_equal. cbn [length]. lia.
Qed.

Lemma barrier_respond_ok sh m r s : plain sh s ->
  barrier_respond SendMsg clock junk m r s =
    Ok (tt, if negb (bool_decide (sh !! r = None)) then s else sent_one SendMsg (barrier_response junk m r) s).
Proof.
  intros [Hr Hsh]. unfold barrier_respond. ps_step (eq_refl : ps_gets ps_van s = Ok (ps_van s, s)). rewrite Hsh.
  case_decide as Hs.
  - rewrite bool_decide_true by done. cbn [negb]. rewrite (numbered_send SendMsg clock Hsend) by done.
    rewrite (ps_lift_Ok _ tt); [done|]. apply CHECK_true. b2p. apply Hsend.
  - by rewrite bool_decide_false by done.
Qed.
End barrier.

(** What a node of the barrier is told. *)
Definition releases (req : Message) (r : Z) (m : Message) : Prop :=
  let t := ms_meta m in
  mt_recver t = r /\ mt_request t = false /\ ct_cmd (mt_control t) = BARRIER /\
  mt_app_id t = mt_app_id (ms_meta req) /\ mt_customer_id t = mt_customer_id (ms_meta req).

(** C16: a barrier of [n] nodes. While fewer than [n] requests of the group have
    come, the scheduler sends nothing; the [n]-th makes it send exactly one
    response to every node of the group that has an address of its own, and the
    counter is back at 0, so that the group can meet again. The counters of the
    other groups do not move. *)
Theorem barrier_releases_group SendMsg clock junk g ids ms m (s : Ps)
    (Hsend : forall m, 0 < SendMsg m)
    (Hreq : Forall (barrier_request g) (ms ++ [m])) (Hg : 0 <= g)
    (Hids : po_node_ids (ps_po s) !! g = Some ids)
    (Hzero : barrier_counts (ps_van s) !! Z.to_nat g = Some 0)
    (Hn : length ids = S (length ms)) (Hplain : v_resender (ps_van s) = None) :
  exists s1 s2 new,
    barrier_all SendMsg clock junk ms s = Ok (tt, s1) /\ ps_sent s1 = ps_sent s /\
    ProcessBarrierCommand SendMsg clock junk m s1 = Ok (tt, s2) /\ ps_sent s2 = ps_sent s ++ new /\
    Forall2 (releases m)
      (List.filter (fun r => bool_decide (v_shared_node_mapping (ps_van s) !! r = None)) ids) new /\
    barrier_counts (ps_van s2) = barrier_counts (ps_van s) /\ ps_po s2 = ps_po s.
Proof.
  apply Forall_app in Hreq as [Hms Hm]. rewrite Forall_singleton in Hm.
  destruct (barrier_waits SendMsg clock junk g ids ms 0 s Hms Hg Hids Hzero ltac:(lia)) as (cnt & Hrun & Hcnt).
  set (s1 := with_counts s cnt) in *.
  assert (Hlen : (Z.to_nat g < length (barrier_counts (ps_van s)))%nat) by (by apply lookup_lt_Some in Hzero).
  assert (Hc1 : barrier_counts (ps_van s1) !! Z.to_nat g = Some (Z.of_nat (length ms))).
  { rewrite Hcnt. by rewrite list_lookup_insert_eq. }
  pose proof (barrier_step SendMsg clock junk g ids _ m s1 Hm Hg Hids Hc1) as Hstep.
  cbn zeta in Hstep. rewrite (proj2 (Z.eqb_eq _ _)) in Hstep by lia.
  set (s3 := set_van _ _) in Hstep.
  destruct (send_loop SendMsg (v_shared_node_mapping (ps_van s))
    (fun r => negb (bool_decide (v_shared_node_mapping (ps_van s) !! r = None)))
    (barrier_response junk m) (barrier_respond SendMsg clock junk m) ids s3) as (ts & n & new & Hloop & Hnew);
    [intros; by apply barrier_respond_ok|done|].
  exists s1, (after_sends s3 ts n new), new. split; [done|]. split; [done|]. split; [by rewrite Hstep|]. split; [done|].
  split; [|split; [|done]].
  - erewrite filter_ext; [eapply Forall2_impl; [exact Hnew|]|].
    + intros r x (t & ->). done.
    + intros r. cbn beta. by rewrite negb_involutive.
  - transitivity (<[Z.to_nat g := 0]> (<[Z.to_nat g := Z.of_nat (length ms) + 1]> (barrier_counts (ps_van s1)))).
    + apply barrier_counts_cons; [done|]. apply (lookup_not_nil _ (Z.to_nat g) 0).
      rewrite list_lookup_insert_eq; [done|]. by rewrite Hcnt, !length_insert.
    + by rewrite Hcnt, !list_insert_insert_eq, list_insert_id.
Qed.

Lemma mark_done_lookup k c done x :
  mark_done k c done !! x = if decide (c <= x < c + Z.of_nat k) then Some true else done !! x.
Proof.
  revert c done. induction k as [|k IH]; intros c done; cbn [mark_done].
  - by rewrite decide_False by lia.
  - rewrite IH. destruct (decide (x = c)) as [->|Hne].
    + rewrite decide_False, decide_True, lookup_insert_eq by lia. done.
    + rewrite lookup_insert_ne by done. apply decide_ext. lia.
Qed.

(** The customers of application 0 known to [Barrier], after [c] has entered. *)
Definition waiting (s : Ps) (c : Z) : gmap Z bool := <[c := false]> (default ∅ (po_barrier_done (ps_po s) !! 0)).

(** C30: the waiting side of a barrier. A node of the group asks the scheduler
    with one request for the group, and waits; when it processes the response,
    the customer passes exactly if its id is below the number of customers of
    the node, as it is when their ids are 0, 1, and so on. *)
Theorem barrier_waits_for_release SendMsg clock junk c g ids (s : Ps)
    (Hsend : forall m, 0 < SendMsg m)
    (Hids : po_node_ids (ps_po s) !! g = Some ids) (Hmany : (1 < length ids)%nat)
    (Hready : v_ready (ps_van s) = true)
    (Hrole : Z.land g (match n_role (v_my_node (ps_van s)) with
                       | SCHEDULER => kScheduler | WORKER => kWorkerGroup | SERVER => kServerGroup end) <> 0)
    (Hplain : v_resender (ps_van s) = None) :
  exists s1 req,
    Barrier_request SendMsg clock junk c g s = Ok (true, s1) /\
    ps_sent s1 = ps_sent s ++ [req] /\ barrier_request g req /\ mt_recver (ms_meta req) = kScheduler /\
    Barrier_passed (ps_po s1) c = false /\
    forall r m, releases req r m -> exists s2,
      ProcessBarrierCommand SendMsg clock junk m s1 = Ok (tt, s2) /\
      Barrier_passed (ps_po s2) c = bool_decide (0 <= c < Z.of_nat (size (waiting s c))).
Proof.
  set (p1 := po_set_customers (ps_po s) (po_customers (ps_po s)) (<[0 := waiting s c]> (po_barrier_done (ps_po s)))).
  set (s0 := set_po s p1).
  assert (Hreq : exists req n, Barrier_request SendMsg clock junk c g s =
      Ok (true, after_sends s0 (s32 (v_timestamp (ps_van s) + 1)) n [req]) /\
      barrier_request g req /\ mt_recver (ms_meta req) = kScheduler /\ mt_app_id (ms_meta req) = 0).
  { unfold Barrier_request. ps_step (GetNodeIDs_ok g ids s Hids).
    rewrite (proj2 (Z.leb_gt _ _)) by lia.
    assert (Hme : my_node s = Ok (v_my_node (ps_van s), s)).
    { unfold my_node, ps_gets, ps_lift, mbind, ps_bind. rewrite Hready. done. }
    ps_step Hme. ps_lift_step (CHECK_true (match n_role (v_my_node (ps_van s)) with
      | SCHEDULER => negb (Z.land g kScheduler =? 0) | WORKER => negb (Z.land g kWorkerGroup =? 0)
      | SERVER => negb (Z.land g kServerGroup =? 0) end) ltac:(destruct (n_role _); b2p; done)).
    ps_step (eq_refl : modify_po (fun p => po_set_customers p (po_customers p)
      (<[0 := <[c := false]> (default ∅ (po_barrier_done p !! 0))]> (po_barrier_done p))) s = Ok (tt, s0)).
    rewrite (numbered_send SendMsg clock Hsend) by done. exists (barrier_message junk c g (v_timestamp (ps_van s))). eexists. split; [|done].
    ps_lift_step (CHECK_true (0 <? SendMsg (barrier_message junk c g (v_timestamp (ps_van s0))))
      ltac:(b2p; apply Hsend)). reflexivity. }
  destruct Hreq as (req & n & Hrun & Hgreq & Hrec & Happ).
  set (s1 := after_sends _ _ _ _) in Hrun. exists s1, req.
  split; [exact Hrun|]. split; [done|]. split; [done|]. split; [done|].
  assert (Hp1 : po_barrier_done (ps_po s1) !! 0 = Some (waiting s c)) by (cbn; by rewrite lookup_insert_eq).
  split; [unfold Barrier_passed; rewrite Hp1; cbn; unfold waiting; by rewrite lookup_insert_eq|].
  intros r m (_ & Hr & Hcmd & Ha & _). eexists. split.
  - unfold ProcessBarrierCommand. rewrite Hr. unfold Manage, Control_empty. rewrite Hcmd, Hr.
    ps_lift_step (CHECK_true (negb (bool_decide (BARRIER = EMPTY))) eq_refl). reflexivity.
  - rewrite Ha, Happ. unfold Barrier_passed. cbn [set_po ps_po po_set_customers po_barrier_done]. rewrite Hp1.
    rewrite lookup_insert_eq. unfold default, from_option, id. rewrite mark_done_lookup.
    case_decide as Hc.
    + by rewrite bool_decide_true by (cbn in Hc; lia).
    + rewrite bool_decide_false by (cbn in Hc; lia). unfold waiting. by rewrite lookup_insert_eq.
Qed.

(** A scheduler of two workers and a server, and the requests of a barrier. *)
Definition example_scheduler : Ps :=
  example_ps (mkPostoffice ∅ (init_node_ids 2 1 ∅) [] false false true 1 2 ∅ 0 ∅ 0) None.

Lemma barrier_releases_group_witness :
  exists s1 s2 new,
    barrier_all (fun _ => 1) (fun _ => 0) 0 [barrier_message 0 0 6 0; barrier_message 0 0 6 1] example_scheduler = Ok (tt, s1) /\
    ProcessBarrierCommand (fun _ => 1) (fun _ => 0) 0 (barrier_message 0 0 6 2) s1 = Ok (tt, s2) /\
    ps_sent s2 = new /\ Forall2 (releases (barrier_message 0 0 6 2)) [9; 11; 8] new.
Proof.
  destruct (barrier_releases_group (fun _ => 1) (fun _ => 0) 0 6 [9; 11; 8]
    [barrier_message 0 0 6 0; barrier_message 0 0 6 1] (barrier_message 0 0 6 2) example_scheduler)
    as (s1 & s2 & new & H1 & _ & H2 & H3 & H4 & _); try reflexivity.
  - repeat constructor.
  - lia.
  - exists s1, s2, new. split; [exact H1|]. split; [exact H2|]. split; [exact H3|exact H4].
Defined.

Lemma barrier_waits_for_release_witness :
  exists s1,
    Barrier_request (fun _ => 1) (fun _ => 0) 0 0 7 example_scheduler = Ok (true, s1) /\
    Barrier_passed (ps_po s1) 0 = false /\
    exists s2, ProcessBarrierCommand (fun _ => 1) (fun _ => 0) 0 (barrier_response 0 (barrier_message 0 0 7 0) 1 5) s1 = Ok (tt, s2) /\
      Barrier_passed (ps_po s2) 0 = true.
Proof.
  destruct (barrier_waits_for_release (fun _ => 1) (fun _ => 0) 0 0 7 [9; 11; 8; 1] example_scheduler)
    as (s1 & req & H1 & H2 & _ & _ & H3 & H4); try reflexivity.
  - cbn; lia.
  - discriminate.
  - assert (Hreq : ms_meta req = ms_meta (barrier_message 0 0 7 0)).
    { assert (H : ps_sent s1 = [barrier_message 0 0 7 0]) by (vm_compute in H1; injection H1 as <-; reflexivity).
      rewrite H in H2. injection H2 as <-. reflexivity. }
    exists s1. split; [exact H1|]. split; [exact H3|].
    destruct (H4 1 (barrier_response 0 (barrier_message 0 0 7 0) 1 5)) as (s2 & H5 & H6).
    + unfold releases. rewrite Hreq. repeat split.
    + exists s2. split; [exact H5|]. rewrite H6. vm_compute. reflexivity.
Defined.

(** ** Node ids *)

Definition rank_id (ns nw : Z) (n : Node) : Z :=
  if decide (n_role n = SERVER) then ServerRankToID ns else WorkerRankToID nw.
Definition bump (r : Role) (c : Z) (n : Node) : Z := if decide (n_role n = r) then c + 1 else c.

(** The nodes with the ids of their ranks, servers from [ns] on and workers
    from [nw] on. *)
Fixpoint ranked (ns nw : Z) (l : list Node) : list Node :=
  match l with
  | [] => []
  | n :: l' => node_with_id n (rank_id ns nw n) :: ranked (bump SERVER ns n) (bump WORKER nw n) l'
  end.

(** How many nodes have the role. *)
Definition count_role (r : Role) (l : list Node) : nat :=
  length (List.filter (fun n => bool_decide (n_role n = r)) l).

Definition new_node (n : Node) : Prop := n_id n = kEmpty /\ n_role n <> SCHEDULER.

Lemma count_role_cons r n l c :
  bump r c n + Z.of_nat (count_role r l) = c + Z.of_nat (count_role r (n :: l)).
Proof.
  unfold bump, count_role. cbn [List.filter]. case_decide as Hr.
  - rewrite bool_decide_true by done. cbn [length]. lia.
  - rewrite bool_decide_false by done. lia.
Qed.

Lemma count_role_seq r n l c (f : Z -> Z) :
  map f (seqZ c (Z.of_nat (count_role r (n :: l)))) =
    (if decide (n_role n = r) then [f c] else []) ++ map f (seqZ (bump r c n) (Z.of_nat (count_role r l))).
Proof.
  pose proof (count_role_cons r n l c) as Hc. unfold bump in *. case_decide as Hr; [|cbn [app]; do 2 f_equal; lia].
  replace (Z.of_nat (count_role r (n :: l))) with (Z.succ (Z.of_nat (count_role r l))) by lia.
  rewrite seqZ_cons by lia. by rewrite Z.pred_succ.
Qed.

Lemma ranked_ids ns nw l : Forall new_node l ->
  map n_id (ranked ns nw l) ≡ₚ
    map WorkerRankToID (seqZ nw (Z.of_nat (count_role WORKER l))) ++
    map ServerRankToID (seqZ ns (Z.of_nat (count_role SERVER l))).
Proof.
  intros Hl. revert ns nw. induction Hl as [|n l Hn Hl IH]; intros ns nw; [done|].
  cbn [ranked map]. rewrite IH, !count_role_seq by done. unfold rank_id. cbn [n_id node_with_id].
  destruct Hn as [_ Hrole]. destruct (n_role n); [| |done]; repeat case_decide; try done; cbn [app]. apply Permutation_middle.
Qed.

Lemma ranked_same ns nw l : Forall new_node l -> map (fun n => node_with_id n kEmpty) (ranked ns nw l) = l.
Proof.
  intros Hl. revert ns nw. induction Hl as [|n l [Hid _] Hl IH]; intros ns nw; [done|].
  cbn [ranked map]. rewrite IH. destruct n; cbn in Hid; by subst.
Qed.

(** The state after the loop: heartbeats, connections and counters are the only
    changes. *)
Definition after_ranks (s : Ps) hb cn ns nw (l : list Node) : Ps :=
  mkPs (po_set_heartbeats (ps_po s) hb)
    (set_ranks (set_connected (ps_van s) cn (v_shared_node_mapping (ps_van s))) ns nw)
    (ps_customers s) (ps_dmlc_rank s) (ps_sent s) (ps_connects s ++ l) (ps_ticks s).

Lemma assign_rank_new t n s : new_node n -> v_connected_nodes (ps_van s) !! addr_str n = None ->
  let v := ps_van s in
  let id := rank_id (v_num_servers v) (v_num_workers v) n in
  assign_rank t n s =
    Ok (node_with_id n id,
        after_ranks s (<[id := t]> (po_heartbeats (ps_po s))) (<[addr_str n := id]> (v_connected_nodes v))
          (bump SERVER (v_num_servers v) n) (bump WORKER (v_num_workers v) n) [node_with_id n id]).
Proof.
  intros [Hid Hrole] Hc v id. unfold assign_rank. ps_step (eq_refl : ps_gets ps_van s = Ok (ps_van s, s)).
  cbn zeta. rewrite Hc, Hid. done.
Qed.

Lemma assign_ranks_new t l s :
  Forall new_node l -> NoDup (map addr_str l) ->
  (forall a, a ∈ map addr_str l -> v_connected_nodes (ps_van s) !! a = None) ->
  let r := ranked (v_num_servers (ps_van s)) (v_num_workers (ps_van s)) l in
  exists hb cn,
    assign_ranks t l s = Ok (r, after_ranks s hb cn
      (v_num_servers (ps_van s) + Z.of_nat (count_role SERVER l))
      (v_num_workers (ps_van s) + Z.of_nat (count_role WORKER l)) r) /\
    (forall i, i ∈ map n_id r \/ po_heartbeats (ps_po s) !! i = Some t -> hb !! i = Some t).
Proof.
  intros Hl. revert s. induction Hl as [|n l Hn Hl IH]; intros s Hnd Hc; cbn zeta.
  { exists (po_heartbeats (ps_po s)), (v_connected_nodes (ps_van s)). split; [|set_solver].
    cbn. unfold after_ranks. rewrite app_nil_r, !Z.add_0_r. by destruct s as [[] [] ? ? ? ? ?]. }
  apply NoDup_cons in Hnd as [Ha Hnd].
  pose proof (assign_rank_new t n s Hn ltac:(apply Hc; left)) as Hstep. cbn zeta in Hstep.
  cbn [assign_ranks]. ps_step Hstep.
  set (i := rank_id _ _ n). set (s1 := after_ranks _ _ _ _ _ _).
  destruct (IH s1 Hnd) as (hb & cn & Hrun & Hhb).
  { intros a Hin. cbn. rewrite lookup_insert_ne by (intros <-; done). apply Hc. by right. }
  exists hb, cn. ps_step Hrun. split.
  - unfold mret, ps_ret, s1, after_ranks. cbn. rewrite <- app_assoc, !count_role_cons. done.
  - intros k Hk. apply Hhb. cbn in Hk |- *. fold i in Hk |- *. destruct (decide (k = i)) as [->|].
    + right. by rewrite lookup_insert_eq.
    + rewrite lookup_insert_ne by done. set_solver.
Qed.

Lemma count_role_perm r l l' : l ≡ₚ l' -> count_role r l = count_role r l'.
Proof.
  intros Hl. unfold count_role. induction Hl; cbn; [done| | |congruence]; repeat case_bool_decide; cbn; congruence.
Qed.

(** The address book that the scheduler sends out. *)
Definition tells (book : list Node) (r : Z) (m : Message) : Prop :=
  let t := ms_meta m in
  mt_recver t = r /\ ct_cmd (mt_control t) = ADD_NODE /\ meta_nodes t = book.

Lemma send_to_ok SendMsg clock t sh (r : Z) s : (forall m, 0 < SendMsg m) -> plain sh s ->
  (send_to SendMsg clock t r;; mret tt : ps unit) s =
    Ok (tt, sent_one SendMsg (fun ts => mkMessage (set_ends t (mt_sender t) r ts) []) s).
Proof.
  intros Hsend [Hr _]. unfold send_to.
  pose proof (numbered_send SendMsg clock Hsend (fun ts => mkMessage (set_ends t (mt_sender t) r ts) []) mret s Hr) as H.
  cbn beta in H. unfold mbind at 2. unfold ps_bind at 2.
  unfold mbind, ps_bind, mret, ps_ret in H |- *. destruct (GetTimestamp s) as [[ts s1]| | |]; [|done..].
  destruct (Send _ _ _ s1) as [[n s2]| | |]; [|done..]. by injection H as _ ->.
Qed.

(** The state once the time of a registration is taken. *)
Definition registering (s : Ps) : Ps :=
  mkPs (ps_po s) (set_node_lists (ps_van s) (v_nodes (ps_van s))
      (with_nodes (v_recovery_nodes (ps_van s)) ADD_NODE (meta_nodes (v_recovery_nodes (ps_van s)))))
    (ps_customers s) (ps_dmlc_rank s) (ps_sent s) (ps_connects s) (S (ps_ticks s)).

(** Once ids are assigned, the address book goes to everyone. *)
Lemma book_sent SendMsg clock s s3 ns ids : (forall m, 0 < SendMsg m) ->
  Z.of_nat (length (meta_nodes (v_nodes (ps_van s)))) = po_num_servers (ps_po s) + po_num_workers (ps_po s) ->
  assign_ranks (clock (ps_ticks s)) (sort_nodes (meta_nodes (v_nodes (ps_van s)))) (registering s) = Ok (ns, s3) ->
  po_node_ids (ps_po s3) !! (kWorkerGroup + kServerGroup) = Some ids -> plain ∅ s3 ->
  exists v new, ProcessAddNodeCommandAtScheduler SendMsg clock s =
      Ok (tt, mkPs (ps_po s3) v (ps_customers s3) (ps_dmlc_rank s3) (ps_sent s3 ++ new) (ps_connects s3) (ps_ticks s3)) /\
    v_ready v = true /\ v_num_servers v = v_num_servers (ps_van s3) /\ v_num_workers v = v_num_workers (ps_van s3) /\
    Forall2 (tells (ns ++ [v_my_node (ps_van s3)])) ids new.
Proof.
  intros Hsend Hlen Hrun Hids [Hr Hsh]. unfold ProcessAddNodeCommandAtScheduler.
  set (s1 := set_van s (set_node_lists (ps_van s) (v_nodes (ps_van s))
    (with_nodes (v_recovery_nodes (ps_van s)) ADD_NODE (meta_nodes (v_recovery_nodes (ps_van s)))))).
  ps_step (eq_refl : modify_van (fun v => set_node_lists v (v_nodes v)
    (with_nodes (v_recovery_nodes v) ADD_NODE (meta_nodes (v_recovery_nodes v)))) s = Ok (tt, s1)).
  ps_step (eq_refl : ps_now clock s1 = Ok (clock (ps_ticks s), registering s)).
  ps_step (eq_refl : ps_gets ps_po (registering s) = Ok (ps_po s, registering s)).
  ps_step (eq_refl : ps_gets ps_van (registering s) = Ok (ps_van s1, registering s)).
  cbn zeta. change (v_nodes (ps_van s1)) with (v_nodes (ps_van s)).
  rewrite (proj2 (Z.eqb_eq _ _) Hlen). ps_step Hrun.
  set (s4 := set_van s3 (set_node_lists (ps_van s3)
    (with_nodes (v_nodes (ps_van s3)) ADD_NODE (ns ++ [v_my_node (ps_van s3)])) (v_recovery_nodes (ps_van s3)))).
  ps_step (eq_refl : modify_van (fun v => set_node_lists v (with_nodes (v_nodes v) ADD_NODE (ns ++ [v_my_node v]))
    (v_recovery_nodes v)) s3 = Ok (tt, s4)).
  ps_step (eq_refl : ps_gets ps_van s4 = Ok (ps_van s4, s4)).
  ps_step (GetNodeIDs_ok _ ids s4 Hids).
  destruct (send_loop SendMsg ∅ (fun _ : Z => false)
    (fun r ts => mkMessage (set_ends (v_nodes (ps_van s4)) (mt_sender (v_nodes (ps_van s4))) r ts) [])
    (fun r => if decide (v_shared_node_mapping (ps_van s4) !! r = None)
              then send_to SendMsg clock (v_nodes (ps_van s4)) r;; mret tt else mret tt) ids s4)
    as (ts & n & new & Hloop & Hnew); [|done|].
  { intros r s' Hs'. rewrite decide_True by (cbn; by rewrite Hsh). by rewrite (send_to_ok _ _ _ ∅). }
  ps_step Hloop. do 2 eexists. split; [reflexivity|]. repeat (split; [done|]).
  rewrite List.filter_true in Hnew. eapply Forall2_impl; [exact Hnew|]. by intros r m (t & ->).
Qed.

(** C24: the start of a cluster. When the last of [w] workers and [s] servers
    has registered, all at different addresses, the scheduler gives every node an
    id of its own, the ids being exactly those of the group of workers and
    servers; it connects to each, records a heartbeat, and sends each one message
    with the address and id of everyone and of itself. *)
Theorem cluster_ids_assigned SendMsg clock w sv (s : Ps)
    (Hsend : forall m, 0 < SendMsg m) (Hw : 0 <= w) (Hs : 0 <= sv)
    (Hws : po_num_workers (ps_po s) = w /\ po_num_servers (ps_po s) = sv)
    (Hids : po_node_ids (ps_po s) !! (kWorkerGroup + kServerGroup) = Some (group_nodes w sv 6))
    (Hnew : Forall new_node (meta_nodes (v_nodes (ps_van s))))
    (Hcount : Z.of_nat (count_role WORKER (meta_nodes (v_nodes (ps_van s)))) = w /\
              Z.of_nat (count_role SERVER (meta_nodes (v_nodes (ps_van s)))) = sv)
    (Haddr : NoDup (map addr_str (meta_nodes (v_nodes (ps_van s)))))
    (Hfresh : v_connected_nodes (ps_van s) = ∅ /\ v_shared_node_mapping (ps_van s) = ∅ /\
              v_num_servers (ps_van s) = 0 /\ v_num_workers (ps_van s) = 0)
    (Hlen : Z.of_nat (length (meta_nodes (v_nodes (ps_van s)))) = w + sv)
    (Hplain : v_resender (ps_van s) = None) :
  exists s' ns new,
    ProcessAddNodeCommandAtScheduler SendMsg clock s = Ok (tt, s') /\ v_ready (ps_van s') = true /\
    map (fun n => node_with_id n kEmpty) ns ≡ₚ meta_nodes (v_nodes (ps_van s)) /\
    map n_id ns ≡ₚ group_nodes w sv 6 /\ NoDup (map n_id ns) /\
    ps_connects s' = ps_connects s ++ ns /\
    (forall r, r ∈ group_nodes w sv 6 -> po_heartbeats (ps_po s') !! r = Some (clock (ps_ticks s))) /\
    ps_sent s' = ps_sent s ++ new /\
    Forall2 (tells (ns ++ [v_my_node (ps_van s)])) (group_nodes w sv 6) new /\
    v_num_servers (ps_van s') = sv /\ v_num_workers (ps_van s') = w.
Proof.
  destruct Hws as [Hw1 Hs1], Hcount as [Hcw Hcs], Hfresh as (Hcn & Hsh & Hns & Hnw).
  set (nodes := meta_nodes (v_nodes (ps_van s))) in *. assert (Hperm : sort_nodes nodes ≡ₚ nodes) by apply sort_by_perm.
  destruct (assign_ranks_new (clock (ps_ticks s)) (sort_nodes nodes) (registering s)) as (hb & cn & Hrun & Hhb).
  { by rewrite Hperm. }
  { by rewrite Hperm. }
  { intros a _. cbn. by rewrite Hcn. }
  cbn [registering ps_van set_node_lists v_num_servers v_num_workers] in Hrun, Hhb.
  rewrite Hns, Hnw in Hrun, Hhb. set (ns := ranked 0 0 (sort_nodes nodes)) in *.
  destruct (book_sent SendMsg clock s _ ns _ Hsend ltac:(fold nodes; lia) Hrun Hids)
    as (v & new & Hok & Hready & Hvs & Hvw & Htold); [done|].
  assert (Hns_ids : map n_id ns ≡ₚ group_nodes w sv 6).
  { unfold ns. rewrite ranked_ids by (by rewrite Hperm). rewrite !(count_role_perm _ _ _ Hperm), Hcw, Hcs.
    change (group_nodes w sv 6) with (map WorkerRankToID (seqZ 0 w) ++ map ServerRankToID (seqZ 0 sv) ++ []).
    by rewrite app_nil_r. }
  eexists _, ns, new. split; [exact Hok|]. split; [done|].
  split; [unfold ns; rewrite ranked_same; by rewrite Hperm|]. split; [done|].
  split; [rewrite Hns_ids; apply group_nodes_nodup|]. split; [done|].
  split; [intros r Hr; apply Hhb; left; by rewrite Hns_ids|]. split; [done|]. split; [done|].
  cbn [ps_van]. rewrite Hvs, Hvw. cbn. rewrite !(count_role_perm _ _ _ Hperm). lia.
Qed.

Definition example_new_node (r : Role) (port : Z) : Node := mkNode r kEmpty 0 [104] port false.
Definition example_waiting_van : Van :=
  set_node_lists (example_van None)
    (with_nodes (Meta_new 0 0 0 0 0) EMPTY
       [example_new_node WORKER 7; example_new_node SERVER 5; example_new_node WORKER 6])
    (Meta_new 0 0 0 0 0).

Lemma cluster_ids_assigned_witness :
  exists s' ns,
    ProcessAddNodeCommandAtScheduler (fun _ => 1) (fun _ => 3) (set_van example_scheduler example_waiting_van) = Ok (tt, s') /\
    map n_id ns ≡ₚ [9; 11; 8] /\ ps_connects s' = ns.
Proof.
  destruct (cluster_ids_assigned (fun _ => 1) (fun _ => 3) 2 1 (set_van example_scheduler example_waiting_van))
    as (s' & ns & new & H1 & _ & _ & H2 & _ & H3 & _); try reflexivity.
  - lia.
  - lia.
  - split; reflexivity.
  - repeat constructor; discriminate.
  - split; reflexivity.
  - apply (bool_decide_unpack _). vm_compute. exact I.
  - repeat split.
  - exists s', ns. split; [exact H1|]. split; [exact H2|exact H3].
Defined.

(** ** Recovery *)

Definition set_ticks (s : Ps) (k : nat) : Ps :=
  mkPs (ps_po s) (ps_van s) (ps_customers s) (ps_dmlc_rank s) (ps_sent s) (ps_connects s) k.

(** Asking for the dead nodes changes nothing but the clock, and fails only in
    a [CHECK]. *)
Lemma GetDeadNodes_frame clock t s :
  GetDeadNodes clock t s = Fatal \/ exists d k, GetDeadNodes clock t s = Ok (d, set_ticks s k).
Proof.
  unfold GetDeadNodes. ps_step (eq_refl : ps_gets ps_van s = Ok (ps_van s, s)). case_if E.
  - right. exists [], (ps_ticks s). by destruct s.
  - ps_step (eq_refl : ps_now clock s = Ok (clock (ps_ticks s), set_ticks s (S (ps_ticks s)))).
    set (s1 := set_ticks s _). ps_step (eq_refl : ps_gets ps_po s1 = Ok (ps_po s1, s1)).
    unfold GetNodeIDs, mbind, ps_bind, ps_gets.
    destruct (po_is_scheduler _), (po_node_ids (ps_po s1) !! _);
      ((right; eexists _, _; reflexivity) || by left).
Qed.

Lemma update_my_id_frame n s :
  exists me rk, update_my_id n s =
    Ok (tt, mkPs (ps_po s) (set_my_node (ps_van s) me) (ps_customers s) rk (ps_sent s) (ps_connects s) (ps_ticks s)).
Proof.
  unfold update_my_id. ps_step (eq_refl : ps_gets id s = Ok (s, s)). case_if E.
  - do 2 eexists. reflexivity.
  - exists (v_my_node (ps_van s)), (ps_dmlc_rank s). by destruct s as [? []].
Qed.

Lemma replace_dead_length dead n l l' r : replace_dead dead n l = Some (l', r) -> length l' = length l.
Proof.
  revert l' r. induction l as [|x [|y l] IH]; intros l' r H; [done..|].
  change (replace_dead dead n (x :: y :: l)) with
    (if bool_decide (n_id x ∈ dead) && bool_decide (n_role x = n_role n) then
       let rec_node := mkNode (n_role n) (n_id x) (n_customer_id n) (n_hostname n) (n_port n) true in
       Some (rec_node :: y :: l, rec_node)
     else match replace_dead dead n (y :: l) with Some (l'', r) => Some (x :: l'', r) | None => None end) in H.
  destruct (_ && _); [by injection H as <- <-|].
  destruct (replace_dead dead n (y :: l)) as [[l'' r']|]; [|done]. injection H as <- <-.
  cbn [length]. by rewrite (IH l'' r').
Qed.

(** With two recovered nodes on the list, the check fails. *)
Lemma two_recoveries SendMsg clock s r0 r1 :
  Z.of_nat (length (meta_nodes (v_nodes (ps_van s)))) <> po_num_servers (ps_po s) + po_num_workers (ps_po s) ->
  meta_nodes (v_recovery_nodes (ps_van s)) = [r0; r1] ->
  ProcessAddNodeCommandAtScheduler SendMsg clock s = Fatal.
Proof.
  intros Hlen Hrec. unfold ProcessAddNodeCommandAtScheduler.
  ps_step (eq_refl : modify_van (fun v => set_node_lists v (v_nodes v)
    (with_nodes (v_recovery_nodes v) ADD_NODE (meta_nodes (v_recovery_nodes v)))) s =
    Ok (tt, set_ticks (registering s) (ps_ticks s))).
  ps_step (eq_refl : ps_now clock (set_ticks (registering s) (ps_ticks s)) = Ok (clock (ps_ticks s), registering s)).
  ps_step (eq_refl : ps_gets ps_po (registering s) = Ok (ps_po s, registering s)).
  ps_step (eq_refl : ps_gets ps_van (registering s) = Ok (ps_van (registering s), registering s)).
  cbn zeta. change (v_nodes (ps_van (registering s))) with (v_nodes (ps_van s)).
  rewrite (proj2 (Z.eqb_neq _ _) Hlen).
  change (meta_nodes (v_recovery_nodes (ps_van (registering s)))) with (meta_nodes (v_recovery_nodes (ps_van s))).
  rewrite Hrec.
  destruct (GetDeadNodes_frame clock (v_heartbeat_timeout (ps_van (registering s))) (registering s)) as [H|(d & k & H)].
  - unfold mbind, ps_bind. by rewrite H.
  - ps_step H. done.
Qed.

(** Only one node can be recovered. The list of recovered nodes is never
    emptied: after a first recovery, a second node that comes back for a dead one
    stops the scheduler in [CHECK_EQ(recovery_nodes->control.node.size(), 1)]. *)
Theorem second_recovery_fatal SendMsg clock (s s1 : Ps) msg n r0 dead l r
    (Hsched : v_is_scheduler (ps_van s) = true) (Hready : v_ready (ps_van s) = true)
    (Hfull : Z.of_nat (length (meta_nodes (v_nodes (ps_van s)))) =
             po_num_servers (ps_po s) + po_num_workers (ps_po s) + 1)
    (Hfirst : meta_nodes (v_recovery_nodes (ps_van s)) = [r0])
    (Hmsg : mt_sender (ms_meta msg) = kEmpty /\ ct_node (mt_control (ms_meta msg)) = [n])
    (Hdead : GetDeadNodes clock (v_heartbeat_timeout (ps_van s)) s = Ok (dead, s1))
    (Hrep : replace_dead dead n (meta_nodes (v_nodes (ps_van s))) = Some (l, r)) :
  ProcessAddNodeCommand SendMsg clock msg s = Fatal.
Proof.
  destruct Hmsg as [Hfrom Hnode].
  destruct (GetDeadNodes_frame clock (v_heartbeat_timeout (ps_van s)) s) as [H|(d & k & H)]; [congruence|].
  rewrite Hdead in H. injection H as <- ->.
  unfold ProcessAddNodeCommand. ps_step (eq_refl : ps_gets ps_van s = Ok (ps_van s, s)). ps_step Hdead.
  set (s2 := set_van (set_ticks s k) (set_node_lists (ps_van s)
    (with_nodes (v_nodes (ps_van s)) (ct_cmd (mt_control (v_nodes (ps_van s)))) l)
    (with_nodes (v_recovery_nodes (ps_van s)) (ct_cmd (mt_control (v_recovery_nodes (ps_van s)))) ([r0] ++ [r])))).
  assert (Hreg : register_node msg dead (set_ticks s k) = Ok ([r], s2)).
  { unfold register_node, ps_gets, mbind, ps_bind, ps_lift. cbn. rewrite Hfrom, Hnode, Hsched. cbn.
    rewrite (proj2 (Z.ltb_ge _ _)) by lia. rewrite Hready. cbn. rewrite Hrep, Z.eqb_refl. unfold s2. rewrite <- Hfirst. reflexivity. }
  destruct (update_my_id_frame r s2) as (me & rk & Hme). set (s3 := mkPs _ _ _ _ _ _ _) in Hme.
  assert (Hup : UpdateLocalID msg dead (set_ticks s k) = Ok ([r], s3)).
  { unfold UpdateLocalID. ps_step Hreg. cbn [ps_forM]. unfold mbind, ps_bind. by rewrite Hme. }
  ps_step Hup. ps_step (eq_refl : ps_gets ps_van s3 = Ok (ps_van s3, s3)).
  change (v_is_scheduler (ps_van s3)) with (v_is_scheduler (ps_van s)). rewrite Hsched.
  apply (two_recoveries _ _ _ r0 r); [|done]. cbn. apply replace_dead_length in Hrep. unfold meta_nodes in *. lia.
Qed.

(** A scheduler that has lost a worker for the second time. *)
Definition example_book : Meta :=
  with_nodes (Meta_new 0 0 0 0 0) ADD_NODE
    [mkNode WORKER 9 0 [104] 7 false; mkNode SERVER 8 0 [104] 5 false; mkNode WORKER 11 0 [104] 6 true;
     example_ps_node 1 SCHEDULER].
Definition example_once_recovered : Ps :=
  mkPs (mkPostoffice ∅ (init_node_ids 2 1 ∅) [] false false true 1 2 ∅ 2 (<[8 := 95]> (<[11 := 95]> ∅)) 0)
    (mkVan (example_ps_node 1 SCHEDULER) (example_ps_node 1 SCHEDULER) true ∅ ∅ true 0 0 1 2 [] None 9 2 10
       example_book (with_nodes (Meta_new 0 0 0 0 0) ADD_NODE [mkNode WORKER 11 0 [104] 6 true]))
    ∅ None [] [] 0.
Definition example_registration : Message :=
  mkMessage (with_nodes (Meta_new 0 0 0 0 0) ADD_NODE [example_new_node WORKER 4]) [].

Lemma second_recovery_fatal_witness :
  ProcessAddNodeCommand (fun _ => 1) (fun _ => 100) example_registration example_once_recovered = Fatal.
Proof.
  eapply (second_recovery_fatal (fun _ => 1) (fun _ => 100) example_once_recovered
    (set_ticks example_once_recovered 1) example_registration (example_new_node WORKER 4)
    (mkNode WORKER 11 0 [104] 6 true) [9]); try reflexivity.
  split; reflexivity.
Defined.
