(* ===== verification/Cluster.v ===== *)
(** The tables of the scheduler (which node has which id and address) over the
    whole life of a cluster: an invariant of the message loop of
    src/src/van.cc, whatever messages arrive. *)

From stdpp Require Import strings.
From S2P Require Import Prelude State Bytes Memory PsMessage Ps Resender Postoffice Van.

(** ** What the messages do to the tables *)

Record NodeTables := mkNodeTables {
  tb_nodes : list Node;                  (** the nodes that have registered *)
  tb_connected : gmap (list Z) Z;        (** the ids by address *)
  tb_shared : gmap Z Z;                  (** ids of nodes that share an address *)
  tb_servers : Z;                        (** how many ranks have been given out *)
  tb_workers : Z;
  tb_recovered : list Node }.

Definition tables (s : Ps) : NodeTables :=
  let v := ps_van s in
  mkNodeTables (meta_nodes (v_nodes v)) (v_connected_nodes v) (v_shared_node_mapping v) (v_num_servers v) (v_num_workers v)
    (meta_nodes (v_recovery_nodes v)).
(** What never changes: the role of the process and the size of the cluster. *)
Definition setting (s : Ps) : bool * Z := (v_is_scheduler (ps_van s), po_num_servers (ps_po s) + po_num_workers (ps_po s)).
Definition view (s : Ps) : NodeTables * (bool * Z) := (tables s, setting s).

Section keeping.
Context (SendMsg : Message -> Z) (clock : nat -> Z) (junk : Z).

Lemma view_lift {A} (o : outcome A) : keeps view (ps_lift o).
Proof. apply keeps_lift. Qed.
Lemma view_gets {A} (f : Ps -> A) : keeps view (ps_gets f).
Proof. apply keeps_gets. Qed.
Lemma view_ret {A} (a : A) : keeps view (mret a : ps A).
Proof. apply keeps_ret. Qed.
Lemma view_now : keeps view (ps_now clock).
Proof. intros s a s'. by intros [= _ <-]. Qed.
#[local] Hint Resolve view_lift view_gets view_ret view_now : keeps.

Ltac same := keeps.

Lemma view_forM {A} (l : list A) (f : A -> ps unit) : (forall a, keeps view (f a)) -> keeps view (ps_forM l f).
Proof. intros H. induction l as [|a l IH]; cbn [ps_forM]; [apply view_ret|]. apply keeps_bind; [apply H|]. intros _. exact IH. Qed.

Lemma view_modify_van f : (forall s, view (set_van s (f (ps_van s))) = view s) -> keeps view (modify_van f).
Proof. intros H. apply keeps_modify. exact H. Qed.

Lemma view_modify_resender f : keeps view (modify_resender f).
Proof. apply view_modify_van. intros s. unfold view. by destruct (v_resender (ps_van s)). Qed.
#[local] Hint Resolve view_modify_resender : keeps.

Lemma view_GetKey m : keeps view (GetKey m).
Proof. unfold GetKey, my_node. same. Qed.
#[local] Hint Resolve view_GetKey : keeps.

Lemma view_Send m : keeps view (Send SendMsg clock m).
Proof. unfold Send, AddOutgoing, modify_van. same. Qed.
Lemma view_GetTimestamp : keeps view GetTimestamp.
Proof. unfold GetTimestamp, modify_van. same. Qed.
#[local] Hint Resolve view_Send view_GetTimestamp : keeps.

Lemma view_AddIncomming r m : keeps view (AddIncomming SendMsg clock junk r m).
Proof. unfold AddIncomming. same. Qed.
Lemma view_GetNodeIDs g : keeps view (GetNodeIDs g).
Proof. unfold GetNodeIDs. same. Qed.
Lemma view_UpdateHeartbeat i t : keeps view (UpdateHeartbeat i t).
Proof. unfold UpdateHeartbeat, modify_po. same. Qed.
Lemma view_GetDeadNodes t : keeps view (GetDeadNodes clock t).
Proof. unfold GetDeadNodes, GetNodeIDs. same. Qed.
#[local] Hint Resolve view_AddIncomming view_GetNodeIDs view_UpdateHeartbeat view_GetDeadNodes : keeps.

Lemma view_ProcessDataMsg m : keeps view (ProcessDataMsg m).
Proof. unfold ProcessDataMsg, Accept. same. Qed.
Lemma view_ProcessTerminateCommand : keeps view ProcessTerminateCommand.
Proof. unfold ProcessTerminateCommand, modify_van. same. Qed.
Lemma view_ProcessBarrierCommand m : keeps view (ProcessBarrierCommand SendMsg clock junk m).
Proof.
  unfold ProcessBarrierCommand, Manage, modify_van, modify_po. same.
  apply view_forM. intros r. unfold barrier_respond. same.
Qed.
Lemma view_ProcessHearbeat m : keeps view (ProcessHearbeat SendMsg clock junk m).
Proof. unfold ProcessHearbeat. same. apply view_forM. intros r. same. Qed.
Lemma view_send_to t r : keeps view (send_to SendMsg clock t r).
Proof. unfold send_to. same. Qed.
Lemma view_Connect n : keeps view (Connect n).
Proof. unfold Connect. same. Qed.
Lemma view_update_my_id n : keeps view (update_my_id n).
Proof. unfold update_my_id, modify_van. same. Qed.
#[local] Hint Resolve view_send_to view_Connect view_update_my_id : keeps.
End keeping.

(** ** The book of ids *)

(** The ids of the first [ns] servers and [nw] workers. *)
Definition handed (ns nw i : Z) : Prop :=
  (exists r, 0 <= r < ns /\ i = ServerRankToID r) \/ (exists r, 0 <= r < nw /\ i = WorkerRankToID r).

(** Every id that was handed out is either that of one address, or stands for
    the id of an address that was there before. *)
Record book_ok (T : NodeTables) : Prop := {
  bk_conn : forall a i, tb_connected T !! a = Some i -> handed (tb_servers T) (tb_workers T) i /\ tb_shared T !! i = None;
  bk_inj : forall a b i, tb_connected T !! a = Some i -> tb_connected T !! b = Some i -> a = b;
  bk_shared : forall i j, tb_shared T !! i = Some j ->
    handed (tb_servers T) (tb_workers T) i /\ exists a, tb_connected T !! a = Some j;
  bk_all : forall i, handed (tb_servers T) (tb_workers T) i -> (exists a, tb_connected T !! a = Some i) \/ is_Some (tb_shared T !! i);
  bk_pos : 0 <= tb_servers T /\ 0 <= tb_workers T }.

Definition next_id (T : NodeTables) (n : Node) : Z := rank_id (tb_servers T) (tb_workers T) n.

(** Giving the next rank to a node. *)
Definition ranked_tables (T : NodeTables) (n : Node) : NodeTables :=
  let id := next_id T n in
  mkNodeTables (tb_nodes T)
    (match tb_connected T !! addr_str n with None => <[addr_str n := id]> (tb_connected T) | Some _ => tb_connected T end)
    (match tb_connected T !! addr_str n with None => tb_shared T | Some j => <[id := j]> (tb_shared T) end)
    (bump SERVER (tb_servers T) n) (bump WORKER (tb_workers T) n) (tb_recovered T).
Definition ranked_id (T : NodeTables) (n : Node) : Z := default (next_id T n) (tb_connected T !! addr_str n).

Lemma handed_next T n i : n_role n <> SCHEDULER -> 0 <= tb_servers T /\ 0 <= tb_workers T ->
  handed (tb_servers (ranked_tables T n)) (tb_workers (ranked_tables T n)) i <->
    handed (tb_servers T) (tb_workers T) i \/ i = next_id T n.
Proof.
  intros Hrole Hpos. unfold handed, ranked_tables, bump, next_id, rank_id, ServerRankToID, WorkerRankToID. cbn.
  destruct (n_role n); [| |done]; repeat (case_decide; try done); split.
  - intros [(r & Hr & ->)|(r & Hr & ->)]; [|by left; right; exists r].
    destruct (decide (r = tb_servers T)) as [->|]; [by right|left; left; exists r; lia].
  - intros [[(r & Hr & ->)|(r & Hr & ->)]| ->]; [left; exists r; lia|by right; exists r|left; exists (tb_servers T); lia].
  - intros [(r & Hr & ->)|(r & Hr & ->)]; [by left; left; exists r|].
    destruct (decide (r = tb_workers T)) as [->|]; [by right|left; right; exists r; lia].
  - intros [[(r & Hr & ->)|(r & Hr & ->)]| ->]; [by left; exists r|right; exists r; lia|right; exists (tb_workers T); lia].
Qed.

Lemma next_not_handed T n : ~ handed (tb_servers T) (tb_workers T) (next_id T n).
Proof.
  unfold handed, next_id, rank_id, ServerRankToID, WorkerRankToID. destruct (decide (n_role n = SERVER)); intros [(r & ? & ?)|(r & ? & ?)]; lia.
Qed.

Lemma ranked_book T n : n_role n <> SCHEDULER -> book_ok T -> book_ok (ranked_tables T n).
Proof.
  intros Hrole HT. pose proof (handed_next T n) as Hh. pose proof (next_not_handed T n) as Hno.
  pose proof (bk_pos _ HT) as Hpos. assert (Hnc : forall a, tb_connected T !! a <> Some (next_id T n)) by (intros a Ha; by apply Hno, (bk_conn _ HT a)).
  assert (Hns : tb_shared T !! next_id T n = None) by (destruct (_ !! _) eqn:E; [|done]; by apply (bk_shared _ HT) in E as [? _]).
  split.
  - intros a i. rewrite Hh by done. unfold ranked_tables. cbn [tb_connected tb_shared]. destruct (tb_connected T !! addr_str n) as [j|] eqn:Hn.
    + intros Ha. destruct (bk_conn _ HT _ _ Ha). rewrite lookup_insert_ne by (intros <-; by apply (Hnc a)). auto.
    + rewrite lookup_insert_Some. intros [[<- <-]|[? Ha]]; [auto|]. destruct (bk_conn _ HT _ _ Ha). auto.
  - intros a b i. unfold ranked_tables. cbn [tb_connected]. destruct (tb_connected T !! addr_str n) as [j|] eqn:Hn; [apply (bk_inj _ HT)|].
    rewrite !lookup_insert_Some. intros [[<- <-]|[? Ha]] [[<- ?]|[? Hb]]; [done|by apply Hnc in Hb|subst i; by apply Hnc in Ha|by eapply bk_inj].
  - intros i j. rewrite Hh by done. unfold ranked_tables. cbn [tb_connected tb_shared]. destruct (tb_connected T !! addr_str n) as [k|] eqn:Hn.
    + rewrite lookup_insert_Some. intros [[<- <-]|[? Ha]]; [split; [by right|by exists (addr_str n)]|].
      destruct (bk_shared _ HT _ _ Ha). auto.
    + intros Ha. destruct (bk_shared _ HT _ _ Ha) as [? [a Hj]]. split; [by left|]. exists a.
      rewrite lookup_insert_ne by (intros <-; by rewrite Hn in Hj). done.
  - intros i. rewrite Hh by done. unfold ranked_tables. cbn [tb_connected tb_shared]. intros [Hi| ->].
    + destruct (bk_all _ HT i Hi) as [[a Ha]|Hs]; destruct (tb_connected T !! addr_str n) as [k|] eqn:Hn.
      * left. by exists a.
      * left. exists a. rewrite lookup_insert_ne by (intros <-; by rewrite Hn in Ha). done.
      * right. destruct (decide (i = next_id T n)) as [->|]; [by rewrite lookup_insert_eq|by rewrite lookup_insert_ne].
      * by right.
    + destruct (tb_connected T !! addr_str n) as [k|] eqn:Hn; [right; by rewrite lookup_insert_eq|left].
      exists (addr_str n). by rewrite lookup_insert_eq.
  - cbn. unfold bump. repeat case_decide; lia.
Qed.

Lemma addr_with_id n i : addr_str (node_with_id n i) = addr_str n.
Proof. done. Qed.

(** All nodes of a list. *)
Fixpoint ranked_all (T : NodeTables) (l : list Node) : NodeTables :=
  match l with [] => T | n :: l' => ranked_all (ranked_tables T n) l' end.
Fixpoint ranked_nodes (T : NodeTables) (l : list Node) : list Node :=
  match l with [] => [] | n :: l' => node_with_id n (ranked_id T n) :: ranked_nodes (ranked_tables T n) l' end.

Definition no_scheduler (n : Node) : Prop := n_role n <> SCHEDULER.
(** The node has the id of its address. *)
Definition in_book (T : NodeTables) (n : Node) : Prop := tb_connected T !! addr_str n = Some (n_id n).

Lemma ranked_connected T n a i : tb_connected T !! a = Some i -> tb_connected (ranked_tables T n) !! a = Some i.
Proof.
  intros Ha. unfold ranked_tables. cbn. destruct (tb_connected T !! addr_str n) eqn:Hn; [done|].
  rewrite lookup_insert_ne by (intros <-; by rewrite Hn in Ha). done.
Qed.

Lemma ranked_all_connected T l a i : tb_connected T !! a = Some i -> tb_connected (ranked_all T l) !! a = Some i.
Proof. revert T. induction l as [|n l IH]; intros T Ha; [done|]. by apply IH, ranked_connected. Qed.

Lemma ranked_own T n : in_book (ranked_tables T n) (node_with_id n (ranked_id T n)).
Proof.
  unfold in_book, ranked_id. rewrite addr_with_id. unfold ranked_tables. cbn [tb_connected n_id node_with_id].
  destruct (tb_connected T !! addr_str n) eqn:Hn; [done|]. by rewrite lookup_insert_eq.
Qed.

Lemma ranked_all_book T l : Forall no_scheduler l -> book_ok T -> book_ok (ranked_all T l).
Proof. revert T. induction l as [|n l IH]; intros T; [done|]. intros [Hn Hl]%Forall_cons HT. by apply IH, ranked_book. Qed.

Lemma ranked_all_fixed T l : Forall no_scheduler l ->
  tb_nodes (ranked_all T l) = tb_nodes T /\ tb_recovered (ranked_all T l) = tb_recovered T /\
  tb_servers (ranked_all T l) + tb_workers (ranked_all T l) = tb_servers T + tb_workers T + Z.of_nat (length l) /\
  length (ranked_nodes T l) = length l /\ Forall no_scheduler (ranked_nodes T l).
Proof.
  revert T. induction l as [|n l IH]; intros T; [by repeat split; [cbn; lia|constructor]|]. intros [Hn Hl]%Forall_cons.
  destruct (IH (ranked_tables T n) Hl) as (H1 & H2 & H3 & H4 & H5). cbn [ranked_all ranked_nodes length].
  do 2 (split; [done|]). split; [|split; [by rewrite H4|by constructor]]. rewrite H3. unfold ranked_tables, bump, no_scheduler in *. cbn.
  destruct (n_role n); repeat (case_decide; try done); lia.
Qed.

Lemma ranked_nodes_book T l : Forall (in_book (ranked_all T l)) (ranked_nodes T l).
Proof.
  revert T. induction l as [|n l IH]; intros T; constructor; [|apply IH].
  exact (ranked_all_connected (ranked_tables T n) l _ _ (ranked_own T n)).
Qed.

Lemma ranked_all_ids T l a i : tb_connected (ranked_all T l) !! a = Some i ->
  tb_connected T !! a = Some i \/ i ∈ map n_id (ranked_nodes T l).
Proof.
  revert T. induction l as [|n l IH]; intros T; [by left|]. intros [H|H]%IH; [|by right; constructor].
  unfold ranked_tables in H. cbn in H. cbn [ranked_nodes map]. destruct (tb_connected T !! addr_str n) eqn:Hn; [by left|].
  apply lookup_insert_Some in H as [[<- <-]|[_ H]]; [right|by left]. unfold ranked_id. rewrite Hn. constructor.
Qed.

(** ** What [Van] computes *)

Lemma ps_bind_inv {A B} (m : ps A) (f : A -> ps B) s b s'' :
  (m ≫= f) s = Ok (b, s'') -> exists a s', m s = Ok (a, s') /\ f a s' = Ok (b, s'').
Proof. exact (st_bind_inv m f s b s''). Qed.
Lemma ps_lift_inv {A} (o : outcome A) (s : Ps) a s' : ps_lift o s = Ok (a, s') -> o = Ok a /\ s' = s.
Proof. exact (st_lift_inv o s a s'). Qed.

Lemma keeps_view {A} (m : ps A) s a s' : keeps view m -> m s = Ok (a, s') -> tables s' = tables s /\ setting s' = setting s.
Proof. intros Hk H. pose proof (Hk s a s' H) as E. exact (conj (f_equal fst E) (f_equal snd E)). Qed.

Lemma assign_rank_tables t n s n' s' : assign_rank t n s = Ok (n', s') ->
  tables s' = ranked_tables (tables s) n /\ setting s' = setting s /\ n' = node_with_id n (ranked_id (tables s) n).
Proof.
  unfold assign_rank. intros (v & s0 & [= <- <-] & H)%ps_bind_inv. apply ps_bind_inv in H as (m & s1 & Hm & H).
  apply ps_bind_inv in H as ([] & s2 & [= <-] & [= <- <-]). revert Hm.
  unfold ranked_tables, ranked_id, next_id, rank_id. change (tb_connected (tables s)) with (v_connected_nodes (ps_van s)).
  destruct (v_connected_nodes (ps_van s) !! addr_str n) as [j|] eqn:Hn.
  - intros ([] & s3 & [= <-] & [= <- <-])%ps_bind_inv. cbn. unfold tables, setting. cbn. done.
  - intros ([] & s3 & [_ ->]%ps_lift_inv & H)%ps_bind_inv.
    apply ps_bind_inv in H as ([] & s4 & [= <-] & H). apply ps_bind_inv in H as ([] & s5 & [= <-] & H).
    apply ps_bind_inv in H as ([] & s6 & [= <-] & [= <- <-]). cbn. unfold tables, setting. cbn. done.
Qed.

Lemma assign_ranks_tables t l s ns s' : assign_ranks t l s = Ok (ns, s') ->
  tables s' = ranked_all (tables s) l /\ setting s' = setting s /\ ns = ranked_nodes (tables s) l.
Proof.
  revert s ns s'. induction l as [|n l IH]; intros s ns s'; cbn [assign_ranks]; [by intros [= <- <-]|].
  intros (n' & s1 & (H1 & H2 & ->)%assign_rank_tables & H)%ps_bind_inv.
  apply ps_bind_inv in H as (ns1 & s2 & (H3 & H4 & ->)%IH & [= <- <-]). cbn. rewrite H3, H1, H4. done.
Qed.

Lemma replace_dead_inv dead new l l' r : replace_dead dead new l = Some (l', r) ->
  exists l1 n l2, l = l1 ++ n :: l2 /\ l2 <> [] /\ l' = l1 ++ r :: l2 /\ n_role n = n_role new /\
    r = mkNode (n_role new) (n_id n) (n_customer_id new) (n_hostname new) (n_port new) true.
Proof.
  revert l'. induction l as [|n [|m l] IH]; intros l'; [done|done|].
  change (replace_dead dead new (n :: m :: l)) with
    (if bool_decide (n_id n ∈ dead) && bool_decide (n_role n = n_role new)
     then let r := mkNode (n_role new) (n_id n) (n_customer_id new) (n_hostname new) (n_port new) true in Some (r :: m :: l, r)
     else match replace_dead dead new (m :: l) with Some (l'', r) => Some (n :: l'', r) | None => None end).
  cbv zeta. destruct (bool_decide (n_id n ∈ dead) && bool_decide (n_role n = n_role new)) eqn:E.
  - intros [= <- <-]. apply andb_true_iff in E as [_ E%bool_decide_eq_true]. exists [], n, (m :: l). by split_and!.
  - destruct (replace_dead dead new (m :: l)) as [[l'' r']|]; [|done]. intros [= <- <-].
    destruct (IH l'' eq_refl) as (l1 & k & l2 & -> & Hne & -> & Hr & Hrec). exists (n :: l1), k, l2. by split_and!.
Qed.

(** ** The invariant *)

(** Until all nodes have registered, and from then on. *)
Record gathering (num : Z) (T : NodeTables) : Prop := {
  ga_len : Z.of_nat (length (tb_nodes T)) < num;
  ga_roles : Forall no_scheduler (tb_nodes T);
  ga_connected : tb_connected T = ∅;
  ga_shared : tb_shared T = ∅;
  ga_ranks : tb_servers T = 0 /\ tb_workers T = 0;
  ga_recovered : tb_recovered T = [] }.

Record running (num : Z) (T : NodeTables) (l : list Node) (me : Node) : Prop := {
  ru_nodes : tb_nodes T = l ++ [me];
  ru_len : Z.of_nat (length l) = num;
  ru_roles : Forall no_scheduler l;
  ru_book : book_ok T;
  ru_ranks : tb_servers T + tb_workers T = num;
  ru_recovered : (length (tb_recovered T) <= 1)%nat;
  ru_in_book : Forall (fun n => in_book T n \/ n ∈ tb_recovered T) l;
  ru_known : Forall (fun n => exists a, tb_connected T !! a = Some (n_id n)) l;
  ru_ids : forall a i, tb_connected T !! a = Some i -> i ∈ map n_id l }.

Definition cluster_ok (num : Z) (T : NodeTables) : Prop := gathering num T \/ exists l me, running num T l me.

(** What does not change once the ids are given out. *)
Definition same_ids (T T' : NodeTables) : Prop :=
  tb_connected T' = tb_connected T /\ tb_shared T' = tb_shared T /\ tb_servers T' = tb_servers T /\
  tb_workers T' = tb_workers T /\
  map (fun n => (n_role n, n_id n)) (tb_nodes T') = map (fun n => (n_role n, n_id n)) (tb_nodes T).

(** Replacing a node by one that takes over its id. *)
Lemma running_replace num T l me l' r dead new : running num T l me -> tb_recovered T = [] -> no_scheduler new ->
  replace_dead dead new (l ++ [me]) = Some (l', r) ->
  let T' := mkNodeTables l' (tb_connected T) (tb_shared T) (tb_servers T) (tb_workers T) [r] in
  (exists l1, running num T' l1 me) /\ same_ids T T'.
Proof.
  intros HT Hrec Hnew (l1 & n & l2 & Hl & Hne & -> & Hrole & ->)%replace_dead_inv T'.
  destruct (exists_last Hne) as (l3 & me' & ->). change (n :: l3 ++ [me']) with ((n :: l3) ++ [me']) in Hl.
  rewrite app_assoc in Hl. apply app_inj_tail in Hl as [-> <-]. set (r := mkNode _ _ _ _ _ _) in *.
  split.
  - exists (l1 ++ r :: l3). destruct HT. constructor; cbn; try done.
    + by rewrite <- app_assoc.
    + rewrite !length_app in *. cbn in *. lia.
    + rewrite Forall_app, Forall_cons in *. unfold no_scheduler in *. tauto.
    + by destruct ru_book0.
    + rewrite Forall_app, Forall_cons in *. rewrite Hrec in *. destruct ru_in_book0 as (H1 & _ & H2).
      split_and!; [eapply Forall_impl; [exact H1|]|right; constructor|eapply Forall_impl; [exact H2|]]; intros x [Hx|Hx%elem_of_nil]; by left || done.
    + rewrite Forall_app, Forall_cons in *. tauto.
    + intros a i Ha%ru_ids0. rewrite map_app in *. cbn in *. exact Ha.
  - unfold same_ids, T'. cbn. split_and!; try done. rewrite (ru_nodes _ _ _ _ HT), !map_app. cbn. rewrite !map_app. cbn.
    rewrite <- app_assoc. cbn. by rewrite Hrole.
Qed.

(** Giving out the ids. *)
Lemma assemble num T l me : gathering num (mkNodeTables [] (tb_connected T) (tb_shared T) (tb_servers T) (tb_workers T) (tb_recovered T)) ->
  Forall no_scheduler l -> Z.of_nat (length l) = num ->
  let T1 := ranked_all T l in
  running num (mkNodeTables (ranked_nodes T l ++ [me]) (tb_connected T1) (tb_shared T1) (tb_servers T1) (tb_workers T1) (tb_recovered T1))
    (ranked_nodes T l) me.
Proof.
  intros [_ _ Hc Hs [Hsv Hw] Hrec] Hroles Hlen T1. cbn in *.
  assert (HT : book_ok T).
  { split; rewrite ?Hc, ?Hs, ?Hsv, ?Hw; try (intros *; by rewrite ?lookup_empty).
    intros i [(r & ? & _)|(r & ? & _)]; lia. }
  destruct (ranked_all_fixed T l Hroles) as (Hn & Hr & Hranks & Hl & Hf). pose proof (ranked_all_book T l Hroles HT) as [B1 B2 B3 B4 B5].
  pose proof (ranked_nodes_book T l) as Hb. fold T1 in Hn, Hr, Hranks, Hb, B1, B2, B3, B4, B5.
  constructor; cbn; try done.
  - lia.
  - lia.
  - rewrite Hr, Hrec. cbn. lia.
  - eapply Forall_impl; [exact Hb|]. intros n Hn'. by left.
  - eapply Forall_impl; [exact Hb|]. intros n Hn'. by exists (addr_str n).
  - intros a i [H|H]%ranked_all_ids; [by rewrite Hc, lookup_empty in H|done].
Qed.

(** ** The commands *)

Definition with_registered (T : NodeTables) (l : list Node) (rec : list Node) : NodeTables :=
  mkNodeTables l (tb_connected T) (tb_shared T) (tb_servers T) (tb_workers T) rec.

Lemma sort_no_scheduler l : Forall no_scheduler l -> Forall no_scheduler (sort_nodes l).
Proof. intros H. unfold sort_nodes. by rewrite sort_by_perm. Qed.


(** The effect of a registration on the tables: none, a further node, or a node
    that takes the place of a dead one. *)
Definition registers (num : Z) (dead : list Z) (ns : list Node) (T T' : NodeTables) : Prop :=
  T' = T \/
  exists n, ns = [n] /\
    (Z.of_nat (length (tb_nodes T)) < num /\ T' = with_registered T (tb_nodes T ++ [n]) (tb_recovered T) \/
     num <= Z.of_nat (length (tb_nodes T)) /\ exists l r, replace_dead dead n (tb_nodes T) = Some (l, r) /\
       T' = with_registered T l (tb_recovered T ++ [r])).

(** The effect of what the scheduler does next. *)
Definition schedules (num : Z) (T T' : NodeTables) : Prop :=
  Z.of_nat (length (tb_nodes T)) = num /\ (exists me,
    let l := sort_nodes (tb_nodes T) in
    T' = with_registered (ranked_all T l) (ranked_nodes T l ++ [me]) (tb_recovered (ranked_all T l))) \/
  Z.of_nat (length (tb_nodes T)) <> num /\ T' = T /\ (length (tb_recovered T) <= 1)%nat.

Lemma gathering_step num T T1 T2 dead ns : gathering num T -> Forall no_scheduler ns ->
  registers num dead ns T T1 -> schedules num T1 T2 -> cluster_ok num T2.
Proof.
  intros HT Hns Hreg Hsch. pose proof (ga_len _ _ HT). destruct Hreg as [->|(n & -> & [[_ ->]|[? _]])]; [| |lia].
  - destruct Hsch as [[? _]|(_ & -> & _)]; [lia|by left].
  - assert (Hroles : Forall no_scheduler (tb_nodes T ++ [n])) by (rewrite Forall_app; split; [apply HT|done]).
    destruct HT as [_ _ Hc Hs Hr Hrec]. destruct Hsch as [[Hlen [me ->]]|(Hlen & -> & _)]; cbn [tb_nodes with_registered] in *.
    + right. eexists _, me. apply assemble; [|by apply sort_no_scheduler|unfold sort_nodes; by rewrite sort_by_perm].
      constructor; cbn; try done; rewrite length_app in *; cbn in *; lia.
    + left. constructor; cbn; try done. rewrite length_app in *. cbn in *. lia.
Qed.

Lemma same_ids_refl T : same_ids T T.
Proof. by repeat split. Qed.

Lemma running_step num T T1 T2 l me dead ns : running num T l me -> Forall no_scheduler ns ->
  registers num dead ns T T1 -> schedules num T1 T2 -> (exists l' , running num T2 l' me) /\ same_ids T T2.
Proof.
  intros HT Hns Hreg Hsch. assert (Hlen : Z.of_nat (length (tb_nodes T)) = num + 1).
  { rewrite (ru_nodes _ _ _ _ HT), length_app, Nat2Z.inj_add, (ru_len _ _ _ _ HT). done. }
  destruct Hreg as [->|(n & -> & [[? _]|[_ (l' & r & Hrep & ->)]])]; [|lia|].
  - destruct Hsch as [[? _]|(_ & -> & _)]; [lia|]. split; [by exists l|apply same_ids_refl].
  - rewrite Forall_singleton in Hns. destruct Hsch as [[Hl _]|(_ & -> & Hrec)]; cbn [tb_nodes tb_recovered with_registered] in *.
    { apply replace_dead_length in Hrep. lia. }
    assert (Hnil : tb_recovered T = []) by (destruct (tb_recovered T); [done|rewrite length_app in Hrec; cbn in Hrec; lia]).
    rewrite (ru_nodes _ _ _ _ HT) in Hrep. rewrite Hnil. exact (running_replace num T l me l' r dead n HT Hnil Hns Hrep).
Qed.

Section commands.
Context (SendMsg : Message -> Z) (clock : nat -> Z) (junk : Z).

Lemma register_tables msg dead s ns s' : register_node msg dead s = Ok (ns, s') ->
  setting s' = setting s /\ registers (snd (setting s)) dead (ct_node (mt_control (ms_meta msg))) (tables s) (tables s').
Proof.
  intros H. unfold registers. unfold register_node in H. cbv zeta in H. apply ps_bind_inv in H as (v & s1 & [= <- <-] & H).
  apply ps_bind_inv in H as (p & s1 & [= <- <-] & H).
  destruct (mt_sender (ms_meta msg) =? kEmpty); [|injection H as <- <-; auto].
  apply ps_bind_inv in H as ([] & s1 & [_ ->]%ps_lift_inv & H).
  destruct (ct_node (mt_control (ms_meta msg))) as [|n [|? ?]]; [by apply ps_lift_inv in H as [? _]| |by apply ps_lift_inv in H as [? _]].
  destruct (Z.ltb_spec (Z.of_nat (length (meta_nodes (v_nodes (ps_van s))))) (po_num_servers (ps_po s) + po_num_workers (ps_po s))).
  - apply ps_bind_inv in H as ([] & s1 & [= <-] & [= <- <-]). split; [done|]. right. exists n. split; [done|]. by left.
  - apply ps_bind_inv in H as ([] & s1 & [_ ->]%ps_lift_inv & H).
    destruct (replace_dead dead n (meta_nodes (v_nodes (ps_van s)))) as [[l r]|] eqn:E; [|injection H as <- <-; auto].
    apply ps_bind_inv in H as ([] & s1 & [= <-] & [= <- <-]). split; [done|]. right. exists n. split; [done|]. right.
    split; [done|]. by exists l, r.
Qed.

Lemma scheduler_tables s s' : ProcessAddNodeCommandAtScheduler SendMsg clock s = Ok (tt, s') ->
  setting s' = setting s /\ schedules (snd (setting s)) (tables s) (tables s').
Proof.
  intros H. unfold schedules. set (T := tables s). unfold ProcessAddNodeCommandAtScheduler in H.
  apply ps_bind_inv in H as ([] & s1 & H1 & H).
  assert (E1 : tables s1 = T /\ setting s1 = setting s) by (injection H1 as <-; done). clear H1.
  apply ps_bind_inv in H as (t & s2 & H2%(keeps_view _ _ _ _ (view_now clock)) & H). destruct E1 as [E1 E1'], H2 as [E2 E2'].
  rewrite E1 in E2. rewrite E1' in E2'. clear E1 E1'.
  apply ps_bind_inv in H as (p & s3 & [= <- <-] & H). apply ps_bind_inv in H as (v & s3 & [= <- <-] & H).
  change (meta_nodes (v_nodes (ps_van s2))) with (tb_nodes (tables s2)) in H.
  change (meta_nodes (v_recovery_nodes (ps_van s2))) with (tb_recovered (tables s2)) in H.
  change (po_num_servers (ps_po s2) + po_num_workers (ps_po s2)) with (snd (setting s2)) in H. rewrite E2, E2' in H.
  destruct (Z.eqb_spec (Z.of_nat (length (tb_nodes T))) (snd (setting s))) as [Hn|Hn].
  - apply ps_bind_inv in H as (ns & s3 & (E3 & E3' & ->)%assign_ranks_tables & H). rewrite E2 in *.
    apply ps_bind_inv in H as ([] & s4 & H4 & H). 
    assert (E4 : tables s4 = with_registered (tables s3) (ranked_nodes T (sort_nodes (tb_nodes T)) ++ [v_my_node (ps_van s3)]) (tb_recovered (tables s3))
      /\ setting s4 = setting s3) by (injection H4 as <-; done). clear H4.
    assert (Hk : keeps view (v ← ps_gets ps_van; ids ← GetNodeIDs (kWorkerGroup + kServerGroup);
      ps_forM ids (fun r => if decide (v_shared_node_mapping v !! r = None) then send_to SendMsg clock (v_nodes v) r;; mret tt else mret tt);;
      modify_van (fun v => set_ready v true))).
    { apply keeps_bind; [apply view_gets|intros v]. apply keeps_bind; [apply view_GetNodeIDs|intros ids].
      apply keeps_bind; [|intros _; by apply view_modify_van]. apply view_forM. intros r. case_match; [|apply view_ret].
      apply keeps_bind; [apply view_send_to|intros _; apply view_ret]. }
    apply (keeps_view _ _ _ _ Hk) in H as [E5 E5']. destruct E4 as [E4 E4']. split; [congruence|]. left. split; [done|].
    eexists. cbv zeta. by rewrite E5, E4, E3.
  - destruct (tb_recovered T) as [|rn more] eqn:Hr; [injection H as <-; split; [done|right; split_and!; try done; cbn; lia]|].
    apply ps_bind_inv in H as (dead & s3 & H3%(keeps_view _ _ _ _ (view_GetDeadNodes clock _)) & H). destruct H3 as [E3 E3'].
    apply ps_bind_inv in H as ([] & s4 & [Hc ->]%ps_lift_inv & H).
    assert (Hk : keeps view (Connect rn;; UpdateHeartbeat (n_id rn) t;; ids ← GetNodeIDs (kWorkerGroup + kServerGroup);
      ps_forM ids (fun r => if negb (r =? n_id rn) && bool_decide (r ∈ dead) then mret tt
        else send_to SendMsg clock (if r =? n_id rn then v_nodes (ps_van s2) else v_recovery_nodes (ps_van s2)) r;; mret tt))).
    { apply keeps_bind; [apply view_Connect|intros _]. apply keeps_bind; [apply view_UpdateHeartbeat|intros _].
      apply keeps_bind; [apply view_GetNodeIDs|intros ids]. apply view_forM. intros r. case_match; [apply view_ret|].
      apply keeps_bind; [apply view_send_to|intros _; apply view_ret]. }
    apply (keeps_view _ _ _ _ Hk) in H as [E5 E5']. split; [congruence|]. right. split; [done|]. split; [congruence|].
    destruct (Nat.eqb_spec (length (rn :: more)) 1) as [->|]; [done|done].
Qed.

Definition may_register (m : Message) : Prop :=
  ct_cmd (mt_control (ms_meta m)) = ADD_NODE -> Forall no_scheduler (ct_node (mt_control (ms_meta m))).

(** Only the scheduler's own part of the command changes its tables. *)
Lemma add_node_tables msg s s' : fst (setting s) = true -> ProcessAddNodeCommand SendMsg clock msg s = Ok (tt, s') ->
  exists dead ns s1 s2, tables s1 = tables s /\ setting s1 = setting s /\ register_node msg dead s1 = Ok (ns, s2) /\
    exists s3, tables s3 = tables s2 /\ setting s3 = setting s2 /\ ProcessAddNodeCommandAtScheduler SendMsg clock s3 = Ok (tt, s').
Proof.
  intros Hs H. unfold ProcessAddNodeCommand in H. apply ps_bind_inv in H as (v & s0 & [= <- <-] & H).
  apply ps_bind_inv in H as (dead & s1 & [E1 E1']%(keeps_view _ _ _ _ (view_GetDeadNodes clock _)) & H).
  apply ps_bind_inv in H as (ns & s4 & H1 & H). unfold UpdateLocalID in H1.
  apply ps_bind_inv in H1 as (ns1 & s2 & Hreg & H1).
  apply ps_bind_inv in H1 as ([] & s3 & [E3 E3']%(keeps_view _ _ _ _ (view_forM _ _ view_update_my_id)) & [= <- <-]).
  apply ps_bind_inv in H as (v & s4 & [= <- <-] & H).
  exists dead, ns1, s1, s2. do 3 (split; [done|]). exists s3. do 2 (split; [done|]).
  assert (Hsch : v_is_scheduler (ps_van s3) = true).
  { change (fst (setting s3) = true). apply register_tables in Hreg as [E2 _]. congruence. }
  by rewrite Hsch in H.
Qed.

Lemma add_node_ok num msg s s' : setting s = (true, num) -> 0 < num -> ct_cmd (mt_control (ms_meta msg)) = ADD_NODE ->
  may_register msg -> cluster_ok num (tables s) -> ProcessAddNodeCommand SendMsg clock msg s = Ok (tt, s') ->
  cluster_ok num (tables s') /\ setting s' = setting s /\
  (num < Z.of_nat (length (tb_nodes (tables s))) -> same_ids (tables s) (tables s')).
Proof.
  intros Hset Hnum Hcmd Hmay HT H. apply add_node_tables in H as (dead & ns & s1 & s2 & E1 & E1' & Hreg & s3 & E3 & E3' & Hsch); [|by rewrite Hset].
  apply register_tables in Hreg as [E2' Hreg]. apply scheduler_tables in Hsch as [E4' Hsch]. 
  rewrite E1, E1', Hset in Hreg. rewrite E3, E3', E2', E1', Hset in Hsch. cbn [snd] in Hreg, Hsch.
  specialize (Hmay Hcmd). split; [|split; [congruence|]].
  - destruct HT as [HT|(l & me & HT)]; [by eapply gathering_step|right]. 
    destruct (running_step num (tables s) (tables s2) (tables s') l me dead (ct_node (mt_control (ms_meta msg)))) as [(l' & Hl) _]; eauto.
  - intros Hlen. destruct HT as [HT|(l & me & HT)]; [pose proof (ga_len _ _ HT); lia|].
    destruct (running_step num (tables s) (tables s2) (tables s') l me dead (ct_node (mt_control (ms_meta msg)))) as [_ Hsame]; eauto.
Qed.

(** ** The message loop *)

(** What arrives: whether it is to be dropped, its size, and the message. *)
Definition arrival : Type := bool * Z * Message.

(** The loop of [Receiving], up to a message that ends it. *)
Fixpoint receive_all (l : list arrival) : ps unit :=
  match l with
  | [] => mret tt
  | (dropped, bytes, m) :: l' =>
      go ← Receiving_once SendMsg clock junk dropped bytes m;
      if go : bool then receive_all l' else mret tt
  end.

Lemma receive_step num d b m s go s' : setting s = (true, num) -> 0 < num -> may_register m -> cluster_ok num (tables s) ->
  Receiving_once SendMsg clock junk d b m s = Ok (go, s') ->
  cluster_ok num (tables s') /\ setting s' = setting s /\
  (num < Z.of_nat (length (tb_nodes (tables s))) -> same_ids (tables s) (tables s')).
Proof.
  intros Hset Hnum Hmay HT H.
  assert (Hsame : forall s1, tables s1 = tables s -> setting s1 = setting s -> cluster_ok num (tables s1) /\ setting s1 = setting s /\
    (num < Z.of_nat (length (tb_nodes (tables s))) -> same_ids (tables s) (tables s1))) by (intros s1 -> ->; by split_and!).
  unfold Receiving_once in H. apply ps_bind_inv in H as (v & s1 & [= <- <-] & H).
  destruct (v_ready (ps_van s) && d); [injection H as <- <-; by apply Hsame|].
  apply ps_bind_inv in H as ([] & s1 & [_ ->]%ps_lift_inv & H).
  apply ps_bind_inv in H as ([] & s1 & H1 & H). apply ps_bind_inv in H as (v & s2 & [= <- <-] & H).
  assert (Hk1 : tables s1 = tables s /\ setting s1 = setting s) by (injection H1 as <-; done). clear H1.
  apply ps_bind_inv in H as (dup & s2 & H2 & H).
  assert (Hk2 : tables s2 = tables s1 /\ setting s2 = setting s1).
  { destruct (v_resender (ps_van s1)); [|by injection H2 as <- <-]. eapply keeps_view; [apply view_AddIncomming|exact H2]. }
  destruct Hk1 as [K1 K1'], Hk2 as [K2 K2']. rewrite K1 in K2. rewrite K1' in K2'.
  destruct dup; [injection H as <- <-; by apply Hsame|].
  destruct (ct_cmd (mt_control (ms_meta m))) eqn:Hcmd; apply ps_bind_inv in H as ([] & s3 & H3 & [= <- <-]) || injection H as <- <-.
  - apply keeps_view in H3 as [K3 K3']; [apply Hsame; congruence|apply view_ProcessDataMsg].
  - apply keeps_view in H3 as [K3 K3']; [apply Hsame; congruence|apply view_ProcessTerminateCommand].
  - rewrite <- K2, <- K2'. apply (add_node_ok num m s2 s3); [congruence|done|done|done|by rewrite K2|done].
  - apply keeps_view in H3 as [K3 K3']; [apply Hsame; congruence|apply view_ProcessBarrierCommand].
  - by apply Hsame.
  - apply keeps_view in H3 as [K3 K3']; [apply Hsame; congruence|apply view_ProcessHearbeat].
Qed.

Lemma same_ids_trans T1 T2 T3 : same_ids T1 T2 -> same_ids T2 T3 -> same_ids T1 T3.
Proof. unfold same_ids. intuition congruence. Qed.

Lemma same_ids_length T T' : same_ids T T' -> length (tb_nodes T') = length (tb_nodes T).
Proof. intros (_ & _ & _ & _ & H%(f_equal length)). by rewrite !length_map in H. Qed.

Lemma receive_all_ok num l s s' : setting s = (true, num) -> 0 < num -> Forall (fun x => may_register (snd x)) l ->
  cluster_ok num (tables s) -> receive_all l s = Ok (tt, s') ->
  cluster_ok num (tables s') /\ setting s' = setting s /\
  (num < Z.of_nat (length (tb_nodes (tables s))) -> same_ids (tables s) (tables s')).
Proof.
  intros Hset Hnum. revert s Hset. induction l as [|[[d b] m] l IH]; intros s Hset Hl HT; cbn [receive_all].
  { intros [= <-]. split_and!; try done. }
  apply Forall_cons in Hl as [Hm Hl]. intros (go & s1 & H1 & H)%ps_bind_inv.
  destruct (receive_step num d b m s go s1 Hset Hnum Hm HT H1) as (HT1 & Hset1 & Hsame1).
  destruct go; [|by injection H as <-]. destruct (IH s1) as (HT' & Hset' & Hsame'); [congruence|done..|].
  split; [done|]. split; [congruence|]. intros Hlen. eapply same_ids_trans; [by apply Hsame1|]. apply Hsame'.
  by rewrite (same_ids_length _ _ (Hsame1 Hlen)).
Qed.
End commands.

(** ** Property *)

(** C25: the scheduler's tables. Whatever messages arrive, in any order (nodes
    that register, come back or send heartbeats, barriers, application messages,
    acknowledgements, repeated or dropped), as long as the scheduler runs: before
    all nodes have registered no id is given out; from then on there are as many
    nodes as configured and as many ranks given out; every id that was given out
    belongs to one address, or stands for the id of an address that was there
    before; two addresses never have the same id; every registered node has the
    id of its address, except one that came back for a dead node and has that
    one's id; and the ids and roles of the nodes never change again. *)
Theorem scheduler_ids_stable SendMsg clock junk num l1 l2 s0 s1 s2
    (Hnum : 0 < num) (Hset : setting s0 = (true, num)) (Hstart : tables s0 = mkNodeTables [] ∅ ∅ 0 0 [])
    (Hmay : Forall (fun x => may_register (snd x)) (l1 ++ l2))
    (H1 : receive_all SendMsg clock junk l1 s0 = Ok (tt, s1)) (H2 : receive_all SendMsg clock junk l2 s1 = Ok (tt, s2)) :
  cluster_ok num (tables s1) /\ cluster_ok num (tables s2) /\
  (num < Z.of_nat (length (tb_nodes (tables s1))) -> same_ids (tables s1) (tables s2)).
Proof.
  rewrite Forall_app in Hmay. destruct Hmay as [Hm1 Hm2].
  assert (H0 : cluster_ok num (tables s0)) by (left; rewrite Hstart; constructor; cbn; auto; lia).
  destruct (receive_all_ok SendMsg clock junk num l1 s0 s1 Hset Hnum Hm1 H0 H1) as (HT1 & Hset1 & _).
  destruct (receive_all_ok SendMsg clock junk num l2 s1 s2) as (HT2 & _ & Hsame); [congruence|done..|]. by split_and!.
Qed.

(** A scheduler of two workers and a server; a worker comes back after the clock
    has passed the timeout. *)
Definition example_started : Ps :=
  mkPs (mkPostoffice ∅ (init_node_ids 2 1 ∅) [] false false true 1 2 ∅ 2 ∅ 0)
    (mkVan (example_ps_node 1 SCHEDULER) (example_ps_node 1 SCHEDULER) true ∅ ∅ false 0 0 0 0 [] None 9 2 10
       (Meta_new 0 0 0 0 0) (Meta_new 0 0 0 0 0)) ∅ None [] [] 0.
Definition example_arrival (r : Role) (port : Z) : arrival :=
  (false, 40, mkMessage (with_nodes (Meta_new 0 0 0 0 0) ADD_NODE [example_new_node r port]) []).
Definition example_first : list arrival := [example_arrival WORKER 7; example_arrival SERVER 5; example_arrival WORKER 6].
Definition example_later : list arrival :=
  [(false, 40, barrier_message 0 0 6 0); example_arrival WORKER 4; (false, 40, barrier_message 0 0 6 1)].
Definition example_clock (k : nat) : Z := if (k <? 3)%nat then 0 else 100.
Definition state_after (l : list arrival) (s : Ps) : Ps :=
  match receive_all (fun _ => 1) example_clock 0 l s with Ok (_, s') => s' | _ => s end.

Lemma scheduler_ids_stable_witness :
  let s1 := state_after example_first example_started in
  let s2 := state_after example_later s1 in
  map n_id (tb_nodes (tables s1)) = [8; 9; 11; 1] /\ map n_port (tb_nodes (tables s2)) = [5; 4; 7; 0] /\
  cluster_ok 3 (tables s2) /\ same_ids (tables s1) (tables s2).
Proof.
  intros s1 s2.
  assert (H1 : receive_all (fun _ => 1) example_clock 0 example_first example_started = Ok (tt, s1)) by (vm_compute; reflexivity).
  assert (H2 : receive_all (fun _ => 1) example_clock 0 example_later s1 = Ok (tt, s2)) by (vm_compute; reflexivity).
  assert (Hmay : Forall (fun x => may_register (snd x)) (example_first ++ example_later)).
  { unfold example_first, example_later. cbn [app].
    repeat (apply Forall_cons_2; [intros _; cbn; repeat (apply Forall_cons_2; [discriminate|]); by apply Forall_nil_2|]). by apply Forall_nil_2. }
  destruct (scheduler_ids_stable (fun _ => 1) example_clock 0 3 example_first example_later example_started s1 s2
    ltac:(lia) eq_refl eq_refl Hmay H1 H2) as (_ & HT & Hsame).
  split; [vm_compute; reflexivity|]. split; [vm_compute; reflexivity|]. split; [exact HT|]. apply Hsame. vm_compute. reflexivity.
Defined.
