(* ===== verification/ZmqVan.v ===== *)
(** The ZeroMQ van: src/src/zmq_van.h, the virtual functions of the van over
    ZeroMQ sockets.

    ZeroMQ is a library; what it does is in the arguments: the result of every
    [zmq_msg_send] ([z_results], all successful once the list is empty), the
    events that a receiving thread sees, and whether [zmq_bind] and [zmq_connect]
    succeed; sockets can be created, configured and closed. A socket is a number. A frame is sent or received with the flag that says
    whether more frames of the message follow. Freeing of frames, linger periods
    and socket limits are not represented; frames are shorter than 2^31 bytes. *)

From S2P Require Import Prelude State Bytes Memory PsMessage Ps Resender.

Definition frame : Type := bool * list Z.

Record ZmqBufferContext := mkContext {
  bc_sender : Z;
  bc_meta : list Z;
  bc_data : list (list Z) }.

Inductive send_result := Sent | SendInterrupted | SendFailed.

Record ZMQVan := mkZmq {
  z_senders : gmap Z Z;
  z_receiver : Z;
  z_is_worker : bool;
  z_my_node : Node;
  z_recv_buffers : list ZmqBufferContext;
  z_next : Z;                          (** the next socket *)
  z_identity : gmap Z (list Z);        (** [ZMQ_IDENTITY] of a socket *)
  z_connected : list (Z * list Z);     (** sockets and the addresses they are connected to *)
  z_closed : list Z;
  z_threads : list Z;                  (** sockets that have a receiving thread *)
  z_sent : list (Z * frame);
  z_results : list send_result }.

Definition z_add_sent (z : ZMQVan) (x : Z * frame) : ZMQVan :=
  mkZmq (z_senders z) (z_receiver z) (z_is_worker z) (z_my_node z) (z_recv_buffers z) (z_next z) (z_identity z)
    (z_connected z) (z_closed z) (z_threads z) (z_sent z ++ [x]) (z_results z).
Definition z_set_results (z : ZMQVan) r : ZMQVan :=
  mkZmq (z_senders z) (z_receiver z) (z_is_worker z) (z_my_node z) (z_recv_buffers z) (z_next z) (z_identity z)
    (z_connected z) (z_closed z) (z_threads z) (z_sent z) r.
Definition z_set_recv_buffers (z : ZMQVan) q : ZMQVan :=
  mkZmq (z_senders z) (z_receiver z) (z_is_worker z) (z_my_node z) q (z_next z) (z_identity z)
    (z_connected z) (z_closed z) (z_threads z) (z_sent z) (z_results z).
Definition z_set_senders (z : ZMQVan) m : ZMQVan :=
  mkZmq m (z_receiver z) (z_is_worker z) (z_my_node z) (z_recv_buffers z) (z_next z) (z_identity z)
    (z_connected z) (z_closed z) (z_threads z) (z_sent z) (z_results z).
Definition z_close (z : ZMQVan) (l : list Z) : ZMQVan :=
  mkZmq (z_senders z) (z_receiver z) (z_is_worker z) (z_my_node z) (z_recv_buffers z) (z_next z) (z_identity z)
    (z_connected z) (z_closed z ++ l) (z_threads z) (z_sent z) (z_results z).
Definition z_new_socket (z : ZMQVan) : ZMQVan :=
  mkZmq (z_senders z) (z_receiver z) (z_is_worker z) (z_my_node z) (z_recv_buffers z) (z_next z + 1) (z_identity z)
    (z_connected z) (z_closed z) (z_threads z) (z_sent z) (z_results z).
Definition z_set_identity (z : ZMQVan) m : ZMQVan :=
  mkZmq (z_senders z) (z_receiver z) (z_is_worker z) (z_my_node z) (z_recv_buffers z) (z_next z) m
    (z_connected z) (z_closed z) (z_threads z) (z_sent z) (z_results z).
Definition z_add_connected (z : ZMQVan) x : ZMQVan :=
  mkZmq (z_senders z) (z_receiver z) (z_is_worker z) (z_my_node z) (z_recv_buffers z) (z_next z) (z_identity z)
    (z_connected z ++ [x]) (z_closed z) (z_threads z) (z_sent z) (z_results z).
Definition z_add_thread (z : ZMQVan) s : ZMQVan :=
  mkZmq (z_senders z) (z_receiver z) (z_is_worker z) (z_my_node z) (z_recv_buffers z) (z_next z) (z_identity z)
    (z_connected z) (z_closed z) (z_threads z ++ [s]) (z_sent z) (z_results z).
Definition z_bound (z : ZMQVan) (receiver : Z) (worker : bool) : ZMQVan :=
  mkZmq (z_senders z) receiver worker (z_my_node z) (z_recv_buffers z) (z_next z) (z_identity z)
    (z_connected z) (z_closed z) (z_threads z) (z_sent z) (z_results z).

Notation zmq := (stm ZMQVan).

(** ** Identities *)

(** [std::to_string]; 20 digits are enough for every [int]. *)
Fixpoint digits (fuel : nat) (n : Z) : list Z :=
  match fuel with
  | O => []
  | S fuel' => (if n <? 10 then [] else digits fuel' (n `div` 10)) ++ [48 + n `mod` 10]
  end.
Definition to_string (n : Z) : list Z := if n <? 0 then 45 :: digits 20 (- n) else digits 20 n.

Definition identity (id : Z) : list Z := [112; 115] ++ to_string id.

(** The loop of [GetNodeID]; a character that is no digit ends it. *)
Fixpoint parse_id (id : Z) (buf : list Z) : outcome Z :=
  match buf with
  | [] => Ok id
  | c :: buf' =>
      if (48 <=? c) && (c <=? 57) then
        DEFINED (id * 10 + c <? 2 ^ 31);;
        parse_id (id * 10 + c - 48) buf'
      else Ok kEmpty
  end.

Definition GetNodeID (buf : list Z) : outcome Z :=
  match buf with
  | 112 :: 115 :: c :: buf' => parse_id 0 (c :: buf')
  | _ => Ok kEmpty
  end.

Definition GetRoleFromId (id : Z) : Role :=
  if id <? 8 then SCHEDULER
  else if Z.rem id 2 =? 0 then SERVER
  else WORKER.

(** ** Sending *)

(** Send until it is not interrupted. *)
Fixpoint send_result_of (results : list send_result) : bool * list send_result :=
  match results with
  | [] => (true, [])
  | Sent :: r => (true, r)
  | SendInterrupted :: r => send_result_of r
  | SendFailed :: r => (false, r)
  end.

Definition send_frame (socket : Z) (f : frame) : zmq bool :=
  z ← st_gets id;
  let r := send_result_of (z_results z) in
  st_modify (fun z => z_set_results z (snd r));;
  (if fst r then st_modify (fun z => z_add_sent z (socket, f)) else mret tt);;
  mret (fst r).

Fixpoint send_data (socket : Z) (data : list (list Z)) (send_bytes : Z) : zmq Z :=
  match data with
  | [] => mret send_bytes
  | d :: data' =>
      ok ← send_frame socket (negb (Nat.eqb (length data') 0), d);
      if (ok : bool) then send_data socket data' (s32 (send_bytes + Z.of_nat (length d)))
      else mret (-1)
  end.

Section van.
Context (junk : Z).

Definition ZmqSendMsg (socket : Z) (msg : Message) : zmq Z :=
  let meta_size := GetPackMetaLen (ms_meta msg) in
  packed ← st_lift (PackMeta (ms_meta msg) (replicate (Z.to_nat (meta_size + 1)) junk));
  ok ← send_frame socket (negb (Nat.eqb (length (ms_data msg)) 0), take (Z.to_nat meta_size) (fst packed));
  st_lift (CHECK ok);;
  send_data socket (ms_data msg) meta_size.

(** The routing frames in front of a message to a worker. *)
Definition send_identity (node : Z) : zmq unit :=
  z ← st_gets id;
  ok ← send_frame (z_receiver z) (true, identity node);
  st_lift (CHECK ok).

(** Whether the message leaves through the receiving socket. *)
Definition through_receiver (msg : Message) : bool :=
  negb (mt_simple_app (ms_meta msg)) && Control_empty (mt_control (ms_meta msg)) &&
  bool_decide (GetRoleFromId (mt_recver (ms_meta msg)) = WORKER).

Definition NonWorkerSendMsg (msg : Message) : zmq Z :=
  z ← st_gets id;
  let id := mt_recver (ms_meta msg) in
  st_lift (CHECK (negb (id =? kEmpty)));;
  match z_senders z !! id with
  | None => mret (-1)
  | Some socket =>
      if through_receiver msg then
        send_identity id;;
        send_identity (n_id (z_my_node z));;
        ZmqSendMsg (z_receiver z) msg
      else ZmqSendMsg socket msg
  end.

Definition Zmq_SendMsg (msg : Message) : zmq Z :=
  z ← st_gets id;
  if z_is_worker z then
    let id := mt_recver (ms_meta msg) in
    st_lift (CHECK (negb (id =? kEmpty)));;
    match z_senders z !! id with
    | None => mret (-1)
    | Some socket => ZmqSendMsg socket msg
    end
  else NonWorkerSendMsg msg.
End van.

(** ** Receiving *)

(** What a receiving thread sees: a frame, nothing yet, an interruption, an
    error, or that it should stop. *)
Inductive recv_event := RecvFrame (f : frame) | RecvAgain | RecvInterrupted | RecvError | RecvStop.

(** What a turn of the thread ended with: no more events, the end of the thread,
    or a message. *)
Inductive recv_end := RecvWaiting | RecvStopped | Received (c : ZmqBufferContext).

(** The loop over the frames of a message; [i] is the number of frames read. *)
Fixpoint recv_frames (evs : list recv_event) (i : nat) (c : ZmqBufferContext) : outcome (recv_end * list recv_event) :=
  match evs with
  | [] => Ok (RecvWaiting, [])
  | RecvAgain :: evs' | RecvInterrupted :: evs' => recv_frames evs' i c
  | RecvError :: _ => Fatal
  | RecvStop :: evs' => Ok (RecvStopped, evs')
  | RecvFrame (more, buf) :: evs' =>
      match i with
      | O =>
          id ← GetNodeID buf;
          CHECK more;;
          recv_frames evs' 1 (mkContext id (bc_meta c) (bc_data c))
      | S O =>
          let c := mkContext (bc_sender c) buf (bc_data c) in
          if more : bool then recv_frames evs' 2 c else Ok (Received c, evs')
      | _ =>
          let c := mkContext (bc_sender c) (bc_meta c) (bc_data c ++ [buf]) in
          if more : bool then recv_frames evs' (S i) c else Ok (Received c, evs')
      end
  end.

(** One turn of [CallZmqRecvThread]. *)
Definition CallZmqRecvThread_turn (evs : list recv_event) : zmq (recv_end * list recv_event) :=
  x ← st_lift (recv_frames evs 0 (mkContext 0 [] []));
  match fst x with
  | Received c => st_modify (fun z => z_set_recv_buffers z (z_recv_buffers z ++ [c]))
  | _ => mret tt
  end;;
  mret x.

(** [RecvMsg] into a message with the meta data [meta]; [None] while the queue
    is empty. *)
Definition Zmq_RecvMsg (meta : Meta) : zmq (option (Z * Message)) :=
  z ← st_gets id;
  match z_recv_buffers z with
  | [] => mret None
  | c :: q =>
      st_modify (fun z => z_set_recv_buffers z q);;
      m ← st_lift (UnpackMeta (bc_meta c) (set_ends meta (bc_sender c) (n_id (z_my_node z)) (mt_timestamp meta)));
      mret (Some (s32 (Z.of_nat (length (bc_meta c)) + Z.of_nat (length (concat (bc_data c)))), mkMessage m (bc_data c)))
  end.

(** ** Connections *)

Section connect.
Context (dmlc_local dmlc_kubernetes : bool) (connect_ok : list Z -> bool).

Definition Zmq_Connect (node : Node) : zmq unit :=
  st_lift (CHECK (negb (n_id node =? kEmpty)));;
  st_lift (CHECK (negb (n_port node =? kEmpty)));;
  st_lift (CHECK (negb (Nat.eqb (length (n_hostname node)) 0)));;
  z ← st_gets id;
  let id := n_id node in
  match z_senders z !! id with
  | Some old => st_modify (fun z => z_close z [old])
  | None => mret tt
  end;;
  let my := z_my_node z in
  if bool_decide (n_role node = n_role my) && negb (n_id node =? n_id my) then mret tt
  else
    let sender := z_next z in
    st_modify z_new_socket;;
    (if n_id my =? kEmpty then mret tt
     else
       st_modify (fun z => z_set_identity z (<[sender := identity (n_id my)]> (z_identity z)));;
       if z_is_worker z && bool_decide (z_senders z !! id = None) then st_modify (fun z => z_add_thread z sender)
       else mret tt);;
    let addr := if dmlc_local then [105; 112; 99; 58; 47; 47; 47; 116; 109; 112; 47] ++ to_string (n_port node)
                else [116; 99; 112; 58; 47; 47] ++ n_hostname node ++ [58] ++ to_string (n_port node) in
    st_lift (CHECK (connect_ok addr));;
    st_modify (fun z => z_add_connected z (sender, addr));;
    st_modify (fun z => z_set_senders z (<[id := sender]> (z_senders z))).

(** The loop of [Bind]: [k] attempts are left after this one. *)
Fixpoint bind_loop (bind_ok : Z -> bool) (rand : nat -> Z) (k : nat) (port : Z) : Z :=
  if bind_ok port then port
  else
    match k with
    | O => -1
    | S k' => bind_loop bind_ok rand k' (10000 + Z.rem (rand k') 40000)
    end.

Definition Zmq_Bind (bind_ok : list Z -> bool) (rand : nat -> Z) (node : Node) (max_retry : nat) : zmq Z :=
  z ← st_gets id;
  let receiver := z_next z in
  let hostname := if dmlc_kubernetes && bool_decide (n_role node = SCHEDULER) then [48; 46; 48; 46; 48; 46; 48]
                  else match n_hostname node with [] => [42] | h => h end in
  let addr := if dmlc_local then [105; 112; 99; 58; 47; 47; 47; 116; 109; 112; 47]
              else [116; 99; 112; 58; 47; 47] ++ hostname ++ [58] in
  let port := bind_loop (fun p => bind_ok (addr ++ to_string p)) rand max_retry (n_port node) in
  st_modify z_new_socket;;
  st_modify (fun z => z_bound z receiver (bool_decide (n_role node = WORKER)));;
  st_modify (fun z => z_add_thread z receiver);;
  mret port.

(** [Stop], behind [Van::Stop]: the threads end and every socket is closed. *)
Definition Zmq_Stop_close : zmq unit :=
  st_modify (fun z => z_close z (z_receiver z :: map snd (map_to_list (z_senders z))));;
  st_modify (fun z => z_set_senders z ∅).
End connect.
