(* ===== verification/RdmaMem.v ===== *)
(** The memory of a process, byte by byte, for code that passes addresses around
    as numbers: allocation, reading and writing of ranges. *)

From S2P Require Import Prelude Bytes.

Notation Mem := (gmap Z Z).

(** The [n] bytes from [a] on, if they are all there. *)
Fixpoint mem_bytes (m : Mem) (a : Z) (n : nat) : option (list Z) :=
  match n with
  | O => Some []
  | S n' => b ← m !! a; bs ← mem_bytes m (a + 1) n'; Some (b :: bs)
  end.

(** The bytes [bs] from [a] on, whether or not there was memory. *)
Fixpoint mem_put (m : Mem) (a : Z) (bs : list Z) : Mem :=
  match bs with
  | [] => m
  | b :: bs' => <[a := b]> (mem_put m (a + 1) bs')
  end.

Definition mem_read (m : Mem) (a n : Z) : outcome (list Z) := deref (mem_bytes m a (Z.to_nat n)).

(** A write to memory that is there. *)
Definition mem_write (m : Mem) (a : Z) (bs : list Z) : outcome Mem :=
  _ ← mem_read m a (Z.of_nat (length bs)); Ok (mem_put m a bs).

(** ** Lemmas *)

Lemma mem_put_lookup bs : forall m a i,
  mem_put m a bs !! i = if decide (a <= i < a + Z.of_nat (length bs)) then bs !! Z.to_nat (i - a) else m !! i.
Proof.
  induction bs as [|b bs IH]; intros m a i; cbn [mem_put length].
  { by rewrite decide_False by lia. }
  destruct (decide (i = a)) as [->|Hne].
  - rewrite lookup_insert_eq, decide_True by lia. by rewrite Z.sub_diag.
  - rewrite lookup_insert_ne, IH by done. destruct (decide (a + 1 <= i < a + 1 + Z.of_nat (length bs))) as [Hi|Hi].
    + rewrite decide_True by lia. replace (Z.to_nat (i - a)) with (S (Z.to_nat (i - (a + 1)))) by lia. done.
    + by rewrite decide_False by lia.
Qed.

Lemma mem_bytes_spec n : forall m a bs, mem_bytes m a n = Some bs <->
  length bs = n /\ forall i b, bs !! i = Some b -> m !! (a + Z.of_nat i) = Some b.
Proof.
  induction n as [|n IH]; intros m a bs; cbn [mem_bytes].
  { split; [intros [= <-]; split; [done|by intros i b]|]. intros [H _]. by apply length_zero_iff_nil in H as ->. }
  split.
  - destruct (m !! a) as [b|] eqn:Hb; [|done]. cbn. destruct (mem_bytes m (a + 1) n) as [bs'|] eqn:E; [|done]. cbn. intros [= <-].
    apply IH in E as [Hlen Hbs]. split; [cbn; lia|]. intros [|i] x Hx; cbn in Hx.
    + injection Hx as <-. by rewrite Z.add_0_r.
    + specialize (Hbs i x Hx). replace (a + Z.of_nat (S i)) with (a + 1 + Z.of_nat i) by lia. done.
  - intros [Hlen Hbs]. destruct bs as [|b bs']; [done|]. pose proof (Hbs 0%nat b eq_refl) as Hb. rewrite Z.add_0_r in Hb.
    rewrite Hb. cbn. rewrite (proj2 (IH m (a + 1) bs')); [done|]. split; [cbn in Hlen; lia|]. intros i x Hx.
    specialize (Hbs (S i) x Hx). replace (a + 1 + Z.of_nat i) with (a + Z.of_nat (S i)) by lia. done.
Qed.

Lemma mem_bytes_length m a n bs : mem_bytes m a n = Some bs -> length bs = n.
Proof. intros H. by apply mem_bytes_spec in H as [? _]. Qed.

(** A range whose bytes agree reads the same. *)
Lemma mem_bytes_same m m' a n : (forall i, a <= i < a + Z.of_nat n -> m' !! i = m !! i) -> mem_bytes m' a n = mem_bytes m a n.
Proof.
  revert a. induction n as [|n IH]; intros a H; [done|]. cbn. rewrite H by lia. destruct (m !! a); [|done]. cbn. rewrite IH; [done|].
  intros i Hi. apply H. lia.
Qed.

Lemma mem_put_bytes m a bs : mem_bytes (mem_put m a bs) a (length bs) = Some bs.
Proof.
  apply mem_bytes_spec. split; [done|]. intros i b Hb. pose proof (lookup_lt_Some _ _ _ Hb).
  rewrite mem_put_lookup, decide_True by lia. rewrite <- Hb. f_equal. lia.
Qed.

Lemma mem_put_apart m a bs b n : a + Z.of_nat (length bs) <= b \/ b + Z.of_nat n <= a ->
  mem_bytes (mem_put m a bs) b n = mem_bytes m b n.
Proof. intros H. apply mem_bytes_same. intros i Hi. rewrite mem_put_lookup, decide_False; [done|lia]. Qed.

(** There is memory at [n] bytes from [a] on. *)
Definition mapped (m : Mem) (a n : Z) : Prop := is_Some (mem_bytes m a (Z.to_nat n)).

Lemma mapped_spec m a n : mapped m a n <-> forall i, a <= i < a + n -> is_Some (m !! i).
Proof.
  unfold mapped. split.
  - intros [bs Hbs] i Hi. apply mem_bytes_spec in Hbs as [Hlen Hbs].
    destruct (lookup_lt_is_Some_2 bs (Z.to_nat (i - a)) ltac:(lia)) as [b Hb]. specialize (Hbs _ _ Hb).
    replace (a + Z.of_nat (Z.to_nat (i - a))) with i in Hbs by lia. eauto.
  - intros H. assert (H' : forall i, a <= i < a + Z.of_nat (Z.to_nat n) -> is_Some (m !! i)) by (intros; apply H; lia).
    revert H'. clear H. generalize (Z.to_nat n). intros k. revert a. induction k as [|k IH]; intros a H; [by eexists|]. cbn.
    destruct (H a ltac:(lia)) as [b ->]. cbn. destruct (IH (a + 1)) as [bs ->]; [intros; apply H; lia|]. by eexists.
Qed.

Lemma mem_write_ok m a bs : mapped m a (Z.of_nat (length bs)) -> mem_write m a bs = Ok (mem_put m a bs).
Proof. intros [x Hx]. unfold mem_write, mem_read. by rewrite Hx. Qed.

Lemma mapped_put m a bs b n : mapped m b n -> mapped (mem_put m a bs) b n.
Proof.
  rewrite !mapped_spec. intros H i Hi. rewrite mem_put_lookup. case_decide; [|by apply H].
  apply lookup_lt_is_Some_2. lia.
Qed.

Lemma mapped_part m a n off k : mapped m a n -> 0 <= off -> off + k <= n -> mapped m (a + off) k.
Proof. rewrite !mapped_spec. intros H Ho Hk i Hi. apply H. lia. Qed.

Lemma mem_read_ok m a n bs : mem_bytes m a (Z.to_nat n) = Some bs -> mem_read m a n = Ok bs.
Proof. intros H. unfold mem_read. by rewrite H. Qed.
