(* ===== verification/RdmaUtils.v ===== *)
(** Helpers of the RDMA van: src/src/rdma_utils.h. The address pool, which gives
    small numbers to the buffers of messages under way so that the other side
    can name them, key decoding and alignment. A pointer is a number, the null
    pointer is [None]. *)

From S2P Require Import Prelude State Bytes Memory PsMessage Ps Postoffice.

(** ** Arithmetic *)

Definition align_floor (v align : Z) : outcome Z := DEFINED (negb (align =? 0));; Ok (u64 (v - v `mod` align)).
Definition align_ceil (v align : Z) : outcome Z := align_floor (u64 (v + align - 1)) align.

(** The functions on [int]. *)
Definition AlignTo (input alignment : Z) : Z := Z.quot input alignment * alignment.
Definition DivUp (x y : Z) : Z := Z.quot (x + y - 1) y.
Definition RdmaRoundUp (x y : Z) : Z := DivUp x y * y.

Lemma align_ceil_spec v a : 0 < a -> 0 <= v -> v + a - 1 < 2 ^ 64 ->
  exists r, align_ceil v a = Ok r /\ v <= r < v + a /\ (a | r).
Proof.
  intros Ha Hv Hlt. unfold align_ceil, align_floor. rewrite (u64_small (v + a - 1)) by lia.
  rewrite DEFINED_true by (b2p; lia). cbn [mbind outcome_bind].
  pose proof (Z.div_mod (v + a - 1) a ltac:(lia)) as Hd. pose proof (Z.mod_pos_bound (v + a - 1) a Ha) as Hm.
  eexists. split; [reflexivity|]. rewrite u64_small by lia. split; [lia|].
  exists ((v + a - 1) `div` a). lia.
Qed.

Lemma RdmaRoundUp_spec x y : 0 < y -> 0 <= x -> x <= RdmaRoundUp x y < x + y /\ (y | RdmaRoundUp x y).
Proof.
  intros Hy Hx. unfold RdmaRoundUp, DivUp. rewrite Z.quot_div_nonneg by lia.
  pose proof (Z.div_mod (x + y - 1) y ltac:(lia)). pose proof (Z.mod_pos_bound (x + y - 1) y Hy).
  split; [lia|]. by exists ((x + y - 1) `div` y).
Qed.

(** ** Messages and keys *)

Definition IsValidPushpull (msg : Message) : bool :=
  Control_empty (mt_control (ms_meta msg)) && negb (mt_simple_app (ms_meta msg)).

(** The loop of [DecodeKey]. *)
Fixpoint decode_key (keys : list Z) (key coef : Z) : Z :=
  match keys with
  | [] => key
  | b :: keys' => decode_key keys' (u64 (key + u64 (coef * b))) (u64 (coef * 256))
  end.
Definition DecodeKey (keys : list Z) : Z := decode_key keys 0 1.

Definition DecodeWorkerKey (my_rank key : Z) : ps Z :=
  ranges ← GetServerKeyRanges;
  kr ← ps_lift (DEFINED (0 <=? my_rank);; deref (ranges !! Z.to_nat my_rank));
  mret (u64 (key - rg_begin kr)).

Lemma decode_key_spec keys : forall key coef, decode_key keys (u64 key) (u64 coef) = u64 (key + coef * le_val keys).
Proof.
  induction keys as [|b keys IH]; intros key coef; cbn [decode_key le_val].
  { by rewrite Z.mul_0_r, Z.add_0_r. }
  assert (H1 : u64 (u64 key + u64 (u64 coef * b)) = u64 (key + coef * b)).
  { unfold u64, wrap. rewrite Z.mul_mod_idemp_l by lia. by rewrite <- Z.add_mod by lia. }
  assert (H2 : u64 (u64 coef * 256) = u64 (coef * 256)) by (unfold u64, wrap; by rewrite Z.mul_mod_idemp_l by lia).
  rewrite H1, H2, IH. f_equal. lia.
Qed.

(** The key is the little-endian value of the bytes. *)
Lemma DecodeKey_le keys : DecodeKey keys = u64 (le_val keys).
Proof. etransitivity; [exact (decode_key_spec keys 0 1)|]. f_equal. lia. Qed.

(** ** The address pool *)

Record AddressPool := mkPool {
  ap_max : Z;
  ap_indices : list Z;
  ap_table : list (option Z) }.

(** [size] is the value of [BYTEPS_ADDRESS_POOL_SIZE], if it is set; [new] throws
    on a negative size. *)
Definition AddressPool_new (size : option Z) : outcome AddressPool :=
  let kMaxEntries := default 10240 size in
  CHECK (0 <=? kMaxEntries);;
  Ok (mkPool kMaxEntries (seqZ 0 kMaxEntries) (replicate (Z.to_nat kMaxEntries) None)).

Definition GetAddressAndRelease (p : AddressPool) (index : Z) : outcome (Z * AddressPool) :=
  e ← deref (ap_table p !! Z.to_nat index);
  match e with
  | None => Fatal
  | Some ptr => Ok (ptr, mkPool (ap_max p) (ap_indices p ++ [index]) (<[Z.to_nat index := None]> (ap_table p)))
  end.

Definition GetAddress (p : AddressPool) (index : Z) : outcome Z :=
  e ← deref (ap_table p !! Z.to_nat index);
  match e with None => Fatal | Some ptr => Ok ptr end.

Definition StoreAddress (p : AddressPool) (ptr : option Z) : outcome (Z * AddressPool) :=
  match ptr with
  | None => Fatal
  | Some _ =>
      match ap_indices p with
      | [] => Fatal
      | idx :: q =>
          e ← deref (ap_table p !! Z.to_nat idx);
          CHECK (bool_decide (e = None));;
          Ok (idx, mkPool (ap_max p) q (<[Z.to_nat idx := ptr]> (ap_table p)))
      end
  end.

(** ** Slots *)

Inductive pool_op := OpStore (ptr : Z) | OpGet (index : Z) | OpRelease (index : Z).

Definition run_pool (p : AddressPool) (op : pool_op) : outcome (Z * AddressPool) :=
  match op with
  | OpStore ptr => StoreAddress p (Some ptr)
  | OpGet i => ptr ← GetAddress p i; Ok (ptr, p)
  | OpRelease i => GetAddressAndRelease p i
  end.

(** The pool as [n] slots, [M] those in use: when an operation may happen, and
    what it does. *)
Definition slot_enabled (n : Z) (M : gmap Z Z) (op : pool_op) : Prop :=
  match op with
  | OpStore _ => Z.of_nat (size M) < n
  | OpGet i | OpRelease i => is_Some (M !! i)
  end.
Inductive slot_step (n : Z) (M : gmap Z Z) : pool_op -> Z -> gmap Z Z -> Prop :=
| step_store ptr i : 0 <= i < n -> M !! i = None -> slot_step n M (OpStore ptr) i (<[i := ptr]> M)
| step_get i ptr : M !! i = Some ptr -> slot_step n M (OpGet i) ptr M
| step_release i ptr : M !! i = Some ptr -> slot_step n M (OpRelease i) ptr (delete i M).

(** The invariant: the free numbers are queued, each once, and the others hold a
    pointer. *)
Record pool_rel (n : Z) (p : AddressPool) (M : gmap Z Z) : Prop := {
  pr_max : ap_max p = n;
  pr_len : Z.of_nat (length (ap_table p)) = n;
  pr_free : NoDup (ap_indices p);
  pr_queue : forall i, i ∈ ap_indices p <-> 0 <= i < n /\ M !! i = None;
  pr_table : forall i, 0 <= i < n -> ap_table p !! Z.to_nat i = Some (M !! i);
  pr_dom : forall i, is_Some (M !! i) -> 0 <= i < n }.

Lemma pool_new_rel n : 0 <= n -> exists p, AddressPool_new (Some n) = Ok p /\ pool_rel n p ∅.
Proof.
  intros Hn. unfold AddressPool_new. cbn [default from_option id]. rewrite CHECK_true by (b2p; lia). eexists. split; [reflexivity|].
  split; cbn.
  - done.
  - rewrite length_replicate. lia.
  - apply NoDup_seqZ.
  - intros i. rewrite elem_of_seqZ, lookup_empty. split; [intros; split; [lia|done]|intros [? _]; lia].
  - intros i Hi. rewrite lookup_empty. apply lookup_replicate. split; [done|lia].
  - intros i [x Hx]. by rewrite lookup_empty in Hx.
Qed.

(** A pool with all slots in use is exactly one with an empty queue. *)
Lemma pool_queue_length n p M : pool_rel n p M -> Z.of_nat (length (ap_indices p)) + Z.of_nat (size M) = n.
Proof.
  intros [Hmax Hlen Hnd Hq Ht Hd].
  assert (Hperm : ap_indices p ++ elements (dom M) ≡ₚ seqZ 0 n).
  { apply NoDup_Permutation; [|apply NoDup_seqZ|].
    - apply NoDup_app. split; [done|]. split; [|apply NoDup_elements].
      intros i Hi Hin. apply Hq in Hi as [_ Hi]. apply elem_of_elements, elem_of_dom in Hin as [x Hx]. by rewrite Hi in Hx.
    - intros i. rewrite elem_of_app, elem_of_elements, elem_of_dom, elem_of_seqZ, Hq. split.
      + intros [[? _]|Hi]; [lia|]. specialize (Hd i Hi). lia.
      + intros Hi. destruct (M !! i) eqn:E; [right; eauto|left; split; [lia|done]]. }
  apply Permutation_length in Hperm. rewrite length_app, length_seqZ in Hperm.
  change (length (elements (dom M))) with (size (dom M)) in Hperm. rewrite size_dom in Hperm.
  destruct (decide (0 <= n)); lia.
Qed.

(** Every operation that the slots allow succeeds and does what it does to them,
    and the invariant holds again. *)
Lemma pool_step n p M op : pool_rel n p M -> slot_enabled n M op ->
  exists r p' M', run_pool p op = Ok (r, p') /\ slot_step n M op r M' /\ pool_rel n p' M'.
Proof.
  intros Hrel Hen. pose proof (pool_queue_length n p M Hrel) as Hql. destruct Hrel as [Hmax Hlen Hnd Hq Ht Hd].
  destruct op as [ptr|i|i]; cbn [run_pool slot_enabled] in *.
  - unfold StoreAddress. destruct (ap_indices p) as [|i q]; [cbn in Hql; lia|].
    destruct (proj1 (Hq i) ltac:(left)) as [Hi Hnone]. apply NoDup_cons in Hnd as [Hni Hnd].
    rewrite (Ht i Hi), Hnone. cbn. exists i. eexists _, (<[i := ptr]> M). split; [reflexivity|]. split; [by constructor|]. split; cbn.
    + done.
    + rewrite length_insert. done.
    + done.
    + intros j. specialize (Hq j). rewrite elem_of_cons in Hq. destruct (decide (j = i)) as [->|Hne].
      * rewrite lookup_insert_eq. split; [done|]. by intros [_ ?].
      * rewrite lookup_insert_ne by done. rewrite <- Hq. split; [by right|]. by intros [|].
    + intros j Hj. destruct (decide (j = i)) as [->|Hne].
      * rewrite lookup_insert_eq. apply list_lookup_insert_eq. lia.
      * rewrite lookup_insert_ne, list_lookup_insert_ne by (done || lia). by apply Ht.
    + intros j. destruct (decide (j = i)) as [->|Hne]; [done|]. rewrite lookup_insert_ne by done. apply Hd.
  - destruct Hen as [ptr Hptr]. pose proof (Hd i ltac:(eauto)) as Hi. unfold GetAddress. rewrite (Ht i Hi), Hptr. cbn.
    exists ptr, p, M. split; [done|]. split; [by constructor|]. by split.
  - destruct Hen as [ptr Hptr]. pose proof (Hd i ltac:(eauto)) as Hi. unfold GetAddressAndRelease. rewrite (Ht i Hi), Hptr. cbn.
    exists ptr. eexists _, (delete i M). split; [reflexivity|]. split; [by constructor|]. split; cbn.
    + done.
    + by rewrite length_insert.
    + apply NoDup_app. split; [done|]. split; [|apply NoDup_singleton]. intros j Hj ->%list_elem_of_singleton.
      apply Hq in Hj as [_ Hj]. by rewrite Hptr in Hj.
    + intros j. rewrite elem_of_app, list_elem_of_singleton, Hq. destruct (decide (j = i)) as [->|Hne].
      * rewrite lookup_delete_eq. split; [done|by right].
      * rewrite lookup_delete_ne by done. split; [by intros [|]|by left].
    + intros j Hj. destruct (decide (j = i)) as [->|Hne].
      * rewrite lookup_delete_eq. apply list_lookup_insert_eq. lia.
      * rewrite lookup_delete_ne, list_lookup_insert_ne by (done || lia). by apply Ht.
    + intros j. destruct (decide (j = i)) as [->|Hne]; [by rewrite lookup_delete_eq; intros [? ?]|].
      rewrite lookup_delete_ne by done. apply Hd.
Qed.

(** An operation that they do not allow fails a check, or leaves the table. *)
Lemma pool_refused n p M op : pool_rel n p M -> ~ slot_enabled n M op ->
  match op with OpStore _ => True | OpGet i | OpRelease i => 0 <= i < n end -> run_pool p op = Fatal.
Proof.
  intros Hrel Hen Hi. pose proof (pool_queue_length n p M Hrel) as Hql. destruct Hrel as [Hmax Hlen Hnd Hq Ht Hd].
  destruct op as [ptr|i|i]; cbn [run_pool slot_enabled] in *.
  - unfold StoreAddress. destruct (ap_indices p); [done|]. cbn in Hql. lia.
  - unfold GetAddress. rewrite (Ht i Hi). destruct (M !! i); [by destruct Hen|done].
  - unfold GetAddressAndRelease. rewrite (Ht i Hi). destruct (M !! i); [by destruct Hen|done].
Qed.

(** The states that operations lead to, with the slots. *)
Inductive pool_reaches (n : Z) : AddressPool -> gmap Z Z -> Prop :=
| reaches_new p : AddressPool_new (Some n) = Ok p -> pool_reaches n p ∅
| reaches_op p M op r p' M' : pool_reaches n p M -> run_pool p op = Ok (r, p') -> slot_step n M op r M' -> pool_reaches n p' M'.

Lemma slot_step_enabled n M op r M' : (forall i, is_Some (M !! i) -> 0 <= i < n) -> 0 <= n ->
  slot_step n M op r M' -> slot_enabled n M op.
Proof.
  intros Hd Hn Hs. destruct Hs as [ptr i Hi Hnone|i ptr Hptr|i ptr Hptr]; cbn; [|eauto..].
  assert (Hsub : (size (dom (<[i := ptr]> M)) <= size (list_to_set (seqZ 0 n) : gset Z))%nat).
  { apply subseteq_size. intros j. rewrite elem_of_dom, elem_of_list_to_set, elem_of_seqZ. intros Hj.
    destruct (decide (j = i)) as [->|Hne]; [lia|]. rewrite lookup_insert_ne in Hj by done. specialize (Hd j Hj). lia. }
  rewrite size_dom, map_size_insert_None in Hsub by done. rewrite size_list_to_set, length_seqZ in Hsub by apply NoDup_seqZ. lia.
Qed.

Lemma pool_reaches_rel n p M : 0 <= n -> pool_reaches n p M -> pool_rel n p M.
Proof.
  intros Hn. induction 1 as [p Hnew|p M op r p' M' Hr IH Hrun Hs].
  - destruct (pool_new_rel n Hn) as (p' & Hp & Hrel). rewrite Hnew in Hp. by injection Hp as <-.
  - pose proof (slot_step_enabled n M op r M' (pr_dom _ _ _ IH) Hn Hs) as Hen.
    destruct (pool_step n p M op IH Hen) as (r2 & p2 & M2 & Hrun2 & Hs2 & Hrel2). rewrite Hrun in Hrun2. injection Hrun2 as <- <-.
    replace M' with M2; [done|]. inversion Hs; inversion Hs2; subst; congruence.
Qed.

(** C33: the address pool keeps its slots. In every state that a pool of [n] slots
    reaches, the queue holds each free number once and the table a pointer for
    every other one; an operation that the slots allow (to store while fewer than
    [n] are in use, to read or release one in use) succeeds and does to the pool
    what it does to the slots, a stored pointer getting a number that was not in
    use; any other operation on a number of the pool stops the process. *)
Theorem AddressPool_keeps_slots n p M (Hn : 0 <= n) (Hreach : pool_reaches n p M) :
  pool_rel n p M /\
  forall op,
    (slot_enabled n M op -> exists r p' M', run_pool p op = Ok (r, p') /\ slot_step n M op r M' /\ pool_reaches n p' M') /\
    (~ slot_enabled n M op -> match op with OpStore _ => True | OpGet i | OpRelease i => 0 <= i < n end -> run_pool p op = Fatal).
Proof.
  pose proof (pool_reaches_rel n p M Hn Hreach) as Hrel. split; [done|]. intros op. split.
  - intros Hen. destruct (pool_step n p M op Hrel Hen) as (r & p' & M' & Hrun & Hs & _). exists r, p', M'.
    split; [done|]. split; [done|]. by econstructor.
  - by apply (pool_refused n p M).
Qed.

Lemma AddressPool_keeps_slots_witness :
  exists p, run_pool (mkPool 1 [0] [None]) (OpStore 77) = Ok (0, p) /\ pool_rel 1 p {[0 := 77]} /\
    run_pool p (OpStore 78) = Fatal /\ exists p', run_pool p (OpRelease 0) = Ok (77, p').
Proof.
  assert (H0 : pool_reaches 1 (mkPool 1 [0] [None]) ∅) by (constructor; reflexivity).
  exists (mkPool 1 [] [Some 77]). split; [reflexivity|].
  assert (H1 : pool_reaches 1 (mkPool 1 [] [Some 77]) {[0 := 77]}).
  { apply (reaches_op 1 (mkPool 1 [0] [None]) ∅ (OpStore 77) 0); [exact H0|reflexivity|].
    apply (step_store 1 ∅ 77 0); [lia|reflexivity]. }
  destruct (AddressPool_keeps_slots 1 (mkPool 1 [] [Some 77]) {[0 := 77]} ltac:(lia) H1) as [Hrel Hops].
  split; [exact Hrel|]. split.
  - apply (Hops (OpStore 78)); [|exact I]. cbn [slot_enabled]. rewrite map_size_singleton. lia.
  - destruct (proj1 (Hops (OpRelease 0)) (ex_intro _ 77 eq_refl)) as (r & p' & M' & Hrun & Hs & _).
    exists p'. cbn in Hrun. injection Hrun as <- <-. reflexivity.
Defined.
