(* ===== verification/RdmaState.v ===== *)
(** The state of the RDMA van: the structures of src/src/rdma_utils.h and
    src/src/rdma_transport.h, and the fields of [RDMAVan] of src/src/rdma_van.h.

    The van passes addresses around as numbers, so memory is bytes by address and
    an [SArray<char>] is its address and size; the null pointer is 0. Objects
    that only the process itself points to (endpoints, message buffers, buffer
    contexts) are numbers that the tables give a value to. *)

From S2P Require Import Prelude State Bytes Memory PsMessage Ps RdmaMem RdmaUtils.

(** ** Structures *)

Definition kStartDepth : Z := 128.
Definition kRxDepth : Z := 2048.
Definition kReplyDepth : Z := kRxDepth.
Definition kMaxDataFields : Z := 4.

(** A registered region, [struct ibv_mr]. *)
Record Mr := mkMr { mr_addr : Z; mr_length : Z; mr_lkey : Z; mr_rkey : Z }.

Record SA := mkSA { sa_data : Z; sa_size : Z }.
Record RMessage := mkRMsg { rm_meta : Meta; rm_data : list SA }.

(** [data_len] is as long as the fields that are set. *)
Record RendezvousStart := mkStart {
  rs_meta_len : Z; rs_data_num : Z; rs_data_len : list Z; rs_origin_addr : Z }.
Record RendezvousReply := mkReply {
  rr_addr : Z; rr_origin_addr : Z; rr_rkey : Z; rr_idx : Z }.
Record BufferContext := mkBufCtx {
  bx_buffer : Z; bx_meta_len : Z; bx_data_num : Z; bx_data_len : list Z }.
Record MessageBuffer := mkMsgBuf {
  mb_inline_len : Z; mb_inline_buf : Z; mb_data : list SA; mb_mrs : list (Mr * Z) }.

(** [RemoteTuple]: remote address and key, index, local message buffer. *)
Record RemoteTuple := mkTuple { rt_addr : Z; rt_rkey : Z; rt_idx : Z; rt_buf : Z }.

(** The contexts of work requests, by the array of the endpoint that they are
    in and their index; [kWriteContext] has no array. *)
Inductive WRContext := StartCtx (i : Z) | ReplyCtx (i : Z) | ReceiveCtx (i : Z) | WriteCtx.

(** What [ibv_post_send] is given: a send with the structure in the context's
    buffer, and the two kinds of RDMA writes. *)
Record Sge := mkSge { sg_addr : Z; sg_length : Z; sg_lkey : Z }.
Inductive Payload := PStart (r : RendezvousStart) | PReply (r : RendezvousReply) | POther.
Inductive WorkRequest :=
| WrSend (ctx : WRContext) (payload : Payload)
| WrWrite (sge : Sge) (remote_addr rkey : Z)
| WrWriteImm (wr_id : Z) (sge : Sge) (remote_addr rkey imm_data : Z).

(** ** Transports and endpoints *)

Record AsyncCopy := mkCopy {
  ac_msg_buf : Z; ac_tuple : RemoteTuple; ac_dst : Z; ac_src : Z; ac_len : Z; ac_shutdown : bool }.

Record Ipc := mkIpc {
  ip_copy_nthreads : Z;
  ip_async_copy_queue : list (list AsyncCopy);
  ip_cpy_counter : Z;
  ip_partition_bytes : Z;
  ip_key_shm_addr : gmap Z Z;
  ip_enable_async_copy : bool }.

(** An [RDMATransport], or an [IPCTransport] with its own fields. *)
Record Transport := mkTrans { tr_is_server : bool; tr_ipc : option Ipc }.

Inductive ConnectionStatus := IDLE | CONNECTING | CONNECTED | REJECTED.
#[global] Instance ConnectionStatus_eq_dec : EqDecision ConnectionStatus.
Proof. solve_decision. Defined.

(** [ep_rx_posted] counts the receives that were posted; [ep_cm_id] is the
    connection identifier. *)
Record Endpoint := mkEndpoint {
  ep_status : ConnectionStatus;
  ep_node_id : Z;
  ep_cm_id : option Z;
  ep_trans : option Transport;
  ep_free_start_ctx : list Z;
  ep_free_reply_ctx : list Z;
  ep_rx_posted : Z }.

Definition Endpoint_new : Endpoint := mkEndpoint IDLE kEmpty None None [] [] 0.

Definition ep_set_status s (e : Endpoint) : Endpoint :=
  mkEndpoint s (ep_node_id e) (ep_cm_id e) (ep_trans e) (ep_free_start_ctx e) (ep_free_reply_ctx e) (ep_rx_posted e).
Definition SetNodeID i (e : Endpoint) : Endpoint :=
  mkEndpoint (ep_status e) i (ep_cm_id e) (ep_trans e) (ep_free_start_ctx e) (ep_free_reply_ctx e) (ep_rx_posted e).
Definition ep_set_cm_id c (e : Endpoint) : Endpoint :=
  mkEndpoint (ep_status e) (ep_node_id e) c (ep_trans e) (ep_free_start_ctx e) (ep_free_reply_ctx e) (ep_rx_posted e).
Definition SetTransport t (e : Endpoint) : Endpoint :=
  mkEndpoint (ep_status e) (ep_node_id e) (ep_cm_id e) (Some t) (ep_free_start_ctx e) (ep_free_reply_ctx e) (ep_rx_posted e).
Definition ep_set_start q (e : Endpoint) : Endpoint :=
  mkEndpoint (ep_status e) (ep_node_id e) (ep_cm_id e) (ep_trans e) q (ep_free_reply_ctx e) (ep_rx_posted e).
Definition ep_set_reply q (e : Endpoint) : Endpoint :=
  mkEndpoint (ep_status e) (ep_node_id e) (ep_cm_id e) (ep_trans e) (ep_free_start_ctx e) q (ep_rx_posted e).
(** [Rdma_PostRecv] *)
Definition Rdma_PostRecv (e : Endpoint) : Endpoint :=
  mkEndpoint (ep_status e) (ep_node_id e) (ep_cm_id e) (ep_trans e) (ep_free_start_ctx e) (ep_free_reply_ctx e) (ep_rx_posted e + 1).

(** [Init]: the contexts of both arrays become free, and every receive context
    is posted. *)
Definition InitSendContextHelper (num : Z) (queue : list Z) : list Z := queue ++ seqZ 0 num.
Definition Endpoint_Init (e : Endpoint) : Endpoint :=
  Nat.iter (Z.to_nat kRxDepth) Rdma_PostRecv
    (ep_set_reply (InitSendContextHelper kReplyDepth (ep_free_reply_ctx e))
      (ep_set_start (InitSendContextHelper kStartDepth (ep_free_start_ctx e)) e)).

(** ** The van *)

(** The variables of the environment that the transports read: [DMLC_ROLE], and
    what [atoi] makes of the others. *)
Record RdmaEnv := mkRdmaEnv {
  e_role : option (list Z);
  e_ipc_copy_num_threads : option Z;
  e_partition_bytes : option Z;
  e_local_size : option Z;
  e_ipc_enable_async_copy : option Z }.

(** The process to the RDMA device: memory, the break above which it is free,
    every registered region, the allocator's [mr_], and what was posted to the
    queue pair of which endpoint. *)
Record Host := mkHost {
  h_pagesize : Z;
  h_mem : Mem;
  h_brk : Z;
  h_regions : list Mr;
  h_mr : gmap Z Mr;
  h_posted : list (Z * WorkRequest) }.

(** The tables of the van. [b_next] is the next object; the objects that are
    pointed to are in [b_buf_ctxs] and [b_msg_bufs]. A map of maps is a map from
    pairs. *)
Record Tables := mkTables {
  b_mem_mr : gmap Z Mr;
  b_pool : AddressPool;
  b_next : Z;
  b_buf_ctxs : gmap Z BufferContext;
  b_msg_bufs : gmap Z MessageBuffer;
  b_push_addr : gmap (Z * Z) RemoteTuple;
  b_pull_addr : gmap (Z * Z) RemoteTuple;
  b_cache : gmap Z RMessage;
  b_tensor_info : gmap (Z * Z) (Z * Z * Z);
  b_recv_buffers : list (Z * Z) }.

(** The connections: [n_endpoints] gives the endpoint to a node, [n_eps] is
    every endpoint; [n_ps] is the rest of the process. *)
Record Conn := mkConn {
  n_my_node : Node;
  n_env : RdmaEnv;
  n_disable_ipc : bool;
  n_endpoints : gmap Z Z;
  n_incoming : list Z;
  n_eps : gmap Z Endpoint;
  n_is_local : gmap Z bool;
  n_ps : Ps }.

Record RdmaVan := mkRdma { v_host : Host; v_tabs : Tables; v_conn : Conn }.

Definition set_mem (x : Mem) (v : RdmaVan) : RdmaVan :=
  mkRdma (let r := v_host v in mkHost (h_pagesize r) x (h_brk r) (h_regions r) (h_mr r) (h_posted r)) (v_tabs v) (v_conn v).
Definition set_brk (x : Z) (v : RdmaVan) : RdmaVan :=
  mkRdma (let r := v_host v in mkHost (h_pagesize r) (h_mem r) x (h_regions r) (h_mr r) (h_posted r)) (v_tabs v) (v_conn v).
Definition set_regions (x : list Mr) (v : RdmaVan) : RdmaVan :=
  mkRdma (let r := v_host v in mkHost (h_pagesize r) (h_mem r) (h_brk r) x (h_mr r) (h_posted r)) (v_tabs v) (v_conn v).
Definition set_mr (x : gmap Z Mr) (v : RdmaVan) : RdmaVan :=
  mkRdma (let r := v_host v in mkHost (h_pagesize r) (h_mem r) (h_brk r) (h_regions r) x (h_posted r)) (v_tabs v) (v_conn v).
Definition set_posted (x : list (Z * WorkRequest)) (v : RdmaVan) : RdmaVan :=
  mkRdma (let r := v_host v in mkHost (h_pagesize r) (h_mem r) (h_brk r) (h_regions r) (h_mr r) x) (v_tabs v) (v_conn v).

Definition set_mem_mr (x : gmap Z Mr) (v : RdmaVan) : RdmaVan :=
  mkRdma (v_host v) (let r := v_tabs v in mkTables x (b_pool r) (b_next r) (b_buf_ctxs r) (b_msg_bufs r) (b_push_addr r) (b_pull_addr r) (b_cache r) (b_tensor_info r) (b_recv_buffers r)) (v_conn v).
Definition set_pool (x : AddressPool) (v : RdmaVan) : RdmaVan :=
  mkRdma (v_host v) (let r := v_tabs v in mkTables (b_mem_mr r) x (b_next r) (b_buf_ctxs r) (b_msg_bufs r) (b_push_addr r) (b_pull_addr r) (b_cache r) (b_tensor_info r) (b_recv_buffers r)) (v_conn v).
Definition set_next (x : Z) (v : RdmaVan) : RdmaVan :=
  mkRdma (v_host v) (let r := v_tabs v in mkTables (b_mem_mr r) (b_pool r) x (b_buf_ctxs r) (b_msg_bufs r) (b_push_addr r) (b_pull_addr r) (b_cache r) (b_tensor_info r) (b_recv_buffers r)) (v_conn v).
Definition set_buf_ctxs (x : gmap Z BufferContext) (v : RdmaVan) : RdmaVan :=
  mkRdma (v_host v) (let r := v_tabs v in mkTables (b_mem_mr r) (b_pool r) (b_next r) x (b_msg_bufs r) (b_push_addr r) (b_pull_addr r) (b_cache r) (b_tensor_info r) (b_recv_buffers r)) (v_conn v).
Definition set_msg_bufs (x : gmap Z MessageBuffer) (v : RdmaVan) : RdmaVan :=
  mkRdma (v_host v) (let r := v_tabs v in mkTables (b_mem_mr r) (b_pool r) (b_next r) (b_buf_ctxs r) x (b_push_addr r) (b_pull_addr r) (b_cache r) (b_tensor_info r) (b_recv_buffers r)) (v_conn v).
Definition set_push_addr (x : gmap (Z * Z) RemoteTuple) (v : RdmaVan) : RdmaVan :=
  mkRdma (v_host v) (let r := v_tabs v in mkTables (b_mem_mr r) (b_pool r) (b_next r) (b_buf_ctxs r) (b_msg_bufs r) x (b_pull_addr r) (b_cache r) (b_tensor_info r) (b_recv_buffers r)) (v_conn v).
Definition set_pull_addr (x : gmap (Z * Z) RemoteTuple) (v : RdmaVan) : RdmaVan :=
  mkRdma (v_host v) (let r := v_tabs v in mkTables (b_mem_mr r) (b_pool r) (b_next r) (b_buf_ctxs r) (b_msg_bufs r) (b_push_addr r) x (b_cache r) (b_tensor_info r) (b_recv_buffers r)) (v_conn v).
Definition set_cache (x : gmap Z RMessage) (v : RdmaVan) : RdmaVan :=
  mkRdma (v_host v) (let r := v_tabs v in mkTables (b_mem_mr r) (b_pool r) (b_next r) (b_buf_ctxs r) (b_msg_bufs r) (b_push_addr r) (b_pull_addr r) x (b_tensor_info r) (b_recv_buffers r)) (v_conn v).
Definition set_tensor_info (x : gmap (Z * Z) (Z * Z * Z)) (v : RdmaVan) : RdmaVan :=
  mkRdma (v_host v) (let r := v_tabs v in mkTables (b_mem_mr r) (b_pool r) (b_next r) (b_buf_ctxs r) (b_msg_bufs r) (b_push_addr r) (b_pull_addr r) (b_cache r) x (b_recv_buffers r)) (v_conn v).
Definition set_recv_buffers (x : list (Z * Z)) (v : RdmaVan) : RdmaVan :=
  mkRdma (v_host v) (let r := v_tabs v in mkTables (b_mem_mr r) (b_pool r) (b_next r) (b_buf_ctxs r) (b_msg_bufs r) (b_push_addr r) (b_pull_addr r) (b_cache r) (b_tensor_info r) x) (v_conn v).

Definition set_disable_ipc (x : bool) (v : RdmaVan) : RdmaVan :=
  mkRdma (v_host v) (v_tabs v) (let r := v_conn v in mkConn (n_my_node r) (n_env r) x (n_endpoints r) (n_incoming r) (n_eps r) (n_is_local r) (n_ps r)).
Definition set_endpoints (x : gmap Z Z) (v : RdmaVan) : RdmaVan :=
  mkRdma (v_host v) (v_tabs v) (let r := v_conn v in mkConn (n_my_node r) (n_env r) (n_disable_ipc r) x (n_incoming r) (n_eps r) (n_is_local r) (n_ps r)).
Definition set_incoming (x : list Z) (v : RdmaVan) : RdmaVan :=
  mkRdma (v_host v) (v_tabs v) (let r := v_conn v in mkConn (n_my_node r) (n_env r) (n_disable_ipc r) (n_endpoints r) x (n_eps r) (n_is_local r) (n_ps r)).
Definition set_eps (x : gmap Z Endpoint) (v : RdmaVan) : RdmaVan :=
  mkRdma (v_host v) (v_tabs v) (let r := v_conn v in mkConn (n_my_node r) (n_env r) (n_disable_ipc r) (n_endpoints r) (n_incoming r) x (n_is_local r) (n_ps r)).
Definition set_is_local (x : gmap Z bool) (v : RdmaVan) : RdmaVan :=
  mkRdma (v_host v) (v_tabs v) (let r := v_conn v in mkConn (n_my_node r) (n_env r) (n_disable_ipc r) (n_endpoints r) (n_incoming r) (n_eps r) x (n_ps r)).
Definition set_ps (x : Ps) (v : RdmaVan) : RdmaVan :=
  mkRdma (v_host v) (v_tabs v) (let r := v_conn v in mkConn (n_my_node r) (n_env r) (n_disable_ipc r) (n_endpoints r) (n_incoming r) (n_eps r) (n_is_local r) x).
Notation rd := (stm RdmaVan).

Definition host {A} (f : Host -> A) : rd A := st_gets (fun v => f (v_host v)).
Definition tabs {A} (f : Tables -> A) : rd A := st_gets (fun v => f (v_tabs v)).
Definition conn {A} (f : Conn -> A) : rd A := st_gets (fun v => f (v_conn v)).

(** An operation of the rest of the process. *)
Definition rd_ps {A} (m : ps A) : rd A := fun v =>
  match m (n_ps (v_conn v)) with
  | Ok (a, s) => Ok (a, set_ps s v)
  | Fatal => Fatal
  | Undef => Undef
  | OutOfFuel => OutOfFuel
  end.

(** [new]: the next object. *)
Definition new_object : rd Z :=
  n ← tabs b_next; st_modify (set_next (n + 1));; mret n.

Definition get_endpoint (ep : Z) : rd Endpoint := e ← conn n_eps; st_lift (deref (e !! ep)).
Definition modify_endpoint (ep : Z) (f : Endpoint -> Endpoint) : rd unit :=
  e ← conn n_eps; st_modify (set_eps (alter f ep e)).

(** Run statements of the van. *)
Ltac rrun := repeat (first [run1 | lazymatch goal with
  | |- runs (host _) _ _ => apply runs_gets
  | |- runs (tabs _) _ _ => apply runs_gets
  | |- runs (conn _) _ _ => apply runs_gets
  end]; cbv beta).
