(* ===== verification/RdmaTransport.v ===== *)
(** The transports of the RDMA van: src/src/rdma_transport.h, and the memory
    allocator of src/src/rdma_utils.h.

    The verbs library is in the arguments: the keys that [ibv_reg_mr] gives to a
    new region ([None] when it fails), whether [ibv_post_send] succeeds,
    given the memory and what was posted before, and where [shm_open] and [mmap] put a shared memory object ([None] when one
    fails). Operations that wait for a free context return [false] when there is
    none: the caller goes on waiting. *)

From S2P Require Import Prelude State Bytes Memory PsMessage Ps Postoffice ZmqVan RdmaMem RdmaUtils RdmaState.

Section transport.
Context (ibv_reg_mr : list Mr -> Z -> Z -> option (Z * Z)).
Context (ibv_post_send : Mem -> Z -> list (Z * WorkRequest) -> WorkRequest -> bool).
Context (shm_open_mmap : list Z -> option Z).

(** ** Memory *)

Definition read_mem (a n : Z) : rd (list Z) := m ← host h_mem; st_lift (mem_read m a n).
Definition write_mem (a : Z) (bs : list Z) : rd unit :=
  m ← host h_mem; m' ← st_lift (mem_write m a bs); st_modify (set_mem m').

Definition rd_memcpy (dst src n : Z) : rd unit :=
  st_lift (DEFINED (0 <=? n));; bs ← read_mem src n; write_mem dst bs.

(** A block of the C library with the contents [bs], aligned and above all that
    is in use. *)
Definition new_block (align : Z) (bs : list Z) : rd Z :=
  brk ← host h_brk;
  m ← host h_mem;
  let p := (brk + align - 1) `div` align * align in
  st_modify (set_brk (p + Z.of_nat (length bs)));;
  st_modify (set_mem (mem_put m p bs));;
  mret p.

(** The rounded size is narrowed to [int]: [posix_memalign] refuses a negative
    one, and [memset] writes [size] bytes. *)
Definition ib_malloc (size : Z) : rd Z :=
  page_size ← host h_pagesize;
  let size_aligned := s32 (u64 (u64 (size + page_size - 1) `div` page_size * page_size)) in
  st_lift (CHECK (0 <=? size_aligned));;
  st_lift (DEFINED (size <=? size_aligned));;
  new_block page_size (replicate (Z.to_nat size) 0).

Definition register (addr len : Z) : rd Mr :=
  regions ← host h_regions;
  match ibv_reg_mr regions addr len with
  | None => st_lift Fatal
  | Some (lkey, rkey) =>
      let mr := mkMr addr len lkey rkey in
      st_modify (set_regions (regions ++ [mr]));; mret mr
  end.

(** [MemoryAllocator::Alloc] *)
Definition Alloc (size : Z) : rd Z :=
  if size =? 0 then mret 0
  else
    pagesize ← host h_pagesize;
    size ← st_lift (align_ceil size pagesize);
    p ← ib_malloc size;
    mr ← register p size;
    m ← host h_mr;
    st_modify (set_mr (<[p := mr]> m));;
    mret p.

Definition Addr2MR (addr : Z) : rd Mr :=
  m ← host h_mr;
  match m !! addr with None => st_lift Fatal | Some mr => mret mr end.
Definition LocalKey (addr : Z) : rd Z := mr ← Addr2MR addr; mret (mr_lkey mr).
Definition RemoteKey (addr : Z) : rd Z := mr ← Addr2MR addr; mret (mr_rkey mr).

(** ** RDMATransport *)

Definition RDMATransport_new (env : RdmaEnv) : outcome Transport :=
  role ← deref (e_role env);
  Ok (mkTrans (bool_decide (role = [115; 101; 114; 118; 101; 114])) None).

Definition post_send (ep : Z) (wr : WorkRequest) : rd unit :=
  m ← host h_mem;
  posted ← host h_posted;
  st_lift (CHECK (ibv_post_send m ep posted wr));;
  st_modify (set_posted (posted ++ [(ep, wr)])).

Definition get_msg_buf (msg_buf : Z) : rd MessageBuffer := b ← tabs b_msg_bufs; st_lift (deref (b !! msg_buf)).

Definition RDMAWriteWithImm (ep msg_buf remote_addr rkey idx : Z) : rd unit :=
  mb ← get_msg_buf msg_buf;
  lkey ← LocalKey (mb_inline_buf mb);
  post_send ep (WrWriteImm msg_buf (mkSge (mb_inline_buf mb) (u32 (mb_inline_len mb)) lkey) remote_addr rkey idx).

(** The lengths are written into an array of [kMaxDataFields]. *)
Definition SendRendezvousBegin (ep : Z) (msg : RMessage) (msg_buf : Z) : rd bool :=
  e ← get_endpoint ep;
  match ep_free_start_ctx e with
  | [] => mret false
  | context :: q =>
      modify_endpoint ep (ep_set_start q);;
      mb ← get_msg_buf msg_buf;
      let data_num := Z.of_nat (length (mb_data mb)) in
      st_lift (DEFINED ((data_num <=? kMaxDataFields) && (length (mb_data mb) <=? length (rm_data msg))%nat));;
      let req := mkStart (mb_inline_len mb) data_num (map sa_size (take (length (mb_data mb)) (rm_data msg))) msg_buf in
      post_send ep (WrSend (StartCtx context) (PStart req));;
      mret true
  end.

Definition sum_u64 (l : list Z) : Z := fold_left (fun acc x => u64 (acc + x)) l 0.

Definition SendRendezvousReply (ep : Z) (trans : Transport) (req : RendezvousStart) : rd bool :=
  st_lift (DEFINED ((rs_data_num req <=? kMaxDataFields) && (rs_data_num req <=? Z.of_nat (length (rs_data_len req)))));;
  let lens := take (Z.to_nat (rs_data_num req)) (rs_data_len req) in
  let data_len := sum_u64 lens in
  pagesize ← host h_pagesize;
  meta_room ← st_lift (align_ceil (rs_meta_len req) pagesize);
  buffer ← Alloc (if tr_is_server trans then u64 (meta_room + data_len) else rs_meta_len req);
  st_lift (CHECK (negb (buffer =? 0)));;
  buf_ctx ← new_object;
  ctxs ← tabs b_buf_ctxs;
  st_modify (set_buf_ctxs (<[buf_ctx := mkBufCtx buffer (rs_meta_len req) (rs_data_num req) lens]> ctxs));;
  e ← get_endpoint ep;
  match ep_free_reply_ctx e with
  | [] => mret false
  | reply_ctx :: q =>
      modify_endpoint ep (ep_set_reply q);;
      rkey ← RemoteKey buffer;
      pool ← tabs b_pool;
      r ← st_lift (StoreAddress pool (Some buf_ctx));
      st_modify (set_pool (snd r));;
      post_send ep (WrSend (ReplyCtx reply_ctx) (PReply (mkReply buffer (rs_origin_addr req) rkey (fst r))));;
      mret true
  end.

Definition Rdma_Send (ep msg_buf : Z) (remote_tuple : RemoteTuple) : rd unit :=
  RDMAWriteWithImm ep msg_buf (rt_addr remote_tuple) (rt_rkey remote_tuple) (rt_idx remote_tuple).

(** [CHECK_EQ(msg_buf->mrs.size(), n)] *)
Definition check_mrs (msg_buf : Z) (n : nat) : rd MessageBuffer :=
  mb ← get_msg_buf msg_buf; st_lift (CHECK (length (mb_mrs mb) =? n)%nat);; mret mb.

Definition Rdma_SendPushRequest (ep msg_buf : Z) (t : RemoteTuple) : rd unit :=
  mb ← check_mrs msg_buf 1;
  mr ← st_lift (deref (head (mb_mrs mb)));
  pagesize ← host h_pagesize;
  room ← st_lift (align_ceil (mb_inline_len mb) pagesize);
  let my_sge := mkSge (mr_addr (fst mr)) (u32 (snd mr)) (mr_lkey (fst mr)) in
  post_send ep (WrWrite my_sge (u64 (rt_addr t + room)) (rt_rkey t));;
  RDMAWriteWithImm ep msg_buf (rt_addr t) (rt_rkey t) (rt_idx t).

Definition SendPullRequest (ep msg_buf : Z) (t : RemoteTuple) : rd unit := check_mrs msg_buf 0;; Rdma_Send ep msg_buf t.
Definition SendPushResponse (ep msg_buf : Z) (t : RemoteTuple) : rd unit := check_mrs msg_buf 0;; Rdma_Send ep msg_buf t.

(** The receiver's address and key are those in the message; [val_len] and
    [option] are [int]. *)
Definition Rdma_SendPullResponse (ep : Z) (msg : RMessage) (msg_buf : Z) (t : RemoteTuple) (lkey : Z) : rd unit :=
  mb ← check_mrs msg_buf 0;
  let raddr := mt_addr (rm_meta msg) in
  let len := mt_val_len (rm_meta msg) in
  vals ← st_lift (deref (mb_data mb !! 1%nat));
  st_lift (CHECK (u64 len =? sa_size vals));;
  post_send ep (WrWrite (mkSge (sa_data vals) (u32 len) (u32 lkey)) raddr (u32 (mt_option (rm_meta msg))));;
  Rdma_Send ep msg_buf t.

(** A copy on the heap of the bytes of a field. *)
Definition CreateFunctionalSarray (value : list Z) : rd SA :=
  p ← new_block 16 value; mret (mkSA p (Z.of_nat (length value))).

Definition key_bytes (msg : RMessage) : list Z := le_bytes 8 (mt_key (rm_meta msg)).
Definition val_len_bytes (msg : RMessage) : list Z := le_bytes 4 (mt_val_len (rm_meta msg)).

(** [msg->data.push_back] of all, and the sum of their sizes. *)
Definition push_arrays (msg : RMessage) (l : list SA) : RMessage * Z :=
  (mkRMsg (rm_meta msg) (rm_data msg ++ l), s32 (fold_right Z.add 0 (map sa_size l))).

Definition RecvPushResponse (msg : RMessage) (buffer_ctx : BufferContext) : rd (RMessage * Z) :=
  st_lift (CHECK (bx_data_num buffer_ctx =? 0));; mret (msg, 0).

Definition RecvPullRequest (msg : RMessage) : rd (RMessage * Z) :=
  keys ← CreateFunctionalSarray (key_bytes msg);
  mret (push_arrays msg [keys; mkSA 0 0]).

Definition Rdma_RecvPushRequest (msg : RMessage) (buffer_ctx : BufferContext) (meta_len : Z) : rd (RMessage * Z) :=
  st_lift (CHECK (mt_push (rm_meta msg) && mt_request (rm_meta msg)));;
  st_lift (CHECK (bx_data_num buffer_ctx =? 3));;
  len ← st_lift (deref (bx_data_len buffer_ctx !! 1%nat));
  pagesize ← host h_pagesize;
  room ← st_lift (align_ceil (u64 meta_len) pagesize);
  keys ← CreateFunctionalSarray (key_bytes msg);
  lens ← CreateFunctionalSarray (val_len_bytes msg);
  mret (push_arrays msg [keys; mkSA (bx_buffer buffer_ctx + room) (u32 len); lens]).

Definition RecvPullResponse (msg : RMessage) : rd (RMessage * Z) :=
  keys ← CreateFunctionalSarray (key_bytes msg);
  lens ← CreateFunctionalSarray (val_len_bytes msg);
  mret (push_arrays msg [keys; mkSA (mt_addr (rm_meta msg)) (u64 (mt_val_len (rm_meta msg))); lens]).

(** ** IPCTransport *)

Definition int_fits (v : Z) : bool := (- 2 ^ 31 <=? v) && (v <? 2 ^ 31).

(** The constructor; the threads that it starts are the turns of
    [AsyncCopyThread]. *)
Definition IPCTransport_new (env : RdmaEnv) (pagesize : Z) : outcome Transport :=
  base ← RDMATransport_new env;
  let nthreads := default 4 (e_ipc_copy_num_threads env) in
  let partition := default 4096000 (e_partition_bytes env) in
  let y := s32 (default 8 (e_local_size env) * pagesize) in
  DEFINED (negb (y =? 0) && int_fits (partition + y) && int_fits (partition + y - 1) && int_fits (RdmaRoundUp partition y));;
  Ok (mkTrans (tr_is_server base)
        (Some (mkIpc nthreads (replicate (Z.to_nat nthreads) []) 0 (RdmaRoundUp partition y) ∅
                 (negb (default 1 (e_ipc_enable_async_copy env) =? 0))))).

Definition get_ipc (ep : Z) : rd Ipc :=
  e ← get_endpoint ep; st_lift (deref (t ← ep_trans e; tr_ipc t)).
Definition set_ipc (ep : Z) (i : Ipc) : rd unit :=
  modify_endpoint ep (fun e =>
    match ep_trans e with None => e | Some t => SetTransport (mkTrans (tr_is_server t) (Some i)) e end).

Definition ipc_set_queues (i : Ipc) q cnt : Ipc :=
  mkIpc (ip_copy_nthreads i) q cnt (ip_partition_bytes i) (ip_key_shm_addr i) (ip_enable_async_copy i).
Definition ipc_set_shm (i : Ipc) m : Ipc :=
  mkIpc (ip_copy_nthreads i) (ip_async_copy_queue i) (ip_cpy_counter i) (ip_partition_bytes i) m (ip_enable_async_copy i).

(** "BytePS_ShM_" *)
Definition kShmPrefix : list Z := [66; 121; 116; 101; 80; 83; 95; 83; 104; 77; 95].

Definition base_key (worker_key : Z) : Z := worker_key - worker_key `mod` 65536.
Definition shm_offset (i : Ipc) (worker_key : Z) : Z := u64 (ip_partition_bytes i * (worker_key `mod` 65536)).

Definition GetSharedMemory (ep : Z) (prefix : list Z) (key : Z) : rd Z :=
  n ← conn n_my_node;
  worker_key ← rd_ps (DecodeWorkerKey (IDtoRank (n_id n)) key);
  i ← get_ipc ep;
  match ip_key_shm_addr i !! base_key worker_key with
  | Some base => mret (base + shm_offset i worker_key)
  | None =>
      match shm_open_mmap (prefix ++ to_string (base_key worker_key)) with
      | None => st_lift Fatal
      | Some base =>
          set_ipc ep (ipc_set_shm i (<[base_key worker_key := base]> (ip_key_shm_addr i)));;
          mret (base + shm_offset i worker_key)
      end
  end.

Definition Ipc_SendPushRequest (ep msg_buf : Z) (t : RemoteTuple) : rd unit := Rdma_Send ep msg_buf t.

Definition Ipc_SendPullResponse (ep : Z) (msg : RMessage) (msg_buf : Z) (t : RemoteTuple) : rd unit :=
  vals ← st_lift (deref (rm_data msg !! 1%nat));
  st_lift (CHECK (negb (sa_data vals =? 0)));;
  shm_addr ← GetSharedMemory ep kShmPrefix (mt_key (rm_meta msg));
  st_lift (CHECK (negb (shm_addr =? 0)));;
  let len := mt_val_len (rm_meta msg) in
  i ← get_ipc ep;
  if ip_enable_async_copy i then
    let m := mkCopy msg_buf t shm_addr (sa_data vals) len false in
    let cnt := ip_cpy_counter i in
    st_lift (DEFINED (0 <? ip_copy_nthreads i));;
    set_ipc ep (ipc_set_queues i (alter (fun q => q ++ [m]) (Z.to_nat (cnt `mod` ip_copy_nthreads i)) (ip_async_copy_queue i))
                  (u64 (cnt + 1)))
  else rd_memcpy shm_addr (sa_data vals) len;; Rdma_Send ep msg_buf t.

Definition Ipc_RecvPushRequest (ep : Z) (msg : RMessage) : rd (RMessage * Z) :=
  keys ← CreateFunctionalSarray (key_bytes msg);
  addr ← GetSharedMemory ep kShmPrefix (mt_key (rm_meta msg));
  lens ← CreateFunctionalSarray (val_len_bytes msg);
  mret (push_arrays msg [keys; mkSA addr (u64 (mt_val_len (rm_meta msg))); lens]).

(** One turn of the [i]-th thread, when its queue holds something; [false] when
    it ends. *)
Definition AsyncCopyThread (ep : Z) (i : nat) : rd bool :=
  c ← get_ipc ep;
  q ← st_lift (deref (ip_async_copy_queue c !! i));
  match q with
  | [] => mret true
  | m :: q' =>
      set_ipc ep (ipc_set_queues c (<[i := q']> (ip_async_copy_queue c)) (ip_cpy_counter c));;
      if ac_shutdown m then mret false
      else if ac_len m =? 0 then mret true
      else
        st_lift (CHECK (negb (ac_dst m =? 0)));;
        st_lift (CHECK (negb (ac_src m =? 0)));;
        rd_memcpy (ac_dst m) (ac_src m) (ac_len m);;
        RDMAWriteWithImm ep (ac_msg_buf m) (rt_addr (ac_tuple m)) (rt_rkey (ac_tuple m)) (rt_idx (ac_tuple m));;
        mret true
  end.

(** ** Virtual functions *)

Definition SendPushRequest (trans : Transport) (ep msg_buf : Z) (t : RemoteTuple) : rd unit :=
  match tr_ipc trans with None => Rdma_SendPushRequest ep msg_buf t | Some _ => Ipc_SendPushRequest ep msg_buf t end.
Definition SendPullResponse (trans : Transport) (ep : Z) (msg : RMessage) (msg_buf : Z) (t : RemoteTuple) (lkey : Z) : rd unit :=
  match tr_ipc trans with
  | None => Rdma_SendPullResponse ep msg msg_buf t lkey
  | Some _ => Ipc_SendPullResponse ep msg msg_buf t
  end.
Definition RecvPushRequest (trans : Transport) (ep : Z) (msg : RMessage) (buffer_ctx : BufferContext) (meta_len : Z) :
    rd (RMessage * Z) :=
  match tr_ipc trans with
  | None => Rdma_RecvPushRequest msg buffer_ctx meta_len
  | Some _ => Ipc_RecvPushRequest ep msg
  end.
End transport.
