(* ===== verification/RdmaVan.v ===== *)
(** The RDMA van: sending, receiving and the completion queue of
    src/src/rdma_van.h.

    A message goes to a node either by a rendezvous, in which the receiver
    allocates memory and answers with its address, or, when an earlier message
    with the same key, direction and receiver made one, by RDMA writes at once.
    [SendMsg] returns no length while it waits for a free context, and the loop
    over completions returns [false] when it does. *)

From S2P Require Import Prelude State Bytes Memory PsMessage Ps Resender ZmqVan RdmaMem RdmaUtils RdmaState RdmaTransport.

Section van.
Context (ibv_reg_mr : list Mr -> Z -> Z -> option (Z * Z)).
Context (ibv_post_send : Mem -> Z -> list (Z * WorkRequest) -> WorkRequest -> bool).
Context (shm_open_mmap : list Z -> option Z).

Notation RDMAWriteWithImm := (RDMAWriteWithImm ibv_post_send).
Notation SendRendezvousBegin := (SendRendezvousBegin ibv_post_send).

Definition valid_pushpull (msg : RMessage) : bool := IsValidPushpull (mkMessage (rm_meta msg) []).

(** ** The tables *)

Definition set_tensor (t : Meta) (key addr val_len option : Z) : Meta :=
  mkMeta (mt_head t) (mt_app_id t) (mt_customer_id t) (mt_timestamp t) (mt_sender t) (mt_recver t)
    (mt_request t) (mt_push t) (mt_simple_app t) (mt_body t) (mt_data_type t) (mt_control t) (mt_data_size t)
    key addr val_len option.

Definition PackWorkerTensorAddress (msg : RMessage) : rd RMessage :=
  let t := rm_meta msg in
  if mt_push t || mt_request t then mret msg
  else
    info ← tabs b_tensor_info;
    match info !! (mt_key t, mt_recver t) with
    | None => st_lift Fatal
    | Some (val_len, addr, option) => mret (mkRMsg (set_tensor t (mt_key t) addr val_len option) (rm_data msg))
    end.

Definition StoreWorkerTensorAddress (msg : RMessage) : rd unit :=
  let t := rm_meta msg in
  info ← tabs b_tensor_info;
  match info !! (mt_key t, mt_sender t) with
  | None => st_modify (set_tensor_info (<[(mt_key t, mt_sender t) := (mt_val_len t, mt_addr t, mt_option t)]> info))
  | Some (len, addr, rkey) =>
      st_lift (CHECK (mt_val_len t =? len));;
      st_lift (CHECK (mt_addr t =? addr));;
      st_lift (CHECK (mt_option t =? rkey))
  end.

Definition addr_map (is_push : bool) : rd (gmap (Z * Z) RemoteTuple) :=
  if is_push then tabs b_push_addr else tabs b_pull_addr.
Definition set_addr_map (is_push : bool) (m : gmap (Z * Z) RemoteTuple) : rd unit :=
  st_modify (if is_push then set_push_addr m else set_pull_addr m).

Definition HasRemoteInfo (key : Z) (is_push : bool) (recver : Z) : rd bool :=
  m ← addr_map is_push; mret (bool_decide (is_Some (m !! (key, recver)))).

Definition StoreMsgBuf (msg_buf : Z) (msg : RMessage) : rd unit :=
  c ← tabs b_cache;
  st_lift (CHECK (bool_decide (c !! msg_buf = None)));;
  st_modify (set_cache (<[msg_buf := msg]> c)).

Definition GetFirstMsg (msg_buf : Z) : rd RMessage :=
  c ← tabs b_cache;
  match c !! msg_buf with None => st_lift Fatal | Some msg => mret msg end.

Definition ReleaseFirstMsg (msg_buf : Z) : rd unit :=
  c ← tabs b_cache;
  st_lift (CHECK (bool_decide (is_Some (c !! msg_buf))));;
  st_modify (set_cache (delete msg_buf c)).

Definition StoreRemoteAndLocalInfo (msg_buf remote_addr rkey idx : Z) : rd unit :=
  msg ← GetFirstMsg msg_buf;
  let t := rm_meta msg in
  m ← addr_map (mt_push t);
  set_addr_map (mt_push t) (<[(mt_key t, mt_recver t) := mkTuple remote_addr rkey idx msg_buf]> m).

(** [operator[]] adds an entry where there is none. *)
Definition GetRemoteAndLocalInfo (key : Z) (is_push : bool) (recver : Z) : rd RemoteTuple :=
  m ← addr_map is_push;
  match m !! (key, recver) with
  | Some t => mret t
  | None =>
      let t := mkTuple 0 0 0 0 in
      set_addr_map is_push (<[(key, recver) := t]> m);; mret t
  end.

(** [PackMeta] into the memory at [buf]. *)
Definition pack_into (buf : Z) (t : Meta) : rd unit :=
  old ← read_mem buf (GetPackMetaLen t);
  r ← st_lift (PackMeta t old);
  write_mem buf (fst r).

Definition PrepareNewMsgBuf (msg : RMessage) : rd Z :=
  let meta_len := GetPackMetaLen (rm_meta msg) in
  inline_buf ← Alloc ibv_reg_mr (u64 meta_len);
  pack_into inline_buf (rm_meta msg);;
  msg_buf ← new_object;
  bufs ← tabs b_msg_bufs;
  st_modify (set_msg_bufs (<[msg_buf := mkMsgBuf (u64 meta_len) inline_buf (rm_data msg) []]> bufs));;
  mret msg_buf.

(** [sa_cnt] counts the arrays that are not empty. *)
Fixpoint register_arrays (l : list SA) (sa_cnt : Z) : rd unit :=
  match l with
  | [] => mret tt
  | sa :: l' =>
      if sa_size sa =? 0 then register_arrays l' sa_cnt
      else
        m ← tabs b_mem_mr;
        (if bool_decide (m !! sa_data sa = None) && (sa_cnt =? 1) then
           temp_mr ← register ibv_reg_mr (sa_data sa) (sa_size sa);
           st_modify (set_mem_mr (<[sa_data sa := temp_mr]> m))
         else mret tt);;
        register_arrays l' (sa_cnt + 1)
  end.
Definition RegisterMemory (msg : RMessage) : rd unit := register_arrays (rm_data msg) 0.

(** [mem_mr_.find(addr)], which has to be there. *)
Definition find_mr (addr : Z) : rd Mr :=
  m ← tabs b_mem_mr;
  match m !! addr with None => st_lift Fatal | Some mr => mret mr end.

Definition PrepareData (msg : RMessage) (msg_buf : Z) : rd unit :=
  let t := rm_meta msg in
  if negb (mt_push t && mt_request t) then mret tt
  else
    mb ← get_msg_buf msg_buf;
    sa ← st_lift (deref (mb_data mb !! 1%nat));
    if sa_size sa =? 0 then mret tt
    else
      mr ← find_mr (sa_data sa);
      bufs ← tabs b_msg_bufs;
      st_modify (set_msg_bufs (<[msg_buf := mkMsgBuf (mb_inline_len mb) (mb_inline_buf mb) (mb_data mb)
                                              (mb_mrs mb ++ [(mr, sa_size sa)])]> bufs)).

(** [val_len] and [option] are [int]. *)
Definition AddMeta (msg : RMessage) : rd RMessage :=
  let t := rm_meta msg in
  key ← (if mt_request t then
           keys ← st_lift (deref (head (rm_data msg)));
           bs ← read_mem (sa_data keys) (sa_size keys);
           mret (DecodeKey bs)
         else mret (mt_key t));
  if mt_push t && mt_request t then
    st_lift (CHECK (length (rm_data msg) =? 3)%nat);;
    vals ← st_lift (deref (rm_data msg !! 1%nat));
    mr ← find_mr (sa_data vals);
    mret (mkRMsg (set_tensor t key (sa_data vals) (s32 (sa_size vals)) (s32 (mr_rkey mr))) (rm_data msg))
  else mret (mkRMsg (set_tensor t key (mt_addr t) (mt_val_len t) (mt_option t)) (rm_data msg)).

(** ** Sending and receiving *)

(** The branches of [SendMsg] and [PollCQ] that hand a data message to the
    transport. *)
Definition send_pushpull (trans : Transport) (ep : Z) (msg : RMessage) (msg_buf : Z) (addr_tuple : RemoteTuple) : rd unit :=
  let t := rm_meta msg in
  match mt_push t, mt_request t with
  | true, true => SendPushRequest ibv_post_send trans ep msg_buf addr_tuple
  | true, false => SendPushResponse ibv_post_send ep msg_buf addr_tuple
  | false, true => SendPullRequest ibv_post_send ep msg_buf addr_tuple
  | false, false =>
      mb ← get_msg_buf msg_buf;
      vals ← st_lift (deref (mb_data mb !! 1%nat));
      temp_mr ← find_mr (sa_data vals);
      SendPullResponse ibv_post_send shm_open_mmap trans ep msg msg_buf addr_tuple (mr_lkey temp_mr)
  end.

(** [CHECK_NOTNULL(endpoint->GetTransport())] *)
Definition GetTransport (ep : Z) : rd Transport :=
  e ← get_endpoint ep;
  match ep_trans e with None => st_lift Fatal | Some t => mret t end.

(** The message is changed; no length while the sender waits. *)
Definition SendMsg (msg : RMessage) : rd (RMessage * option Z) :=
  let remote_id := mt_recver (rm_meta msg) in
  st_lift (CHECK (negb (remote_id =? kEmpty)));;
  endpoints ← conn n_endpoints;
  ep ← match endpoints !! remote_id with None => st_lift Fatal | Some ep => mret ep end;
  let meta_len := GetPackMetaLen (rm_meta msg) in
  let total_len := s32 (meta_len + mt_data_size (rm_meta msg)) in
  st_lift (CHECK (negb (meta_len =? 0)));;
  RegisterMemory msg;;
  msg ← (if valid_pushpull msg then msg ← AddMeta msg; PackWorkerTensorAddress msg else mret msg);
  trans ← GetTransport ep;
  let t := rm_meta msg in
  has ← (if valid_pushpull msg then HasRemoteInfo (mt_key t) (mt_push t) remote_id else mret false);
  if negb has then
    msg_buf ← PrepareNewMsgBuf msg;
    StoreMsgBuf msg_buf msg;;
    (if valid_pushpull msg then PrepareData msg msg_buf else mret tt);;
    sent ← SendRendezvousBegin ep msg msg_buf;
    mret (msg, if sent : bool then Some total_len else None)
  else
    addr_tuple ← GetRemoteAndLocalInfo (mt_key t) (mt_push t) remote_id;
    let msg_buf := rt_buf addr_tuple in
    mb ← get_msg_buf msg_buf;
    st_lift (CHECK (mb_inline_len mb =? u64 meta_len));;
    st_lift (CHECK (negb (mb_inline_buf mb =? 0)));;
    bufs ← tabs b_msg_bufs;
    st_modify (set_msg_bufs (<[msg_buf := mkMsgBuf (mb_inline_len mb) (mb_inline_buf mb) (rm_data msg) (mb_mrs mb)]> bufs));;
    pack_into (mb_inline_buf mb) t;;
    send_pushpull trans ep msg msg_buf addr_tuple;;
    mret (msg, Some total_len).

(** [meta] is that of the caller's message; [None] while there is nothing to
    receive. *)
Definition RecvMsg (meta : Meta) : rd (option (RMessage * Z)) :=
  q ← tabs b_recv_buffers;
  match q with
  | [] => mret None
  | (ep, bufp) :: q' =>
      st_modify (set_recv_buffers q');;
      ctxs ← tabs b_buf_ctxs;
      buffer_ctx ← st_lift (deref (ctxs !! bufp));
      my ← conn n_my_node;
      e ← get_endpoint ep;
      mem ← read_mem (bx_buffer buffer_ctx) (bx_meta_len buffer_ctx);
      t ← st_lift (UnpackMeta mem (set_ends meta (ep_node_id e) (n_id my) (mt_timestamp meta)));
      let meta_len := GetPackMetaLen t in
      trans ← GetTransport ep;
      let msg := mkRMsg t [] in
      if negb (valid_pushpull msg) then mret (Some (msg, meta_len))
      else
        r ← match mt_push t, mt_request t with
            | true, true =>
                r ← RecvPushRequest shm_open_mmap trans ep msg buffer_ctx meta_len;
                StoreWorkerTensorAddress (fst r);;
                mret r
            | false, true => RecvPullRequest msg
            | true, false => RecvPushResponse msg buffer_ctx
            | false, false => RecvPullResponse msg
            end;
        st_lift (DEFINED (int_fits (meta_len + snd r)));;
        mret (Some (fst r, meta_len + snd r))
  end.

(** ** Completions *)

(** A work completion, with the endpoint of its context: of a send, of a write,
    of a remote write with an immediate value, of a receive with what is in its
    buffer, or of something else. *)
Inductive WorkCompletion :=
| WcSend (ep : Z) (ctx : WRContext)
| WcRdmaWrite
| WcRecvRdmaWithImm (ep : Z) (ctx : WRContext) (imm_data : Z)
| WcRecv (ep : Z) (ctx : WRContext) (with_imm : bool) (buffer : Payload)
| WcOther.

Definition ReleaseWorkRequestContext (ctx : WRContext) (ep : Z) : rd unit :=
  match ctx with
  | StartCtx i => modify_endpoint ep (fun e => ep_set_start (ep_free_start_ctx e ++ [i]) e)
  | ReplyCtx i => modify_endpoint ep (fun e => ep_set_reply (ep_free_reply_ctx e ++ [i]) e)
  | ReceiveCtx _ => modify_endpoint ep Rdma_PostRecv
  | WriteCtx => st_lift Fatal
  end.

Definition OnRendezvousReply (ep : Z) (resp : RendezvousReply) : rd unit :=
  let msg_buf := rr_origin_addr resp in
  StoreRemoteAndLocalInfo msg_buf (rr_addr resp) (rr_rkey resp) (rr_idx resp);;
  msg ← GetFirstMsg msg_buf;
  let t := rm_meta msg in
  addr_tuple ← GetRemoteAndLocalInfo (mt_key t) (mt_push t) (mt_recver t);
  trans ← GetTransport ep;
  (if negb (valid_pushpull msg) then RDMAWriteWithImm ep msg_buf (rr_addr resp) (rr_rkey resp) (rr_idx resp)
   else send_pushpull trans ep msg msg_buf addr_tuple);;
  ReleaseFirstMsg msg_buf.

(** The body of the loop over completions; [success] is its status. *)
Definition on_completion (success : bool) (wc : WorkCompletion) : rd bool :=
  st_lift (CHECK success);;
  match wc with
  | WcSend ep ctx => ReleaseWorkRequestContext ctx ep;; mret true
  | WcRdmaWrite => mret true
  | WcRecvRdmaWithImm ep ctx addr_idx =>
      pool ← tabs b_pool;
      buf_ctx ← st_lift (GetAddress pool addr_idx);
      q ← tabs b_recv_buffers;
      st_modify (set_recv_buffers (q ++ [(ep, buf_ctx)]));;
      ReleaseWorkRequestContext ctx ep;;
      mret true
  | WcRecv ep ctx with_imm buffer =>
      st_lift (CHECK with_imm);;
      match buffer with
      | PStart req =>
          trans ← GetTransport ep;
          replied ← SendRendezvousReply ibv_reg_mr ibv_post_send ep trans req;
          if replied : bool then ReleaseWorkRequestContext ctx ep;; mret true else mret false
      | PReply resp => OnRendezvousReply ep resp;; ReleaseWorkRequestContext ctx ep;; mret true
      | POther => st_lift Fatal
      end
  | WcOther => st_lift Fatal
  end.

(** [PollCQ] over what a poll returned. *)
Fixpoint PollCQ (l : list (bool * WorkCompletion)) : rd bool :=
  match l with
  | [] => mret true
  | (success, wc) :: l' =>
      go ← on_completion success wc;
      if go : bool then PollCQ l' else mret false
  end.
End van.
