(* ===== verification/RdmaDelivery.v ===== *)
(** Two RDMA vans and the fabric between them: the push of a tensor arrives,
    first through a rendezvous and then by RDMA writes alone.

    What the verbs library and the hardware do is the class [Verbs]: registration
    gives 32-bit keys, a send arrives as a receive completion, and a write moves
    the bytes of a local region into a remote one. *)

From S2P Require Import Prelude State Bytes Memory PsMessage Ps Resender RdmaMem RdmaUtils RdmaState RdmaTransport RdmaVan.

(** ** The verbs library *)

(** Bytes [a .. a + n) of a registered region. *)
Definition in_region (r : Mr) (a n : Z) : Prop := mr_addr r <= a /\ a + n <= mr_addr r + mr_length r.

Definition readable (h : Host) (sge : Sge) (bs : list Z) : Prop :=
  mem_bytes (h_mem h) (sg_addr sge) (Z.to_nat (sg_length sge)) = Some bs /\
  exists r, r ∈ h_regions h /\ mr_lkey r = sg_lkey sge /\ in_region r (sg_addr sge) (sg_length sge).
Definition writable (h : Host) (rkey addr n : Z) : Prop :=
  exists r, r ∈ h_regions h /\ mr_rkey r = rkey /\ in_region r addr n.

(** [transfer ea eb h h' wr] is what a request that was posted at the endpoint
    [ea] of [h] does to the memory at its peer [eb] of [h'], and the completions
    at both ends. *)
Class Verbs := {
  ibv_reg_mr : list Mr -> Z -> Z -> option (Z * Z);
  ibv_post_send : Mem -> Z -> list (Z * WorkRequest) -> WorkRequest -> bool;
  transfer : Z -> Z -> Host -> Host -> WorkRequest -> option (Mem * list (bool * WorkCompletion) * list (bool * WorkCompletion));
  reg_mr_ok regions addr len : exists lkey rkey,
    ibv_reg_mr regions addr len = Some (lkey, rkey) /\ fits 32 lkey /\ fits 32 rkey;
  post_send_ok m ep posted wr : Z.of_nat (length posted) < kStartDepth + kReplyDepth -> ibv_post_send m ep posted wr = true;
  transfer_send ea eb h h' ctx payload : exists i,
    transfer ea eb h h' (WrSend ctx payload) = Some (h_mem h', [(true, WcSend ea ctx)], [(true, WcRecv eb (ReceiveCtx i) true payload)]);
  transfer_write ea eb h h' sge bs addr rkey : readable h sge bs -> writable h' rkey addr (sg_length sge) ->
    transfer ea eb h h' (WrWrite sge addr rkey) = Some (mem_put (h_mem h') addr bs, [], []);
  transfer_write_imm ea eb h h' id sge bs addr rkey imm : readable h sge bs -> writable h' rkey addr (sg_length sge) ->
    exists i, transfer ea eb h h' (WrWriteImm id sge addr rkey imm) =
      Some (mem_put (h_mem h') addr bs, [(true, WcRdmaWrite)], [(true, WcRecvRdmaWithImm eb (ReceiveCtx i) imm)]) }.

(** ** Two processes *)

Section fabric.
Context {vb : Verbs}.
Context (shm_open_mmap : list Z -> option Z).

Notation PollCQ := (PollCQ ibv_reg_mr ibv_post_send shm_open_mmap).
Notation SendMsg := (SendMsg ibv_reg_mr ibv_post_send shm_open_mmap).
Notation RecvMsg := (RecvMsg shm_open_mmap).

(** The first request that the van [a] posted reaches [b], and both handle the
    completions; [false] when a polling thread waits. *)
Definition fabric_step (eb : Z) (a b : RdmaVan) : outcome (bool * RdmaVan * RdmaVan) :=
  match h_posted (v_host a) with
  | [] => Ok (true, a, b)
  | (ep, wr) :: rest =>
      let a := set_posted rest a in
      match transfer ep eb (v_host a) (v_host b) wr with
      | None => Fatal
      | Some (m, ca, cb) =>
          '(go_a, a) ← PollCQ ca a;
          '(go_b, b) ← PollCQ cb (set_mem m b);
          Ok (go_a && go_b, a, b)
      end
  end.

(** Steps until nothing is posted. *)
Fixpoint flush (fuel : nat) (ea eb : Z) (a b : RdmaVan) : outcome (bool * RdmaVan * RdmaVan) :=
  match fuel with
  | O => OutOfFuel
  | S fuel' =>
      match h_posted (v_host a), h_posted (v_host b) with
      | [], [] => Ok (true, a, b)
      | _ :: _, _ =>
          '(go, a, b) ← fabric_step eb a b;
          if go : bool then flush fuel' ea eb a b else Ok (false, a, b)
      | [], _ :: _ =>
          '(go, b, a) ← fabric_step ea b a;
          if go : bool then flush fuel' ea eb a b else Ok (false, a, b)
      end
  end.

(** Send at [a], let the requests through, receive at [b]. *)
Definition exchange (fuel : nat) (ea eb : Z) (msg : RMessage) (meta : Meta) (a b : RdmaVan) :
    outcome (option (RMessage * Z) * RdmaVan * RdmaVan) :=
  '(_, a) ← SendMsg msg a;
  '(_, a, b) ← flush fuel ea eb a b;
  '(received, b) ← RecvMsg meta b;
  Ok (received, a, b).

(** ** Well-formed hosts *)

Record host_ok (h : Host) : Prop := {
  ho_page : 0 < h_pagesize h < 2 ^ 20;
  ho_brk : 0 < h_brk h;
  ho_below : forall i, is_Some (h_mem h !! i) -> 0 < i < h_brk h;
  ho_regions : forall r, r ∈ h_regions h -> 0 < mr_length r /\ mapped (h_mem h) (mr_addr r) (mr_length r) /\
    mr_addr r + mr_length r < 2 ^ 64 /\ fits 32 (mr_lkey r) /\ fits 32 (mr_rkey r);
  ho_mr : forall p r, h_mr h !! p = Some r -> r ∈ h_regions h /\ mr_addr r = p }.

(** What allocation and writes leave. *)
Record grows (h h' : Host) : Prop := {
  gr_page : h_pagesize h' = h_pagesize h;
  gr_brk : h_brk h <= h_brk h';
  gr_mapped : forall i, is_Some (h_mem h !! i) -> is_Some (h_mem h' !! i);
  gr_regions : forall r, r ∈ h_regions h -> r ∈ h_regions h';
  gr_mr : forall p r, h_mr h !! p = Some r -> h_mr h' !! p = Some r }.

#[global] Instance grows_refl : Reflexive grows.
Proof. intros h. split; auto; lia. Qed.
#[global] Instance grows_trans : Transitive grows.
Proof. intros h1 h2 h3 [? ? ? ? ?] [? ? ? ? ?]. split; [congruence|lia|auto..]. Qed.

Lemma host_ok_region_pos h r : host_ok h -> r ∈ h_regions h -> 0 < mr_addr r /\ mr_addr r + mr_length r <= h_brk h.
Proof.
  intros Hok Hr. destruct (ho_regions h Hok r Hr) as (Hl & Hm & _). rewrite mapped_spec in Hm.
  pose proof (ho_below h Hok _ (Hm (mr_addr r) ltac:(lia))). pose proof (ho_below h Hok _ (Hm (mr_addr r + mr_length r - 1) ltac:(lia))). lia.
Qed.

(** A block from the C library: above all that is in use. *)
Lemma new_block_ok align bs v Q : host_ok (v_host v) -> 0 < align ->
  (forall p v', h_brk (v_host v) <= p < h_brk (v_host v) + align -> host_ok (v_host v') -> grows (v_host v) (v_host v') ->
     v' = set_mem (mem_put (h_mem (v_host v)) p bs) (set_brk (p + Z.of_nat (length bs)) v) -> Q p v') ->
  runs (new_block align bs) v Q.
Proof.
  intros Hok Ha HQ. unfold new_block. rrun. cbn. set (brk := h_brk (v_host v)) in *.
  pose proof (Z.div_mod (brk + align - 1) align ltac:(lia)) as Hd. pose proof (Z.mod_pos_bound (brk + align - 1) align Ha) as Hm.
  rewrite Z.mul_comm in Hd. set (p := (brk + align - 1) `div` align * align) in *.
  apply HQ; [lia| | |by destruct v as [[] ? ?]].
  - destruct v as [[ps m b rs mr po] ? ?]. cbn in *. subst brk. destruct Hok as [H1 H2 H3 H4 H5]. cbn in *. split; cbn; [done|lia| | |done].
    + intros i Hi. rewrite mem_put_lookup in Hi. case_decide; [lia|]. specialize (H3 i Hi). lia.
    + intros r Hr. destruct (H4 r Hr) as (? & ? & ? & ? & ?). repeat split; try done; try lia; try apply mapped_put; try done.
      all: unfold fits in *; lia.
  - destruct v as [[ps m b rs mr po] ? ?]. cbn in *. split; cbn; try done; [lia|]. intros i Hi. rewrite mem_put_lookup.
    case_decide; [|done]. apply lookup_lt_is_Some_2. lia.
Qed.

(** What an operation of the memory that takes at most [n] bytes does to the rest
    of the van. *)
Record mem_only (n : Z) (v v' : RdmaVan) : Prop := {
  mo_grows : grows (v_host v) (v_host v');
  mo_brk : h_brk (v_host v') <= h_brk (v_host v) + n;
  mo_ok : host_ok (v_host v');
  mo_posted : h_posted (v_host v') = h_posted (v_host v);
  mo_tabs : v_tabs v' = v_tabs v;
  mo_conn : v_conn v' = v_conn v }.

(** Memory below the old break is as it was. *)
Definition same_below (v v' : RdmaVan) : Prop :=
  forall i, i < h_brk (v_host v) -> h_mem (v_host v') !! i = h_mem (v_host v) !! i.

Lemma Alloc_ok size v Q : host_ok (v_host v) -> 0 < size < 2 ^ 30 -> h_brk (v_host v) < 2 ^ 63 ->
  (forall p mr v', h_brk (v_host v) <= p -> mem_only (2 ^ 31) v v' -> same_below v v' -> h_mr (v_host v') !! p = Some mr -> size <= mr_length mr -> Q p v') ->
  runs (Alloc ibv_reg_mr size) v Q.
Proof.
  intros Hok Hsize Hbrk HQ. pose proof (ho_page _ Hok) as Hpg. unfold Alloc. rewrite (proj2 (Z.eqb_neq size 0)) by lia.
  rrun. cbn. destruct (align_ceil_spec size (h_pagesize (v_host v))) as (sz & Hsz & Hrange & Hdiv); [lia..|].
  eapply runs_lift; [exact Hsz|]. rrun. unfold ib_malloc. rrun. cbn.
  assert (Hal : s32 (u64 (u64 (sz + h_pagesize (v_host v) - 1) `div` h_pagesize (v_host v) * h_pagesize (v_host v))) = sz).
  { destruct Hdiv as [k ->]. rewrite (u64_small (_ - 1)) by lia. set (ps := h_pagesize (v_host v)) in *.
    replace ((k * ps + ps - 1) `div` ps) with k; [|apply (Z.div_unique _ _ _ (ps - 1)); lia].
    rewrite u64_small, s32_small by lia. done. }
  rewrite Hal. rrun. apply runs_CHECK; [b2p; lia|]. rrun. apply runs_DEFINED; [b2p; lia|].
  apply new_block_ok; [done|lia|]. intros p v1 Hp Hok1 Hg1 Hv1. rrun. unfold register. rrun. cbn.
  destruct (reg_mr_ok (h_regions (v_host v1)) p sz) as (lk & rk & -> & Hlk & Hrk). cbn. rrun. cbn.
  pose proof (ho_brk _ Hok) as Hb0. set (mr := mkMr p sz lk rk). apply (HQ p mr); [lia| | | |cbn; lia].
  - subst v1. destruct v as [[ps m b rs mrs po] t c]. cbn in *. destruct Hok1 as [H1 H2 H3 H4 H5], Hg1 as [G1 G2 G3 G4 G5]. cbn in *.
    rewrite length_replicate in *.
    split; cbn; [|lia| |done..].
    + split; cbn; try done; [intros r Hr; set_solver|]. intros q r Hq. destruct (decide (q = p)) as [->|]; [|by rewrite lookup_insert_ne].
      destruct (ho_mr _ Hok p r Hq) as [Hr Ha]. destruct (host_ok_region_pos _ r Hok Hr) as [Hr1 Hr2].
      pose proof (ho_regions _ Hok r Hr) as [Hl _]. cbn in *. lia.
    + split; cbn; try done.
      * intros r [Hr| ->%list_elem_of_singleton]%elem_of_app; [by apply H4|]. cbn. repeat split; try lia; try apply Hlk; try apply Hrk.
        apply mapped_spec. intros i Hi. rewrite mem_put_lookup, length_replicate, decide_True by lia.
        apply lookup_lt_is_Some_2. rewrite length_replicate. lia.
      * intros q r Hq. destruct (decide (q = p)) as [->|].
        -- rewrite lookup_insert_eq in Hq. injection Hq as <-. split; [set_solver|done].
        -- rewrite lookup_insert_ne in Hq by done. destruct (H5 q r Hq). split; [set_solver|done].
  - subst v1. destruct v as [[ps m b rs mrs po] t c]. intros i Hi. cbn in *. rewrite mem_put_lookup, decide_False by lia. done.
  - subst v1. destruct v as [[ps m b rs mrs po] t c]. cbn. by rewrite lookup_insert_eq.
Qed.

(** A copy of a field's bytes. *)
Lemma CreateFunctionalSarray_ok bs v Q : host_ok (v_host v) ->
  (forall sa v', mem_only (Z.of_nat (length bs) + 16) v v' -> same_below v v' -> sa_size sa = Z.of_nat (length bs) ->
     mem_bytes (h_mem (v_host v')) (sa_data sa) (length bs) = Some bs -> Q sa v') ->
  runs (CreateFunctionalSarray bs) v Q.
Proof.
  intros Hok HQ. unfold CreateFunctionalSarray. rrun. apply new_block_ok; [done|lia|]. intros p v' Hp Hok' Hg Hv'. rrun.
  apply HQ; [| |done|].
  - subst v'. destruct v as [[? ? ? ? ? ?] ? ?]. cbn in *. split; cbn; [done|lia|done..].
  - subst v'. destruct v as [[? ? ? ? ? ?] ? ?]. intros i Hi. cbn in *. rewrite mem_put_lookup, decide_False by lia. done.
  - subst v'. destruct v as [[? ? ? ? ? ?] ? ?]. apply mem_put_bytes.
Qed.

(** ** Steps of the fabric *)

Lemma step_write eb a b ep sge addr rkey bs rest :
  h_posted (v_host a) = (ep, WrWrite sge addr rkey) :: rest ->
  readable (v_host a) sge bs -> writable (v_host b) rkey addr (sg_length sge) ->
  fabric_step eb a b = Ok (true, set_posted rest a, set_mem (mem_put (h_mem (v_host b)) addr bs) b).
Proof.
  intros Hp Hr Hw. unfold fabric_step. rewrite Hp.
  rewrite (transfer_write _ _ (v_host (set_posted rest a)) (v_host b) sge bs addr rkey) by done. done.
Qed.

(** What the completion of a write with an immediate value does to the van. *)
Definition received (eb ctx : Z) (v : RdmaVan) : RdmaVan :=
  set_eps (alter Rdma_PostRecv eb (n_eps (v_conn v))) (set_recv_buffers (b_recv_buffers (v_tabs v) ++ [(eb, ctx)]) v).

Lemma PollCQ_imm eb i imm ctx v : GetAddress (b_pool (v_tabs v)) imm = Ok ctx ->
  PollCQ [(true, WcRecvRdmaWithImm eb (ReceiveCtx i) imm)] v = Ok (true, received eb ctx v).
Proof.
  intros Hg. unfold RdmaVan.PollCQ, on_completion, mbind, stm_bind, tabs, st_gets, st_lift, CHECK. cbn. by rewrite Hg.
Qed.

Lemma step_write_imm eb a b ep id sge addr rkey imm bs ctx rest :
  h_posted (v_host a) = (ep, WrWriteImm id sge addr rkey imm) :: rest ->
  readable (v_host a) sge bs -> writable (v_host b) rkey addr (sg_length sge) ->
  GetAddress (b_pool (v_tabs b)) imm = Ok ctx ->
  fabric_step eb a b = Ok (true, set_posted rest a, received eb ctx (set_mem (mem_put (h_mem (v_host b)) addr bs) b)).
Proof.
  intros Hp Hr Hw Hg. unfold fabric_step. rewrite Hp.
  destruct (transfer_write_imm ep eb (v_host (set_posted rest a)) (v_host b) id sge bs addr rkey imm) as [i Hi]; [done..|].
  rewrite Hi. rewrite (PollCQ_imm eb i imm ctx) by done. done.
Qed.

Lemma flush_done fuel ea eb a b : h_posted (v_host a) = [] -> h_posted (v_host b) = [] ->
  flush (S fuel) ea eb a b = Ok (true, a, b).
Proof. intros Ha Hb. cbn [flush]. by rewrite Ha, Hb. Qed.

Lemma flush_step fuel ea eb a b a' b' : h_posted (v_host a) <> [] -> fabric_step eb a b = Ok (true, a', b') ->
  flush (S fuel) ea eb a b = flush fuel ea eb a' b'.
Proof. intros Ha Hs. cbn [flush]. destruct (h_posted (v_host a)); [done|]. by rewrite Hs. Qed.

Lemma flush_back fuel ea eb a b a' b' : h_posted (v_host a) = [] -> h_posted (v_host b) <> [] ->
  fabric_step ea b a = Ok (true, b', a') -> flush (S fuel) ea eb a b = flush fuel ea eb a' b'.
Proof. intros Ha Hb Hs. cbn [flush]. rewrite Ha. destruct (h_posted (v_host b)); [done|]. by rewrite Hs. Qed.

(** ** Reception of a push *)

(** Meta data of a push that the van can send. *)
Record push_meta (t : Meta) : Prop := {
  pm_wf : meta_wf t;
  pm_push : mt_push t = true;
  pm_request : mt_request t = true;
  pm_app : mt_simple_app t = false;
  pm_cmd : ct_cmd (mt_control t) = EMPTY;
  pm_nodes : ct_node (mt_control t) = [] }.

Lemma push_meta_arrives t m0 : push_meta t -> ct_node (mt_control m0) = [] ->
  GetPackMetaLen (arrives t m0) = raw_len t /\ valid_pushpull (mkRMsg (arrives t m0) []) = true.
Proof.
  intros [Hwf _ _ Happ Hcmd Hn] H0. split.
  - assert (Hl : raw_len (arrives t m0) = raw_len t) by (unfold raw_len, num_nodes, arrives, Control_empty; cbn; by rewrite H0, Hn, Hcmd).
    rewrite <- Hl. unfold GetPackMetaLen. fold (raw_len (arrives t m0)). apply s32_small. rewrite Hl.
    destruct Hwf as (_ & _ & _ & _ & _ & _ & _ & _ & _ & _ & _ & _ & ?). unfold raw_len, body_size, num_data_types, num_nodes, sizeof_RawMeta, sizeof_RawNode in *. lia.
  - unfold valid_pushpull, IsValidPushpull, Control_empty, arrives. cbn. by rewrite Hcmd, Happ.
Qed.

(** What the server knows of the sender's tensor. *)
Definition tensor_known (v : RdmaVan) (sender : Z) (t : Meta) : Prop :=
  b_tensor_info (v_tabs v) !! (mt_key t, sender) = Some (mt_val_len t, mt_addr t, mt_option t).

Lemma StoreWorkerTensorAddress_ok msg v Q :
  b_tensor_info (v_tabs v) !! (mt_key (rm_meta msg), mt_sender (rm_meta msg)) = None \/
    tensor_known v (mt_sender (rm_meta msg)) (rm_meta msg) ->
  Q tt (set_tensor_info (<[(mt_key (rm_meta msg), mt_sender (rm_meta msg)) :=
    (mt_val_len (rm_meta msg), mt_addr (rm_meta msg), mt_option (rm_meta msg))]> (b_tensor_info (v_tabs v))) v) ->
  runs (StoreWorkerTensorAddress msg) v Q.
Proof.
  intros [H|H] HQ; unfold StoreWorkerTensorAddress; rrun.
  - rewrite H. rrun. done.
  - unfold tensor_known in H. rewrite H. rrun. apply runs_CHECK; [b2p; done|]. rrun. apply runs_CHECK; [b2p; done|].
    apply runs_CHECK; [b2p; done|]. rewrite insert_id in HQ by done. by destruct v as [? [] ?].
Qed.

Lemma bytes_stay v v' a n bs : host_ok (v_host v) -> same_below v v' ->
  mem_bytes (h_mem (v_host v)) a n = Some bs -> mem_bytes (h_mem (v_host v')) a n = Some bs.
Proof.
  intros Hok Hs H. apply mem_bytes_spec in H as [Hl Hb]. apply mem_bytes_spec. split; [done|]. intros i x Hx.
  rewrite Hs; [by apply Hb|]. apply (ho_below _ Hok). rewrite (Hb i x Hx). eauto.
Qed.

Lemma raw_len_bounds t : meta_wf t -> 88 <= raw_len t < 2 ^ 31.
Proof.
  intros (_ & _ & _ & _ & _ & _ & _ & _ & _ & _ & _ & _ & ?). unfold raw_len, body_size, num_data_types, num_nodes, sizeof_RawMeta, sizeof_RawNode in *. lia.
Qed.

(** What the receiver of a push gets: the meta data, and the key, the values and
    their length as arrays. *)
Definition push_received (v : RdmaVan) (t : Meta) (vals : list Z) (msg : RMessage) : Prop :=
  rm_meta msg = t /\
  exists k vs l, rm_data msg = [k; vs; l] /\
    sa_size k = 8 /\ mem_bytes (h_mem (v_host v)) (sa_data k) 8 = Some (le_bytes 8 (mt_key t)) /\
    sa_size vs = Z.of_nat (length vals) /\ mem_bytes (h_mem (v_host v)) (sa_data vs) (length vals) = Some vals /\
    sa_size l = 4 /\ mem_bytes (h_mem (v_host v)) (sa_data l) 4 = Some (le_bytes 4 (mt_val_len t)).

(** A tensor of [n] bytes behind meta data of [L] bytes, in the buffer at [buf]. *)
Record push_arrived (v : RdmaVan) (t : Meta) (buf n : Z) (vals : list Z) : Prop := {
  pa_meta : exists packed, mem_bytes (h_mem (v_host v)) buf (Z.to_nat (raw_len t)) = Some packed /\
    forall m0, UnpackMeta packed m0 = Ok (arrives t m0);
  pa_len : Z.of_nat (length vals) = n /\ raw_len t + n + 12 < 2 ^ 31;
  pa_vals : exists room, align_ceil (raw_len t) (h_pagesize (v_host v)) = Ok room /\
    mem_bytes (h_mem (v_host v)) (buf + room) (length vals) = Some vals }.

Lemma Rdma_RecvPushRequest_ok v t buf n vals kl ll m0 Q : host_ok (v_host v) -> push_meta t -> ct_node (mt_control m0) = [] ->
  push_arrived v t buf n vals ->
  (forall msg v', mem_only 64 v v' -> push_received v' (arrives t m0) vals msg -> Q (msg, n + 12) v') ->
  runs (Rdma_RecvPushRequest (mkRMsg (arrives t m0) []) (mkBufCtx buf (raw_len t) 3 [kl; n; ll]) (raw_len t)) v Q.
Proof.
  intros Hok Hpm H0 [_ [Hn Hlt] (room & Hroom & Hvals)] HQ. pose proof (raw_len_bounds t (pm_wf _ Hpm)) as Hrl.
  unfold Rdma_RecvPushRequest. rrun. apply runs_CHECK. { cbn. by rewrite (pm_push _ Hpm), (pm_request _ Hpm). }
  rrun. apply runs_CHECK; [done|]. rrun. apply (runs_deref _ n); [done|]. rrun. cbn [bx_buffer].
  eapply runs_lift; [rewrite u64_small by lia; exact Hroom|]. rrun.
  apply CreateFunctionalSarray_ok; [done|]. intros k v1 Hm1 Hs1 Hk Hkb. rrun.
  apply CreateFunctionalSarray_ok; [apply Hm1|]. intros l v2 Hm2 Hs2 Hl Hlb. rrun.
  unfold key_bytes, val_len_bytes in *. rewrite length_le_bytes in *.
  unfold push_arrays. cbn [rm_meta rm_data map fold_right app sa_size]. rewrite Hk, Hl, ?length_le_bytes. rewrite (u32_small n) by lia.
  replace (s32 _) with (n + 12) by (rewrite s32_small; lia).
  apply HQ.
  - destruct Hm1, Hm2. split; [by etrans|lia|done|congruence..].
  - split; [done|]. eexists _, _, _. split; [reflexivity|]. cbn [sa_size sa_data rm_meta]. split; [lia|]. split.
    { eapply (bytes_stay v1); [apply Hm1|done..]. }
    split; [done|]. split; [|split; [lia|done]].
    eapply (bytes_stay v1); [apply Hm1|done|]. by eapply (bytes_stay v).
Qed.

(** What [RecvMsg] leaves of a state: the message is taken from the queue, and
    the tensor's address is known. *)
Definition took (q : list (Z * Z)) (t : Meta) (v1 : RdmaVan) : RdmaVan :=
  set_tensor_info (<[(mt_key t, mt_sender t) := (mt_val_len t, mt_addr t, mt_option t)]> (b_tensor_info (v_tabs v1))) v1.

Lemma GetTransport_ok ep e tr v Q : n_eps (v_conn v) !! ep = Some e -> ep_trans e = Some tr -> (Q tr v : Prop) ->
  runs (GetTransport ep) v Q.
Proof.
  intros He Ht HQ. unfold GetTransport, get_endpoint. rrun. apply (runs_deref _ e); [done|]. rewrite Ht. by apply runs_ret.
Qed.

Lemma RecvMsg_push v eb bxp q e tr buf n vals kl ll t m0 Q :
  host_ok (v_host v) -> push_meta t -> ct_node (mt_control m0) = [] ->
  b_recv_buffers (v_tabs v) = (eb, bxp) :: q ->
  b_buf_ctxs (v_tabs v) !! bxp = Some (mkBufCtx buf (raw_len t) 3 [kl; n; ll]) ->
  n_eps (v_conn v) !! eb = Some e -> ep_trans e = Some tr -> tr_ipc tr = None ->
  push_arrived v t buf n vals ->
  b_tensor_info (v_tabs v) !! (mt_key t, ep_node_id e) = None \/ tensor_known v (ep_node_id e) t ->
  let t' := arrives t (set_ends m0 (ep_node_id e) (n_id (n_my_node (v_conn v))) (mt_timestamp m0)) in
  (forall msg v1, mem_only 64 (set_recv_buffers q v) v1 -> push_received v1 t' vals msg ->
     Q (Some (msg, raw_len t + (n + 12))) (took q t' v1)) ->
  runs (RecvMsg m0) v Q.
Proof.
  intros Hok Hpm H0 Hq Hctx He Htr Hipc Harr Hti t' HQ. pose proof (raw_len_bounds t (pm_wf _ Hpm)) as Hrl.
  pose proof Harr as [(packed & Hpk & Hun) [Hn Hlt] _].
  destruct (push_meta_arrives t (set_ends m0 (ep_node_id e) (n_id (n_my_node (v_conn v))) (mt_timestamp m0)) Hpm H0) as [Hlen Hval].
  fold t' in Hlen, Hval. unfold RdmaVan.RecvMsg. rrun. rewrite Hq. rrun. cbn [set_recv_buffers v_tabs b_buf_ctxs].
  apply (runs_deref _ (mkBufCtx buf (raw_len t) 3 [kl; n; ll])); [by destruct v as [? [] ?]|]. rrun. unfold get_endpoint. rrun.
  apply (runs_deref _ e); [by destruct v as [? [] []]|]. unfold read_mem. cbn [bx_buffer bx_meta_len]. rrun.
  apply (runs_lift _ packed). { apply mem_read_ok. by destruct v as [[] ? ?]. }
  rrun. apply (runs_lift _ t'). { by rewrite Hun. }
  rewrite Hlen. rrun. apply (GetTransport_ok _ e tr); [by destruct v as [? [] []]|done|]. rewrite Hval. cbn [negb].
  rrun. cbn [t' arrives mt_push mt_request]. rewrite (pm_push _ Hpm), (pm_request _ Hpm). rrun. unfold RecvPushRequest. rewrite Hipc.
  apply (Rdma_RecvPushRequest_ok _ t buf n vals kl ll); [by destruct v as [[] ? ?]|done|done| |].
  { destruct Harr as [? ? ?]. split; by destruct v as [[] ? ?]. }
  intros msg v1 Hm Hrec. rrun. cbn [fst]. destruct Hrec as (Hmeta & Hdata). fold t' in Hmeta.
  apply StoreWorkerTensorAddress_ok.
  { rewrite Hmeta. unfold tensor_known in *. rewrite (mo_tabs _ _ _ Hm). by destruct v as [? [] ?]. }
  rrun. apply runs_DEFINED. { cbn [snd]. unfold int_fits. b2p; lia. }
  rrun. cbn [fst snd]. rewrite Hmeta. apply HQ; [done|by split].
Qed.

(** ** A push of a known tensor *)

(** The meta data that the van sends for the tensor [vals]. *)
Definition push_header (t : Meta) (kb : list Z) (vals : SA) (mr : Mr) : Meta :=
  set_tensor t (DecodeKey kb) (sa_data vals) (s32 (sa_size vals)) (s32 (mr_rkey mr)).

Lemma DecodeKey_u64 kb : 0 <= DecodeKey kb < 2 ^ 64.
Proof. rewrite DecodeKey_le. apply u64_range. Qed.

Lemma s32_int v : PsMessage.is_int (s32 v).
Proof. unfold PsMessage.is_int, s32, swrap. pose proof (Z.mod_pos_bound (v + 2 ^ (32 - 1)) (2 ^ 32) ltac:(lia)). lia. Qed.

Lemma push_header_meta t kb vals mr : push_meta t -> 0 <= sa_data vals < 2 ^ 64 -> push_meta (push_header t kb vals mr).
Proof.
  intros [Hwf Hp Hr Ha Hc Hn] Hd. split; try done. pose proof (DecodeKey_u64 kb) as Hk. revert Hwf. unfold meta_wf, push_header, is_u64.
  cbn. change (raw_len (set_tensor _ _ _ _ _)) with (raw_len t).
  intros (? & ? & ? & ? & ? & ? & ? & ? & ? & ? & ? & ? & ?). pose proof (s32_int (sa_size vals)). pose proof (s32_int (mr_rkey mr)).
  unfold PsMessage.is_int in *. repeat split; try done; lia.
Qed.

(** The arrays of a push, in the memory of the sender. *)
Record push_data (v : RdmaVan) (msg : RMessage) (kb : list Z) (vals : SA) (bs : list Z) : Prop := {
  pd_meta : push_meta (rm_meta msg);
  pd_recver : mt_recver (rm_meta msg) <> kEmpty;
  pd_arrays : exists k l, rm_data msg = [k; vals; l] /\ 0 < sa_size k /\
    mem_bytes (h_mem (v_host v)) (sa_data k) (Z.to_nat (sa_size k)) = Some kb;
  pd_size : 0 < sa_size vals < 2 ^ 31 - 12 - raw_len (rm_meta msg);
  pd_addr : 0 <= sa_data vals /\ sa_data vals + sa_size vals < 2 ^ 64;
  pd_vals : mem_bytes (h_mem (v_host v)) (sa_data vals) (Z.to_nat (sa_size vals)) = Some bs }.

Definition registered (v : RdmaVan) (vals : SA) (mr : Mr) : Prop :=
  b_mem_mr (v_tabs v) !! sa_data vals = Some mr /\ mr_addr mr = sa_data vals /\ mr ∈ h_regions (v_host v) /\
  sa_size vals <= mr_length mr.

Lemma RegisterMemory_known v msg kb vals bs mr Q : push_data v msg kb vals bs -> registered v vals mr -> Q tt v ->
  runs (RegisterMemory ibv_reg_mr msg) v Q.
Proof.
  intros [_ _ (k & l & Hd & Hk & _) Hs _ _] [Hmr _] HQ. unfold RegisterMemory. rewrite Hd. cbn [register_arrays sa_size].
  rewrite (proj2 (Z.eqb_neq (sa_size k) 0)), (proj2 (Z.eqb_neq (sa_size vals) 0)) by lia. rrun.
  change (0 =? 1) with false. rewrite andb_false_r. rrun. rewrite Hmr. rewrite (bool_decide_eq_false_2 (Some mr = None)) by done.
  cbn [andb]. rrun. case_match; rrun; [done|]. change (0 + 1 + 1 =? 1) with false. rewrite andb_false_r. rrun. done.
Qed.

Lemma AddMeta_push v msg kb vals bs mr Q : push_data v msg kb vals bs -> registered v vals mr ->
  Q (mkRMsg (push_header (rm_meta msg) kb vals mr) (rm_data msg)) v -> runs (AddMeta msg) v Q.
Proof.
  intros [[_ Hp Hr _ _ _] _ (k & l & Hd & Hk & Hkb) Hs _ _] [Hmr _] HQ. unfold AddMeta, read_mem, find_mr.
  rewrite Hp, Hr, Hd in *. cbn [andb]. rrun. apply (runs_deref _ k); [done|]. rrun.
  apply (runs_lift _ kb); [by apply mem_read_ok|]. rrun. apply runs_CHECK; [done|]. rrun. apply (runs_deref _ vals); [done|].
  rrun. rewrite Hmr. rrun. done.
Qed.

Lemma PackWorkerTensorAddress_push v t d Q : push_meta t -> Q (mkRMsg t d) v -> runs (PackWorkerTensorAddress (mkRMsg t d)) v Q.
Proof. intros [_ Hp _ _ _ _] HQ. unfold PackWorkerTensorAddress. cbn. rewrite Hp. cbn. by rrun. Qed.

Lemma push_meta_valid t d : push_meta t -> valid_pushpull (mkRMsg t d) = true.
Proof. intros [_ _ _ Ha Hc _]. unfold valid_pushpull, IsValidPushpull, Control_empty. cbn. by rewrite Ha, Hc. Qed.

Lemma host_ok_put h a bs : host_ok h -> mapped (h_mem h) a (Z.of_nat (length bs)) ->
  host_ok (mkHost (h_pagesize h) (mem_put (h_mem h) a bs) (h_brk h) (h_regions h) (h_mr h) (h_posted h)) /\
  grows h (mkHost (h_pagesize h) (mem_put (h_mem h) a bs) (h_brk h) (h_regions h) (h_mr h) (h_posted h)).
Proof.
  intros [H1 H2 H3 H4 H5] Hm. rewrite mapped_spec in Hm.
  assert (Hin : forall i, is_Some (mem_put (h_mem h) a bs !! i) <-> is_Some (h_mem h !! i)).
  { intros i. rewrite mem_put_lookup. case_decide as Hi; [|done]. split; [intros _; by apply Hm|]. intros _. apply lookup_lt_is_Some_2. lia. }
  split; split; cbn; try done; try lia.
  - intros i Hi. apply H3. by apply Hin.
  - intros r Hr. destruct (H4 r Hr) as (? & ? & ? & ? & ?). repeat split; try done; try apply mapped_put; try done; unfold fits in *; lia.
  - intros i Hi. by apply Hin.
Qed.

(** [pack_into] writes bytes that unpack to the meta data. *)
Lemma pack_into_ok buf t v Q : meta_wf t -> mapped (h_mem (v_host v)) buf (raw_len t) ->
  (forall packed, Z.of_nat (length packed) = raw_len t -> (forall m0, UnpackMeta packed m0 = Ok (arrives t m0)) ->
     Q tt (set_mem (mem_put (h_mem (v_host v)) buf packed) v)) ->
  runs (pack_into buf t) v Q.
Proof.
  intros Hwf Hm HQ. pose proof (raw_len_bounds t Hwf) as Hl. unfold pack_into, read_mem, write_mem. rewrite GetPackMetaLen_ok by done.
  rrun. destruct Hm as [old Hold]. pose proof (mem_bytes_length _ _ _ _ Hold) as Hlo.
  apply (runs_lift _ old); [by apply mem_read_ok|]. rrun.
  destruct (PackMeta_packed t old Hwf ltac:(lia)) as (packed & Hp & Hlen & Hun).
  eapply runs_lift; [exact Hp|]. rrun. cbn [fst]. eapply runs_lift.
  { apply mem_write_ok. exists old. replace (Z.to_nat (Z.of_nat (length packed))) with (Z.to_nat (raw_len t)) by lia. done. }
  rrun. apply HQ; [lia|]. intros m0. rewrite <- (Hun m0). rewrite take_ge by lia. done.
Qed.

Lemma post_send_accepted post ep wr v Q : post (h_mem (v_host v)) ep (h_posted (v_host v)) wr = true ->
  Q tt (set_posted (h_posted (v_host v) ++ [(ep, wr)]) v) -> runs (post_send post ep wr) v Q.
Proof. intros Hp HQ. unfold post_send. rrun. apply runs_CHECK; [done|by rrun]. Qed.

Lemma post_send_runs ep wr v Q : Z.of_nat (length (h_posted (v_host v))) < 1000 ->
  Q tt (set_posted (h_posted (v_host v) ++ [(ep, wr)]) v) -> runs (post_send ibv_post_send ep wr) v Q.
Proof.
  intros Hl HQ. apply post_send_accepted; [|done]. apply post_send_ok. unfold kStartDepth, kReplyDepth, kRxDepth. lia.
Qed.

(** The request that [RDMAWriteWithImm] posts for a buffer. *)
Definition imm_request (mb : MessageBuffer) (bufp : Z) (r : Mr) (tup : RemoteTuple) : WorkRequest :=
  WrWriteImm bufp (mkSge (mb_inline_buf mb) (mb_inline_len mb) (mr_lkey r)) (rt_addr tup) (rt_rkey tup) (rt_idx tup).

Lemma RDMAWriteWithImm_accepted post ep bufp mb r tup v Q :
  post (h_mem (v_host v)) ep (h_posted (v_host v)) (imm_request mb bufp r tup) = true ->
  b_msg_bufs (v_tabs v) !! bufp = Some mb -> h_mr (v_host v) !! mb_inline_buf mb = Some r -> 0 <= mb_inline_len mb < 2 ^ 32 ->
  Q tt (set_posted (h_posted (v_host v) ++ [(ep, imm_request mb bufp r tup)]) v) ->
  runs (RDMAWriteWithImm post ep bufp (rt_addr tup) (rt_rkey tup) (rt_idx tup)) v Q.
Proof.
  intros Hp Hmb Hr Hlen HQ. unfold RDMAWriteWithImm, get_msg_buf, LocalKey, Addr2MR. rrun. apply (runs_deref _ mb); [done|].
  rrun. rewrite Hr. rrun. rewrite u32_small by done. by apply post_send_accepted.
Qed.

Lemma RDMAWriteWithImm_ok ep bufp mb r tup v Q : Z.of_nat (length (h_posted (v_host v))) < 1000 ->
  b_msg_bufs (v_tabs v) !! bufp = Some mb -> h_mr (v_host v) !! mb_inline_buf mb = Some r -> 0 <= mb_inline_len mb < 2 ^ 32 ->
  Q tt (set_posted (h_posted (v_host v) ++ [(ep, imm_request mb bufp r tup)]) v) ->
  runs (RDMAWriteWithImm ibv_post_send ep bufp (rt_addr tup) (rt_rkey tup) (rt_idx tup)) v Q.
Proof.
  intros Hl Hmb Hr Hlen HQ. apply (RDMAWriteWithImm_accepted _ _ _ mb r); [|done..].
  apply post_send_ok. unfold kStartDepth, kReplyDepth, kRxDepth. lia.
Qed.

(** What a sender has after the rendezvous of a push: the address it writes to,
    the buffer it packs in and the tensor's region. *)
Record ready (v : RdmaVan) (peer key L room : Z) (vals : SA) (tup : RemoteTuple) (mb : MessageBuffer) (mr ri : Mr) : Prop := {
  re_addr : b_push_addr (v_tabs v) !! (key, peer) = Some tup;
  re_buf : b_msg_bufs (v_tabs v) !! rt_buf tup = Some mb;
  re_mrs : mb_mrs mb = [(mr, sa_size vals)];
  re_len : mb_inline_len mb = L /\ 0 <= L < 2 ^ 31;
  re_inline : h_mr (v_host v) !! mb_inline_buf mb = Some ri /\ L <= mr_length ri;
  re_tensor : registered v vals mr;
  re_size : 0 < sa_size vals < 2 ^ 31;
  re_apart : mb_inline_buf mb + L <= sa_data vals \/ sa_data vals + sa_size vals <= mb_inline_buf mb;
  re_room : align_ceil L (h_pagesize (v_host v)) = Ok room /\ 0 <= rt_addr tup + room < 2 ^ 64 }.

Definition push_requests (ea : Z) (room : Z) (vals : SA) (tup : RemoteTuple) (mb : MessageBuffer) (mr ri : Mr) : list (Z * WorkRequest) :=
  [(ea, WrWrite (mkSge (sa_data vals) (sa_size vals) (mr_lkey mr)) (rt_addr tup + room) (rt_rkey tup));
   (ea, imm_request mb (rt_buf tup) ri tup)].

Lemma SendPushRequest_ready v ea tr peer key L room vals tup mb mr ri Q : tr_ipc tr = None ->
  ready v peer key L room vals tup mb mr ri -> h_posted (v_host v) = [] ->
  Q tt (set_posted (push_requests ea room vals tup mb mr ri) v) ->
  runs (SendPushRequest ibv_post_send tr ea (rt_buf tup) tup) v Q.
Proof.
  intros Hipc [_ Hb Hm [Hl HL] [Hri _] (_ & Ha & _) Hs _ [Hr Hlt]] Hpo HQ.
  unfold SendPushRequest. rewrite Hipc. unfold Rdma_SendPushRequest, check_mrs, get_msg_buf. rrun.
  apply (runs_deref _ mb); [done|]. rewrite Hm. rrun. apply runs_CHECK; [done|]. rrun. rewrite Hm. apply (runs_deref _ (mr, sa_size vals)); [done|].
  rrun. eapply runs_lift; [rewrite Hl; exact Hr|]. rrun. cbn [fst snd]. rewrite u64_small by lia. rewrite (u32_small (sa_size vals)) by lia.
  apply post_send_runs; [rewrite Hpo; cbn; lia|].
  apply (RDMAWriteWithImm_ok _ _ mb ri); [by rewrite Hpo|by destruct v|by destruct v as [[] ? ?]|lia|].
  rewrite Ha, Hpo. cbn. rewrite <- Hl in *. by destruct v as [[] ? ?].
Qed.

Lemma surjective_RMessage msg : msg = mkRMsg (rm_meta msg) (rm_data msg).
Proof. by destruct msg. Qed.

(** The sender's endpoint for a node. *)
Record sends_to (v : RdmaVan) (peer ea : Z) : Prop := {
  st_endpoint : n_endpoints (v_conn v) !! peer = Some ea;
  st_trans : exists e tr, n_eps (v_conn v) !! ea = Some e /\ ep_trans e = Some tr /\ tr_ipc tr = None }.

Lemma SendMsg_header v msg kb vals bs mr ea (f : Transport -> RMessage -> rd (RMessage * option Z)) Q :
  sends_to v (mt_recver (rm_meta msg)) ea -> push_data v msg kb vals bs -> registered v vals mr ->
  (forall tr, tr_ipc tr = None -> runs (f tr (mkRMsg (push_header (rm_meta msg) kb vals mr) (rm_data msg))) v Q) ->
  runs (msg ← (if valid_pushpull msg then msg ← AddMeta msg; PackWorkerTensorAddress msg else mret msg);
        trans ← GetTransport ea; f trans msg) v Q.
Proof.
  intros [_ (e & tr & He & Htr & Hipc)] Hd Hreg HQ. rrun. rewrite (surjective_RMessage msg) in *.
  rewrite push_meta_valid by apply Hd. rrun. eapply AddMeta_push; [done..|]. apply PackWorkerTensorAddress_push.
  { destruct Hd as [? _ _ ? ? _]. apply push_header_meta; [done|lia]. }
  rrun. apply (GetTransport_ok _ e tr); [done..|]. by apply HQ.
Qed.

Lemma SendMsg_ready v msg kb vals bs ea tup mb mr ri room Q : host_ok (v_host v) ->
  sends_to v (mt_recver (rm_meta msg)) ea -> push_data v msg kb vals bs -> h_posted (v_host v) = [] ->
  ready v (mt_recver (rm_meta msg)) (DecodeKey kb) (raw_len (rm_meta msg)) room vals tup mb mr ri ->
  (forall packed, Z.of_nat (length packed) = raw_len (rm_meta msg) ->
     (forall m0, UnpackMeta packed m0 = Ok (arrives (push_header (rm_meta msg) kb vals mr) m0)) ->
     Q (mkRMsg (push_header (rm_meta msg) kb vals mr) (rm_data msg), Some (s32 (raw_len (rm_meta msg) + mt_data_size (rm_meta msg))))
       (let mb' := mkMsgBuf (mb_inline_len mb) (mb_inline_buf mb) (rm_data msg) (mb_mrs mb) in
        set_posted (push_requests ea room vals tup mb' mr ri)
          (set_mem (mem_put (h_mem (v_host v)) (mb_inline_buf mb) packed)
             (set_msg_bufs (<[rt_buf tup := mb']> (b_msg_bufs (v_tabs v))) v)))) ->
  runs (SendMsg msg) v Q.
Proof.
  intros Hok Hto Hd Hpo Hre HQ. pose proof Hd as [Hpm Hrec _ Hsz Haddr _]. pose proof (raw_len_bounds _ (pm_wf _ Hpm)) as Hlb.
  pose proof Hre as [Hra Hrb _ [Hrl _] [Hri Hril] Htens _ _ _]. destruct (ho_mr _ Hok _ _ Hri) as [Hrin Hria].
  destruct (host_ok_region_pos _ _ Hok Hrin) as [Hpos _]. destruct (ho_regions _ Hok _ Hrin) as (_ & Hmap & _).
  unfold RdmaVan.SendMsg. rewrite GetPackMetaLen_ok by apply Hpm. rrun. apply runs_CHECK; [b2p; done|]. rrun.
  rewrite (st_endpoint _ _ _ Hto). rrun. apply runs_CHECK; [b2p; lia|]. rrun. eapply RegisterMemory_known; [done..|].
  eapply SendMsg_header; [done..|]. intros tr Hipc. pose proof (push_header_meta _ kb vals mr Hpm ltac:(lia)) as Hph.
  rewrite push_meta_valid by done. cbn [rm_meta rm_data]. unfold HasRemoteInfo, GetRemoteAndLocalInfo, addr_map.
  change (mt_push (push_header (rm_meta msg) kb vals mr)) with (mt_push (rm_meta msg)). rewrite (pm_push _ Hpm).
  change (mt_key (push_header (rm_meta msg) kb vals mr)) with (DecodeKey kb). rrun. rewrite Hra, bool_decide_true by by eexists.
  cbn [negb]. rrun. rewrite Hra. unfold get_msg_buf. rrun. apply (runs_deref _ mb); [done|]. rrun. apply runs_CHECK; [b2p; rewrite u64_small by lia; lia|].
  rrun. apply runs_CHECK; [b2p; lia|]. rrun. set (mb' := mkMsgBuf _ _ _ _) in *. apply pack_into_ok; [apply Hph| |].
  { change (raw_len (push_header _ _ _ _)) with (raw_len (rm_meta msg)). destruct v as [[] [] ?]. cbn in *. rewrite <- Hria.
    rewrite <- (Z.add_0_r (mr_addr ri)). eapply mapped_part; [exact Hmap|lia|lia]. }
  intros packed Hpl Hpu. unfold send_pushpull. cbn [rm_meta].
  change (mt_push (push_header (rm_meta msg) kb vals mr)) with (mt_push (rm_meta msg)).
  change (mt_request (push_header (rm_meta msg) kb vals mr)) with (mt_request (rm_meta msg)). rewrite (pm_push _ Hpm), (pm_request _ Hpm).
  rrun. eapply (SendPushRequest_ready _ _ _ (mt_recver (rm_meta msg)) (DecodeKey kb) (raw_len (rm_meta msg)) room vals tup mb' mr ri); [done| |by destruct v as [[] [] ?]|].
  { destruct Hre as [R1 R2 R3 R4 R5 R6 R7 R8 R9]. destruct v as [[] [] ?]. cbn in *. split; cbn; try done. by rewrite lookup_insert_eq. }
  rrun. apply (HQ packed) in Hpu; [|done]. by destruct v as [[] [] ?].
Qed.

(** ** The writes of a push *)

(** What the receiver keeps for a push: the region that was allocated for it,
    and the context behind the index. *)
Record target (v : RdmaVan) (L room n : Z) (tup : RemoteTuple) (bxp kl ll : Z) : Prop := {
  tg_region : exists r, r ∈ h_regions (v_host v) /\ mr_rkey r = rt_rkey tup /\ mr_addr r = rt_addr tup /\ room + n <= mr_length r;
  tg_pool : GetAddress (b_pool (v_tabs v)) (rt_idx tup) = Ok bxp;
  tg_ctx : b_buf_ctxs (v_tabs v) !! bxp = Some (mkBufCtx (rt_addr tup) L 3 [kl; n; ll]) }.

Lemma align_ceil_le L ps room : 0 < ps < 2 ^ 20 -> 0 <= L < 2 ^ 31 -> align_ceil L ps = Ok room -> L <= room < L + ps.
Proof.
  intros Hp HL H. destruct (align_ceil_spec L ps) as (r & Hr & Hb & _); [lia..|]. rewrite H in Hr. injection Hr as ->. done.
Qed.

(** Two writes to memory that is there, the second before the first. *)
Lemma two_writes (v : RdmaVan) a1 bs1 a2 bs2 : host_ok (v_host v) ->
  mapped (h_mem (v_host v)) a1 (Z.of_nat (length bs1)) -> mapped (h_mem (v_host v)) a2 (Z.of_nat (length bs2)) ->
  a2 + Z.of_nat (length bs2) <= a1 ->
  let m := mem_put (mem_put (h_mem (v_host v)) a1 bs1) a2 bs2 in
  host_ok (v_host (set_mem m v)) /\ grows (v_host v) (v_host (set_mem m v)) /\
  mem_bytes m a1 (length bs1) = Some bs1 /\ mem_bytes m a2 (length bs2) = Some bs2.
Proof.
  intros Hok H1 H2 Hap m. destruct (host_ok_put _ a1 bs1 Hok H1) as [Hok1 Hg1].
  destruct (host_ok_put _ a2 bs2 Hok1) as [Hok2 Hg2]; [by apply mapped_put|]. split; [done|]. split; [by etrans|]. split.
  - unfold m. rewrite mem_put_apart by lia. apply mem_put_bytes.
  - apply mem_put_bytes.
Qed.

Lemma push_requests_flush fuel ea eb a b t room vals tup mb mr ri bxp kl ll bs packed :
  h_posted (v_host a) = push_requests ea room vals tup mb mr ri -> h_posted (v_host b) = [] ->
  readable (v_host a) (mkSge (sa_data vals) (sa_size vals) (mr_lkey mr)) bs ->
  readable (v_host a) (mkSge (mb_inline_buf mb) (mb_inline_len mb) (mr_lkey ri)) packed ->
  mb_inline_len mb = raw_len t -> (forall m0, UnpackMeta packed m0 = Ok (arrives t m0)) ->
  host_ok (v_host b) -> align_ceil (raw_len t) (h_pagesize (v_host b)) = Ok room -> meta_wf t ->
  0 < sa_size vals -> raw_len t + sa_size vals + 12 < 2 ^ 31 ->
  target b (raw_len t) room (sa_size vals) tup bxp kl ll -> (3 <= fuel)%nat ->
  exists m, flush fuel ea eb a b = Ok (true, set_posted [] a, received eb bxp (set_mem m b)) /\
    host_ok (v_host (set_mem m b)) /\ grows (v_host b) (v_host (set_mem m b)) /\
    push_arrived (set_mem m b) t (rt_addr tup) (sa_size vals) bs.
Proof.
  intros Hpa Hpb Hrv Hri Hlen Hun Hok Hroom Hwf Hs Hlt [(r & Hr & Hk & Ha & Hl) Hpool Hctx] Hf.
  pose proof (raw_len_bounds t Hwf) as Hlb. pose proof (ho_page _ Hok) as Hps.
  pose proof (align_ceil_le (raw_len t) _ room Hps ltac:(lia) Hroom) as Hrb.
  pose proof (mem_bytes_length _ _ _ _ (proj1 Hrv)) as Hbl. pose proof (mem_bytes_length _ _ _ _ (proj1 Hri)) as Hpl. cbn [sg_length sg_addr] in Hbl, Hpl.
  destruct (ho_regions _ Hok r Hr) as (_ & Hmap & _).
  destruct (two_writes b (rt_addr tup + room) bs (rt_addr tup) packed Hok) as (Hok' & Hg & Hb1 & Hb2).
  { rewrite <- Ha. eapply mapped_part; [exact Hmap|lia..]. }
  { rewrite <- Ha, <- (Z.add_0_r (mr_addr r)). eapply mapped_part; [exact Hmap|lia..]. }
  { lia. }
  set (m := mem_put _ _ packed) in *. exists m. split; [|split; [done|split; [done|]]].
  - destruct fuel as [|[|[|fuel]]]; [lia..|]. unfold push_requests in Hpa.
    rewrite (flush_step _ ea eb a b (set_posted [(ea, imm_request mb (rt_buf tup) ri tup)] a)
      (set_mem (mem_put (h_mem (v_host b)) (rt_addr tup + room) bs) b)); [|by rewrite Hpa|].
    2: { eapply step_write; [exact Hpa|done|]. exists r. split; [done|]. split; [done|]. unfold in_region. cbn [sg_length]. lia. }
    rewrite (flush_step _ ea eb _ _ (set_posted [] a) (received eb bxp (set_mem m b))); [|by destruct a as [[] ? ?]|].
    2: { unfold imm_request. erewrite step_write_imm; [|done|exact Hri| |exact Hpool].
      - by destruct a as [[] ? ?], b as [[] [] []].
      - exists r. split; [done|]. split; [done|]. unfold in_region. cbn [sg_length]. lia. }
    apply flush_done; [by destruct a as [[] ? ?]|by destruct b as [[] [] []]].
  - split.
    + exists packed. split; [|done]. rewrite <- Hlen, <- Hpl. done.
    + lia.
    + exists room. by split.
Qed.

(** ** The first push of a tensor *)

Record reg_only (v v' : RdmaVan) : Prop := {
  rg_ok : host_ok (v_host v');
  rg_grows : grows (v_host v) (v_host v');
  rg_mem : h_mem (v_host v') = h_mem (v_host v);
  rg_brk : h_brk (v_host v') = h_brk (v_host v);
  rg_posted : h_posted (v_host v') = h_posted (v_host v);
  rg_tabs : exists M, b_mem_mr (v_tabs v) ⊆ M /\ v_tabs v' = v_tabs (set_mem_mr M v);
  rg_conn : v_conn v' = v_conn v }.

(** Of three arrays the second is registered, unless it has been. *)
Lemma register_three k vals l v Q : host_ok (v_host v) -> 0 < sa_size k -> 0 < sa_size vals < 2 ^ 31 ->
  0 <= sa_data vals /\ sa_data vals + sa_size vals < 2 ^ 64 -> mapped (h_mem (v_host v)) (sa_data vals) (sa_size vals) ->
  b_mem_mr (v_tabs v) !! sa_data vals = None \/ (exists mr, registered v vals mr) ->
  (forall mr v', registered v' vals mr -> reg_only v v' -> Q tt v') -> runs (register_arrays ibv_reg_mr [k; vals; l] 0) v Q.
Proof.
  intros Hok Hk Hs Ha Hv Hknown HQ. cbn [register_arrays].
  rewrite (proj2 (Z.eqb_neq (sa_size k) 0)), (proj2 (Z.eqb_neq (sa_size vals) 0)) by lia. rrun.
  change (0 =? 1) with false. rewrite andb_false_r. rrun. change (0 + 1 =? 1) with true. destruct Hknown as [Hnone|[mr Hreg]].
  - rewrite Hnone, bool_decide_eq_true_2 by done. cbn [andb]. rrun. unfold register. rrun.
    destruct (reg_mr_ok (h_regions (v_host v)) (sa_data vals) (sa_size vals)) as (lk & rk & -> & Hlk & Hrk). rrun.
    set (mr := mkMr (sa_data vals) (sa_size vals) lk rk).
    assert (HQ' : Q tt (set_mem_mr (<[sa_data vals := mr]> (b_mem_mr (v_tabs v))) (set_regions (h_regions (v_host v) ++ [mr]) v))).
    { apply (HQ mr); destruct v as [[ps m b rs mrs po] [] c]; cbn in *.
      - split; [cbn; by rewrite lookup_insert_eq|]. split; [done|]. split; [cbn; set_solver|cbn; lia].
      - split; cbn; try done; [| |eexists; split; [by apply insert_subseteq|done]].
        + destruct Hok as [H1 H2 H3 H4 H5]. cbn in *. split; cbn; try done.
          * intros r [Hr| ->%list_elem_of_singleton]%elem_of_app; [by apply H4|]. cbn. repeat split; try lia; try apply Hlk; try apply Hrk. exact Hv.
          * intros p r Hp. destruct (H5 p r Hp). split; [set_solver|done].
        + split; cbn; try done. intros r Hr. set_solver. }
    case_match; rrun; [done|]. change (0 + 1 + 1 =? 1) with false. rewrite andb_false_r. by rrun.
  - destruct Hreg as (Hmr & Hrest). rewrite Hmr, (bool_decide_eq_false_2 (Some mr = None)) by done. cbn [andb]. rrun.
    assert (HQ' : Q tt v).
    { apply (HQ mr); [by split|]. split; try done. exists (b_mem_mr (v_tabs v)). split; [done|]. by destruct v as [? [] ?]. }
    case_match; rrun; [done|]. change (0 + 1 + 1 =? 1) with false. rewrite andb_false_r. by rrun.
Qed.

Lemma RegisterMemory_ok v msg kb vals bs Q : host_ok (v_host v) -> push_data v msg kb vals bs ->
  b_mem_mr (v_tabs v) !! sa_data vals = None \/ (exists mr, registered v vals mr) ->
  (forall mr v', registered v' vals mr -> reg_only v v' -> Q tt v') -> runs (RegisterMemory ibv_reg_mr msg) v Q.
Proof.
  intros Hok [Hpm _ (k & l & Hdt & Hk & _) Hs Ha Hv] Hknown HQ. unfold RegisterMemory. rewrite Hdt.
  pose proof (raw_len_bounds _ (pm_wf _ Hpm)). apply register_three; try done; [lia|]. by eexists.
Qed.

(** The state of the sender while the rendezvous is under way, for a message with
    meta data [t] and arrays [d], whose buffer has the regions [mrs]. *)
Record started (v0 v : RdmaVan) (ea c : Z) (q : list Z) (t : Meta) (d : list SA) (mrs : list (Mr * Z)) (ri : Mr) (p : Z) (packed : list Z) : Prop := {
  sd_ok : host_ok (v_host v);
  sd_grows : grows (v_host v0) (v_host v);
  sd_brk : h_brk (v_host v) <= h_brk (v_host v0) + 2 ^ 31;
  sd_below : same_below v0 v;
  sd_conn : v_conn v = v_conn (set_eps (alter (ep_set_start q) ea (n_eps (v_conn v0))) v0);
  sd_posted : h_posted (v_host v) =
    [(ea, WrSend (StartCtx c) (PStart (mkStart (raw_len t) (Z.of_nat (length d)) (map sa_size d) (b_next (v_tabs v0)))))];
  sd_tabs : exists M, b_mem_mr (v_tabs v0) ⊆ M /\ v_tabs v =
    let b := v_tabs v0 in
    mkTables M (b_pool b) (b_next b + 1) (b_buf_ctxs b)
      (<[b_next b := mkMsgBuf (raw_len t) p d mrs]> (b_msg_bufs b))
      (b_push_addr b) (b_pull_addr b) (<[b_next b := mkRMsg t d]> (b_cache b)) (b_tensor_info b) (b_recv_buffers b);
  sd_buf : h_mr (v_host v) !! p = Some ri /\ raw_len t <= mr_length ri /\ h_brk (v_host v0) <= p;
  sd_packed : mem_bytes (h_mem (v_host v)) p (Z.to_nat (raw_len t)) = Some packed /\
    forall m0, UnpackMeta packed m0 = Ok (arrives t m0) }.

(** [PrepareNewMsgBuf] and [StoreMsgBuf]. *)
Lemma PrepareNewMsgBuf_ok t d v Q : host_ok (v_host v) -> meta_wf t -> raw_len t < 2 ^ 30 -> h_brk (v_host v) < 2 ^ 63 ->
  b_cache (v_tabs v) !! b_next (v_tabs v) = None ->
  (forall p ri packed v', h_brk (v_host v) <= p -> host_ok (v_host v') -> grows (v_host v) (v_host v') -> same_below v v' ->
     h_brk (v_host v') <= h_brk (v_host v) + 2 ^ 31 ->
     h_posted (v_host v') = h_posted (v_host v) -> v_conn v' = v_conn v ->
     h_mr (v_host v') !! p = Some ri -> raw_len t <= mr_length ri ->
     mem_bytes (h_mem (v_host v')) p (Z.to_nat (raw_len t)) = Some packed -> (forall m0, UnpackMeta packed m0 = Ok (arrives t m0)) ->
     v_tabs v' = (let b := v_tabs v in
       mkTables (b_mem_mr b) (b_pool b) (b_next b + 1) (b_buf_ctxs b) (<[b_next b := mkMsgBuf (raw_len t) p d []]> (b_msg_bufs b))
         (b_push_addr b) (b_pull_addr b) (<[b_next b := mkRMsg t d]> (b_cache b)) (b_tensor_info b) (b_recv_buffers b)) ->
     Q (b_next (v_tabs v)) v') ->
  runs (msg_buf ← PrepareNewMsgBuf ibv_reg_mr (mkRMsg t d); StoreMsgBuf msg_buf (mkRMsg t d);; mret msg_buf) v Q.
Proof.
  intros Hok Hwf Hl Hbrk Hfresh HQ. pose proof (raw_len_bounds t Hwf) as Hlb. unfold PrepareNewMsgBuf. cbn [rm_meta rm_data].
  rewrite GetPackMetaLen_ok by done. rewrite u64_small by lia. rrun. apply Alloc_ok; [done|lia|done|].
  intros p ri v1 Hp [Hg1 Hb1 Hok1 Hpo1 Ht1 Hc1] Hs1 Hri Hril. rrun. destruct (ho_mr _ Hok1 _ _ Hri) as [Hrin Hria].
  destruct (ho_regions _ Hok1 _ Hrin) as (_ & Hmap & _).
  assert (Hm : mapped (h_mem (v_host v1)) p (raw_len t)).
  { rewrite <- Hria, <- (Z.add_0_r (mr_addr ri)). eapply mapped_part; [exact Hmap|lia..]. }
  apply pack_into_ok; [done..|]. intros packed Hpl Hpu. unfold new_object, StoreMsgBuf. rrun.
  destruct (host_ok_put (v_host v1) p packed Hok1) as [Hok2 Hg2]; [by rewrite Hpl|].
  apply runs_CHECK. { apply bool_decide_eq_true. destruct v as [? [] ?], v1 as [[] [] ?]. cbn in *. by injection Ht1 as -> -> -> -> -> -> -> -> -> ->. }
  rrun. destruct v as [[] [] ?], v1 as [[] [] ?]. cbn in *. injection Ht1 as -> -> -> -> -> -> -> -> -> ->. subst.
  apply (HQ (mr_addr ri) ri packed); cbn; try done.
  - etrans; [exact Hg1|]. exact Hg2.
  - intros i Hi. cbn in *. rewrite mem_put_lookup, decide_False by lia. by apply Hs1.
  - replace (Z.to_nat (raw_len t)) with (length packed) by lia. apply mem_put_bytes.
Qed.

Lemma runs_seq_ret {A B} (x : rd A) (y : A -> rd unit) (f : A -> rd B) v Q :
  runs (a ← x; y a;; mret a) v (fun a v' => runs (f a) v' Q) -> runs (a ← x; y a;; f a) v Q.
Proof.
  intros (a & v' & H & b & v'' & Hf & HQ). exists b, v''. split; [|done]. revert H. unfold mbind, stm_bind, mret, stm_ret.
  destruct (x v) as [[a1 v1]| | |]; [|done..]. destruct (y a1 v1) as [[u v2]| | |]; [|done..]. by intros [= <- <-].
Qed.

Lemma PrepareData_push t d vals mr p v Q : push_meta t -> d !! 1%nat = Some vals -> 0 < sa_size vals ->
  forall buf, b_msg_bufs (v_tabs v) !! buf = Some (mkMsgBuf (raw_len t) p d []) -> registered v vals mr ->
  Q tt (set_msg_bufs (<[buf := mkMsgBuf (raw_len t) p d [(mr, sa_size vals)]]> (b_msg_bufs (v_tabs v))) v) ->
  runs (PrepareData (mkRMsg t d) buf) v Q.
Proof.
  intros [_ Hp Hr _ _ _] Hd Hs buf Hb [Hmr _] HQ. unfold PrepareData, get_msg_buf, find_mr. cbn [rm_meta]. rewrite Hp, Hr. cbn [andb negb].
  rrun. eapply runs_deref; [exact Hb|]. rrun. apply (runs_deref _ vals); [done|]. rewrite (proj2 (Z.eqb_neq (sa_size vals) 0)) by lia.
  rrun. rewrite Hmr. rrun. done.
Qed.

Lemma SendRendezvousBegin_ok ep e c q t d buf mb v Q : n_eps (v_conn v) !! ep = Some e -> ep_free_start_ctx e = c :: q ->
  b_msg_bufs (v_tabs v) !! buf = Some mb -> mb_data mb = d -> mb_inline_len mb = raw_len t -> (length d <= 4)%nat ->
  h_posted (v_host v) = [] ->
  Q true (set_posted [(ep, WrSend (StartCtx c) (PStart (mkStart (raw_len t) (Z.of_nat (length d)) (map sa_size d) buf)))]
            (set_eps (alter (ep_set_start q) ep (n_eps (v_conn v))) v)) ->
  runs (SendRendezvousBegin ibv_post_send ep (mkRMsg t d) buf) v Q.
Proof.
  intros He Hq Hb Hd Hl Hlen Hpo HQ. unfold SendRendezvousBegin, get_endpoint, modify_endpoint, get_msg_buf. rrun.
  apply (runs_deref _ e); [done|]. rewrite Hq. rrun. apply (runs_deref _ mb); [by destruct v as [? [] ?]|]. rrun. rewrite Hd. cbn [rm_data].
  apply runs_DEFINED. { unfold kMaxDataFields. b2p; [lia|]. apply Nat.leb_le. done. }
  rrun. rewrite take_ge by done. apply post_send_runs; [destruct v as [[] ? []]; cbn in *; by rewrite Hpo|]. rrun. rewrite Hl.
  destruct v as [[] ? []]. cbn in *. by subst.
Qed.

Lemma SendMsg_first v msg kb vals bs ea e c q Q : host_ok (v_host v) -> h_brk (v_host v) < 2 ^ 63 ->
  sends_to v (mt_recver (rm_meta msg)) ea -> n_eps (v_conn v) !! ea = Some e -> ep_free_start_ctx e = c :: q ->
  push_data v msg kb vals bs -> raw_len (rm_meta msg) < 2 ^ 30 -> h_posted (v_host v) = [] ->
  b_mem_mr (v_tabs v) !! sa_data vals = None \/ (exists mr, registered v vals mr) ->
  b_push_addr (v_tabs v) !! (DecodeKey kb, mt_recver (rm_meta msg)) = None ->
  b_cache (v_tabs v) !! b_next (v_tabs v) = None ->
  (forall mr ri p packed v', started v v' ea c q (push_header (rm_meta msg) kb vals mr) (rm_data msg) [(mr, sa_size vals)] ri p packed ->
     registered v' vals mr ->
     Q (mkRMsg (push_header (rm_meta msg) kb vals mr) (rm_data msg), Some (s32 (raw_len (rm_meta msg) + mt_data_size (rm_meta msg)))) v') ->
  runs (SendMsg msg) v Q.
Proof.
  intros Hok Hbrk Hto He Hq Hd Hl Hpo Hmr Hna Hfresh HQ. pose proof Hd as [Hpm Hrec (k & l & Hdt & _) Hsz Haddr _].
  pose proof (raw_len_bounds _ (pm_wf _ Hpm)) as Hlb.
  unfold RdmaVan.SendMsg. rewrite GetPackMetaLen_ok by apply Hpm. rrun. apply runs_CHECK; [b2p; done|]. rrun.
  rewrite (st_endpoint _ _ _ Hto). rrun. apply runs_CHECK; [b2p; lia|]. rrun. eapply RegisterMemory_ok; [done..|].
  intros mr v1 Hreg [Hok1 Hg1 Hm1 Hb1 Hpo1 (M & HM & Ht1) Hc1].
  assert (Hd1 : push_data v1 msg kb vals bs). { destruct Hd as [D1 D2 D3 D4 D5 D6]. split; try done; by rewrite Hm1. }
  assert (Hto1 : sends_to v1 (mt_recver (rm_meta msg)) ea) by (destruct Hto as [T1 T2]; split; by rewrite Hc1).
  eapply SendMsg_header; [done..|]. intros tr Hipc. pose proof (push_header_meta _ kb vals mr Hpm ltac:(lia)) as Hph.
  rewrite push_meta_valid by done. cbn [rm_meta rm_data]. unfold HasRemoteInfo, addr_map.
  change (mt_push (push_header (rm_meta msg) kb vals mr)) with (mt_push (rm_meta msg)). rewrite (pm_push _ Hpm).
  change (mt_key (push_header (rm_meta msg) kb vals mr)) with (DecodeKey kb). rrun.
  rewrite bool_decide_false by (rewrite Ht1; destruct v as [? [] ?]; cbn in *; rewrite Hna; by intros [? ?]). cbn [negb].
  set (t1 := push_header (rm_meta msg) kb vals mr) in *. apply runs_seq_ret.
  apply PrepareNewMsgBuf_ok; [done|apply Hph|exact Hl|by rewrite Hb1|rewrite Ht1; by destruct v as [? [] ?]|].
  intros p ri packed v2 Hp Hok2 Hg2 Hs2 Hb2 Hpo2 Hc2 Hri Hril Hpk Hun Ht2. rrun. change (raw_len t1) with (raw_len (rm_meta msg)) in *.
  assert (Hreg2 : registered v2 vals mr).
  { destruct Hreg as (R1 & R2 & R3 & R4). split; [by rewrite Ht2|]. split; [done|]. split; [by apply Hg2|done]. }
  apply (PrepareData_push t1 (rm_data msg) vals mr p); [done|by rewrite Hdt|lia| |done|].
  { rewrite Ht2. cbn. by rewrite lookup_insert_eq. }
  rrun. rewrite Ht1. eapply (SendRendezvousBegin_ok ea e c q t1 (rm_data msg) _ (mkMsgBuf (raw_len t1) p (rm_data msg) [(mr, sa_size vals)])); [|done| |reflexivity|reflexivity|by rewrite Hdt; cbn; lia| |].
  { destruct v2 as [? [] ?]. cbn in *. by rewrite Hc2, Hc1. }
  { destruct v2 as [? [] ?]. cbn. by rewrite lookup_insert_eq. }
  { destruct v2 as [[] [] ?]. cbn in *. by rewrite Hpo2, Hpo1. }
  rrun. eapply (HQ mr ri p packed); [|by destruct v2 as [[] [] ?]]. clear HQ.
  destruct v as [[] [] []], v1 as [[] [] ?], v2 as [[] [] []]. cbn in *. injection Ht1 as -> -> -> -> -> -> -> -> -> ->.
  injection Ht2 as -> -> -> -> -> -> -> -> -> ->. subst. injection Hc2 as -> -> -> -> -> -> -> ->. cbn in *.
  split; cbn; try done.
  - destruct Hok2; by split.
  - destruct Hg1, Hg2; cbn in *. split; cbn; [congruence|lia|auto..].
  - eexists. split; [exact HM|]. by rewrite insert_insert_eq.
Qed.
End fabric.
