(* ===== verification/RdmaRendezvous.v ===== *)
(** The rendezvous of the RDMA van, whatever the message: the request, the memory
    that the receiver gives, its answer, and the writes that the answer lets the
    sender post. *)

From S2P Require Import Prelude State Bytes Memory PsMessage Ps Resender RdmaMem RdmaUtils RdmaState RdmaTransport RdmaVan RdmaDelivery.

Section rendezvous.
Context {vb : Verbs}.
Context (shm_open_mmap : list Z -> option Z).

Notation flush := (flush shm_open_mmap).
Notation fabric_step := (fabric_step shm_open_mmap).
Notation on_completion := (on_completion ibv_reg_mr ibv_post_send shm_open_mmap).
Notation PollCQ := (PollCQ ibv_reg_mr ibv_post_send shm_open_mmap).
Notation send_pushpull := (send_pushpull ibv_post_send shm_open_mmap).

(** ** The answer of the receiver *)

(** Slots that are free. *)
Definition spare (v : RdmaVan) (n : Z) : Prop :=
  exists N M, pool_rel N (b_pool (v_tabs v)) M /\ Z.of_nat (size M) + n <= N.

(** A pool with a free slot gives a number for a pointer, and keeps the others. *)
Lemma StoreAddress_ok N p M ptr : pool_rel N p M -> Z.of_nat (size M) < N ->
  exists idx p', StoreAddress p (Some ptr) = Ok (idx, p') /\ GetAddress p' idx = Ok ptr /\
    pool_rel N p' (<[idx := ptr]> M) /\ M !! idx = None.
Proof.
  intros Hp Hs. destruct (pool_step N p M (OpStore ptr) Hp Hs) as (idx & p' & M' & Hrun & Hstep & Hp').
  inversion Hstep; subst. exists idx, p'. split; [done|]. split; [|done]. unfold GetAddress.
  rewrite (pr_table _ _ _ Hp') by done. by rewrite lookup_insert_eq.
Qed.

Lemma StoreAddress_keeps p ptr idx p' i c : StoreAddress p (Some ptr) = Ok (idx, p') -> GetAddress p i = Ok c -> GetAddress p' i = Ok c.
Proof.
  unfold StoreAddress, GetAddress. destruct (ap_indices p) as [|j q]; [done|].
  destruct (ap_table p !! Z.to_nat j) as [e|] eqn:Hj; [|done]. cbn. destruct (bool_decide_reflect (e = None)) as [->|]; [|done].
  cbn. intros [= <- <-]. cbn. destruct (decide (Z.to_nat i = Z.to_nat j)) as [->|Hne]; [by rewrite Hj|].
  by rewrite list_lookup_insert_ne by done.
Qed.

(** The memory that a receiver allocates for a request. *)
Definition granted_size (tr : Transport) (room : Z) (req : RendezvousStart) : Z :=
  if tr_is_server tr then u64 (room + sum_u64 (rs_data_len req)) else rs_meta_len req.

(** What the answer leaves at the receiver: [n] bytes at [buffer] that the sender
    may write to, and a context behind the number [idx]. *)
Record granted (b b' : RdmaVan) (eb rc : Z) (qr : list Z) (req : RendezvousStart) (n buffer rkey idx : Z) : Prop := {
  gt_ok : host_ok (v_host b');
  gt_grows : grows (v_host b) (v_host b');
  gt_brk : h_brk (v_host b') <= h_brk (v_host b) + 2 ^ 31;
  gt_below : same_below b b';
  gt_posted : h_posted (v_host b') = [(eb, WrSend (ReplyCtx rc) (PReply (mkReply buffer (rs_origin_addr req) rkey idx)))];
  gt_conn : v_conn b' = v_conn (set_eps (alter (ep_set_reply qr) eb (n_eps (v_conn b))) b);
  gt_tabs : exists pool, StoreAddress (b_pool (v_tabs b)) (Some (b_next (v_tabs b))) = Ok (idx, pool) /\
    v_tabs b' = let t := v_tabs b in
      mkTables (b_mem_mr t) pool (b_next t + 1)
        (<[b_next t := mkBufCtx buffer (rs_meta_len req) (rs_data_num req) (rs_data_len req)]> (b_buf_ctxs t))
        (b_msg_bufs t) (b_push_addr t) (b_pull_addr t) (b_cache t) (b_tensor_info t) (b_recv_buffers t);
  gt_get : GetAddress (b_pool (v_tabs b')) idx = Ok (b_next (v_tabs b));
  gt_region : exists r, r ∈ h_regions (v_host b') /\ mr_rkey r = rkey /\ mr_addr r = buffer /\ n <= mr_length r;
  gt_addr : h_brk (v_host b) <= buffer /\ buffer + n < 2 ^ 64 }.

Lemma SendRendezvousReply_ok eb tr req b e rc qr room n Q :
  host_ok (v_host b) -> h_brk (v_host b) < 2 ^ 63 ->
  n_eps (v_conn b) !! eb = Some e -> ep_free_reply_ctx e = rc :: qr -> h_posted (v_host b) = [] -> spare b 1 ->
  rs_data_num req = Z.of_nat (length (rs_data_len req)) -> (length (rs_data_len req) <= 4)%nat ->
  align_ceil (rs_meta_len req) (h_pagesize (v_host b)) = Ok room ->
  granted_size tr room req = n -> 0 < n < 2 ^ 30 ->
  (forall buffer rkey idx b', granted b b' eb rc qr req n buffer rkey idx -> Q true b') ->
  runs (SendRendezvousReply ibv_reg_mr ibv_post_send eb tr req) b Q.
Proof.
  intros Hok Hbrk He Hrc Hpo (N & M & Hpool & Hsize) Hnum Hlen Hroom Hn Hnb HQ. unfold SendRendezvousReply.
  rrun. apply runs_DEFINED; [unfold kMaxDataFields; b2p; lia|]. rrun.
  eapply runs_lift; [exact Hroom|]. rewrite take_ge by lia. fold (granted_size tr room req). rewrite Hn. rrun. apply Alloc_ok; [done|lia|done|].
  intros p mr v1 Hp [Hg1 Hb1 Hok1 Hpo1 Ht1 Hc1] Hs1 Hmr Hl. destruct (ho_mr _ Hok1 _ _ Hmr) as [Hin Ha].
  destruct (ho_regions _ Hok1 _ Hin) as (_ & _ & Hend & _). pose proof (ho_brk _ Hok) as Hb0.
  rrun. apply runs_CHECK; [b2p; lia|]. unfold new_object, get_endpoint, modify_endpoint, RemoteKey, Addr2MR. rrun.
  apply (runs_deref _ e). { destruct v1 as [? [] ?]. cbn in *. by rewrite Hc1. }
  rewrite Hrc. rrun. replace (h_mr _ !! p) with (Some mr) by (destruct v1 as [[] [] []]; cbn in *; congruence). rrun.
  destruct (StoreAddress_ok N (b_pool (v_tabs b)) M (b_next (v_tabs b)) Hpool ltac:(lia)) as (idx & p' & Hst & Hget & _).
  apply (runs_lift _ (idx, p')). { rewrite <- Ht1 in Hst. exact Hst. }
  rrun. apply post_send_runs. { destruct v1 as [[] [] []]. cbn in *. by rewrite Hpo1, Hpo. }
  rrun. cbn [fst snd]. apply (HQ p (mr_rkey mr) idx); clear HQ.
  destruct b as [[] [] []], v1 as [[] [] []]; cbn in *; injection Ht1 as -> -> -> -> -> -> -> -> -> ->;
    injection Hc1 as -> -> -> -> -> -> -> ->; subst; cbn in *. split; cbn; try done.
  - destruct Hok1; by split.
  - destruct Hg1. by split.
  - by exists p'.
  - by exists mr.
  - lia.
Qed.

(** ** Completions *)

Lemma PollCQ_one wc v v' : on_completion true wc v = Ok (true, v') -> PollCQ [(true, wc)] v = Ok (true, v').
Proof. intros H. cbn [RdmaVan.PollCQ]. by rewrite (st_bind_Ok _ _ _ _ _ H). Qed.

(** The sender's context is free again, and the receiver handles the message. *)
Lemma step_send eb a b ep ctx payload rest a' b' :
  h_posted (v_host a) = (ep, WrSend ctx payload) :: rest ->
  ReleaseWorkRequestContext ctx ep (set_posted rest a) = Ok (tt, a') ->
  on_completion true (WcRecv eb (ReceiveCtx 0) true payload) b = Ok (true, b') ->
  fabric_step eb a b = Ok (true, a', b').
Proof.
  intros Hp Hr Hb. unfold RdmaDelivery.fabric_step. rewrite Hp.
  destruct (transfer_send ep eb (v_host (set_posted rest a)) (v_host b) ctx payload) as [i ->].
  rewrite (PollCQ_one (WcSend ep ctx) _ a').
  2: { unfold RdmaVan.on_completion. cbn [CHECK]. unfold mbind at 1, stm_bind at 1, st_lift. cbn [mbind outcome_bind].
       by rewrite (st_bind_Ok _ _ _ _ _ Hr). }
  cbn [mbind outcome_bind]. replace (set_mem (h_mem (v_host b)) b) with b by (by destruct b as [[] ? ?]).
  by rewrite (PollCQ_one (WcRecv eb (ReceiveCtx i) true payload) b b').
Qed.

Definition with_start_ctx (c ea : Z) (v : RdmaVan) : RdmaVan :=
  set_eps (alter (fun e => ep_set_start (ep_free_start_ctx e ++ [c]) e) ea (n_eps (v_conn v))) v.
Definition with_reply_ctx (c eb : Z) (v : RdmaVan) : RdmaVan :=
  set_eps (alter (fun e => ep_set_reply (ep_free_reply_ctx e ++ [c]) e) eb (n_eps (v_conn v))) v.
Definition with_recv (ep : Z) (v : RdmaVan) : RdmaVan := set_eps (alter Rdma_PostRecv ep (n_eps (v_conn v))) v.
Definition with_addr (is_push : bool) (key peer : Z) (tup : RemoteTuple) (v : RdmaVan) : RdmaVan :=
  if is_push then set_push_addr (<[(key, peer) := tup]> (b_push_addr (v_tabs v))) v
  else set_pull_addr (<[(key, peer) := tup]> (b_pull_addr (v_tabs v))) v.

(** The request for a rendezvous. *)
Lemma on_start eb tr req b e b' : n_eps (v_conn b) !! eb = Some e -> ep_trans e = Some tr ->
  SendRendezvousReply ibv_reg_mr ibv_post_send eb tr req b = Ok (true, b') ->
  on_completion true (WcRecv eb (ReceiveCtx 0) true (PStart req)) b = Ok (true, with_recv eb b').
Proof.
  intros He Htr Hs. unfold RdmaVan.on_completion. destruct (GetTransport_ok eb e tr b (fun t v => t = tr /\ v = b) He Htr) as (? & ? & Hg & -> & ->); [done|].
  unfold mbind, stm_bind, CHECK, st_lift. cbn [mbind outcome_bind]. rewrite Hg, Hs. reflexivity.
Qed.

(** The answer, for a data message that waits for it. *)
Lemma on_reply ea a e tr t d reqs buffer bufp rkey idx Q :
  let tup := mkTuple buffer rkey idx bufp in
  let a1 := with_addr (mt_push t) (mt_key t) (mt_recver t) tup a in
  n_eps (v_conn a) !! ea = Some e -> ep_trans e = Some tr -> b_cache (v_tabs a) !! bufp = Some (mkRMsg t d) ->
  valid_pushpull (mkRMsg t d) = true ->
  (forall Q', (Q' tt (set_posted reqs a1) : Prop) -> runs (send_pushpull tr ea (mkRMsg t d) bufp tup) a1 Q') ->
  Q true (with_recv ea (set_cache (delete bufp (b_cache (v_tabs a))) (set_posted reqs a1))) ->
  runs (on_completion true (WcRecv ea (ReceiveCtx 0) true (PReply (mkReply buffer bufp rkey idx)))) a Q.
Proof.
  intros tup a1 He Htr Hc Hv Hsend HQ. unfold RdmaVan.on_completion, OnRendezvousReply, StoreRemoteAndLocalInfo, GetFirstMsg,
    set_addr_map, GetRemoteAndLocalInfo, ReleaseFirstMsg, modify_endpoint.
  cbn [rr_addr rr_rkey rr_idx rr_origin_addr]. rrun. apply runs_CHECK; [done|]. rrun. apply runs_CHECK; [done|]. rrun. rewrite Hc. rrun.
  cbn [rm_meta]. unfold a1, with_addr in *. destruct (mt_push t) eqn:Hp; unfold addr_map; rrun; fold tup.
  all: cbn [set_push_addr set_pull_addr v_tabs b_cache b_push_addr b_pull_addr]; rewrite Hc; rrun; cbn [rm_meta]; rewrite Hp; rrun.
  all: cbn [set_push_addr set_pull_addr v_tabs b_cache b_push_addr b_pull_addr]; rewrite lookup_insert_eq; rrun.
  all: apply (GetTransport_ok _ e tr); [by destruct a as [? [] []]|done|]; rewrite Hv; cbn [negb]; rrun; apply Hsend; rrun.
  all: apply runs_CHECK; [apply bool_decide_eq_true; exists (mkRMsg t d); destruct a as [[] [] ?]; cbn in *; done|].
  all: rrun; unfold ReleaseWorkRequestContext, modify_endpoint; rrun; exact HQ.
Qed.

(** ** The rendezvous *)

(** From the request to the writes that the answer lets the sender post: [reqs]
    is what [send_pushpull] posts when it knows the address. *)
Lemma rendezvous fuel a0 a b ea eb e c q er rc qr tr trb t d mrs ri p packed room n reqs :
  let req := mkStart (raw_len t) (Z.of_nat (length d)) (map sa_size d) (b_next (v_tabs a0)) in
  let tup buffer rkey idx := mkTuple buffer rkey idx (b_next (v_tabs a0)) in
  let addressed buffer rkey idx := with_addr (mt_push t) (mt_key t) (mt_recver t) (tup buffer rkey idx) (with_start_ctx c ea (set_posted [] a)) in
  started a0 a ea c q t d mrs ri p packed ->
  n_eps (v_conn a) !! ea = Some e -> ep_trans e = Some tr -> valid_pushpull (mkRMsg t d) = true ->
  host_ok (v_host b) -> h_brk (v_host b) < 2 ^ 63 -> h_posted (v_host b) = [] -> spare b 1 ->
  n_eps (v_conn b) !! eb = Some er -> ep_free_reply_ctx er = rc :: qr -> ep_trans er = Some trb ->
  (length d <= 4)%nat -> align_ceil (raw_len t) (h_pagesize (v_host b)) = Ok room ->
  granted_size trb room req = n -> 0 < n < 2 ^ 30 ->
  (forall buffer rkey idx b1 Q', granted b b1 eb rc qr req n buffer rkey idx ->
     Q' tt (set_posted (reqs (tup buffer rkey idx)) (addressed buffer rkey idx)) ->
     runs (send_pushpull tr ea (mkRMsg t d) (b_next (v_tabs a0)) (tup buffer rkey idx)) (addressed buffer rkey idx) Q') ->
  exists buffer rkey idx b1, granted b b1 eb rc qr req n buffer rkey idx /\
    flush (S (S fuel)) ea eb a b =
      flush fuel ea eb
        (with_recv ea (set_cache (delete (b_next (v_tabs a0)) (b_cache (v_tabs a))) (set_posted (reqs (tup buffer rkey idx)) (addressed buffer rkey idx))))
        (with_reply_ctx rc eb (set_posted [] (with_recv eb b1))).
Proof.
  intros req tup addressed [Sok Sg Sbk Sb Sc Spo (Mm & _ & St) _ _] He Htr Hv Hokb Hbrk Hqb Hsp Her Hrc Htrb Hd Hroom Hn Hnb Hsend.
  destruct (SendRendezvousReply_ok eb trb req b er rc qr room n
    (fun r b' => r = true /\ exists buffer rkey idx, granted b b' eb rc qr req n buffer rkey idx))
    as (r & b1 & Hrun & -> & buffer & rkey & idx & Hgt); try done.
  { cbn. by rewrite length_map. }
  { cbn. by rewrite length_map. }
  { intros buffer rkey idx b' Hgt. split; [done|]. by exists buffer, rkey, idx. }
  exists buffer, rkey, idx, b1. split; [done|]. set (a1 := with_start_ctx c ea (set_posted [] a)).
  destruct (on_reply ea a1 (ep_set_start (ep_free_start_ctx e ++ [c]) e) tr t d (reqs (tup buffer rkey idx)) buffer (b_next (v_tabs a0)) rkey idx
    (fun r v => r = true /\ v = with_recv ea (set_cache (delete (b_next (v_tabs a0)) (b_cache (v_tabs a1)))
       (set_posted (reqs (tup buffer rkey idx)) (addressed buffer rkey idx))))) as (r & a2 & Hrep & -> & ->); try done.
  { cbn. by rewrite lookup_alter_eq, He. }
  { change (b_cache (v_tabs a) !! b_next (v_tabs a0) = Some (mkRMsg t d)). rewrite St. cbn. by rewrite lookup_insert_eq. }
  { intros Q' HQ'. by eapply Hsend. }
  rewrite (flush_step shm_open_mmap (S fuel) ea eb a b a1 (with_recv eb b1)); [|by rewrite Spo|].
  - apply flush_back; [done|by cbn; rewrite (gt_posted _ _ _ _ _ _ _ _ _ _ Hgt)|].
    eapply step_send; [exact (gt_posted _ _ _ _ _ _ _ _ _ _ Hgt)|reflexivity|exact Hrep].
  - eapply step_send; [exact Spo|reflexivity|]. by eapply on_start.
Qed.
End rendezvous.
