(* ===== verification/RdmaFrame.v ===== *)
(** What an exchange of a message leaves at a process of the RDMA van: nothing
    that was set up is lost, so that the rendezvous of one message stays good
    while others are exchanged. *)

From S2P Require Import Prelude State Bytes Memory PsMessage Ps Resender RdmaMem RdmaUtils RdmaState RdmaTransport RdmaVan RdmaDelivery RdmaRendezvous.

(** Every object that the tables mention has been made. *)
Record objects_below (v : RdmaVan) : Prop := {
  ob_ctxs : forall i, is_Some (b_buf_ctxs (v_tabs v) !! i) -> i < b_next (v_tabs v);
  ob_bufs : forall i, is_Some (b_msg_bufs (v_tabs v) !! i) -> i < b_next (v_tabs v);
  ob_cache : forall i, is_Some (b_cache (v_tabs v) !! i) -> i < b_next (v_tabs v) }.

(** A buffer keeps its memory and regions, whatever it is used for. *)
Definition buffer_like (mb mb' : MessageBuffer) : Prop :=
  mb_inline_len mb' = mb_inline_len mb /\ mb_inline_buf mb' = mb_inline_buf mb /\ mb_mrs mb' = mb_mrs mb.

(** An endpoint stays what it is, and does not run out of contexts. *)
Definition endpoint_like (e e' : Endpoint) : Prop :=
  ep_trans e' = ep_trans e /\ ep_node_id e' = ep_node_id e /\
  (ep_free_start_ctx e <> [] -> ep_free_start_ctx e' <> []) /\ (ep_free_reply_ctx e <> [] -> ep_free_reply_ctx e' <> []).

(** [v'] comes after [v]: at most [bytes] were allocated and [slots] of the
    address pool taken. *)
Record frame (bytes slots : Z) (v v' : RdmaVan) : Prop := {
  fm_grows : grows (v_host v) (v_host v');
  fm_brk : h_brk (v_host v') <= h_brk (v_host v) + bytes;
  fm_mem_mr : b_mem_mr (v_tabs v) ⊆ b_mem_mr (v_tabs v');
  fm_pool : forall i c, GetAddress (b_pool (v_tabs v)) i = Ok c -> GetAddress (b_pool (v_tabs v')) i = Ok c;
  fm_spare : forall n, 0 <= n -> spare v (n + slots) -> spare v' n;
  fm_ctxs : b_buf_ctxs (v_tabs v) ⊆ b_buf_ctxs (v_tabs v');
  fm_bufs : forall i mb, b_msg_bufs (v_tabs v) !! i = Some mb -> exists mb', b_msg_bufs (v_tabs v') !! i = Some mb' /\ buffer_like mb mb';
  fm_push : b_push_addr (v_tabs v) ⊆ b_push_addr (v_tabs v');
  fm_pull : b_pull_addr (v_tabs v) ⊆ b_pull_addr (v_tabs v');
  fm_info : b_tensor_info (v_tabs v) ⊆ b_tensor_info (v_tabs v');
  fm_queue : b_recv_buffers (v_tabs v') = b_recv_buffers (v_tabs v);
  fm_objects : objects_below v -> objects_below v';
  fm_node : n_my_node (v_conn v') = n_my_node (v_conn v);
  fm_endpoints : n_endpoints (v_conn v') = n_endpoints (v_conn v);
  fm_eps : forall i e, n_eps (v_conn v) !! i = Some e -> exists e', n_eps (v_conn v') !! i = Some e' /\ endpoint_like e e' }.

#[global] Instance buffer_like_refl : Reflexive buffer_like.
Proof. done. Qed.
#[global] Instance buffer_like_trans : Transitive buffer_like.
Proof. unfold buffer_like. intros m1 m2 m3. intuition congruence. Qed.
#[global] Instance endpoint_like_refl : Reflexive endpoint_like.
Proof. done. Qed.
#[global] Instance endpoint_like_trans : Transitive endpoint_like.
Proof. unfold endpoint_like. intros e1 e2 e3. intuition congruence. Qed.

Lemma frame_trans b1 b2 s1 s2 v1 v2 v3 : 0 <= s2 -> frame b1 s1 v1 v2 -> frame b2 s2 v2 v3 -> frame (b1 + b2) (s1 + s2) v1 v3.
Proof.
  intros Hs [F1 F2 F3 F4 F5 F6 F7 F8 F9 F10 F11 F12 F13 F14 F15] [G1 G2 G3 G4 G5 G6 G7 G8 G9 G10 G11 G12 G13 G14 G15].
  split; try (by etrans); try congruence; auto; [lia| | |].
  - intros n Hn Hsp. apply G5; [done|]. apply F5; [lia|]. by replace (n + s2 + s1) with (n + (s1 + s2)) by lia.
  - intros i mb Hmb. destruct (F7 i mb Hmb) as (mb1 & H1 & L1). destruct (G7 i mb1 H1) as (mb2 & H2 & L2). exists mb2. split; [done|by etrans].
  - intros i e He. destruct (F15 i e He) as (e1 & H1 & L1). destruct (G15 i e1 H1) as (e2 & H2 & L2). exists e2. split; [done|by etrans].
Qed.

Lemma spare_le v n m : m <= n -> spare v n -> spare v m.
Proof. intros Hm (N & M & Hp & Hs). exists N, M. split; [done|lia]. Qed.

Lemma frame_weaken b1 b2 s1 s2 v1 v2 : b1 <= b2 -> s1 <= s2 -> frame b1 s1 v1 v2 -> frame b2 s2 v1 v2.
Proof.
  intros Hb Hs [F1 F2 F3 F4 F5 F6 F7 F8 F9 F10 F11 F12 F13 F14 F15]. split; try done; [lia|].
  intros n Hn Hsp. apply F5; [done|]. eapply spare_le; [|done]. lia.
Qed.

(** A process that only receives registers nothing and learns no address. *)
Record recv_frame (bytes slots : Z) (v v' : RdmaVan) : Prop := {
  rf_frame : frame bytes slots v v';
  rf_mem_mr : b_mem_mr (v_tabs v') = b_mem_mr (v_tabs v);
  rf_pull : b_pull_addr (v_tabs v') = b_pull_addr (v_tabs v) }.

Lemma recv_frame_trans b1 b2 s1 s2 v1 v2 v3 : 0 <= s2 -> recv_frame b1 s1 v1 v2 -> recv_frame b2 s2 v2 v3 -> recv_frame (b1 + b2) (s1 + s2) v1 v3.
Proof. intros Hs [F1 E1 P1] [F2 E2 P2]. split; [by eapply frame_trans|congruence..]. Qed.

(** ** Both ends of a connection *)

(** The process talks to the node [peer] through the endpoint [ep]: nothing is
    under way, and the endpoint is connected and has free contexts. *)
Record talks (v : RdmaVan) (peer ep : Z) (is_server : bool) : Prop := {
  tk_host : host_ok (v_host v);
  tk_quiet : h_posted (v_host v) = [];
  tk_queue : b_recv_buffers (v_tabs v) = [];
  tk_objects : objects_below v;
  tk_to : n_endpoints (v_conn v) !! peer = Some ep;
  tk_ep : exists e tr, n_eps (v_conn v) !! ep = Some e /\ ep_trans e = Some tr /\ tr_ipc tr = None /\ tr_is_server tr = is_server /\
    ep_node_id e = peer /\ ep_free_start_ctx e <> [] /\ ep_free_reply_ctx e <> [] }.

Lemma talks_frame bytes slots v v' peer ep srv : talks v peer ep srv -> frame bytes slots v v' -> host_ok (v_host v') ->
  h_posted (v_host v') = [] -> talks v' peer ep srv.
Proof.
  intros [T1 T2 T3 T4 T5 (e & tr & He & H)] [F1 F2 F3 F4 F5 F6 F7 F8 F9 F10 F11 F12 F13 F14 F15] Hok Hpo. split; try done.
  - by rewrite F11.
  - auto.
  - by rewrite F14.
  - destruct (F15 ep e He) as (e' & He' & L1 & L2 & L3 & L4). exists e', tr. rewrite He', L1, L2. destruct H as (? & ? & ? & ? & ? & ?). repeat split; auto.
Qed.

Lemma objects_fresh v : objects_below v -> b_buf_ctxs (v_tabs v) !! b_next (v_tabs v) = None /\
  b_msg_bufs (v_tabs v) !! b_next (v_tabs v) = None /\ b_cache (v_tabs v) !! b_next (v_tabs v) = None.
Proof. intros [H1 H2 H3]. repeat split; apply eq_None_not_Some; intros H; [apply H1 in H|apply H2 in H|apply H3 in H]; lia. Qed.

Lemma eps_alter (m m' : gmap Z Endpoint) i f : m' = alter f i m -> (forall e, endpoint_like e (f e)) ->
  forall j e, m !! j = Some e -> exists e', m' !! j = Some e' /\ endpoint_like e e'.
Proof.
  intros -> Hf j e He. destruct (decide (j = i)) as [->|Hne].
  - exists (f e). by rewrite lookup_alter_eq, He.
  - exists e. by rewrite lookup_alter_ne, He by done.
Qed.

(** ** The operations of an exchange *)

(** A process whose tables and connections are as they were. *)
Lemma frame_host bytes v v' : 0 <= bytes -> grows (v_host v) (v_host v') -> h_brk (v_host v') <= h_brk (v_host v) + bytes ->
  v_tabs v' = v_tabs v -> v_conn v' = v_conn v -> frame bytes 0 v v'.
Proof.
  intros Hb Hg Hk Ht Hc. split; rewrite ?Ht, ?Hc; try done.
  - intros n Hn. unfold spare. by rewrite Ht, Z.add_0_r.
  - intros i mb Hmb. by exists mb.
  - intros [O1 O2 O3]. split; by rewrite Ht.
  - intros i e He. by exists e.
Qed.

(** The sender of a known message: registration, and a buffer that is used again. *)
Lemma frame_reg_only v v' : reg_only v v' -> frame 0 0 v v'.
Proof.
  intros [R1 R2 R3 R4 R5 (M & HM & Ht) Hc]. split; rewrite ?Ht, ?Hc; try done.
  - lia.
  - intros n Hn. unfold spare. by rewrite Ht, Z.add_0_r.
  - intros i mb Hmb. by exists mb.
  - intros [O1 O2 O3]. split; by rewrite Ht.
  - intros i e He. by exists e.
Qed.

Lemma frame_buffer v i mb mb' : b_msg_bufs (v_tabs v) !! i = Some mb -> buffer_like mb mb' ->
  frame 0 0 v (set_msg_bufs (<[i := mb']> (b_msg_bufs (v_tabs v))) v).
Proof.
  intros Hi Hl. split; try done; cbn; try lia.
  - intros n Hn. unfold spare. by rewrite Z.add_0_r.
  - intros j y Hj. destruct (decide (j = i)) as [->|Hne].
    + exists mb'. rewrite lookup_insert_eq. split; [done|]. by replace y with mb by congruence.
    + exists y. by rewrite lookup_insert_ne by done.
  - intros [O1 O2 O3]. split; cbn; try done. intros j. destruct (decide (j = i)) as [->|Hne]; [intros _; apply O2; eauto|].
    rewrite lookup_insert_ne by done. apply O2.
  - intros j e He. by exists e.
Qed.

(** The receiver of a message that has arrived and been taken. *)
Lemma frame_received eb bxp m v v1 n : mem_only n (set_recv_buffers (b_recv_buffers (v_tabs v)) (received eb bxp (set_mem m v))) v1 ->
  grows (v_host v) (v_host (set_mem m v)) -> 0 <= n -> recv_frame n 0 v v1.
Proof.
  intros [M1 M2 M3 M4 M5 M6] Hg Hn. split; [|by rewrite M5..]. split; rewrite ?M5, ?M6; try done.
  - etrans; [exact Hg|exact M1].
  - intros k Hk. unfold spare. rewrite M5. by rewrite Z.add_0_r.
  - intros i mb Hmb. by exists mb.
  - intros [O1 O2 O3]. split; by rewrite M5.
  - intros j e He. cbn. eapply eps_alter; [reflexivity| |done]. done.
Qed.

Lemma frame_took q t v : b_tensor_info (v_tabs v) !! (mt_key t, mt_sender t) = None \/
    b_tensor_info (v_tabs v) !! (mt_key t, mt_sender t) = Some (mt_val_len t, mt_addr t, mt_option t) -> recv_frame 0 0 v (took q t v).
Proof.
  intros H. split; [|done..]. split; try done; cbn; try lia.
  - intros n Hn. unfold spare. by rewrite Z.add_0_r.
  - intros i mb Hmb. by exists mb.
  - destruct H as [H|H]; [by apply insert_subseteq|by rewrite insert_id].
  - intros [O1 O2 O3]. by split.
  - intros j e He. by exists e.
Qed.

(** The sender of a first message, from the request to the writes. *)
Lemma frame_sender v0 v ea e c q t d mrs ri p packed tup reqs : objects_below v0 ->
  n_eps (v_conn v0) !! ea = Some e -> ep_free_start_ctx e = c :: q ->
  started v0 v ea c q t d mrs ri p packed ->
  (if mt_push t then b_push_addr (v_tabs v0) else b_pull_addr (v_tabs v0)) !! (mt_key t, mt_recver t) = None ->
  frame (2 ^ 31) 0 v0 (set_posted [] (with_recv ea (set_cache (delete (b_next (v_tabs v0)) (b_cache (v_tabs v)))
    (set_posted reqs (with_addr (mt_push t) (mt_key t) (mt_recver t) tup (with_start_ctx c ea (set_posted [] v))))))).
Proof.
  intros Hob He Hc [Sok Sg Sbk Sb Sc Spo (M & HM & St) _ _] Hnone. destruct (objects_fresh v0 Hob) as (F1 & F2 & F3). destruct Hob as [O1 O2 O3].
  destruct v as [h tt cc]. cbn in Sc, St. subst tt cc. unfold with_addr. destruct (mt_push t) eqn:Hp; cbn in Hnone; split; cbn.
  all: try done; try (by destruct Sg; split); try exact Sbk; try (by apply insert_subseteq).
  all: try (intros n Hn; unfold spare; cbn; by rewrite Z.add_0_r).
  all: try (intros i mb Hmb; exists mb; split; [|done]; rewrite lookup_insert_ne; [done|]; intros <-; congruence).
  all: try (intros _; split; cbn; [intros i Hi; specialize (O1 i Hi); lia| |]; intros i; destruct (decide (i = b_next (v_tabs v0))) as [->|Hne];
    try lia; rewrite ?lookup_insert_ne, ?lookup_delete_ne, ?lookup_insert_ne by done; intros Hi; [apply O2 in Hi|apply O3 in Hi]; lia).
  all: intros i e0 Hi; destruct (decide (i = ea)) as [->|Hne]; [|exists e0; by rewrite !lookup_alter_ne by done].
  all: rewrite !lookup_alter_eq, Hi; cbn; eexists; split; [reflexivity|]; replace e0 with e by congruence; split; [done|]; split; [done|]; cbn; split; [|done].
  all: intros _; by destruct q.
Qed.

(** The receiver of a first message, up to its answer. *)
Lemma frame_granted v v1 eb e rc qr req n buffer rkey idx : objects_below v ->
  n_eps (v_conn v) !! eb = Some e -> ep_free_reply_ctx e = rc :: qr ->
  granted v v1 eb rc qr req n buffer rkey idx ->
  recv_frame (2 ^ 31) 1 v (with_reply_ctx rc eb (set_posted [] (with_recv eb v1))).
Proof.
  intros Hob He Hc [Gok Gg Gb Gbe Gpo Gc (pool & Hst & Gt) Gget Greg Ga]. destruct (objects_fresh v Hob) as (F1 & F2 & F3). destruct Hob as [O1 O2 O3].
  destruct v1 as [h tt cc]. cbn in Gc, Gt. subst tt cc. split; [|done..]. split; cbn.
  all: try done; try (by destruct Gg; split).
  - intros i c Hi. by eapply StoreAddress_keeps.
  - intros k Hk (N & M & Hp & Hs). destruct (StoreAddress_ok N _ M (b_next (v_tabs v)) Hp ltac:(lia)) as (idx' & p' & Hst' & _ & Hp' & Hno).
    rewrite Hst in Hst'. injection Hst' as <- <-. exists N, (<[idx := b_next (v_tabs v)]> M). split; [done|].
    rewrite map_size_insert_None by done. lia.
  - by apply insert_subseteq.
  - intros i mb Hmb. by exists mb.
  - intros _. split; cbn; intros i; [|intros Hi; apply O2 in Hi; lia|intros Hi; apply O3 in Hi; lia].
    destruct (decide (i = b_next (v_tabs v))) as [->|Hne]; [lia|]. rewrite lookup_insert_ne by done. intros Hi. apply O1 in Hi. lia.
  - intros i e0 Hi. destruct (decide (i = eb)) as [->|Hne]; [|exists e0; by rewrite !lookup_alter_ne by done].
    rewrite !lookup_alter_eq, Hi. cbn. eexists. split; [reflexivity|]. replace e0 with e by congruence. split; [done|]. split; [done|]. cbn. split; [done|].
    intros _. by destruct qr.
Qed.

(** ** A worker and a server *)

Definition node_id (v : RdmaVan) : Z := n_id (n_my_node (v_conn v)).

Record linked (a b : RdmaVan) (ea eb : Z) : Prop := {
  lk_a : talks a (node_id b) ea false;
  lk_b : talks b (node_id a) eb true;
  lk_page : h_pagesize (v_host a) = h_pagesize (v_host b) }.

Lemma node_id_frame bytes slots v v' : frame bytes slots v v' -> node_id v' = node_id v.
Proof. intros F. unfold node_id. by rewrite (fm_node _ _ _ _ F). Qed.

Lemma linked_frame k1 s1 k2 s2 a b a' b' ea eb : linked a b ea eb -> frame k1 s1 a a' -> frame k2 s2 b b' ->
  host_ok (v_host a') -> h_posted (v_host a') = [] -> host_ok (v_host b') -> h_posted (v_host b') = [] -> linked a' b' ea eb.
Proof.
  intros [La Lb Lp] Fa Fb Ha Hpa Hb Hpb. split.
  - rewrite (node_id_frame _ _ _ _ Fb). by eapply talks_frame.
  - rewrite (node_id_frame _ _ _ _ Fa). by eapply talks_frame.
  - by rewrite (gr_page _ _ (fm_grows _ _ _ _ Fa)), (gr_page _ _ (fm_grows _ _ _ _ Fb)).
Qed.

(** Ranges of memory that do not overlap. *)
Definition apart (a n b k : Z) : Prop := a + n <= b \/ b + k <= a.

Lemma talks_sends v peer ep srv : talks v peer ep srv -> sends_to v peer ep.
Proof. intros [_ _ _ _ H (e & tr & ? & ? & ? & _)]. split; [done|]. by exists e, tr. Qed.
