(* ===== verification/RdmaPush.v ===== *)
(** The pushes of a tensor over the RDMA van: the rendezvous of the first one,
    the writes of the later ones, and what the server receives. *)

From S2P Require Import Prelude State Bytes Memory PsMessage Ps Resender RdmaMem RdmaUtils RdmaState RdmaTransport RdmaVan RdmaDelivery RdmaRendezvous RdmaFrame.

Section push.
Context {vb : Verbs}.
Context (shm_open_mmap : list Z -> option Z).

Notation flush := (flush shm_open_mmap).
Notation exchange := (exchange shm_open_mmap).
Notation SendMsg := (SendMsg ibv_reg_mr ibv_post_send shm_open_mmap).
Notation RecvMsg := (RecvMsg shm_open_mmap).

(** ** What later exchanges leave *)

Lemma registered_frame k n v v' vals mr : registered v vals mr -> frame k n v v' -> registered v' vals mr.
Proof. intros (H1 & H2 & H3 & H4) F. split; [by eapply lookup_weaken, F|]. split; [done|]. split; [by apply F|done]. Qed.

Lemma target_frame k n v v' L room size tup bxp kl ll : target v L room size tup bxp kl ll -> frame k n v v' ->
  target v' L room size tup bxp kl ll.
Proof.
  intros [(r & Hr & ? & ? & ?) Hp Hc] F. split; [|by apply F|by eapply lookup_weaken, F]. exists r. split; [by apply F|done].
Qed.

Lemma ready_frame k n v v' peer key L room vals tup mb mr ri : ready v peer key L room vals tup mb mr ri -> frame k n v v' ->
  exists mb', buffer_like mb mb' /\ ready v' peer key L room vals tup mb' mr ri.
Proof.
  intros [R1 R2 R3 [R4 R4'] [R5 R5'] R6 R7 R8 R9] F. destruct (fm_bufs _ _ _ _ F _ _ R2) as (mb' & Hb & Hl). exists mb'. split; [done|].
  destruct Hl as (L1 & L2 & L3). split; rewrite ?L1, ?L2, ?L3; try done.
  - by eapply lookup_weaken, F.
  - split; [by apply F|done].
  - by eapply registered_frame.
  - by rewrite (gr_page _ _ (fm_grows _ _ _ _ F)).
Qed.

(** The bytes that the two requests of a push carry. *)
Record loaded (a : RdmaVan) (t : Meta) (vals : SA) (mb : MessageBuffer) (bs packed : list Z) : Prop := {
  ld_vals : mem_bytes (h_mem (v_host a)) (sa_data vals) (Z.to_nat (sa_size vals)) = Some bs;
  ld_meta : mem_bytes (h_mem (v_host a)) (mb_inline_buf mb) (Z.to_nat (raw_len t)) = Some packed;
  ld_unpack : forall m0, UnpackMeta packed m0 = Ok (arrives t m0) }.

Lemma loaded_readable a t vals mb bs packed peer key room tup mr ri : host_ok (v_host a) -> loaded a t vals mb bs packed ->
  ready a peer key (raw_len t) room vals tup mb mr ri ->
  readable (v_host a) (mkSge (sa_data vals) (sa_size vals) (mr_lkey mr)) bs /\
  readable (v_host a) (mkSge (mb_inline_buf mb) (mb_inline_len mb) (mr_lkey ri)) packed.
Proof.
  intros Hok [Hv Hm _] [_ _ _ [Hl HL] [Hri Hril] (_ & Ha & Hin & Hlen) Hs _ _]. destruct (ho_mr _ Hok _ _ Hri) as [Hrin Hria].
  split; split; cbn [sg_addr sg_length sg_lkey]; [done| |by rewrite Hl|].
  - exists mr. split; [done|]. split; [done|]. unfold in_region. lia.
  - exists ri. split; [done|]. split; [done|]. unfold in_region. lia.
Qed.

(** The second half of a push: what was posted arrives, and the server takes the
    message. *)
Lemma finish_push fuel ea eb a b t key room vals tup mb mr ri bxp kl ll bs packed m0 :
  host_ok (v_host a) -> talks b (node_id a) eb true -> h_pagesize (v_host a) = h_pagesize (v_host b) ->
  h_posted (v_host a) = push_requests ea room vals tup mb mr ri ->
  ready a (node_id b) key (raw_len t) room vals tup mb mr ri -> loaded a t vals mb bs packed ->
  target b (raw_len t) room (sa_size vals) tup bxp kl ll ->
  push_meta t -> ct_node (mt_control m0) = [] -> raw_len t + sa_size vals + 12 < 2 ^ 31 ->
  b_tensor_info (v_tabs b) !! (mt_key t, node_id a) = None \/ tensor_known b (node_id a) t -> (3 <= fuel)%nat ->
  let t' := arrives t (set_ends m0 (node_id a) (node_id b) (mt_timestamp m0)) in
  exists b1 msg len b2, flush fuel ea eb a b = Ok (true, set_posted [] a, b1) /\ RecvMsg m0 b1 = Ok (Some (msg, len), b2) /\
    push_received b2 t' bs msg /\ recv_frame 64 0 b b2 /\ host_ok (v_host b2) /\ h_posted (v_host b2) = [] /\ tensor_known b2 (node_id a) t.
Proof.
  intros Hoka Htb Hpg Hpo Hre Hld Htg Hpm H0 Hlt Hti Hf t'. pose proof Htb as [Hokb Hqb Hrb _ _ (e & tr & He & Htr & Hipc & _ & Hnode & _)].
  destruct (loaded_readable _ _ _ _ _ _ _ _ _ _ _ _ Hoka Hld Hre) as [Hr1 Hr2]. pose proof Hre as [_ _ _ [Hl _] _ _ Hs _ [Hroom _]].
  destruct (push_requests_flush shm_open_mmap fuel ea eb a b t room vals tup mb mr ri bxp kl ll bs packed) as (m & Hfl & Hok1 & Hg1 & Harr);
    [done..|apply Hld|done|by rewrite <- Hpg|apply Hpm|lia|done|done|done|].
  set (b1 := received eb bxp (set_mem m b)) in *.
  destruct (RecvMsg_push shm_open_mmap b1 eb bxp [] (Rdma_PostRecv e) tr (rt_addr tup) (sa_size vals) bs kl ll t m0
    (fun r v => exists msg v1, r = Some (msg, raw_len t + (sa_size vals + 12)) /\ mem_only 64 (set_recv_buffers [] b1) v1 /\
       push_received v1 t' bs msg /\ v = took [] t' v1)) as (r & b2 & Hrun & msg & v1 & -> & Hmo & Hrec & ->).
  - done.
  - done.
  - done.
  - cbn. by rewrite Hrb.
  - apply Htg.
  - cbn. by rewrite lookup_alter_eq, He.
  - done.
  - done.
  - destruct Harr. by split.
  - cbn. rewrite Hnode. exact Hti.
  - cbn. rewrite Hnode. intros msg v1 Hmo Hrec. by exists msg, v1.
  - exists b1, msg, (raw_len t + (sa_size vals + 12)), (took [] t' v1). split; [done|]. split; [done|]. split; [done|]. split.
    + apply (recv_frame_trans 64 0 0 0 b v1 (took [] t' v1)); [done| |].
      * apply (frame_received eb bxp m); [by rewrite Hrb|done|done].
      * apply frame_took. rewrite (mo_tabs _ _ _ Hmo). exact Hti.
    + destruct Hmo as [Mg Mb Mok Mpo Mtabs Mconn]. split; [exact Mok|]. split; [by change (h_posted (v_host v1) = []); rewrite Mpo|].
      unfold tensor_known. cbn. by rewrite lookup_insert_eq.
Qed.

(** ** Pushes of one tensor *)

(** A tensor to push: the arrays of its key and its values, which stay where
    they are. *)
Record Tensor := mkTensor { tn_keys : SA; tn_key_bytes : list Z; tn_vals : SA; tn_lens : SA }.
Definition tn_data (x : Tensor) : list SA := [tn_keys x; tn_vals x; tn_lens x].
Definition tn_key (x : Tensor) : Z := DecodeKey (tn_key_bytes x).

(** The tensor [x] is in the memory of [v]. *)
Record tensor_at (v : RdmaVan) (x : Tensor) : Prop := {
  ta_keys : 0 < sa_size (tn_keys x) /\
    mem_bytes (h_mem (v_host v)) (sa_data (tn_keys x)) (Z.to_nat (sa_size (tn_keys x))) = Some (tn_key_bytes x);
  ta_vals : 0 < sa_size (tn_vals x) /\ 0 <= sa_data (tn_vals x) /\ sa_data (tn_vals x) + sa_size (tn_vals x) < 2 ^ 64 /\
    mapped (h_mem (v_host v)) (sa_data (tn_vals x)) (sa_size (tn_vals x));
  ta_apart : apart (sa_data (tn_keys x)) (sa_size (tn_keys x)) (sa_data (tn_vals x)) (sa_size (tn_vals x)) }.

Definition tn_contents (v : RdmaVan) (x : Tensor) : option (list Z) :=
  mem_bytes (h_mem (v_host v)) (sa_data (tn_vals x)) (Z.to_nat (sa_size (tn_vals x))).

(** The meta data of a push of [x] to [peer], [L] bytes long when packed. *)
Record push_of (x : Tensor) (peer L : Z) (t : Meta) : Prop := {
  po_meta : push_meta t;
  po_recver : mt_recver t = peer /\ peer <> kEmpty;
  po_len : raw_len t = L;
  po_size : L + sa_size (tn_vals x) + 12 < 2 ^ 29 }.

(** The rendezvous for the pushes of [x] has been made. *)
Record established (a b : RdmaVan) (ea eb : Z) (x : Tensor) (L : Z) : Prop := {
  es_linked : linked a b ea eb;
  es_tensor : tensor_at a x;
  es_sides : exists room tup mb mr ri bxp kl ll,
    ready a (node_id b) (tn_key x) L room (tn_vals x) tup mb mr ri /\
    target b L room (sa_size (tn_vals x)) tup bxp kl ll /\
    apart (sa_data (tn_keys x)) (sa_size (tn_keys x)) (mb_inline_buf mb) L /\
    b_tensor_info (v_tabs b) !! (tn_key x, node_id a) = Some (s32 (sa_size (tn_vals x)), sa_data (tn_vals x), s32 (mr_rkey mr)) }.

(** The meta data with which a push of [x] arrives. *)
Definition pushed_meta (x : Tensor) (sender recver : Z) (m0 t : Meta) (rkey : Z) : Meta :=
  arrives (set_tensor t (tn_key x) (sa_data (tn_vals x)) (s32 (sa_size (tn_vals x))) rkey) (set_ends m0 sender recver (mt_timestamp m0)).

Lemma push_data_of a x peer L t d bs : tensor_at a x -> tn_contents a x = Some bs -> push_of x peer L t -> d = tn_data x ->
  push_data a (mkRMsg t d) (tn_key_bytes x) (tn_vals x) bs.
Proof.
  intros [[Hk Hkb] (Hs & Ha0 & Ha & _) _] Hb [Hpm [Hr Hne] HL Hsz] ->. split; cbn [rm_meta rm_data]; try done; try lia.
  by exists (tn_keys x), (tn_lens x).
Qed.

(** Memory that a write elsewhere leaves. *)
Lemma tensor_at_put a x p bs : tensor_at a x -> apart (sa_data (tn_keys x)) (sa_size (tn_keys x)) p (Z.of_nat (length bs)) ->
  tensor_at (set_mem (mem_put (h_mem (v_host a)) p bs) a) x.
Proof.
  intros [[Hk Hkb] (Hs & Ha0 & Ha & Hm) Hap] Hp. split; [split; [done|]|split; [done|split; [done|split; [done|]]]|done].
  - change (mem_bytes (mem_put (h_mem (v_host a)) p bs) (sa_data (tn_keys x)) (Z.to_nat (sa_size (tn_keys x))) = Some (tn_key_bytes x)).
    rewrite mem_put_apart; [done|]. unfold apart in Hp. lia.
  - by apply mapped_put.
Qed.

Lemma tensor_at_mem v v' x : h_mem (v_host v') = h_mem (v_host v) -> tensor_at v x -> tensor_at v' x.
Proof. intros Hm [T1 T2 T3]. split; rewrite ?Hm; done. Qed.

(** The rendezvous stays good while other messages are exchanged. *)
Lemma established_frame k1 n1 k2 n2 a b a' b' ea eb x L : established a b ea eb x L -> linked a' b' ea eb -> tensor_at a' x ->
  frame k1 n1 a a' -> frame k2 n2 b b' -> established a' b' ea eb x L.
Proof.
  intros [_ _ (room & tup & mb & mr & ri & bxp & kl & ll & Hre & Htg & Hap & Hkn)] Hl Hta Fa Fb.
  destruct (ready_frame _ _ _ _ _ _ _ _ _ _ _ _ _ Hre Fa) as (mb' & (_ & Hbuf & _) & Hre'). split; [done..|].
  exists room, tup, mb', mr, ri, bxp, kl, ll. rewrite (node_id_frame _ _ _ _ Fa), (node_id_frame _ _ _ _ Fb), Hbuf.
  split; [done|]. split; [by eapply target_frame|]. split; [done|]. by eapply lookup_weaken, Fb.
Qed.

Lemma push_again fuel a b ea eb x L t m0 bs : established a b ea eb x L -> tn_contents a x = Some bs ->
  push_of x (node_id b) L t -> ct_node (mt_control m0) = [] -> (3 <= fuel)%nat ->
  exists msg len a' b' rkey, exchange fuel ea eb (mkRMsg t (tn_data x)) m0 a b = Ok (Some (msg, len), a', b') /\
    push_received b' (pushed_meta x (node_id a) (node_id b) m0 t rkey) bs msg /\
    established a' b' ea eb x L /\ frame 0 0 a a' /\ recv_frame 64 0 b b' /\ b_pull_addr (v_tabs a') = b_pull_addr (v_tabs a).
Proof.
  intros [Hlk Hta (room & tup & mb & mr & ri & bxp & kl & ll & Hre & Htg & Hap & Hkn)] Hbs Hpo H0 Hf.
  pose proof (push_data_of a x _ L t _ bs Hta Hbs Hpo eq_refl) as Hd. pose proof Hpo as [Hpm [Hrec Hne] HL Hsz].
  pose proof Hlk as [Hla Hlb Hpg]. pose proof (tk_host _ _ _ _ Hla) as Hoka. pose proof Hta as [_ (_ & Ha0 & Ha1 & _) _]. subst L.
  pose proof (raw_len_bounds t (pm_wf _ Hpm)) as Hlen. pose proof (talks_sends _ _ _ _ Hla) as Hto. rewrite <- Hrec in Hto, Hre.
  destruct (SendMsg_ready shm_open_mmap a (mkRMsg t (tn_data x)) (tn_key_bytes x) (tn_vals x) bs ea tup mb mr ri room
    (fun r a1 => exists packed, Z.of_nat (length packed) = raw_len t /\
       (forall m0, UnpackMeta packed m0 = Ok (arrives (push_header t (tn_key_bytes x) (tn_vals x) mr) m0)) /\
       a1 = set_posted (push_requests ea room (tn_vals x) tup (mkMsgBuf (mb_inline_len mb) (mb_inline_buf mb) (tn_data x) (mb_mrs mb)) mr ri)
          (set_mem (mem_put (h_mem (v_host a)) (mb_inline_buf mb) packed)
             (set_msg_bufs (<[rt_buf tup := mkMsgBuf (mb_inline_len mb) (mb_inline_buf mb) (tn_data x) (mb_mrs mb)]> (b_msg_bufs (v_tabs a))) a))))
    as (r & a1 & Hsend & packed & Hpl & Hun & Ha1'); [done..|apply Hla|done| |].
  { intros packed Hpl Hun. exists packed. done. }
  set (t1 := push_header t (tn_key_bytes x) (tn_vals x) mr) in *. set (mb' := mkMsgBuf _ _ _ _) in *.
  pose proof Hre as [R1 R2 R3 [R4 R4'] [R5 R5'] R6 R7 R8 R9]. destruct (ho_mr _ Hoka _ _ R5) as [Hrin Hria].
  destruct (ho_regions _ Hoka _ Hrin) as (_ & Hmap & _).
  destruct (host_ok_put (v_host a) (mb_inline_buf mb) packed Hoka) as [Hok1 Hg1].
  { rewrite <- Hria, <- (Z.add_0_r (mr_addr ri)). eapply mapped_part; [exact Hmap|lia..]. }
  assert (Fa : frame 0 0 a (set_posted [] a1)).
  { rewrite Ha1'. eapply (frame_trans 0 0 0 0); [done|by apply (frame_buffer a (rt_buf tup) mb mb')|].
    apply frame_host; [done| |cbn; lia|done|done]. destruct Hg1. by split. }
  assert (Hok2 : host_ok (v_host a1)) by (rewrite Ha1'; destruct Hok1; by split).
  assert (Hna : node_id a1 = node_id a) by (by rewrite Ha1'). rewrite Hrec in *.
  assert (Hre1 : ready a1 (node_id b) (tn_key x) (raw_len t1) room (tn_vals x) tup mb' mr ri).
  { rewrite Ha1'. destruct a as [[] [] ?]. cbn in *. split; cbn; try done. by rewrite lookup_insert_eq. }
  destruct (finish_push fuel ea eb a1 b t1 (tn_key x) room (tn_vals x) tup mb' mr ri bxp kl ll bs packed m0)
    as (b1 & msg & len & b2 & Hfl & Hrcv & Hgot & Rb & Hokb2 & Hqb2 & Hkn2); try done.
  - by rewrite Hna.
  - rewrite Ha1'. exact Hpg.
  - by rewrite Ha1'.
  - rewrite Ha1'. split; [| |done].
    + change (mem_bytes (mem_put (h_mem (v_host a)) (mb_inline_buf mb) packed) (sa_data (tn_vals x)) (Z.to_nat (sa_size (tn_vals x))) = Some bs).
      rewrite mem_put_apart; [done|]. lia.
    + change (mem_bytes (mem_put (h_mem (v_host a)) (mb_inline_buf mb) packed) (mb_inline_buf mb) (Z.to_nat (raw_len t)) = Some packed).
      replace (Z.to_nat (raw_len t)) with (length packed) by lia. apply mem_put_bytes.
  - apply push_header_meta; [done|lia].
  - change (raw_len t1) with (raw_len t). lia.
  - right. unfold tensor_known. rewrite Hna. exact Hkn.
  - pose proof (rf_frame _ _ _ _ Rb) as Fb. exists msg, len, (set_posted [] a1), b2, (s32 (mr_rkey mr)). rewrite Hna in *.
    split; [|split; [exact Hgot|split; [|split; [done|split; [done|by rewrite Ha1']]]]].
    + unfold RdmaDelivery.exchange. rewrite Hsend. cbn [mbind outcome_bind]. destruct r. rewrite Hfl. cbn. by rewrite Hrcv.
    + apply (established_frame 0 0 64 0 a b); [| | |done|done].
      * split; [done|done|]. rewrite <- Hrec in *. by exists room, tup, mb, mr, ri, bxp, kl, ll.
      * eapply linked_frame; [exact Hlk|exact Fa|exact Fb|by destruct Hok2; split|done..].
      * apply (tensor_at_mem (set_mem (mem_put (h_mem (v_host a)) (mb_inline_buf mb) packed) a)); [by rewrite Ha1'|].
        apply tensor_at_put; [done|by rewrite Hpl].
Qed.

(** ** The first push *)

(** What the first push needs besides a connection: room in the address pool and
    in memory, and no earlier push. *)
Record fresh (a b : RdmaVan) (x : Tensor) : Prop := {
  fr_spare : spare b 1;
  fr_brk : h_brk (v_host a) < 2 ^ 62 /\ h_brk (v_host b) < 2 ^ 62;
  fr_mr : b_mem_mr (v_tabs a) !! sa_data (tn_vals x) = None;
  fr_addr : b_push_addr (v_tabs a) !! (tn_key x, node_id b) = None;
  fr_info : b_tensor_info (v_tabs b) !! (tn_key x, node_id a) = None;
  fr_sizes : 0 <= sa_size (tn_keys x) < 2 ^ 20 /\ 0 <= sa_size (tn_lens x) < 2 ^ 20 }.

(** What the worker posts when it knows the address. *)
Lemma send_push_ready v ea tr t d peer key L room vals buf tup mb mr ri Q : push_meta t -> tr_ipc tr = None -> rt_buf tup = buf ->
  ready v peer key L room vals tup mb mr ri -> h_posted (v_host v) = [] ->
  Q tt (set_posted (push_requests ea room vals tup mb mr ri) v) ->
  runs (send_pushpull ibv_post_send shm_open_mmap tr ea (mkRMsg t d) buf tup) v Q.
Proof.
  intros Hpm Hipc <- Hre Hpo HQ. unfold send_pushpull. cbn [rm_meta]. rewrite (pm_push _ Hpm), (pm_request _ Hpm). by eapply SendPushRequest_ready.
Qed.

(** The worker when the answer has come. *)
Lemma ready_addressed a0 a b b1 x ea eb c q t mr ri p packed rc qr req room n buffer rkey idx :
  let tup := mkTuple buffer rkey idx (b_next (v_tabs a0)) in
  let mb := mkMsgBuf (raw_len t) p (tn_data x) [(mr, sa_size (tn_vals x))] in
  started a0 a ea c q t (tn_data x) [(mr, sa_size (tn_vals x))] ri p packed -> registered a (tn_vals x) mr ->
  host_ok (v_host a0) -> h_brk (v_host a0) <= p -> tensor_at a0 x -> push_meta t -> mt_key t = tn_key x ->
  granted b b1 eb rc qr req n buffer rkey idx -> room <= n -> 0 <= h_brk (v_host b) -> 0 <= room ->
  align_ceil (raw_len t) (h_pagesize (v_host a)) = Ok room -> sa_size (tn_vals x) < 2 ^ 31 ->
  ready (with_addr (mt_push t) (mt_key t) (mt_recver t) tup (with_start_ctx c ea (set_posted [] a)))
    (mt_recver t) (tn_key x) (raw_len t) room (tn_vals x) tup mb mr ri.
Proof.
  intros tup mb [Sok Sg Sbk Sb Sc Spo (Mm & _ & St) (Sri & Sril & Sp) _] Hreg Hok0 Hp Hta Hpm Hkey [_ _ _ _ _ _ _ _ _ [Ga1 Ga2]] Hrn Hb0 Hr0 Hroom Hsz.
  pose proof (raw_len_bounds t (pm_wf _ Hpm)) as Hlb. pose proof Hta as [_ (Hvs & Ha0 & Ha1 & Hvm) _]. unfold with_addr. rewrite (pm_push _ Hpm), Hkey.
  split; try done; try lia.
  - cbn. by rewrite lookup_insert_eq.
  - change (b_msg_bufs (v_tabs a) !! b_next (v_tabs a0) = Some mb). rewrite St. cbn. by rewrite lookup_insert_eq.
  - cbn. split; [done|lia].
  - cbn. right. assert (sa_data (tn_vals x) + sa_size (tn_vals x) <= h_brk (v_host a0)); [|lia]. rewrite mapped_spec in Hvm.
    pose proof (ho_below _ Hok0 _ (Hvm (sa_data (tn_vals x) + sa_size (tn_vals x) - 1) ltac:(lia))). lia.
  - split; [exact Hroom|cbn; lia].
Qed.

Lemma push_grant_size tr x room : tr_is_server tr = true -> 0 <= room < 2 ^ 30 -> 0 <= sa_size (tn_keys x) < 2 ^ 20 -> 0 <= sa_size (tn_lens x) < 2 ^ 20 ->
  0 < sa_size (tn_vals x) < 2 ^ 29 -> forall L o,
  granted_size tr room (mkStart L 3 (map sa_size (tn_data x)) o) = room + sa_size (tn_keys x) + sa_size (tn_vals x) + sa_size (tn_lens x).
Proof.
  intros Hs Hr Hk Hl Hv L o. unfold granted_size, sum_u64. rewrite Hs. cbn [rs_data_len tn_data map fold_left].
  rewrite (u64_small (0 + _)), (u64_small (0 + sa_size (tn_keys x) + _)), (u64_small (0 + _ + _ + _)), u64_small by lia. lia.
Qed.

(** The bytes below the break stay. *)
Lemma tensor_at_below a a' x : host_ok (v_host a) -> tensor_at a x -> same_below a a' -> grows (v_host a) (v_host a') -> tensor_at a' x.
Proof.
  intros Hok [[T1 T2] (T3 & T4 & T5 & T6) T7] Hb Hg. split; [split; [done|]|split; [done|split; [done|split; [done|]]]|done].
  - eapply bytes_stay; [exact Hok|exact Hb|exact T2].
  - rewrite mapped_spec in *. intros i Hi. apply Hg. by apply T6.
Qed.

Lemma keys_below a x : host_ok (v_host a) -> tensor_at a x -> sa_data (tn_keys x) + sa_size (tn_keys x) <= h_brk (v_host a).
Proof.
  intros Hok [[Hk Hkb] _ _]. apply mem_bytes_spec in Hkb as [Hkl Hkb].
  destruct (lookup_lt_is_Some_2 (tn_key_bytes x) (pred (length (tn_key_bytes x))) ltac:(lia)) as [y Hy].
  pose proof (ho_below _ Hok _ (mk_is_Some _ _ (Hkb _ _ Hy))). lia.
Qed.

Lemma push_first fuel a b ea eb x L t m0 bs : linked a b ea eb -> fresh a b x -> tensor_at a x ->
  tn_contents a x = Some bs -> push_of x (node_id b) L t -> ct_node (mt_control m0) = [] -> (5 <= fuel)%nat ->
  exists msg len a' b' rkey, exchange fuel ea eb (mkRMsg t (tn_data x)) m0 a b = Ok (Some (msg, len), a', b') /\
    push_received b' (pushed_meta x (node_id a) (node_id b) m0 t rkey) bs msg /\
    established a' b' ea eb x L /\ frame (2 ^ 31) 0 a a' /\ recv_frame (2 ^ 31 + 64) 1 b b' /\ b_pull_addr (v_tabs a') = b_pull_addr (v_tabs a).
Proof.
  intros Hlk [Hsp [Hba Hbb] Hmr Haddr Hinfo [Hks Hls]] Hta Hbs Hpo H0 Hf.
  pose proof (push_data_of a x _ L t _ bs Hta Hbs Hpo eq_refl) as Hd. pose proof Hpo as [Hpm [Hrec Hne] HL Hsz]. subst L.
  pose proof Hlk as [Hla Hlb Hpg]. pose proof Hla as [Hoka Hqa _ Hoba _ (e & tr & He & Htr & Hipc & _ & _ & Hec & _)].
  pose proof Hlb as [Hokb Hqb Hrb Hobb _ (er & trb & Her & Htrb & _ & Hsrv & _ & _ & Herc)].
  destruct (ep_free_start_ctx e) as [|c q] eqn:Hc; [done|]. destruct (ep_free_reply_ctx er) as [|rc qr] eqn:Hrc; [done|]. clear Hec Herc.
  pose proof Hta as [[Hk0 Hkb] (Hvs & Ha0 & Ha1 & _) _]. pose proof (raw_len_bounds t (pm_wf _ Hpm)) as Hlen.
  destruct (SendMsg_first shm_open_mmap a (mkRMsg t (tn_data x)) (tn_key_bytes x) (tn_vals x) bs ea e c q
    (fun r a1 => exists mr ri p packed, started a a1 ea c q (push_header t (tn_key_bytes x) (tn_vals x) mr) (tn_data x) [(mr, sa_size (tn_vals x))] ri p packed /\
       registered a1 (tn_vals x) mr))
    as (r & a1 & Hsend & mr & ri & p & packed & Hst & Hreg); try done; try (cbn; lia); try (cbn [rm_meta]; rewrite Hrec; done).
  { cbn [rm_meta]. rewrite Hrec. by eapply talks_sends. }
  { by left. }
  { by apply objects_fresh. }
  { intros mr ri p packed a' Hs Hr. by exists mr, ri, p, packed. }
  set (t1 := push_header t (tn_key_bytes x) (tn_vals x) mr) in *. pose proof (push_header_meta t (tn_key_bytes x) (tn_vals x) mr Hpm ltac:(lia)) as Hpm1.
  pose proof Hst as [Sok Sg Sbk Sb Sc _ _ (_ & _ & Sp) (Spk & Sun)]. change (raw_len t1) with (raw_len t) in *.
  destruct (align_ceil_spec (raw_len t) (h_pagesize (v_host b))) as (room & Hroom & Hrb0 & _); [pose proof (ho_page _ Hokb); lia..|].
  pose proof (ho_page _ Hokb) as Hps. pose proof (ho_brk _ Hokb) as Hbrk0. destruct fuel as [|[|fuel]]; [lia..|].
  pose proof (push_grant_size trb x room Hsrv ltac:(lia) Hks Hls ltac:(lia)) as Hgs.
  set (mb := mkMsgBuf (raw_len t) p (tn_data x) [(mr, sa_size (tn_vals x))]).
  destruct (rendezvous shm_open_mmap fuel a a1 b ea eb (ep_set_start q e) c q er rc qr tr trb t1 (tn_data x) [(mr, sa_size (tn_vals x))] ri p packed room
    (room + sa_size (tn_keys x) + sa_size (tn_vals x) + sa_size (tn_lens x)) (fun tup => push_requests ea room (tn_vals x) tup mb mr ri))
    as (buffer & rkey & idx & b1 & Hgt & Hfl); try done; try lia.
  { rewrite Sc. cbn. by rewrite lookup_alter_eq, He. }
  { by apply push_meta_valid. }
  { cbn. lia. }
  { intros buffer rkey idx b1 Q' Hgt HQ'. eapply send_push_ready; [exact Hpm1|exact Hipc|reflexivity| |unfold with_addr; by case_match|exact HQ'].
    eapply (ready_addressed a a1 b b1 x ea eb c q t1); try done; try lia. by rewrite (gr_page _ _ Sg), Hpg. }
  set (tup := mkTuple buffer rkey idx (b_next (v_tabs a))) in *.
  set (b2 := with_reply_ctx rc eb _) in Hfl.
  pose proof (frame_sender a a1 ea e c q t1 (tn_data x) [(mr, sa_size (tn_vals x))] ri p packed tup (push_requests ea room (tn_vals x) tup mb mr ri) Hoba He Hc Hst) as Fa.
  pose proof (ready_addressed a a1 b b1 x ea eb c q t1 mr ri p packed rc qr _ room _ buffer rkey idx Hst Hreg Hoka Sp Hta Hpm1 eq_refl Hgt) as Hre0.
  rewrite (pm_push t1 Hpm1) in Hfl, Fa, Hre0. set (a2 := with_recv ea _) in *.
  assert (Fa' : frame (2 ^ 31) 0 a (set_posted [] a2)).
  { apply Fa. change (mt_recver t1) with (mt_recver t). rewrite Hrec. exact Haddr. }
  clear Fa. rename Fa' into Fa.
  pose proof (frame_granted _ _ _ _ _ _ _ _ _ _ _ Hobb Her Hrc Hgt) as Rb. fold b2 in Rb. pose proof (rf_frame _ _ _ _ Rb) as Fb.
  pose proof Hgt as [Gok Gg Gb Gbe Gpo Gc Gt Gget Greg [Ga1 Ga2]].
  assert (Hna : node_id a2 = node_id a) by (exact (node_id_frame _ _ _ _ Fa)).
  assert (Hnb : node_id b2 = node_id b) by (by apply (node_id_frame _ _ _ _ Fb)).
  assert (Hok2 : host_ok (v_host a2)) by (destruct Sok; by split). assert (Hokb2 : host_ok (v_host b2)) by (destruct Gok; by split).
  assert (Hre : ready a2 (node_id b2) (tn_key x) (raw_len t) room (tn_vals x) tup mb mr ri).
  { destruct Hre0 as [R1 R2 R3 R4 R5 R6 R7 R8 R9]; try lia; [by rewrite (gr_page _ _ Sg), Hpg|].
    rewrite Hnb, <- Hrec. by split. }
  assert (Htg : target b2 (raw_len t) room (sa_size (tn_vals x)) tup (b_next (v_tabs b)) (sa_size (tn_keys x)) (sa_size (tn_lens x))).
  { destruct Greg as (r0 & Hr0 & Hr1 & Hr2 & Hr3). split; [exists r0; repeat split; try done; lia|exact Gget|].
    destruct Gt as (pool & _ & Gt). change (b_buf_ctxs (v_tabs b2)) with (b_buf_ctxs (v_tabs b1)). rewrite Gt. cbn. by rewrite lookup_insert_eq. }
  destruct (finish_push fuel ea eb a2 b2 t1 (tn_key x) room (tn_vals x) tup mb mr ri (b_next (v_tabs b)) (sa_size (tn_keys x)) (sa_size (tn_lens x)) bs packed m0)
    as (b3 & msg & len & b4 & Hfl3 & Hrcv & Hgot & Rb4 & Hokb4 & Hqb4 & Hkn4); try done; try lia.
  - rewrite Hna. by eapply talks_frame.
  - change (h_pagesize (v_host a1) = h_pagesize (v_host b1)). by rewrite (gr_page _ _ Sg), (gr_page _ _ Gg).
  - split; [|exact Spk|done]. eapply bytes_stay; [exact Hoka|exact Sb|exact Hbs].
  - change (raw_len t1) with (raw_len t). lia.
  - left. rewrite Hna. destruct Gt as (pool & _ & Gt). change (b_tensor_info (v_tabs b2)) with (b_tensor_info (v_tabs b1)). rewrite Gt. exact Hinfo.
  - rewrite Hna, Hnb in *. pose proof (recv_frame_trans _ _ _ 0 _ _ _ ltac:(done) Rb Rb4) as Rb'. pose proof (rf_frame _ _ _ _ Rb') as Fb'. pose proof (rf_frame _ _ _ _ Rb4) as Fb4.
    exists msg, len, (set_posted [] a2), b4, (s32 (mr_rkey mr)). split; [|split; [exact Hgot|split; [|split; [done|split; [done|]]]]].
    3: { change (b_pull_addr (v_tabs a1) = b_pull_addr (v_tabs a)). destruct Hst as [_ _ _ _ _ _ (M & _ & ->) _ _]. done. }
    + unfold RdmaDelivery.exchange. rewrite Hsend. cbn [mbind outcome_bind]. destruct r. rewrite Hfl, Hfl3. cbn. by rewrite Hrcv.
    + split.
      * eapply linked_frame; [exact Hlk|exact Fa|exact Fb'|by destruct Hok2; split|done..].
      * apply (tensor_at_below a); [done|done|exact Sb|apply Fa].
      * exists room, tup, mb, mr, ri, (b_next (v_tabs b)), (sa_size (tn_keys x)), (sa_size (tn_lens x)).
        rewrite (node_id_frame _ _ _ _ Fb'). change (node_id (set_posted [] a2)) with (node_id a2). rewrite Hna.
        split; [destruct Hre as [R1 R2 R3 R4 R5 R6 R7 R8 R9]; by split|]. split; [by eapply target_frame|]. split; [|exact Hkn4].
        left. cbn. pose proof (keys_below a x Hoka Hta). lia.
Qed.
End push.
