(* ===== verification/RdmaExample.v ===== *)
(** A verbs library that does what the documentation says, and two processes that
    are connected: the concrete inputs of the witnesses. *)

From S2P Require Import Prelude State Bytes Memory PsMessage Ps Postoffice Resender ZmqVan RdmaMem RdmaUtils RdmaState RdmaTransport RdmaVan RdmaDelivery RdmaPush.

Definition region_of (key : Mr -> Z) (h : Host) (k a n : Z) : bool :=
  existsb (fun r => (key r =? k) && (mr_addr r <=? a) && (a + n <=? mr_addr r + mr_length r)) (h_regions h).

Lemma region_of_true key h r k a n : r ∈ h_regions h -> key r = k -> in_region r a n -> region_of key h k a n = true.
Proof.
  intros Hr Hk [H1 H2]. apply existsb_exists. exists r. split; [by apply list_elem_of_In|]. b2p; lia.
Qed.

(** A device that does what the documentation says, and refuses the rest. *)
Definition example_write (h h' : Host) (sge : Sge) (addr rkey : Z) : option Mem :=
  if region_of mr_lkey h (sg_lkey sge) (sg_addr sge) (sg_length sge) && region_of mr_rkey h' rkey addr (sg_length sge) then
    bs ← mem_bytes (h_mem h) (sg_addr sge) (Z.to_nat (sg_length sge)); Some (mem_put (h_mem h') addr bs)
  else None.

Definition example_transfer (ea eb : Z) (h h' : Host) (wr : WorkRequest) : option (Mem * list (bool * WorkCompletion) * list (bool * WorkCompletion)) :=
  match wr with
  | WrSend ctx p => Some (h_mem h', [(true, WcSend ea ctx)], [(true, WcRecv eb (ReceiveCtx 0) true p)])
  | WrWrite sge addr rkey => m ← example_write h h' sge addr rkey; Some (m, [], [])
  | WrWriteImm _ sge addr rkey imm =>
      m ← example_write h h' sge addr rkey;
      Some (m, [(true, WcRdmaWrite)], [(true, WcRecvRdmaWithImm eb (ReceiveCtx 0) imm)])
  end.

Lemma example_write_ok h h' sge bs addr rkey : readable h sge bs -> writable h' rkey addr (sg_length sge) ->
  example_write h h' sge addr rkey = Some (mem_put (h_mem h') addr bs).
Proof.
  intros [Hb (r & Hr & Hk & Hin)] (r' & Hr' & Hk' & Hin'). unfold example_write.
  rewrite (region_of_true mr_lkey h r), (region_of_true mr_rkey h' r') by done. cbn. by rewrite Hb.
Qed.

Program Definition example_verbs : Verbs := {|
  ibv_reg_mr := fun regions _ _ => Some (u32 (Z.of_nat (length regions)), u32 (Z.of_nat (length regions)));
  ibv_post_send := fun _ _ _ _ => true;
  transfer := example_transfer |}.
Next Obligation. intros. eexists _, _. split; [reflexivity|]. split; apply u32_range. Qed.
Next Obligation. done. Qed.
Next Obligation. intros. by exists 0. Qed.
Next Obligation. intros. cbn. by rewrite (example_write_ok _ _ _ bs). Qed.
Next Obligation. intros. exists 0. cbn. by rewrite (example_write_ok _ _ _ bs). Qed.

Definition example_tensor : Tensor := mkTensor (mkSA 64 8) (le_bytes 8 7) (mkSA 128 4) (mkSA 192 4).
Definition example_mem : Mem := mem_put (mem_put ∅ 64 (le_bytes 8 7)) 128 [0; 0; 0; 0].

(** A process with the given memory, connected to the node [peer]. *)
Definition example_rdma (me peer : Z) (m : Mem) (is_server : bool) : RdmaVan :=
  mkRdma (mkHost 64 m 256 [] ∅ [])
    (mkTables ∅ (mkPool 2 [0; 1] [None; None]) 1 ∅ ∅ ∅ ∅ ∅ ∅ [])
    (mkConn (example_node me 8000) (mkRdmaEnv None None None None None) true {[peer := 5]} []
       {[5 := mkEndpoint CONNECTED peer None (Some (mkTrans is_server None)) [0; 1] [0; 1] 0]} ∅ (example_ps example_office None)).
Definition example_worker : RdmaVan := example_rdma 9 8 example_mem false.
Definition example_server : RdmaVan := example_rdma 8 9 example_mem true.

Definition example_push (timestamp : Z) : Meta :=
  mkMeta 0 0 0 timestamp kEmpty 8 true true false [] [UINT64; CHAR; INT32] (mkControl EMPTY [] 0 0) 16 0 0 0 0.
Definition example_empty_meta : Meta := Meta_new 0 0 0 0 0.

Lemma example_host_ok me peer m srv : (forall i, is_Some (m !! i) -> 0 < i < 256) -> host_ok (v_host (example_rdma me peer m srv)).
Proof.
  intros Hm. split; cbn; [lia|lia|done| |].
  - intros r Hr. by apply not_elem_of_nil in Hr.
  - intros p r Hp. by rewrite lookup_empty in Hp.
Qed.

Lemma example_mem_below i : is_Some (example_mem !! i) -> 0 < i < 256.
Proof.
  unfold example_mem. rewrite !mem_put_lookup, lookup_empty. cbn [length le_bytes]. repeat case_decide; try lia. by intros [? ?].
Qed.

