(* ===== verification/RdmaPull.v ===== *)
(** Pulls over the RDMA van: the request carries meta data alone, and the server
    writes the values of its answer straight into the worker's tensor before the
    meta data that announces them. *)

From S2P Require Import Prelude State Bytes Memory PsMessage Ps Resender RdmaMem RdmaUtils RdmaState RdmaTransport RdmaVan RdmaDelivery RdmaRendezvous RdmaFrame RdmaPush.

Section pull.
Context {vb : Verbs}.
Context (shm_open_mmap : list Z -> option Z).

Notation flush := (flush shm_open_mmap).
Notation exchange := (exchange shm_open_mmap).
Notation SendMsg := (SendMsg ibv_reg_mr ibv_post_send shm_open_mmap).
Notation RecvMsg := (RecvMsg shm_open_mmap).
Notation send_pushpull := (send_pushpull ibv_post_send shm_open_mmap).

(** ** Messages of a pull *)

(** Meta data of a pull request ([req]) or of the response to one. *)
Record pull_meta (req : bool) (t : Meta) : Prop := {
  pl_wf : meta_wf t;
  pl_push : mt_push t = false;
  pl_request : mt_request t = req;
  pl_app : mt_simple_app t = false;
  pl_cmd : ct_cmd (mt_control t) = EMPTY;
  pl_nodes : ct_node (mt_control t) = [] }.

Lemma pull_meta_valid req t d : pull_meta req t -> valid_pushpull (mkRMsg t d) = true.
Proof. intros [_ _ _ Ha Hc _]. unfold valid_pushpull, IsValidPushpull, Control_empty. cbn. by rewrite Ha, Hc. Qed.

Lemma pull_meta_arrives req t m0 : pull_meta req t -> ct_node (mt_control m0) = [] ->
  GetPackMetaLen (arrives t m0) = raw_len t /\ valid_pushpull (mkRMsg (arrives t m0) []) = true.
Proof.
  intros [Hwf _ _ Happ Hcmd Hn] H0. split.
  - assert (Hl : raw_len (arrives t m0) = raw_len t) by (unfold raw_len, num_nodes, arrives, Control_empty; cbn; by rewrite H0, Hn, Hcmd).
    rewrite <- Hl. unfold GetPackMetaLen. fold (raw_len (arrives t m0)). apply s32_small. rewrite Hl. pose proof (raw_len_bounds t Hwf). lia.
  - unfold valid_pushpull, IsValidPushpull, Control_empty, arrives. cbn. by rewrite Hcmd, Happ.
Qed.

(** The values that a message writes to the receiver before its meta data: none
    for a request; for a response the array [y], from its region. *)
Definition carries (v : RdmaVan) (t : Meta) (d : list SA) (w : option (SA * Mr)) : Prop :=
  match w with
  | None => mt_request t = true
  | Some (y, mr) => mt_request t = false /\ d !! 1%nat = Some y /\ registered v y mr /\ mt_val_len t = sa_size y /\ 0 < sa_size y < 2 ^ 31
  end.

Definition pull_writes (ep : Z) (t : Meta) (w : option (SA * Mr)) : list (Z * WorkRequest) :=
  match w with
  | None => []
  | Some (y, mr) => [(ep, WrWrite (mkSge (sa_data y) (sa_size y) (mr_lkey mr)) (mt_addr t) (u32 (mt_option t)))]
  end.

Definition pull_requests (ep : Z) (t : Meta) (w : option (SA * Mr)) (tup : RemoteTuple) (mb : MessageBuffer) (ri : Mr) : list (Z * WorkRequest) :=
  pull_writes ep t w ++ [(ep, imm_request mb (rt_buf tup) ri tup)].

(** What the transport posts for either message. *)
Lemma send_pull_ok req v ep tr t d buf tup mb ri w Q : pull_meta req t -> tr_ipc tr = None -> rt_buf tup = buf ->
  b_msg_bufs (v_tabs v) !! buf = Some mb -> mb_data mb = d -> mb_mrs mb = [] -> 0 <= mb_inline_len mb < 2 ^ 31 ->
  h_mr (v_host v) !! mb_inline_buf mb = Some ri -> h_posted (v_host v) = [] -> host_ok (v_host v) -> carries v t d w ->
  Q tt (set_posted (pull_requests ep t w tup mb ri) v) -> runs (send_pushpull tr ep (mkRMsg t d) buf tup) v Q.
Proof.
  intros Hpm Hipc <- Hb Hd Hm Hl Hri Hpo Hok Hw HQ. unfold RdmaVan.send_pushpull. cbn [rm_meta]. rewrite (pl_push _ _ Hpm).
  destruct w as [[y mr]|].
  - destruct Hw as (Hreq & Hy & (Hmr & Ha & Hin & Hlen) & Hvl & Hs). rewrite Hreq. unfold get_msg_buf, find_mr. rrun.
    apply (runs_deref _ mb); [done|]. rrun. apply (runs_deref _ y); [by rewrite Hd|]. rrun. rewrite Hmr. rrun.
    unfold SendPullResponse. rewrite Hipc. unfold Rdma_SendPullResponse, check_mrs, get_msg_buf. rrun. apply (runs_deref _ mb); [done|]. rewrite Hm. rrun.
    apply runs_CHECK; [done|]. rrun. apply (runs_deref _ y); [by rewrite Hd|]. rrun. cbn [rm_meta]. rewrite Hvl.
    apply runs_CHECK; [b2p; apply u64_small; lia|]. rrun. apply post_send_runs; [rewrite Hpo; cbn; lia|].
    unfold Rdma_Send. apply (RDMAWriteWithImm_ok _ _ mb ri); [by rewrite Hpo|by destruct v|by destruct v as [[] ? ?]|lia|].
    destruct (ho_regions _ Hok _ Hin) as (_ & _ & _ & Hlk & _). rewrite Hpo, (u32_small (sa_size y)), (u32_small (mr_lkey mr)) by (lia || exact Hlk).
    by destruct v as [[] ? ?].
  - rewrite Hw. unfold SendPullRequest, check_mrs, get_msg_buf, Rdma_Send. rrun. apply (runs_deref _ mb); [done|]. rewrite Hm. rrun.
    apply runs_CHECK; [done|]. rrun. apply (RDMAWriteWithImm_ok _ _ mb ri); [by rewrite Hpo|done..|lia|]. by rewrite Hpo.
Qed.

(** ** Channels *)

Definition all_apart (keep : list SA) (buf L : Z) : Prop := Forall (fun s => apart (sa_data s) (sa_size s) buf L) keep.

(** The sender's end of a rendezvous: the address to write to, and the buffer it
    packs in, apart from the arrays [keep]. *)
Record outbox (v : RdmaVan) (peer key L : Z) (tup : RemoteTuple) (mb : MessageBuffer) (ri : Mr) (keep : list SA) : Prop := {
  ox_addr : b_pull_addr (v_tabs v) !! (key, peer) = Some tup;
  ox_buf : b_msg_bufs (v_tabs v) !! rt_buf tup = Some mb;
  ox_mrs : mb_mrs mb = [];
  ox_len : mb_inline_len mb = L;
  ox_inline : h_mr (v_host v) !! mb_inline_buf mb = Some ri /\ L <= mr_length ri;
  ox_apart : all_apart keep (mb_inline_buf mb) L }.

(** The receiver's end: the memory that it gave, and the context behind the number. *)
Record mailbox (v : RdmaVan) (L : Z) (tup : RemoteTuple) (bxp : Z) (keep : list SA) : Prop := {
  mx_region : exists r, r ∈ h_regions (v_host v) /\ mr_rkey r = rt_rkey tup /\ mr_addr r = rt_addr tup /\ L <= mr_length r;
  mx_pool : GetAddress (b_pool (v_tabs v)) (rt_idx tup) = Ok bxp;
  mx_ctx : exists n ls, b_buf_ctxs (v_tabs v) !! bxp = Some (mkBufCtx (rt_addr tup) L n ls);
  mx_apart : all_apart keep (rt_addr tup) L }.

Lemma outbox_frame k n v v' peer key L tup mb ri keep : outbox v peer key L tup mb ri keep -> frame k n v v' ->
  exists mb', buffer_like mb mb' /\ outbox v' peer key L tup mb' ri keep.
Proof.
  intros [R1 R2 R3 R4 [R5 R5'] R6] F. destruct (fm_bufs _ _ _ _ F _ _ R2) as (mb' & Hb & Hl). exists mb'. split; [done|].
  destruct Hl as (L1 & L2 & L3). split; rewrite ?L1, ?L2, ?L3; try done.
  - by eapply lookup_weaken, F.
  - split; [by apply F|done].
Qed.

Lemma mailbox_frame k n v v' L tup bxp keep : mailbox v L tup bxp keep -> frame k n v v' -> mailbox v' L tup bxp keep.
Proof.
  intros [(r & Hr & ? & ? & ?) Hp (nn & ls & Hc) Ha] F. split; [|by apply F| |done].
  - exists r. split; [by apply F|done].
  - exists nn, ls. by eapply lookup_weaken, F.
Qed.

(** ** The writes of a message *)

(** The bytes of the arrays in [keep] that are as they were. *)
Definition holds (v : RdmaVan) (s : SA) (bs : list Z) : Prop := mem_bytes (h_mem (v_host v)) (sa_data s) (Z.to_nat (sa_size s)) = Some bs.

(** What the values are written from and to. *)
Definition write_ok (s r : RdmaVan) (t : Meta) (w : option (SA * Mr)) (tup : RemoteTuple) (L : Z) (bs : list Z) : Prop :=
  match w with
  | None => True
  | Some (y, mr) => holds s y bs /\ writable (v_host r) (u32 (mt_option t)) (mt_addr t) (sa_size y) /\
      apart (mt_addr t) (sa_size y) (rt_addr tup) L
  end.

(** Memory outside of what a message writes. *)
Definition untouched (t : Meta) (w : option (SA * Mr)) (i : Z) : Prop :=
  match w with None => True | Some (y, _) => ~ (mt_addr t <= i < mt_addr t + sa_size y) end.

Lemma write_mapped h rkey addr n : host_ok h -> writable h rkey addr n -> mapped (h_mem h) addr n.
Proof.
  intros Hok (r & Hr & _ & H1 & H2). destruct (ho_regions _ Hok r Hr) as (_ & Hm & _).
  replace addr with (mr_addr r + (addr - mr_addr r)) by lia. eapply mapped_part; [exact Hm|lia..].
Qed.

Lemma imm_step es er s r mb tup ri packed L bxp keep : h_posted (v_host s) = [(es, imm_request mb (rt_buf tup) ri tup)] ->
  readable (v_host s) (mkSge (mb_inline_buf mb) (mb_inline_len mb) (mr_lkey ri)) packed -> mb_inline_len mb = L ->
  mailbox r L tup bxp keep ->
  fabric_step shm_open_mmap er s r = Ok (true, set_posted [] s, received er bxp (set_mem (mem_put (h_mem (v_host r)) (rt_addr tup) packed) r)).
Proof.
  intros Hpo Hr Hl [(g & Hg & Hk & Ha & Hlen) Hpool _ _]. unfold imm_request in Hpo. erewrite step_write_imm; [done|exact Hpo|exact Hr| |exact Hpool].
  exists g. split; [done|]. split; [done|]. unfold in_region. cbn [sg_length]. lia.
Qed.

Lemma pull_requests_flush fuel es er s r t w tup mb ri packed L bxp keep bs :
  h_posted (v_host s) = pull_requests es t w tup mb ri -> h_posted (v_host r) = [] ->
  readable (v_host s) (mkSge (mb_inline_buf mb) (mb_inline_len mb) (mr_lkey ri)) packed -> mb_inline_len mb = L -> 0 <= L ->
  (forall y mr, w = Some (y, mr) -> registered s y mr /\ 0 < sa_size y) ->
  write_ok s r t w tup L bs -> host_ok (v_host r) -> mailbox r L tup bxp keep -> (3 <= fuel)%nat ->
  exists m, flush fuel es er s r = Ok (true, set_posted [] s, received er bxp (set_mem m r)) /\
    host_ok (v_host (set_mem m r)) /\ grows (v_host r) (v_host (set_mem m r)) /\
    mem_bytes m (rt_addr tup) (Z.to_nat L) = Some packed /\
    (forall y mr, w = Some (y, mr) -> mem_bytes m (mt_addr t) (Z.to_nat (sa_size y)) = Some bs) /\
    (forall i, ~ (rt_addr tup <= i < rt_addr tup + L) -> untouched t w i -> m !! i = h_mem (v_host r) !! i).
Proof.
  intros Hpo Hpr Hri Hl HL Hreg Hw Hok Hmx Hf. pose proof (mem_bytes_length _ _ _ _ (proj1 Hri)) as Hpl. cbn [sg_length] in Hpl.
  pose proof Hmx as [(g & Hg & Hgk & Hga & Hgl) _ _ _]. destruct (ho_regions _ Hok g Hg) as (_ & Hgm & _).
  assert (Hmp : mapped (h_mem (v_host r)) (rt_addr tup) (Z.of_nat (length packed))).
  { rewrite <- Hga, <- (Z.add_0_r (mr_addr g)). eapply mapped_part; [exact Hgm|lia..]. }
  destruct fuel as [|[|[|fuel]]]; [lia..|]. unfold pull_requests in Hpo. destruct w as [[y mr]|]; cbn [pull_writes app] in Hpo.
  - destruct Hw as (Hy & Hwr & Hap). destruct (Hreg y mr eq_refl) as [(_ & Hra & Hrin & Hrl) Hys]. pose proof (mem_bytes_length _ _ _ _ Hy) as Hyl.
    pose proof (write_mapped _ _ _ _ Hok Hwr) as Hym. unfold apart in Hap.
    destruct (host_ok_put _ (mt_addr t) bs Hok) as [Hok1 Hg1]; [by replace (Z.of_nat (length bs)) with (sa_size y) by lia|].
    destruct (host_ok_put _ (rt_addr tup) packed Hok1) as [Hok2 Hg2]; [by apply mapped_put|]. cbn [h_mem] in *.
    exists (mem_put (mem_put (h_mem (v_host r)) (mt_addr t) bs) (rt_addr tup) packed). split.
    + rewrite (flush_step shm_open_mmap _ es er s r (set_posted [(es, imm_request mb (rt_buf tup) ri tup)] s)
        (set_mem (mem_put (h_mem (v_host r)) (mt_addr t) bs) r)); [|by rewrite Hpo|].
      2: { eapply step_write; [exact Hpo| |exact Hwr]. split; [exact Hy|]. exists mr. split; [done|]. split; [done|].
           unfold in_region. cbn [sg_addr sg_length]. lia. }
      rewrite (flush_step shm_open_mmap _ es er _ _ (set_posted [] s) (received er bxp (set_mem (mem_put (mem_put (h_mem (v_host r)) (mt_addr t) bs) (rt_addr tup) packed) r)));
        [|by destruct s as [[] ? ?]|].
      2: { erewrite (imm_step es er _ _ mb tup ri packed L bxp keep); [by destruct s as [[] ? ?], r as [[] [] []]|done|exact Hri|done|].
           destruct Hmx. by split. }
      apply flush_done; [by destruct s as [[] ? ?]|by destruct r as [[] [] []]].
    + split; [exact Hok2|]. split; [etrans; [exact Hg1|exact Hg2]|]. split; [|split].
      * replace (Z.to_nat L) with (length packed) by lia. apply mem_put_bytes.
      * intros y' mr' [= <- <-]. rewrite mem_put_apart by lia. replace (Z.to_nat (sa_size y)) with (length bs) by lia. apply mem_put_bytes.
      * intros i Hi Hu. cbn [untouched] in Hu. rewrite !mem_put_lookup, !decide_False by lia. done.
  - destruct (host_ok_put _ (rt_addr tup) packed Hok Hmp) as [Hok2 Hg2]. exists (mem_put (h_mem (v_host r)) (rt_addr tup) packed). split.
    + rewrite (flush_step shm_open_mmap _ es er s r (set_posted [] s) (received er bxp (set_mem (mem_put (h_mem (v_host r)) (rt_addr tup) packed) r)));
        [|by rewrite Hpo|by apply (imm_step es er s r mb tup ri packed L bxp keep)].
      apply flush_done; [by destruct s as [[] ? ?]|by destruct r as [[] [] []]].
    + split; [exact Hok2|]. split; [exact Hg2|]. split; [|split; [done|]].
      * replace (Z.to_nat L) with (length packed) by lia. apply mem_put_bytes.
      * intros i Hi _. by rewrite mem_put_lookup, decide_False by lia.
Qed.

(** ** Reception *)

(** The length of the values that a message announces. *)
Definition value_len (t : Meta) : Z := if mt_request t then 0 else u64 (mt_val_len t).

(** What the receiver of a pull request or response gets: the key, and for a
    response the worker's own tensor and its length. *)
Definition pull_received (v : RdmaVan) (t : Meta) (msg : RMessage) : Prop :=
  rm_meta msg = t /\ exists k rest, rm_data msg = k :: rest /\
    sa_size k = 8 /\ mem_bytes (h_mem (v_host v)) (sa_data k) 8 = Some (le_bytes 8 (mt_key t)) /\
    if mt_request t then rest = [mkSA 0 0]
    else exists l, rest = [mkSA (mt_addr t) (u64 (mt_val_len t)); l] /\
      sa_size l = 4 /\ mem_bytes (h_mem (v_host v)) (sa_data l) 4 = Some (le_bytes 4 (mt_val_len t)).

Lemma RecvMsg_pull req v er bxp q e tr buf L n ls packed t m0 Q : host_ok (v_host v) -> pull_meta req t -> ct_node (mt_control m0) = [] ->
  b_recv_buffers (v_tabs v) = (er, bxp) :: q -> b_buf_ctxs (v_tabs v) !! bxp = Some (mkBufCtx buf L n ls) ->
  n_eps (v_conn v) !! er = Some e -> ep_trans e = Some tr ->
  mem_bytes (h_mem (v_host v)) buf (Z.to_nat L) = Some packed -> (forall m0, UnpackMeta packed m0 = Ok (arrives t m0)) ->
  raw_len t + value_len t + 12 < 2 ^ 31 ->
  let t' := arrives t (set_ends m0 (ep_node_id e) (n_id (n_my_node (v_conn v))) (mt_timestamp m0)) in
  (forall msg len v1, mem_only 64 (set_recv_buffers q v) v1 -> same_below (set_recv_buffers q v) v1 -> pull_received v1 t' msg -> Q (Some (msg, len)) v1) ->
  runs (RecvMsg m0) v Q.
Proof.
  intros Hok Hpm H0 Hq Hctx He Htr Hpk Hun Hlt t' HQ. pose proof (raw_len_bounds t (pl_wf _ _ Hpm)) as Hrl. pose proof (u64_range (mt_val_len t)) as Hu. unfold value_len in Hlt.
  destruct (pull_meta_arrives req t (set_ends m0 (ep_node_id e) (n_id (n_my_node (v_conn v))) (mt_timestamp m0)) Hpm H0) as [Hlen Hval].
  fold t' in Hlen, Hval. unfold RdmaVan.RecvMsg. rrun. rewrite Hq. rrun. cbn [set_recv_buffers v_tabs b_buf_ctxs].
  apply (runs_deref _ (mkBufCtx buf L n ls)); [by destruct v as [? [] ?]|]. rrun. unfold get_endpoint. rrun.
  apply (runs_deref _ e); [by destruct v as [? [] []]|]. unfold read_mem. cbn [bx_buffer bx_meta_len]. rrun.
  apply (runs_lift _ packed). { apply mem_read_ok. by destruct v as [[] ? ?]. }
  rrun. apply (runs_lift _ t'). { by rewrite Hun. }
  rewrite Hlen. rrun. apply (GetTransport_ok _ e tr); [by destruct v as [? [] []]|done|]. rewrite Hval. cbn [negb].
  rrun. change (mt_push t') with (mt_push t). change (mt_request t') with (mt_request t). rewrite (pl_push _ _ Hpm).
  assert (Hok' : host_ok (v_host (set_recv_buffers q v))) by (by destruct v as [[] ? ?]).
  destruct (mt_request t) eqn:Hreq.
  - unfold RecvPullRequest. rrun. apply CreateFunctionalSarray_ok; [done|]. intros k v1 Hm1 Hs1 Hk Hkb. unfold key_bytes in *. rewrite length_le_bytes in *.
    unfold push_arrays. cbn [rm_meta rm_data map fold_right app sa_size]. rrun. rewrite Hk. apply runs_DEFINED.
    { cbn [snd]. unfold int_fits. rewrite s32_small by lia. b2p; lia. }
    rrun. apply HQ; [|done|].
    + destruct Hm1. split; try done. lia.
    + split; [done|]. cbn [fst rm_data app]. eexists _, _. split; [reflexivity|]. change (mt_request t') with (mt_request t). rewrite Hreq. by split.
  - unfold RecvPullResponse. rrun. apply CreateFunctionalSarray_ok; [done|]. intros k v1 Hm1 Hs1 Hk Hkb. rrun.
    apply CreateFunctionalSarray_ok; [apply Hm1|]. intros l v2 Hm2 Hs2 Hl Hlb. unfold key_bytes, val_len_bytes in *. rewrite !length_le_bytes in *.
    unfold push_arrays. cbn [rm_meta rm_data map fold_right app sa_size]. rrun. rewrite Hk, Hl. change (mt_val_len t') with (mt_val_len t) in *. apply runs_DEFINED.
    { cbn [snd]. unfold int_fits. rewrite s32_small by lia. b2p; lia. }
    rrun. apply HQ.
    + destruct Hm1, Hm2. split; [by etrans|lia|done|congruence..].
    + intros i Hi. rewrite Hs2, Hs1; [done..|]. destruct Hm1. pose proof (gr_brk _ _ mo_grows). lia.
    + split; [done|]. cbn [fst rm_data app]. eexists _, _. split; [reflexivity|]. change (mt_request t') with (mt_request t). rewrite Hreq. cbn [rm_meta].
      split; [done|]. split; [eapply (bytes_stay v1); [apply Hm1|done..]|]. exists l. by split.
Qed.

(** The second half of a message of a pull: what was posted arrives, and the
    receiver takes the message. *)
Lemma finish_pull fuel es er s r srv t w tup mb ri packed L bxp keep bs m0 req : talks r (node_id s) er srv ->
  h_posted (v_host s) = pull_requests es t w tup mb ri ->
  readable (v_host s) (mkSge (mb_inline_buf mb) (mb_inline_len mb) (mr_lkey ri)) packed -> mb_inline_len mb = L -> raw_len t = L ->
  (forall m0, UnpackMeta packed m0 = Ok (arrives t m0)) -> carries s t (mb_data mb) w ->
  write_ok s r t w tup L bs -> mailbox r L tup bxp keep -> pull_meta req t -> ct_node (mt_control m0) = [] ->
  raw_len t + value_len t + 12 < 2 ^ 31 -> (3 <= fuel)%nat ->
  let t' := arrives t (set_ends m0 (node_id s) (node_id r) (mt_timestamp m0)) in
  exists r1 msg len r2, flush fuel es er s r = Ok (true, set_posted [] s, r1) /\ RecvMsg m0 r1 = Ok (Some (msg, len), r2) /\
    pull_received r2 t' msg /\ recv_frame 64 0 r r2 /\ host_ok (v_host r2) /\ h_posted (v_host r2) = [] /\
    (forall y mr, w = Some (y, mr) -> mem_bytes (h_mem (v_host r2)) (mt_addr t) (Z.to_nat (sa_size y)) = Some bs) /\
    (forall i, is_Some (h_mem (v_host r) !! i) -> ~ (rt_addr tup <= i < rt_addr tup + L) -> untouched t w i ->
       h_mem (v_host r2) !! i = h_mem (v_host r) !! i).
Proof.
  intros Htr Hpo Hri Hl Hrl Hun Hcar Hw Hmx Hpm H0 Hlt Hf t'. pose proof Htr as [Hok Hqr Hqu _ _ (e & tr & He & Hetr & Hipc & _ & Hnode & _)].
  pose proof (raw_len_bounds t (pl_wf _ _ Hpm)) as Hlb. pose proof Hmx as [_ _ (nn & ls & Hctx) _].
  destruct (pull_requests_flush fuel es er s r t w tup mb ri packed L bxp keep bs) as (m & Hfl & Hok1 & Hg1 & Hpk & Hval & Hout); try done; [lia| |].
  { intros y mr ->. destruct Hcar as (_ & _ & Hreg & _ & Hys). split; [done|lia]. }
  set (r1 := received er bxp (set_mem m r)) in *.
  destruct (RecvMsg_pull req r1 er bxp [] (Rdma_PostRecv e) tr (rt_addr tup) L nn ls packed t m0
    (fun o v => exists msg len, o = Some (msg, len) /\ mem_only 64 (set_recv_buffers [] r1) v /\ same_below (set_recv_buffers [] r1) v /\ pull_received v t' msg))
    as (o & r2 & Hrun & msg & len & -> & Hmo & Hsb & Hrec); try done.
  { cbn. by rewrite Hqu. }
  { cbn. by rewrite lookup_alter_eq, He. }
  { cbn. rewrite Hnode. intros msg len v1 Hmo Hsb Hrec. by exists msg, len. }
  exists r1, msg, len, r2. split; [done|]. split; [done|]. split; [done|]. split.
  { apply (frame_received er bxp m); [by rewrite Hqu|done|done]. }
  destruct Hmo as [Mg Mb Mok Mpo Mtabs Mconn]. split; [done|]. split; [by rewrite Mpo|]. split.
  - intros y mr Hwy. eapply (bytes_stay (set_recv_buffers [] r1)); [exact Hok1|exact Hsb|]. by eapply Hval.
  - intros i Hi Hni Hu. rewrite Hsb; [by apply Hout|]. apply (ho_below _ Hok1). change (is_Some (m !! i)). by rewrite Hout.
Qed.

(** ** Sending *)

(** What comes before the lookup of the address: registration, and the fields
    that the van adds to the meta data. *)
Record prepared (req : bool) (s s1 : RdmaVan) (t : Meta) (d : list SA) (t1 : Meta) (w : option (SA * Mr)) : Prop := {
  pp_register : RegisterMemory ibv_reg_mr (mkRMsg t d) s = Ok (tt, s1);
  pp_head : (msg ← AddMeta (mkRMsg t d); PackWorkerTensorAddress msg) s1 = Ok (mkRMsg t1 d, s1);
  pp_only : reg_only s s1;
  pp_meta : pull_meta req t;
  pp_meta1 : pull_meta req t1;
  pp_len : raw_len t1 = raw_len t;
  pp_recver : mt_recver t1 = mt_recver t /\ mt_recver t <> kEmpty;
  pp_carries : carries s1 t1 d w }.

Lemma runs_Ok {A} (m : rd A) v a v' Q : m v = Ok (a, v') -> (Q a v' : Prop) -> runs m v Q.
Proof. intros H HQ. by exists a, v'. Qed.

(** The length that [SendMsg] returns. *)
Definition sent_len (t : Meta) : Z := s32 (raw_len t + mt_data_size t).

Lemma SendMsg_prepared req s s1 t d t1 w es (f : Z -> Transport -> RMessage -> rd (RMessage * option Z)) Q :
  prepared req s s1 t d t1 w -> sends_to s (mt_recver t) es ->
  (forall tr, tr_ipc tr = None -> runs (f es tr (mkRMsg t1 d)) s1 Q) ->
  runs (st_lift (CHECK (negb (mt_recver t =? kEmpty)));;
        endpoints ← conn n_endpoints;
        ep ← match endpoints !! mt_recver t with None => st_lift Fatal | Some ep => mret ep end;
        st_lift (CHECK (negb (GetPackMetaLen t =? 0)));;
        RegisterMemory ibv_reg_mr (mkRMsg t d);;
        msg ← (if valid_pushpull (mkRMsg t d) then msg ← AddMeta (mkRMsg t d); PackWorkerTensorAddress msg else mret (mkRMsg t d));
        trans ← GetTransport ep; f ep trans msg) s Q.
Proof.
  intros [P1 P2 P3 P4 P5 P6 [P7 P8] P9] [Hto (e & tr & He & Htr & Hipc)] HQ. pose proof (raw_len_bounds t (pl_wf _ _ P4)) as Hlb.
  rewrite GetPackMetaLen_ok by apply P4. apply runs_bind, runs_CHECK; [b2p; done|]. rrun. rewrite Hto. rrun.
  apply runs_CHECK; [b2p; lia|]. apply runs_bind. eapply runs_Ok; [exact P1|]. apply runs_bind. rewrite (pull_meta_valid req) by done.
  eapply runs_Ok; [exact P2|]. apply runs_bind. apply (GetTransport_ok _ e tr); [by rewrite (rg_conn _ _ P3)|done|]. by apply HQ.
Qed.

(** A message whose rendezvous has been made. *)
Lemma SendMsg_known req s s1 t d t1 w es tup mb ri keep Q : prepared req s s1 t d t1 w -> sends_to s (mt_recver t) es ->
  outbox s (mt_recver t) (mt_key t1) (raw_len t) tup mb ri keep -> h_posted (v_host s) = [] ->
  (forall packed, Z.of_nat (length packed) = raw_len t -> (forall m0, UnpackMeta packed m0 = Ok (arrives t1 m0)) ->
     let mb' := mkMsgBuf (mb_inline_len mb) (mb_inline_buf mb) d [] in
     Q (mkRMsg t1 d, Some (sent_len t))
       (set_posted (pull_requests es t1 w tup mb' ri)
          (set_mem (mem_put (h_mem (v_host s1)) (mb_inline_buf mb) packed) (set_msg_bufs (<[rt_buf tup := mb']> (b_msg_bufs (v_tabs s1))) s1)))) ->
  runs (SendMsg (mkRMsg t d)) s Q.
Proof.
  intros Hpp Hto Hox Hpo HQ. pose proof Hpp as [_ _ P3 P4 P5 P6 [P7 P8] P9]. pose proof (raw_len_bounds t (pl_wf _ _ P4)) as Hlb.
  destruct (outbox_frame 0 0 s s1 _ _ _ _ _ _ _ Hox (frame_reg_only _ _ P3)) as (mb1 & (L1 & L2 & L3) & Hox1). pose proof Hox1 as [R1 R2 R3 R4 [R5 R5'] R6].
  pose proof P3 as [Hok1 _ _ _ Hpo1 _ _]. destruct (ho_mr _ Hok1 _ _ R5) as [Hrin Hria].
  destruct (host_ok_region_pos _ _ Hok1 Hrin) as [Hpos _]. destruct (ho_regions _ Hok1 _ Hrin) as (_ & Hmap & _).
  unfold RdmaVan.SendMsg. cbn [rm_meta]. eapply SendMsg_prepared; [done|done|]. intros tr Hipc. cbv beta.
  rewrite (pull_meta_valid req) by done. cbn [rm_meta rm_data]. unfold HasRemoteInfo, GetRemoteAndLocalInfo, addr_map.
  rewrite (pl_push _ _ P5). rrun. rewrite R1, bool_decide_true by by eexists.
  cbn [negb]. rrun. rewrite R1. unfold get_msg_buf. rrun. apply (runs_deref _ mb1); [done|]. rrun. rewrite GetPackMetaLen_ok by apply P4.
  apply runs_CHECK; [b2p; rewrite u64_small by lia; lia|]. rrun. apply runs_CHECK; [b2p; lia|]. rrun. apply pack_into_ok; [apply P5| |].
  { rewrite P6. destruct s1 as [[] [] ?]. cbn in *. rewrite <- Hria. rewrite <- (Z.add_0_r (mr_addr ri)). eapply mapped_part; [exact Hmap|lia|lia]. }
  intros packed Hpl Hpu. rewrite R3, L1, L2 in *. set (mb' := mkMsgBuf (mb_inline_len mb) (mb_inline_buf mb) d []). rewrite P6 in Hpl.
  rrun. eapply (send_pull_ok req _ _ _ _ _ _ _ mb' ri w); [exact P5|exact Hipc|reflexivity| |reflexivity|reflexivity|cbn; lia| | | | |].
  - destruct s1 as [? [] ?]. cbn. by rewrite lookup_insert_eq.
  - by destruct s1 as [[] [] ?].
  - destruct s1 as [[] [] ?]. cbn in *. congruence.
  - destruct (host_ok_put (v_host s1) (mb_inline_buf mb) packed Hok1) as [Hok2 _].
    { rewrite Hpl. rewrite <- Hria, <- (Z.add_0_r (mr_addr ri)). eapply mapped_part; [exact Hmap|lia|lia]. }
    by destruct s1 as [[] [] ?].
  - destruct w as [[y mr]|]; [|done]. destruct P9 as (C1 & C2 & C3 & C7 & C8). split; [done|]. split; [done|]. split; [|done].
    by destruct s1 as [[] [] ?].
  - rrun. by apply HQ.
Qed.

(** The first message of its kind for the key. *)
Lemma SendMsg_new req s s1 t d t1 w es e c q Q : prepared req s s1 t d t1 w -> sends_to s (mt_recver t) es ->
  host_ok (v_host s) -> h_brk (v_host s) < 2 ^ 63 -> raw_len t < 2 ^ 30 -> h_posted (v_host s) = [] -> (length d <= 4)%nat ->
  n_eps (v_conn s) !! es = Some e -> ep_free_start_ctx e = c :: q ->
  b_pull_addr (v_tabs s) !! (mt_key t1, mt_recver t) = None -> b_cache (v_tabs s) !! b_next (v_tabs s) = None ->
  (forall ri p packed v', started s v' es c q t1 d [] ri p packed -> carries v' t1 d w ->
     Q (mkRMsg t1 d, Some (sent_len t)) v') ->
  runs (SendMsg (mkRMsg t d)) s Q.
Proof.
  intros Hpp Hto Hok Hbrk Hl Hpo Hd He Hq Hna Hfresh HQ. pose proof Hpp as [_ _ P3 P4 P5 P6 [P7 P8] P9]. pose proof (raw_len_bounds t (pl_wf _ _ P4)) as Hlb.
  pose proof P3 as [Hok1 Hg1 Hm1 Hb1 Hpo1 (M & HM & Ht1) Hc1].
  unfold RdmaVan.SendMsg. cbn [rm_meta]. eapply SendMsg_prepared; [done|done|]. intros tr Hipc. cbv beta.
  rewrite (pull_meta_valid req) by done. cbn [rm_meta rm_data]. unfold HasRemoteInfo, addr_map.
  rewrite (pl_push _ _ P5). rrun. rewrite bool_decide_false by (rewrite Ht1; destruct s as [? [] ?]; cbn in *; rewrite Hna; by intros [? ?]). cbn [negb].
  apply runs_seq_ret. apply PrepareNewMsgBuf_ok; [done|apply P5|by rewrite P6|by rewrite Hb1|rewrite Ht1; by destruct s as [? [] ?]|].
  intros p ri packed v2 Hp Hok2 Hg2 Hs2 Hb2 Hpo2 Hc2 Hri Hril Hpk Hun Ht2. rrun. unfold PrepareData. cbn [rm_meta]. rewrite (pl_push _ _ P5). cbn [andb negb]. rrun.
  assert (Hcar : carries v2 t1 d w).
  { destruct w as [[y mr]|]; [|done]. destruct P9 as (C1 & C2 & (C3 & C4 & C5 & C6) & C7 & C8). repeat (split; [done|]). split; [|done].
    split; [by rewrite Ht2|]. split; [done|]. split; [by apply Hg2|done]. }
  rewrite Ht1. eapply (SendRendezvousBegin_ok es e c q t1 d _ (mkMsgBuf (raw_len t1) p d [])); [|done| |reflexivity|reflexivity|done| |].
  { destruct v2 as [? [] ?]. cbn in *. by rewrite Hc2, Hc1. }
  { rewrite Ht2, Ht1. cbn. by rewrite lookup_insert_eq. }
  { destruct v2 as [[] [] ?]. cbn in *. by rewrite Hpo2, Hpo1. }
  rrun. rewrite GetPackMetaLen_ok by apply P4. eapply (HQ ri p packed); [|destruct w as [[y mr]|]; [|done]; by destruct v2 as [[] [] ?]]. clear HQ.
  clear Hpp Hto P9 Hcar. destruct s as [[] [] []], s1 as [[] [] ?], v2 as [[] [] []]. cbn in *. injection Ht1 as -> -> -> -> -> -> -> -> -> ->.
  injection Ht2 as -> -> -> -> -> -> -> -> -> ->. subst. injection Hc2 as -> -> -> -> -> -> -> ->. cbn in *.
  split; cbn; try done.
  - destruct Hok2; by split.
  - destruct Hg1, Hg2; cbn in *. split; cbn; [congruence|lia|auto..].
  - by exists M.
Qed.

(** ** An exchange *)

(** A channel for the pulls of a key: its rendezvous has been made, or can be. *)
Definition channel (s r : RdmaVan) (key L : Z) (ks kr : list SA) : Prop := exists tup mb ri bxp,
  outbox s (node_id r) key L tup mb ri ks /\ mailbox r L tup bxp kr.

Definition below (v : RdmaVan) (keep : list SA) : Prop := Forall (fun s => sa_data s + sa_size s <= h_brk (v_host v)) keep.

Record unopened (s r : RdmaVan) (key L : Z) (ks kr : list SA) : Prop := {
  un_addr : b_pull_addr (v_tabs s) !! (key, node_id r) = None;
  un_spare : spare r 1;
  un_brk : h_brk (v_host s) < 2 ^ 62 /\ h_brk (v_host r) < 2 ^ 62;
  un_len : L < 2 ^ 29;
  un_below : below s ks /\ below r kr }.

Lemma channel_frame k1 n1 k2 n2 s r s' r' key L ks kr : channel s r key L ks kr -> frame k1 n1 s s' -> frame k2 n2 r r' -> channel s' r' key L ks kr.
Proof.
  intros (tup & mb & ri & bxp & Ho & Hm) Fs Fr. destruct (outbox_frame _ _ _ _ _ _ _ _ _ _ _ Ho Fs) as (mb' & _ & Ho').
  exists tup, mb', ri, bxp. rewrite (node_id_frame _ _ _ _ Fr). split; [done|]. by eapply mailbox_frame.
Qed.

(** The message when its requests have been posted: [s2] and [r2] are what the
    sender [s] and the receiver [r] have become. *)
Record en_route (s r s2 r2 : RdmaVan) (es key L : Z) (t : Meta) (w : option (SA * Mr)) (tup : RemoteTuple) (mb : MessageBuffer) (ri : Mr)
    (packed : list Z) (bxp : Z) (ks kr : list SA) : Prop := {
  rt_posted : h_posted (v_host s2) = pull_requests es t w tup mb ri;
  rt_quiet : h_posted (v_host r2) = [];
  rt_outbox : outbox s2 (node_id r) key L tup mb ri ks;
  rt_mailbox : mailbox r2 L tup bxp kr;
  rt_packed : mem_bytes (h_mem (v_host s2)) (mb_inline_buf mb) (Z.to_nat L) = Some packed /\ forall m0, UnpackMeta packed m0 = Ok (arrives t m0);
  rt_sender : frame (2 ^ 31) 0 s (set_posted [] s2) /\ host_ok (v_host s2);
  rt_receiver : recv_frame (2 ^ 31) 1 r r2 /\ host_ok (v_host r2);
  rt_carries : carries s2 t (mb_data mb) w;
  rt_kept_s : forall x bs, x ∈ ks -> holds s x bs -> holds s2 x bs;
  rt_kept_r : forall i, is_Some (h_mem (v_host r) !! i) -> h_mem (v_host r2) !! i = h_mem (v_host r) !! i }.

Lemma holds_put m x bs buf packed : mem_bytes m (sa_data x) (Z.to_nat (sa_size x)) = Some bs ->
  apart (sa_data x) (sa_size x) buf (Z.of_nat (length packed)) -> mem_bytes (mem_put m buf packed) (sa_data x) (Z.to_nat (sa_size x)) = Some bs.
Proof.
  intros H Ha. destruct (decide (0 <= sa_size x)) as [Hx|Hx].
  - rewrite mem_put_apart; [done|]. unfold apart in Ha. lia.
  - by replace (Z.to_nat (sa_size x)) with 0%nat in * by lia.
Qed.

Lemma pull_sent_known req s r s1 t d t1 w es ks kr srv : talks s (node_id r) es srv -> prepared req s s1 t d t1 w -> mt_recver t = node_id r ->
  host_ok (v_host r) -> h_posted (v_host r) = [] -> channel s r (mt_key t1) (raw_len t) ks kr ->
  exists msg s2 tup mb ri packed bxp, SendMsg (mkRMsg t d) s = Ok (msg, s2) /\
    en_route s r s2 r es (mt_key t1) (raw_len t) t1 w tup mb ri packed bxp ks kr.
Proof.
  intros Hts Hpp Hrec Hokr Hqr (tup & mb & ri & bxp & Hox & Hmx). pose proof Hpp as [_ _ P3 P4 P5 P6 _ P9].
  pose proof (frame_reg_only _ _ P3) as F1. pose proof P3 as [Hok1 Hg1 Hm1 _ Hpo1 _ _].
  destruct (outbox_frame 0 0 s s1 _ _ _ _ _ _ _ Hox F1) as (mb1 & (L1 & L2 & L3) & Hox1).
  destruct (SendMsg_known req s s1 t d t1 w es tup mb ri ks
    (fun r s2 => exists packed, Z.of_nat (length packed) = raw_len t /\ (forall m0, UnpackMeta packed m0 = Ok (arrives t1 m0)) /\
       let mb' := mkMsgBuf (mb_inline_len mb) (mb_inline_buf mb) d [] in
       s2 = set_posted (pull_requests es t1 w tup mb' ri)
          (set_mem (mem_put (h_mem (v_host s1)) (mb_inline_buf mb) packed) (set_msg_bufs (<[rt_buf tup := mb']> (b_msg_bufs (v_tabs s1))) s1))))
    as (msg & s2 & Hsend & packed & Hpl & Hun & ->); [done|rewrite Hrec; by eapply talks_sends|by rewrite Hrec|by eapply tk_quiet| |].
  { intros packed Hpl Hun. by exists packed. }
  set (mb' := mkMsgBuf _ _ _ _) in *. pose proof Hox1 as [R1 R2 R3 R4 [R5 R5'] R6]. rewrite L1, L2 in *.
  destruct (ho_mr _ Hok1 _ _ R5) as [Hrin Hria]. destruct (ho_regions _ Hok1 _ Hrin) as (_ & Hmap & _).
  destruct (host_ok_put (v_host s1) (mb_inline_buf mb) packed Hok1) as [Hok2 Hg2].
  { rewrite Hpl, <- Hria, <- (Z.add_0_r (mr_addr ri)). pose proof (raw_len_bounds t (pl_wf _ _ P4)). eapply mapped_part; [exact Hmap|lia..]. }
  assert (Fb : frame 0 0 s1 (set_msg_bufs (<[rt_buf tup := mb']> (b_msg_bufs (v_tabs s1))) s1)).
  { apply (frame_buffer s1 (rt_buf tup) mb1 mb'); [done|]. split; [done|]. split; [done|]. by rewrite R3. }
  eexists msg, _, tup, mb', ri, packed, bxp. split; [exact Hsend|]. split; try done.
  - destruct Hox1 as [S1 S2 S3 S4 S5 S6]. split; try done; cbn; rewrite ?L1; try done. by rewrite lookup_insert_eq.
  - split; [|done]. change (mem_bytes (mem_put (h_mem (v_host s1)) (mb_inline_buf mb) packed) (mb_inline_buf mb) (Z.to_nat (raw_len t)) = Some packed).
    replace (Z.to_nat (raw_len t)) with (length packed) by lia. apply mem_put_bytes.
  - split; [|destruct Hok2; by split]. apply (frame_weaken (0 + (0 + 0)) _ (0 + (0 + 0)) _); [lia|lia|].
    apply (frame_trans 0 (0 + 0) 0 (0 + 0) s s1); [lia|done|]. eapply (frame_trans 0 0 0 0); [lia|exact Fb|].
    apply frame_host; [done| |cbn; lia|done|done]. destruct Hg2. by split.
  - split; [|done]. split; [|done..]. apply (frame_weaken 0 _ 0 _); [lia|lia|]. apply frame_host; [done..|lia|done|done].
  - intros x bs Hx Hh. unfold holds in *. cbn [v_host set_posted set_mem h_mem]. apply holds_put; [by rewrite Hm1|].
    rewrite Hpl. by eapply (proj1 (Forall_forall _ _) R6).
Qed.

Lemma grant_bounds srv tr room L num o d : tr_is_server tr = srv -> 0 < L <= room -> room < 2 ^ 29 + 2 ^ 20 -> (length d <= 3)%nat ->
  (srv = true -> Forall (fun s => 0 <= sa_size s < 2 ^ 26) d) ->
  L <= granted_size tr room (mkStart L num (map sa_size d) o) < 2 ^ 30.
Proof.
  intros <- HL Hr Hd Hs. unfold granted_size. cbn [rs_data_len rs_meta_len]. destruct (tr_is_server tr); [|lia]. specialize (Hs eq_refl).
  assert (H : 0 <= sum_u64 (map sa_size d) < 2 ^ 28); [|rewrite u64_small by lia; lia]. unfold sum_u64.
  destruct d as [|d1 [|d2 [|d3 [|]]]]; cbn [map fold_left length] in *; decompose_Forall_hyps; try lia.
  all: repeat match goal with |- context [u64 ?z] => lazymatch z with context [u64 _] => fail | _ => rewrite (u64_small z) by lia end end; lia.
Qed.

Lemma below_apart v keep buf L : below v keep -> h_brk (v_host v) <= buf -> all_apart keep buf L.
Proof. intros Hb Hle. eapply Forall_impl; [exact Hb|]. intros x Hx. left. cbn in Hx. lia. Qed.

Lemma pull_sent_new req fuel s r s1 t d t1 w es er ks kr srvs srvr : talks s (node_id r) es srvs -> talks r (node_id s) er srvr ->
  prepared req s s1 t d t1 w -> mt_recver t = node_id r -> unopened s r (mt_key t1) (raw_len t) ks kr -> (length d <= 3)%nat ->
  (srvr = true -> Forall (fun x => 0 <= sa_size x < 2 ^ 26) d) ->
  exists msg s' s2 r2 tup mb ri packed bxp, SendMsg (mkRMsg t d) s = Ok (msg, s') /\
    flush (S (S fuel)) es er s' r = flush fuel es er s2 r2 /\
    en_route s r s2 r2 es (mt_key t1) (raw_len t) t1 w tup mb ri packed bxp ks kr.
Proof.
  intros Hts Htr Hpp Hrec [Uaddr Uspare [Ubs Ubr] Ulen [Uks Ukr]] Hd Hsz. pose proof Hpp as [_ _ _ P4 P5 P6 [P7 P8] _].
  pose proof Hts as [Hoks Hqs _ Hobs _ (e & tr & He & Hetr & Hipc & _ & _ & Hec & _)].
  pose proof Htr as [Hokr Hqr Hqu Hobr _ (f & trf & Hf & Hftr & _ & Hsrv & _ & _ & Hfc)].
  destruct (ep_free_start_ctx e) as [|c q] eqn:Hc; [done|]. destruct (ep_free_reply_ctx f) as [|rc qr] eqn:Hrc; [done|]. clear Hec Hfc.
  pose proof (raw_len_bounds t (pl_wf _ _ P4)) as Hlb. pose proof (ho_page _ Hokr) as Hps.
  destruct (SendMsg_new req s s1 t d t1 w es e c q
    (fun _ s' => exists ri p packed, started s s' es c q t1 d [] ri p packed /\ carries s' t1 d w))
    as (msg & s' & Hsend & ri & p & packed & Hst & Hcar); try done; try lia.
  { rewrite Hrec. by eapply talks_sends. }
  { by rewrite Hrec. }
  { by apply objects_fresh. }
  { intros ri p packed v' Hst Hcar. by exists ri, p, packed. }
  pose proof Hst as [Sok Sg Sbk Sb Sc Spo (M & _ & St) (Sri & Sril & Sp) (Spk & Sun)].
  destruct (align_ceil_spec (raw_len t1) (h_pagesize (v_host r))) as (room & Hroom & Hrb & _); [lia..|].
  set (mb := mkMsgBuf (raw_len t1) p d []). set (n := granted_size trf room (mkStart (raw_len t1) (Z.of_nat (length d)) (map sa_size d) (b_next (v_tabs s)))).
  assert (Hn : raw_len t1 <= n < 2 ^ 30) by (apply (grant_bounds srvr); try done; lia).
  destruct (rendezvous shm_open_mmap fuel s s' r es er (ep_set_start q e) c q f rc qr tr trf t1 d [] ri p packed room n (fun tup => pull_requests es t1 w tup mb ri))
    as (buffer & rkey & idx & b1 & Hgt & Hfl); try done; try lia.
  { rewrite Sc. cbn. by rewrite lookup_alter_eq, He. }
  { by eapply pull_meta_valid. }
  { intros buffer rkey idx b1 Q' Hgt HQ'. rewrite (pl_push _ _ P5) in *. eapply (send_pull_ok req _ _ _ _ _ _ _ mb ri w); [exact P5|exact Hipc|reflexivity| |reflexivity|reflexivity|cbn; lia|exact Sri|reflexivity| | |exact HQ'].
    - change (b_msg_bufs (v_tabs s') !! b_next (v_tabs s) = Some mb). rewrite St. cbn. by rewrite lookup_insert_eq.
    - destruct Sok. by split.
    - destruct w as [[y mr]|]; [|done]. destruct Hcar as (C1 & C2 & C3 & C7). split; [done|]. split; [done|]. by split. }
  set (tup := mkTuple buffer rkey idx (b_next (v_tabs s))) in *. set (r2 := with_reply_ctx rc er _) in Hfl.
  pose proof (frame_sender s s' es e c q t1 d [] ri p packed tup (pull_requests es t1 w tup mb ri) Hobs He Hc Hst) as Fs.
  rewrite (pl_push _ _ P5) in Hfl, Fs. specialize (Fs ltac:(by rewrite P7, Hrec)). set (s2 := with_recv es _) in *.
  pose proof (frame_granted _ _ _ _ _ _ _ _ _ _ _ Hobr Hf Hrc Hgt) as Fr. fold r2 in Fr.
  pose proof Hgt as [Gok Gg Gb Gbe Gpo Gc Gt Gget (g & Hg1 & Hg2 & Hg3 & Hg4) [Ga1 Ga2]].
  exists msg, s', s2, r2, tup, mb, ri, packed, (b_next (v_tabs r)). split; [done|]. split; [exact Hfl|]. split; try done.
  - split; try done.
    + cbn. by rewrite P7, Hrec, lookup_insert_eq.
    + change (b_msg_bufs (v_tabs s') !! b_next (v_tabs s) = Some mb). rewrite St. cbn. by rewrite lookup_insert_eq.
    + split; [exact Sri|lia].
    + rewrite P6 in *. by eapply below_apart.
  - split.
    + exists g. repeat split; try done. lia.
    + exact Gget.
    + destruct Gt as (pool & _ & Gt). change (b_buf_ctxs (v_tabs r2)) with (b_buf_ctxs (v_tabs b1)). rewrite Gt. cbn. rewrite lookup_insert_eq, <- P6. by eexists _, _.
    + by eapply below_apart.
  - split; [|done]. by rewrite <- P6.
  - split; [done|]. destruct Sok. by split.
  - split; [done|]. destruct Gok. by split.
  - intros x bs _ Hh. by eapply (bytes_stay s s').
  - intros i Hi. apply Gbe. by apply (ho_below _ Hokr).
Qed.

(** The values to be written: an array that the channel keeps, to a place in the
    receiver's memory that it keeps too. *)
Definition values_ok (s r : RdmaVan) (t : Meta) (w : option (SA * Mr)) (bs : list Z) (ks kr : list SA) : Prop :=
  match w with
  | None => True
  | Some (y, _) => y ∈ ks /\ holds s y bs /\ writable (v_host r) (u32 (mt_option t)) (mt_addr t) (sa_size y) /\ mkSA (mt_addr t) (sa_size y) ∈ kr
  end.

(** An array that the values are not written to. *)
Definition clear (t : Meta) (w : option (SA * Mr)) (x : SA) : Prop :=
  match w with None => True | Some (y, _) => apart (sa_data x) (sa_size x) (mt_addr t) (sa_size y) end.

(** What an exchange leaves: the message at the receiver, the values in its
    memory, the channel, and all else as it was. *)
Record exchanged (s r s' r' : RdmaVan) (es er : Z) (srvs srvr : bool) (key L : Z) (t m0 : Meta) (msg : RMessage)
    (w : option (SA * Mr)) (bs : list Z) (ks kr : list SA) : Prop := {
  ex_msg : pull_received r' (arrives t (set_ends m0 (node_id s) (node_id r) (mt_timestamp m0))) msg;
  ex_channel : channel s' r' key L ks kr;
  ex_sender : frame (2 ^ 31) 0 s s' /\ talks s' (node_id r) es srvs;
  ex_receiver : recv_frame (2 ^ 31 + 64) 1 r r' /\ talks r' (node_id s) er srvr;
  ex_written : forall y mr, w = Some (y, mr) ->
    mem_bytes (h_mem (v_host r')) (mt_addr t) (Z.to_nat (sa_size y)) = Some bs /\ registered s' y mr;
  ex_kept_s : forall x b, x ∈ ks -> holds s x b -> holds s' x b;
  ex_kept_r : forall x b, x ∈ kr -> holds r x b -> clear t w x -> holds r' x b }.

Lemma en_route_arrives fuel req s r s2 r2 es er srvs srvr key L t m0 w tup mb ri packed bxp ks kr bs :
  talks s (node_id r) es srvs -> talks r (node_id s) er srvr ->
  en_route s r s2 r2 es key L t w tup mb ri packed bxp ks kr -> values_ok s r t w bs ks kr ->
  pull_meta req t -> raw_len t = L -> ct_node (mt_control m0) = [] -> raw_len t + value_len t + 12 < 2 ^ 31 -> (3 <= fuel)%nat ->
  exists msg len r1 r', flush fuel es er s2 r2 = Ok (true, set_posted [] s2, r1) /\ RecvMsg m0 r1 = Ok (Some (msg, len), r') /\
    exchanged s r (set_posted [] s2) r' es er srvs srvr key L t m0 msg w bs ks kr.
Proof.
  intros Hts Htr [Rp Rq Ro Rm [Rk Run] [Rfs Rso] [Rrr Rro] Rc Rks Rkr] Hv Hpm HL H0 Hlt Hf. pose proof (raw_len_bounds t (pl_wf _ _ Hpm)) as Hlb.
  pose proof (node_id_frame _ _ _ _ Rfs) as Hns. change (node_id s2 = node_id s) in Hns. pose proof (rf_frame _ _ _ _ Rrr) as Rfr. pose proof (node_id_frame _ _ _ _ Rfr) as Hnr.
  pose proof Ro as [O1 O2 O3 O4 [O5 O5'] O6]. pose proof Rm as [M1 M2 M3 M4]. destruct (ho_mr _ Rso _ _ O5) as [Hrin Hria].
  assert (Hap : forall y mr, w = Some (y, mr) -> apart (mt_addr t) (sa_size y) (rt_addr tup) L).
  { intros y mr ->. destruct Hv as (_ & _ & _ & Hin). by apply (proj1 (Forall_forall _ _) M4 (mkSA (mt_addr t) (sa_size y))). }
  destruct (finish_pull fuel es er s2 r2 srvr t w tup mb ri packed L bxp kr bs m0 req) as (r1 & msg & len & r' & Hfl & Hrcv & Hrec & Rr & Hok & Hpo & Hwr & Hsame); try done.
  { rewrite Hns. by eapply talks_frame. }
  { split; cbn [sg_addr sg_length sg_lkey]; [by rewrite O4|]. exists ri. split; [done|]. split; [done|]. unfold in_region. lia. }
  { destruct w as [[y mr]|]; [|done]. destruct Hv as (V1 & V2 & (g & V3 & V4 & V5) & V6). split; [by apply Rks|]. split; [|by eapply Hap].
    exists g. split; [by apply Rfr|done]. }
  rewrite Hns, Hnr in Hrec. pose proof (recv_frame_trans _ _ _ 0 _ _ _ ltac:(done) Rrr Rr) as Rr'. pose proof (rf_frame _ _ _ _ Rr') as Fr'. pose proof (rf_frame _ _ _ _ Rr) as Fr.
  exists msg, len, r1, r'. split; [done|]. split; [done|]. split.
  - exact Hrec.
  - exists tup, mb, ri, bxp. rewrite (node_id_frame _ _ _ _ Fr'). split; [by destruct Ro; split|]. by eapply mailbox_frame.
  - split; [done|]. eapply talks_frame; [done|exact Rfs|by destruct Rso; split|done].
  - split; [done|]. by eapply talks_frame.
  - intros y mr Hwy. split; [by eapply Hwr|]. subst w. by destruct Rc as (_ & _ & ? & _).
  - intros x b Hx Hh. by apply Rks.
  - intros x b Hx Hh Hcl. unfold holds in *. assert (Hx' : apart (sa_data x) (sa_size x) (rt_addr tup) L) by (by apply (proj1 (Forall_forall _ _) M4)).
    rewrite <- Hh. apply mem_bytes_same. intros i Hi. pose proof (mem_bytes_length _ _ _ _ Hh) as Hbl. apply mem_bytes_spec in Hh as [_ Hh].
    destruct (lookup_lt_is_Some_2 b (Z.to_nat (i - sa_data x)) ltac:(lia)) as [z Hz]. specialize (Hh _ _ Hz).
    replace (sa_data x + Z.of_nat (Z.to_nat (i - sa_data x))) with i in Hh by lia. unfold apart in Hx'. rewrite Hsame, Rkr; [done|by eexists| | |].
    + rewrite Rkr by (by eexists). by eexists.
    + lia.
    + destruct w as [[y mr]|]; [|done]. unfold clear, apart in Hcl. cbn [untouched]. lia.
Qed.

Lemma pull_exchange fuel req s r s1 es er srvs srvr t d t1 w m0 bs ks kr :
  talks s (node_id r) es srvs -> talks r (node_id s) er srvr -> prepared req s s1 t d t1 w -> mt_recver t = node_id r ->
  channel s r (mt_key t1) (raw_len t) ks kr \/ unopened s r (mt_key t1) (raw_len t) ks kr ->
  (length d <= 3)%nat -> (srvr = true -> Forall (fun x => 0 <= sa_size x < 2 ^ 26) d) -> values_ok s r t1 w bs ks kr ->
  ct_node (mt_control m0) = [] -> raw_len t + value_len t1 + 12 < 2 ^ 31 -> (5 <= fuel)%nat ->
  exists msg len s' r', exchange fuel es er (mkRMsg t d) m0 s r = Ok (Some (msg, len), s', r') /\
    exchanged s r s' r' es er srvs srvr (mt_key t1) (raw_len t) t1 m0 msg w bs ks kr.
Proof.
  intros Hts Htr Hpp Hrec Hch Hd Hsz Hv H0 Hlt Hf. pose proof Hpp as [_ _ _ _ P5 P6 _ _]. rewrite <- P6 in Hlt.
  assert (Hsent : exists sent s' s2 r2 tup mb ri packed bxp fuel', SendMsg (mkRMsg t d) s = Ok (sent, s') /\ (3 <= fuel')%nat /\
    flush fuel es er s' r = flush fuel' es er s2 r2 /\ en_route s r s2 r2 es (mt_key t1) (raw_len t) t1 w tup mb ri packed bxp ks kr).
  { destruct Hch as [Hch|Hun].
    - destruct (pull_sent_known req s r s1 t d t1 w es ks kr srvs) as (sent & s2 & tup & mb & ri & packed & bxp & Hs & He); try done; [by apply Htr..|].
      exists sent, s2, s2, r, tup, mb, ri, packed, bxp, fuel. split; [done|]. split; [lia|done].
    - destruct fuel as [|[|fuel]]; [lia..|]. destruct (pull_sent_new req fuel s r s1 t d t1 w es er ks kr srvs srvr)
        as (sent & s' & s2 & r2 & tup & mb & ri & packed & bxp & Hs & Hfl & He); try done.
      exists sent, s', s2, r2, tup, mb, ri, packed, bxp, fuel. split; [done|]. split; [lia|done]. }
  destruct Hsent as (sent & s' & s2 & r2 & tup & mb & ri & packed & bxp & fuel' & Hs & Hf' & Hfl & He).
  destruct (en_route_arrives fuel' req s r s2 r2 es er srvs srvr (mt_key t1) (raw_len t) t1 m0 w tup mb ri packed bxp ks kr bs)
    as (msg & len & r1 & r' & Hfl2 & Hrcv & Hex); try done.
  exists msg, len, (set_posted [] s2), r'. split; [|done]. unfold RdmaDelivery.exchange. rewrite Hs. cbn [mbind outcome_bind]. destruct sent.
  rewrite Hfl, Hfl2. cbn. by rewrite Hrcv.
Qed.
End pull.
