(* ===== verification/RdmaRounds.v ===== *)
(** A tensor that a worker pushes and pulls over the RDMA van, over and over: what
    the server gets of the pushes and the worker of the pulls. *)

From S2P Require Import Prelude State Bytes Memory PsMessage Ps Resender RdmaMem RdmaUtils RdmaState RdmaTransport RdmaVan RdmaDelivery RdmaRendezvous RdmaFrame RdmaPush RdmaExample RdmaPull.

(** The arrays with which the server answers. *)
Record Answer := mkAnswer { an_keys : SA; an_vals : SA; an_lens : SA }.
Definition an_data (y : Answer) : list SA := [an_keys y; an_vals y; an_lens y].

(** A push of the given values, and a pull when the server has these. *)
Inductive operation := OpPush (t : Meta) (bs : list Z) | OpPull (t : Meta) (bs : list Z).

Section rounds.
Context {vb : Verbs}.
Context (shm_open_mmap : list Z -> option Z).
Context (fuel : nat) (ea eb : Z) (x : Tensor) (y : Answer) (m0 : Meta) (respond : Meta -> Meta).

Notation exchange := (exchange shm_open_mmap fuel).

(** A process computes new values in place. *)
Definition compute (s : SA) (bs : list Z) (v : RdmaVan) : RdmaVan := set_mem (mem_put (h_mem (v_host v)) (sa_data s) bs) v.

(** The meta data of a message, where its values are, and the values. *)
Definition read_vals (v : RdmaVan) (r : option (RMessage * Z)) : outcome (Meta * SA * list Z) :=
  msg ← deref r;
  vs ← deref (rm_data (fst msg) !! 1%nat);
  got ← mem_read (h_mem (v_host v)) (sa_data vs) (sa_size vs);
  Ok (rm_meta (fst msg), vs, got).

(** The server answers the request that it received. *)
Definition perform (op : operation) (a b : RdmaVan) : outcome (Meta * SA * list Z * RdmaVan * RdmaVan) :=
  match op with
  | OpPush t bs =>
      '(r, a, b) ← exchange ea eb (mkRMsg t (tn_data x)) m0 (compute (tn_vals x) bs a) b;
      got ← read_vals b r;
      Ok (got, a, b)
  | OpPull t bs =>
      '(r, a, b) ← exchange ea eb (mkRMsg t [tn_keys x; mkSA 0 0]) m0 a b;
      req ← deref r;
      '(r, b, a) ← exchange eb ea (mkRMsg (respond (rm_meta (fst req))) (an_data y)) m0 (compute (an_vals y) bs b) a;
      got ← read_vals a r;
      Ok (got, a, b)
  end.

Fixpoint perform_all (l : list operation) (a b : RdmaVan) : outcome (list (Meta * SA * list Z) * RdmaVan * RdmaVan) :=
  match l with
  | [] => Ok ([], a, b)
  | op :: l' =>
      '(got, a, b) ← perform op a b;
      '(rest, a, b) ← perform_all l' a b;
      Ok (got :: rest, a, b)
  end.

(** ** What the messages look like *)

Definition request_meta (t : Meta) : Meta := set_tensor t (tn_key x) (mt_addr t) (mt_val_len t) (mt_option t).
Definition response_meta (t : Meta) (rkey : Z) : Meta := set_tensor t (tn_key x) (sa_data (tn_vals x)) (s32 (sa_size (tn_vals x))) rkey.

(** The meta data of a pull, at the server and back at the worker. *)
Definition requested (ida idb : Z) (t : Meta) : Meta := arrives (request_meta t) (set_ends m0 ida idb (mt_timestamp m0)).
Definition pulled_meta (ida idb : Z) (t : Meta) (rkey : Z) : Meta :=
  arrives (response_meta (respond (requested ida idb t)) rkey) (set_ends m0 idb ida (mt_timestamp m0)).

Context (L L1 L2 : Z).

(** The operations: pushes and pull requests of [L] and [L1] bytes of meta data. *)
Definition op_ok (idb : Z) (op : operation) : Prop :=
  match op with
  | OpPush t bs => push_of x idb L t /\ Z.of_nat (length bs) = sa_size (tn_vals x)
  | OpPull t bs => (pull_meta true t /\ mt_recver t = idb /\ idb <> kEmpty /\ raw_len t = L1) /\ Z.of_nat (length bs) = sa_size (tn_vals x)
  end.

(** The answer of the server goes to the sender of the request, for its key. *)
Definition answers (ida : Z) : Prop := ida <> kEmpty /\ forall req, mt_push req = false -> mt_request req = true ->
  mt_sender req = ida -> mt_key req = tn_key x ->
  pull_meta false (respond req) /\ mt_recver (respond req) = ida /\ mt_key (respond req) = tn_key x /\ raw_len (respond req) = L2.

(** What an operation delivers: to the server the values that were pushed; to the
    worker, in its own tensor, the values that the server had. *)
Definition delivered (ida idb : Z) (op : operation) (got : Meta * SA * list Z) : Prop :=
  match op with
  | OpPush t bs => exists rkey vs, got = (pushed_meta x ida idb m0 t rkey, vs, bs)
  | OpPull t bs => exists rkey, got = (pulled_meta ida idb t rkey, tn_vals x, bs)
  end.

Definition op_values (op : operation) : list Z := match op with OpPush _ bs | OpPull _ bs => bs end.

Lemma delivered_values ida idb l gots : Forall2 (delivered ida idb) l gots -> map snd gots = map op_values l.
Proof.
  induction 1 as [|op got l gots Hd _ IH]; [done|]. cbn [map]. rewrite IH. f_equal.
  destruct op; cbn in Hd; [by destruct Hd as (? & ? & ->)|by destruct Hd as [? ->]].
Qed.

(** ** Computing in place *)

Lemma compute_host s bs v : host_ok (v_host v) -> mapped (h_mem (v_host v)) (sa_data s) (sa_size s) -> Z.of_nat (length bs) = sa_size s ->
  host_ok (v_host (compute s bs v)) /\ frame 0 0 v (compute s bs v) /\ holds (compute s bs v) s bs.
Proof.
  intros Hok Hm Hl. destruct (host_ok_put (v_host v) (sa_data s) bs Hok) as [Hok' Hg]; [by rewrite Hl|]. split; [done|]. split.
  - apply frame_host; [done|exact Hg|cbn; lia|done|done].
  - unfold holds. replace (Z.to_nat (sa_size s)) with (length bs) by lia. apply mem_put_bytes.
Qed.

Lemma linked_compute s bs a b : linked a b ea eb -> host_ok (v_host (compute s bs a)) -> frame 0 0 a (compute s bs a) -> linked (compute s bs a) b ea eb.
Proof.
  intros Hl Hok F. pose proof Hl as [La Lb _]. eapply linked_frame; [exact Hl|exact F| |exact Hok|apply La|apply Lb|apply Lb].
  apply (frame_host 0); done || lia.
Qed.

Lemma linked_compute_r s bs a b : linked a b ea eb -> host_ok (v_host (compute s bs b)) -> frame 0 0 b (compute s bs b) -> linked a (compute s bs b) ea eb.
Proof.
  intros Hl Hok F. pose proof Hl as [La Lb _]. eapply (linked_frame 0 0); [exact Hl| |exact F|apply La|apply La|exact Hok|apply Lb].
  apply (frame_host 0); done || lia.
Qed.

Lemma tensor_compute bs a : tensor_at a x -> Z.of_nat (length bs) = sa_size (tn_vals x) -> tensor_at (compute (tn_vals x) bs a) x.
Proof. intros Hta Hl. apply tensor_at_put; [done|]. rewrite Hl. by destruct Hta. Qed.

Lemma frame_refl v : frame 0 0 v v.
Proof. apply frame_host; done || lia. Qed.

(** ** The state between two operations *)

(** The arrays of the server. *)
Record server_at (b : RdmaVan) : Prop := {
  se_keys : 0 < sa_size (an_keys y);
  se_size : sa_size (an_vals y) = sa_size (tn_vals x);
  se_vals : 0 <= sa_data (an_vals y) /\ sa_data (an_vals y) + sa_size (an_vals y) < 2 ^ 64 /\
    mapped (h_mem (v_host b)) (sa_data (an_vals y)) (sa_size (an_vals y));
  se_known : b_mem_mr (v_tabs b) !! sa_data (an_vals y) = None \/ exists mr, registered b (an_vals y) mr }.

(** Pulls that have been made, or can be within the next [n] operations. *)
Definition pulls_open (n : Z) (a b : RdmaVan) : Prop :=
  (channel a b (tn_key x) L1 [tn_keys x] [] /\ channel b a (tn_key x) L2 [an_vals y] [tn_keys x; tn_vals x]) \/
  (b_pull_addr (v_tabs a) !! (tn_key x, node_id b) = None /\ b_pull_addr (v_tabs b) !! (tn_key x, node_id a) = None /\
   spare a 1 /\ spare b 1 /\ h_brk (v_host a) < 2 ^ 62 - 2 ^ 33 /\ h_brk (v_host b) + 64 * n < 2 ^ 62 - 2 ^ 33).

Record serving (n : Z) (a b : RdmaVan) : Prop := {
  sv_push : established a b ea eb x L;
  sv_server : server_at b;
  sv_pull : pulls_open n a b }.

Lemma server_grows b b' : server_at b -> grows (v_host b) (v_host b') ->
  (b_mem_mr (v_tabs b') !! sa_data (an_vals y) = None \/ exists mr, registered b' (an_vals y) mr) -> server_at b'.
Proof.
  intros [S1 S2 (S3 & S4 & S5) _] Hg Hk. split; try done. split; [done|]. split; [done|]. rewrite mapped_spec in *. intros i Hi. apply Hg. by apply S5.
Qed.

Lemma server_recv k n b b' : server_at b -> recv_frame k n b b' -> server_at b'.
Proof.
  intros Hs [F Hm _]. eapply server_grows; [done|apply F|]. destruct Hs as [_ _ _ [Hn|[mr Hr]]]; [left; by rewrite Hm|right].
  exists mr. by eapply registered_frame.
Qed.

Lemma server_compute bs b : server_at b -> frame 0 0 b (compute (an_vals y) bs b) -> server_at (compute (an_vals y) bs b).
Proof. intros Hs F. apply (server_recv 0 0 b); [done|]. by split. Qed.

(** The region of the tensor, as both sides know it. *)
Lemma established_region a b : established a b ea eb x L -> exists mr, registered a (tn_vals x) mr /\ 0 < sa_size (tn_vals x) < 2 ^ 31 /\
  b_tensor_info (v_tabs b) !! (tn_key x, node_id a) = Some (s32 (sa_size (tn_vals x)), sa_data (tn_vals x), s32 (mr_rkey mr)).
Proof. intros [_ _ (room & tup & mb & mr & ri & bxp & kl & ll & [] & _ & _ & Hi)]. by exists mr. Qed.

(** ** Preparation of the messages of a pull *)

Lemma set_tensor_meta req t key addr len opt : pull_meta req t -> 0 <= key < 2 ^ 64 -> 0 <= addr < 2 ^ 64 -> PsMessage.is_int len -> PsMessage.is_int opt ->
  pull_meta req (set_tensor t key addr len opt).
Proof.
  intros [Hwf Hp Hr Ha Hc Hn] Hk Had Hl Ho. split; try done. revert Hwf. unfold meta_wf, is_u64. cbn.
  change (raw_len (set_tensor _ _ _ _ _)) with (raw_len t). intros (? & ? & ? & ? & ? & ? & ? & ? & ? & ? & ? & ? & ?). unfold PsMessage.is_int in *. repeat split; try done; lia.
Qed.

Lemma request_meta_ok t : pull_meta true t -> pull_meta true (request_meta t).
Proof.
  intros Hpm. pose proof (DecodeKey_u64 (tn_key_bytes x)) as Hk. pose proof (pl_wf _ _ Hpm) as (_ & _ & _ & _ & _ & _ & Had & Hl & Ho & _).
  apply set_tensor_meta; try done.
Qed.

Lemma prepared_request a t idb : host_ok (v_host a) -> tensor_at a x -> pull_meta true t -> mt_recver t = idb -> idb <> kEmpty ->
  prepared true a a t [tn_keys x; mkSA 0 0] (request_meta t) None.
Proof.
  intros Hok [[Hk Hkb] _ _] Hpm Hrec Hne. split; try done; [| | |by apply request_meta_ok|by rewrite Hrec|exact (pl_request _ _ Hpm)].
  - assert (H : runs (RegisterMemory ibv_reg_mr (mkRMsg t [tn_keys x; mkSA 0 0])) a (fun u v => u = tt /\ v = a)); [|by destruct H as (? & ? & ? & -> & ->)].
    unfold RegisterMemory. cbn [rm_data register_arrays sa_size]. rewrite (proj2 (Z.eqb_neq (sa_size (tn_keys x)) 0)) by lia. rrun.
    change (0 =? 1) with false. rewrite andb_false_r. change (0 =? 0) with true. by rrun.
  - assert (H : runs (msg ← AddMeta (mkRMsg t [tn_keys x; mkSA 0 0]); PackWorkerTensorAddress msg) a
      (fun m v => m = mkRMsg (request_meta t) [tn_keys x; mkSA 0 0] /\ v = a)); [|by destruct H as (? & ? & ? & -> & ->)].
    unfold AddMeta, read_mem. cbn [rm_meta rm_data]. rewrite (pl_request _ _ Hpm), (pl_push _ _ Hpm). cbn [andb]. rrun.
    apply (runs_deref _ (tn_keys x)); [done|]. rrun. apply (runs_lift _ (tn_key_bytes x)); [by apply mem_read_ok|]. rrun.
    unfold PackWorkerTensorAddress. cbn. rewrite (pl_request _ _ Hpm), orb_true_r. by rrun.
  - split; try done. exists (b_mem_mr (v_tabs a)). split; [done|]. by destruct a as [? [] ?].
Qed.

Lemma prepared_response b t ida rkey : host_ok (v_host b) -> server_at b -> 0 < sa_size (tn_vals x) < 2 ^ 31 ->
  0 <= sa_data (tn_vals x) < 2 ^ 64 -> pull_meta false t -> mt_recver t = ida -> ida <> kEmpty -> mt_key t = tn_key x ->
  b_tensor_info (v_tabs b) !! (tn_key x, ida) = Some (s32 (sa_size (tn_vals x)), sa_data (tn_vals x), s32 rkey) ->
  exists b1 mr, prepared false b b1 t (an_data y) (response_meta t (s32 rkey)) (Some (an_vals y, mr)).
Proof.
  intros Hok [S1 S2 (S3 & S4 & S5) S6] Hsz Had Hpm Hrec Hne Hkey Hinfo. pose proof (DecodeKey_u64 (tn_key_bytes x)) as Hk.
  destruct (register_three (an_keys y) (an_vals y) (an_lens y) b (fun u v => u = tt /\ exists mr, registered v (an_vals y) mr /\ reg_only b v))
    as (u & b1 & Hreg & -> & mr & Hr & Ho); try done; [lia| |].
  { intros mr v' Hr Ho. split; [done|]. by exists mr. }
  exists b1, mr. split; try done; [|by apply set_tensor_meta; try apply s32_int|by rewrite Hrec|].
  - assert (H : runs (msg ← AddMeta (mkRMsg t (an_data y)); PackWorkerTensorAddress msg) b1
      (fun m v => m = mkRMsg (response_meta t (s32 rkey)) (an_data y) /\ v = b1)); [|by destruct H as (? & ? & ? & -> & ->)].
    unfold AddMeta. cbn [rm_meta rm_data]. rewrite (pl_request _ _ Hpm), (pl_push _ _ Hpm). cbn [andb]. rrun.
    unfold PackWorkerTensorAddress. cbn [rm_meta set_tensor mt_push mt_request mt_key mt_recver]. rewrite (pl_request _ _ Hpm), (pl_push _ _ Hpm), Hrec, Hkey. cbn [orb]. rrun.
    destruct Ho as [_ _ _ _ _ (M & _ & Ht) _]. rewrite Ht. cbn [set_mem_mr v_tabs b_tensor_info]. rewrite Hinfo. by rrun.
  - split; [exact (pl_request _ _ Hpm)|]. split; [done|]. split; [done|]. cbn. rewrite S2. split; [apply s32_small; lia|lia].
Qed.

(** ** An operation *)

Lemma read_vals_ok v msg len k vs rest bs : rm_data msg = k :: vs :: rest -> holds v vs bs ->
  read_vals v (Some (msg, len)) = Ok (rm_meta msg, vs, bs).
Proof.
  intros Hd Hh. unfold read_vals. cbn [deref mbind outcome_bind fst]. rewrite Hd. cbn [lookup list_lookup deref mbind outcome_bind].
  by rewrite (mem_read_ok _ _ _ bs).
Qed.

Lemma read_push v t bs msg len : push_received v t bs msg -> exists vs, read_vals v (Some (msg, len)) = Ok (t, vs, bs).
Proof.
  intros (Hm & k & vs & l & Hd & _ & _ & Hs & Hb & _). exists vs. rewrite <- Hm. eapply read_vals_ok; [exact Hd|]. unfold holds. by rewrite Hs, Nat2Z.id.
Qed.

Context (Hfuel : (5 <= fuel)%nat) (H0 : ct_node (mt_control m0) = []).

(** Unopened pulls are not touched by a push that has its rendezvous behind it. *)
Lemma pulls_open_push n a b a' b' : pulls_open (n + 1) a b -> frame 0 0 a a' -> recv_frame 64 0 b b' ->
  b_pull_addr (v_tabs a') = b_pull_addr (v_tabs a) -> pulls_open n a' b'.
Proof.
  intros [[Hc1 Hc2]|(P1 & P2 & P3 & P4 & P5 & P6)] Fa [Fb _ Rp] Ha.
  - left. split; by eapply channel_frame.
  - right. rewrite (node_id_frame _ _ _ _ Fa), (node_id_frame _ _ _ _ Fb), Ha, Rp. split; [done|]. split; [done|].
    split; [apply (fm_spare _ _ _ _ Fa); [lia|done]|]. split; [apply (fm_spare _ _ _ _ Fb); [lia|done]|].
    pose proof (fm_brk _ _ _ _ Fa). pose proof (fm_brk _ _ _ _ Fb). lia.
Qed.

Lemma perform_push n a b t bs : serving (n + 1) a b -> op_ok (node_id b) (OpPush t bs) ->
  exists got a' b', perform (OpPush t bs) a b = Ok (got, a', b') /\ delivered (node_id a) (node_id b) (OpPush t bs) got /\
    serving n a' b' /\ node_id a' = node_id a /\ node_id b' = node_id b.
Proof.
  intros [Hes Hse Hpu] [Hpo Hl]. pose proof Hes as [Hlk Hta _]. pose proof Hlk as [La _ _].
  destruct (compute_host (tn_vals x) bs a (tk_host _ _ _ _ La)) as (Hok & Fc & Hh); [by destruct Hta as [_ (? & ? & ? & ?) _]|done|].
  assert (Hes' : established (compute (tn_vals x) bs a) b ea eb x L).
  { eapply (established_frame 0 0 0 0); [exact Hes|by apply linked_compute|by apply tensor_compute|done|apply frame_refl]. }
  destruct (push_again shm_open_mmap fuel _ b ea eb x L t m0 bs Hes' Hh Hpo H0 ltac:(lia)) as (msg & len & a' & b' & rkey & Hex & Hgot & Hes2 & Fa & Rb & Ha).
  change (node_id (compute (tn_vals x) bs a)) with (node_id a) in *. pose proof (frame_trans 0 0 0 0 _ _ _ ltac:(done) Fc Fa) as Fa'. pose proof (rf_frame _ _ _ _ Rb) as Fb.
  destruct (read_push _ _ _ _ len Hgot) as [vs Hrd]. exists (pushed_meta x (node_id a) (node_id b) m0 t rkey, vs, bs), a', b'.
  split; [cbn [perform]; rewrite Hex; cbn [mbind outcome_bind]; by rewrite Hrd|]. split; [by exists rkey, vs|].
  split; [|split; [by apply (node_id_frame _ _ _ _ Fa')|by apply (node_id_frame _ _ _ _ Fb)]]. split; [done|by eapply server_recv|].
  eapply pulls_open_push; [exact Hpu|exact Fa'|exact Rb|exact Ha].
Qed.

(** ** A pull *)

Context (Hks : 0 <= sa_size (tn_keys x) < 2 ^ 26) (Hvs : sa_size (tn_vals x) < 2 ^ 29) (HL1 : L1 < 2 ^ 29) (HL2 : L2 < 2 ^ 29).

Lemma u32_s32 z : fits 32 z -> u32 (s32 z) = z.
Proof.
  intros Hz. unfold u32, s32, swrap. change ((z + 2 ^ (32 - 1)) `mod` 2 ^ 32) with (wrap 32 (z + 2 ^ 31)). rewrite wrap_sub_l.
  change (2 ^ (32 - 1)) with (2 ^ 31). replace (z + 2 ^ 31 - 2 ^ 31) with z by lia. by apply wrap_small.
Qed.

Lemma tensor_at_grows a a' : tensor_at a x -> grows (v_host a) (v_host a') -> holds a' (tn_keys x) (tn_key_bytes x) -> tensor_at a' x.
Proof.
  intros [[T1 T2] (T3 & T4 & T5 & T6) T7] Hg Hk. split; [done|split; [done|split; [done|split; [done|]]]|done].
  rewrite mapped_spec in *. intros i Hi. apply Hg. by apply T6.
Qed.

Lemma linked_talks k1 n1 k2 n2 a b a' b' : linked a b ea eb -> frame k1 n1 a a' -> frame k2 n2 b b' ->
  talks a' (node_id b) ea false -> talks b' (node_id a) eb true -> linked a' b' ea eb.
Proof.
  intros [_ _ Lp] Fa Fb Ta Tb. split; rewrite ?(node_id_frame _ _ _ _ Fa), ?(node_id_frame _ _ _ _ Fb); try done.
  by rewrite (gr_page _ _ (fm_grows _ _ _ _ Fa)), (gr_page _ _ (fm_grows _ _ _ _ Fb)).
Qed.

Lemma mapped_below v p n : host_ok (v_host v) -> mapped (h_mem (v_host v)) p n -> 0 < n -> p + n <= h_brk (v_host v).
Proof. intros Hok Hm Hn. rewrite mapped_spec in Hm. pose proof (ho_below _ Hok _ (Hm (p + n - 1) ltac:(lia))). lia. Qed.

(** A pull between its request and its response. *)
Record asked (a b : RdmaVan) : Prop := {
  as_push : established a b ea eb x L;
  as_server : server_at b;
  as_request : channel a b (tn_key x) L1 [tn_keys x] [];
  as_response : channel b a (tn_key x) L2 [an_vals y] [tn_keys x; tn_vals x] \/
    unopened b a (tn_key x) L2 [an_vals y] [tn_keys x; tn_vals x] }.

Lemma ask n a b t bs : 0 <= n -> serving n a b -> op_ok (node_id b) (OpPull t bs) ->
  exists msg len a' b', exchange ea eb (mkRMsg t [tn_keys x; mkSA 0 0]) m0 a b = Ok (Some (msg, len), a', b') /\
    rm_meta msg = requested (node_id a) (node_id b) t /\ asked a' b' /\ node_id a' = node_id a /\ node_id b' = node_id b.
Proof.
  intros Hn [Hes Hse Hpu] [(Hpm & Hrec & Hne & HL) _]. pose proof Hes as [Hlk Hta _]. pose proof Hlk as [La Lb _].
  pose proof (tk_host _ _ _ _ La) as Hoka. pose proof (tk_host _ _ _ _ Lb) as Hokb. pose proof (keys_below a x Hoka Hta) as Hkb.
  pose proof Hta as [[Hk0 Hkk] (Hv0 & Hv1 & Hv2 & Hvm) Hap].
  destruct (pull_exchange shm_open_mmap fuel true a b a ea eb false true t [tn_keys x; mkSA 0 0] (request_meta t) None m0 [] [tn_keys x] [])
    as (msg & len & a' & b' & Hex & [Hmsg Hch [Fa Ta] [Rb Tb] _ Hks' _]); try done; try lia.
  { by eapply prepared_request. }
  { rewrite HL. destruct Hpu as [[Hc _]|(P1 & P2 & P3 & P4 & P5 & P6)]; [by left|right]. split; try done; [lia|].
    split; [by constructor|constructor]. }
  { cbn. lia. }
  { intros _. repeat constructor; cbn; lia. }
  { unfold value_len. cbn. rewrite (pl_request _ _ Hpm). lia. }
  change (mt_key (request_meta t)) with (tn_key x) in *. rewrite HL in Hch. pose proof (rf_frame _ _ _ _ Rb) as Fb.
  assert (Hlk' : linked a' b' ea eb) by (by eapply linked_talks).
  assert (Hta' : tensor_at a' x). { eapply tensor_at_grows; [done|apply Fa|]. apply Hks'; [apply list_elem_of_here|done]. }
  exists msg, len, a', b'. split; [done|]. split; [apply Hmsg|]. split; [|split; [by eapply node_id_frame|by eapply node_id_frame]].
  split; [by eapply established_frame|by eapply server_recv|done|].
  destruct Hpu as [[_ Hc]|(P1 & P2 & P3 & P4 & P5 & P6)]; [left; by eapply channel_frame|right].
  pose proof (fm_brk _ _ _ _ Fa). pose proof (fm_brk _ _ _ _ Fb). pose proof (fm_grows _ _ _ _ Fa) as Ga. pose proof (fm_grows _ _ _ _ Fb) as Gb.
  destruct Hse as [_ S2 (_ & _ & S5) _]. pose proof (mapped_below _ _ _ Hokb S5 ltac:(lia)). pose proof (mapped_below _ _ _ Hoka Hvm ltac:(lia)). 
  pose proof (gr_brk _ _ Ga). pose proof (gr_brk _ _ Gb). split.
  - by rewrite (rf_pull _ _ _ _ Rb), (node_id_frame _ _ _ _ Fa).
  - apply (fm_spare _ _ _ _ Fa); [lia|done].
  - lia.
  - done.
  - unfold below. split; repeat constructor; lia.
Qed.

(** What the last exchange of a pull leaves. *)
Record pulled (a b : RdmaVan) : Prop := {
  pd_push : established a b ea eb x L;
  pd_server : server_at b;
  pd_request : channel a b (tn_key x) L1 [tn_keys x] [];
  pd_response : channel b a (tn_key x) L2 [an_vals y] [tn_keys x; tn_vals x] }.

Lemma answer a b t bs : asked a b -> holds b (an_vals y) bs -> pull_meta false t -> mt_recver t = node_id a ->
  node_id a <> kEmpty -> mt_key t = tn_key x -> raw_len t = L2 ->
  exists rkey msg len a' b', exchange eb ea (mkRMsg t (an_data y)) m0 b a = Ok (Some (msg, len), b', a') /\
    read_vals a' (Some (msg, len)) = Ok (arrives (response_meta t rkey) (set_ends m0 (node_id b) (node_id a) (mt_timestamp m0)), tn_vals x, bs) /\
    pulled a' b' /\ node_id a' = node_id a /\ node_id b' = node_id b.
Proof.
  intros [Hes Hse Hc1 Hc2] Hh Hpm Hrec Hne Hkey HL. pose proof Hes as [Hlk Hta _]. pose proof Hlk as [La Lb _].
  pose proof (tk_host _ _ _ _ La) as Hoka. pose proof (tk_host _ _ _ _ Lb) as Hokb.
  pose proof Hta as [[Hk0 Hkk] (Hv0 & Hv1 & Hv2 & Hvm) Hap]. pose proof Hse as [S1 S2 (S3 & S4 & S5) S6].
  destruct (established_region a b Hes) as (rg & (Hr1 & Hr2 & Hr3 & Hr4) & Hsz & Hinfo).
  destruct (prepared_response b t (node_id a) (mr_rkey rg)) as (b1 & mr & Hpp); try done; [lia|].
  assert (Hvals : mkSA (sa_data (tn_vals x)) (sa_size (an_vals y)) = tn_vals x) by (rewrite S2; by destruct (tn_vals x)).
  set (t1 := response_meta t (s32 (mr_rkey rg))) in *. assert (Hvl : mt_val_len t1 = sa_size (tn_vals x)) by (apply s32_small; lia).
  destruct (pull_exchange shm_open_mmap fuel false b a b1 eb ea true false t (an_data y) t1 (Some (an_vals y, mr)) m0 bs [an_vals y] [tn_keys x; tn_vals x])
    as (msg & len & b' & a' & Hex & [Hmsg Hch [Fb Tb] [Ra Ta] Hwr Hks' Hkr]); try done; try lia.
  { by rewrite HL. }
  { split; [apply list_elem_of_here|]. split; [done|]. change (mt_addr t1) with (sa_data (tn_vals x)). change (mt_option t1) with (s32 (mr_rkey rg)). split.
    - destruct (ho_regions _ Hoka _ Hr3) as (_ & _ & _ & _ & Hf). rewrite u32_s32 by done. exists rg. unfold in_region. repeat split; try done; lia.
    - rewrite Hvals. set_solver. }
  { unfold value_len. rewrite Hvl. case_match; [lia|]. rewrite u64_small by lia. lia. }
  change (mt_key t1) with (tn_key x) in *. change (mt_addr t1) with (sa_data (tn_vals x)) in *. rewrite HL in Hch. pose proof (rf_frame _ _ _ _ Ra) as Fa.
  destruct (Hwr _ _ eq_refl) as [Hgot Hreg]. destruct Hmsg as (Hm & k & rest & Hd & _ & _ & Hrest).
  change (mt_request (arrives t1 _)) with (mt_request t1) in Hrest. rewrite (pl_request _ _ (pp_meta1 _ _ _ _ _ _ _ Hpp)) in Hrest.
  destruct Hrest as (l & -> & _). exists (s32 (mr_rkey rg)), msg, len, a', b'. split; [done|]. split.
  { rewrite (read_vals_ok a' msg len k (tn_vals x) [l] bs); [by rewrite Hm| |by unfold holds; rewrite <- S2].
    rewrite Hd. change (mt_addr (arrives t1 _)) with (sa_data (tn_vals x)). change (mt_val_len (arrives t1 _)) with (mt_val_len t1).
    rewrite Hvl, u64_small by lia. rewrite S2 in Hvals. by rewrite Hvals. }
  split; [|split; [by eapply node_id_frame|by eapply node_id_frame]].
  assert (Hta' : tensor_at a' x). { eapply tensor_at_grows; [done|apply Fa|]. apply Hkr; [set_solver|done|]. unfold clear. rewrite S2. exact Hap. }
  split; [|by eapply server_grows; [done|apply Fb|right; eexists]|by eapply channel_frame|done].
  eapply established_frame; [done|by eapply linked_talks|done|exact Fa|exact Fb].
Qed.
Lemma perform_pull n a b t bs : 0 <= n -> serving n a b -> op_ok (node_id b) (OpPull t bs) -> answers (node_id a) ->
  exists got a' b', perform (OpPull t bs) a b = Ok (got, a', b') /\ delivered (node_id a) (node_id b) (OpPull t bs) got /\
    serving n a' b' /\ node_id a' = node_id a /\ node_id b' = node_id b.
Proof.
  intros Hn Hsv Hop [Hne Hans]. destruct (ask n a b t bs Hn Hsv Hop) as (msg & len & a1 & b1 & Hex & Hmsg & Has & Hna & Hnb).
  destruct Hop as [(Hpm & _) Hl]. pose proof Has as [Hes Hse Hc1 Hc2]. pose proof Hes as [Hlk Hta _]. pose proof Hlk as [_ Lb _].
  pose proof Hse as [_ S2 (_ & _ & S5) _]. rewrite <- S2 in Hl.
  destruct (compute_host (an_vals y) bs b1 (tk_host _ _ _ _ Lb) S5 Hl) as (Hok & Fc & Hh).
  assert (Has' : asked a1 (compute (an_vals y) bs b1)).
  { split; [|by apply server_compute|by eapply channel_frame; [done|apply frame_refl|]|].
    - eapply established_frame; [exact Hes|by apply linked_compute_r|done|apply frame_refl|exact Fc].
    - destruct Hc2 as [Hc|[U1 U2 U3 U4 U5]]; [left; eapply channel_frame; [done|exact Fc|apply frame_refl]|right; by split]. }
  set (t' := respond (rm_meta msg)). assert (Ht' : t' = respond (requested (node_id a) (node_id b) t)) by (unfold t'; by rewrite Hmsg).
  destruct (Hans (requested (node_id a) (node_id b) t)) as (A1 & A2 & A3 & A4); [apply (pl_push _ _ Hpm)|apply (pl_request _ _ Hpm)|done|done|].
  rewrite <- Ht' in *. destruct (answer a1 (compute (an_vals y) bs b1) t' bs Has' Hh A1) as (rkey & rmsg & rlen & a2 & b2 & Hex2 & Hrd & [Q1 Q2 Q3 Q4] & Hna2 & Hnb2);
    [by rewrite Hna|by rewrite Hna|done..|].
  change (node_id (compute (an_vals y) bs b1)) with (node_id b1) in *.
  exists (pulled_meta (node_id a) (node_id b) t rkey, tn_vals x, bs), a2, b2. split; [|split; [by exists rkey|]].
  - cbn [perform]. rewrite Hex. cbn [mbind outcome_bind deref fst]. fold t'. rewrite Hex2. cbn [mbind outcome_bind]. rewrite Hrd.
    cbn [mbind outcome_bind]. unfold pulled_meta. by rewrite <- Ht', Hna, Hnb.
  - split; [split; [done|done|by left]|]. split; congruence.
Qed.

Lemma perform_serving n a b op : 0 <= n -> serving (n + 1) a b -> op_ok (node_id b) op -> answers (node_id a) ->
  exists got a' b', perform op a b = Ok (got, a', b') /\ delivered (node_id a) (node_id b) op got /\
    serving n a' b' /\ node_id a' = node_id a /\ node_id b' = node_id b.
Proof.
  intros Hn Hsv Hop Hans. destruct op as [t bs|t bs]; [by apply perform_push|]. apply perform_pull; [done| |done|done].
  destruct Hsv as [H1 H2 H3]. split; [done..|]. destruct H3 as [H3|(P1 & P2 & P3 & P4 & P5 & P6)]; [by left|right]. repeat split; try done. lia.
Qed.

Lemma perform_rest l : forall a b, serving (Z.of_nat (length l)) a b -> Forall (op_ok (node_id b)) l -> answers (node_id a) ->
  exists gots a' b', perform_all l a b = Ok (gots, a', b') /\ Forall2 (delivered (node_id a) (node_id b)) l gots.
Proof.
  induction l as [|op l IH]; intros a b Hsv Hl Hans; [by exists [], a, b|]. apply Forall_cons in Hl as [Hop Hl].
  destruct (perform_serving (Z.of_nat (length l)) a b op) as (got & a1 & b1 & Hp & Hd & Hsv1 & Hna & Hnb); [lia| |done..|].
  { cbn [length] in Hsv. by replace (Z.of_nat (length l) + 1) with (Z.of_nat (S (length l))) by lia. }
  destruct (IH a1 b1 Hsv1) as (gots & a' & b' & Hps & Hds); [by rewrite Hnb|by rewrite Hna|]. rewrite Hna, Hnb in Hds.
  exists (got :: gots), a', b'. split; [|by constructor]. cbn [perform_all]. rewrite Hp. cbn [mbind outcome_bind]. by rewrite Hps.
Qed.

(** ** The first push *)

(** Worker and server before [n] operations on the tensor: connected, with free
    slots in the address pools, and no message of the tensor so far. *)
Record start (n : Z) (a b : RdmaVan) : Prop := {
  st_linked : linked a b ea eb;
  st_fresh : fresh a b x;
  st_tensor : tensor_at a x;
  st_server : server_at b;
  st_pulls : b_pull_addr (v_tabs a) !! (tn_key x, node_id b) = None /\ b_pull_addr (v_tabs b) !! (tn_key x, node_id a) = None;
  st_spare : spare a 1 /\ spare b 2;
  st_brk : h_brk (v_host a) < 2 ^ 61 /\ h_brk (v_host b) + 64 * n < 2 ^ 61 }.

Lemma perform_first n a b t bs : 0 <= n -> start n a b -> op_ok (node_id b) (OpPush t bs) ->
  exists got a' b', perform (OpPush t bs) a b = Ok (got, a', b') /\ delivered (node_id a) (node_id b) (OpPush t bs) got /\
    serving n a' b' /\ node_id a' = node_id a /\ node_id b' = node_id b.
Proof.
  intros Hn [Hlk Hfr Hta Hse [P1 P2] [Sa Sb] [Ka Kb]] [Hpo Hl]. pose proof Hlk as [La _ _].
  destruct (compute_host (tn_vals x) bs a (tk_host _ _ _ _ La)) as (Hok & Fc & Hh); [by destruct Hta as [_ (? & ? & ? & ?) _]|done|].
  destruct (push_first shm_open_mmap fuel (compute (tn_vals x) bs a) b ea eb x L t m0 bs) as (msg & len & a' & b' & rkey & Hex & Hgot & Hes & Fa & Rb & Ha); try done.
  { by apply linked_compute. }
  { destruct Hfr. by split. }
  { by apply tensor_compute. }
  change (node_id (compute (tn_vals x) bs a)) with (node_id a) in *. pose proof (frame_trans 0 _ 0 0 _ _ _ ltac:(done) Fc Fa) as Fa'. pose proof (rf_frame _ _ _ _ Rb) as Fb.
  destruct (read_push _ _ _ _ len Hgot) as [vs Hrd]. exists (pushed_meta x (node_id a) (node_id b) m0 t rkey, vs, bs), a', b'.
  split; [cbn [perform]; rewrite Hex; cbn [mbind outcome_bind]; by rewrite Hrd|]. split; [by exists rkey, vs|].
  pose proof (node_id_frame _ _ _ _ Fa') as Hna. pose proof (node_id_frame _ _ _ _ Fb) as Hnb. split; [|done]. split; [done|by eapply server_recv|right].
  rewrite Hna, Hnb, Ha, (rf_pull _ _ _ _ Rb). pose proof (fm_brk _ _ _ _ Fa'). pose proof (fm_brk _ _ _ _ Fb).
  split; [done|]. split; [done|]. split; [by apply (fm_spare _ _ _ _ Fa')|]. split; [by apply (fm_spare _ _ _ _ Fb)|lia].
Qed.

(** C7: a worker pushes and pulls a tensor over and over; the first operation is
    a push, as the server has nothing to answer a pull with before, and the others
    come in any order. Whatever values it computes into the tensor before a push, and
    whatever the meta data of the messages (receiver and packed length apart), the
    server receives every push, in order, with the meta data of that push and
    exactly those values; and whatever values the server computes before it
    answers a pull, the worker receives the answer's meta data with the values in
    the tensor itself. Worker and server start connected, with a free context each, free slots in the
    address pools, and no earlier message of the tensor. *)
Theorem pushes_and_pulls_delivered t bs l a b (Hst : start (Z.of_nat (length l)) a b) (Hop : Forall (op_ok (node_id b)) (OpPush t bs :: l))
    (Hans : answers (node_id a)) :
  exists gots a' b', perform_all (OpPush t bs :: l) a b = Ok (gots, a', b') /\
    Forall2 (delivered (node_id a) (node_id b)) (OpPush t bs :: l) gots.
Proof.
  apply Forall_cons in Hop as [Hop Hl].
  destruct (perform_first (Z.of_nat (length l)) a b t bs) as (got & a1 & b1 & Hp & Hd & Hsv & Hna & Hnb); [lia|done..|].
  destruct (perform_rest l a1 b1 Hsv) as (gots & a' & b' & Hps & Hds); [by rewrite Hnb|by rewrite Hna|]. rewrite Hna, Hnb in Hds.
  exists (got :: gots), a', b'. split; [|by constructor]. cbn [perform_all]. rewrite Hp. cbn [mbind outcome_bind]. by rewrite Hps.
Qed.
End rounds.

(** ** An example *)

Definition example_answer : Answer := mkAnswer (mkSA 64 8) (mkSA 128 4) (mkSA 192 4).

Definition example_pull (timestamp : Z) : Meta :=
  mkMeta 0 0 0 timestamp kEmpty 8 true false false [] [UINT64; CHAR] (mkControl EMPTY [] 0 0) 8 0 0 0 0.

(** The server's answer to a request: to its sender, for its key. *)
Definition example_respond (req : Meta) : Meta :=
  mkMeta 0 0 0 (s32 (mt_timestamp req)) kEmpty (mt_sender req) false false false [] [UINT64; CHAR; INT32] (mkControl EMPTY [] 0 0) 16 (mt_key req) 0 0 0.

Lemma example_spare me peer m srv n : n <= 2 -> spare (example_rdma me peer m srv) n.
Proof.
  intros Hn. destruct (pool_new_rel 2 ltac:(lia)) as (p & Hp & Hrel). vm_compute in Hp. injection Hp as <-. exists 2, ∅. split; [done|]. rewrite map_size_empty. lia.
Qed.

Lemma example_talks me peer srv : talks (example_rdma me peer example_mem srv) peer 5 srv.
Proof.
  split; [apply example_host_ok, example_mem_below|done|done| |cbn; by rewrite lookup_singleton_eq|].
  - split; cbn; intros i; rewrite lookup_empty; by intros [? ?].
  - eexists _, _. cbn. rewrite lookup_singleton_eq. by repeat split.
Qed.

Lemma example_start n : 0 <= n < 2 ^ 32 -> start 5 5 example_tensor example_answer n example_worker example_server.
Proof.
  intros Hn. split; try done; try (cbn; lia).
  - split; [apply example_talks..|done].
  - split; try done. by apply example_spare.
  - split; [done| |cbn; unfold apart; lia]. split; [done|]. split; [done|]. split; [done|]. by eexists.
  - split; try done; [|by left]. split; [done|]. split; [done|]. by eexists.
  - split; by apply example_spare.
Qed.

Lemma example_respond_ok req : mt_sender req = 9 -> mt_key req = tn_key example_tensor ->
  pull_meta false (example_respond req) /\ mt_recver (example_respond req) = 9 /\
  mt_key (example_respond req) = tn_key example_tensor /\ raw_len (example_respond req) = 100.
Proof.
  intros Hs Hk. split; [|by rewrite <- Hs]. split; try reflexivity. unfold meta_wf.
  change (raw_len (example_respond req)) with 100. unfold example_respond. cbn [mt_head mt_app_id mt_customer_id mt_timestamp mt_data_size mt_key mt_addr mt_val_len mt_option mt_control ct_barrier_group ct_msg_sig ct_node].
  rewrite Hk. pose proof (s32_int (mt_timestamp req)). pose proof (DecodeKey_u64 (tn_key_bytes example_tensor)) as Hu.
  unfold PsMessage.is_int, is_u64 in *. split_and!; try lia; try apply Hu. constructor.
Qed.

Lemma pushes_and_pulls_delivered_witness :
  let l := [OpPush (example_push 2) [5; 6; 7; 8]; OpPull (example_pull 3) [0; 1; 2; 3]; OpPull (example_pull 4) [9; 9; 9; 9]; OpPush (example_push 5) [4; 3; 2; 1]] in
  let all := OpPush (example_push 1) [1; 2; 3; 4] :: l in
  exists gots a' b', perform_all (vb := example_verbs) (fun _ => None) 5 5 5 example_tensor example_answer example_empty_meta example_respond all example_worker example_server = Ok (gots, a', b') /\
    Forall2 (delivered example_tensor example_empty_meta example_respond 9 8) all gots /\
    map snd gots = [[1; 2; 3; 4]; [5; 6; 7; 8]; [0; 1; 2; 3]; [9; 9; 9; 9]; [4; 3; 2; 1]].
Proof.
  intros l all. destruct (pushes_and_pulls_delivered (vb := example_verbs) (fun _ => None) 5 5 5 example_tensor example_answer example_empty_meta example_respond
    100 96 100 ltac:(lia) eq_refl ltac:(cbn; lia) ltac:(cbn; lia) ltac:(lia) ltac:(lia) (example_push 1) [1; 2; 3; 4] l example_worker example_server)
    as (gots & a' & b' & Hall & Hf).
  - apply example_start. cbn. lia.
  - repeat constructor; try done; try (cbn; lia).
  - split; [by vm_compute|]. intros req _ _ Hs Hk. by apply example_respond_ok.
  - exists gots, a', b'. split; [exact Hall|]. split; [exact Hf|]. clear Hall.
    by rewrite (delivered_values _ _ _ _ _ _ _ Hf).
Defined.
