(* ===== verification/RdmaSlots.v ===== *)
(** The slots of the address pool: every rendezvous of the RDMA van takes one,
    and nothing gives one back. *)

From S2P Require Import Prelude State Bytes Memory PsMessage Ps Resender RdmaMem RdmaUtils RdmaState RdmaTransport RdmaVan.

Section slots.
Context (ibv_reg_mr : list Mr -> Z -> Z -> option (Z * Z)).
Context (ibv_post_send : Mem -> Z -> list (Z * WorkRequest) -> WorkRequest -> bool).
Context (shm_open_mmap : list Z -> option Z).

Definition pool_of (v : RdmaVan) : AddressPool := b_pool (v_tabs v).
Definition free_slots (v : RdmaVan) : nat := length (ap_indices (pool_of v)).

(** ** Operations that leave the pool *)

Lemma keeps_host {A} (f : Host -> A) : keeps pool_of (host f).
Proof. apply keeps_gets. Qed.
Lemma keeps_tabs {A} (f : Tables -> A) : keeps pool_of (tabs f).
Proof. apply keeps_gets. Qed.
Lemma keeps_conn {A} (f : Conn -> A) : keeps pool_of (conn f).
Proof. apply keeps_gets. Qed.
Lemma keeps_rd_ps {A} (m : ps A) : keeps pool_of (rd_ps m).
Proof. intros v a v'. unfold rd_ps. destruct (m _) as [[? ?]| | |]; [|done..]. by intros [= _ <-]. Qed.
#[local] Hint Resolve keeps_host keeps_tabs keeps_conn keeps_rd_ps : keeps.

Ltac leaves := unfold new_object, get_endpoint, modify_endpoint; keeps.

Lemma keeps_post ep wr : keeps pool_of (post_send ibv_post_send ep wr).
Proof. unfold post_send. leaves. Qed.
Lemma keeps_alloc size : keeps pool_of (Alloc ibv_reg_mr size).
Proof. unfold Alloc, ib_malloc, new_block, register. leaves. Qed.
Lemma keeps_sarray bs : keeps pool_of (CreateFunctionalSarray bs).
Proof. unfold CreateFunctionalSarray, new_block. leaves. Qed.
#[local] Hint Resolve keeps_post keeps_alloc keeps_sarray : keeps.

Lemma keeps_imm ep buf a k i : keeps pool_of (RDMAWriteWithImm ibv_post_send ep buf a k i).
Proof. unfold RDMAWriteWithImm, get_msg_buf, LocalKey, Addr2MR. leaves. Qed.
Lemma keeps_shm ep p k : keeps pool_of (GetSharedMemory shm_open_mmap ep p k).
Proof. unfold GetSharedMemory, get_ipc, set_ipc. leaves. Qed.
Lemma keeps_memcpy d s n : keeps pool_of (rd_memcpy d s n).
Proof. unfold rd_memcpy, read_mem, write_mem. leaves. Qed.
#[local] Hint Resolve keeps_imm keeps_shm keeps_memcpy : keeps.

Lemma keeps_send_pushpull tr ep msg buf t : keeps pool_of (send_pushpull ibv_post_send shm_open_mmap tr ep msg buf t).
Proof.
  unfold send_pushpull, SendPushRequest, SendPullResponse, SendPushResponse, SendPullRequest, Rdma_SendPushRequest, Rdma_SendPullResponse,
    Ipc_SendPushRequest, Ipc_SendPullResponse, Rdma_Send, check_mrs, get_msg_buf, find_mr, get_ipc, set_ipc. leaves.
Qed.
Lemma keeps_pack buf t : keeps pool_of (pack_into buf t).
Proof. unfold pack_into, read_mem, write_mem. leaves. Qed.
Lemma keeps_register l n : keeps pool_of (register_arrays ibv_reg_mr l n).
Proof. revert n. induction l as [|sa l IH]; intros n; cbn [register_arrays]; unfold register; leaves. Qed.
Lemma keeps_release ctx ep : keeps pool_of (ReleaseWorkRequestContext ctx ep).
Proof. unfold ReleaseWorkRequestContext. leaves. Qed.
Lemma keeps_addr_map p : keeps pool_of (addr_map p).
Proof. unfold addr_map. leaves. Qed.
Lemma keeps_set_addr_map p m : keeps pool_of (set_addr_map p m).
Proof. unfold set_addr_map. leaves. Qed.
Lemma keeps_transport ep : keeps pool_of (GetTransport ep).
Proof. unfold GetTransport. leaves. Qed.
#[local] Hint Resolve keeps_send_pushpull keeps_pack keeps_register keeps_release keeps_addr_map keeps_set_addr_map keeps_transport : keeps.

Lemma keeps_reply ep r : keeps pool_of (OnRendezvousReply ibv_post_send shm_open_mmap ep r).
Proof. unfold OnRendezvousReply, StoreRemoteAndLocalInfo, GetFirstMsg, GetRemoteAndLocalInfo, ReleaseFirstMsg. leaves. Qed.
#[local] Hint Resolve keeps_reply : keeps.

Lemma keeps_SendMsg msg : keeps pool_of (SendMsg ibv_reg_mr ibv_post_send shm_open_mmap msg).
Proof.
  unfold SendMsg, RegisterMemory, AddMeta, PackWorkerTensorAddress, HasRemoteInfo, PrepareNewMsgBuf, StoreMsgBuf, PrepareData,
    SendRendezvousBegin, GetRemoteAndLocalInfo, find_mr, get_msg_buf, read_mem. leaves.
Qed.

Lemma keeps_RecvMsg meta : keeps pool_of (RecvMsg shm_open_mmap meta).
Proof.
  unfold RecvMsg, RecvPushRequest, Rdma_RecvPushRequest, Ipc_RecvPushRequest, RecvPullRequest, RecvPushResponse, RecvPullResponse,
    StoreWorkerTensorAddress, read_mem. leaves.
Qed.

Lemma keeps_copy ep i : keeps pool_of (AsyncCopyThread ibv_post_send ep i).
Proof. unfold AsyncCopyThread, get_ipc, set_ipc. leaves. Qed.

(** ** The slots that requests take *)

Lemma StoreAddress_takes p ptr idx p' : StoreAddress p (Some ptr) = Ok (idx, p') -> length (ap_indices p) = S (length (ap_indices p')).
Proof.
  unfold StoreAddress. destruct (ap_indices p) as [|i q]; [done|]. intros H. inv_ok. by subst.
Qed.

(** Behind statements that leave the pool. *)
Lemma takes_bind {A B} (m : rd A) (f : A -> rd B) (Q : RdmaVan -> B -> RdmaVan -> Prop) v b v' :
  keeps pool_of m -> (forall v v1 b v', pool_of v = pool_of v1 -> Q v b v' -> Q v1 b v') ->
  (forall a v1, f a v1 = Ok (b, v') -> Q v1 b v') -> (m ≫= f) v = Ok (b, v') -> Q v b v'.
Proof.
  intros Hm HQ Hf H. apply st_bind_inv in H as (a & v1 & H1 & H2). apply (HQ v1); [by rewrite (Hm _ _ _ H1)|]. by apply (Hf a).
Qed.

Definition takes (n : nat) (v : RdmaVan) (go : bool) (v' : RdmaVan) : Prop :=
  free_slots v = (free_slots v' + if go then n else 0)%nat.

Lemma takes_pool n v v1 go v' : pool_of v = pool_of v1 -> takes n v go v' -> takes n v1 go v'.
Proof. unfold takes, free_slots. by intros ->. Qed.

Ltac peel H :=
  revert H; apply takes_bind; [unfold new_object, get_endpoint, modify_endpoint, RemoteKey, Addr2MR; keeps|by apply takes_pool|intros ? ? H].

Lemma SendRendezvousReply_takes ep tr req v go v' :
  SendRendezvousReply ibv_reg_mr ibv_post_send ep tr req v = Ok (go, v') -> takes 1 v go v'.
Proof.
  unfold SendRendezvousReply. intros H. do 9 peel H. destruct (ep_free_reply_ctx _) as [|c q].
  { injection H as <- <-. unfold takes. lia. }
  do 2 peel H. apply st_bind_inv in H as (p & w1 & [= <- <-] & H). apply st_bind_inv in H as ([idx p'] & w2 & Hst & H).
  apply st_lift_inv in Hst as [Hst ->]. apply st_bind_inv in H as (u & w3 & [= _ <-] & H).
  apply st_bind_inv in H as (u' & w4 & Hpost & [= <- <-]). apply keeps_post in Hpost. unfold takes, free_slots. rewrite Hpost.
  apply StoreAddress_takes in Hst. unfold pool_of in *. cbn. lia.
Qed.

(** Requests for a rendezvous among completions. *)
Definition is_request (c : bool * WorkCompletion) : bool :=
  match snd c with WcRecv _ _ _ (PStart _) => true | _ => false end.
Definition requests (l : list (bool * WorkCompletion)) : nat := length (filter (fun c => is_request c = true) l).

Lemma on_completion_takes s wc v go v' : on_completion ibv_reg_mr ibv_post_send shm_open_mmap s wc v = Ok (go, v') ->
  takes (if is_request (s, wc) then 1 else 0) v go v'.
Proof.
  unfold on_completion. intros H. peel H. destruct wc as [ep ctx| |ep ctx imm|ep ctx wi [req|resp|]|]; cbn [is_request snd].
  4: { peel H. peel H. apply st_bind_inv in H as (replied & w1 & Hr & H). apply SendRendezvousReply_takes in Hr. destruct replied.
       - apply st_bind_inv in H as (u & w2 & Hrel & [= <- <-]). apply keeps_release in Hrel. unfold takes, free_slots in *. by rewrite Hrel.
       - injection H as <- <-. done. }
  all: match type of H with ?m _ = _ => assert (Hk : keeps pool_of m) by keeps; apply Hk in H end.
  all: unfold takes, free_slots; rewrite H; destruct go; lia.
Qed.

Lemma PollCQ_takes l : forall v v', PollCQ ibv_reg_mr ibv_post_send shm_open_mmap l v = Ok (true, v') -> free_slots v = (free_slots v' + requests l)%nat.
Proof.
  induction l as [|[s wc] l IH]; intros v v' H; cbn [PollCQ] in H.
  { injection H as <-. cbn. lia. }
  apply st_bind_inv in H as (go & v1 & H1 & H). apply on_completion_takes in H1. destruct go; [|done]. apply IH in H.
  unfold takes in H1. unfold requests in *. rewrite filter_cons. destruct (is_request (s, wc)); [rewrite decide_True by done|rewrite decide_False by done]; cbn [length]; lia.
Qed.

(** ** Histories *)

Inductive van_op := OSend (msg : RMessage) | ORecv (meta : Meta) | OPoll (l : list (bool * WorkCompletion)) | OCopy (ep : Z) (i : nat).

Definition op_requests (op : van_op) : nat := match op with OPoll l => requests l | _ => 0%nat end.

(** Operations of the threads of the van, one after the other, each of which
    returns. *)
Inductive history : RdmaVan -> list van_op -> RdmaVan -> Prop :=
| hist_nil v : history v [] v
| hist_send v msg r v1 l v' : SendMsg ibv_reg_mr ibv_post_send shm_open_mmap msg v = Ok (r, v1) -> history v1 l v' -> history v (OSend msg :: l) v'
| hist_recv v meta r v1 l v' : RecvMsg shm_open_mmap meta v = Ok (r, v1) -> history v1 l v' -> history v (ORecv meta :: l) v'
| hist_poll v c v1 l v' : PollCQ ibv_reg_mr ibv_post_send shm_open_mmap c v = Ok (true, v1) -> history v1 l v' -> history v (OPoll c :: l) v'
| hist_copy v ep i r v1 l v' : AsyncCopyThread ibv_post_send ep i v = Ok (r, v1) -> history v1 l v' -> history v (OCopy ep i :: l) v'.

(** C34: a slot of the address pool is never free again. Over every history of
    sends, receptions, completions and asynchronous copies the free slots and the
    requests for a rendezvous that were answered add up: a van whose pool has [n]
    slots answers at most [n] requests, and when none is left no request is
    answered any more (the process stops in a check, or the thread waits). *)
Theorem rendezvous_exhaust_slots v l v' (Hh : history v l v') :
  free_slots v = (free_slots v' + fold_right Nat.add 0 (map op_requests l))%nat /\
  (free_slots v' = 0%nat -> forall s ep ctx wi req v'',
     PollCQ ibv_reg_mr ibv_post_send shm_open_mmap [(s, WcRecv ep ctx wi (PStart req))] v' <> Ok (true, v'')).
Proof.
  split.
  - induction Hh as [v|v msg r v1 l v' H Hh IH|v meta r v1 l v' H Hh IH|v c v1 l v' H Hh IH|v ep i r v1 l v' H Hh IH]; cbn.
    + lia.
    + apply keeps_SendMsg in H. unfold free_slots in *. rewrite <- H. lia.
    + apply keeps_RecvMsg in H. unfold free_slots in *. rewrite <- H. lia.
    + apply PollCQ_takes in H. lia.
    + apply keeps_copy in H. unfold free_slots in *. rewrite <- H. lia.
  - intros H0 s ep ctx wi req v'' H. apply PollCQ_takes in H.
    change (requests _) with 1%nat in H. lia.
Qed.
End slots.

Definition one_slot (peer : Z) : RdmaVan :=
  mkRdma (mkHost 64 ∅ 256 [] ∅ [])
    (mkTables ∅ (mkPool 1 [0] [None]) 1 ∅ ∅ ∅ ∅ ∅ ∅ [])
    (mkConn (example_node 9 8000) (mkRdmaEnv None None None None None) true {[peer := 5]} []
       {[5 := mkEndpoint CONNECTED peer None (Some (mkTrans true None)) [0] [0; 1] 0]} ∅ (example_ps example_office None)).

(** A server with one slot left answers one request and no second one. *)
Lemma rendezvous_exhaust_slots_witness :
  let start := (true, WcRecv 5 (ReceiveCtx 0) true (PStart (mkStart 100 0 [] 1))) in
  exists v', history (fun _ _ _ => Some (1, 1)) (fun _ _ _ _ => true) (fun _ => None) (one_slot 8) [OPoll [start]] v' /\ free_slots v' = 0%nat /\
    forall v'', PollCQ (fun _ _ _ => Some (1, 1)) (fun _ _ _ _ => true) (fun _ => None) [start] v' <> Ok (true, v'').
Proof.
  intros start. destruct (PollCQ (fun _ _ _ => Some (1, 1)) (fun _ _ _ _ => true) (fun _ => None) [start] (one_slot 8)) as [[go v1]| | |] eqn:E;
    [|by vm_compute in E..].
  assert (go = true) as -> by (vm_compute in E; congruence).
  assert (Hh : history (fun _ _ _ => Some (1, 1)) (fun _ _ _ _ => true) (fun _ => None) (one_slot 8) [OPoll [start]] v1) by (econstructor; [exact E|constructor]).
  destruct (rendezvous_exhaust_slots _ _ _ _ _ _ Hh) as [Hsum Hno]. assert (H0 : free_slots v1 = 0%nat).
  { change (free_slots (one_slot 8)) with 1%nat in Hsum. change (fold_right _ _ _) with 1%nat in Hsum. lia. }
  exists v1. split; [exact Hh|]. split; [exact H0|]. intros v''. exact (Hno H0 true 5 (ReceiveCtx 0) true (mkStart 100 0 [] 1) v'').
Defined.
