(* ===== verification/RdmaConn.v ===== *)
(** The connections of the RDMA van: [Connect], and the handlers that the event
    thread runs, of src/src/rdma_van.h.

    The connection manager is a library: the events are arguments, what the van
    asks for is recorded, and whether an address resolves is an argument.
    [Connect] waits on a condition variable; it is split at the wait into
    [Connect], which makes the first attempt, and [Rdma_Connect_woken], which runs
    when the thread wakes up. *)

From S2P Require Import Prelude State Bytes Memory PsMessage Ps Resender ZmqVan RdmaMem RdmaUtils RdmaState RdmaTransport.

Definition kMaxHostnameLength : Z := 16.
Definition kMaxResolveRetry : Z := 50000.
Definition kBasePort : Z := 9010.
Definition sizeof_RequestContext : Z := 24.

Record RequestContext := mkRequest { rq_node : Z; rq_port : Z; rq_hostname : list Z }.

(** What the van asks the connection manager for. *)
Inductive CmAction :=
| RdmaCreateId (id : Z)
| RdmaDestroyId (id : Z)
| RdmaResolveAddr (id port : Z)
| RdmaResolveRoute (id : Z)
| RdmaConnect (id : Z) (ctx : RequestContext)
| RdmaAccept (id : Z) (ctx : RequestContext)
| RdmaDisconnect (id : Z).

Inductive CmEvent :=
| EvConnectRequest (id : Z) (private_data_len : Z) (ctx : RequestContext)
| EvAddrResolved (id : Z)
| EvRouteResolved (id : Z)
| EvEstablished (id : Z)
| EvDisconnected (id : Z)
| EvRejected (id : Z)
| EvUnknown.

(** The van with the parts that connections need: the [context] of every
    connection identifier, the next identifier, whether [InitContext] has run,
    whether the completion thread has been started. *)
Record CmVan := mkCm {
  cm_van : RdmaVan;
  cm_contexts : gmap Z (option Z);
  cm_next : Z;
  cm_init : bool;
  cm_cq_polling : bool;
  cm_actions : list CmAction }.

Definition cm_set_van v (c : CmVan) := mkCm v (cm_contexts c) (cm_next c) (cm_init c) (cm_cq_polling c) (cm_actions c).
Definition cm_set_contexts m (c : CmVan) := mkCm (cm_van c) m (cm_next c) (cm_init c) (cm_cq_polling c) (cm_actions c).
Definition cm_set_next n (c : CmVan) := mkCm (cm_van c) (cm_contexts c) n (cm_init c) (cm_cq_polling c) (cm_actions c).
Definition cm_set_init b (c : CmVan) := mkCm (cm_van c) (cm_contexts c) (cm_next c) b (cm_cq_polling c) (cm_actions c).
Definition cm_set_polling b (c : CmVan) := mkCm (cm_van c) (cm_contexts c) (cm_next c) (cm_init c) b (cm_actions c).
Definition cm_set_actions l (c : CmVan) := mkCm (cm_van c) (cm_contexts c) (cm_next c) (cm_init c) (cm_cq_polling c) l.

Notation cm := (stm CmVan).

(** An operation of the van without connections. *)
Definition cm_rd {A} (m : rd A) : cm A := fun c =>
  match m (cm_van c) with
  | Ok (a, v) => Ok (a, cm_set_van v c)
  | Fatal => Fatal
  | Undef => Undef
  | OutOfFuel => OutOfFuel
  end.

Definition ask (x : CmAction) : cm unit := l ← st_gets cm_actions; st_modify (cm_set_actions (l ++ [x])).

(** The endpoint that an identifier's [context] points to. *)
Definition context_of (id : Z) : cm Z :=
  m ← st_gets cm_contexts; o ← st_lift (deref (m !! id)); st_lift (deref o).
Definition set_context (id ep : Z) : cm unit :=
  m ← st_gets cm_contexts; st_modify (cm_set_contexts (<[id := Some ep]> m)).

Section connections.
Context (resolve_ok : Z -> bool) (rand : nat -> Z) (getaddrinfo_ok : list Z -> Z -> bool) (node_host : bool).

(** [InitContext]: a new allocator. *)
Definition InitContext : cm unit :=
  i ← st_gets cm_init;
  if i : bool then mret tt else cm_rd (st_modify (set_mr ∅));; st_modify (cm_set_init true).

(** The [RequestContext] of this node: [snprintf] keeps 15 characters. *)
Definition my_request : cm RequestContext :=
  n ← cm_rd (conn n_my_node);
  mret (mkRequest (u32 (n_id n)) (u16 (n_port n)) (take (Z.to_nat (kMaxHostnameLength - 1)) (n_hostname n))).

(** The choice of the transport, from the other side's hostname. *)
Definition set_local (node : Z) (hostname : list Z) : cm bool :=
  my ← cm_rd (conn n_my_node);
  disable ← cm_rd (conn n_disable_ipc);
  let local := if disable : bool then false else bool_decide (hostname = n_hostname my) in
  m ← cm_rd (conn n_is_local);
  cm_rd (st_modify (set_is_local (<[node := local]> m)));;
  mret local.

Definition make_transport (ep : Z) (local : bool) : cm unit :=
  env ← cm_rd (conn n_env);
  pagesize ← cm_rd (host h_pagesize);
  t ← st_lift (if local then IPCTransport_new env pagesize else RDMATransport_new env);
  cm_rd (modify_endpoint ep (SetTransport t)).

(** ** Connect *)

(** One pass of the loop, up to the wait. *)
Definition connect_attempt (ep : Z) : cm unit :=
  cm_rd (modify_endpoint ep (ep_set_status CONNECTING));;
  e ← cm_rd (get_endpoint ep);
  (match ep_cm_id e with
   | Some old => ask (RdmaDestroyId old);; cm_rd (modify_endpoint ep (ep_set_cm_id None))
   | None => mret tt
   end);;
  id ← st_gets cm_next;
  st_modify (cm_set_next (id + 1));;
  ask (RdmaCreateId id);;
  cm_rd (modify_endpoint ep (ep_set_cm_id (Some id)));;
  set_context id ep;;
  (if node_host then ask (RdmaResolveAddr id (bind_loop resolve_ok rand (Z.to_nat kMaxResolveRetry) kBasePort))
   else st_lift (CHECK (resolve_ok 0));; ask (RdmaResolveAddr id 0)).

(** The destructor destroys the identifier, which has to be there. *)
Definition destroy_endpoint (ep : Z) : cm unit :=
  e ← cm_rd (get_endpoint ep);
  id ← st_lift (deref (ep_cm_id e));
  ask (RdmaDestroyId id);;
  eps ← cm_rd (conn n_eps);
  cm_rd (st_modify (set_eps (delete ep eps))).
(** [endpoints_.erase] *)
Definition erase_endpoint (node : Z) : cm unit :=
  m ← cm_rd (conn n_endpoints);
  match m !! node with
  | None => mret tt
  | Some old =>
      destroy_endpoint old
  end.

(** The endpoint to wait for, if the node is one to connect to. *)
Definition Rdma_Connect (node : Node) : cm (option Z) :=
  st_lift (CHECK (negb (n_id node =? kEmpty)));;
  st_lift (CHECK (negb (n_port node =? kEmpty)));;
  st_lift (CHECK (negb (bool_decide (n_hostname node = []))));;
  my ← cm_rd (conn n_my_node);
  if bool_decide (n_role node = n_role my) && negb (n_id node =? n_id my) then mret None
  else
    erase_endpoint (n_id node);;
    ep ← cm_rd new_object;
    m ← cm_rd (conn n_endpoints);
    cm_rd (st_modify (set_endpoints (<[n_id node := ep]> m)));;
    e ← cm_rd (conn n_eps);
    cm_rd (st_modify (set_eps (<[ep := SetNodeID (n_id node) Endpoint_new]> e)));;
    st_lift (CHECK (getaddrinfo_ok (n_hostname node) (n_port node)));;
    connect_attempt ep;;
    mret (Some ep).

(** Behind the wait: whether [Connect] has returned. *)
Definition Rdma_Connect_woken (node : Node) (ep : Z) : cm bool :=
  e ← cm_rd (get_endpoint ep);
  match ep_status e with
  | CONNECTING => mret false
  | CONNECTED =>
      local ← set_local (n_id node) (n_hostname node);
      make_transport ep local;;
      mret true
  | _ => connect_attempt ep;; mret false
  end.

(** ** Events *)

Definition OnRejected (id : Z) : cm unit :=
  ep ← context_of id;
  e ← cm_rd (get_endpoint ep);
  m ← cm_rd (conn n_endpoints);
  st_lift (CHECK (bool_decide (is_Some (m !! ep_node_id e))));;
  st_lift (CHECK (bool_decide (ep_status e = CONNECTING)));;
  st_lift (CHECK (bool_decide (ep_cm_id e = Some id)));;
  cm_rd (modify_endpoint ep (ep_set_status REJECTED)).

Definition OnConnectRequest (id private_data_len : Z) (remote_ctx : RequestContext) : cm unit :=
  st_lift (CHECK (sizeof_RequestContext <=? private_data_len));;
  ep ← cm_rd new_object;
  inc ← cm_rd (conn n_incoming);
  cm_rd (st_modify (set_incoming (inc ++ [ep])));;
  e ← cm_rd (conn n_eps);
  cm_rd (st_modify (set_eps (<[ep := ep_set_cm_id (Some id) (SetNodeID (s32 (rq_node remote_ctx)) Endpoint_new)]> e)));;
  set_context id ep;;
  InitContext;;
  cm_rd (modify_endpoint ep Endpoint_Init);;
  local ← set_local (s32 (rq_node remote_ctx)) (rq_hostname remote_ctx);
  make_transport ep local;;
  ctx ← my_request;
  ask (RdmaAccept id ctx).

Definition OnAddrResolved (id : Z) : cm unit := ask (RdmaResolveRoute id).

Definition OnRouteResolved (id : Z) : cm unit :=
  ep ← context_of id;
  InitContext;;
  cm_rd (modify_endpoint ep Endpoint_Init);;
  ctx ← my_request;
  ask (RdmaConnect id ctx).

Definition OnConnected (id : Z) : cm unit :=
  m ← st_gets cm_contexts;
  o ← st_lift (deref (m !! id));
  ep ← match o with None => st_lift Fatal | Some ep => mret ep end;
  st_modify (cm_set_polling true);;
  e ← cm_rd (get_endpoint ep);
  st_lift (CHECK (bool_decide (ep_cm_id e = Some id)));;
  cm_rd (modify_endpoint ep (ep_set_status CONNECTED)).

Definition OnDisconnected (id : Z) : cm unit :=
  ep ← context_of id; cm_rd (modify_endpoint ep (ep_set_status IDLE)).

(** The body of the loop of [PollEvents]. *)
Definition PollEvents (ev : CmEvent) : cm unit :=
  match ev with
  | EvConnectRequest id len ctx => OnConnectRequest id len ctx
  | EvAddrResolved id => OnAddrResolved id
  | EvRouteResolved id => OnRouteResolved id
  | EvEstablished id => OnConnected id
  | EvDisconnected id => OnDisconnected id
  | EvRejected id => OnRejected id
  | EvUnknown => st_lift Fatal
  end.

(** ** Starting, binding, disconnecting and stopping *)

(** [Start], before [Van::Start]: [enable_ipc] is what [atoi] makes of the
    variable [BYTEPS_ENABLE_IPC]. *)
Definition Rdma_Start_init (enable_ipc : option Z) : cm unit :=
  cm_rd (st_modify (set_disable_ipc (match enable_ipc with Some x => x =? 0 | None => true end))).

(** [Bind], with whether the identifier can be made, a port be bound, and the
    identifier listen. *)
Definition Rdma_Bind (create_ok listen_ok : bool) (bind_ok : Z -> bool) (node : Node) (max_retry : nat) : cm Z :=
  st_lift (CHECK create_ok);;
  let port := bind_loop bind_ok rand max_retry (n_port node) in
  st_lift (CHECK listen_ok);;
  mret port.

(** [Endpoint::Disconnect] up to its wait, and behind it: whether it returned. *)
Definition Endpoint_Disconnect (ep : Z) : cm unit :=
  e ← cm_rd (get_endpoint ep); id ← st_lift (deref (ep_cm_id e)); ask (RdmaDisconnect id).
Definition reset_transport (e : Endpoint) : Endpoint :=
  mkEndpoint (ep_status e) (ep_node_id e) (ep_cm_id e) None (ep_free_start_ctx e) (ep_free_reply_ctx e) (ep_rx_posted e).
Definition Endpoint_Disconnect_woken (ep : Z) : cm bool :=
  e ← cm_rd (get_endpoint ep);
  if bool_decide (ep_status e = IDLE) then cm_rd (modify_endpoint ep reset_transport);; mret true else mret false.

(** [Stop], behind [Van::Stop]: the allocator and all endpoints are destroyed. *)
Definition Rdma_Stop_clear : cm unit :=
  cm_rd (st_modify (set_mr ∅));;
  inc ← cm_rd (conn n_incoming);
  st_forM inc destroy_endpoint;;
  cm_rd (st_modify (set_incoming []));;
  m ← cm_rd (conn n_endpoints);
  st_forM (map snd (map_to_list m)) destroy_endpoint;;
  cm_rd (st_modify (set_endpoints ∅)).

(** ** Runs *)

Lemma runs_cm {A} (m : rd A) c Q : runs m (cm_van c) (fun a v => Q a (cm_set_van v c)) -> runs (cm_rd m) c Q.
Proof. intros (a & v & H & HQ). exists a, (cm_set_van v c). split; [|done]. unfold cm_rd. by rewrite H. Qed.

Lemma runs_get_endpoint ep e v Q : n_eps (v_conn v) !! ep = Some e -> (Q e v : Prop) -> runs (get_endpoint ep) v Q.
Proof. intros He HQ. unfold get_endpoint. rrun. by apply (runs_deref _ e). Qed.

Lemma runs_context_of id ep c Q : cm_contexts c !! id = Some (Some ep) -> (Q ep c : Prop) -> runs (context_of id) c Q.
Proof. intros Hc HQ. unfold context_of. run. eapply runs_deref; [exact Hc|]. by apply (runs_deref _ ep). Qed.

Ltac crun := repeat (first [run1 | lazymatch goal with
  | |- runs (cm_rd _) _ _ => apply runs_cm
  | |- runs (host _) _ _ => apply runs_gets
  | |- runs (tabs _) _ _ => apply runs_gets
  | |- runs (conn _) _ _ => apply runs_gets
  | |- runs (ask _) _ _ => unfold ask
  | |- runs (set_context _ _) _ _ => unfold set_context
  | |- runs (modify_endpoint _ _) _ _ => unfold modify_endpoint
  | |- runs new_object _ _ => unfold new_object
  | |- runs my_request _ _ => unfold my_request
  end]; cbv beta).

Lemma iter_PostRecv n e : Nat.iter n Rdma_PostRecv e =
  mkEndpoint (ep_status e) (ep_node_id e) (ep_cm_id e) (ep_trans e) (ep_free_start_ctx e) (ep_free_reply_ctx e) (ep_rx_posted e + Z.of_nat n).
Proof.
  induction n as [|n IH]; [cbn; rewrite Z.add_0_r; by destruct e|].
  change (Nat.iter (S n) Rdma_PostRecv e) with (Rdma_PostRecv (Nat.iter n Rdma_PostRecv e)). rewrite IH. unfold Rdma_PostRecv. cbn. f_equal. lia.
Qed.

(** What [Init] adds to an endpoint. *)
Lemma Endpoint_Init_fields e : Endpoint_Init e =
  mkEndpoint (ep_status e) (ep_node_id e) (ep_cm_id e) (ep_trans e) (ep_free_start_ctx e ++ seqZ 0 kStartDepth)
    (ep_free_reply_ctx e ++ seqZ 0 kReplyDepth) (ep_rx_posted e + kRxDepth).
Proof. unfold Endpoint_Init. rewrite iter_PostRecv. reflexivity. Qed.

(** What the handlers leave of the node. *)
Definition same_node (c c' : CmVan) : Prop :=
  n_my_node (v_conn (cm_van c')) = n_my_node (v_conn (cm_van c)) /\ n_env (v_conn (cm_van c')) = n_env (v_conn (cm_van c)) /\
  n_disable_ipc (v_conn (cm_van c')) = n_disable_ipc (v_conn (cm_van c)) /\ h_pagesize (v_host (cm_van c')) = h_pagesize (v_host (cm_van c)).

Definition copies (k : nat) (n : Z) : list Z := concat (replicate k (seqZ 0 n)).

Lemma copies_S k n : copies k n ++ seqZ 0 n = copies (S k) n.
Proof. unfold copies. rewrite replicate_S_end, concat_app. cbn. by rewrite app_nil_r. Qed.

(** An endpoint on which [k] connection attempts have come as far as
    [OnRouteResolved]. *)
Definition endpoint_at (s : ConnectionStatus) (node : Z) (id : option Z) (k : nat) : Endpoint :=
  mkEndpoint s node id None (copies k kStartDepth) (copies k kReplyDepth) (Z.of_nat k * kRxDepth).

(** [Connect] to [node] waits at the endpoint [ep], with the identifier [id]. *)
Record waiting (c0 c : CmVan) (node ep id : Z) (s : ConnectionStatus) (k : nat) : Prop := {
  wt_ep : n_eps (v_conn (cm_van c)) !! ep = Some (endpoint_at s node (Some id) k);
  wt_endpoints : n_endpoints (v_conn (cm_van c)) !! node = Some ep;
  wt_ctx : cm_contexts c !! id = Some (Some ep);
  wt_node : same_node c0 c }.

Lemma connect_attempt_ok c0 c node ep s o k Q : resolve_ok 0 = true -> node_host = false ->
  n_eps (v_conn (cm_van c)) !! ep = Some (endpoint_at s node o k) -> n_endpoints (v_conn (cm_van c)) !! node = Some ep -> same_node c0 c ->
  (forall c', waiting c0 c' node ep (cm_next c) CONNECTING k -> cm_next c' = cm_next c + 1 -> Q tt c') ->
  runs (connect_attempt ep) c Q.
Proof.
  intros Hr Hh He Hn Hs HQ. unfold connect_attempt. crun. apply (runs_get_endpoint _ (endpoint_at CONNECTING node o k)).
  { cbn. by rewrite lookup_alter_eq, He. }
  crun. destruct o as [old|]; cbn [ep_cm_id endpoint_at]; crun; rewrite Hh; crun; (apply runs_CHECK; [done|]); crun;
    (apply HQ; [|done]); (split; cbn; [|done|by rewrite lookup_insert_eq|done]);
    rewrite ?lookup_alter_eq, He; reflexivity.
Qed.

Lemma addr_resolved_ok c0 c node ep id s k Q : waiting c0 c node ep id s k ->
  (forall c', waiting c0 c' node ep id s k -> cm_next c' = cm_next c -> cm_van c' = cm_van c -> Q tt c') -> runs (PollEvents (EvAddrResolved id)) c Q.
Proof. intros [He Hn Hc Hs] HQ. cbn [PollEvents]. unfold OnAddrResolved. crun. by apply HQ. Qed.

Lemma route_resolved_ok c0 c node ep id k Q : waiting c0 c node ep id CONNECTING k ->
  (forall c' n, waiting c0 c' node ep id CONNECTING (S k) -> cm_next c' = cm_next c -> n = n_my_node (v_conn (cm_van c)) ->
     cm_actions c' = cm_actions c ++ [RdmaConnect id (mkRequest (u32 (n_id n)) (u16 (n_port n)) (take 15 (n_hostname n)))] -> Q tt c') ->
  runs (PollEvents (EvRouteResolved id)) c Q.
Proof.
  intros [He Hn Hc Hs] HQ. cbn [PollEvents]. unfold OnRouteResolved, InitContext. crun. apply (runs_context_of _ ep); [done|]. crun.
  assert (Hinit : Endpoint_Init (endpoint_at CONNECTING node (Some id) k) = endpoint_at CONNECTING node (Some id) (S k)).
  { rewrite Endpoint_Init_fields. unfold endpoint_at. cbn [ep_status ep_node_id ep_cm_id ep_trans ep_free_start_ctx ep_free_reply_ctx ep_rx_posted].
    rewrite !copies_S. f_equal. lia. }
  case_match; crun; (eapply HQ; [|done|reflexivity|done]); (split; [|done..]); cbn; rewrite lookup_alter_eq, He; cbn [fmap option_fmap option_map]; by rewrite Hinit.
Qed.

Lemma rejected_ok c0 c node ep id k Q : waiting c0 c node ep id CONNECTING k ->
  (forall c', waiting c0 c' node ep id REJECTED k -> cm_next c' = cm_next c -> Q tt c') -> runs (PollEvents (EvRejected id)) c Q.
Proof.
  intros [He Hn Hc Hs] HQ. cbn [PollEvents]. unfold OnRejected. crun. apply (runs_context_of _ ep); [done|]. crun.
  eapply runs_get_endpoint; [exact He|]. crun. apply runs_CHECK; [apply bool_decide_eq_true; cbn; by rewrite Hn|]. crun.
  apply runs_CHECK; [done|]. crun. apply runs_CHECK; [by apply bool_decide_eq_true|]. crun.
  apply HQ; [|done]. split; [|done..]. cbn. by rewrite lookup_alter_eq, He.
Qed.

Lemma established_ok c0 c node ep id k Q : waiting c0 c node ep id CONNECTING k ->
  (forall c', waiting c0 c' node ep id CONNECTED k -> cm_next c' = cm_next c -> cm_cq_polling c' = true -> Q tt c') -> runs (PollEvents (EvEstablished id)) c Q.
Proof.
  intros [He Hn Hc Hs] HQ. cbn [PollEvents]. unfold OnConnected. crun. eapply runs_deref; [exact Hc|]. crun.
  eapply runs_get_endpoint; [exact He|]. crun. apply runs_CHECK; [by apply bool_decide_eq_true|]. crun.
  apply HQ; [|done..]. split; [|done..]. cbn. by rewrite lookup_alter_eq, He.
Qed.

(** An attempt that the other side rejects, and one that it accepts. *)
Definition rejected_attempt (node : Node) (ep id : Z) : cm bool :=
  PollEvents (EvAddrResolved id);; PollEvents (EvRouteResolved id);; PollEvents (EvRejected id);; Rdma_Connect_woken node ep.
Definition accepted_attempt (node : Node) (ep id : Z) : cm bool :=
  PollEvents (EvAddrResolved id);; PollEvents (EvRouteResolved id);; PollEvents (EvEstablished id);; Rdma_Connect_woken node ep.

Lemma rejected_round c0 c node ep id k Q : resolve_ok 0 = true -> node_host = false ->
  waiting c0 c (n_id node) ep id CONNECTING k ->
  (forall c', waiting c0 c' (n_id node) ep (cm_next c) CONNECTING (S k) -> cm_next c' = cm_next c + 1 -> Q false c') ->
  runs (rejected_attempt node ep id) c Q.
Proof.
  intros Hr Hh Hw HQ. unfold rejected_attempt. apply runs_bind, (addr_resolved_ok c0 c _ _ _ _ _ _ Hw). intros c1 Hw1 Hx1 _.
  apply runs_bind, (route_resolved_ok c0 c1 _ _ _ _ _ Hw1). intros c2 n Hw2 Hx2 _ _.
  apply runs_bind, (rejected_ok c0 c2 _ _ _ _ _ Hw2). intros c3 [He Hn Hc Hs] Hx3. unfold Rdma_Connect_woken. crun.
  eapply runs_get_endpoint; [exact He|]. cbn [ep_status endpoint_at]. crun.
  apply (connect_attempt_ok c0 _ (n_id node) _ REJECTED (Some id) (S k)); [done..|]. intros c' Hw' Hx'. crun.
  cbn in *. rewrite Hx3, Hx2, Hx1 in *. by apply HQ.
Qed.

(** ** The choice of the transport *)

(** Whether a node takes another for local. *)
Definition takes_local (c : CmVan) (hostname : list Z) : bool :=
  if n_disable_ipc (v_conn (cm_van c)) then false else bool_decide (hostname = n_hostname (n_my_node (v_conn (cm_van c)))).
Definition transport_for (c : CmVan) (local : bool) : outcome Transport :=
  if local then IPCTransport_new (n_env (v_conn (cm_van c))) (h_pagesize (v_host (cm_van c))) else RDMATransport_new (n_env (v_conn (cm_van c))).

Lemma same_node_transport c c' : same_node c c' -> (forall h, takes_local c' h = takes_local c h) /\ (forall l, transport_for c' l = transport_for c l).
Proof. intros (H1 & H2 & H3 & H4). unfold takes_local, transport_for. by rewrite H1, H2, H3, H4. Qed.

Lemma transport_kind c l t : transport_for c l = Ok t -> (tr_ipc t = None <-> l = false).
Proof.
  unfold transport_for, IPCTransport_new, RDMATransport_new. destruct l; intros H; inv_ok; subst; cbn; split; done.
Qed.

Lemma choose_transport_ok {A} c node hostname ep e t (k : cm A) Q : n_eps (v_conn (cm_van c)) !! ep = Some e ->
  transport_for c (takes_local c hostname) = Ok t ->
  (forall c', n_eps (v_conn (cm_van c')) = <[ep := SetTransport t e]> (n_eps (v_conn (cm_van c))) ->
     n_endpoints (v_conn (cm_van c')) = n_endpoints (v_conn (cm_van c)) -> n_incoming (v_conn (cm_van c')) = n_incoming (v_conn (cm_van c)) ->
     cm_contexts c' = cm_contexts c -> cm_cq_polling c' = cm_cq_polling c -> same_node c c' -> runs k c' Q) ->
  runs (set_local node hostname) c (fun local c' => runs (make_transport ep local;; k) c' Q).
Proof.
  intros He Ht HQ. unfold set_local, make_transport. crun. apply (runs_lift _ t); [exact Ht|]. crun. apply HQ; try done.
  cbn. apply map_eq. intros i. destruct (decide (i = ep)) as [->|Hne].
  - by rewrite lookup_alter_eq, lookup_insert_eq, He.
  - by rewrite lookup_alter_ne, lookup_insert_ne.
Qed.

(** The identifier of the attempt that is under way. *)
Definition current_id (ep : Z) : cm Z := e ← cm_rd (get_endpoint ep); st_lift (deref (ep_cm_id e)).

Lemma runs_current_id c0 c node ep id s k Q : waiting c0 c node ep id s k -> (Q id c : Prop) -> runs (current_id ep) c Q.
Proof. intros [He _ _ _] HQ. unfold current_id. crun. eapply runs_get_endpoint; [exact He|]. apply (runs_deref _ id); [done|]. by destruct c. Qed.

Fixpoint rejections (node : Node) (ep : Z) (k : nat) : cm unit :=
  match k with
  | O => mret tt
  | S k' => id ← current_id ep; rejected_attempt node ep id;; rejections node ep k'
  end.

(** A node that is to be connected to. *)
Record connectable (c : CmVan) (node : Node) : Prop := {
  cb_id : n_id node <> kEmpty;
  cb_port : n_port node <> kEmpty;
  cb_host : n_hostname node <> [];
  cb_role : n_role node = n_role (n_my_node (v_conn (cm_van c))) -> n_id node = n_id (n_my_node (v_conn (cm_van c)));
  cb_new : n_endpoints (v_conn (cm_van c)) !! n_id node = None;
  cb_addr : getaddrinfo_ok (n_hostname node) (n_port node) = true }.

Lemma Connect_ok c node Q : resolve_ok 0 = true -> node_host = false -> connectable c node ->
  (forall c', waiting c c' (n_id node) (b_next (v_tabs (cm_van c))) (cm_next c) CONNECTING 0 -> cm_next c' = cm_next c + 1 ->
     Q (Some (b_next (v_tabs (cm_van c)))) c') ->
  runs (Rdma_Connect node) c Q.
Proof.
  intros Hr Hh [H1 H2 H3 H4 H5 H6] HQ. unfold Rdma_Connect. crun. apply runs_CHECK; [b2p; done|]. crun. apply runs_CHECK; [b2p; done|]. crun.
  apply runs_CHECK; [by rewrite bool_decide_eq_false_2|]. crun.
  assert (Hrole : bool_decide (n_role node = n_role (n_my_node (v_conn (cm_van c)))) && negb (n_id node =? n_id (n_my_node (v_conn (cm_van c)))) = false).
  { case_bool_decide; [|done]. rewrite H4 by done. by rewrite Z.eqb_refl. }
  rewrite Hrole. unfold erase_endpoint. crun.
  change (n_endpoints (v_conn _)) with (n_endpoints (v_conn (cm_van c))). rewrite H5. crun. apply runs_CHECK; [done|]. crun.
  apply (connect_attempt_ok c _ (n_id node) _ IDLE None 0); [done|done|cbn; by rewrite lookup_insert_eq|cbn; by rewrite lookup_insert_eq|done|].
  intros c' Hw Hx. crun. by apply HQ.
Qed.

Lemma rejections_ok c0 node ep k : resolve_ok 0 = true -> node_host = false -> forall c id j Q,
  waiting c0 c (n_id node) ep id CONNECTING j -> cm_next c = id + 1 ->
  (forall c', waiting c0 c' (n_id node) ep (id + Z.of_nat k) CONNECTING (k + j) -> Q tt c') -> runs (rejections node ep k) c Q.
Proof.
  intros Hr Hh. induction k as [|k IH]; intros c id j Q Hw Hx HQ; cbn [rejections].
  { apply runs_ret, HQ. by rewrite Z.add_0_r. }
  apply runs_bind, (runs_current_id c0 c _ _ _ _ _ _ Hw), runs_bind, (rejected_round c0 c node ep id j); [done..|].
  intros c' Hw' Hx'. rewrite Hx in Hw'. apply (IH c' (id + 1) (S j)); [done|lia|].
  intros c'' Hw''. apply HQ. replace (id + Z.of_nat (S k)) with (id + 1 + Z.of_nat k) by lia. by replace (S k + j)%nat with (k + S j)%nat by lia.
Qed.

(** C36: [Connect] keeps trying. Whatever number of attempts the other side
    rejects, [Connect] destroys each identifier and makes a new one, and when the
    other side accepts it returns with a connected endpoint whose transport is
    the one that the hostnames call for. The contexts are initialised once per
    attempt: behind [k] rejections every one of them is [k + 1] times in the
    queue of free contexts. *)
Theorem connect_after_rejections c node k t (Hr : resolve_ok 0 = true) (Hh : node_host = false) (Hc : connectable c node)
    (Ht : transport_for c (takes_local c (n_hostname node)) = Ok t) :
  runs (o ← Rdma_Connect node; ep ← st_lift (deref o); rejections node ep k;; id ← current_id ep; accepted_attempt node ep id) c
    (fun returned c' => returned = true /\ cm_cq_polling c' = true /\
       exists ep, n_endpoints (v_conn (cm_van c')) !! n_id node = Some ep /\
         n_eps (v_conn (cm_van c')) !! ep = Some (mkEndpoint CONNECTED (n_id node) (Some (cm_next c + Z.of_nat k)) (Some t)
           (copies (S k) kStartDepth) (copies (S k) kReplyDepth) (Z.of_nat (S k) * kRxDepth))).
Proof.
  apply runs_bind, (Connect_ok c node); [done..|]. intros c1 Hw1 Hx1. set (ep := b_next (v_tabs (cm_van c))) in *.
  apply runs_bind, (runs_deref _ ep); [done|]. apply runs_bind, (rejections_ok c node ep k Hr Hh c1 (cm_next c) 0); [done..|].
  intros c2 Hw2. rewrite Nat.add_0_r in Hw2. apply runs_bind, (runs_current_id c c2 _ _ _ _ _ _ Hw2).
  unfold accepted_attempt. apply runs_bind, (addr_resolved_ok c c2 _ _ _ _ _ _ Hw2). intros c3 Hw3 _ _.
  apply runs_bind, (route_resolved_ok c c3 _ _ _ _ _ Hw3). intros c4 n Hw4 _ _ _.
  apply runs_bind, (established_ok c c4 _ _ _ _ _ Hw4). intros c5 [He Hn _ Hs] _ Hpoll. unfold Rdma_Connect_woken. crun.
  eapply runs_get_endpoint; [exact He|]. cbn [ep_status endpoint_at]. replace (cm_set_van (cm_van c5) c5) with c5 by (by destruct c5).
  destruct (same_node_transport _ _ Hs) as [Hl Htr]. apply runs_bind, (choose_transport_ok c5 _ _ ep _ t _ _ He); [by rewrite Hl, Htr|].
  intros c' Heps Hend _ _ Hp _. crun. split; [done|]. split; [congruence|]. exists ep. split; [congruence|]. by rewrite Heps, lookup_insert_eq.
Qed.

(** ** Both sides *)

(** The other side takes a request for a connection. *)
Lemma connect_request_ok c sid len rq t Q : sizeof_RequestContext <= len -> transport_for c (takes_local c (rq_hostname rq)) = Ok t ->
  (forall ep c', n_eps (v_conn (cm_van c')) !! ep = Some (SetTransport t (endpoint_at IDLE (s32 (rq_node rq)) (Some sid) 1)) ->
     n_incoming (v_conn (cm_van c')) = n_incoming (v_conn (cm_van c)) ++ [ep] -> cm_contexts c' !! sid = Some (Some ep) -> same_node c c' -> Q tt c') ->
  runs (PollEvents (EvConnectRequest sid len rq)) c Q.
Proof.
  intros Hlen Ht HQ. cbn [PollEvents]. unfold OnConnectRequest, InitContext. crun. apply runs_CHECK; [b2p; lia|]. crun.
  set (ep := b_next _). assert (Hinit : Endpoint_Init (ep_set_cm_id (Some sid) (SetNodeID (s32 (rq_node rq)) Endpoint_new)) = endpoint_at IDLE (s32 (rq_node rq)) (Some sid) 1).
  { rewrite Endpoint_Init_fields. reflexivity. }
  case_match; crun;
    (apply (choose_transport_ok _ _ _ _ (endpoint_at IDLE (s32 (rq_node rq)) (Some sid) 1) t);
      [cbn; rewrite lookup_alter_eq, lookup_insert_eq; cbn [fmap option_fmap option_map]; by rewrite Hinit|exact Ht|];
     intros c' Heps _ Hinc Hctx _ Hs; crun; apply (HQ ep); cbn;
     [by rewrite Heps, lookup_insert_eq|done|rewrite Hctx; cbn; by rewrite lookup_insert_eq|done]).
Qed.

Lemma accepted_ok c sid ep e Q : n_eps (v_conn (cm_van c)) !! ep = Some e -> ep_cm_id e = Some sid -> cm_contexts c !! sid = Some (Some ep) ->
  (forall c', n_eps (v_conn (cm_van c')) !! ep = Some (ep_set_status CONNECTED e) -> n_incoming (v_conn (cm_van c')) = n_incoming (v_conn (cm_van c)) -> Q tt c') ->
  runs (PollEvents (EvEstablished sid)) c Q.
Proof.
  intros He Hid Hc HQ. cbn [PollEvents]. unfold OnConnected. crun. eapply runs_deref; [exact Hc|]. crun.
  eapply runs_get_endpoint; [exact He|]. crun. apply runs_CHECK; [by apply bool_decide_eq_true|]. crun.
  apply HQ; [|done]. cbn. by rewrite lookup_alter_eq, He.
Qed.

(** A connection from [a] to [b]: the events that the connection manager
    delivers, in their order, with the context that [a] asked it to send. *)
Definition handshake (node : Node) (sid len : Z) (a b : CmVan) : outcome (bool * CmVan * CmVan) :=
  '(o, a) ← Rdma_Connect node a;
  ep ← deref o;
  '(id, a) ← current_id ep a;
  '(_, a) ← PollEvents (EvAddrResolved id) a;
  '(_, a) ← PollEvents (EvRouteResolved id) a;
  act ← deref (last (cm_actions a));
  match act with
  | RdmaConnect _ ctx =>
      '(_, b) ← PollEvents (EvConnectRequest sid len ctx) b;
      '(_, a) ← PollEvents (EvEstablished id) a;
      '(_, b) ← PollEvents (EvEstablished sid) b;
      '(returned, a) ← Rdma_Connect_woken node ep a;
      Ok (returned, a, b)
  | _ => Undef
  end.

Lemma runs_outcome {S A B} (m : stm S A) (s : S) (k : A -> S -> outcome B) (P : B -> Prop) :
  runs m s (fun a s' => exists b, k a s' = Ok b /\ P b) -> exists b, ('(a, s') ← m s; k a s') = Ok b /\ P b.
Proof. intros (a & s' & H & HP). by rewrite H. Qed.

(** An endpoint that is connected to [node], with fresh contexts. *)
Definition connected_endpoint (c : CmVan) (ep node : Z) (id : Z) (t : Transport) : Prop :=
  n_eps (v_conn (cm_van c)) !! ep = Some (mkEndpoint CONNECTED node (Some id) (Some t) (seqZ 0 kStartDepth) (seqZ 0 kReplyDepth) kRxDepth).

Definition my_hostname (c : CmVan) : list Z := n_hostname (n_my_node (v_conn (cm_van c))).

Lemma copies_1 n : copies 1 n = seqZ 0 n.
Proof. unfold copies. cbn. by rewrite app_nil_r. Qed.

Lemma handshake_endpoints node sid len a b ta tb : resolve_ok 0 = true -> node_host = false -> connectable a node ->
  PsMessage.is_int (n_id (n_my_node (v_conn (cm_van a)))) -> sizeof_RequestContext <= len ->
  transport_for a (takes_local a (n_hostname node)) = Ok ta ->
  transport_for b (takes_local b (take 15 (my_hostname a))) = Ok tb ->
  exists a' b' ep epb, handshake node sid len a b = Ok (true, a', b') /\
    n_endpoints (v_conn (cm_van a')) !! n_id node = Some ep /\ connected_endpoint a' ep (n_id node) (cm_next a) ta /\
    n_incoming (v_conn (cm_van b')) = n_incoming (v_conn (cm_van b)) ++ [epb] /\
    connected_endpoint b' epb (n_id (n_my_node (v_conn (cm_van a)))) sid tb.
Proof.
  intros Hr Hh Hc Hid Hlen Hta Htb.
  cut (exists r, handshake node sid len a b = Ok r /\ fst (fst r) = true /\ exists ep epb,
    n_endpoints (v_conn (cm_van (snd (fst r)))) !! n_id node = Some ep /\ connected_endpoint (snd (fst r)) ep (n_id node) (cm_next a) ta /\
    n_incoming (v_conn (cm_van (snd r))) = n_incoming (v_conn (cm_van b)) ++ [epb] /\
    connected_endpoint (snd r) epb (n_id (n_my_node (v_conn (cm_van a)))) sid tb).
  { intros ([[r a'] b'] & Hrun & Hr' & ep & epb & Hrest). cbn in Hr'. subst r. by exists a', b', ep, epb. }
  unfold handshake. apply runs_outcome, (Connect_ok a node); [done..|]. intros a1 Hw1 _. set (ep := b_next (v_tabs (cm_van a))) in *. cbn [deref mbind outcome_bind].
  apply runs_outcome, (runs_current_id a a1 _ _ _ _ _ _ Hw1). apply runs_outcome, (addr_resolved_ok a a1 _ _ _ _ _ _ Hw1). intros a2 Hw2 _ Hv2.
  apply runs_outcome, (route_resolved_ok a a2 _ _ _ _ _ Hw2). intros a3 n Hw3 _ -> Hact. rewrite Hact, last_snoc. cbn [deref mbind outcome_bind].
  assert (Hmy : n_my_node (v_conn (cm_van a2)) = n_my_node (v_conn (cm_van a))) by apply Hw2. rewrite Hmy.
  set (rq := mkRequest _ _ _). apply runs_outcome, (connect_request_ok b sid len rq tb); [done|exact Htb|].
  intros epb b1 Heb Hinc Hctx _. apply runs_outcome, (established_ok a a3 _ _ _ _ _ Hw3). intros a4 [He Hn _ Hs] _ _.
  apply runs_outcome, (accepted_ok b1 sid epb _ _ Heb); [done|done|]. intros b2 Heb2 Hinc2.
  apply runs_outcome. unfold Rdma_Connect_woken. crun. eapply runs_get_endpoint; [exact He|]. cbn [ep_status endpoint_at].
  replace (cm_set_van (cm_van a4) a4) with a4 by (by destruct a4).
  destruct (same_node_transport _ _ Hs) as [Hl Htr]. apply runs_bind, (choose_transport_ok a4 _ _ ep _ ta _ _ He); [by rewrite Hl, Htr|].
  intros a5 Heps Hend _ _ _ _. crun. eexists. split; [reflexivity|]. cbn [fst snd]. split; [done|]. exists ep, epb. split; [congruence|]. split; [|split; [congruence|]].
  - unfold connected_endpoint. rewrite Heps, lookup_insert_eq. unfold SetTransport, endpoint_at. cbn [ep_status ep_node_id ep_cm_id ep_free_start_ctx ep_free_reply_ctx ep_rx_posted].
    rewrite !copies_1. done.
  - unfold connected_endpoint. rewrite Heb2. unfold ep_set_status, SetTransport, endpoint_at. cbn [ep_status ep_node_id ep_cm_id ep_trans ep_free_start_ctx ep_free_reply_ctx ep_rx_posted rq rq_node].
    rewrite !copies_1. replace (s32 (u32 _)) with (n_id (n_my_node (v_conn (cm_van a)))); [done|]. symmetry.
    unfold s32, u32, swrap, wrap. rewrite Z.add_mod_idemp_l by lia. apply (swrap_small 32); [lia|exact Hid].
Qed.

(** C22: a connection is set up on both sides. [Connect] returns, and behind the
    events of the connection manager the node that connects has a connected
    endpoint to the other, the other has one back among its incoming endpoints,
    with the right node id, and both have every context free and every receive
    posted. When the connecting node's hostname has fewer than 16 characters and
    both have the same setting for IPC, they also choose the same kind of
    transport: shared memory exactly when IPC is enabled and the hostnames are
    equal. *)
Theorem handshake_connects node sid len a b (Hr : resolve_ok 0 = true) (Hh : node_host = false) (Hc : connectable a node)
    (Hid : PsMessage.is_int (n_id (n_my_node (v_conn (cm_van a))))) (Hlen : sizeof_RequestContext <= len)
    (Hta : forall l, exists t, transport_for a l = Ok t) (Htb : forall l, exists t, transport_for b l = Ok t)
    (Hnode : n_hostname node = my_hostname b) (Hshort : (length (my_hostname a) < 16)%nat)
    (Hipc : n_disable_ipc (v_conn (cm_van a)) = n_disable_ipc (v_conn (cm_van b))) :
  exists a' b' ep epb ta tb, handshake node sid len a b = Ok (true, a', b') /\
    n_endpoints (v_conn (cm_van a')) !! n_id node = Some ep /\ connected_endpoint a' ep (n_id node) (cm_next a) ta /\
    n_incoming (v_conn (cm_van b')) = n_incoming (v_conn (cm_van b)) ++ [epb] /\
    connected_endpoint b' epb (n_id (n_my_node (v_conn (cm_van a)))) sid tb /\
    (tr_ipc ta = None <-> tr_ipc tb = None) /\
    (tr_ipc ta <> None <-> n_disable_ipc (v_conn (cm_van a)) = false /\ my_hostname a = my_hostname b).
Proof.
  destruct (Hta (takes_local a (n_hostname node))) as [ta Ha]. destruct (Htb (takes_local b (take 15 (my_hostname a)))) as [tb Hb].
  destruct (handshake_endpoints node sid len a b ta tb) as (a' & b' & ep & epb & H); [done..|].
  exists a', b', ep, epb, ta, tb. destruct H as (H1 & H2 & H3 & H4 & H5). repeat (split; [done|]).
  pose proof (transport_kind _ _ _ Ha) as Ka. pose proof (transport_kind _ _ _ Hb) as Kb.
  assert (Hsame : takes_local b (take 15 (my_hostname a)) = takes_local a (n_hostname node)).
  { unfold takes_local. rewrite <- Hipc, take_ge by lia. destruct (n_disable_ipc _); [done|]. rewrite Hnode.
    apply bool_decide_ext. unfold my_hostname. split; congruence. }
  rewrite Hsame in Kb. split; [by rewrite Ka, Kb|]. rewrite Ka. unfold takes_local. rewrite Hnode.
  destruct (n_disable_ipc _); [naive_solver|]. rewrite bool_decide_eq_false. unfold my_hostname. split; [|naive_solver].
  intros Hn. split; [done|]. destruct (decide (n_hostname (n_my_node (v_conn (cm_van a))) = n_hostname (n_my_node (v_conn (cm_van b))))); [done|]. destruct Hn. congruence.
Qed.

(** With a longer hostname the two ends of a connection within one host choose
    different transports: the node that connects uses shared memory, and the
    other RDMA. *)
Lemma long_hostname_disagree node sid len a b : resolve_ok 0 = true -> node_host = false -> connectable a node ->
  PsMessage.is_int (n_id (n_my_node (v_conn (cm_van a)))) -> sizeof_RequestContext <= len ->
  (forall l, exists t, transport_for a l = Ok t) -> (forall l, exists t, transport_for b l = Ok t) ->
  n_hostname node = my_hostname b -> my_hostname a = my_hostname b -> (16 <= length (my_hostname a))%nat ->
  n_disable_ipc (v_conn (cm_van a)) = false -> n_disable_ipc (v_conn (cm_van b)) = false ->
  exists a' b' ep epb ta tb, handshake node sid len a b = Ok (true, a', b') /\
    connected_endpoint a' ep (n_id node) (cm_next a) ta /\ connected_endpoint b' epb (n_id (n_my_node (v_conn (cm_van a)))) sid tb /\
    tr_ipc ta <> None /\ tr_ipc tb = None.
Proof.
  intros Hr Hh Hc Hid Hlen Hta Htb Hnode Hsame Hlong Hda Hdb.
  destruct (Hta (takes_local a (n_hostname node))) as [ta Ha]. destruct (Htb (takes_local b (take 15 (my_hostname a)))) as [tb Hb].
  destruct (handshake_endpoints node sid len a b ta tb) as (a' & b' & ep & epb & H); [done..|].
  exists a', b', ep, epb, ta, tb. destruct H as (H1 & H2 & H3 & H4 & H5). repeat (split; [done|]).
  rewrite (transport_kind _ _ _ Ha), (transport_kind _ _ _ Hb). unfold takes_local. rewrite Hda, Hdb. split.
  - rewrite bool_decide_eq_true_2; [done|]. rewrite Hnode. symmetry. exact Hsame.
  - apply bool_decide_eq_false_2. intros Heq. apply (f_equal length) in Heq. unfold my_hostname in *. rewrite length_take, Hsame in Heq.
    rewrite Hsame in Hlong. lia.
Qed.
End connections.

(** ** Examples *)

Definition example_env : RdmaEnv := mkRdmaEnv (Some [119; 111; 114; 107; 101; 114]) None None None None.
Definition example_cm (role : Role) (me : Z) : CmVan :=
  mkCm (mkRdma (mkHost 4096 ∅ 4096 [] ∅ [])
          (mkTables ∅ (mkPool 1 [0] [None]) 1 ∅ ∅ ∅ ∅ ∅ ∅ [])
          (mkConn (mkNode role me 0 [104; 49] 8000 false) example_env false ∅ [] ∅ ∅ (example_ps example_office None)))
    ∅ 1 false false [].
Definition example_peer : Node := mkNode SERVER 8 0 [104; 49] 8000 false.

Lemma example_connectable : connectable (fun _ _ => true) (example_cm WORKER 9) example_peer.
Proof. split; done. Qed.

Lemma example_transports role me l : exists t, transport_for (example_cm role me) l = Ok t.
Proof. destruct l; eexists; vm_compute; reflexivity. Qed.

Lemma connect_after_rejections_witness :
  runs (o ← Rdma_Connect (fun _ => true) (fun _ => 0) (fun _ _ => true) false example_peer; ep ← st_lift (deref o);
        rejections (fun _ => true) (fun _ => 0) false example_peer ep 2;;
        id ← current_id ep; accepted_attempt (fun _ => true) (fun _ => 0) false example_peer ep id) (example_cm WORKER 9)
    (fun returned c' => returned = true /\ cm_next (example_cm WORKER 9) = 1).
Proof.
  destruct (example_transports WORKER 9 (takes_local (example_cm WORKER 9) (n_hostname example_peer))) as [t Ht].
  destruct (connect_after_rejections (fun _ => true) (fun _ => 0) (fun _ _ => true) false (example_cm WORKER 9) example_peer 2 t
    eq_refl eq_refl example_connectable Ht) as (r & c' & Hrun & Hr & _).
  exists r, c'. split; [exact Hrun|]. split; [exact Hr|reflexivity].
Defined.

Lemma handshake_connects_witness :
  exists a' b' ep epb ta tb, handshake (fun _ => true) (fun _ => 0) (fun _ _ => true) false example_peer 77 24 (example_cm WORKER 9) (example_cm SERVER 8) = Ok (true, a', b') /\
    connected_endpoint a' ep 8 1 ta /\ connected_endpoint b' epb 9 77 tb /\ tr_ipc ta <> None /\ tr_ipc tb <> None.
Proof.
  destruct (handshake_connects (fun _ => true) (fun _ => 0) (fun _ _ => true) false example_peer 77 24 (example_cm WORKER 9) (example_cm SERVER 8))
    as (a' & b' & ep & epb & ta & tb & H1 & _ & H2 & _ & H3 & H4 & H5).
  - reflexivity.
  - reflexivity.
  - exact example_connectable.
  - unfold PsMessage.is_int. cbn. lia.
  - reflexivity.
  - apply example_transports.
  - apply example_transports.
  - reflexivity.
  - cbn. lia.
  - reflexivity.
  - exists a', b', ep, epb, ta, tb. split; [exact H1|]. split; [exact H2|]. split; [exact H3|].
    assert (Hn : tr_ipc ta <> None) by (apply H5; split; reflexivity). split; [exact Hn|]. rewrite <- H4. exact Hn.
Defined.
