(* ===== verification/RdmaIpc.v ===== *)
(** Nodes on one host: the shared memory and the copying threads of
    [IPCTransport], src/src/rdma_transport.h. *)

From S2P Require Import Prelude State Bytes Memory PsMessage Ps Postoffice Resender ZmqVan RdmaMem RdmaUtils RdmaState RdmaTransport RdmaVan RdmaDelivery RdmaExample.

(** ** Slots of a shared memory object *)

Lemma IPCTransport_partition env pagesize t i : IPCTransport_new env pagesize = Ok t -> tr_ipc t = Some i ->
  0 < default 4096000 (e_partition_bytes env) -> 0 < s32 (default 8 (e_local_size env) * pagesize) ->
  ip_partition_bytes i = RdmaRoundUp (default 4096000 (e_partition_bytes env)) (s32 (default 8 (e_local_size env) * pagesize)) /\
  0 < ip_partition_bytes i < 2 ^ 31.
Proof.
  unfold IPCTransport_new. intros H Hi Hp Hy. inv_ok. subst t. cbn in Hi. injection Hi as <-. cbn [ip_partition_bytes]. split; [done|].
  unfold int_fits in *. b2p. destruct (RdmaRoundUp_spec (default 4096000 (e_partition_bytes env)) (s32 (default 8 (e_local_size env) * pagesize)) Hy ltac:(lia)). lia.
Qed.

Lemma shm_offset_exact i wk : 0 < ip_partition_bytes i < 2 ^ 31 -> shm_offset i wk = ip_partition_bytes i * (wk `mod` 65536).
Proof. intros Hp. unfold shm_offset. apply u64_small. pose proof (Z.mod_pos_bound wk 65536 ltac:(lia)). nia. Qed.

(** C37: shared memory is divided into slots. With the sizes that the constructor
    computes, the slot of a key starts at a multiple of the partition size, which
    is at least the configured one and a multiple of the local ranks' pages; keys
    with the same base share one memory object, in which different keys have
    slots that do not overlap; and the base and the slot give the key back. *)
Theorem shared_memory_slots env pagesize t i wk wk' (Hnew : IPCTransport_new env pagesize = Ok t) (Hi : tr_ipc t = Some i)
    (Hp : 0 < default 4096000 (e_partition_bytes env)) (Hy : 0 < s32 (default 8 (e_local_size env) * pagesize))
    (Hbase : base_key wk = base_key wk') (Hne : wk <> wk') :
  default 4096000 (e_partition_bytes env) <= ip_partition_bytes i /\
  (s32 (default 8 (e_local_size env) * pagesize) | shm_offset i wk) /\
  (shm_offset i wk + ip_partition_bytes i <= shm_offset i wk' \/ shm_offset i wk' + ip_partition_bytes i <= shm_offset i wk) /\
  base_key wk + shm_offset i wk / ip_partition_bytes i = wk.
Proof.
  destruct (IPCTransport_partition env pagesize t i Hnew Hi Hp Hy) as [Heq Hr].
  destruct (RdmaRoundUp_spec (default 4096000 (e_partition_bytes env)) _ Hy ltac:(lia)) as [Hle Hdiv]. rewrite <- Heq in Hle, Hdiv.
  rewrite !shm_offset_exact by done. unfold base_key in *. set (p := ip_partition_bytes i) in *.
  pose proof (Z.mod_pos_bound wk 65536 ltac:(lia)). pose proof (Z.mod_pos_bound wk' 65536 ltac:(lia)).
  split; [lia|]. split; [by apply Z.divide_mul_l|]. split.
  - assert (wk `mod` 65536 <> wk' `mod` 65536) by lia. destruct (Z.lt_ge_cases (wk `mod` 65536) (wk' `mod` 65536)); [left|right]; nia.
  - rewrite Z.mul_comm, Z.div_mul by lia. lia.
Qed.

Lemma shared_memory_slots_witness :
  exists t i, IPCTransport_new (mkRdmaEnv (Some []) None None None None) 4096 = Ok t /\ tr_ipc t = Some i /\
    shm_offset i 65537 + ip_partition_bytes i <= shm_offset i 65538.
Proof.
  set (env := mkRdmaEnv (Some []) None None None None). destruct (IPCTransport_new env 4096) as [t| | |] eqn:E; [|vm_compute in E; done..].
  destruct (tr_ipc t) as [i|] eqn:Ei; [|vm_compute in E; injection E as <-; done]. exists t, i. split; [reflexivity|]. split; [exact Ei|].
  destruct (shared_memory_slots env 4096 t i 65537 65538 E Ei ltac:(reflexivity) ltac:(reflexivity) eq_refl ltac:(lia)) as (Hge & _ & [H|H] & _); [exact H|].
  vm_compute in E. injection E as <-. cbn in Ei. injection Ei as <-. vm_compute in H. by destruct H.
Defined.

(** ** Responses to pulls *)

Section ipc.
Context (ibv_post_send : Mem -> Z -> list (Z * WorkRequest) -> WorkRequest -> bool).
Context (shm_open_mmap : list Z -> option Z).

(** The endpoint [ep] has a transport with the state [i]. *)
Definition ipc_at (v : RdmaVan) (ep : Z) (i : Ipc) : Prop := exists e t, n_eps (v_conn v) !! ep = Some e /\ ep_trans e = Some t /\ tr_ipc t = Some i.

Lemma runs_get_ipc v ep i Q : ipc_at v ep i -> (Q i v : Prop) -> runs (get_ipc ep) v Q.
Proof.
  intros (e & t & He & Ht & Hi) HQ. unfold get_ipc, get_endpoint. rrun. apply (runs_deref _ e); [done|]. apply (runs_deref _ i); [|done]. cbn. by rewrite Ht.
Qed.

(** What an operation on the transport's own state leaves. *)
Definition same_but_conn (v v' : RdmaVan) : Prop := v_host v' = v_host v /\ v_tabs v' = v_tabs v.

Lemma runs_set_ipc v ep i i' Q : ipc_at v ep i -> (forall v', same_but_conn v v' -> ipc_at v' ep i' -> Q tt v') -> runs (set_ipc ep i') v Q.
Proof.
  intros (e & t & He & Ht & Hi) HQ. unfold set_ipc, modify_endpoint. rrun. apply HQ; [done|].
  exists (SetTransport (mkTrans (tr_is_server t) (Some i')) e), (mkTrans (tr_is_server t) (Some i')). split; [|done].
  cbn. rewrite lookup_alter_eq, He. cbn. by rewrite Ht.
Qed.

(** Where the memory object of a key is mapped, or will be. *)
Definition object_at (i : Ipc) (wk base : Z) : Prop :=
  ip_key_shm_addr i !! base_key wk = Some base \/
  ip_key_shm_addr i !! base_key wk = None /\ shm_open_mmap (kShmPrefix ++ to_string (base_key wk)) = Some base.

Lemma GetSharedMemory_ok v ep i key wk ps' base Q : ipc_at v ep i ->
  DecodeWorkerKey (IDtoRank (n_id (n_my_node (v_conn v)))) key (n_ps (v_conn v)) = Ok (wk, ps') -> object_at i wk base ->
  (forall i' v', same_but_conn v v' -> ipc_at v' ep i' -> ip_key_shm_addr i' !! base_key wk = Some base ->
     i' = ipc_set_shm i (ip_key_shm_addr i') -> Q (base + shm_offset i wk) v') ->
  runs (GetSharedMemory shm_open_mmap ep kShmPrefix key) v Q.
Proof.
  intros Hipc Hk Hobj HQ. unfold GetSharedMemory. rrun.
  exists wk, (set_ps ps' v). split; [unfold rd_ps; by rewrite Hk|]. rrun.
  assert (Hipc' : ipc_at (set_ps ps' v) ep i) by (destruct v as [? ? []]; exact Hipc).
  apply (runs_get_ipc _ _ i); [done|]. destruct Hobj as [Hb|[Hn Hb]].
  - rewrite Hb. rrun. apply (HQ i); [by destruct v|done|done|by destruct i].
  - rewrite Hn, Hb. rrun. apply (runs_set_ipc _ _ i); [done|]. intros v' [H1 H2] Hi'. rrun.
    apply (HQ (ipc_set_shm i (<[base_key wk:=base]> (ip_key_shm_addr i)))); [by split; [rewrite H1|rewrite H2]; destruct v|done|cbn; by rewrite lookup_insert_eq|done].
Qed.

Lemma memcpy_ok v dst src n bs Q : 0 <= n -> mem_bytes (h_mem (v_host v)) src (Z.to_nat n) = Some bs -> mapped (h_mem (v_host v)) dst n ->
  Q tt (set_mem (mem_put (h_mem (v_host v)) dst bs) v) -> runs (rd_memcpy dst src n) v Q.
Proof.
  intros Hn Hb Hm HQ. pose proof (mem_bytes_length _ _ _ _ Hb) as Hl. unfold rd_memcpy, read_mem, write_mem. rrun. apply runs_DEFINED; [b2p; lia|].
  rrun. apply (runs_lift _ bs); [by apply mem_read_ok|]. rrun. eapply runs_lift; [apply mem_write_ok; by replace (Z.of_nat (length bs)) with n by lia|]. by rrun.
Qed.

(** A response, and the turn of the thread that it may have been queued for. *)
Definition respond (ep : Z) (msg : RMessage) (buf : Z) (tup : RemoteTuple) : rd unit :=
  before ← get_ipc ep;
  Ipc_SendPullResponse ibv_post_send shm_open_mmap ep msg buf tup;;
  if ip_enable_async_copy before then
    AsyncCopyThread ibv_post_send ep (Z.to_nat (ip_cpy_counter before `mod` ip_copy_nthreads before));; mret tt
  else mret tt.

(** What a response needs: the values, the object's memory, and the buffer for
    the meta data. *)
Record response (v : RdmaVan) (msg : RMessage) (buf : Z) (vals : SA) (bs : list Z) (dst : Z) (mb : MessageBuffer) (ri : Mr) : Prop := {
  rp_vals : rm_data msg !! 1%nat = Some vals /\ sa_data vals <> 0;
  rp_len : 0 < mt_val_len (rm_meta msg);
  rp_bytes : mem_bytes (h_mem (v_host v)) (sa_data vals) (Z.to_nat (mt_val_len (rm_meta msg))) = Some bs;
  rp_dst : dst <> 0 /\ mapped (h_mem (v_host v)) dst (mt_val_len (rm_meta msg));
  rp_buf : b_msg_bufs (v_tabs v) !! buf = Some mb /\ h_mr (v_host v) !! mb_inline_buf mb = Some ri /\ 0 <= mb_inline_len mb < 2 ^ 32;
  rp_posted : Z.of_nat (length (h_posted (v_host v))) < 1000 }.

Lemma response_same v v' msg buf vals bs dst mb ri : same_but_conn v v' -> response v msg buf vals bs dst mb ri -> response v' msg buf vals bs dst mb ri.
Proof. intros [H1 H2] [R1 R2 R3 R4 R5 R6]. split; rewrite ?H1, ?H2; done. Qed.

(** The device is known to accept a request when [bs] is in memory at [dst]. *)
Definition accepts_after (dst : Z) (bs : list Z) : Prop :=
  forall m ep posted wr, mem_bytes m dst (length bs) = Some bs -> Z.of_nat (length posted) < 1000 -> ibv_post_send m ep posted wr = true.

(** The copy and the notification. *)
Lemma copy_and_send v ep msg buf tup vals bs dst mb ri (Q : unit -> RdmaVan -> Prop) : accepts_after dst bs ->
  response v msg buf vals bs dst mb ri ->
  (forall v', mem_bytes (h_mem (v_host v')) dst (Z.to_nat (mt_val_len (rm_meta msg))) = Some bs ->
     h_posted (v_host v') = h_posted (v_host v) ++ [(ep, imm_request mb buf ri tup)] -> Q tt v') ->
  runs (rd_memcpy dst (sa_data vals) (mt_val_len (rm_meta msg));; RDMAWriteWithImm ibv_post_send ep buf (rt_addr tup) (rt_rkey tup) (rt_idx tup)) v Q.
Proof.
  intros Hdev [_ Hl Hb [_ Hm] (Hmb & Hri & Hil) Hpo] HQ. rrun. pose proof (mem_bytes_length _ _ _ _ Hb) as Hbl. apply (memcpy_ok v _ _ _ bs); [lia|done|done|].
  apply (RDMAWriteWithImm_accepted _ _ _ mb ri); [apply Hdev; [apply mem_put_bytes|exact Hpo]|done|done|done|]. apply HQ; [|done].
  change (mem_bytes (mem_put (h_mem (v_host v)) dst bs) dst (Z.to_nat (mt_val_len (rm_meta msg))) = Some bs). rewrite <- Hbl. apply mem_put_bytes.
Qed.

(** C23: a response to a pull within a host arrives in shared memory before it is
    announced. The device may refuse, which stops the program, every request that
    is posted while the values are not in the slot of the key. Whether the
    transport copies at once or hands the copy to one of its threads, it posts one
    write with an immediate value, which carries the meta data, and nothing else;
    it is accepted, so the values were in the slot when it was posted, and they
    still are; the memory object is opened on first use. The response has at least
    one byte (see [empty_response_dropped]), and the thread has nothing else to
    do. *)
Theorem ipc_response_arrives v ep i msg buf tup wk ps' base vals bs mb ri (Hipc : ipc_at v ep i)
    (Hk : DecodeWorkerKey (IDtoRank (n_id (n_my_node (v_conn v)))) (mt_key (rm_meta msg)) (n_ps (v_conn v)) = Ok (wk, ps'))
    (Hobj : object_at i wk base) (Hr : response v msg buf vals bs (base + shm_offset i wk) mb ri)
    (Hq : ip_enable_async_copy i = true -> 0 < ip_copy_nthreads i /\
      ip_async_copy_queue i !! Z.to_nat (ip_cpy_counter i `mod` ip_copy_nthreads i) = Some [])
    (Hdev : accepts_after (base + shm_offset i wk) bs) :
  runs (respond ep msg buf tup) v (fun _ v' =>
    mem_bytes (h_mem (v_host v')) (base + shm_offset i wk) (Z.to_nat (mt_val_len (rm_meta msg))) = Some bs /\
    h_posted (v_host v') = h_posted (v_host v) ++ [(ep, imm_request mb buf ri tup)]).
Proof.
  unfold respond. rrun. apply (runs_get_ipc _ _ i); [done|]. rrun. unfold Ipc_SendPullResponse. rrun. pose proof Hr as [[Hv Hv0] Hl _ [Hd _] _ _].
  apply (runs_deref _ vals); [done|]. rrun. apply runs_CHECK; [b2p; done|]. rrun.
  apply (GetSharedMemory_ok v ep i _ wk ps' base); [done..|]. intros i' v1 Hs1 Hi1 _ Heq. rrun. apply runs_CHECK; [b2p; done|]. rrun.
  apply (runs_get_ipc _ _ i'); [done|]. apply (response_same _ _ _ _ _ _ _ _ _ Hs1) in Hr. pose proof Hs1 as [Hh1 _].
  assert (Hf : ip_enable_async_copy i' = ip_enable_async_copy i /\ ip_copy_nthreads i' = ip_copy_nthreads i /\ ip_cpy_counter i' = ip_cpy_counter i /\
    ip_async_copy_queue i' = ip_async_copy_queue i) by (rewrite Heq; done). destruct Hf as (-> & -> & -> & ->).
  destruct (ip_enable_async_copy i).
  - destruct Hq as [Hn Hq]; [done|]. set (j := Z.to_nat _) in *. rrun. apply runs_DEFINED; [b2p; done|]. rrun.
    apply (runs_set_ipc _ _ i'); [done|]. intros v2 Hs2 Hi2. rrun. unfold AsyncCopyThread. rrun. apply (runs_get_ipc _ _ _ _ Hi2). rrun.
    set (m := mkCopy _ _ _ _ _ _) in *. cbn [ip_async_copy_queue ipc_set_queues]. apply (runs_deref _ [m]).
    { by rewrite list_lookup_alter_eq, Hq. }
    rrun. eapply (runs_set_ipc _ _ _ _ _ Hi2). intros v3 Hs3 Hi3. cbn [ac_shutdown ac_len m]. rewrite (proj2 (Z.eqb_neq (mt_val_len (rm_meta msg)) 0)) by lia.
    cbn [ac_dst ac_src ac_msg_buf ac_tuple m]. rrun. apply runs_CHECK; [b2p; done|]. rrun. apply runs_CHECK; [b2p; done|].
    apply (response_same _ _ _ _ _ _ _ _ _ Hs2), (response_same _ _ _ _ _ _ _ _ _ Hs3) in Hr.
    pose proof (copy_and_send v3 ep msg buf tup vals bs (base + shm_offset i wk) mb ri) as Hcs. destruct Hs2 as [Hh2 _], Hs3 as [Hh3 _].
    destruct (Hcs (fun _ v' => mem_bytes (h_mem (v_host v')) (base + shm_offset i wk) (Z.to_nat (mt_val_len (rm_meta msg))) = Some bs /\
      h_posted (v_host v') = h_posted (v_host v) ++ [(ep, imm_request mb buf ri tup)])) as (u & v' & Hrun & HQ); [done|done| |].
    { intros v' H1 H2. split; [done|]. by rewrite H2, Hh3, Hh2, Hh1. }
    apply st_bind_inv in Hrun as (u1 & v4 & Hc & Hw). rrun. exists u1, v4. split; [exact Hc|]. rrun. exists u, v'. split; [exact Hw|]. rrun. exact HQ.
  - destruct (copy_and_send v1 ep msg buf tup vals bs _ mb ri (fun _ v' => mem_bytes (h_mem (v_host v')) (base + shm_offset i wk) (Z.to_nat (mt_val_len (rm_meta msg))) = Some bs /\
      h_posted (v_host v') = h_posted (v_host v) ++ [(ep, imm_request mb buf ri tup)]) Hdev Hr) as (u & v' & Hrun & HQ).
    { intros v' H1 H2. split; [done|]. by rewrite H2, Hh1. }
    exists u, v'. split; [exact Hrun|]. rrun. exact HQ.
Qed.

(** A response without values is queued and then dropped: the thread posts
    nothing for it. *)
Lemma empty_response_dropped v ep i j m q : ipc_at v ep i -> ip_async_copy_queue i !! j = Some (m :: q) -> ac_shutdown m = false -> ac_len m = 0 ->
  runs (AsyncCopyThread ibv_post_send ep j) v (fun go v' => go = true /\ v_host v' = v_host v).
Proof.
  intros Hi Hq Hs Hl. unfold AsyncCopyThread. rrun. apply (runs_get_ipc _ _ i); [done|]. rrun. eapply runs_deref; [exact Hq|]. cbv beta iota. rrun.
  apply (runs_set_ipc _ _ i); [done|]. intros v' [Hh _] _. rewrite Hs, Hl. cbn. rrun. done.
Qed.
End ipc.

(** ** An example *)

Definition example_ipc_van : RdmaVan :=
  let mb := mkMsgBuf 100 64 [] [] in
  mkRdma (mkHost 64 (mem_put (mem_put ∅ 200 [1; 2; 3]) 4194304 (replicate 10 0)) 8388608 [mkMr 64 128 1 1] {[64 := mkMr 64 128 1 1]} [])
    (mkTables ∅ (mkPool 1 [0] [None]) 1 ∅ {[5 := mb]} ∅ ∅ ∅ ∅ [])
    (mkConn (example_node 8 8000) (mkRdmaEnv None None None None None) false {[9 := 3]} []
       {[3 := mkEndpoint CONNECTED 9 None (Some (mkTrans true (Some (mkIpc 2 [[]; []] 1 64 ∅ true)))) [] [] 0]} ∅
       (example_ps (mkPostoffice ∅ ∅ [mkRange 0 1000000] false true false 1 1 ∅ 0 ∅ 0) None)).

(** A device that refuses requests while the values are missing. *)
Definition example_device (m : Mem) (_ : Z) (_ : list (Z * WorkRequest)) (_ : WorkRequest) : bool :=
  bool_decide (mem_bytes m 4194304 3 = Some [1; 2; 3]).

(** The slot of key 65539 is the fourth of its object, which is opened at
    [4194304 - 192]. *)
Lemma ipc_response_arrives_witness :
  let msg := mkRMsg (mkMeta 0 0 0 0 8 9 false false false [] [] (mkControl EMPTY [] 0 0) 0 65539 0 3 0) [mkSA 0 0; mkSA 200 3; mkSA 0 0] in
  runs (respond example_device (fun _ => Some 4194112) 3 msg 5 (mkTuple 1000 2 3 5)) example_ipc_van (fun _ v' =>
    mem_bytes (h_mem (v_host v')) 4194304 3 = Some [1; 2; 3] /\ length (h_posted (v_host v')) = 1%nat).
Proof.
  intros msg. set (i := mkIpc 2 [[]; []] 1 64 ∅ true).
  assert (Hi : ipc_at example_ipc_van 3 i) by (eexists _, _; split; [reflexivity|split; reflexivity]).
  destruct (DecodeWorkerKey (IDtoRank (n_id (n_my_node (v_conn example_ipc_van)))) (mt_key (rm_meta msg)) (n_ps (v_conn example_ipc_van))) as [[wk ps']| | |] eqn:E;
    [|vm_compute in E; done..].
  assert (wk = 65539) as -> by (vm_compute in E; congruence).
  destruct (ipc_response_arrives example_device (fun _ => Some 4194112) example_ipc_van 3 i msg 5 (mkTuple 1000 2 3 5) 65539 ps' 4194112
    (mkSA 200 3) [1; 2; 3] (mkMsgBuf 100 64 [] []) (mkMr 64 128 1 1)) as (u & v' & Hrun & Hmem & Hpost).
  - exact Hi.
  - exact E.
  - right. split; reflexivity.
  - split; [split; [reflexivity|done]|reflexivity|vm_compute; reflexivity|split; [vm_compute; done|eexists; vm_compute; reflexivity]|split; [reflexivity|split; [reflexivity|cbn; lia]]|cbn; lia].
  - intros _. split; [reflexivity|]. vm_compute. reflexivity.
  - intros m' e' posted wr Hm _. apply bool_decide_eq_true_2. exact Hm.
  - exists u, v'. split; [exact Hrun|]. split; [exact Hmem|]. rewrite Hpost. reflexivity.
Defined.
