(* ===== verification/ZmqDelivery.v ===== *)
(** Properties of the ZeroMQ van (ZmqVan.v): identities survive, a message that
    is sent through either kind of socket reaches its receiver unchanged, and what
    a second connection to the same node does. *)

From S2P Require Import Prelude State Bytes Memory PsMessage Ps Resender ZmqVan.

(** ** Identities *)

Lemma parse_digits fuel : forall n rest, 0 <= n < 10 ^ Z.of_nat fuel -> n + 48 < 2 ^ 31 ->
  (0 < fuel)%nat -> parse_id 0 (digits fuel n ++ rest) = parse_id n rest.
Proof.
  induction fuel as [|fuel IH]; intros n rest Hn Hlt Hf; [lia|]. cbn [digits].
  pose proof (Z.div_mod n 10 ltac:(lia)) as Hdm. pose proof (Z.mod_pos_bound n 10 ltac:(lia)) as Hm.
  assert (Hlast : forall id, id * 10 + n mod 10 = n -> parse_id id ([48 + n mod 10] ++ rest) = parse_id n rest).
  { intros id Hid. cbn [app parse_id]. rewrite (proj2 (andb_true_iff _ _)) by (split; b2p; lia).
    rewrite DEFINED_true by (b2p; lia). cbn [mbind outcome_bind]. f_equal. lia. }
  case_if E; b2p.
  - rewrite app_nil_l. apply Hlast. rewrite Z.mod_small by lia. lia.
  - assert (Hq : 0 <= n `div` 10 < 10 ^ Z.of_nat fuel).
    { split; [apply Z.div_pos; lia|]. apply Z.div_lt_upper_bound; [lia|]. rewrite <- Z.pow_succ_r by lia.
      replace (Z.succ (Z.of_nat fuel)) with (Z.of_nat (S fuel)) by lia. apply Hn. }
    assert (Hf' : (0 < fuel)%nat).
    { destruct fuel; [|lia]. change (10 ^ Z.of_nat 1) with 10 in Hn. lia. }
    rewrite <- app_assoc, IH by lia. apply Hlast. lia.
Qed.

Lemma digits_some fuel n : (0 < fuel)%nat -> digits fuel n <> [].
Proof. destruct fuel; [lia|]. cbn. intros _ H. apply app_nil in H as [_ H]. done. Qed.

(** Node ids are far below the largest [int]. *)
Definition node_id (id : Z) : Prop := 0 <= id < 2 ^ 31 - 48.

Lemma GetNodeID_identity id : node_id id -> GetNodeID (identity id) = Ok id.
Proof.
  intros [H0 H1]. unfold GetNodeID, identity, to_string. rewrite (proj2 (Z.ltb_ge _ _)) by lia.
  pose proof (digits_some 20 id ltac:(lia)) as Hne.
  pose proof (parse_digits 20 id [] ltac:(split; [lia|]; change (10 ^ Z.of_nat 20) with 100000000000000000000; lia) ltac:(lia) ltac:(lia)) as Hp.
  rewrite app_nil_r in Hp. cbn [app]. destruct (digits 20 id); done.
Qed.

(** ** Sending *)

Definition goes_out (r : send_result) : Prop := r <> SendFailed.

(** The van after [new] has left. *)
Definition z_after (z : ZMQVan) (rs : list send_result) (new : list (Z * frame)) : ZMQVan :=
  mkZmq (z_senders z) (z_receiver z) (z_is_worker z) (z_my_node z) (z_recv_buffers z) (z_next z) (z_identity z)
    (z_connected z) (z_closed z) (z_threads z) (z_sent z ++ new) rs.

Lemma z_after_after z rs new rs' new' : z_after (z_after z rs new) rs' new' = z_after z rs' (new ++ new').
Proof. unfold z_after. cbn. by rewrite app_assoc. Qed.

Lemma send_result_ok rs : Forall goes_out rs -> exists rs', send_result_of rs = (true, rs') /\ Forall goes_out rs'.
Proof.
  induction 1 as [|r rs Hr Hrs IH]; [by exists []|]. destruct r; cbn [send_result_of]; [by exists rs|done|by destruct Hr].
Qed.

Lemma send_frame_ok socket f z : Forall goes_out (z_results z) ->
  exists rs, send_frame socket f z = Ok (true, z_after z rs [(socket, f)]) /\ Forall goes_out rs.
Proof.
  intros H. destruct (send_result_ok _ H) as (rs & Hr & Hrs). exists rs. split; [|done].
  unfold send_frame. st_step (eq_refl : st_gets id z = Ok (z, z)). rewrite Hr. done.
Qed.

Fixpoint data_frames (data : list (list Z)) : list frame :=
  match data with
  | [] => []
  | d :: data' => (negb (Nat.eqb (length data') 0), d) :: data_frames data'
  end.

Lemma send_data_ok socket data : forall bytes z, Forall goes_out (z_results z) -> 0 <= bytes ->
  bytes + Z.of_nat (length (concat data)) < 2 ^ 31 ->
  exists rs, send_data socket data bytes z =
      Ok (bytes + Z.of_nat (length (concat data)), z_after z rs (map (pair socket) (data_frames data))) /\ Forall goes_out rs.
Proof.
  induction data as [|d data IH]; intros bytes z Hz H0 Hlt; cbn [send_data data_frames map concat] in *.
  { exists (z_results z). split; [|done]. unfold z_after. rewrite app_nil_r, Z.add_0_r. by destruct z. }
  rewrite length_app, Nat2Z.inj_add in *. destruct (send_frame_ok socket (negb (Nat.eqb (length data) 0), d) z Hz) as (rs & Hs & Hrs).
  st_step Hs. cbv iota. rewrite s32_small by lia.
  destruct (IH (bytes + Z.of_nat (length d)) (z_after z rs [(socket, (negb (Nat.eqb (length data) 0), d))]) Hrs ltac:(lia) ltac:(lia)) as (rs' & Hd & Hrs').
  exists rs'. split; [|done]. etransitivity; [exact Hd|]. by rewrite z_after_after, Z.add_assoc.
Qed.

(** The frames of a message whose packed meta data are [mem]. *)
Definition message_frames (mem : list Z) (data : list (list Z)) : list frame :=
  (negb (Nat.eqb (length data) 0), mem) :: data_frames data.

Definition msg_bytes (m : Message) : Z := raw_len (ms_meta m) + Z.of_nat (length (concat (ms_data m))).

Lemma raw_len_pos m : 0 < raw_len m.
Proof. unfold raw_len, body_size, num_data_types, num_nodes, sizeof_RawMeta, sizeof_RawNode. lia. Qed.

Lemma ZmqSendMsg_ok junk socket m z : Forall goes_out (z_results z) -> meta_wf (ms_meta m) -> msg_bytes m < 2 ^ 31 ->
  exists rs mem, ZmqSendMsg junk socket m z =
      Ok (msg_bytes m, z_after z rs (map (pair socket) (message_frames mem (ms_data m)))) /\ Forall goes_out rs /\
    Z.of_nat (length mem) = raw_len (ms_meta m) /\ forall m0, UnpackMeta mem m0 = Ok (arrives (ms_meta m) m0).
Proof.
  intros Hz Hwf Hlt. pose proof (raw_len_pos (ms_meta m)) as Hp. unfold ZmqSendMsg. rewrite GetPackMetaLen_ok by done.
  destruct (PackMeta_packed (ms_meta m) (replicate (Z.to_nat (raw_len (ms_meta m) + 1)) junk) Hwf) as (mem & Hpack & Hlen & Hun);
    [rewrite length_replicate; lia|]. rewrite length_replicate in Hlen. st_lift_step Hpack. cbn [fst].
  set (mem' := take (Z.to_nat (raw_len (ms_meta m))) mem) in *.
  destruct (send_frame_ok socket (negb (Nat.eqb (length (ms_data m)) 0), mem') z Hz) as (rs & Hs & Hrs). st_step Hs.
  st_lift_step (eq_refl : CHECK true = Ok tt).
  destruct (send_data_ok socket (ms_data m) (raw_len (ms_meta m))
    (z_after z rs [(socket, (negb (Nat.eqb (length (ms_data m)) 0), mem'))]) Hrs ltac:(lia) Hlt) as (rs' & Hd & Hrs').
  exists rs', mem'. split; [etransitivity; [exact Hd|]; by rewrite z_after_after|]. split; [done|]. split; [|done].
  unfold mem'. rewrite length_take. lia.
Qed.

(** ** Receiving *)

(** The frames among the events of a thread that is neither stopped nor fails. *)
Definition frames_of (evs : list recv_event) : list frame := omap (fun e => match e with RecvFrame f => Some f | _ => None end) evs.
Definition quiet (e : recv_event) : Prop := e <> RecvError /\ e <> RecvStop.

(** Waiting and interruptions make no difference. *)
Lemma recv_frames_quiet evs : forall i c e, Forall quiet evs -> recv_frames (map RecvFrame (frames_of evs)) i c = Ok (e, []) ->
  exists rest, recv_frames evs i c = Ok (e, rest).
Proof.
  induction evs as [|ev evs IH]; intros i c e Hq H; [by exists []|]. inversion Hq as [|? ? [Hne Hns] Hq']; subst.
  destruct ev as [[more buf]| | | |]; try done; cbn [recv_frames]; [|by apply IH..]. cbn [frames_of omap list_omap map recv_frames] in H.
  fold (frames_of evs) in H. destruct i as [|[|i]].
  - destruct (GetNodeID buf); [|done..]. cbn [mbind outcome_bind] in *. destruct more; [|done]. cbn [CHECK mbind outcome_bind] in *.
    by apply IH.
  - destruct more; [by apply IH|]. injection H as <- _. by eexists.
  - destruct more; [by apply IH|]. injection H as <- _. by eexists.
Qed.

Lemma recv_data_frames data : forall i c, data <> [] ->
  recv_frames (map RecvFrame (data_frames data)) (S (S i)) c =
    Ok (Received (mkContext (bc_sender c) (bc_meta c) (bc_data c ++ data)), []).
Proof.
  induction data as [|d data IH]; intros i c Hne; [done|]. cbn [data_frames map recv_frames].
  destruct data as [|d' data]; [done|]. cbn [length Nat.eqb negb]. rewrite IH by done. cbn. by rewrite <- app_assoc.
Qed.

Lemma recv_message_frames id mem data : node_id id ->
  recv_frames (map RecvFrame ((true, identity id) :: message_frames mem data)) 0 (mkContext 0 [] []) =
    Ok (Received (mkContext id mem data), []).
Proof.
  intros Hid. cbn [map recv_frames message_frames]. rewrite GetNodeID_identity by done. cbn [mbind outcome_bind CHECK].
  destruct data as [|d data]; [done|]. cbn [length Nat.eqb negb]. by rewrite recv_data_frames.
Qed.

(** When a receiving thread of the van [r] sees the frames [fs], with waits and
    interruptions, [RecvMsg] returns the message [m] of the node [who]. *)
Definition received_by (r : ZMQVan) (m : Message) (who : Z) (fs : list frame) : Prop :=
  forall evs meta, frames_of evs = fs -> Forall quiet evs -> z_recv_buffers r = [] ->
  exists x r1, CallZmqRecvThread_turn evs r = Ok (x, r1) /\
    Zmq_RecvMsg meta r1 = Ok (Some (msg_bytes m,
      mkMessage (arrives (ms_meta m) (set_ends meta who (n_id (z_my_node r)) (mt_timestamp meta))) (ms_data m)), r).

Lemma message_received r who m mem : node_id who -> msg_bytes m < 2 ^ 31 ->
  Z.of_nat (length mem) = raw_len (ms_meta m) -> (forall m0, UnpackMeta mem m0 = Ok (arrives (ms_meta m) m0)) ->
  received_by r m who ((true, identity who) :: message_frames mem (ms_data m)).
Proof.
  intros Hid Hlt Hmem Hun evs meta Hev Hq Hr. pose proof (recv_message_frames who mem (ms_data m) Hid) as H. rewrite <- Hev in H.
  destruct (recv_frames_quiet _ _ _ _ Hq H) as (rest & Hrecv).
  unfold CallZmqRecvThread_turn. st_lift_step Hrecv. cbn [fst].
  set (c := mkContext who mem (ms_data m)). set (r1 := z_set_recv_buffers r (z_recv_buffers r ++ [c])).
  st_step (eq_refl : st_modify (fun z => z_set_recv_buffers z (z_recv_buffers z ++ [c])) r = Ok (tt, r1)).
  eexists _, r1. split; [reflexivity|]. unfold Zmq_RecvMsg. st_step (eq_refl : st_gets id r1 = Ok (r1, r1)).
  cbn [r1 z_recv_buffers z_set_recv_buffers z_my_node]. rewrite Hr. cbn [app].
  st_step (eq_refl : st_modify (fun z => z_set_recv_buffers z []) r1 = Ok (tt, z_set_recv_buffers r1 [])).
  st_lift_step (Hun (set_ends meta who (n_id (z_my_node r)) (mt_timestamp meta))).
  unfold mret, stm_ret. cbn [c bc_meta bc_data]. unfold msg_bytes in *. rewrite s32_small, Hmem by lia.
  do 2 f_equal. rewrite <- Hr. by destruct r.
Qed.

(** ** Delivery *)

Lemma send_identity_ok node z : Forall goes_out (z_results z) ->
  exists rs, send_identity node z = Ok (tt, z_after z rs [(z_receiver z, (true, identity node))]) /\ Forall goes_out rs.
Proof.
  intros H. destruct (send_frame_ok (z_receiver z) (true, identity node) z H) as (rs & Hs & Hrs). exists rs. split; [|done].
  unfold send_identity. st_step (eq_refl : st_gets id z = Ok (z, z)). by st_step Hs.
Qed.

(** *** The network

    ZeroMQ is a parameter. [router_send ids fs]: what a ROUTER socket to which
    sockets with the identities [ids] are connected does with the frames [fs] of
    a message: the identity of the socket that gets them, and the frames that it
    gets. [router_receive ident fs]: what is read from a ROUTER socket when the
    socket with the identity [ident] sent [fs] to it. *)
Section network.
Context (router_send : gset (list Z) -> list frame -> option (list Z * list frame)).
Context (router_receive : list Z -> list frame -> list frame).

(** The vans whose sockets are connected to the receiving socket of the sender,
    by the identity that [Connect] gave the socket, and the vans that own the
    receiving sockets at the other ends of the sender's sending sockets. *)
Context (at_router : gmap (list Z) ZMQVan) (at_socket : gmap Z ZMQVan).

(** The van that the frames [fs] reach, and what its receiving thread reads,
    when they leave the van with the identity [own] through its receiving socket
    or through the sending socket [socket]. *)
Definition carried (router : bool) (own : list Z) (socket : Z) (fs : list frame) : option (ZMQVan * list frame) :=
  if router then
    '(ident, gs) ← router_send (dom at_router) fs;
    r ← at_router !! ident; Some (r, gs)
  else r ← at_socket !! socket; Some (r, router_receive own fs).

(** What ZeroMQ documents: a ROUTER socket takes the first frame of a message
    that it sends as the identity of its destination, and puts the identity of
    the sender in front of a message that it receives. *)
Definition router_routes : Prop :=
  forall ids ident fs, ident ∈ ids -> router_send ids ((true, ident) :: fs) = Some (ident, fs).
Definition router_names : Prop := forall ident fs, router_receive ident fs = (true, ident) :: fs.

(** C21: a message arrives at the node it is for. If sending fails nowhere,
    whatever is interrupted, [SendMsg] of a worker or of another node returns the
    number of bytes. The message leaves through the receiving socket, whose first
    frame selects the socket with the identity of the receiver among all that are
    connected to it, or through the sending socket of the receiver; and when the
    receiving thread of the van [r] of the receiver, which is the one that is
    reached, sees the frames, with waits and interruptions between them,
    [RecvMsg] of [r] returns the message with its meta data, its data and its
    sender. *)
Theorem zmq_message_arrives junk z m socket r
    (Hroutes : router_routes) (Hnames : router_names)
    (Hwf : meta_wf (ms_meta m)) (Hlt : msg_bytes m < 2 ^ 31) (Hid : node_id (n_id (z_my_node z)))
    (Hto : mt_recver (ms_meta m) <> kEmpty) (Hsocket : z_senders z !! mt_recver (ms_meta m) = Some socket)
    (Hout : Forall goes_out (z_results z)) :
  let router := negb (z_is_worker z) && through_receiver m in
  (if router then at_router !! identity (mt_recver (ms_meta m)) = Some r else at_socket !! socket = Some r) ->
  exists z' new fs, Zmq_SendMsg junk m z = Ok (msg_bytes m, z') /\
    z_sent z' = z_sent z ++ map (pair (if router then z_receiver z else socket)) new /\
    carried router (identity (n_id (z_my_node z))) socket new = Some (r, fs) /\
    received_by r m (n_id (z_my_node z)) fs.
Proof.
  assert (Hcheck : CHECK (negb (mt_recver (ms_meta m) =? kEmpty)) = Ok tt) by (apply CHECK_true; b2p; done).
  assert (Hsend : at_socket !! socket = Some r -> exists z' new fs, ZmqSendMsg junk socket m z = Ok (msg_bytes m, z') /\
    z_sent z' = z_sent z ++ map (pair socket) new /\
    carried false (identity (n_id (z_my_node z))) socket new = Some (r, fs) /\ received_by r m (n_id (z_my_node z)) fs).
  { intros Hr. destruct (ZmqSendMsg_ok junk socket m z Hout Hwf Hlt) as (rs & mem & Hs & _ & Hmem & Hun).
    eexists _, _, _. split; [exact Hs|]. split; [done|]. unfold carried. rewrite Hr, Hnames. split; [done|].
    by apply message_received. }
  unfold Zmq_SendMsg. st_step (eq_refl : st_gets id z = Ok (z, z)). destruct (z_is_worker z); cbn [negb andb].
  { st_lift_step Hcheck. by rewrite Hsocket. }
  unfold NonWorkerSendMsg. st_step (eq_refl : st_gets id z = Ok (z, z)). st_lift_step Hcheck. rewrite Hsocket.
  destruct (through_receiver m); [|done]. intros Hr.
  destruct (send_identity_ok (mt_recver (ms_meta m)) z Hout) as (rs1 & H1 & Hrs1). st_step H1. set (z1 := z_after z rs1 _) in *.
  destruct (send_identity_ok (n_id (z_my_node z)) z1 Hrs1) as (rs2 & H2 & Hrs2). st_step H2. set (z2 := z_after z1 rs2 _) in *.
  destruct (ZmqSendMsg_ok junk (z_receiver z) m z2 Hrs2 Hwf Hlt) as (rs3 & mem & H3 & _ & Hmem & Hun).
  eexists _, ((true, identity (mt_recver (ms_meta m))) :: (true, identity (n_id (z_my_node z))) :: message_frames mem (ms_data m)), _.
  split; [exact H3|]. split; [|split].
  - unfold z2, z1. cbn. by rewrite <- !app_assoc.
  - unfold carried. rewrite Hroutes by (by eapply elem_of_dom_2). cbn [mbind option_bind]. by rewrite Hr.
  - by apply message_received.
Qed.
End network.

(** A server that answers a worker, and a worker that asks a server. *)
Definition example_zmq (role : Role) (id peer : Z) : ZMQVan :=
  mkZmq {[ peer := 31 ]} 30 (bool_decide (role = WORKER)) (mkNode role id 0 [49] 8000 false) [] 40 ∅ [] [] [] []
    [SendInterrupted; Sent; SendInterrupted].
Definition example_router_send (ids : gset (list Z)) (fs : list frame) : option (list Z * list frame) :=
  match fs with
  | (true, ident) :: gs => if decide (ident ∈ ids) then Some (ident, gs) else None
  | _ => None
  end.
Definition example_router_receive (ident : list Z) (fs : list frame) : list frame := (true, ident) :: fs.

Lemma example_router_routes : router_routes example_router_send.
Proof. intros ids ident fs H. cbn. by rewrite decide_True. Qed.

Definition example_message (recver : Z) : Message :=
  mkMessage (mkMeta 5 0 3 17 kEmpty recver true false false [] [UINT64; FLOAT] (mkControl EMPTY [] 0 0) 12 77 0 (-1) 0)
    [[1; 2; 3; 4; 5; 6; 7; 8]; [9; 10; 11; 12]].

(** Workers 9 and 11 are connected to server 8, which answers worker 9; worker 9
    asks server 8. *)
Definition example_at_router : gmap (list Z) ZMQVan :=
  {[ identity 9 := example_zmq WORKER 9 8; identity 11 := example_zmq WORKER 11 8 ]}.
Definition example_at_socket : gmap Z ZMQVan := {[ 31 := example_zmq SERVER 8 9 ]}.

Lemma zmq_message_arrives_witness :
  (exists z' new fs, Zmq_SendMsg 7 (example_message 9) (example_zmq SERVER 8 9) = Ok (msg_bytes (example_message 9), z') /\
     carried example_router_send example_router_receive example_at_router example_at_socket true (identity 8) 31 new =
       Some (example_zmq WORKER 9 8, fs) /\
     received_by (example_zmq WORKER 9 8) (example_message 9) 8 fs) /\
  (exists z' new fs, Zmq_SendMsg 7 (example_message 8) (example_zmq WORKER 9 8) = Ok (msg_bytes (example_message 8), z') /\
     carried example_router_send example_router_receive example_at_router example_at_socket false (identity 9) 31 new =
       Some (example_zmq SERVER 8 9, fs) /\
     received_by (example_zmq SERVER 8 9) (example_message 8) 9 fs).
Proof.
  assert (Hwf : forall r, meta_wf (ms_meta (example_message r)))
    by (intros r; unfold meta_wf, is_int, is_u64; cbn; repeat split; try lia; constructor).
  split.
  - destruct (zmq_message_arrives example_router_send example_router_receive example_at_router example_at_socket
      7 (example_zmq SERVER 8 9) (example_message 9) 31 (example_zmq WORKER 9 8)) as (z' & new & fs & H1 & _ & H2 & H3);
      [exact example_router_routes|intros ident fs; reflexivity|apply Hwf|vm_compute; reflexivity|unfold node_id; cbn; lia|vm_compute; congruence|reflexivity|
       repeat constructor; discriminate|reflexivity|].
    exists z', new, fs. split; [exact H1|]. split; [exact H2|exact H3].
  - destruct (zmq_message_arrives example_router_send example_router_receive example_at_router example_at_socket
      7 (example_zmq WORKER 9 8) (example_message 8) 31 (example_zmq SERVER 8 9)) as (z' & new & fs & H1 & _ & H2 & H3);
      [exact example_router_routes|intros ident fs; reflexivity|apply Hwf|vm_compute; reflexivity|unfold node_id; cbn; lia|vm_compute; congruence|reflexivity|
       repeat constructor; discriminate|reflexivity|].
    exists z', new, fs. split; [exact H1|]. split; [exact H2|exact H3].
Defined.

(** ** Connecting again *)

(** A worker that connects a second time to a server, as it does when the server
    has recovered, closes the socket that its receiving thread reads and starts
    no thread for the new one. *)
Theorem reconnect_without_thread dmlc_local connect_ok z node old (Hconnect : forall addr, connect_ok addr = true)
    (Hid : n_id node <> kEmpty) (Hport : n_port node <> kEmpty) (Hhost : n_hostname node <> [])
    (Hold : z_senders z !! n_id node = Some old) (Hthread : old ∈ z_threads z) (Hnew : z_next z ∉ z_threads z)
    (Hrole : n_role node <> n_role (z_my_node z)) :
  exists z', Zmq_Connect dmlc_local connect_ok node z = Ok (tt, z') /\ z_senders z' !! n_id node = Some (z_next z) /\
    old ∈ z_closed z' /\ old ∈ z_threads z' /\ z_next z ∉ z_threads z'.
Proof.
  unfold Zmq_Connect.
  st_lift_step (CHECK_true (negb (n_id node =? kEmpty)) ltac:(b2p; done)).
  st_lift_step (CHECK_true (negb (n_port node =? kEmpty)) ltac:(b2p; done)).
  st_lift_step (CHECK_true (negb (Nat.eqb (length (n_hostname node)) 0)) ltac:(destruct (n_hostname node); done)).
  st_step (eq_refl : st_gets id z = Ok (z, z)). rewrite Hold.
  rewrite (bool_decide_eq_false_2 (n_role node = n_role (z_my_node z))) by done. cbn [andb].
  rewrite (bool_decide_eq_false_2 (Some old = None)) by done. rewrite andb_false_r.
  match goal with |- context [CHECK (connect_ok ?a)] => rewrite (CHECK_true (connect_ok a) (Hconnect a)) end.
  destruct (n_id (z_my_node z) =? kEmpty); eexists; (split; [reflexivity|]); cbn; rewrite lookup_insert_eq; (split; [done|]);
    (split; [|done]); apply elem_of_app; right; by left.
Qed.

Lemma reconnect_without_thread_witness :
  exists z', Zmq_Connect false (fun _ => true) (mkNode SERVER 8 0 [49] 8001 false)
      (z_add_thread (example_zmq WORKER 9 8) 31) = Ok (tt, z') /\ z_senders z' !! 8 = Some 40 /\
    31 ∈ z_closed z' /\ 31 ∈ z_threads z' /\ 40 ∉ z_threads z'.
Proof.
  apply (reconnect_without_thread false (fun _ => true) (z_add_thread (example_zmq WORKER 9 8) 31) (mkNode SERVER 8 0 [49] 8001 false) 31);
    try discriminate; try reflexivity.
  - left.
  - cbn. intros H. apply elem_of_cons in H as [H|H]; [discriminate|by apply elem_of_nil in H].
Defined.
