(* ===== verification/ParallelSort.v ===== *)
(** Parallel sort: src/include/ps/internal/parallel_sort.h.

    The thread sorts the first half while the caller sorts the second; the two
    halves are disjoint and the merge waits for the thread, so that the result
    does not depend on their interleaving. [std_sort] is [std::sort], any
    function with its contract. Fuel: every call halves the length. *)

From S2P Require Import Prelude.

Section sort.
Context {A : Type} (cmp : A -> A -> bool) (std_sort : list A -> list A).

(** [std::inplace_merge], which is stable. *)
Fixpoint inplace_merge (l1 : list A) : list A -> list A :=
  fix merge2 (l2 : list A) : list A :=
    match l1, l2 with
    | [], _ => l2
    | _, [] => l1
    | x :: l1', y :: l2' => if cmp y x then y :: merge2 l2' else x :: inplace_merge l1' l2
    end.

Fixpoint ParallelSort_range (fuel : nat) (grainsize : Z) (data : list A) : outcome (list A) :=
  let len := length data in
  if Z.of_nat len <=? grainsize then Ok (std_sort data)
  else
    match fuel with
    | O => OutOfFuel
    | S fuel' =>
        first ← ParallelSort_range fuel' grainsize (take (len / 2) data);
        second ← ParallelSort_range fuel' grainsize (drop (len / 2) data);
        Ok (inplace_merge first second)
    end.

Definition ParallelSort (arr : list A) (num_threads : Z) : outcome (list A) :=
  CHECK (0 <? num_threads);;
  let grainsize := Z.max (Z.of_nat (length arr) `div` num_threads + 5) (1024 * 16) in
  ParallelSort_range (length arr) grainsize arr.

(** ** The merge *)

Lemma inplace_merge_cons x l1 y l2 : inplace_merge (x :: l1) (y :: l2) =
  if cmp y x then y :: inplace_merge (x :: l1) l2 else x :: inplace_merge l1 (y :: l2).
Proof. done. Qed.

Lemma inplace_merge_nil_r l : inplace_merge l [] = l.
Proof. by destruct l. Qed.

Lemma inplace_merge_perm l1 : forall l2, inplace_merge l1 l2 ≡ₚ l1 ++ l2.
Proof.
  induction l1 as [|x l1 IH1]; intros l2; [by destruct l2|].
  induction l2 as [|y l2 IH2]; [by rewrite inplace_merge_nil_r, app_nil_r|]. rewrite inplace_merge_cons.
  destruct (cmp y x); [rewrite IH2|rewrite IH1; done]. by rewrite (Permutation_middle (x :: l1)).
Qed.

Context (Htrans : forall x y z, cmp y x = false -> cmp z y = false -> cmp z x = false).
Context (Hasym : forall x y, cmp x y = true -> cmp y x = false).

Lemma inplace_merge_ordered l1 : forall l2, ordered cmp l1 -> ordered cmp l2 -> ordered cmp (inplace_merge l1 l2).
Proof using Htrans Hasym.
  induction l1 as [|x l1 IH1]; intros l2 H1 H2; [by destruct l2|].
  induction l2 as [|y l2 IH2]; [by rewrite inplace_merge_nil_r|]. rewrite inplace_merge_cons.
  inversion H1 as [|? ? H1' Hx]; subst. inversion H2 as [|? ? H2' Hy]; subst. destruct (cmp y x) eqn:E; constructor.
  - by apply IH2.
  - rewrite inplace_merge_perm. apply Forall_app. split; [|done]. constructor; [by apply Hasym|].
    eapply Forall_impl; [exact Hx|]. intros z Hz. apply (Htrans _ x); [by apply Hasym|done].
  - by apply IH1.
  - rewrite inplace_merge_perm. apply Forall_app. split; [done|]. constructor; [done|].
    eapply Forall_impl; [exact Hy|]. intros z Hz. by apply (Htrans _ y).
Qed.

(** ** The sort *)

Context (Hperm : forall l, std_sort l ≡ₚ l) (Hord : forall l, ordered cmp (std_sort l)).

Lemma ParallelSort_range_sorts fuel : forall grainsize data, 1 <= grainsize -> (length data <= fuel)%nat ->
  exists l, ParallelSort_range fuel grainsize data = Ok l /\ l ≡ₚ data /\ ordered cmp l.
Proof using All.
  induction fuel as [|fuel IH]; intros g data Hg Hlen; cbn [ParallelSort_range]; (case_if E; b2p; [by eauto|]); [lia|].
  assert (Hhalf : (0 < length data / 2 < length data)%nat)
    by (split; [apply Nat.div_str_pos; lia|apply Nat.div_lt; lia]).
  destruct (IH g (take (length data / 2) data) Hg) as (l1 & Hr1 & Hp1 & Ho1); [rewrite length_take; lia|].
  destruct (IH g (drop (length data / 2) data) Hg) as (l2 & Hr2 & Hp2 & Ho2); [rewrite length_drop; lia|].
  rewrite Hr1. cbn [mbind outcome_bind]. rewrite Hr2. eexists. split; [reflexivity|]. split.
  - by rewrite inplace_merge_perm, Hp1, Hp2, take_drop.
  - by apply inplace_merge_ordered.
Qed.
End sort.

(** C38: [ParallelSort] sorts. For a strict weak order [cmp] and any [std::sort]
    that meets its contract, it ends with the same elements, in an order in
    which no later element comes before an earlier one, whatever the length of
    the array and the number of threads; without threads it fails. *)
Theorem ParallelSort_sorts {A} (cmp : A -> A -> bool) std_sort arr num_threads
    (Htrans : forall x y z, cmp y x = false -> cmp z y = false -> cmp z x = false)
    (Hasym : forall x y, cmp x y = true -> cmp y x = false)
    (Hperm : forall l, std_sort l ≡ₚ l) (Hord : forall l, ordered cmp (std_sort l)) :
  (num_threads <= 0 -> ParallelSort cmp std_sort arr num_threads = Fatal) /\
  (0 < num_threads -> exists l, ParallelSort cmp std_sort arr num_threads = Ok l /\ l ≡ₚ arr /\ ordered cmp l).
Proof.
  unfold ParallelSort. split; intros Hn; [by rewrite (proj2 (Z.ltb_ge _ _))|].
  rewrite CHECK_true by (b2p; lia). cbn [mbind outcome_bind]. apply ParallelSort_range_sorts; [done..|lia|done].
Qed.

(** Two halves, sorted and merged. *)
Example ParallelSort_halves :
  ParallelSort_range Z.ltb (sort_by Z.ltb) 5 2 [5; 3; 9; 1; 4] = Ok [1; 3; 4; 5; 9].
Proof. reflexivity. Qed.

Lemma ParallelSort_sorts_witness :
  exists l, ParallelSort Z.ltb (sort_by Z.ltb) [3; 1; 2] 4 = Ok l /\ l ≡ₚ [3; 1; 2] /\ ordered Z.ltb l.
Proof.
  apply (ParallelSort_sorts Z.ltb (sort_by Z.ltb) [3; 1; 2] 4).
  - intros x y z H1 H2. b2p. lia.
  - intros x y H. b2p. lia.
  - apply sort_by_perm.
  - apply sort_by_ordered; intros; b2p; lia.
  - lia.
Defined.
