(* ===== verification/ParallelMatch.v ===== *)
(** Matching of key-value pairs by several threads: the thread function
    [ParallelOrderedMatch] of src/include/ps/internal/parallel_kv_match.h.

    A call halves its destination range, and a new thread takes the first half,
    until a range is short enough for the loop. The threads read the source and
    write the destination; a state is the tree of the calls that have not
    returned, with the destination values, and every thread may take the next
    step. Pointers are indices. The name [AssignOp] is not that of a function in
    the source, so that the assignment is an argument; the length [k] of a value
    is a [nat]. *)

From S2P Require Import Prelude SArray.

(** [b2p] for comparisons of [nat]. *)
Ltac n2p := b2p; repeat match goal with
  | H : (_ =? _)%nat = true |- _ => apply Nat.eqb_eq in H
  | H : (_ =? _)%nat = false |- _ => apply Nat.eqb_neq in H
  | H : (_ <? _)%nat = true |- _ => apply Nat.ltb_lt in H
  | H : (_ <? _)%nat = false |- _ => apply Nat.ltb_ge in H
  | H : (_ <=? _)%nat = true |- _ => apply Nat.leb_le in H
  | H : (_ <=? _)%nat = false |- _ => apply Nat.leb_gt in H
  end.

Section match_.
Context {V : Type} (assign : V -> V -> V).
Context (src_key : list Z) (src_val : list V) (dst_key : list Z) (k grainsize : nat).

(** A call that begins, at the head of the loop, at the [i]-th element of a pair
    that matches, waiting for the thread it started, or at its end. [n] is the
    counter that the call adds to. *)
Inductive Task :=
| Call (sk sv dk dv dst_end : nat) (n : Z)
| Loop (sk sv dk dv dst_end : nat) (n : Z)
| Assign (i sk sv dk dv dst_end : nat) (n : Z)
| Join (thr caller : Task)
| Returned (n : Z).

(** The step of a thread that waits for no other. *)
Definition own_step (t : Task) (dst_val : list V) : outcome (Task * list V) :=
  match t with
  | Call sk sv dk dv dst_end n =>
      let dst_len := (dst_end - dk)%nat in
      if (dst_len =? 0)%nat || (length src_key - sk =? 0)%nat then Ok (Returned n, dst_val)
      else
        key ← deref (dst_key !! dk);
        let sk' := (sk + lower_bound (drop sk src_key) key)%nat in
        let sv' := (sv + (sk' - sk) * k)%nat in
        if (dst_len <=? grainsize)%nat then Ok (Loop sk' sv' dk dv dst_end n, dst_val)
        else
          let half := (dst_len / 2)%nat in
          Ok (Join (Call sk' sv' dk dv (dk + half) n) (Call sk' sv' (dk + half) (dv + half * k) dst_end 0), dst_val)
  | Loop sk sv dk dv dst_end n =>
      if (dk =? dst_end)%nat || (sk =? length src_key)%nat then Ok (Returned n, dst_val)
      else
        src ← deref (src_key !! sk);
        dst ← deref (dst_key !! dk);
        if src <? dst then Ok (Loop (S sk) (sv + k) dk dv dst_end n, dst_val)
        else if negb (dst <? src) then Ok (Assign 0 sk sv dk dv dst_end n, dst_val)
        else Ok (Loop sk sv (S dk) (dv + k) dst_end n, dst_val)
  | Assign i sk sv dk dv dst_end n =>
      if (i <? k)%nat then
        left ← deref (dst_val !! (dv + i)%nat);
        right ← deref (src_val !! (sv + i)%nat);
        Ok (Assign (S i) sk sv dk dv dst_end n, <[(dv + i)%nat := assign left right]> dst_val)
      else Ok (Loop (S sk) (sv + k) (S dk) (dv + k) dst_end (u64 (n + Z.of_nat k)), dst_val)
  | Join (Returned n) (Returned m) => Ok (Returned (u64 (n + m)), dst_val)
  | Join _ _ | Returned _ => Undef
  end.

Definition in_tree (f : Task -> Task) (r : outcome (Task * list V)) : outcome (Task * list V) :=
  '(t, dst_val) ← r; Ok (f t, dst_val).

(** The results of every step that some thread can take. *)
Fixpoint next (t : Task) (dst_val : list V) : list (outcome (Task * list V)) :=
  match t with
  | Returned _ => []
  | Join (Returned n) (Returned m) => [own_step t dst_val]
  | Join a b => map (in_tree (fun a' => Join a' b)) (next a dst_val) ++ map (in_tree (Join a)) (next b dst_val)
  | _ => [own_step t dst_val]
  end.

Definition steps_to (s s' : Task * list V) : Prop := Ok s' ∈ next (fst s) (snd s).

(** ** What the matching means *)

(** Position of a key in the source. *)
Definition source_of (key : Z) : option nat := fst <$> list_find (.= key) src_key.

(** Every value of a key that the source has is assigned the source's value; the
    others stay. *)
Definition matched_vals (dst_val : list V) : list V :=
  imap (fun p old =>
    match key ← dst_key !! (p / k)%nat; s ← source_of key; src_val !! (s * k + p mod k)%nat with
    | Some v => assign old v
    | None => old
    end) dst_val.

(** Matches among the first [d] destination keys. *)
Definition matches (d : nat) : Z := Z.of_nat (length (filter (fun key => key ∈ src_key) (take d dst_key))).

Lemma source_of_Some key s : sorted src_key -> src_key !! s = Some key -> source_of key = Some s.
Proof.
  intros Hs Hk. unfold source_of. rewrite (proj2 (list_find_Some _ _ s key)); [done|]. split; [done|]. split; [done|].
  intros j y Hj Hlt ->. specialize (Hs j s _ _ Hlt Hj Hk). lia.
Qed.

Lemma source_of_None key : key ∉ src_key -> source_of key = None.
Proof.
  intros Hn. unfold source_of. destruct (list_find (.= key) src_key) as [[j y]|] eqn:E; [|done].
  apply list_find_Some in E as (Hj & -> & _). by apply list_elem_of_lookup_2 in Hj.
Qed.

Lemma matches_S d key : dst_key !! d = Some key -> matches (S d) = matches d + (if decide (key ∈ src_key) then 1 else 0).
Proof.
  intros Hd. unfold matches. rewrite (take_S_r _ _ _ Hd), filter_app, length_app, filter_cons, filter_nil.
  case_decide; cbn [length]; lia.
Qed.

Context (Hsrc : sorted src_key) (Hdst : sorted dst_key).
Context (Hsv : length src_val = (length src_key * k)%nat).
Context (vals0 : list V) (Hdv : length vals0 = (length dst_key * k)%nat).

Notation result := (matched_vals vals0).

Lemma result_match s d key i old v : (i < k)%nat -> src_key !! s = Some key -> dst_key !! d = Some key ->
  vals0 !! (d * k + i)%nat = Some old -> src_val !! (s * k + i)%nat = Some v -> result !! (d * k + i)%nat = Some (assign old v).
Proof using All.
  intros Hi Hs Hd Ho Hv. unfold matched_vals. rewrite list_lookup_imap, Ho. cbn. f_equal.
  rewrite Nat.div_add_l, Nat.div_small, Nat.add_0_r, Hd by lia. cbn. rewrite (source_of_Some key s) by done. cbn.
  replace ((d * k + i) mod k)%nat with i by (rewrite Nat.add_comm, Nat.Div0.mod_add, Nat.mod_small; lia). by rewrite Hv.
Qed.

Lemma result_no_match p d key : (d * k <= p < d * k + k)%nat -> dst_key !! d = Some key -> key ∉ src_key -> result !! p = vals0 !! p.
Proof using All.
  intros Hp Hd Hn. unfold matched_vals. rewrite list_lookup_imap. destruct (vals0 !! p); [|done]. cbn. f_equal.
  replace (p / k)%nat with d by (apply (Nat.div_unique _ _ _ (p - d * k)); lia). rewrite Hd. cbn. by rewrite source_of_None.
Qed.

(** ** What a call has done *)

(** The source keys before [s] are below the destination keys from [d] on. *)
Definition behind (s d : nat) : Prop :=
  (s <= length src_key)%nat /\ forall i x j y, (i < s)%nat -> (d <= j)%nat -> src_key !! i = Some x -> dst_key !! j = Some y -> x < y.

(** The cells from [p] up to [q] hold what they should in the end, or what they
    held at first. *)
Definition done_to (m : list V) (p q : nat) : Prop := forall i, (p <= i < q)%nat -> m !! i = result !! i.
Definition kept_to (m : list V) (p q : nat) : Prop := forall i, (p <= i < q)%nat -> m !! i = vals0 !! i.

(** The task works on the keys from [a] up to [b], with a counter that was [c]. *)
Fixpoint working (t : Task) (a b : nat) (c : Z) (m : list V) : Prop :=
  match t with
  | Call sk sv dk dv e n =>
      dk = a /\ e = b /\ sv = (sk * k)%nat /\ dv = (dk * k)%nat /\ n = c /\ behind sk dk /\ kept_to m (a * k) (b * k)
  | Loop sk sv dk dv e n =>
      (a <= dk <= b)%nat /\ e = b /\ sv = (sk * k)%nat /\ dv = (dk * k)%nat /\ n = u64 (c + Z.of_nat k * (matches dk - matches a)) /\
      behind sk dk /\ done_to m (a * k) (dk * k) /\ kept_to m (dk * k) (b * k)
  | Assign i sk sv dk dv e n =>
      (a <= dk < b)%nat /\ (i <= k)%nat /\ e = b /\ sv = (sk * k)%nat /\ dv = (dk * k)%nat /\ n = u64 (c + Z.of_nat k * (matches dk - matches a)) /\
      behind sk dk /\ (exists key, src_key !! sk = Some key /\ dst_key !! dk = Some key) /\
      done_to m (a * k) (dk * k + i) /\ kept_to m (dk * k + i) (b * k)
  | Join t1 t2 => exists h, (a <= h <= b)%nat /\ working t1 a h c m /\ working t2 h b 0 m
  | Returned n => n = u64 (c + Z.of_nat k * (matches b - matches a)) /\ done_to m (a * k) (b * k)
  end.

(** Steps that are left at most. *)
Definition leaf_cost : nat := (length src_key + 2) * (k + 2) + 10.
Definition loop_cost (s d : nat) : nat := (length src_key - s + d) * (k + 2).
Fixpoint cost (t : Task) : nat :=
  match t with
  | Call _ _ dk _ e _ => if (e - dk =? 0)%nat then 1 else leaf_cost * (e - dk) - 3
  | Loop sk _ dk _ e _ => loop_cost sk (e - dk) + 1
  | Assign i sk _ dk _ e _ => loop_cost sk (e - dk) - i
  | Join t1 t2 => S (cost t1 + cost t2)
  | Returned _ => 0
  end.

Lemma behind_le s d d' : behind s d -> (d <= d')%nat -> behind s d'.
Proof using All. intros [Hs Hb] Hd. split; [done|]. intros i x j y Hi Hj. apply Hb; lia. Qed.

(** Keys that the source has not. *)
Lemma no_matches d b m : (d <= b <= length dst_key)%nat ->
  (forall j key, (d <= j < b)%nat -> dst_key !! j = Some key -> key ∉ src_key) ->
  kept_to m (d * k) (b * k) -> done_to m (d * k) (b * k) /\ matches b = matches d.
Proof using All.
  intros Hb Hno Hk. split.
  - intros p Hp. rewrite (Hk p Hp). symmetry. assert (Hk0 : k <> 0%nat) by (intros ->; lia).
    pose proof (Nat.div_mod_eq p k) as Hd. pose proof (Nat.mod_upper_bound p k Hk0) as Hm.
    destruct (lookup_lt_is_Some_2 dst_key (p / k)) as [key Hkey]; [nia|].
    apply (result_no_match p (p / k) key); [lia|done|]. apply (Hno (p / k)%nat); [nia|done].
  - clear Hk. revert b Hb Hno. intros b. induction b as [|b IH]; intros Hb Hno; [by replace d with 0%nat by lia|].
    destruct (decide (d = S b)) as [->|]; [done|]. destruct (lookup_lt_is_Some_2 dst_key b) as [key Hkey]; [lia|].
    rewrite (matches_S b key) by done. rewrite decide_False by (apply (Hno b); [lia|done]). rewrite IH; [lia|lia|].
    intros j y Hj. apply Hno. lia.
Qed.

(** Nothing is left of the source. *)
Lemma exhausted d b m : (d <= b <= length dst_key)%nat -> behind (length src_key) d ->
  kept_to m (d * k) (b * k) -> done_to m (d * k) (b * k) /\ matches b = matches d.
Proof using All.
  intros Hb [_ Hbe] Hk. apply no_matches; [done| |done]. intros j key Hj Hkey [i Hi]%list_elem_of_lookup.
  specialize (Hbe i key j key ltac:(by apply lookup_lt_Some in Hi) ltac:(lia) Hi Hkey). lia.
Qed.

Lemma behind_lower_bound s d key : behind s d -> dst_key !! d = Some key ->
  behind (s + lower_bound (drop s src_key) key) d.
Proof using All.
  intros [Hs Hb] Hd. destruct (lower_bound_splits (drop s src_key) key) as [Hl Hsp].
  { intros i j x y Hij. rewrite !lookup_drop. apply Hsrc. lia. }
  rewrite length_drop in Hl. split; [lia|]. intros i x j y Hi Hj Hx Hy.
  destruct (decide (i < s)%nat) as [Hlt|Hge]; [by apply (Hb i x j y)|].
  assert (x < key). { apply (Hsp (i - s)%nat x); [|lia]. rewrite lookup_drop. by replace (s + (i - s))%nat with i by lia. }
  destruct (decide (j = d)) as [->|]; [by replace y with key by congruence|].
  specialize (Hdst d j key y ltac:(lia) Hd Hy). lia.
Qed.

Lemma u64_sum x y : u64 (u64 x + u64 y) = u64 (x + y).
Proof using All. unfold u64. symmetry. apply Zplus_mod. Qed.

Lemma u64_sum_l x y : u64 (u64 x + y) = u64 (x + y).
Proof using All. unfold u64. apply Zplus_mod_idemp_l. Qed.

Lemma leaf_cost_bound s d : (1 <= d)%nat -> (loop_cost s d + 1 < leaf_cost * d - 3)%nat.
Proof using All.
  intros Hd. unfold loop_cost, leaf_cost. assert ((length src_key - s + d) * (k + 2) <= (length src_key + 2) * d * (k + 2))%nat.
  { apply Nat.mul_le_mono_r. nia. }
  replace (((length src_key + 2) * (k + 2) + 10) * d)%nat with ((length src_key + 2) * d * (k + 2) + 10 * d)%nat by lia. lia.
Qed.

Lemma loop_cost_key s d : (s < length src_key)%nat -> (loop_cost s d = k + 2 + loop_cost (S s) d)%nat.
Proof using All. intros Hs. unfold loop_cost. replace (length src_key - s)%nat with (S (length src_key - S s)) by lia. lia. Qed.

Lemma loop_cost_dst s d e : (d < e)%nat -> (loop_cost s (e - d) = k + 2 + loop_cost s (e - S d))%nat.
Proof using All. intros Hs. unfold loop_cost. replace (e - d)%nat with (S (e - S d)) by lia. lia. Qed.

(** ** Every step is defined, stays within the call's range and comes nearer to the end *)

Definition step_ok (t : Task) (a b : nat) (c : Z) (m : list V) (r : outcome (Task * list V)) : Prop :=
  exists t' m', r = Ok (t', m') /\ working t' a b c m' /\ length m' = length m /\
    (forall p, ~ (a * k <= p < b * k)%nat -> m' !! p = m !! p) /\ (cost t' < cost t)%nat.

Lemma step_ok_same t a b c m t' : working t' a b c m -> (cost t' < cost t)%nat -> step_ok t a b c m (Ok (t', m)).
Proof using All. intros Hw Hc. by exists t', m. Qed.

Lemma Call_ok sk sv dk dv e n a b c m : (0 < grainsize)%nat -> (a <= b <= length dst_key)%nat -> u64 c = c ->
  working (Call sk sv dk dv e n) a b c m -> step_ok (Call sk sv dk dv e n) a b c m (own_step (Call sk sv dk dv e n) m).
Proof using All.
  intros Hg Hb Hc (-> & -> & -> & -> & -> & Hbe & Hk). pose proof Hbe as [Hs _]. unfold own_step.
  case_if E; n2p.
  - assert (Hdone : done_to m (a * k) (b * k) /\ matches b = matches a).
    { destruct E as [E|E]; n2p; [replace b with a by lia; split; [intros i Hi; lia|done]|].
      apply exhausted; [done| |done]. by replace (length src_key) with sk by lia. }
    destruct Hdone as [Hd Hm]. apply step_ok_same.
    + split; [rewrite Hm, Z.sub_diag, Z.mul_0_r, Z.add_0_r; done|done].
    + cbn [cost]. case_match; n2p; [lia|]. pose proof (leaf_cost_bound sk (b - a) ltac:(lia)). lia.
  - destruct (lookup_lt_is_Some_2 dst_key a ltac:(lia)) as [key Hkey]. rewrite Hkey. cbn [deref mbind outcome_bind].
    pose proof (behind_lower_bound sk a key Hbe Hkey) as Hbe'. set (sk' := (sk + lower_bound _ key)%nat) in *.
    assert (Hcost : cost (Call sk (sk * k) a (a * k) b c) = (leaf_cost * (b - a) - 3)%nat) by (cbn [cost]; case_match; n2p; [lia|done]).
    assert (Hsk : (sk * k + (sk' - sk) * k = sk' * k)%nat) by (unfold sk'; rewrite Nat.mul_add_distr_r; do 2 f_equal; lia). case_if E3; n2p.
    + apply step_ok_same; [|rewrite Hcost; cbn [cost]; apply leaf_cost_bound; lia].
      split; [lia|]. split; [done|]. split; [done|]. split; [done|]. split; [by rewrite Z.sub_diag, Z.mul_0_r, Z.add_0_r|]. split; [done|].
      split; [intros i Hi; lia|done].
    + set (half := ((b - a) / 2)%nat). assert (Hh : (1 <= half < b - a)%nat).
      { split; [apply Nat.div_le_lower_bound; lia|apply Nat.div_lt; lia]. }
      apply step_ok_same.
      * exists (a + half)%nat. split; [lia|]. split; repeat split; try done; try lia; try apply Hbe'; try (intros i Hi; apply Hk; nia).
        apply (behind_le _ a); [done|lia].
      * rewrite Hcost. cbn [cost]. unfold leaf_cost in *. set (L := ((length src_key + 2) * (k + 2) + 10)%nat).
        destruct (Nat.eqb_spec (a + half - a) 0) as [|_]; [lia|]. destruct (Nat.eqb_spec (b - (a + half)) 0) as [|_]; [lia|].
        replace (a + half - a)%nat with half by lia. assert (10 <= L)%nat by (unfold L; lia).
        replace (L * (b - a))%nat with (L * half + L * (b - (a + half)))%nat by nia.
        assert (10 <= L * half /\ 10 <= L * (b - (a + half)))%nat by nia. lia.
Qed.
Lemma kept_at m p q i : kept_to m p q -> (p <= i < q)%nat -> (q <= length vals0)%nat -> exists x, m !! i = Some x /\ vals0 !! i = Some x.
Proof using All.
  intros Hk Hi Hq. destruct (lookup_lt_is_Some_2 vals0 i ltac:(lia)) as [x Hx]. exists x. split; [|done]. by rewrite (Hk i Hi).
Qed.

Lemma done_to_app m p q q' : done_to m p q -> done_to m q q' -> done_to m p q'.
Proof using All. intros H1 H2 i Hi. destruct (decide (i < q)%nat); [apply H1|apply H2]; lia. Qed.

(** A pair of keys that do not match: the smaller one is skipped. *)
Lemma behind_skip_src s d x y : behind s d -> src_key !! s = Some x -> dst_key !! d = Some y -> x < y -> behind (S s) d.
Proof using All.
  intros [Hs Hb] Hx Hy Hlt. split; [by apply lookup_lt_Some in Hx|]. intros i x' j y' Hi Hj Hx' Hy'.
  destruct (decide (i = s)) as [->|]; [|apply (Hb i x' j y'); [lia|done..]].
  destruct (decide (j = d)) as [->|]; [congruence|]. specialize (Hdst d j y y' ltac:(lia) Hy Hy'). replace x' with x by congruence. lia.
Qed.

Lemma not_in_src s d x y : behind s d -> src_key !! s = Some x -> dst_key !! d = Some y -> y < x -> y ∉ src_key.
Proof using All.
  intros [_ Hb] Hx Hy Hlt [i Hi]%list_elem_of_lookup. destruct (decide (i < s)%nat) as [His|His].
  - specialize (Hb i y d y His ltac:(lia) Hi Hy). lia.
  - destruct (decide (i = s)) as [->|]; [replace x with y in Hlt by congruence; lia|].
    specialize (Hsrc s i x y ltac:(lia) Hx Hi). lia.
Qed.

Lemma Loop_ok sk sv dk dv e n a b c m : (a <= b <= length dst_key)%nat ->
  working (Loop sk sv dk dv e n) a b c m -> step_ok (Loop sk sv dk dv e n) a b c m (own_step (Loop sk sv dk dv e n) m).
Proof using All.
  intros Hb (Hd & -> & -> & -> & -> & Hbe & Hdone & Hk). pose proof Hbe as [Hs _]. unfold own_step.
  case_if E; n2p.
  - assert (H : done_to m (dk * k) (b * k) /\ matches b = matches dk).
    { destruct E as [E|E]; n2p; [subst; split; [intros i Hi; lia|done]|]. apply exhausted; [lia| |done]. by rewrite <- E. }
    destruct H as [H1 H2]. apply step_ok_same; [|cbn [cost]; lia]. split; [by rewrite H2|]. by eapply done_to_app.
  - destruct (lookup_lt_is_Some_2 src_key sk ltac:(lia)) as [x Hx]. destruct (lookup_lt_is_Some_2 dst_key dk ltac:(lia)) as [y Hy].
    rewrite Hx, Hy. cbn [deref mbind outcome_bind]. pose proof (loop_cost_key sk (b - dk) ltac:(lia)). pose proof (loop_cost_dst sk dk b ltac:(lia)).
    case_if E1; [|case_if E2]; n2p; (apply step_ok_same; [|cbn [cost]; lia]).
    + split; [lia|]. split; [done|]. split; [lia|]. split; [done|]. split; [done|]. split; [by eapply behind_skip_src|done].
    + split; [lia|]. split; [lia|]. split; [done|]. split; [done|]. split; [done|]. split; [done|]. split; [done|].
      replace y with x in * by lia. split; [by exists x|]. rewrite Nat.add_0_r. by split.
    + destruct (no_matches dk (S dk) m) as [Hd1 Hm1]; [lia| |intros i Hi; apply Hk; nia|].
      { intros j key Hj Hkey. replace j with dk in Hkey by lia. replace key with y by congruence. by eapply not_in_src. }
      split; [lia|]. split; [done|]. split; [done|]. split; [lia|]. split; [by rewrite Hm1|]. split; [apply (behind_le _ dk); [done|lia]|].
      split; [by eapply done_to_app|]. intros i Hi. apply Hk. lia.
Qed.

Lemma Assign_ok i sk sv dk dv e n a b c m : (a <= b <= length dst_key)%nat ->
  working (Assign i sk sv dk dv e n) a b c m -> step_ok (Assign i sk sv dk dv e n) a b c m (own_step (Assign i sk sv dk dv e n) m).
Proof using All.
  intros Hb (Hd & Hi & -> & -> & -> & -> & Hbe & (key & Hx & Hy) & Hdone & Hk). unfold own_step.
  pose proof (lookup_lt_Some _ _ _ Hx) as Hsl. pose proof (lookup_lt_Some _ _ _ Hy) as Hdl.
  pose proof (loop_cost_key sk (b - dk) Hsl). pose proof (loop_cost_dst (S sk) dk b ltac:(lia)).
  assert (Hin : (dk * k + k <= b * k)%nat) by nia. assert (Hbl : (b * k <= length vals0)%nat) by (rewrite Hdv; nia). case_if E; n2p.
  - destruct (kept_at m (dk * k + i) (b * k) (dk * k + i)%nat Hk) as (old & Hm & Ho); [lia..|].
    destruct (lookup_lt_is_Some_2 src_val (sk * k + i)%nat) as [v Hv]; [rewrite Hsv; nia|]. rewrite Hm, Hv. cbn [deref mbind outcome_bind].
    eexists _, _. split; [reflexivity|]. split; [|split; [by rewrite length_insert|split; [|cbn [cost]; lia]]].
    + split; [lia|]. split; [lia|]. split; [done|]. split; [done|]. split; [done|]. split; [done|]. split; [done|]. split; [by exists key|]. split.
      * intros p Hp. destruct (decide (p = dk * k + i)%nat) as [->|].
        -- rewrite list_lookup_insert_eq by (by apply lookup_lt_Some in Hm). symmetry. by eapply result_match.
        -- rewrite list_lookup_insert_ne by lia. apply Hdone. lia.
      * intros p Hp. rewrite list_lookup_insert_ne by lia. apply Hk. lia.
    + intros p Hp. apply list_lookup_insert_ne. nia.
  - replace i with k in * by lia. apply step_ok_same; [|cbn [cost]; lia].
    split; [lia|]. split; [done|]. split; [lia|]. split; [lia|]. split.
    { rewrite (matches_S dk key) by done. rewrite decide_True by (by apply list_elem_of_lookup_2 in Hx). rewrite u64_sum_l. f_equal. lia. }
    split.
    { destruct Hbe as [_ Hbe]. split; [lia|]. intros j x j' y Hj Hj' Hjx Hjy. destruct (decide (j = sk)) as [->|].
      - replace x with key by congruence. apply (Hdst dk j' key y); [lia|done..].
      - apply (Hbe j x j' y); [lia..|done|done]. }
    split; [by replace (S dk * k)%nat with (dk * k + k)%nat by lia|by replace (S dk * k)%nat with (dk * k + k)%nat by lia].
Qed.
(** What other threads write elsewhere does not matter to a call. *)
Lemma working_same t : forall a b c m m', (forall p, (a * k <= p < b * k)%nat -> m' !! p = m !! p) -> (a <= b)%nat ->
  working t a b c m -> working t a b c m'.
Proof using All.
  induction t as [sk sv dk dv e n|sk sv dk dv e n|i sk sv dk dv e n|t1 IH1 t2 IH2|n]; intros a b c m m' Hm Hab; cbn [working].
  - intros (? & ? & ? & ? & ? & ? & Hk). repeat (split; [done|]). intros p Hp. rewrite Hm by lia. by apply Hk.
  - intros (? & ? & ? & ? & ? & ? & Hd & Hk). do 6 (split; [done|]). split; intros p Hp; (rewrite Hm by nia; [by apply Hd || apply Hk]).
  - intros (? & ? & ? & ? & ? & ? & ? & ? & Hd & Hk). do 8 (split; [done|]). split; intros p Hp; (rewrite Hm by nia; [by apply Hd || apply Hk]).
  - intros (h & Hh & H1 & H2). exists h. split; [done|]. split; [apply (IH1 a h c m)|apply (IH2 h b 0 m)]; try done; try lia; intros p Hp; apply Hm; nia.
  - intros [? Hd]. split; [done|]. intros p Hp. rewrite Hm by done. by apply Hd.
Qed.

Lemma next_Join_eq t1 t2 m : (exists n1 n2, t1 = Returned n1 /\ t2 = Returned n2) \/
  next (Join t1 t2) m = map (in_tree (fun a' => Join a' t2)) (next t1 m) ++ map (in_tree (Join t1)) (next t2 m).
Proof using All. destruct t1, t2; (by right) || (left; by eauto). Qed.

Lemma next_Join t1 t2 m r : r ∈ next (Join t1 t2) m ->
  (exists n1 n2, t1 = Returned n1 /\ t2 = Returned n2 /\ r = Ok (Returned (u64 (n1 + n2)), m)) \/
  (exists r1, r1 ∈ next t1 m /\ r = in_tree (fun t => Join t t2) r1) \/
  (exists r2, r2 ∈ next t2 m /\ r = in_tree (Join t1) r2).
Proof using All.
  intros Hr. destruct (next_Join_eq t1 t2 m) as [(n1 & n2 & -> & ->)|H].
  - left. exists n1, n2. cbn [next own_step] in Hr. by apply list_elem_of_singleton in Hr as ->.
  - rewrite H in Hr. right. apply elem_of_app in Hr as [Hr|Hr]; [left|right]; apply list_elem_of_In, in_map_iff in Hr as (x & <- & Hx);
      exists x; (split; [by apply list_elem_of_In|done]).
Qed.

Lemma next_ok t : (0 < grainsize)%nat -> forall a b c m r, (a <= b <= length dst_key)%nat -> u64 c = c ->
  working t a b c m -> r ∈ next t m -> step_ok t a b c m r.
Proof using All.
  intros Hg. induction t as [sk sv dk dv e n|sk sv dk dv e n|i sk sv dk dv e n|t1 IH1 t2 IH2|n]; intros a b c m r Hb Hc Hw Hr.
  - apply list_elem_of_singleton in Hr as ->. by apply Call_ok.
  - apply list_elem_of_singleton in Hr as ->. by apply Loop_ok.
  - apply list_elem_of_singleton in Hr as ->. by apply Assign_ok.
  - destruct Hw as (h & Hh & H1 & H2). apply next_Join in Hr as [(n1 & n2 & -> & -> & ->)|[(r1 & Hr & ->)|(r2 & Hr & ->)]].
    + destruct H1 as [-> Hd1], H2 as [-> Hd2]. apply step_ok_same; [|cbn; lia]. split; [rewrite u64_sum; f_equal; lia|by eapply done_to_app].
    + destruct (IH1 a h c m r1) as (t' & m' & -> & Hw & Hl & Hm & Hlt); [lia|done..|]. exists (Join t' t2), m'. split; [done|].
      split; [|split; [done|split; [intros p Hp; apply Hm; nia|cbn; lia]]]. exists h. split; [done|]. split; [done|].
      apply (working_same _ _ _ _ m); [intros p Hp; apply Hm; lia|lia|done].
    + destruct (IH2 h b 0 m r2) as (t' & m' & -> & Hw & Hl & Hm & Hlt); [lia|done..|]. exists (Join t1 t'), m'. split; [done|].
      split; [|split; [done|split; [intros p Hp; apply Hm; nia|cbn; lia]]]. exists h. split; [done|]. split; [|done].
      apply (working_same _ _ _ _ m); [intros p Hp; apply Hm; lia|lia|done].
  - by apply not_elem_of_nil in Hr.
Qed.

(** A tree in which no thread can take a step is a call that has returned. *)
Lemma next_nil t m : next t m = [] -> exists n, t = Returned n.
Proof using All.
  induction t as [| | |t1 IH1 t2 IH2|n]; [done..| |by eauto]. intros H.
  destruct (next_Join_eq t1 t2 m) as [(n1 & n2 & -> & ->)|Heq]; [done|]. rewrite Heq in H.
  apply app_eq_nil in H as [H1%map_eq_nil H2%map_eq_nil]. destruct (IH1 H1) as [n1 ->], (IH2 H2) as [n2 ->]. done.
Qed.

(** Every state that the threads reach. *)
Definition well_run (s : Task * list V) : Prop :=
  working (fst s) 0 (length dst_key) 0 (snd s) /\ length (snd s) = length vals0.

Lemma well_run_step s s' : (0 < grainsize)%nat -> well_run s -> steps_to s s' -> well_run s' /\ (cost (fst s') < cost (fst s))%nat.
Proof using All.
  intros Hg [Hw Hl] Hs. destruct s as [t m], s' as [t' m']. cbn [fst snd] in *.
  destruct (next_ok t Hg 0 (length dst_key) 0 m (Ok (t', m'))) as (t1 & m1 & [= <- <-] & Hw' & Hl' & _ & Hc); [lia|done..|].
  split; [split; [done|]|done]. cbn [snd]. congruence.
Qed.

Lemma well_run_sn s : (0 < grainsize)%nat -> well_run s -> sn steps_to s.
Proof using All.
  intros Hg. remember (cost (fst s)) as w eqn:Hw. revert s Hw. induction w as [w IH] using lt_wf_ind. intros s -> Hr. constructor.
  intros s' Hs. destruct (well_run_step s s' Hg Hr Hs) as [Hr' Hc]. by eapply IH.
Qed.

Lemma well_run_rtc s s' : (0 < grainsize)%nat -> well_run s -> rtc steps_to s s' -> well_run s'.
Proof using All. intros Hg Hr H. induction H as [|s1 s2 s3 Hs _ IH]; [done|]. apply IH. by eapply well_run_step. Qed.

Lemma well_run_start : well_run (Call 0 0 0 0 (length dst_key) 0, vals0).
Proof using All.
  split; [|done]. cbn. repeat split; try done; [lia|]. intros i x j y Hi. lia.
Qed.

Lemma well_run_end s : well_run s -> next (fst s) (snd s) = [] ->
  s = (Returned (u64 (Z.of_nat k * matches (length dst_key))), result).
Proof using All.
  destruct s as [t m]. intros [Hw Hl] Hn. cbn [fst snd] in *. apply next_nil in Hn as [n ->]. destruct Hw as [-> Hd]. f_equal.
  - f_equal. f_equal. replace (matches 0) with 0 by done. lia.
  - apply list_eq. intros i. destruct (decide (i < length vals0)%nat) as [Hi|Hi]; [apply Hd; lia|].
    rewrite !lookup_ge_None_2; [done| |lia]. unfold matched_vals. rewrite length_imap. lia.
Qed.

Lemma matches_bound : 0 <= Z.of_nat k * matches (length dst_key) <= Z.of_nat (length vals0).
Proof using All.
  unfold matches. pose proof (length_filter (fun key => key ∈ src_key) (take (length dst_key) dst_key)) as H.
  rewrite length_take in H. rewrite Hdv. nia.
Qed.
End match_.

(** Matching key-value pairs by threads is matching them one after the
    other. For sorted keys and any assignment, in whatever order the threads take
    their steps, every step is defined (no thread reads or writes outside the
    arrays), all threads end, and then every destination value whose key the
    source has is the assignment of the source's value to it, the others are as
    they were, and the counter is the number of matches times the length of a
    value, whatever the grain size. *)
Theorem threads_match_pairs {V} (assign : V -> V -> V) src_key src_val dst_key k grainsize vals
    (Hsrc : sorted src_key) (Hdst : sorted dst_key) (Hsv : length src_val = (length src_key * k)%nat)
    (Hdv : length vals = (length dst_key * k)%nat) (Hlen : Z.of_nat (length vals) < 2 ^ 64) (Hg : (0 < grainsize)%nat) :
  let start := (Call 0 0 0 0 (length dst_key) 0, vals) in
  let steps := steps_to assign src_key src_val dst_key k grainsize in
  sn steps start /\
  forall t m, rtc steps start (t, m) ->
    (forall r, r ∈ next assign src_key src_val dst_key k grainsize t m -> exists t' m', r = Ok (t', m')) /\
    (next assign src_key src_val dst_key k grainsize t m = [] ->
     t = Returned (Z.of_nat k * matches src_key dst_key (length dst_key)) /\ m = matched_vals assign src_key src_val dst_key k vals).
Proof.
  intros start steps. pose proof (well_run_start assign src_key src_val dst_key k grainsize Hsrc Hdst Hsv vals Hdv) as H0.
  split; [by apply (well_run_sn assign src_key src_val dst_key k grainsize Hsrc Hdst Hsv vals Hdv)|].
  intros t m Hrun. apply (well_run_rtc assign src_key src_val dst_key k grainsize Hsrc Hdst Hsv vals Hdv) in Hrun; [|done..]. split.
  - intros r Hr. destruct Hrun as [Hw _].
    destruct (next_ok assign src_key src_val dst_key k grainsize Hsrc Hdst Hsv vals Hdv t Hg 0 (length dst_key) 0 m r) as (t' & m' & -> & _); [lia|done..|].
    by exists t', m'.
  - intros Hn. apply (well_run_end assign src_key src_val dst_key k grainsize Hsrc Hdst Hsv vals Hdv) in Hrun as [= -> ->]; [|done].
    split; [|done]. f_equal. apply u64_small. pose proof (matches_bound assign src_key src_val dst_key k grainsize Hsrc Hdst Hsv vals Hdv). lia.
Qed.

Lemma sorted_nil : sorted [].
Proof. intros i j x y _ H. done. Qed.
Lemma sorted_cons x l : Forall (Z.lt x) l -> sorted l -> sorted (x :: l).
Proof.
  intros Hx Hs [|i] [|j] y z Hij Hy Hz; [lia| |lia|apply (Hs i j); [lia|done..]]. cbn in Hy, Hz. injection Hy as <-.
  by apply (Forall_lookup_1 _ _ _ _ Hx Hz).
Qed.
#[local] Hint Resolve sorted_nil sorted_cons : core.

(** Take the first ([head]) or the last ([last]) step that is offered, until none is. *)
Fixpoint run_by (pick : list (outcome (Task * list Z)) -> option (outcome (Task * list Z)))
    (fuel : nat) (src_key : list Z) (src_val : list Z) (dst_key : list Z) (k grainsize : nat) (t : Task) (m : list Z) : outcome (Task * list Z) :=
  match fuel with
  | O => OutOfFuel
  | S fuel' =>
      match pick (next Z.add src_key src_val dst_key k grainsize t m) with
      | None => Ok (t, m)
      | Some r => '(t, m) ← r; run_by pick fuel' src_key src_val dst_key k grainsize t m
      end
  end.

Example both_orders :
  let run pick := run_by pick 100 [1; 3; 5; 8] [10; 11; 30; 31; 50; 51; 80; 81] [3; 4; 8] 2 1 (Call 0 0 0 0 3 0) [1; 2; 3; 4; 5; 6] in
  run head = Ok (Returned 4, [31; 33; 3; 4; 85; 87]) /\ run last = run head.
Proof. split; reflexivity. Qed.

Lemma threads_match_pairs_witness :
  let start := (Call 0 0 0 0 3 0, [1; 2; 3; 4; 5; 6]) in
  let steps := steps_to Z.add [1; 3; 5; 8] [10; 11; 30; 31; 50; 51; 80; 81] [3; 4; 8] 2 1 in
  sn steps start /\ forall n m, rtc steps start (Returned n, m) -> n = 4 /\ m = [31; 33; 3; 4; 85; 87].
Proof.
  intros start steps. destruct (threads_match_pairs Z.add [1; 3; 5; 8] [10; 11; 30; 31; 50; 51; 80; 81] [3; 4; 8] 2 1 [1; 2; 3; 4; 5; 6]) as [Hsn Hend].
  - auto 10 with zarith.
  - auto 10 with zarith.
  - reflexivity.
  - reflexivity.
  - cbn. lia.
  - lia.
  - split; [exact Hsn|]. intros n m Hrun. destruct (Hend (Returned n) m Hrun) as [_ He]. destruct (He eq_refl) as [[= ->] ->].
    split; vm_compute; reflexivity.
Defined.
