(* ===== verification/Customer.v ===== *)
(** A customer: src/src/customer.cc. It numbers the requests of an application,
    counts the responses to each, and hands received messages to the
    application.

    [W] is the state of the application that owns the customer. A customer is
    reached through its address [ptr]. *)

From S2P Require Import Prelude State Bytes Memory PsMessage Ps Resender Postoffice Van.

(** ** State access *)

Definition set_tracker (c : Customer) (t : list (Z * Z)) : Customer :=
  mkCustomer (cu_app_id c) (cu_customer_id c) (cu_recv_queue c) t.
Definition set_recv_queue (c : Customer) (q : list Message) : Customer :=
  mkCustomer (cu_app_id c) (cu_customer_id c) q (cu_tracker c).

Definition get_customer (ptr : Z) : ps Customer :=
  m ← ps_gets ps_customers;
  ps_lift (deref (m !! ptr)).
Definition put_customer (ptr : Z) (c : Customer) : ps unit :=
  ps_modify (fun s => set_customers s (<[ptr := c]> (ps_customers s))).

(** [tracker_[timestamp]] *)
Definition tracker_at (c : Customer) (ts : Z) : outcome (Z * Z) :=
  DEFINED (0 <=? ts);;
  deref (cu_tracker c !! Z.to_nat ts).

(** ** Operations *)

Definition NewRequest (ptr recver : Z) : ps Z :=
  c ← get_customer ptr;
  ids ← GetNodeIDs recver;
  put_customer ptr (set_tracker c (cu_tracker c ++ [(Z.of_nat (length ids), 0)]));;
  mret (s32 (Z.of_nat (length (cu_tracker c)))).

(** The condition that [WaitRequest] waits for. *)
Definition WaitRequest_done (ptr ts : Z) : ps bool :=
  c ← get_customer ptr;
  t ← ps_lift (tracker_at c ts);
  mret (fst t =? snd t).

Definition NumResponse (ptr ts : Z) : ps Z :=
  c ← get_customer ptr;
  t ← ps_lift (tracker_at c ts);
  mret (snd t).

Definition AddResponse (ptr ts num : Z) : ps unit :=
  c ← get_customer ptr;
  t ← ps_lift (tracker_at c ts);
  put_customer ptr (set_tracker c (<[Z.to_nat ts := (fst t, s32 (snd t + num))]> (cu_tracker c))).

(** [Customer::Customer] and [Customer::~Customer], the thread apart. *)
Definition Customer_new (ptr app_id customer_id : Z) : ps unit :=
  let c := mkCustomer app_id customer_id [] [] in
  put_customer ptr c;;
  AddCustomer ptr c.
Definition Customer_delete (junk ptr : Z) : ps unit :=
  c ← get_customer ptr;
  RemoveCustomer c;;
  let t := ms_meta (Message_new junk) in
  Accept ptr (mkMessage (with_nodes t TERMINATE (meta_nodes t)) []).

Definition lift_ps {W A} (m : ps A) : stm (W * Ps) A := fun s =>
  match m (snd s) with
  | Ok (a, s') => Ok (a, (fst s, s'))
  | Fatal => Fatal
  | Undef => Undef
  | OutOfFuel => OutOfFuel
  end.

(** What a turn of [Receiving] did: wait on an empty queue, end, or handle a
    message. *)
Inductive turn := Waiting | Stopped | Handled.

Definition Customer_Receiving_once {W} (ptr : Z) (recv_handle : Message -> stm (W * Ps) unit) : stm (W * Ps) turn :=
  c ← lift_ps (get_customer ptr);
  match cu_recv_queue c with
  | [] => mret Waiting
  | recv :: q =>
      lift_ps (put_customer ptr (set_recv_queue c q));;
      if bool_decide (ct_cmd (mt_control (ms_meta recv)) = TERMINATE) then mret Stopped
      else
        recv_handle recv;;
        (if mt_request (ms_meta recv) then mret tt
         else lift_ps (AddResponse ptr (mt_timestamp (ms_meta recv)) 1));;
        mret Handled
  end.

(** Messages arrive and are handled one after the other. *)
Definition receive_all {W} (ptr : Z) (recv_handle : Message -> stm (W * Ps) unit) (ms : list Message) : stm (W * Ps) unit :=
  st_forM ms (fun m => lift_ps (Accept ptr m);; Customer_Receiving_once ptr recv_handle;; mret tt).

(** ** Lemmas *)

Lemma lift_ps_Ok {W A} (m : ps A) (u : W) s a s' : m s = Ok (a, s') -> lift_ps m (u, s) = Ok (a, (u, s')).
Proof. intros H. unfold lift_ps. cbn. by rewrite H. Qed.

(** The state with another customer at [ptr]. *)
Definition with_customer (s : Ps) (ptr : Z) (c : Customer) : Ps := set_customers s (<[ptr := c]> (ps_customers s)).

Lemma get_customer_ok ptr c s : ps_customers s !! ptr = Some c -> get_customer ptr s = Ok (c, s).
Proof. intros H. unfold get_customer, mbind, ps_bind, ps_gets, ps_lift. by rewrite H. Qed.

Lemma tracker_at_ok c ts t : 0 <= ts -> cu_tracker c !! Z.to_nat ts = Some t -> tracker_at c ts = Ok t.
Proof. intros Hts Ht. unfold tracker_at. rewrite DEFINED_true by (b2p; lia). cbn. by rewrite Ht. Qed.

Lemma NewRequest_ok ptr g c ids s : ps_customers s !! ptr = Some c -> po_node_ids (ps_po s) !! g = Some ids ->
  Z.of_nat (length (cu_tracker c)) < 2 ^ 31 ->
  NewRequest ptr g s = Ok (Z.of_nat (length (cu_tracker c)),
    with_customer s ptr (set_tracker c (cu_tracker c ++ [(Z.of_nat (length ids), 0)]))).
Proof.
  intros Hc Hids Hlen. unfold NewRequest. ps_step (get_customer_ok _ _ _ Hc). ps_step (GetNodeIDs_ok _ _ _ Hids).
  unfold mbind, ps_bind, put_customer, ps_modify, mret, ps_ret. by rewrite s32_small by lia.
Qed.

Lemma AddResponse_ok ptr ts n c num k s : ps_customers s !! ptr = Some c -> 0 <= ts ->
  cu_tracker c !! Z.to_nat ts = Some (num, k) -> - 2 ^ 31 <= k + n < 2 ^ 31 ->
  AddResponse ptr ts n s = Ok (tt, with_customer s ptr (set_tracker c (<[Z.to_nat ts := (num, k + n)]> (cu_tracker c)))).
Proof.
  intros Hc Hts Ht Hn. unfold AddResponse. ps_step (get_customer_ok _ _ _ Hc).
  ps_lift_step (tracker_at_ok _ _ _ Hts Ht). unfold put_customer, ps_modify. cbn [fst snd]. by rewrite s32_small.
Qed.

Lemma NumResponse_ok ptr ts c num k s : ps_customers s !! ptr = Some c -> 0 <= ts ->
  cu_tracker c !! Z.to_nat ts = Some (num, k) -> NumResponse ptr ts s = Ok (k, s).
Proof.
  intros Hc Hts Ht. unfold NumResponse. ps_step (get_customer_ok _ _ _ Hc). by ps_lift_step (tracker_at_ok _ _ _ Hts Ht).
Qed.

Lemma WaitRequest_done_ok ptr ts c num k s : ps_customers s !! ptr = Some c -> 0 <= ts ->
  cu_tracker c !! Z.to_nat ts = Some (num, k) -> WaitRequest_done ptr ts s = Ok (num =? k, s).
Proof.
  intros Hc Hts Ht. unfold WaitRequest_done. ps_step (get_customer_ok _ _ _ Hc).
  by ps_lift_step (tracker_at_ok _ _ _ Hts Ht).
Qed.

Lemma with_customer_id s ptr c : ps_customers s !! ptr = Some c -> with_customer s ptr c = s.
Proof. intros Hc. unfold with_customer. rewrite insert_id by done. by destruct s. Qed.

Lemma with_customer_twice s ptr c c' : with_customer (with_customer s ptr c) ptr c' = with_customer s ptr c'.
Proof. unfold with_customer, set_customers. cbn. by rewrite insert_insert_eq. Qed.

Lemma with_customer_lookup s ptr c : ps_customers (with_customer s ptr c) !! ptr = Some c.
Proof. cbn. by rewrite lookup_insert_eq. Qed.

Definition ends (m : Message) : bool := bool_decide (ct_cmd (mt_control (ms_meta m)) = TERMINATE).

(** A message that finds the queue empty goes straight to the handle. *)
Lemma deliver {W} ptr (h : Message -> stm (W * Ps) unit) m u s c : ps_customers s !! ptr = Some c ->
  cu_recv_queue c = [] -> ends m = false ->
  (lift_ps (Accept ptr m);; Customer_Receiving_once ptr h;; mret tt : stm (W * Ps) unit) (u, s) =
  (h m;; (if mt_request (ms_meta m) then mret tt else lift_ps (AddResponse ptr (mt_timestamp (ms_meta m)) 1))) (u, s).
Proof.
  intros Hc Hq He. set (c1 := set_recv_queue c [m]).
  assert (Hacc : Accept ptr m s = Ok (tt, with_customer s ptr c1)).
  { unfold Accept, mbind, ps_bind, ps_gets, ps_lift, ps_modify. cbn. rewrite Hc. cbn. by rewrite Hq. }
  st_step (lift_ps_Ok _ u _ _ _ Hacc). unfold Customer_Receiving_once.
  set (s1 := with_customer s ptr c1).
  assert (Hget : get_customer ptr s1 = Ok (c1, s1)) by (apply get_customer_ok, with_customer_lookup).
  assert (Hput : put_customer ptr (set_recv_queue c1 []) s1 = Ok (tt, s)).
  { unfold put_customer, ps_modify. fold (with_customer s1 ptr (set_recv_queue c1 [])). unfold s1.
    rewrite with_customer_twice, with_customer_id; [done|]. rewrite Hc. destruct c. cbn in *. by subst. }
  unfold mbind at 1 2. unfold stm_bind at 1 2. rewrite (lift_ps_Ok _ u _ _ _ Hget). cbn [cu_recv_queue c1 set_recv_queue].
  unfold mbind at 1. unfold stm_bind at 1. rewrite (lift_ps_Ok _ u _ _ _ Hput). unfold ends in He. rewrite He.
  unfold mbind, stm_bind. destruct (h m (u, s)) as [[[] s2]| | |]; [|done..].
  destruct (mt_request (ms_meta m)); [done|]. by destruct (lift_ps _ s2) as [[[] s3]| | |].
Qed.

(** The responses among [ms] to the request [ts]. *)
Definition responds_to (ts : Z) (m : Message) : bool :=
  negb (mt_request (ms_meta m)) && (mt_timestamp (ms_meta m) =? ts).
Definition num_responses (ts : Z) (ms : list Message) : Z := Z.of_nat (length (List.filter (responds_to ts) ms)).

Lemma num_responses_cons ts m ms :
  num_responses ts (m :: ms) = (if responds_to ts m then 1 else 0) + num_responses ts ms.
Proof. unfold num_responses. cbn [List.filter]. destruct (responds_to ts m); cbn [length]; lia. Qed.

(** The customer once a message is counted. *)
Definition counted (c : Customer) (m : Message) : Customer :=
  if mt_request (ms_meta m) then c
  else set_tracker c (alter (fun t => (fst t, snd t + 1)) (Z.to_nat (mt_timestamp (ms_meta m))) (cu_tracker c)).

(** A response is to a request of this customer, whose counter has room for [n]
    more. *)
Definition answers (c : Customer) (n : nat) (m : Message) : Prop :=
  ends m = false /\
  (mt_request (ms_meta m) = true \/
   0 <= mt_timestamp (ms_meta m) /\
   exists num k, cu_tracker c !! Z.to_nat (mt_timestamp (ms_meta m)) = Some (num, k) /\
     - 2 ^ 31 <= k < 2 ^ 31 - Z.of_nat n).

Lemma counted_lookup c m ts : 0 <= ts -> (mt_request (ms_meta m) = true \/ 0 <= mt_timestamp (ms_meta m)) ->
  cu_tracker (counted c m) !! Z.to_nat ts =
    (fun t => (fst t, snd t + (if responds_to ts m then 1 else 0))) <$> cu_tracker c !! Z.to_nat ts.
Proof.
  intros Hts Hm. unfold counted, responds_to. destruct (mt_request (ms_meta m)); cbn [negb andb].
  - destruct (cu_tracker c !! Z.to_nat ts) as [[n k]|]; cbn; [by rewrite Z.add_0_r|done].
  - destruct Hm as [|Hm]; [done|]. cbn. destruct (Z.eqb_spec (mt_timestamp (ms_meta m)) ts) as [->|Hne].
    + by rewrite list_lookup_alter_eq.
    + rewrite list_lookup_alter_ne by lia. destruct (cu_tracker c !! Z.to_nat ts) as [[n k]|]; cbn; [by rewrite Z.add_0_r|done].
Qed.

Lemma answers_counted c m n m' : answers c (S n) m -> answers c (S n) m' -> answers (counted c m) n m'.
Proof.
  intros [_ Hm] [He Hm']. split; [done|]. destruct Hm' as [|(Hts & num & k & Hk & Hr)]; [by left|right]. split; [done|].
  rewrite counted_lookup, Hk by (done || tauto). eexists _, _. split; [done|]. cbn. case_if E; lia.
Qed.

Lemma counted_responses ms : forall c n ts num k, 0 <= ts -> Forall (answers c (length ms + n)) ms ->
  cu_tracker c !! Z.to_nat ts = Some (num, k) ->
  cu_tracker (fold_left counted ms c) !! Z.to_nat ts = Some (num, k + num_responses ts ms).
Proof.
  induction ms as [|m ms IH]; intros c n ts num k Hts Hall Ht; cbn [fold_left].
  { unfold num_responses. cbn. by rewrite Z.add_0_r. }
  inversion Hall as [|? ? Hm Hms]; subst. rewrite num_responses_cons, Z.add_assoc. cbn [length] in *.
  apply (IH _ n); [done| |].
  - eapply Forall_impl; [exact Hms|]. intros m' Hm'. by apply answers_counted.
  - rewrite counted_lookup, Ht by (done || destruct Hm as [_ [|[]]]; tauto). done.
Qed.

Section counting.
Context {W : Type} (ptr : Z) (handle : Message -> stm (W * Ps) unit).

(** One message, when the application returns and leaves its customer alone. *)
Lemma receive_one m u s u' s' c n : ps_customers s !! ptr = Some c -> cu_recv_queue c = [] -> answers c (S n) m ->
  handle m (u, s) = Ok (tt, (u', s')) -> ps_customers s' !! ptr = Some c ->
  (lift_ps (Accept ptr m);; Customer_Receiving_once ptr handle;; mret tt : stm (W * Ps) unit) (u, s) =
    Ok (tt, (u', with_customer s' ptr (counted c m))).
Proof.
  intros Hc Hq [He Hm] Hh Hc'. rewrite (deliver ptr handle m u s c Hc Hq He). st_step Hh. unfold counted.
  destruct (mt_request (ms_meta m)); [by rewrite with_customer_id|].
  destruct Hm as [|(Hts & num & k & Hk & Hr)]; [done|]. apply lift_ps_Ok.
  rewrite (AddResponse_ok _ _ _ c num k) by (done || lia). do 4 f_equal.
  unfold set_tracker. f_equal. by rewrite (alter_as_insert _ _ _ _ Hk).
Qed.

Context (Hhandle : forall m u s, exists u' s', handle m (u, s) = Ok (tt, (u', s')) /\
  ps_customers s' !! ptr = ps_customers s !! ptr).

Lemma receive_counts ms : forall u s c, ps_customers s !! ptr = Some c -> cu_recv_queue c = [] ->
  Forall (answers c (length ms)) ms ->
  exists u' s', receive_all ptr handle ms (u, s) = Ok (tt, (u', s')) /\
    ps_customers s' !! ptr = Some (fold_left counted ms c).
Proof.
  induction ms as [|m ms IH]; intros u s c Hc Hq Hall; [by exists u, s|]. unfold receive_all. cbn [st_forM fold_left].
  inversion Hall as [|? ? Hm Hms]; subst. destruct (Hhandle m u s) as (u1 & s1 & Hh & Hcust). rewrite Hc in Hcust.
  st_step (receive_one m u s u1 s1 c (length ms) Hc Hq Hm Hh Hcust).
  apply IH; [apply with_customer_lookup|unfold counted; by destruct (mt_request _)|].
  eapply Forall_impl; [exact Hms|]. intros m' Hm'. by apply answers_counted.
Qed.
End counting.

(** C29: a request to a group is finished exactly when every member has
    answered. [NewRequest] returns a number that no earlier request of the
    customer has; whatever messages then arrive, the condition of
    [WaitRequest] holds if and only if as many responses to that number have been
    handled as the group has nodes. *)
Theorem request_done_iff_all_answered {W} ptr (handle : Message -> stm (W * Ps) unit) g ids c s u ms
    (Hhandle : forall m u s, exists u' s', handle m (u, s) = Ok (tt, (u', s')) /\
       ps_customers s' !! ptr = ps_customers s !! ptr)
    (Hc : ps_customers s !! ptr = Some c) (Hq : cu_recv_queue c = [])
    (Hids : po_node_ids (ps_po s) !! g = Some ids) (Hlen : Z.of_nat (length (cu_tracker c)) < 2 ^ 31)
    (Hms : Forall (answers (set_tracker c (cu_tracker c ++ [(Z.of_nat (length ids), 0)])) (length ms)) ms) :
  exists s1 u' s2, NewRequest ptr g s = Ok (Z.of_nat (length (cu_tracker c)), s1) /\
    receive_all ptr handle ms (u, s1) = Ok (tt, (u', s2)) /\
    WaitRequest_done ptr (Z.of_nat (length (cu_tracker c))) s2 =
      Ok (Z.of_nat (length ids) =? num_responses (Z.of_nat (length (cu_tracker c))) ms, s2).
Proof.
  set (c1 := set_tracker c (cu_tracker c ++ [(Z.of_nat (length ids), 0)])) in *. set (ts := Z.of_nat (length (cu_tracker c))).
  destruct (receive_counts ptr handle Hhandle ms u (with_customer s ptr c1) c1) as (u' & s2 & Hrun & Hc2);
    [apply with_customer_lookup|done|done|].
  exists (with_customer s ptr c1), u', s2. split; [by apply NewRequest_ok|]. split; [done|].
  apply (WaitRequest_done_ok ptr ts _ _ _ s2 Hc2); [lia|].
  rewrite (counted_responses ms c1 0 ts (Z.of_nat (length ids)) 0); [done|lia|by rewrite Nat.add_0_r|].
  unfold ts, c1. rewrite Nat2Z.id. cbn. rewrite lookup_app_r, Nat.sub_diag by lia. done.
Qed.

Definition example_answer (sender ts : Z) : Message :=
  mkMessage (mkMeta 0 0 0 ts sender 9 false false false [] [] (Control_new 0 0) 0 0 0 0 0) [].
Definition example_customer_ps : Ps :=
  with_customer (example_ps (mkPostoffice ∅ (init_node_ids 2 2 ∅) [] true false false 2 2 ∅ 0 ∅ 0) None) 5
    (mkCustomer 0 0 [] []).

Lemma request_done_iff_all_answered_witness :
  exists s1 u' s2, NewRequest 5 2 example_customer_ps = Ok (0, s1) /\
    receive_all 5 (fun _ => mret tt) [example_answer 8 0; example_answer 10 0] (tt, s1) = Ok (tt, (u', s2)) /\
    WaitRequest_done 5 0 s2 = Ok (true, s2).
Proof.
  destruct (request_done_iff_all_answered 5 (fun _ => mret tt) 2 [8; 10] (mkCustomer 0 0 [] []) example_customer_ps tt
    [example_answer 8 0; example_answer 10 0]) as (s1 & u' & s2 & H1 & H2 & H3); try reflexivity.
  - intros m u s. exists u, s. split; reflexivity.
  - constructor; [|constructor; [|constructor]];
      (split; [reflexivity|right; split; [cbn; lia|exists 2, 0; split; [reflexivity|cbn; lia]]]).
  - exists s1, u', s2. split; [exact H1|]. split; [exact H2|exact H3].
Defined.
