(* ===== verification/SimpleApp.v ===== *)
(** The simple application: src/include/ps/simple_app.h, requests and responses
    that carry a number and a string. The handles that a user sets are
    functions; a [SimpleApp] is the address of its customer. *)

From S2P Require Import Prelude State Bytes Memory PsMessage Ps Resender Postoffice Van Customer.

Record SimpleData := mkSimpleData {
  sd_head : Z;
  sd_body : list Z;
  sd_sender : Z;
  sd_timestamp : Z;
  sd_customer_id : Z }.

Section app.
Context (SendMsg : Message -> Z) (clock : nat -> Z) (junk : Z).

(** A message of the application. *)
Definition simple_message (head : Z) (body : list Z) (ts : Z) (request : bool) (app_id customer_id recver : Z) : Message :=
  let t := ms_meta (Message_new junk) in
  mkMessage
    (mkMeta head app_id customer_id ts (mt_sender t) recver request (mt_push t) true body (mt_data_type t)
       (mt_control t) (mt_data_size t) (mt_key t) (mt_addr t) (mt_val_len t) (mt_option t)) [].

Definition Simple_Request (obj req_head : Z) (req_body : list Z) (recv_id : Z) : ps Z :=
  ts ← NewRequest obj recv_id;
  c ← get_customer obj;
  ids ← GetNodeIDs recv_id;
  ps_forM ids (fun r =>
    Send SendMsg clock (simple_message req_head req_body ts true (cu_app_id c) (cu_customer_id c) r);; mret tt);;
  mret ts.

Definition Simple_Response (obj : Z) (req : SimpleData) (res_body : list Z) : ps unit :=
  c ← get_customer obj;
  Send SendMsg clock (simple_message (sd_head req) res_body (sd_timestamp req) false (cu_app_id c)
                        (sd_customer_id req) (sd_sender req));;
  mret tt.

Section handles.
Context {W : Type} (request_handle response_handle : SimpleData -> stm (W * Ps) unit).

Definition simple_data (msg : Message) : SimpleData :=
  let t := ms_meta msg in
  mkSimpleData (mt_head t) (mt_body t) (mt_sender t) (mt_timestamp t) (mt_customer_id t).

Definition Simple_Process (msg : Message) : stm (W * Ps) unit :=
  if mt_request (ms_meta msg) then request_handle (simple_data msg) else response_handle (simple_data msg).
End handles.

(** The handles of a new application: answer with an empty body, and ignore
    responses. *)
Definition default_request_handle {W} (obj : Z) (recved : SimpleData) : stm (W * Ps) unit :=
  lift_ps (Simple_Response obj recved []).
Definition default_response_handle {W} (recved : SimpleData) : stm (W * Ps) unit := mret tt.
End app.

(** ** Requests *)

Section roundtrip.
Context (SendMsg : Message -> Z) (clock : nat -> Z) (junk : Z).
Context (Hsend : forall m, 0 < SendMsg m).

(** The state after [new] has left, which only counts bytes. *)
Lemma Send_plain m s : v_resender (ps_van s) = None ->
  Send SendMsg clock m s = Ok (SendMsg m,
    after_sends s (v_timestamp (ps_van s)) (u64 (v_send_bytes (ps_van s) + SendMsg m)) [m]).
Proof.
  intros Hr. unfold Send, mbind, ps_bind, ps_modify, ps_lift, ps_gets, modify_van, ps_modify.
  pose proof (Hsend m). rewrite CHECK_true by (b2p; lia). cbn. rewrite Hr. destruct s as [? []]. done.
Qed.

Lemma send_each {A} (mk : A -> Message) l s : v_resender (ps_van s) = None ->
  exists n, ps_forM l (fun r => Send SendMsg clock (mk r);; mret tt) s =
    Ok (tt, after_sends s (v_timestamp (ps_van s)) n (map mk l)).
Proof.
  revert s. induction l as [|r l IH]; intros s Hr; cbn [ps_forM map].
  - exists (v_send_bytes (ps_van s)). unfold after_sends. rewrite app_nil_r. by destruct s as [? []].
  - set (s1 := after_sends s (v_timestamp (ps_van s)) (u64 (v_send_bytes (ps_van s) + SendMsg (mk r))) [mk r]).
    destruct (IH s1 Hr) as (n & Hn). exists n.
    assert (Hone : (Send SendMsg clock (mk r);; mret tt : ps unit) s = Ok (tt, s1)) by (by ps_step (Send_plain (mk r) s Hr)).
    ps_step Hone. rewrite Hn. unfold after_sends, s1. cbn. by rewrite <- app_assoc.
Qed.
End roundtrip.

(** The message as its receiver sees it: the transport fills in the sender. *)
Definition from (sender : Z) (m : Message) : Message :=
  mkMessage (set_ends (ms_meta m) sender (mt_recver (ms_meta m)) (mt_timestamp (ms_meta m))) (ms_data m).

(** C32: a simple request and its answers. [Request] sends exactly one message
    to every node of the group; every such message, processed with the default
    handles by a node that has the application, makes that node send exactly one
    response, to the requesting node and customer, that counts for the
    request. *)
Theorem simple_request_answered SendMsg clock junk W obj c g ids head body me (s : Ps)
    (Hsend : forall m, 0 < SendMsg m) (Hc : ps_customers s !! obj = Some c)
    (Hids : po_node_ids (ps_po s) !! g = Some ids) (Hlen : Z.of_nat (length (cu_tracker c)) < 2 ^ 31)
    (Hplain : v_resender (ps_van s) = None) :
  exists s' new,
    Simple_Request SendMsg clock junk obj head body g s = Ok (Z.of_nat (length (cu_tracker c)), s') /\
    ps_sent s' = ps_sent s ++ new /\ map (fun m => mt_recver (ms_meta m)) new = ids /\
    forall m, m ∈ new -> forall obj' c' (u : W) sq,
      ps_customers sq !! obj' = Some c' -> v_resender (ps_van sq) = None ->
      exists sq' r,
        Simple_Process (default_request_handle SendMsg clock junk obj') default_response_handle (from me m) (u, sq) =
          Ok (tt, (u, sq')) /\
        ps_sent sq' = ps_sent sq ++ [r] /\ responds_to (Z.of_nat (length (cu_tracker c))) r = true /\
        mt_recver (ms_meta r) = me /\ mt_customer_id (ms_meta r) = cu_customer_id c /\
        mt_head (ms_meta r) = head /\ mt_simple_app (ms_meta r) = true.
Proof.
  set (ts := Z.of_nat (length (cu_tracker c))). unfold Simple_Request.
  ps_step (NewRequest_ok obj g c ids s Hc Hids Hlen). set (c1 := set_tracker _ _). set (s1 := with_customer s obj c1).
  ps_step (get_customer_ok obj c1 s1 (with_customer_lookup _ _ _)). ps_step (GetNodeIDs_ok g ids s1 Hids). fold ts.
  destruct (send_each SendMsg clock Hsend
    (simple_message junk head body ts true (cu_app_id c1) (cu_customer_id c1)) ids s1 Hplain) as (n & Hn).
  ps_step Hn. eexists _, _. split; [reflexivity|]. split; [reflexivity|]. split.
  { rewrite map_map. cbn. by rewrite map_id. }
  intros m (r & -> & Hr)%list_elem_of_fmap obj' c' u sq Hc' Hplain'.
  unfold Simple_Process, default_request_handle, Simple_Response. cbn [from ms_meta simple_message set_ends mt_request].
  eexists _, _. split.
  - apply lift_ps_Ok. ps_step (get_customer_ok _ _ _ Hc'). ps_step (Send_plain SendMsg clock Hsend
      (simple_message junk head [] ts false (cu_app_id c') (cu_customer_id c1) me) sq Hplain'). reflexivity.
  - split; [reflexivity|]. unfold responds_to. cbn. by rewrite Z.eqb_refl.
Qed.

Lemma simple_request_answered_witness :
  exists s' new,
    Simple_Request (fun _ => 1) (fun _ => 0) 0 5 3 [104; 105] 2 example_customer_ps = Ok (0, s') /\
    ps_sent s' = new /\ map (fun m => mt_recver (ms_meta m)) new = [8; 10].
Proof.
  destruct (simple_request_answered (fun _ => 1) (fun _ => 0) 0 unit 5 (mkCustomer 0 0 [] []) 2 [8; 10] 3 [104; 105] 9
    example_customer_ps) as (s' & new & H1 & H2 & H3 & _); try reflexivity.
  exists s', new. split; [exact H1|]. split; [exact H2|exact H3].
Defined.
