(* ===== verification/KVApp.v ===== *)
(** Key-value workers and servers: src/include/ps/kv_app.h.

    Keys, values and lengths are the contents of the arrays; they are only read,
    so that sharing does not matter. A value is the bit pattern of [w] bytes;
    [plus] is its addition. The callbacks of the user are numbers, and the
    vectors that a pull fills are found by address in [kw_out]. Profiling output
    is not represented. *)

From S2P Require Import Prelude State Bytes Memory SArray PsMessage Ps Resender Postoffice Van Customer SimpleApp.

Record KVPairs := mkKV { kv_keys : list Z; kv_vals : list Z; kv_lens : list Z }.
Definition KVPairs_empty : KVPairs := mkKV [] [] [].

Record KVMeta := mkKVMeta {
  km_cmd : Z;
  km_push : bool;
  km_sender : Z;
  km_timestamp : Z;
  km_customer_id : Z;
  km_key : Z }.

(** A callback of a request: one of the user, or the one of [Pull_] with the
    keys, the destinations and the user's callback. *)
Inductive Callback :=
| UserCallback (cb : Z)
| PullCallback (keys : list Z) (vals : Z) (lens : option Z) (cb : option Z).

Record KVWorker := mkKVWorker {
  kw_obj : Z;
  kw_recv_kvs : gmap Z (list KVPairs);
  kw_callbacks : gmap Z Callback;
  kw_zpull : bool;                  (** [is_worker_zpull_] *)
  kw_out : gmap Z (list Z);
  kw_called : list Z }.             (** user callbacks that have run *)

Definition set_recv_kvs (k : KVWorker) m : KVWorker :=
  mkKVWorker (kw_obj k) m (kw_callbacks k) (kw_zpull k) (kw_out k) (kw_called k).
Definition set_callbacks (k : KVWorker) m : KVWorker :=
  mkKVWorker (kw_obj k) (kw_recv_kvs k) m (kw_zpull k) (kw_out k) (kw_called k).
Definition set_out (k : KVWorker) m : KVWorker :=
  mkKVWorker (kw_obj k) (kw_recv_kvs k) (kw_callbacks k) (kw_zpull k) m (kw_called k).
Definition add_called (k : KVWorker) cb : KVWorker :=
  mkKVWorker (kw_obj k) (kw_recv_kvs k) (kw_callbacks k) (kw_zpull k) (kw_out k) (kw_called k ++ [cb]).

(** The constructors. [zpull] is what [is_worker_zpull_] holds: it is only set
    when profiling is compiled in. *)
Definition KVWorker_new (ptr app_id customer_id : Z) (zpull : bool) : ps KVWorker :=
  Customer_new ptr app_id customer_id;;
  mret (mkKVWorker ptr ∅ ∅ zpull ∅ []).
Definition KVServer_new (ptr app_id : Z) : ps Z :=
  Customer_new ptr app_id app_id;;
  mret ptr.

(** Operations of a worker. *)
Notation kv := (stm (KVWorker * Ps)).

(** ** The slicer *)

(** [segment(from, to)] of an array with the contents [l]. *)
Definition seg (l : list Z) (from to : Z) : outcome (list Z) :=
  CHECK (from <=? to);;
  CHECK (to <=? Z.of_nat (length l));;
  Ok (slice (Z.to_nat from) (Z.to_nat (to - from)) l).

(** [pos[1]], [pos[2]], ... from [pos[0] = p] on; [prev] is the end of the range
    before. *)
Fixpoint slice_positions (keys : list Z) (p : nat) (prev : option Z) (ranges : list Range) : outcome (list nat) :=
  match ranges with
  | [] => Ok []
  | r :: rs =>
      (match prev with Some e => CHECK (e =? rg_begin r) | None => Ok tt end);;
      let len := lower_bound (drop p keys) (rg_end r) in
      ps ← slice_positions keys (p + len) (Some (rg_end r)) rs;
      Ok ((p + len)%nat :: ps)
  end.

Definition first_position (keys : list Z) (ranges : list Range) : nat :=
  match ranges with [] => 0 | r :: _ => lower_bound keys (rg_begin r) end.

(** The loop that cuts: [pos[i] = p], the rest of [pos], and [val_begin]. *)
Fixpoint cut_slices (send : KVPairs) (k : Z) (p : nat) (pos : list nat) (val_begin : Z) :
    outcome (list (bool * KVPairs)) :=
  match pos with
  | [] => Ok []
  | q :: pos' =>
      if Nat.eqb q p then
        rest ← cut_slices send k q pos' val_begin;
        Ok ((false, KVPairs_empty) :: rest)
      else
        keys ← seg (kv_keys send) (Z.of_nat p) (Z.of_nat q);
        match kv_lens send with
        | [] =>
            vals ← seg (kv_vals send) (Z.of_nat p * k) (Z.of_nat q * k);
            rest ← cut_slices send k q pos' val_begin;
            Ok ((true, mkKV keys vals []) :: rest)
        | _ =>
            lens ← seg (kv_lens send) (Z.of_nat p) (Z.of_nat q);
            let val_end := foldl (fun e l => u64 (e + l)) val_begin lens in
            vals ← seg (kv_vals send) val_begin val_end;
            rest ← cut_slices send k q pos' val_end;
            Ok ((true, mkKV keys vals lens) :: rest)
        end
  end.

Definition DefaultSlicer (send : KVPairs) (ranges : list Range) : outcome (list (bool * KVPairs)) :=
  let n := Z.of_nat (length (kv_keys send)) in
  let p := first_position (kv_keys send) ranges in
  pos ← slice_positions (kv_keys send) p None ranges;
  CHECK (Nat.eqb (List.last pos p) (length (kv_keys send)));;
  match kv_keys send with
  | [] => Ok (map (fun _ => (false, KVPairs_empty)) ranges)
  | _ =>
      let k := match kv_lens send with [] => Z.of_nat (length (kv_vals send)) `div` n | _ => 0 end in
      (match kv_lens send with
       | [] => CHECK (k * n =? Z.of_nat (length (kv_vals send)))
       | l => CHECK (n =? Z.of_nat (length l))
       end);;
      cut_slices send k p pos 0
  end.

(** ** Messages *)

Section app.
Context (SendMsg : Message -> Z) (clock : nat -> Z) (junk : Z).
Context (w : Z) (valtype : DataType) (plus : Z -> Z -> Z).
Context (DefaultOrUserSlicer : KVPairs -> list Range -> outcome (list (bool * KVPairs))).

(** [if (kvs.keys.size()) { msg.AddData(...) ... }] *)
Definition add_kvs (kvs : KVPairs) (m : Message) : outcome Message :=
  match kv_keys kvs with
  | [] => Ok m
  | _ =>
      m ← AddData UINT64 (unwords 8 (kv_keys kvs)) m;
      m ← AddData valtype (unwords w (kv_vals kvs)) m;
      match kv_lens kvs with
      | [] => Ok m
      | _ => AddData INT32 (unwords 4 (kv_lens kvs)) m
      end
  end.

(** [kvs.keys = msg.data[i]]: an array of [w'] bytes elements over the bytes. *)
Definition as_words (w' : Z) (bs : list Z) : outcome (list Z) :=
  let n := Z.of_nat (length bs) in
  CHECK (n `div` w' * w' =? n);;
  Ok (words w' bs).

Definition kv_request (app_id customer_id ts cmd recver : Z) (push : bool) : Message :=
  let t := ms_meta (Message_new junk) in
  mkMessage (mkMeta cmd app_id customer_id ts (mt_sender t) recver true push (mt_simple_app t) (mt_body t)
    (mt_data_type t) (mt_control t) (mt_data_size t) (mt_key t) (mt_addr t) (mt_val_len t) (mt_option t)) [].

(** ** The worker *)

Definition kw_gets {A} (f : KVWorker -> A) : kv A := st_gets (fun s => f (fst s)).
Definition kw_modify (f : KVWorker -> KVWorker) : kv unit := st_modify (fun s => (f (fst s), snd s)).

Definition AddCallback (ts : Z) (cb : option Callback) : kv unit :=
  match cb with
  | None => mret tt
  | Some cb => kw_modify (fun k => set_callbacks k (<[ts := cb]> (kw_callbacks k)))
  end.

(** The loop of checks of a pull: total numbers of keys and values. *)
Fixpoint pull_totals (keys : list Z) (want_lens : bool) (kvs : list KVPairs) : outcome (Z * Z) :=
  match kvs with
  | [] => Ok (0, 0)
  | s :: kvs' =>
      CHECK (negb (Nat.eqb (length (kv_keys s)) 0));;
      let range := FindRange keys (List.hd 0 (kv_keys s)) (u64 (List.last (kv_keys s) 0 + 1)) in
      CHECK (u64 (snd range - fst range) =? Z.of_nat (length (kv_keys s)));;
      CHECK (negb want_lens || Nat.eqb (length (kv_lens s)) (length (kv_keys s)));;
      t ← pull_totals keys want_lens kvs';
      Ok (Z.of_nat (length (kv_keys s)) + fst t, Z.of_nat (length (kv_vals s)) + snd t)
  end.

(** [a.keys.front() < b.keys.front()] *)
Definition front_before (a b : KVPairs) : bool := List.hd 0 (kv_keys a) <? List.hd 0 (kv_keys b).

(** [memcpy]s one behind the other. *)
Fixpoint copy_behind (off : nat) (parts : list (list Z)) (dst : list Z) : outcome (list Z) :=
  match parts with
  | [] => Ok dst
  | p :: parts' =>
      DEFINED (Nat.leb (off + length p) (length dst));;
      copy_behind (off + length p) parts' (splice off p dst)
  end.

(** [if (v->empty()) v->resize(n); else CHECK_EQ(v->size(), n)] *)
Definition sized (v : list Z) (n : Z) : outcome (list Z) :=
  match v with
  | [] => Ok (replicate (Z.to_nat n) 0)
  | _ => CHECK (Z.of_nat (length v) =? n);; Ok v
  end.

Definition run_pull (ts : Z) (keys : list Z) (vals : Z) (lens : option Z) (cb : option Z) : kv unit :=
  k ← kw_gets id;
  let kvs := default [] (kw_recv_kvs k !! ts) in
  total ← st_lift (pull_totals keys (bool_decide (is_Some lens)) kvs);
  st_lift (CHECK (fst total =? Z.of_nat (length keys)));;
  let kvs := sort_by front_before kvs in
  out ← st_lift (deref (kw_out k !! vals));
  out ← st_lift (sized out (snd total));
  (if kw_zpull k then kw_modify (fun k => set_out k (<[vals := out]> (kw_out k)))
   else
     match lens with
     | None => mret tt
     | Some l =>
         lout ← st_lift (deref (kw_out k !! l));
         lout ← st_lift (sized lout (Z.of_nat (length keys)));
         lout ← st_lift (copy_behind 0 (map kv_lens kvs) lout);
         kw_modify (fun k => set_out k (<[l := lout]> (kw_out k)))
     end;;
     out ← st_lift (copy_behind 0 (map kv_vals kvs) out);
     kw_modify (fun k => set_out k (<[vals := out]> (kw_out k))));;
  kw_modify (fun k => set_recv_kvs k (delete ts (kw_recv_kvs k)));;
  match cb with None => mret tt | Some cb => kw_modify (fun k => add_called k cb) end.

Definition RunCallback (ts : Z) : kv unit :=
  k ← kw_gets id;
  match kw_callbacks k !! ts with
  | None => mret tt
  | Some cb =>
      (match cb with
       | UserCallback c => kw_modify (fun k => add_called k c)
       | PullCallback keys vals lens c => run_pull ts keys vals lens c
       end);;
      kw_modify (fun k => set_callbacks k (delete ts (kw_callbacks k)))
  end.

(** The messages of a request, for the servers from rank [i] on. *)
Fixpoint send_slices (c : Customer) (ts cmd : Z) (push : bool) (i : Z) (sliced : list (bool * KVPairs)) : ps unit :=
  match sliced with
  | [] => mret tt
  | (flag, kvs) :: rest =>
      (if (flag : bool) then
         m ← ps_lift (add_kvs kvs (kv_request (cu_app_id c) (cu_customer_id c) ts cmd (ServerRankToID i) push));
         Send SendMsg clock m;; mret tt
       else mret tt);;
      send_slices c ts cmd push (i + 1) rest
  end.

Definition num_skipped (sliced : list (bool * KVPairs)) : Z :=
  Z.of_nat (length (List.filter (fun s => negb (fst s)) sliced)).

Definition Worker_Send (ts : Z) (push : bool) (cmd : Z) (kvs : KVPairs) : kv unit :=
  obj ← kw_gets kw_obj;
  ranges ← lift_ps GetServerKeyRanges;
  sliced ← st_lift (DefaultOrUserSlicer kvs ranges);
  lift_ps (AddResponse obj ts (num_skipped sliced));;
  (if num_skipped sliced =? Z.of_nat (length sliced) then RunCallback ts else mret tt);;
  c ← lift_ps (get_customer obj);
  lift_ps (send_slices c ts cmd push 0 sliced).

Definition ZPush (kvs : KVPairs) (cmd : Z) (cb : option Z) : kv Z :=
  obj ← kw_gets kw_obj;
  ts ← lift_ps (NewRequest obj kServerGroup);
  AddCallback ts (option_map UserCallback cb);;
  Worker_Send ts true cmd kvs;;
  mret ts.

Definition Pull_ (keys : list Z) (vals : Z) (lens : option Z) (cmd : Z) (cb : option Z) : kv Z :=
  obj ← kw_gets kw_obj;
  ts ← lift_ps (NewRequest obj kServerGroup);
  AddCallback ts (Some (PullCallback keys vals lens cb));;
  Worker_Send ts false cmd (mkKV keys [] []);;
  mret ts.

(** The arrays of a message. *)
Definition received_kvs (msg : Message) : outcome KVPairs :=
  match ms_data msg with
  | d0 :: d1 :: ds =>
      keys ← as_words 8 d0;
      vals ← as_words w d1;
      match ds with
      | [] => Ok (mkKV keys vals [])
      | d2 :: _ => lens ← as_words 4 d2; Ok (mkKV keys vals (map s32 lens))
      end
  | _ => Fatal
  end.

Definition Worker_Process (simple : Message -> kv unit) (msg : Message) : kv unit :=
  if mt_simple_app (ms_meta msg) then simple msg
  else
    let ts := mt_timestamp (ms_meta msg) in
    (if negb (mt_push (ms_meta msg)) && negb (Nat.eqb (length (ms_data msg)) 0) then
       kvs ← st_lift (received_kvs msg);
       kw_modify (fun k => set_recv_kvs k (<[ts := default [] (kw_recv_kvs k !! ts) ++ [kvs]]> (kw_recv_kvs k)))
     else mret tt);;
    obj ← kw_gets kw_obj;
    n ← lift_ps (NumResponse obj ts);
    p ← lift_ps (ps_gets ps_po);
    if n =? po_num_servers p - 1 then RunCallback ts else mret tt.

(** ** The server *)

Section server.
Context {W : Type} (request_handle : KVMeta -> KVPairs -> stm (W * Ps) unit).

Definition Server_Process (simple : Message -> stm (W * Ps) unit) (msg : Message) : stm (W * Ps) unit :=
  if mt_simple_app (ms_meta msg) then simple msg
  else
    let t := ms_meta msg in
    let meta := mkKVMeta (mt_head t) (mt_push t) (mt_sender t) (mt_timestamp t) (mt_customer_id t) (mt_key t) in
    data ← st_lift (match ms_data msg with
                    | [] => Ok KVPairs_empty
                    | ds =>
                        CHECK (Nat.leb (length ds) 3);;
                        d ← received_kvs msg;
                        CHECK (Nat.leb (length ds) 2 || Nat.eqb (length (kv_lens d)) (length (kv_keys d)));;
                        Ok d
                    end);
    request_handle meta data.
End server.

Definition Server_Response (obj : Z) (req : KVMeta) (res : KVPairs) : ps unit :=
  c ← get_customer obj;
  let t := ms_meta (Message_new junk) in
  m ← ps_lift (add_kvs res (mkMessage
        (mkMeta (km_cmd req) (cu_app_id c) (km_customer_id req) (km_timestamp req) (mt_sender t) (km_sender req) false
           (km_push req) (mt_simple_app t) (mt_body t) (mt_data_type t) (mt_control t) (mt_data_size t) (km_key req)
           (mt_addr t) (mt_val_len t) (mt_option t)) []));
  Send SendMsg clock m;;
  mret tt.

(** [KVServerDefaultHandle] with its [store]. *)
Definition store_get (store : gmap Z Z) (key : Z) : Z := default 0 (store !! key).

Fixpoint store_add (store : gmap Z Z) (keys vals : list Z) : outcome (gmap Z Z) :=
  match keys, vals with
  | [], _ => Ok store
  | k :: keys', v :: vals' => store_add (<[k := plus (store_get store k) v]> store) keys' vals'
  | _ :: _, [] => Undef
  end.

(** [store[key]] makes an entry for a new key. *)
Definition store_touch (store : gmap Z Z) (key : Z) : gmap Z Z :=
  match store !! key with Some _ => store | None => <[key := 0]> store end.

Definition KVServerDefaultHandle (obj : Z) (req_meta : KVMeta) (req_data : KVPairs) : stm (gmap Z Z * Ps) unit :=
  store ← st_gets fst;
  if km_push req_meta then
    st_lift (CHECK (Nat.eqb (length (kv_keys req_data)) (length (kv_vals req_data))));;
    store' ← st_lift (store_add store (kv_keys req_data) (kv_vals req_data));
    st_modify (fun s => (store', snd s));;
    lift_ps (Server_Response obj req_meta KVPairs_empty)
  else
    st_modify (fun s => (foldl store_touch store (kv_keys req_data), snd s));;
    lift_ps (Server_Response obj req_meta
      (mkKV (kv_keys req_data) (map (store_get store) (kv_keys req_data)) [])).
End app.
