(* ===== verification/Slicer.v ===== *)
(** The slicer of src/include/ps/kv_app.h cuts a list of key-value pairs along
    the key ranges of the servers. *)

From S2P Require Import Prelude State Bytes Memory SArray PsMessage Ps Resender Postoffice Van Customer SimpleApp KVApp.

(** Each range begins where the one before ends. *)
Fixpoint contiguous (lo : Z) (ranges : list Range) : Prop :=
  match ranges with
  | [] => True
  | r :: rs => rg_begin r = lo /\ lo <= rg_end r /\ contiguous (rg_end r) rs
  end.

(** Where the values of the first [p] keys end. *)
Definition val_pos (send : KVPairs) (k : nat) (p : nat) : nat :=
  match kv_lens send with
  | [] => (p * k)%nat
  | l => Z.to_nat (foldr Z.add 0 (take p l))
  end.

(** The values fit the keys: the same number for each, or as many as the
    lengths say. *)
Definition well_formed (send : KVPairs) (k : nat) : Prop :=
  match kv_lens send with
  | [] => length (kv_vals send) = (length (kv_keys send) * k)%nat
  | l => length l = length (kv_keys send) /\ Forall (fun x => 0 <= x) l /\
      foldr Z.add 0 l = Z.of_nat (length (kv_vals send)) /\ Z.of_nat (length (kv_vals send)) < 2 ^ 64
  end.

(** The slices between the positions. *)
Fixpoint slices_at (send : KVPairs) (k : nat) (p : nat) (pos : list nat) : list (bool * KVPairs) :=
  match pos with
  | [] => []
  | q :: pos' =>
      (negb (Nat.eqb q p),
       mkKV (slice p (q - p) (kv_keys send))
         (slice (val_pos send k p) (val_pos send k q - val_pos send k p) (kv_vals send))
         (slice p (q - p) (kv_lens send))) :: slices_at send k q pos'
  end.

(** Positions go up, to the end of the keys at most. *)
Fixpoint rising (n p : nat) (pos : list nat) : Prop :=
  match pos with
  | [] => (p <= n)%nat
  | q :: pos' => (p <= q)%nat /\ rising n q pos'
  end.

Lemma rising_le n p pos : rising n p pos -> (p <= n)%nat.
Proof. revert p. induction pos as [|q pos IH]; intros p; cbn; [done|]. intros [H1 H2%IH]. lia. Qed.

(** ** Sums of lengths *)

Lemma sum_nonneg l : Forall (fun x => 0 <= x) l -> 0 <= foldr Z.add 0 l.
Proof. induction 1; cbn; lia. Qed.

Lemma sum_app l1 l2 : foldr Z.add 0 (l1 ++ l2) = foldr Z.add 0 l1 + foldr Z.add 0 l2.
Proof. induction l1 as [|x l1 IH]; cbn; lia. Qed.

Lemma sum_split l p q : (p <= q)%nat ->
  foldr Z.add 0 (take q l) = foldr Z.add 0 (take p l) + foldr Z.add 0 (slice p (q - p) l).
Proof.
  intros Hpq. rewrite <- sum_app. f_equal. unfold slice.
  rewrite <- (take_drop p (take q l)). rewrite take_take, Nat.min_l by done. f_equal.
  by rewrite skipn_firstn_comm.
Qed.

Lemma sum_u64 l e : Forall (fun x => 0 <= x) l -> 0 <= e -> e + foldr Z.add 0 l < 2 ^ 64 ->
  foldl (fun e x => u64 (e + x)) e l = e + foldr Z.add 0 l.
Proof.
  intros Hl. revert e. induction Hl as [|x l Hx Hl IH]; intros e He Hlt; cbn [foldl foldr] in *; [lia|].
  pose proof (sum_nonneg l Hl). rewrite u64_small by lia. rewrite IH by lia. lia.
Qed.

Lemma Forall_slice {A} (P : A -> Prop) p n l : Forall P l -> Forall P (slice p n l).
Proof. intros H. by apply Forall_take, Forall_drop. Qed.

Lemma slice_nil {A} p n : slice p n ([] : list A) = [].
Proof. unfold slice. by rewrite drop_nil, take_nil. Qed.

Lemma val_pos_bounds send k p q : well_formed send k -> (p <= q <= length (kv_keys send))%nat ->
  (val_pos send k p <= val_pos send k q <= length (kv_vals send))%nat.
Proof.
  unfold well_formed, val_pos. destruct (kv_lens send) as [|x l] eqn:E; intros Hwf Hpq; [nia|].
  destruct Hwf as (Hlen & Hpos & Hsum & _). set (xs := x :: l) in *.
  pose proof (sum_split xs p q ltac:(lia)) as H1. pose proof (sum_split xs q (length xs) ltac:(lia)) as H2.
  rewrite (take_ge xs (length xs)) in H2 by lia.
  pose proof (sum_nonneg _ (Forall_slice _ p (q - p) _ Hpos)). pose proof (sum_nonneg _ (Forall_slice _ q (length xs - q) _ Hpos)).
  pose proof (sum_nonneg _ (Forall_take _ p _ Hpos)). lia.
Qed.

Lemma seg_ok l p q : (p <= q <= length l)%nat -> seg l (Z.of_nat p) (Z.of_nat q) = Ok (slice p (q - p) l).
Proof.
  intros H. unfold seg. do 2 pass. by rewrite <- Nat2Z.inj_sub, !Nat2Z.id by lia.
Qed.

(** ** The two loops *)

Lemma slice_positions_ok keys lo ranges prev : sorted keys -> contiguous lo ranges ->
  prev = None \/ prev = Some lo ->
  slice_positions keys (lower_bound keys lo) prev ranges = Ok (map (fun r => lower_bound keys (rg_end r)) ranges).
Proof.
  intros Hs. revert lo prev. induction ranges as [|r rs IH]; intros lo prev Hc Hprev; [done|].
  destruct Hc as (Hb & Hle & Hc). cbn [slice_positions map].
  assert (Hcheck : (match prev with Some e => CHECK (e =? rg_begin r) | None => Ok tt end) = Ok tt).
  { destruct Hprev as [-> | ->]; [done|]. by rewrite Hb, Z.eqb_refl. }
  rewrite Hcheck. cbn [mbind outcome_bind].
  rewrite lower_bound_drop by (try done; by apply lower_bound_mono).
  rewrite (IH (rg_end r)) by (try done; by right). done.
Qed.

Lemma cut_slices_ok send k kz p pos : well_formed send k -> (kv_lens send = [] -> kz = Z.of_nat k) ->
  rising (length (kv_keys send)) p pos ->
  cut_slices send kz p pos (match kv_lens send with [] => 0 | _ => Z.of_nat (val_pos send k p) end) =
    Ok (slices_at send k p pos).
Proof.
  intros Hwf Hkz. revert p. induction pos as [|q pos IH]; intros p Hr; [done|]. destruct Hr as [Hpq Hr].
  pose proof (rising_le _ _ _ Hr) as Hq. pose proof (val_pos_bounds send k p q Hwf ltac:(lia)) as Hv.
  specialize (IH q Hr). cbn [cut_slices slices_at]. destruct (Nat.eqb_spec q p) as [->|Hne].
  { rewrite IH. cbn [mbind outcome_bind negb]. by rewrite !Nat.sub_diag. }
  rewrite (seg_ok (kv_keys send) p q) by lia. cbn [mbind outcome_bind]. unfold well_formed, val_pos in *.
  destruct (kv_lens send) as [|x l] eqn:E.
  - rewrite (Hkz eq_refl) in *. rewrite <- !Nat2Z.inj_mul, seg_ok by lia. cbn [mbind outcome_bind negb]. rewrite IH. cbn [mbind outcome_bind].
    by rewrite (slice_nil p (q - p)).
  - destruct Hwf as (Hlen & Hpos & Hsum & Hlt). set (xs := x :: l) in *.
    rewrite seg_ok by lia. cbn [mbind outcome_bind].
    pose proof (sum_split xs p q Hpq) as Hsp. pose proof (sum_nonneg _ (Forall_take _ p _ Hpos)).
    pose proof (sum_nonneg _ (Forall_slice _ p (q - p) _ Hpos)).
    rewrite sum_u64 by (try apply Forall_slice; done || lia).
    replace (Z.of_nat (Z.to_nat (foldr Z.add 0 (take p xs))) + foldr Z.add 0 (slice p (q - p) xs))
      with (Z.of_nat (Z.to_nat (foldr Z.add 0 (take q xs)))) by lia.
    rewrite seg_ok by lia. cbn [mbind outcome_bind negb]. by rewrite IH.
Qed.

(** ** The slices *)

Lemma slice_app {A} a b c (l : list A) : (a <= b <= c)%nat -> slice a (b - a) l ++ slice b (c - b) l = slice a (c - a) l.
Proof.
  intros H. unfold slice. replace (c - a)%nat with ((b - a) + (c - b))%nat by lia.
  rewrite <- take_take_drop, drop_drop. do 3 f_equal. lia.
Qed.

Fixpoint segs (g : nat -> nat) (l : list Z) (p : nat) (pos : list nat) : list (list Z) :=
  match pos with
  | [] => []
  | q :: pos' => slice (g p) (g q - g p) l :: segs g l q pos'
  end.

Lemma last_cons_default {A} (pos : list A) p q : List.last (q :: pos) p = List.last pos q.
Proof.
  revert p q. induction pos as [|x pos IH]; intros p q; [done|].
  change (List.last (q :: x :: pos) p) with (List.last (x :: pos) p). by rewrite !IH.
Qed.

Lemma rising_last n p pos : rising n p pos -> (p <= List.last pos p <= n)%nat.
Proof.
  revert p. induction pos as [|q pos IH]; intros p; cbn [rising]; [cbn; lia|]. intros [Hpq Hr].
  rewrite last_cons_default. specialize (IH q Hr). lia.
Qed.

Lemma concat_segs g l n p pos : (forall a b, (a <= b <= n)%nat -> (g a <= g b)%nat) -> rising n p pos ->
  concat (segs g l p pos) = slice (g p) (g (List.last pos p) - g p) l.
Proof.
  intros Hg. revert p. induction pos as [|q pos IH]; intros p Hr; cbn [segs concat].
  - cbn. by rewrite Nat.sub_diag.
  - destruct Hr as [Hpq Hr]. rewrite IH by done. rewrite last_cons_default.
    pose proof (rising_last _ _ _ Hr). apply slice_app. split; apply Hg; lia.
Qed.

Lemma slices_at_fields send k p pos :
  map (fun s => kv_keys (snd s)) (slices_at send k p pos) = segs (fun x => x) (kv_keys send) p pos /\
  map (fun s => kv_vals (snd s)) (slices_at send k p pos) = segs (val_pos send k) (kv_vals send) p pos /\
  map (fun s => kv_lens (snd s)) (slices_at send k p pos) = segs (fun x => x) (kv_lens send) p pos /\
  length (slices_at send k p pos) = length pos.
Proof.
  revert p. induction pos as [|q pos IH]; intros p; [done|]. destruct (IH q) as (H1 & H2 & H3 & H4).
  cbn [slices_at map segs length kv_keys kv_vals kv_lens snd]. by rewrite H1, H2, H3, H4.
Qed.

(** The positions of contiguous ranges in sorted keys. *)
Lemma positions_rising keys lo ranges : sorted keys -> contiguous lo ranges ->
  rising (length keys) (lower_bound keys lo) (map (fun r => lower_bound keys (rg_end r)) ranges).
Proof.
  intros Hs. revert lo. induction ranges as [|r rs IH]; intros lo Hc; cbn.
  - apply (lower_bound_splits keys lo Hs).
  - destruct Hc as (_ & Hle & Hc). split; [by apply lower_bound_mono|by apply IH].
Qed.

Definition ranges_end (lo : Z) (ranges : list Range) : Z := List.last (map rg_end ranges) lo.

Lemma last_position keys lo ranges : sorted keys ->
  List.last (map (fun r => lower_bound keys (rg_end r)) ranges) (lower_bound keys lo) = lower_bound keys (ranges_end lo ranges).
Proof.
  intros _. unfold ranges_end. revert lo. induction ranges as [|r [|r' rs] IH]; intros lo; [done|done|]. apply (IH lo).
Qed.

(** The keys between two positions. *)
Lemma slice_in_range keys lo hi : sorted keys -> lo <= hi ->
  Forall (fun x => lo <= x < hi) (slice (lower_bound keys lo) (lower_bound keys hi - lower_bound keys lo) keys).
Proof.
  intros Hs Hle. apply Forall_lookup. intros i x Hx.
  assert (Hi : (i < lower_bound keys hi - lower_bound keys lo)%nat).
  { apply lookup_lt_Some in Hx. unfold slice in Hx. rewrite length_take in Hx. lia. }
  rewrite lookup_slice in Hx by done.
  destruct (lower_bound_splits keys lo Hs) as [_ H1]. destruct (lower_bound_splits keys hi Hs) as [_ H2].
  specialize (H1 _ _ Hx). specialize (H2 _ _ Hx). lia.
Qed.

Lemma slice_well_formed send k p q : well_formed send k -> (p <= q <= length (kv_keys send))%nat ->
  well_formed (mkKV (slice p (q - p) (kv_keys send))
    (slice (val_pos send k p) (val_pos send k q - val_pos send k p) (kv_vals send)) (slice p (q - p) (kv_lens send))) k.
Proof.
  intros Hwf Hpq. pose proof (val_pos_bounds send k p q Hwf Hpq) as Hv. unfold well_formed in *.
  cbn [kv_keys kv_vals kv_lens]. rewrite !length_slice by lia. unfold val_pos in *.
  destruct (kv_lens send) as [|x l] eqn:E.
  - rewrite slice_nil. nia.
  - destruct Hwf as (Hlen & Hpos & Hsum & Hlt). set (xs := x :: l) in *.
    pose proof (sum_split xs p q ltac:(lia)) as Hsp. pose proof (sum_nonneg _ (Forall_take _ p _ Hpos)).
    pose proof (sum_nonneg _ (Forall_slice _ p (q - p) _ Hpos)).
    pose proof (length_slice p (q - p) xs ltac:(lia)) as Hls. pose proof (Forall_slice _ p (q - p) _ Hpos) as Hsl.
    destruct (slice p (q - p) xs) as [|y ys]; [cbn in *; lia|]. split; [lia|]. split; [done|]. lia.
Qed.

Lemma slices_at_lookup send k lo ranges i r b sl : sorted (kv_keys send) -> contiguous lo ranges -> well_formed send k ->
  ranges !! i = Some r ->
  slices_at send k (lower_bound (kv_keys send) lo) (map (fun r => lower_bound (kv_keys send) (rg_end r)) ranges) !! i
    = Some (b, sl) ->
  (b = true <-> kv_keys sl <> []) /\ Forall (fun x => rg_begin r <= x < rg_end r) (kv_keys sl) /\ well_formed sl k.
Proof.
  intros Hs Hc Hwf. revert lo i Hc. induction ranges as [|r0 rs IH]; intros lo i Hc Hr Hsl; [done|].
  destruct Hc as (Hb & Hle & Hc). destruct i as [|i]; cbn [slices_at map] in *; [|by apply (IH (rg_end r0) i Hc)].
  injection Hr as <-. injection Hsl as <- <-. rewrite Hb. set (keys := kv_keys send) in *.
  pose proof (lower_bound_mono keys lo (rg_end r0) Hs Hle) as Hmono.
  destruct (lower_bound_splits keys (rg_end r0) Hs) as [Hmax _].
  split; [|split; [by apply slice_in_range|apply slice_well_formed; [done|unfold keys in *; lia]]].
  cbn [kv_keys]. rewrite negb_true_iff, Nat.eqb_neq. fold keys.
  rewrite <- (length_zero_iff_nil (slice _ _ keys)), length_slice by lia. lia.
Qed.

Lemma val_pos_0 send k : val_pos send k 0 = 0%nat.
Proof. unfold val_pos. by destruct (kv_lens send). Qed.

Lemma val_pos_all send k : well_formed send k -> val_pos send k (length (kv_keys send)) = length (kv_vals send).
Proof.
  unfold well_formed, val_pos. destruct (kv_lens send) as [|x l]; [done|]. intros (Hlen & _ & Hsum & _).
  rewrite take_ge by lia. lia.
Qed.

(** The keys lie inside the ranges. *)
Lemma slicer_bounds send lo ranges : sorted (kv_keys send) ->
  Forall (fun x => lo <= x < ranges_end lo ranges) (kv_keys send) ->
  lower_bound (kv_keys send) lo = 0%nat /\
  List.last (map (fun r => lower_bound (kv_keys send) (rg_end r)) ranges) (lower_bound (kv_keys send) lo) =
    length (kv_keys send).
Proof.
  intros Hs Hin. rewrite last_position by done. rewrite Forall_lookup in Hin.
  split; (eapply (splits_unique (kv_keys send)); [by apply lower_bound_splits|]);
    (split; [lia|]); intros j x Hx; pose proof (Hin j x Hx); apply lookup_lt_Some in Hx; lia.
Qed.

Lemma DefaultSlicer_run send k lo ranges : sorted (kv_keys send) -> contiguous lo ranges -> well_formed send k ->
  Forall (fun x => lo <= x < ranges_end lo ranges) (kv_keys send) ->
  DefaultSlicer send ranges =
    Ok (slices_at send k (lower_bound (kv_keys send) lo) (map (fun r => lower_bound (kv_keys send) (rg_end r)) ranges)).
Proof.
  intros Hs Hc Hwf Hin. destruct (slicer_bounds send lo ranges Hs Hin) as [Hfirst Hlast].
  pose proof (positions_rising (kv_keys send) lo ranges Hs Hc) as Hr. unfold DefaultSlicer.
  assert (Hp : first_position (kv_keys send) ranges = lower_bound (kv_keys send) lo).
  { unfold first_position. destruct ranges as [|r rs]; [done|]. by destruct Hc as [-> _]. }
  rewrite Hp, (slice_positions_ok (kv_keys send) lo ranges None Hs Hc) by (by left).
  set (pos := map _ ranges) in *. cbn [mbind outcome_bind]. rewrite Hlast, Nat.eqb_refl. cbn [mbind outcome_bind CHECK].
  destruct (kv_keys send) as [|x keys] eqn:Hk.
  - unfold pos. f_equal. clear Hr Hlast pos. rewrite Hfirst. clear -Hk Hwf. unfold well_formed in Hwf.
    assert (Hv : kv_vals send = [] /\ kv_lens send = []).
    { rewrite Hk in Hwf. destruct (kv_lens send); cbn in Hwf; [|lia]. by apply length_zero_iff_nil in Hwf. }
    destruct Hv as [Hv Hl]. induction ranges as [|r rs IH]; [done|]. cbn [map slices_at]. rewrite IH. f_equal.
    cbn. by rewrite Hk, Hv, Hl, !slice_nil.
  - rewrite <- Hk in *. set (n := length (kv_keys send)) in *.
    assert (Hn : (0 < n)%nat) by (unfold n; rewrite Hk; cbn; lia).
    pose proof (fun kz H => cut_slices_ok send k kz (lower_bound (kv_keys send) lo) pos Hwf H Hr) as Hcut.
    unfold well_formed in Hwf. rewrite Hfirst in Hcut |- *. rewrite val_pos_0 in Hcut.
    destruct (kv_lens send) as [|l ls].
    + fold n in Hwf. replace (Z.of_nat (length (kv_vals send)) `div` Z.of_nat n) with (Z.of_nat k)
        by (rewrite Hwf, Nat2Z.inj_mul, Z.mul_comm, Z.div_mul; lia).
      pass. by apply Hcut.
    + destruct Hwf as (Hlen & _). fold n in Hlen. pass. by apply Hcut.
Qed.

Lemma DefaultSlicer_spec send k lo ranges
    (Hs : sorted (kv_keys send)) (Hc : contiguous lo ranges) (Hwf : well_formed send k)
    (Hin : Forall (fun x => lo <= x < ranges_end lo ranges) (kv_keys send)) :
  exists sliced, DefaultSlicer send ranges = Ok sliced /\ length sliced = length ranges /\
    concat (map (fun s => kv_keys (snd s)) sliced) = kv_keys send /\
    concat (map (fun s => kv_vals (snd s)) sliced) = kv_vals send /\
    concat (map (fun s => kv_lens (snd s)) sliced) = kv_lens send /\
    forall i r b sl, ranges !! i = Some r -> sliced !! i = Some (b, sl) ->
      (b = true <-> kv_keys sl <> []) /\ Forall (fun x => rg_begin r <= x < rg_end r) (kv_keys sl) /\ well_formed sl k.
Proof.
  set (pos := map (fun r => lower_bound (kv_keys send) (rg_end r)) ranges).
  destruct (slicer_bounds send lo ranges Hs Hin) as [Hfirst Hlast].
  exists (slices_at send k (lower_bound (kv_keys send) lo) pos). split; [by apply DefaultSlicer_run|].
  pose proof (positions_rising (kv_keys send) lo ranges Hs Hc) as Hr. fold pos in Hr, Hlast.
  destruct (slices_at_fields send k (lower_bound (kv_keys send) lo) pos) as (-> & -> & -> & ->).
  split; [unfold pos; by rewrite length_map|].
  split; [|split; [|split; [|intros; by apply (slices_at_lookup send k lo ranges i)]]].
  - rewrite (concat_segs (fun x => x) _ _ _ _ (fun a b H => proj1 H) Hr), Hlast, Hfirst, Nat.sub_0_r. unfold slice. by rewrite drop_0, firstn_all.
  - rewrite (concat_segs _ _ _ _ _ (fun a b H => proj1 (val_pos_bounds send k a b Hwf H)) Hr), Hlast, Hfirst.
    unfold slice. rewrite val_pos_0, drop_0, Nat.sub_0_r, val_pos_all by done. apply firstn_all.
  - rewrite (concat_segs (fun x => x) _ _ _ _ (fun a b H => proj1 H) Hr), Hlast, Hfirst, Nat.sub_0_r. unfold slice. rewrite drop_0.
    apply take_ge. unfold well_formed in Hwf. destruct (kv_lens send); [cbn; lia|]. lia.
Qed.

(** C20: the slicer splits a request among the servers. For sorted keys in
    contiguous ranges, slice [i] has exactly the keys in range [i], marked as
    to be sent when there is one, with their values and lengths; the slices
    together, in order, are the whole request. *)
Theorem DefaultSlicer_partitions send k lo ranges
    (Hs : sorted (kv_keys send)) (Hc : contiguous lo ranges) (Hwf : well_formed send k)
    (Hin : Forall (fun x => lo <= x < ranges_end lo ranges) (kv_keys send)) :
  exists sliced, DefaultSlicer send ranges = Ok sliced /\ length sliced = length ranges /\
    concat (map (fun s => kv_keys (snd s)) sliced) = kv_keys send /\
    concat (map (fun s => kv_vals (snd s)) sliced) = kv_vals send /\
    concat (map (fun s => kv_lens (snd s)) sliced) = kv_lens send /\
    forall i r b sl, ranges !! i = Some r -> sliced !! i = Some (b, sl) ->
      (b = true <-> kv_keys sl <> []) /\ Forall (fun x => rg_begin r <= x < rg_end r) (kv_keys sl) /\ well_formed sl k.
Proof. exact (DefaultSlicer_spec send k lo ranges Hs Hc Hwf Hin). Qed.

Lemma DefaultSlicer_partitions_witness :
  exists sliced, DefaultSlicer (mkKV [1; 5; 7] [10; 11; 50; 70; 71; 72] [2; 1; 3]) [mkRange 0 4; mkRange 4 6; mkRange 6 6; mkRange 6 9]
      = Ok sliced /\ length sliced = 4%nat.
Proof.
  destruct (DefaultSlicer_partitions (mkKV [1; 5; 7] [10; 11; 50; 70; 71; 72] [2; 1; 3]) 0 0
    [mkRange 0 4; mkRange 4 6; mkRange 6 6; mkRange 6 9]) as (sliced & H1 & H2 & _).
  - intros [|[|[|i]]] [|[|[|j]]] x y Hij Hx Hy; cbn in *; try lia; try discriminate; injection Hx as <-; injection Hy as <-; lia.
  - cbn. lia.
  - cbn. split; [reflexivity|]. split; [repeat constructor; lia|lia].
  - repeat constructor; cbn; lia.
  - exists sliced. split; [exact H1|exact H2].
Defined.
