(* ===== verification/KVRequest.v ===== *)
(** How a worker's request reaches the servers: the messages of
    [KVWorker::Send], and what a message carries. *)

From S2P Require Import Prelude State Bytes Memory SArray PsMessage Ps Resender Postoffice Van Customer SimpleApp KVApp Slicer.

(** ** Key ranges *)

Definition server_ranges (n : Z) : list Range := map (key_range n) (seqZ 0 n).
(** The number of keys of a server. *)
Definition range_len (n : Z) : Z := kMaxKey `div` n.

Lemma range_len_pos n : 0 < n < 2 ^ 31 -> 0 < range_len n /\ range_len n * n < 2 ^ 64.
Proof.
  intros Hn. unfold range_len. split; [apply Z.div_str_pos; unfold kMaxKey; lia|].
  pose proof (Z.mul_div_le kMaxKey n ltac:(lia)). unfold kMaxKey in *. lia.
Qed.

Lemma key_range_eq n i : 0 < n < 2 ^ 31 -> 0 <= i < n ->
  key_range n i = mkRange (range_len n * i) (range_len n * (i + 1)).
Proof.
  intros Hn Hi. destruct (range_len_pos n Hn) as [Hq Hlt]. unfold key_range. fold (range_len n).
  by rewrite !u64_small by nia.
Qed.

Lemma server_ranges_from n i m : 0 < n < 2 ^ 31 -> 0 <= i -> i + Z.of_nat m <= n ->
  contiguous (range_len n * i) (map (key_range n) (seqZ i (Z.of_nat m))) /\
  ranges_end (range_len n * i) (map (key_range n) (seqZ i (Z.of_nat m))) = range_len n * (i + Z.of_nat m).
Proof.
  intros Hn. revert i. induction m as [|m IH]; intros i Hi Hle.
  { split; [done|]. unfold ranges_end. cbn [map List.last seqZ]. by rewrite Z.add_0_r. }
  destruct (range_len_pos n Hn) as [Hq Hlt].
  rewrite seqZ_cons by lia. replace (Z.pred (Z.of_nat (S m))) with (Z.of_nat m) by lia.
  cbn [map]. rewrite key_range_eq by lia. destruct (IH (i + 1) ltac:(lia) ltac:(lia)) as [H1 H2].
  replace (Z.succ i) with (i + 1) by lia. split.
  - cbn [contiguous rg_begin rg_end]. split; [done|]. split; [nia|done].
  - unfold ranges_end in *. cbn [map rg_end]. rewrite last_cons_default, H2. f_equal. lia.
Qed.

Lemma server_ranges_contiguous n : 0 < n < 2 ^ 31 ->
  contiguous 0 (server_ranges n) /\ ranges_end 0 (server_ranges n) = range_len n * n.
Proof.
  intros Hn. unfold server_ranges. replace n with (Z.of_nat (Z.to_nat n)) at 2 4 by lia.
  pose proof (server_ranges_from n 0 (Z.to_nat n) Hn ltac:(lia) ltac:(lia)) as [H1 H2].
  rewrite Z.mul_0_r, Z.add_0_l, Z2Nat.id in * by lia. done.
Qed.

Lemma server_ranges_lookup n i r : 0 < n < 2 ^ 31 -> server_ranges n !! i = Some r ->
  Z.of_nat i < n /\ r = mkRange (range_len n * Z.of_nat i) (range_len n * (Z.of_nat i + 1)).
Proof.
  intros Hn Hr. unfold server_ranges in Hr. rewrite list_lookup_fmap in Hr.
  destruct (seqZ 0 n !! i) as [j|] eqn:Hj; [|done]. injection Hr as <-. apply lookup_seqZ in Hj as [-> Hj].
  rewrite Z.add_0_l. split; [lia|]. apply key_range_eq; lia.
Qed.

(** The worker computes the ranges once. *)
Lemma GetServerKeyRanges_ok n s : 0 < n -> po_num_servers (ps_po s) = n ->
  po_server_key_ranges (ps_po s) = [] \/ po_server_key_ranges (ps_po s) = server_ranges n ->
  GetServerKeyRanges s = Ok (server_ranges n, set_po s (po_set_key_ranges (ps_po s) (server_ranges n))).
Proof.
  intros Hn0 Hn Hr. unfold GetServerKeyRanges. ps_step (eq_refl : ps_gets ps_po s = Ok (ps_po s, s)).
  destruct Hr as [Hr|Hr]; rewrite Hr, ?Hn; [done|].
  destruct (server_ranges n) as [|r rs] eqn:E.
  { unfold server_ranges in E. apply (f_equal length) in E. rewrite length_map, length_seqZ in E. cbn in E. lia. }
  unfold mret, ps_ret. do 2 f_equal. rewrite <- Hr. by destruct s as [[]].
Qed.

(** ** Messages *)

(** The parts of a message that data does not touch. *)
Definition header (m : Message) :=
  let t := ms_meta m in
  (mt_head t, mt_app_id t, mt_customer_id t, mt_timestamp t, mt_sender t, mt_recver t,
   (mt_request t, mt_push t, mt_simple_app t, ct_cmd (mt_control t))).

Section message.
Context (w : Z) (valtype : DataType).

Lemma add_kvs_ok kvs m : kv_keys kvs <> [] -> kv_lens kvs = [] -> ms_data m = [] -> mt_data_type (ms_meta m) = [] ->
  exists m', add_kvs w valtype kvs m = Ok m' /\ header m' = header m /\
    ms_data m' = [unwords 8 (kv_keys kvs); unwords w (kv_vals kvs)].
Proof.
  intros Hk Hl Hd Ht. unfold add_kvs, AddData. destruct (kv_keys kvs) as [|x l] eqn:E; [done|].
  rewrite Hd, Ht, Hl. cbn. eexists. split; [reflexivity|]. done.
Qed.

Lemma as_words_unwords w' l : 0 < w' -> Forall (word w') l -> as_words w' (unwords w' l) = Ok l.
Proof.
  intros Hw Hl. unfold as_words. rewrite length_unwords.
  replace (Z.of_nat (length l * Z.to_nat w')) with (Z.of_nat (length l) * w') by lia.
  rewrite Z.div_mul by lia. pass. by rewrite words_unwords.
Qed.

Lemma received_kvs_ok m keys vals : 0 < w -> Forall (word 8) keys -> Forall (word w) vals ->
  ms_data m = [unwords 8 keys; unwords w vals] -> received_kvs w m = Ok (mkKV keys vals []).
Proof.
  intros Hw Hk Hv Hd. unfold received_kvs. rewrite Hd, as_words_unwords by (done || lia).
  cbn [mbind outcome_bind]. by rewrite as_words_unwords.
Qed.
End message.

(** ** Sending *)

(** The slices to be sent, with the ranks of their servers. *)
Fixpoint flagged (i : Z) (sliced : list (bool * KVPairs)) : list (Z * KVPairs) :=
  match sliced with
  | [] => []
  | (b, kvs) :: rest => (if (b : bool) then [(i, kvs)] else []) ++ flagged (i + 1) rest
  end.

(** [m] asks the server of rank [fst p] about the pairs [snd p]. *)
Definition carries (w : Z) (c : Customer) (ts cmd : Z) (push : bool) (p : Z * KVPairs) (m : Message) : Prop :=
  header m = (cmd, cu_app_id c, cu_customer_id c, ts, kEmpty, ServerRankToID (fst p), (true, push, false, EMPTY)) /\
  ms_data m = [unwords 8 (kv_keys (snd p)); unwords w (kv_vals (snd p))].

Section sending.
Context (SendMsg : Message -> Z) (clock : nat -> Z) (junk : Z).
Context (Hsend : forall m, 0 < SendMsg m).
Context (w : Z) (valtype : DataType).

Lemma send_slices_ok c ts cmd push i sliced s : v_resender (ps_van s) = None ->
  Forall (fun p => kv_keys (snd p) <> [] /\ kv_lens (snd p) = []) (flagged i sliced) ->
  exists n new, send_slices SendMsg clock junk w valtype c ts cmd push i sliced s =
      Ok (tt, after_sends s (v_timestamp (ps_van s)) n new) /\
    Forall2 (carries w c ts cmd push) (flagged i sliced) new.
Proof.
  revert i s. induction sliced as [|[b kvs] rest IH]; intros i s Hr Hall; cbn [send_slices flagged] in *.
  { exists (v_send_bytes (ps_van s)), []. split; [|constructor]. unfold after_sends. rewrite app_nil_r. by destruct s as [? []]. }
  destruct b; cbn [app] in *.
  - inversion Hall as [|? ? [Hk Hl] Hrest]; subst. cbn [snd] in *.
    set (m0 := kv_request junk (cu_app_id c) (cu_customer_id c) ts cmd (ServerRankToID i) push).
    destruct (add_kvs_ok w valtype kvs m0 Hk Hl eq_refl eq_refl) as (m & Hm & Hh & Hd).
    set (s1 := after_sends s (v_timestamp (ps_van s)) (u64 (v_send_bytes (ps_van s) + SendMsg m)) [m]).
    assert (Hone : (m ← ps_lift (add_kvs w valtype kvs m0); Send SendMsg clock m;; mret tt : ps unit) s = Ok (tt, s1)).
    { ps_lift_step Hm. by ps_step (Send_plain SendMsg clock Hsend m s Hr). }
    ps_step Hone. destruct (IH (i + 1) s1 Hr Hrest) as (n & new & Hrun & Hnew).
    exists n, (m :: new). split.
    + rewrite Hrun. unfold after_sends, s1. cbn. by rewrite <- app_assoc.
    + constructor; [|done]. split; [by rewrite Hh|done].
  - ps_step (eq_refl : (mret tt : ps unit) s = Ok (tt, s)). by apply IH.
Qed.
End sending.

(** ** The slices to be sent *)

Lemma flagged_elem p i sliced : p ∈ flagged i sliced <->
  exists j, sliced !! j = Some (true, snd p) /\ fst p = i + Z.of_nat j.
Proof.
  revert i. induction sliced as [|[b kvs] rest IH]; intros i; cbn [flagged].
  - split; [by intros ?%elem_of_nil|]. by intros (j & Hj & _).
  - rewrite elem_of_app, IH. split.
    + intros [Hp|(j & Hj & Hf)].
      * destruct b; [|by apply elem_of_nil in Hp]. apply list_elem_of_singleton in Hp as ->. exists 0%nat. cbn. split; [done|lia].
      * exists (S j). cbn. split; [done|lia].
    + intros ([|j] & Hj & Hf).
      * cbn in Hj. injection Hj as -> ->. left. apply list_elem_of_singleton. destruct p; cbn in *. f_equal. lia.
      * right. exists j. split; [done|lia].
Qed.

Lemma flagged_skipped i sliced : num_skipped sliced + Z.of_nat (length (flagged i sliced)) = Z.of_nat (length sliced).
Proof.
  revert i. induction sliced as [|[b kvs] rest IH]; intros i; [done|]. specialize (IH (i + 1)).
  unfold num_skipped in *. cbn [flagged List.filter fst]. destruct b; cbn [negb length app]; lia.
Qed.

(** Slices that are not sent are empty, so those sent make up everything. *)
Lemma concat_flagged (f : Z -> KVPairs -> list Z) i sliced :
  (forall j sl, sliced !! j = Some (false, sl) -> f (i + Z.of_nat j) sl = []) ->
  concat (map (fun p => f (fst p) (snd p)) (flagged i sliced)) = concat (imap (fun j s => f (i + Z.of_nat j) (snd s)) sliced).
Proof.
  revert i. induction sliced as [|[b kvs] rest IH]; intros i Hf; [done|]. cbn [flagged]. rewrite imap_cons. cbn [concat].
  rewrite map_app, concat_app, IH.
  - f_equal.
    + rewrite Z.add_0_r. destruct b; cbn; [by rewrite app_nil_r|]. rewrite <- (Hf 0%nat kvs eq_refl). f_equal. lia.
    + f_equal. apply imap_ext. intros j x _. cbn. f_equal. lia.
  - intros j sl Hj. rewrite <- (Hf (S j) sl Hj). f_equal. lia.
Qed.

Lemma concat_nil_elem {A} (ls : list (list A)) l : concat ls = [] -> l ∈ ls -> l = [].
Proof.
  induction ls as [|l' ls IH]; cbn; [by intros _ ?%elem_of_nil|]. intros [-> H]%app_nil [->|Hl]%elem_of_cons; [done|by apply IH].
Qed.

(** ** A request leaves *)

Section request.
Context (SendMsg : Message -> Z) (clock : nat -> Z) (junk : Z).
Context (Hsend : forall m, 0 < SendMsg m).
Context (w : Z) (valtype : DataType).

(** A worker of [n] servers that is ready for requests. *)
Record worker_ready (n : Z) (k : KVWorker) (s : Ps) (c : Customer) : Prop := {
  wr_servers : 0 < n < 2 ^ 31;
  wr_customer : ps_customers s !! kw_obj k = Some c;
  wr_queue : cu_recv_queue c = [];
  wr_tracker : Z.of_nat (length (cu_tracker c)) < 2 ^ 31;
  wr_num : po_num_servers (ps_po s) = n;
  wr_ranges : po_server_key_ranges (ps_po s) = [] \/ po_server_key_ranges (ps_po s) = server_ranges n;
  wr_ids : exists ids, po_node_ids (ps_po s) !! kServerGroup = Some ids /\ Z.of_nat (length ids) = n;
  wr_plain : v_resender (ps_van s) = None }.

(** A request with keys that the servers have. *)
Record sendable (n : Z) (send : KVPairs) (k : nat) : Prop := {
  sd_sorted : sorted (kv_keys send);
  sd_some : kv_keys send <> [];
  sd_range : Forall (fun x => 0 <= x < range_len n * n) (kv_keys send);
  sd_formed : well_formed send k;
  sd_nolens : kv_lens send = [] }.

(** The keys of slice [j] are those of server [j]. *)
Definition slice_of (n : Z) (kk : nat) (j : Z) (sl : KVPairs) : Prop :=
  kv_lens sl = [] /\ 0 <= j < n /\ Forall (fun x => x `div` range_len n = j) (kv_keys sl) /\ well_formed sl kk.

Lemma slicer_lookup n send kk : 0 < n < 2 ^ 31 -> sendable n send kk ->
  exists sliced, DefaultSlicer send (server_ranges n) = Ok sliced /\ Z.of_nat (length sliced) = n /\
    concat (map (fun s => kv_keys (snd s)) sliced) = kv_keys send /\
    concat (map (fun s => kv_vals (snd s)) sliced) = kv_vals send /\
    forall j b sl, sliced !! j = Some (b, sl) -> (b = true <-> kv_keys sl <> []) /\ slice_of n kk (Z.of_nat j) sl.
Proof.
  intros Hn [Hs Hne Hin Hwf Hnl]. destruct (server_ranges_contiguous n Hn) as [Hc Hend].
  destruct (range_len_pos n Hn) as [Hq Hlt].
  destruct (DefaultSlicer_spec send kk 0 (server_ranges n) Hs Hc Hwf) as (sliced & Hrun & Hlen & Hk & Hv & Hl & Hall).
  { by rewrite Hend. }
  exists sliced. split; [done|]. split; [rewrite Hlen; unfold server_ranges; rewrite length_map, length_seqZ; lia|].
  split; [done|]. split; [done|]. intros j b sl Hj. pose proof (lookup_lt_Some _ _ _ Hj) as Hlt'.
  destruct (lookup_lt_is_Some_2 (server_ranges n) j ltac:(lia)) as [r Hr].
  destruct (Hall j r b sl Hr Hj) as (H1 & H2 & H3). destruct (server_ranges_lookup n j r Hn Hr) as [H4 ->].
  split; [done|]. split; [|split; [lia|split; [|done]]].
  - rewrite Hnl in Hl. apply (concat_nil_elem _ (kv_lens sl) Hl).
    apply list_elem_of_fmap. exists (b, sl). split; [done|]. by eapply list_elem_of_lookup_2.
  - eapply Forall_impl; [exact H2|]. cbn. intros x Hx. symmetry.
    apply (Z.div_unique x (range_len n) (Z.of_nat j) (x - range_len n * Z.of_nat j)); lia.
Qed.

Lemma slicer_flagged n send kk : 0 < n < 2 ^ 31 -> sendable n send kk ->
  exists sliced, DefaultSlicer send (server_ranges n) = Ok sliced /\ Z.of_nat (length sliced) = n /\
    Forall (fun p => kv_keys (snd p) <> [] /\ slice_of n kk (fst p) (snd p)) (flagged 0 sliced) /\
    concat (map (fun p => kv_keys (snd p)) (flagged 0 sliced)) = kv_keys send /\
    concat (map (fun p => kv_vals (snd p)) (flagged 0 sliced)) = kv_vals send.
Proof.
  intros Hn Hsd. destruct (slicer_lookup n send kk Hn Hsd) as (sliced & Hrun & Hlen & Hk & Hv & Hall).
  assert (Hempty : forall j sl, sliced !! j = Some (false, sl) -> kv_keys sl = [] /\ kv_vals sl = []).
  { intros j sl Hj. destruct (Hall j false sl Hj) as [Hb (Hl & _ & _ & Hwf)].
    assert (Hks : kv_keys sl = []) by (destruct (kv_keys sl); [done|by assert (false = true) by (by apply Hb)]).
    split; [done|]. unfold well_formed in Hwf. rewrite Hl, Hks in Hwf. by apply length_zero_iff_nil. }
  exists sliced. split; [done|]. split; [done|]. split; [|split].
  - apply Forall_forall. intros p (j & Hj & Hf)%flagged_elem. destruct (Hall j true (snd p) Hj) as (H1 & H2).
    rewrite Z.add_0_l in Hf. rewrite Hf. split; [by apply H1|done].
  - rewrite <- Hk, (concat_flagged (fun _ sl => kv_keys sl)) by (intros; by eapply Hempty).
    f_equal. apply (imap_const (fun s : bool * KVPairs => kv_keys (snd s))).
  - rewrite <- Hv, (concat_flagged (fun _ sl => kv_vals sl)) by (intros; by eapply Hempty).
    f_equal. apply (imap_const (fun s : bool * KVPairs => kv_vals (snd s))).
Qed.

Lemma flagged_some n send kk sliced : sendable n send kk ->
  concat (map (fun p => kv_keys (snd p)) (flagged 0 sliced)) = kv_keys send -> flagged 0 sliced <> [].
Proof. intros [_ Hne _ _ _] Hk E. rewrite E in Hk. by rewrite <- Hk in Hne. Qed.

(** [Send], for a request that has just been made. *)
Lemma Worker_Send_ok n k s c ts push cmd send kk num :
  0 < n < 2 ^ 31 -> sendable n send kk ->
  ps_customers s !! kw_obj k = Some c -> 0 <= ts -> cu_tracker c !! Z.to_nat ts = Some (num, 0) ->
  po_num_servers (ps_po s) = n ->
  po_server_key_ranges (ps_po s) = [] \/ po_server_key_ranges (ps_po s) = server_ranges n ->
  v_resender (ps_van s) = None ->
  exists sliced s' new,
    DefaultSlicer send (server_ranges n) = Ok sliced /\
    Worker_Send SendMsg clock junk w valtype DefaultSlicer ts push cmd send (k, s) = Ok (tt, (k, s')) /\
    ps_customers s' !! kw_obj k =
      Some (set_tracker c (<[Z.to_nat ts := (num, num_skipped sliced)]> (cu_tracker c))) /\
    ps_sent s' = ps_sent s ++ new /\ Forall2 (carries w c ts cmd push) (flagged 0 sliced) new /\
    po_num_servers (ps_po s') = n.
Proof.
  intros Hn Hsd Hc Hts Ht Hnum Hrng Hr. destruct (slicer_flagged n send kk Hn Hsd) as (sliced & Hsl & Hlen & Hfl & Hk & _).
  pose proof (flagged_skipped 0 sliced) as Hskip. pose proof (flagged_some n send kk sliced Hsd Hk) as Hsome.
  assert (Hpos : (0 < length (flagged 0 sliced))%nat) by (destruct (flagged 0 sliced); [done|cbn; lia]).
  unfold Worker_Send. st_step (eq_refl : kw_gets kw_obj (k, s) = Ok (kw_obj k, (k, s))).
  set (s1 := set_po s (po_set_key_ranges (ps_po s) (server_ranges n))).
  st_step (lift_ps_Ok _ k _ _ _ (GetServerKeyRanges_ok n s ltac:(lia) Hnum Hrng)). fold s1. st_lift_step Hsl.
  set (c1 := set_tracker c (<[Z.to_nat ts := (num, num_skipped sliced)]> (cu_tracker c))).
  set (s2 := with_customer s1 (kw_obj k) c1).
  assert (Hadd : AddResponse (kw_obj k) ts (num_skipped sliced) s1 = Ok (tt, s2)).
  { unfold num_skipped in *. apply (AddResponse_ok _ _ _ c num 0); [done..|lia]. }
  st_step (lift_ps_Ok _ k _ _ _ Hadd). rewrite (proj2 (Z.eqb_neq _ _)) by lia.
  st_step (eq_refl : (mret tt : kv unit) (k, s2) = Ok (tt, (k, s2))).
  assert (Hc2 : ps_customers s2 !! kw_obj k = Some c1) by apply with_customer_lookup.
  st_step (lift_ps_Ok _ k _ _ _ (get_customer_ok _ _ _ Hc2)).
  destruct (send_slices_ok SendMsg clock junk Hsend w valtype c1 ts cmd push 0 sliced s2 Hr) as (b & new & Hrun & Hnew).
  { eapply Forall_impl; [exact Hfl|]. cbn. intros p (H1 & H2 & _). done. }
  exists sliced. eexists _, new. split; [done|]. split; [exact (lift_ps_Ok _ k _ _ _ Hrun)|].
  split; [done|]. split; [done|]. split; [exact Hnew|done].
Qed.
End request.
