(* ===== verification/KVPull.v ===== *)
(** A pull: the callback of [KVWorker::Pull_] puts the answers of the servers
    together again, in whatever order they arrive. *)

From S2P Require Import Prelude State Bytes Memory SArray PsMessage Ps Resender Postoffice Van Customer SimpleApp KVApp Slicer KVRequest.

(** ** Parts of a sorted list of keys *)

Definition part_front (p : KVPairs) : Z := List.hd 0 (kv_keys p).

Lemma sorted_app l1 l2 : sorted (l1 ++ l2) ->
  sorted l1 /\ sorted l2 /\ forall x y, x ∈ l1 -> y ∈ l2 -> x < y.
Proof.
  intros Hs. split; [|split].
  - intros i j x y Hij Hx Hy. apply (Hs i j); [done|by apply lookup_app_l_Some..].
  - intros i j x y Hij Hx Hy. apply (Hs (length l1 + i) (length l1 + j))%nat; [lia| |];
      rewrite lookup_app_r by lia; [by replace (length l1 + i - length l1)%nat with i by lia|
        by replace (length l1 + j - length l1)%nat with j by lia].
  - intros x y (i & Hi)%list_elem_of_lookup (j & Hj)%list_elem_of_lookup.
    apply (Hs i (length l1 + j)%nat); [apply lookup_lt_Some in Hi; lia|by apply lookup_app_l_Some|].
    rewrite lookup_app_r by lia. by replace (length l1 + j - length l1)%nat with j by lia.
Qed.

Lemma last_elem {A} (l : list A) (d : A) : l <> [] -> List.last l d ∈ l.
Proof.
  intros Hl. destruct (exists_last Hl) as (l' & x & ->). rewrite last_last. apply elem_of_app. right. by left.
Qed.

(** The range of the keys of a part. *)
Lemma FindRange_part pre ks post : sorted (pre ++ ks ++ post) -> ks <> [] ->
  FindRange (pre ++ ks ++ post) (List.hd 0 ks) (List.last ks 0 + 1) =
    (Z.of_nat (length pre), Z.of_nat (length pre) + Z.of_nat (length ks)).
Proof.
  intros Hs Hne. destruct (sorted_app _ _ Hs) as (_ & Hs2 & Hpre). destruct (sorted_app _ _ Hs2) as (Hs3 & _ & Hpost).
  destruct (exists_last Hne) as (ks' & z & Hz). pose proof (last_elem ks 0 Hne) as Hlast.
  assert (Hle : forall x, x ∈ ks -> List.hd 0 ks <= x <= List.last ks 0).
  { intros x Hx. split.
    - destruct ks as [|a ks1]; [done|]. cbn. apply elem_of_cons in Hx as [->|Hx]; [lia|].
      destruct (sorted_app [a] ks1 Hs3) as (_ & _ & H). specialize (H a x ltac:(left) Hx). lia.
    - rewrite Hz, last_last in *. apply elem_of_app in Hx as [Hx|Hx%list_elem_of_singleton]; [|lia].
      destruct (sorted_app ks' [z] Hs3) as (_ & _ & H). specialize (H x z Hx ltac:(left)). lia. }
  assert (Hhd : List.hd 0 ks ∈ ks) by (destruct ks; [done|left]).
  unfold FindRange. rewrite (proj2 (Z.leb_gt _ _)) by (specialize (Hle _ Hhd); lia). f_equal.
  - f_equal. eapply splits_unique; [by apply lower_bound_splits|]. split; [rewrite length_app; lia|].
    intros j x Hx. split; intros Hj.
    + rewrite lookup_app_l in Hx by done. apply Hpre; [by eapply list_elem_of_lookup_2|]. apply elem_of_app. by left.
    + destruct (decide (j < length pre)%nat) as [|Hge]; [done|]. exfalso. rewrite lookup_app_r in Hx by lia.
      apply list_elem_of_lookup_2, elem_of_app in Hx as [Hx|Hx]; [specialize (Hle x Hx); lia|].
      specialize (Hpost _ _ Hhd Hx). lia.
  - rewrite <- Nat2Z.inj_add. f_equal. eapply splits_unique; [by apply lower_bound_splits|].
    split; [rewrite !length_app; lia|]. intros j x Hx. split; intros Hj.
    + destruct (decide (j < length pre)%nat) as [Hlt|Hge].
      * rewrite lookup_app_l in Hx by done. apply list_elem_of_lookup_2 in Hx.
        specialize (Hpre x _ Hx ltac:(apply elem_of_app; by left)). specialize (Hle _ Hhd). lia.
      * rewrite lookup_app_r, lookup_app_l in Hx by lia. apply list_elem_of_lookup_2 in Hx. specialize (Hle x Hx). lia.
    + destruct (decide (j < length pre + length ks)%nat) as [|Hge]; [done|]. exfalso.
      rewrite !lookup_app_r in Hx by lia. apply list_elem_of_lookup_2 in Hx.
      specialize (Hpost _ x Hlast Hx). lia.
Qed.

(** [p] is a part of the request for [keys], with a value for each key. *)
Definition part_of (keys : list Z) (p : KVPairs) : Prop :=
  kv_keys p <> [] /\ length (kv_vals p) = length (kv_keys p) /\
  exists pre post, keys = pre ++ kv_keys p ++ post.

Definition total_len (ls : list (list Z)) : Z := Z.of_nat (length (concat ls)).

Lemma pull_totals_ok keys kvs : sorted keys -> Forall (fun x => 0 <= x < 2 ^ 64 - 1) keys -> Z.of_nat (length keys) < 2 ^ 64 ->
  Forall (part_of keys) kvs ->
  pull_totals keys false kvs = Ok (total_len (map kv_keys kvs), total_len (map kv_vals kvs)).
Proof.
  intros Hs Hb Hlen. unfold total_len. induction 1 as [|p kvs Hp Hall IH]; [done|].
  destruct Hp as (Hne & Hv & pre & post & Hk). cbn [pull_totals map concat].
  assert (Hlast : List.last (kv_keys p) 0 ∈ keys).
  { rewrite Hk. apply elem_of_app. right. apply elem_of_app. left. by apply last_elem. }
  pose proof (proj1 (Forall_forall _ _) Hb _ Hlast) as Hl. cbn beta in Hl.
  rewrite (u64_small (List.last (kv_keys p) 0 + 1)) by lia.
  pose proof (FindRange_part pre (kv_keys p) post) as Hfr. rewrite <- Hk in Hfr. rewrite Hfr by done. cbn [fst snd].
  destruct (kv_keys p) as [|x ks] eqn:E; [done|]. rewrite <- E in *.
  rewrite (CHECK_true (negb (Nat.eqb _ 0))) by (rewrite E; done). cbn [mbind outcome_bind].
  assert (Hle : (length pre + length (kv_keys p) <= length keys)%nat) by (rewrite Hk, !length_app; lia).
  rewrite u64_small by lia. do 1 pass. cbn [negb orb CHECK mbind outcome_bind].
  unfold mbind in IH. rewrite IH. cbn [mbind outcome_bind]. rewrite !length_app, !Nat2Z.inj_add. by pass.
Qed.

(** ** Order *)

Definition before_all (x y : KVPairs) : Prop := part_front x < part_front y.

Lemma parts_in_order parts : Forall (fun p => kv_keys p <> []) parts -> sorted (concat (map kv_keys parts)) ->
  StronglySorted before_all parts.
Proof.
  induction 1 as [|p parts Hp Hall IH]; intros Hs; [constructor|]. cbn [map concat] in Hs.
  destruct (sorted_app _ _ Hs) as (_ & Hs2 & Hlt). constructor; [by apply IH|].
  apply Forall_forall. intros q Hq. apply Hlt; [unfold part_front; destruct (kv_keys p); [done|left]|].
  pose proof (proj1 (Forall_forall _ _) Hall q Hq) as Hqne. cbn beta in Hqne. apply list_elem_of_In, in_concat. exists (kv_keys q). split.
  - apply in_map. by apply list_elem_of_In.
  - unfold part_front. destruct (kv_keys q); [done|]. by left.
Qed.

Lemma in_order_unique parts x y : StronglySorted before_all parts -> x ∈ parts -> y ∈ parts -> part_front x = part_front y -> x = y.
Proof.
  intros Hs Hx Hy Hf. induction Hs as [|p parts Hs IH Hp]; [by apply elem_of_nil in Hx|].
  rewrite Forall_forall in Hp. apply elem_of_cons in Hx as [->|Hx], Hy as [->|Hy]; [done| | |by apply IH].
  - specialize (Hp y Hy). unfold before_all in Hp. lia.
  - specialize (Hp x Hx). unfold before_all in Hp. lia.
Qed.

Lemma sort_restores kvs parts : kvs ≡ₚ parts -> StronglySorted before_all parts -> sort_by front_before kvs = parts.
Proof.
  intros Hp Hs. apply (StronglySorted_unique_strong (fun x y => front_before y x = false)).
  - intros x y Hx Hy H1 H2. rewrite sort_by_perm, Hp in Hx. unfold front_before in *. b2p.
    apply (in_order_unique parts); [done..|]. unfold part_front. lia.
  - apply sort_by_ordered.
    + intros x y z. unfold front_before. intros. b2p. lia.
    + intros x y. unfold front_before. intros. b2p. lia.
  - clear Hp. induction Hs as [|p parts Hs IH Hp]; constructor; [done|]. eapply Forall_impl; [exact Hp|].
    intros y. unfold before_all, front_before, part_front. intros. b2p. lia.
  - by rewrite sort_by_perm.
Qed.

(** ** Filling the destination *)

Lemma splice_behind {A} off (p q l : list A) : (off + length p <= length l)%nat ->
  splice (off + length p) q (splice off p l) = splice off (p ++ q) l.
Proof.
  intros Hle. assert (Hlen : length (take off l ++ p) = (off + length p)%nat) by (rewrite length_app, length_take; lia).
  unfold splice. rewrite (app_assoc (take off l) p). rewrite take_app_length' by done.
  rewrite drop_app_ge by lia. rewrite Hlen, drop_drop, length_app, <- !app_assoc. do 4 f_equal. lia.
Qed.

Lemma copy_behind_ok off parts dst : (off + length (concat parts) <= length dst)%nat ->
  copy_behind off parts dst = Ok (splice off (concat parts) dst).
Proof.
  revert off dst. induction parts as [|p parts IH]; intros off dst Hle; cbn [copy_behind concat].
  - f_equal. unfold splice. cbn. by rewrite Nat.add_0_r, take_drop.
  - cbn [concat] in Hle. rewrite length_app in Hle. rewrite DEFINED_true by (apply Nat.leb_le; lia). cbn [mbind outcome_bind].
    rewrite IH by (rewrite length_splice; lia). f_equal. apply splice_behind. lia.
Qed.

Lemma splice_all {A} (bs l : list A) : length bs = length l -> splice 0 bs l = bs.
Proof. intros H. unfold splice. rewrite take_0, drop_ge by lia. by rewrite app_nil_r. Qed.

(** ** The callback *)

(** The worker once the pull [ts] into [vals] has ended with [out]. *)
Definition pulled (k : KVWorker) (ts vals : Z) (out : list Z) (cb : option Z) : KVWorker :=
  mkKVWorker (kw_obj k) (delete ts (kw_recv_kvs k)) (delete ts (kw_callbacks k)) (kw_zpull k)
    (<[vals := out]> (kw_out k)) (kw_called k ++ match cb with Some c => [c] | None => [] end).

Lemma total_len_perm {A} (f : A -> list Z) (l l' : list A) : l ≡ₚ l' -> total_len (map f l) = total_len (map f l').
Proof. intros H. unfold total_len. f_equal. rewrite !length_concat, !map_map. apply Permutation_list_sum. by rewrite H. Qed.

Lemma sized_ok old n : old = [] \/ length old = n -> exists l, sized old (Z.of_nat n) = Ok l /\ length l = n.
Proof.
  intros H. unfold sized. destruct old as [|x old].
  - eexists. split; [reflexivity|]. rewrite length_replicate. lia.
  - destruct H as [|H]; [done|]. exists (x :: old). split; [|done]. by rewrite H, Z.eqb_refl.
Qed.

Section callback.
Context (keys : list Z) (parts kvs : list KVPairs).
Context (Hsorted : sorted keys) (Hrange : Forall (fun x => 0 <= x < 2 ^ 64 - 1) keys).
Context (Hlen : Z.of_nat (length keys) < 2 ^ 64).
Context (Hperm : kvs ≡ₚ parts) (Hparts : Forall (part_of keys) parts).
Context (Hcat : concat (map kv_keys parts) = keys).

Lemma parts_values : length (concat (map kv_vals parts)) = length keys.
Proof.
  rewrite <- Hcat, !length_concat, !map_map. f_equal. apply map_ext_in. intros p Hin%list_elem_of_In.
  by destruct (proj1 (Forall_forall _ _) Hparts p Hin) as (_ & H & _).
Qed.

Lemma run_pull_ok k s ts vals cb old : kw_zpull k = false -> kw_recv_kvs k !! ts = Some kvs ->
  kw_out k !! vals = Some old -> old = [] \/ length old = length keys ->
  run_pull ts keys vals None cb (k, s) =
    Ok (tt, (set_callbacks (pulled k ts vals (concat (map kv_vals parts)) cb) (kw_callbacks k), s)).
Proof using All.
  intros Hz Hkvs Hout Hold. pose proof parts_values as Hv. unfold run_pull.
  st_step (eq_refl : kw_gets id (k, s) = Ok (k, (k, s))). rewrite Hkvs. cbn [default from_option id].
  rewrite bool_decide_false by (by intros [? ?]).
  assert (Htot : pull_totals keys false kvs = Ok (Z.of_nat (length keys), Z.of_nat (length keys))).
  { rewrite pull_totals_ok by (done || by rewrite Hperm). rewrite !(total_len_perm _ kvs parts Hperm).
    unfold total_len. by rewrite Hcat, Hv. }
  st_lift_step Htot. cbn [fst snd]. st_lift_step (CHECK_true (Z.of_nat (length keys) =? Z.of_nat (length keys)) (Z.eqb_refl _)).
  st_lift_step (proj2 (deref_Ok_iff _ _) Hout).
  destruct (sized_ok old (length keys) Hold) as (l & Hl & Hll). st_lift_step Hl. rewrite Hz.
  rewrite (sort_restores kvs parts Hperm).
  2:{ apply parts_in_order; [|by rewrite Hcat]. eapply Forall_impl; [exact Hparts|]. by intros p (H & _). }
  assert (Hcopy : copy_behind 0 (map kv_vals parts) l = Ok (concat (map kv_vals parts)))
    by (rewrite copy_behind_ok by lia; by rewrite splice_all by lia).
  unfold mbind, stm_bind, st_lift, kw_modify, st_modify, mret, stm_ret. rewrite Hcopy. cbn.
  destruct cb; cbn; unfold pulled, set_callbacks; cbn; rewrite ?app_nil_r; done.
Qed.

Lemma RunCallback_pull k s ts vals cb old :
  kw_callbacks k !! ts = Some (PullCallback keys vals None cb) -> kw_zpull k = false -> kw_recv_kvs k !! ts = Some kvs ->
  kw_out k !! vals = Some old -> old = [] \/ length old = length keys ->
  RunCallback ts (k, s) = Ok (tt, (pulled k ts vals (concat (map kv_vals parts)) cb, s)).
Proof using All.
  intros Hcb Hz Hkvs Hout Hold. unfold RunCallback. st_step (eq_refl : kw_gets id (k, s) = Ok (k, (k, s))). rewrite Hcb.
  st_step (run_pull_ok k s ts vals cb old Hz Hkvs Hout Hold). done.
Qed.
End callback.
