(* ===== verification/KVServe.v ===== *)
(** What a server answers to a slice of a request, and how a worker takes the
    answers in. *)

From S2P Require Import Prelude State Bytes Memory SArray PsMessage Ps Resender Postoffice Van Customer SimpleApp KVApp Slicer KVRequest KVPull.

(** ** Answers *)

(** [r] answers the request [ts]: a pull with the pairs [p], a push with
    nothing. *)
Definition answer_with (w ts : Z) (o : option KVPairs) (r : Message) : Prop :=
  mt_timestamp (ms_meta r) = ts /\ mt_request (ms_meta r) = false /\ mt_simple_app (ms_meta r) = false /\ ends r = false /\
  match o with
  | Some p => mt_push (ms_meta r) = false /\ ms_data r <> [] /\ received_kvs w r = Ok p
  | None => mt_push (ms_meta r) = true
  end.

(** What the worker keeps of it. *)
Definition keep (ts : Z) (k : KVWorker) (o : option KVPairs) : KVWorker :=
  match o with
  | Some p => set_recv_kvs k (<[ts := default [] (kw_recv_kvs k !! ts) ++ [p]]> (kw_recv_kvs k))
  | None => k
  end.

Lemma keep_obj ts k o : kw_obj (keep ts k o) = kw_obj k.
Proof. by destruct o. Qed.

Lemma keep_parts ts parts : forall k, parts <> [] ->
  fold_left (keep ts) (map Some parts) k =
    set_recv_kvs k (<[ts := default [] (kw_recv_kvs k !! ts) ++ parts]> (kw_recv_kvs k)).
Proof.
  induction parts as [|p parts IH]; intros k Hne; [done|]. cbn [map fold_left keep]. destruct parts as [|q parts]; [done|].
  rewrite IH by done. unfold set_recv_kvs. cbn. rewrite lookup_insert_eq. cbn. by rewrite insert_insert_eq, <- app_assoc.
Qed.

Lemma keep_acks {A} ts (l : list A) k : fold_left (keep ts) (map (fun _ => None) l) k = k.
Proof. by induction l. Qed.

Section answers.
Context (w n ts : Z) (simple : Message -> kv unit) (Hts : 0 <= ts) (Hn : n < 2 ^ 31).

(** An answer is kept; the last one runs the callback. *)
Lemma Worker_Process_answer k s c o r j : answer_with w ts o r ->
  ps_customers s !! kw_obj k = Some c -> cu_tracker c !! Z.to_nat ts = Some (n, j) -> po_num_servers (ps_po s) = n ->
  Worker_Process w simple r (k, s) = if j =? n - 1 then RunCallback ts (keep ts k o, s) else Ok (tt, (keep ts k o, s)).
Proof.
  intros (Ht & Hreq & Hsimple & Hend & Ho) Hc Htr Hnum. unfold Worker_Process. rewrite Hsimple, Ht.
  match goal with |- (?x ≫= _) _ = _ => set (m1 := x) end.
  assert (Hkeep : m1 (k, s) = Ok (tt, (keep ts k o, s))).
  { unfold m1. destruct o as [p|]; [|by rewrite Ho]. destruct Ho as (Hpush & Hdata & Hrecv). rewrite Hpush.
    assert (Hd : Nat.eqb (length (ms_data r)) 0 = false) by (destruct (ms_data r); done). rewrite Hd. cbn [negb andb].
    by st_lift_step Hrecv. }
  st_step Hkeep. st_step (eq_refl : kw_gets kw_obj (keep ts k o, s) = Ok (kw_obj (keep ts k o), (keep ts k o, s))).
  rewrite keep_obj. st_step (lift_ps_Ok _ (keep ts k o) _ _ _ (NumResponse_ok _ _ _ _ _ _ Hc Hts Htr)).
  st_step (lift_ps_Ok (ps_gets ps_po) (keep ts k o) s _ _ eq_refl). rewrite Hnum. by destruct (j =? n - 1).
Qed.

Lemma receive_answers rs : forall os k s c j k2,
  Forall2 (answer_with w ts) os rs -> rs <> [] ->
  ps_customers s !! kw_obj k = Some c -> cu_recv_queue c = [] -> cu_tracker c !! Z.to_nat ts = Some (n, j) ->
  0 <= j -> j + Z.of_nat (length rs) = n -> po_num_servers (ps_po s) = n ->
  (forall s', RunCallback ts (fold_left (keep ts) os k, s') = Ok (tt, (k2, s'))) ->
  exists s' c', receive_all (kw_obj k) (Worker_Process w simple) rs (k, s) = Ok (tt, (k2, s')) /\
    ps_customers s' !! kw_obj k = Some c' /\ cu_tracker c' !! Z.to_nat ts = Some (n, n).
Proof.
  induction rs as [|r rs IH]; intros os k s c j k2 Hall Hne Hc Hq Ht Hj Hlen Hnum Hrun; [done|].
  destruct os as [|o os]; [by inversion Hall|]. apply Forall2_cons in Hall as [Hp Hall']. cbn [length] in Hlen.
  pose proof (Worker_Process_answer k s c o r j Hp Hc Ht Hnum) as Hproc. destruct Hp as (Hts' & Hreq & _ & Hend & _).
  assert (Hans : answers c 1 r).
  { split; [done|]. right. rewrite Hts'. split; [done|]. exists n, j. split; [done|lia]. }
  assert (Hcnt : cu_tracker (counted c r) !! Z.to_nat ts = Some (n, j + 1)).
  { rewrite counted_lookup, Ht by (done || right; by rewrite Hts'). cbn. unfold responds_to. by rewrite Hreq, Hts', Z.eqb_refl. }
  assert (Hq' : cu_recv_queue (counted c r) = []) by (unfold counted; by destruct (mt_request _)).
  unfold receive_all. cbn [st_forM]. cbn [fold_left] in Hrun. destruct rs as [|r' rs].
  - assert (os = []) as -> by (by inversion Hall'). rewrite (proj2 (Z.eqb_eq j (n - 1))), Hrun in Hproc by (cbn in Hlen; lia).
    st_step (receive_one _ _ _ _ _ _ _ _ 0 Hc Hq Hans Hproc Hc). eexists _, _. split; [reflexivity|].
    split; [apply with_customer_lookup|]. rewrite Hcnt. do 2 f_equal. cbn in Hlen. lia.
  - rewrite (proj2 (Z.eqb_neq j (n - 1))) in Hproc by (cbn in Hlen; lia).
    st_step (receive_one _ _ _ _ _ _ _ _ 0 Hc Hq Hans Hproc Hc). rewrite <- (keep_obj ts k o).
    apply (IH os (keep ts k o) _ (counted c r) (j + 1) k2); rewrite ?keep_obj;
      [done|done|apply with_customer_lookup|done|done|lia|cbn in *; lia|done|done].
Qed.
End answers.

(** ** Servers *)

(** The values that a push adds. *)
Definition added (plus : Z -> Z -> Z) (store : gmap Z Z) (kvs : list (Z * Z)) : gmap Z Z :=
  foldl (fun st kv => <[fst kv := plus (store_get st (fst kv)) (snd kv)]> st) store kvs.

Lemma store_add_ok plus keys : forall store vals, length keys = length vals ->
  store_add plus store keys vals = Ok (added plus store (zip keys vals)).
Proof.
  induction keys as [|x keys IH]; intros store [|v vals] Hlen; try done. cbn [store_add]. rewrite IH by (cbn in Hlen; lia). done.
Qed.

Lemma added_lookup plus kvs : forall store, NoDup (map fst kvs) ->
  (forall x v, (x, v) ∈ kvs -> store_get (added plus store kvs) x = plus (store_get store x) v) /\
  (forall x, x ∉ map fst kvs -> store_get (added plus store kvs) x = store_get store x).
Proof.
  induction kvs as [|[y u] kvs IH]; intros store Hnd; [split; [by intros x v ?%elem_of_nil|done]|].
  cbn [map fst] in *. apply NoDup_cons in Hnd as [Hy Hnd]. destruct (IH (<[y := plus (store_get store y) u]> store) Hnd) as [H1 H2].
  split.
  - intros x v [[= -> ->]|Hin]%elem_of_cons.
    + cbn [added foldl fst snd]. unfold added in H2. rewrite H2 by done. unfold store_get. by rewrite lookup_insert_eq.
    + cbn [added foldl fst snd]. unfold added in H1. rewrite (H1 x v Hin). f_equal. unfold store_get. rewrite lookup_insert_ne; [done|].
      intros ->. apply Hy. apply list_elem_of_fmap. by exists (x, v).
  - intros x Hx. rewrite not_elem_of_cons in Hx. destruct Hx as [Hne Hx]. cbn [added foldl fst snd]. unfold added in H2.
    rewrite H2 by done. unfold store_get. by rewrite lookup_insert_ne.
Qed.

Section servers.
Context (SendMsg : Message -> Z) (clock : nat -> Z) (junk : Z).
Context (Hsend : forall m, 0 < SendMsg m).
Context (w : Z) (valtype : DataType) (plus : Z -> Z -> Z) (Hw : 0 < w).

(** [Response]. *)
Lemma Server_Response_ok obj c req res s : ps_customers s !! obj = Some c -> v_resender (ps_van s) = None ->
  kv_lens res = [] ->
  exists s' r, Server_Response SendMsg clock junk w valtype obj req res s = Ok (tt, s') /\ ps_sent s' = ps_sent s ++ [r] /\
    header r = (km_cmd req, cu_app_id c, km_customer_id req, km_timestamp req, kEmpty, km_sender req,
                (false, km_push req, false, EMPTY)) /\
    (kv_keys res <> [] -> ms_data r = [unwords 8 (kv_keys res); unwords w (kv_vals res)]).
Proof.
  intros Hc Hr Hl. unfold Server_Response. ps_step (get_customer_ok _ _ _ Hc).
  match goal with |- context [add_kvs w valtype res ?m] => set (m0 := m) end.
  assert (Hadd : exists r, add_kvs w valtype res m0 = Ok r /\ header r = header m0 /\
    (kv_keys res <> [] -> ms_data r = [unwords 8 (kv_keys res); unwords w (kv_vals res)])).
  { destruct (kv_keys res) as [|x l] eqn:E.
    - exists m0. unfold add_kvs. by rewrite E.
    - destruct (add_kvs_ok w valtype res m0) as (r & H1 & H2 & H3); [by rewrite E|done..|]. exists r. by rewrite <- E. }
  destruct Hadd as (r & Hadd & Hh & Hd).
  ps_lift_step Hadd. ps_step (Send_plain SendMsg clock Hsend r s Hr). eexists _, r. split; [reflexivity|].
  split; [done|]. split; [by rewrite Hh|done].
Qed.

Section request.
Context (obj : Z) (c : Customer) (store : gmap Z Z) (me : Z) (m : Message) (ts cmd app cust i : Z) (push : bool).
Context (keys vals : list Z) (s : Ps) (simple : Message -> stm (gmap Z Z * Ps) unit).
Context (Hc : ps_customers s !! obj = Some c) (Hr : v_resender (ps_van s) = None).
Context (Hh : header m = (cmd, app, cust, ts, kEmpty, i, (true, push, false, EMPTY))).
Context (Hd : ms_data m = [unwords 8 keys; unwords w vals]).
Context (Hne : keys <> []) (Hkeys : Forall (word 8) keys) (Hvals : Forall (word w) vals).

(** The handle sees the request and the pairs of the message. *)
Lemma Server_Process_request handle :
  Server_Process w handle simple (from me m) (store, s) =
    handle (mkKVMeta cmd push me ts cust (mt_key (ms_meta m))) (mkKV keys vals []) (store, s).
Proof using Hh Hd Hw Hkeys Hvals.
  unfold header in Hh. injection Hh as Hcmd Happ Hcust Hts Hsnd Hrec Hreq Hpush Hsimple Hctl.
  unfold Server_Process. cbn [from ms_meta ms_data set_ends mt_simple_app mt_head mt_push mt_sender mt_timestamp mt_customer_id mt_key].
  rewrite Hsimple, Hcmd, Hpush, Hts, Hcust, Hd. cbn [length].
  assert (Hrecv : received_kvs w (from me m) = Ok (mkKV keys vals [])) by (by apply received_kvs_ok).
  assert (Hdata : (CHECK (Nat.leb 2 3);; d ← received_kvs w (from me m);
     CHECK (Nat.leb 2 2 || Nat.eqb (length (kv_lens d)) (length (kv_keys d)));; Ok d) = Ok (mkKV keys vals []))
    by (rewrite Hrecv; done).
  by st_lift_step Hdata.
Qed.

(** A server with the default handle answers the keys of a pull ... *)
Lemma serve_pull : push = false -> (forall x, word w (store_get store x)) ->
  exists s' r, Server_Process w (KVServerDefaultHandle SendMsg clock junk w valtype plus obj) simple (from me m) (store, s) =
      Ok (tt, (foldl store_touch store keys, s')) /\
    ps_sent s' = ps_sent s ++ [r] /\ mt_recver (ms_meta r) = me /\ mt_customer_id (ms_meta r) = cust /\
    answer_with w ts (Some (mkKV keys (map (store_get store) keys) [])) r.
Proof using All.
  intros Hp Hstore. rewrite Server_Process_request, Hp. unfold KVServerDefaultHandle.
  st_step (eq_refl : st_gets fst (store, s) = Ok (store, (store, s))). cbn [km_push kv_keys].
  set (store' := foldl store_touch store keys).
  st_step (eq_refl : st_modify (fun s : gmap Z Z * Ps => (store', snd s)) (store, s) = Ok (tt, (store', s))).
  set (res := mkKV keys (map (store_get store) keys) []). set (req := mkKVMeta _ _ _ _ _ _).
  destruct (Server_Response_ok obj c req res s Hc Hr eq_refl) as (s' & r & Hresp & Hsent & Hhr & Hdr). specialize (Hdr Hne).
  exists s', r. split; [exact (lift_ps_Ok _ store' _ _ _ Hresp)|]. split; [done|].
  unfold header in Hhr. cbn in Hhr. injection Hhr as _ _ Hcust' Hts' _ Hrec' Hreq' Hpush' Hsimple' Hctl'.
  rewrite Hrec', Hcust'. split; [done|]. split; [done|].
  unfold answer_with, ends. rewrite Hts', Hreq', Hpush', Hsimple', Hctl', Hdr. repeat (split; [done|]).
  apply (received_kvs_ok w r _ _ Hw Hkeys); [|done]. apply Forall_map, Forall_true. done.
Qed.

(** ... and adds the values of a push. *)
Lemma serve_push : push = true -> length keys = length vals ->
  exists s' r, Server_Process w (KVServerDefaultHandle SendMsg clock junk w valtype plus obj) simple (from me m) (store, s) =
      Ok (tt, (added plus store (zip keys vals), s')) /\
    ps_sent s' = ps_sent s ++ [r] /\ mt_recver (ms_meta r) = me /\ mt_customer_id (ms_meta r) = cust /\
    answer_with w ts None r.
Proof using All.
  intros Hp Hlen. rewrite Server_Process_request, Hp. unfold KVServerDefaultHandle.
  st_step (eq_refl : st_gets fst (store, s) = Ok (store, (store, s))). cbn [km_push kv_keys kv_vals].
  st_lift_step (CHECK_true (Nat.eqb (length keys) (length vals)) (proj2 (Nat.eqb_eq _ _) Hlen)).
  st_lift_step (store_add_ok plus keys store vals Hlen). set (store' := added plus store (zip keys vals)).
  st_step (eq_refl : st_modify (fun s : gmap Z Z * Ps => (store', snd s)) (store, s) = Ok (tt, (store', s))).
  set (req := mkKVMeta _ _ _ _ _ _).
  destruct (Server_Response_ok obj c req KVPairs_empty s Hc Hr eq_refl) as (s' & r & Hresp & Hsent & Hhr & _).
  exists s', r. split; [exact (lift_ps_Ok _ store' _ _ _ Hresp)|]. split; [done|].
  unfold header in Hhr. cbn in Hhr. injection Hhr as _ _ Hcust' Hts' _ Hrec' Hreq' Hpush' Hsimple' Hctl'.
  rewrite Hrec', Hcust'. split; [done|]. split; [done|].
  unfold answer_with, ends. by rewrite Hts', Hreq', Hpush', Hsimple', Hctl'.
Qed.
End request.
End servers.
