(* ===== verification/KVRoundtrip.v ===== *)
(** Pushes and pulls from end to end: the worker's call, the servers that answer
    it in any order, and the answers that reach the worker in any order. *)

From S2P Require Import Prelude State Bytes Memory SArray PsMessage Ps Resender Postoffice Van Customer SimpleApp KVApp Slicer KVRequest KVPull KVServe.

(** ** The servers of a cluster *)

(** The servers by rank, each with its store. *)
Definition Servers : Type := Z -> gmap Z Z * Ps.
Definition set_server (sv : Servers) (i : Z) (x : gmap Z Z * Ps) : Servers := fun j => if j =? i then x else sv j.

Section cluster.
Context (SendMsg : Message -> Z) (clock : nat -> Z) (junk : Z).
Context (w : Z) (valtype : DataType) (plus : Z -> Z -> Z).
Context (sobj : Z) (simple : Message -> stm (gmap Z Z * Ps) unit) (me : Z).

(** The server that a message of node [me] is for processes it; the result is
    what it sends. *)
Definition serve (m : Message) (sv : Servers) : outcome (list Message * Servers) :=
  let i := IDtoRank (mt_recver (ms_meta m)) in
  x ← Server_Process w (KVServerDefaultHandle SendMsg clock junk w valtype plus sobj) simple (from me m) (sv i);
  Ok (drop (length (ps_sent (snd (sv i)))) (ps_sent (snd (snd x))), set_server sv i (snd x)).

Fixpoint serve_all (ms : list Message) (sv : Servers) : outcome (list Message * Servers) :=
  match ms with
  | [] => Ok ([], sv)
  | m :: ms' => x ← serve m sv; y ← serve_all ms' (snd x); Ok (fst x ++ fst y, snd y)
  end.

(** What is true of each server's step is true of the whole, when no server is
    asked twice. *)
Lemma serve_each (Q : Z * KVPairs -> gmap Z Z * Ps -> gmap Z Z * Ps -> Message -> Prop)
    (P : Z * KVPairs -> Message -> gmap Z Z * Ps -> Prop) :
  (forall p m S, P p m S -> exists S' r,
     Server_Process w (KVServerDefaultHandle SendMsg clock junk w valtype plus sobj) simple (from me m) S = Ok (tt, S') /\
     ps_sent (snd S') = ps_sent (snd S) ++ [r] /\ Q p S S' r) ->
  forall ps ms sv, NoDup (map fst ps) ->
    Forall2 (fun p m => mt_recver (ms_meta m) = ServerRankToID (fst p) /\ 0 <= fst p /\ P p m (sv (fst p))) ps ms ->
  exists ans sv', serve_all ms sv = Ok (ans, sv') /\
    Forall2 (fun p r => Q p (sv (fst p)) (sv' (fst p)) r) ps ans /\ (forall i, i ∉ map fst ps -> sv' i = sv i).
Proof.
  intros Hstep ps. induction ps as [|p ps IH]; intros ms sv Hnd Hall; inversion Hall as [|? m ? ms' (Hrec & H0 & HP) Hall']; subst.
  { exists [], sv. split; [done|]. split; [constructor|done]. }
  cbn [map] in Hnd. apply NoDup_cons in Hnd as [Hp Hnd]. destruct (Hstep p m (sv (fst p)) HP) as (S' & r & Hrun & Hsent & HQ).
  assert (Hi : IDtoRank (mt_recver (ms_meta m)) = fst p).
  { rewrite Hrec. unfold IDtoRank, ServerRankToID. rewrite Z.quot_div_nonneg by lia. rewrite Z.add_simpl_r, Z.div_mul by lia. lia. }
  set (sv1 := set_server sv (fst p) S').
  assert (Hone : serve m sv = Ok ([r], sv1)).
  { unfold serve. rewrite Hi, Hrun. cbn [mbind outcome_bind snd]. by rewrite Hsent, drop_app_length. }
  assert (Hsame : forall i, i <> fst p -> sv1 i = sv i) by (intros i Hne; unfold sv1, set_server; by rewrite (proj2 (Z.eqb_neq _ _) Hne)).
  assert (Hother : forall q, q ∈ ps -> sv1 (fst q) = sv (fst q)).
  { intros q Hq. apply Hsame. intros E. apply Hp. rewrite <- E. apply list_elem_of_fmap. by exists q. }
  destruct (IH ms' sv1 Hnd) as (ans & sv' & Hans & HQs & Hrest).
  { apply Forall2_same_length_lookup in Hall' as [Hl Hlk]. apply Forall2_same_length_lookup. split; [done|].
    intros j q m' Hq Hm'. rewrite Hother by (by eapply list_elem_of_lookup_2). by eapply Hlk. }
  exists (r :: ans), sv'. cbn [serve_all]. rewrite Hone. cbn [mbind outcome_bind fst snd]. rewrite Hans. split; [done|]. split.
  - constructor.
    + rewrite (Hrest (fst p)) by done. unfold sv1, set_server. by rewrite Z.eqb_refl.
    + apply Forall2_same_length_lookup in HQs as [Hl Hlk]. apply Forall2_same_length_lookup. split; [done|].
      intros j q r' Hq Hr'. rewrite <- Hother by (by eapply list_elem_of_lookup_2). by eapply Hlk.
  - intros i Hin. apply not_elem_of_cons in Hin as [Hne Hin]. by rewrite Hrest, Hsame.
Qed.
End cluster.

Lemma flagged_bound i sliced p : p ∈ flagged i sliced -> i <= fst p.
Proof. intros (j & _ & Hf)%flagged_elem. lia. Qed.

Lemma flagged_nodup i sliced : NoDup (map fst (flagged i sliced)).
Proof.
  revert i. induction sliced as [|[b kvs] rest IH]; intros i; cbn [flagged]; [constructor|].
  destruct b; cbn [app map fst]; [|apply IH]. constructor; [|apply IH].
  intros (p & Hp & Hin)%list_elem_of_fmap. apply flagged_bound in Hin. lia.
Qed.

Lemma Forall2_perm_r {A B} (P : A -> B -> Prop) l1 l2 l2' : Forall2 P l1 l2 -> l2' ≡ₚ l2 ->
  exists l1', l1' ≡ₚ l1 /\ Forall2 P l1' l2'.
Proof.
  intros HP Hp. apply Forall2_flip in HP. symmetry in Hp.
  destruct (Permutation_Forall2 Hp HP) as (l1' & Hp' & HP'). exists l1'. split; [done|]. by apply Forall2_flip in HP'.
Qed.

Lemma store_touch_get store l x : store_get (foldl store_touch store l) x = store_get store x.
Proof.
  revert store. induction l as [|y l IH]; intros store; [done|]. cbn [foldl]. rewrite IH. unfold store_touch, store_get.
  destruct (store !! y) eqn:E; [done|]. destruct (decide (x = y)) as [->|Hne]; [by rewrite lookup_insert_eq, E|].
  by rewrite lookup_insert_ne.
Qed.

Lemma elem_of_parts {A B} (f : A -> list B) l a x : a ∈ l -> x ∈ f a -> x ∈ concat (map f l).
Proof.
  intros Ha Hx. apply list_elem_of_In, in_concat. exists (f a). split; [by apply in_map, list_elem_of_In|by apply list_elem_of_In].
Qed.

(** ** A request leaves *)

Definition with_callback (k : KVWorker) (ts : Z) (cb : option Callback) : KVWorker :=
  match cb with None => k | Some cb => set_callbacks k (<[ts := cb]> (kw_callbacks k)) end.

(** A server that can answer. *)
Definition server_ready (w sobj : Z) (x : gmap Z Z * Ps) : Prop :=
  (exists c, ps_customers (snd x) !! sobj = Some c) /\ v_resender (ps_van (snd x)) = None /\
  forall key, word w (store_get (fst x) key).

Section roundtrip.
Context (SendMsg : Message -> Z) (clock : nat -> Z) (junk : Z) (Hsend : forall m, 0 < SendMsg m).
Context (w : Z) (valtype : DataType) (plus : Z -> Z -> Z) (Hw : 0 < w).
Context (sobj : Z) (ssimple : Message -> stm (gmap Z Z * Ps) unit) (wsimple : Message -> kv unit) (me : Z).
Context (n : Z) (k : KVWorker) (s : Ps) (c : Customer) (Hready : worker_ready n k s c).

Let ts : Z := Z.of_nat (length (cu_tracker c)).

(** The state of a request whose slices are on their way. *)
Record issued (push : bool) (cmd : Z) (send : KVPairs) (kk : nat) (fl : list (Z * KVPairs)) (s1 : Ps) (reqs : list Message) : Prop := {
  is_sent : ps_sent s1 = ps_sent s ++ reqs;
  is_carry : Forall2 (carries w c ts cmd push) fl reqs;
  is_slices : Forall (fun p => kv_keys (snd p) <> [] /\ slice_of n kk (fst p) (snd p)) fl;
  is_nodup : NoDup (map fst fl);
  is_keys : concat (map (fun p => kv_keys (snd p)) fl) = kv_keys send;
  is_vals : concat (map (fun p => kv_vals (snd p)) fl) = kv_vals send;
  is_num : po_num_servers (ps_po s1) = n;
  is_open : exists c1, ps_customers s1 !! kw_obj k = Some c1 /\ cu_recv_queue c1 = [] /\
    cu_tracker c1 !! Z.to_nat ts = Some (n, n - Z.of_nat (length fl)) /\ Z.of_nat (length fl) <= n }.

Lemma request_issued push cmd send kk cb : sendable n send kk ->
  exists fl s1 reqs,
    (obj ← kw_gets kw_obj; ts ← lift_ps (NewRequest obj kServerGroup); AddCallback ts cb;;
     Worker_Send SendMsg clock junk w valtype DefaultSlicer ts push cmd send;; mret ts) (k, s) =
      Ok (ts, (with_callback k ts cb, s1)) /\ issued push cmd send kk fl s1 reqs.
Proof using Hsend Hready.
  intros Hsd. destruct Hready as [Hn Hc Hq Htr Hnum Hrng (ids & Hids & Hidn) Hplain].
  st_step (eq_refl : kw_gets kw_obj (k, s) = Ok (kw_obj k, (k, s))).
  st_step (lift_ps_Ok _ k _ _ _ (NewRequest_ok _ _ _ _ _ Hc Hids Htr)). rewrite Hidn. fold ts.
  set (c1 := set_tracker c _). set (s0 := with_customer s (kw_obj k) c1). set (k1 := with_callback k ts cb).
  assert (Hcb : AddCallback ts cb (k, s0) = Ok (tt, (k1, s0))) by (unfold k1; by destruct cb). st_step Hcb.
  assert (Hobj : kw_obj k1 = kw_obj k) by (unfold k1; by destruct cb).
  assert (Hlast : cu_tracker c1 !! Z.to_nat ts = Some (n, 0)) by (cbn; unfold ts; rewrite Nat2Z.id; apply list_lookup_middle; lia).
  destruct (Worker_Send_ok SendMsg clock junk Hsend w valtype n k1 s0 c1 ts push cmd send kk n)
    as (sliced & s' & new & Hsl & Hrun & Hc' & Hsent & Hcar & Hnum'); try done.
  { rewrite Hobj. apply with_customer_lookup. }
  { unfold ts. lia. }
  st_step Hrun. destruct (slicer_flagged n send kk Hn Hsd) as (sliced' & Hsl' & Hlen & Hfl & Hk & Hv).
  rewrite Hsl in Hsl'. injection Hsl' as <-. pose proof (flagged_skipped 0 sliced) as Hskip.
  exists (flagged 0 sliced), s', new. split; [done|]. constructor; try done; [apply flagged_nodup|].
  eexists. rewrite <- Hobj. split; [exact Hc'|]. split; [done|].
  cbn [cu_tracker set_tracker]. rewrite list_lookup_insert_eq by (by eapply lookup_lt_Some).
  split; [do 2 f_equal; lia|unfold num_skipped in *; lia].
Qed.

Lemma issued_some push cmd send kk fl s1 reqs : sendable n send kk -> issued push cmd send kk fl s1 reqs -> fl <> [].
Proof. intros [_ Hne _ _ _] Hi ->. pose proof (is_keys _ _ _ _ _ _ _ Hi) as Hk. cbn in Hk. by rewrite <- Hk in Hne. Qed.

(** The answers to it end it. *)
Lemma answers_end push cmd send kk fl s1 reqs k1 k2 os rs :
  sendable n send kk -> issued push cmd send kk fl s1 reqs -> kw_obj k1 = kw_obj k ->
  Forall2 (answer_with w ts) os rs -> length rs = length fl ->
  (forall s', RunCallback ts (fold_left (keep ts) os k1, s') = Ok (tt, (k2, s'))) ->
  exists s2, receive_all (kw_obj k) (Worker_Process w wsimple) rs (k1, s1) = Ok (tt, (k2, s2)) /\
    WaitRequest_done (kw_obj k) ts s2 = Ok (true, s2).
Proof using Hready.
  intros Hsd Hi Hobj Hans Hlen Hrun. destruct (is_open _ _ _ _ _ _ _ Hi) as (c1 & Hc1 & Hq & Ht & Hle).
  assert (Hts : 0 <= ts) by (unfold ts; lia). pose proof (wr_servers _ _ _ _ Hready) as Hn.
  assert (Hne : rs <> []) by (intros ->; apply (issued_some _ _ _ _ _ _ _ Hsd Hi); by destruct fl).
  destruct (receive_answers w n ts wsimple Hts ltac:(lia) rs os k1 s1 c1 (n - Z.of_nat (length fl)) k2) as (s2 & c2 & Hrecv & Hc2 & Ht2);
    rewrite ?Hobj; try done; [lia|lia|by apply (is_num _ _ _ _ _ _ _ Hi)|].
  rewrite Hobj in *. exists s2. split; [done|]. rewrite (WaitRequest_done_ok _ _ c2 n n) by done. by rewrite Z.eqb_refl.
Qed.

(** The keys of a request are words, and below the largest. *)
Lemma sendable_words send kk : sendable n send kk -> Forall (fun x => 0 <= x < 2 ^ 64 - 1) (kv_keys send).
Proof using Hready.
  intros Hsd. eapply Forall_impl; [exact (sd_range _ _ _ Hsd)|]. cbn. intros x Hx. pose proof (wr_servers _ _ _ _ Hready).
  pose proof (Z.mul_div_le kMaxKey n ltac:(lia)). unfold range_len, kMaxKey in *. lia.
Qed.

Lemma issued_words push cmd send kk fl s1 reqs p : sendable n send kk -> issued push cmd send kk fl s1 reqs -> p ∈ fl ->
  Forall (word 8) (kv_keys (snd p)).
Proof using Hready.
  intros Hsd Hi Hp. apply Forall_forall. intros x Hx. pose proof (sendable_words _ _ Hsd) as Hb. rewrite Forall_forall in Hb.
  assert (Hin : x ∈ kv_keys send).
  { rewrite <- (is_keys _ _ _ _ _ _ _ Hi). by apply (elem_of_parts (fun p => kv_keys (snd p)) fl p). }
  specialize (Hb x Hin). cbn beta in Hb. unfold word. lia.
Qed.

Context (sv : Servers) (Hsv : forall i, 0 <= i < n -> server_ready w sobj (sv i)).

(** The server of a key. *)
Definition server_of (key : Z) : Z := key `div` range_len n.
Definition pull_part (p : Z * KVPairs) : KVPairs :=
  mkKV (kv_keys (snd p)) (map (store_get (fst (sv (fst p)))) (kv_keys (snd p))) [].

(** The servers take the slices in any order. *)
Lemma serve_slices push cmd send kk fl s1 reqs fl' reqs' (Q : Z * KVPairs -> gmap Z Z * Ps -> gmap Z Z * Ps -> Message -> Prop) :
  issued push cmd send kk fl s1 reqs -> fl' ≡ₚ fl -> Forall2 (carries w c ts cmd push) fl' reqs' ->
  (forall p m S, p ∈ fl -> carries w c ts cmd push p m -> server_ready w sobj S -> exists S' r,
     Server_Process w (KVServerDefaultHandle SendMsg clock junk w valtype plus sobj) ssimple (from me m) S = Ok (tt, S') /\
     ps_sent (snd S') = ps_sent (snd S) ++ [r] /\ Q p S S' r) ->
  exists ans sv', serve_all SendMsg clock junk w valtype plus sobj ssimple me reqs' sv = Ok (ans, sv') /\
    Forall2 (fun p r => Q p (sv (fst p)) (sv' (fst p)) r) fl' ans /\ (forall i, i ∉ map fst fl -> sv' i = sv i).
Proof using Hsv.
  intros Hi Hp Hcar Hstep.
  destruct (serve_each SendMsg clock junk w valtype plus sobj ssimple me Q
    (fun p m S => p ∈ fl /\ carries w c ts cmd push p m /\ server_ready w sobj S)) with (ps := fl') (ms := reqs') (sv := sv)
    as (ans & sv' & Hrun & Hans & Hrest).
  - intros p m S (H1 & H2 & H3). by apply Hstep.
  - rewrite Hp. apply (is_nodup _ _ _ _ _ _ _ Hi).
  - apply Forall2_same_length_lookup in Hcar as [Hl Hlk]. apply Forall2_same_length_lookup. split; [done|]. intros j p m Hj Hm.
    pose proof (list_elem_of_lookup_2 _ _ _ Hj) as Hin. rewrite Hp in Hin. specialize (Hlk j p m Hj Hm).
    destruct (proj1 (Forall_forall _ _) (is_slices _ _ _ _ _ _ _ Hi) p Hin) as (Hne & Hlens & Hb & _).
    destruct Hlk as [Hh Hd]. pose proof Hh as Hrec. unfold header in Hrec. injection Hrec as _ _ _ _ _ Hrec _ _ _ _.
    split; [done|]. split; [lia|]. split; [done|]. split; [done|]. by apply Hsv.
  - exists ans, sv'. split; [done|]. split; [done|]. intros i Hin. apply Hrest. by rewrite Hp.
Qed.

Lemma serve_pulls cmd keys fl s1 reqs fl' reqs' : sendable n (mkKV keys [] []) 0 -> issued false cmd (mkKV keys [] []) 0 fl s1 reqs ->
  fl' ≡ₚ fl -> Forall2 (carries w c ts cmd false) fl' reqs' ->
  exists ans sv', serve_all SendMsg clock junk w valtype plus sobj ssimple me reqs' sv = Ok (ans, sv') /\
    Forall2 (answer_with w ts) (map (fun p => Some (pull_part p)) fl') ans /\
    forall i x, store_get (fst (sv' i)) x = store_get (fst (sv i)) x.
Proof using Hsend Hw Hready Hsv.
  intros Hsd Hi Hp Hcar.
  destruct (serve_slices false cmd _ 0 fl s1 reqs fl' reqs'
    (fun p S S' r => fst S' = foldl store_touch (fst S) (kv_keys (snd p)) /\
       answer_with w ts (Some (mkKV (kv_keys (snd p)) (map (store_get (fst S)) (kv_keys (snd p))) [])) r) Hi Hp Hcar)
    as (ans & sv' & Hrun & Hans & Hrest).
  - intros p m [store S] Hin (Hh & Hd) ((cs & Hcs) & Hr & Hst). cbn [fst snd] in *.
    destruct (proj1 (Forall_forall _ _) (is_slices _ _ _ _ _ _ _ Hi) p Hin) as (Hne & Hlens & _ & _ & Hwf).
    unfold well_formed in Hwf. rewrite Hlens in Hwf. rewrite Nat.mul_0_r in Hwf. apply length_zero_iff_nil in Hwf. rewrite Hwf in Hd.
    destruct (serve_pull SendMsg clock junk Hsend w valtype plus Hw sobj cs store me m ts cmd _ _ _ false (kv_keys (snd p)) [] S
      ssimple Hcs Hr Hh Hd Hne (issued_words _ _ _ _ _ _ _ p Hsd Hi Hin) ltac:(constructor) eq_refl Hst)
      as (S' & r & Hproc & Hsent & _ & _ & Ha).
    eexists (_, S'), r. split; [exact Hproc|]. done.
  - exists ans, sv'. split; [done|]. split.
    + apply Forall2_fmap_l. eapply Forall2_impl; [exact Hans|]. by intros p r [_ Ha].
    + intros i x. destruct (decide (i ∈ map fst fl)) as [Hin|Hni]; [|by rewrite Hrest].
      rewrite <- Hp in Hin. apply list_elem_of_fmap in Hin as (p & -> & Hin).
      apply list_elem_of_lookup in Hin as (j & Hj). destruct (Forall2_lookup_l _ _ _ _ _ Hans Hj) as (r & _ & Hst & _).
      by rewrite Hst, store_touch_get.
Qed.

(** The parts make up the request, with the values of the stores. *)
Lemma pull_parts keys cmd fl s1 reqs : issued false cmd (mkKV keys [] []) 0 fl s1 reqs ->
  Forall (part_of keys) (map pull_part fl) /\ concat (map kv_keys (map pull_part fl)) = keys /\
  concat (map kv_vals (map pull_part fl)) = map (fun x => store_get (fst (sv (server_of x))) x) keys.
Proof.
  intros Hi. pose proof (is_keys _ _ _ _ _ _ _ Hi) as Hk. cbn [kv_keys] in Hk. rewrite !map_map. cbn [pull_part kv_keys kv_vals].
  pose proof (is_slices _ _ _ _ _ _ _ Hi) as Hsl. rewrite Forall_forall in Hsl. split; [|split; [done|]].
  - apply Forall_map, Forall_forall. intros p Hin. destruct (Hsl p Hin) as (Hne & _). split; [done|].
    cbn [pull_part kv_keys kv_vals]. split; [by rewrite length_map|].
    apply list_elem_of_split in Hin as (l1 & l2 & ->). rewrite map_app in Hk. cbn [map] in Hk. rewrite concat_app in Hk. cbn [concat] in Hk.
    by eexists _, _.
  - rewrite <- Hk, concat_map, map_map. f_equal. apply map_ext_in. intros p Hin%list_elem_of_In.
    destruct (Hsl p Hin) as (_ & _ & _ & Hdiv & _). apply map_ext_in. intros x Hx%list_elem_of_In.
    rewrite Forall_forall in Hdiv. unfold server_of. by rewrite (Hdiv x Hx).
Qed.

Lemma pull_ends keys vals cmd cb old fl s1 reqs fl' rs (k1 := with_callback k ts (Some (PullCallback keys vals None cb))) :
  sendable n (mkKV keys [] []) 0 -> issued false cmd (mkKV keys [] []) 0 fl s1 reqs -> Z.of_nat (length keys) < 2 ^ 64 ->
  kw_zpull k = false -> kw_recv_kvs k !! ts = None -> kw_out k !! vals = Some old -> old = [] \/ length old = length keys ->
  fl' ≡ₚ fl -> Forall2 (answer_with w ts) (map (fun p => Some (pull_part p)) fl') rs ->
  exists s2, receive_all (kw_obj k) (Worker_Process w wsimple) rs (k1, s1) =
      Ok (tt, (pulled (set_recv_kvs k1 (<[ts := map pull_part fl']> (kw_recv_kvs k))) ts vals
                 (map (fun x => store_get (fst (sv (server_of x))) x) keys) cb, s2)) /\
    WaitRequest_done (kw_obj k) ts s2 = Ok (true, s2).
Proof using Hready.
  intros Hsd Hi Hlen Hz Hrecv Hout Hold Hp Hans. destruct (pull_parts _ _ _ _ _ Hi) as (Hparts & Hkeys & Hvals).
  pose proof (issued_some _ _ _ _ _ _ _ Hsd Hi) as Hne.
  apply (answers_end false cmd (mkKV keys [] []) 0 fl s1 reqs k1 _ (map (fun p => Some (pull_part p)) fl') rs); try done.
  { apply Forall2_length in Hans. rewrite <- Hans, length_map. by rewrite Hp. }
  intros s'. rewrite <- (map_map pull_part Some), keep_parts.
  2:{ intros E. apply map_eq_nil in E. subst fl'. apply Hne. by apply Permutation_nil_l in Hp. }
  cbn [kw_recv_kvs k1 with_callback set_callbacks]. rewrite Hrecv. cbn [default from_option app]. rewrite <- Hvals.
  apply (RunCallback_pull keys (map pull_part fl) (map pull_part fl') (sd_sorted _ _ _ Hsd) (sendable_words _ _ Hsd) Hlen) with (old := old);
    try done; [by rewrite Hp|..]; cbn; by rewrite lookup_insert_eq.
Qed.

(** The slices of a push are served. *)
Definition push_pairs (p : Z * KVPairs) : list (Z * Z) := zip (kv_keys (snd p)) (kv_vals (snd p)).

Lemma issued_lengths push cmd keys vals fl s1 reqs p : issued push cmd (mkKV keys vals []) 1 fl s1 reqs -> p ∈ fl ->
  length (kv_keys (snd p)) = length (kv_vals (snd p)).
Proof.
  intros Hi Hin. destruct (proj1 (Forall_forall _ _) (is_slices _ _ _ _ _ _ _ Hi) p Hin) as (_ & Hlens & _ & _ & Hwf).
  unfold well_formed in Hwf. rewrite Hlens in Hwf. lia.
Qed.

Lemma zip_concat {A B C} (f : A -> list B) (g : A -> list C) (l : list A) : (forall a, a ∈ l -> length (f a) = length (g a)) ->
  zip (concat (map f l)) (concat (map g l)) = concat (map (fun a => zip (f a) (g a)) l).
Proof.
  induction l as [|a l IH]; intros H; [done|]. cbn [map concat]. rewrite zip_with_app by (apply H; left). f_equal.
  apply IH. intros b Hb. apply H. by right.
Qed.

Lemma push_pairs_all push cmd keys vals fl s1 reqs : issued push cmd (mkKV keys vals []) 1 fl s1 reqs ->
  concat (map push_pairs fl) = zip keys vals.
Proof.
  intros Hi. pose proof (is_keys _ _ _ _ _ _ _ Hi) as Hk. pose proof (is_vals _ _ _ _ _ _ _ Hi) as Hv. cbn in Hk, Hv.
  rewrite <- Hk, <- Hv. symmetry. apply zip_concat. intros p Hin. by eapply issued_lengths.
Qed.

Lemma issued_part_nodup push cmd send kk fl s1 reqs p : sendable n send kk -> issued push cmd send kk fl s1 reqs -> p ∈ fl ->
  NoDup (kv_keys (snd p)).
Proof.
  intros Hsd Hi (l1 & l2 & ->)%list_elem_of_split. pose proof (is_keys _ _ _ _ _ _ _ Hi) as Hk.
  rewrite map_app in Hk. cbn [map] in Hk. rewrite concat_app in Hk. cbn [concat] in Hk.
  pose proof (sd_sorted _ _ _ Hsd) as Hs. rewrite <- Hk in Hs.
  destruct (sorted_app _ _ Hs) as (_ & Hs2 & _). destruct (sorted_app _ _ Hs2) as (Hs3 & _ & _).
  apply NoDup_alt. intros i j x Hx Hy. destruct (Nat.lt_trichotomy i j) as [H|[H|H]]; [|done|];
    [specialize (Hs3 i j x x H Hx Hy)|specialize (Hs3 j i x x H Hy Hx)]; lia.
Qed.

Lemma serve_pushes cmd keys vals fl s1 reqs fl' reqs' : sendable n (mkKV keys vals []) 1 -> Forall (word w) vals ->
  issued true cmd (mkKV keys vals []) 1 fl s1 reqs -> fl' ≡ₚ fl -> Forall2 (carries w c ts cmd true) fl' reqs' ->
  exists ans sv', serve_all SendMsg clock junk w valtype plus sobj ssimple me reqs' sv = Ok (ans, sv') /\
    Forall2 (answer_with w ts) (map (fun _ => None) fl') ans /\
    (forall p, p ∈ fl -> fst (sv' (fst p)) = added plus (fst (sv (fst p))) (push_pairs p)) /\
    (forall i, i ∉ map fst fl -> sv' i = sv i).
Proof using Hsend Hw Hready Hsv.
  intros Hsd Hwv Hi Hp Hcar.
  destruct (serve_slices true cmd _ 1 fl s1 reqs fl' reqs'
    (fun p S S' r => fst S' = added plus (fst S) (push_pairs p) /\ answer_with w ts None r) Hi Hp Hcar)
    as (ans & sv' & Hrun & Hans & Hrest).
  - intros p m [store S] Hin (Hh & Hd) ((cs & Hcs) & Hr & Hst). cbn [fst snd] in *.
    destruct (proj1 (Forall_forall _ _) (is_slices _ _ _ _ _ _ _ Hi) p Hin) as (Hne & _).
    assert (Hpv : Forall (word w) (kv_vals (snd p))).
    { apply Forall_forall. intros v Hv. rewrite Forall_forall in Hwv. apply Hwv. pose proof (is_vals _ _ _ _ _ _ _ Hi) as E. cbn in E.
      rewrite <- E. by apply (elem_of_parts (fun p => kv_vals (snd p)) fl p). }
    destruct (serve_push SendMsg clock junk Hsend w valtype plus Hw sobj cs store me m ts cmd _ _ _ true (kv_keys (snd p))
      (kv_vals (snd p)) S ssimple Hcs Hr Hh Hd Hne (issued_words _ _ _ _ _ _ _ p Hsd Hi Hin) Hpv eq_refl
      (issued_lengths _ _ _ _ _ _ _ p Hi Hin)) as (S' & r & Hproc & Hsent & _ & _ & Ha).
    eexists (_, S'), r. split; [exact Hproc|]. done.
  - exists ans, sv'. split; [done|]. split; [|split; [|done]].
    + apply Forall2_fmap_l. eapply Forall2_impl; [exact Hans|]. by intros p r [_ Ha].
    + intros p Hin. rewrite <- Hp in Hin. apply list_elem_of_lookup in Hin as (j & Hj).
      by destruct (Forall2_lookup_l _ _ _ _ _ Hans Hj) as (r & _ & Hst & _).
Qed.

(** Every pair is added to the value of its key at its server, and nothing else
    changes. *)
Lemma push_effect cmd keys vals fl s1 reqs (sv' : Servers) : sendable n (mkKV keys vals []) 1 ->
  issued true cmd (mkKV keys vals []) 1 fl s1 reqs ->
  (forall p, p ∈ fl -> fst (sv' (fst p)) = added plus (fst (sv (fst p))) (push_pairs p)) ->
  (forall i, i ∉ map fst fl -> sv' i = sv i) ->
  (forall x v, (x, v) ∈ zip keys vals ->
     store_get (fst (sv' (server_of x))) x = plus (store_get (fst (sv (server_of x))) x) v) /\
  (forall i x, x ∉ keys \/ i <> server_of x -> store_get (fst (sv' i)) x = store_get (fst (sv i)) x).
Proof.
  intros Hsd Hi Hadd Hrest. pose proof (is_slices _ _ _ _ _ _ _ Hi) as Hsl. rewrite Forall_forall in Hsl.
  assert (Hdiv : forall p x, p ∈ fl -> x ∈ kv_keys (snd p) -> server_of x = fst p).
  { intros p x Hin Hx. destruct (Hsl p Hin) as (_ & _ & _ & Hd & _). rewrite Forall_forall in Hd. by apply Hd. }
  assert (Hfst : forall p, p ∈ fl -> map fst (push_pairs p) = kv_keys (snd p)).
  { intros p Hin. apply fst_zip. by rewrite (issued_lengths _ _ _ _ _ _ _ p Hi Hin). }
  assert (Hlk : forall p, p ∈ fl -> _) by (intros p Hin; refine (added_lookup plus (push_pairs p) (fst (sv (fst p))) _);
    rewrite Hfst by done; by eapply issued_part_nodup). split.
  - intros x v Hxv. rewrite <- (push_pairs_all _ _ _ _ _ _ _ Hi) in Hxv.
    apply list_elem_of_In, in_concat in Hxv as (l & (p & <- & Hin)%in_map_iff & Hx). apply list_elem_of_In in Hin, Hx.
    assert (Hxk : x ∈ kv_keys (snd p)) by (rewrite <- Hfst by done; apply list_elem_of_fmap; by exists (x, v)).
    rewrite (Hdiv p x Hin Hxk), Hadd by done. by apply (Hlk p Hin).
  - intros i x Hx. destruct (decide (i ∈ map fst fl)) as [(p & -> & Hin)%list_elem_of_fmap|Hni]; [|by rewrite Hrest].
    rewrite Hadd by done. apply (Hlk p Hin). rewrite Hfst by done. intros Hxk. destruct Hx as [Hx|Hx].
    + apply Hx. pose proof (is_keys _ _ _ _ _ _ _ Hi) as E. cbn in E. rewrite <- E. by apply (elem_of_parts (fun p => kv_keys (snd p)) fl p).
    + by rewrite (Hdiv p x Hin Hxk) in Hx.
Qed.
End roundtrip.

(** ** The two requests *)

Lemma RunCallback_user k ts cb : kw_callbacks k !! ts = None ->
  exists k2, kw_called k2 = kw_called k ++ option_list cb /\ kw_callbacks k2 = kw_callbacks k /\
    forall s', RunCallback ts (with_callback k ts (option_map UserCallback cb), s') = Ok (tt, (k2, s')).
Proof.
  intros Hnew. unfold RunCallback, mbind, stm_bind, kw_gets, st_gets. destruct cb as [cb|]; cbn.
  - exists (set_callbacks (add_called k cb) (delete ts (<[ts := UserCallback cb]> (kw_callbacks k)))). cbn.
    split; [done|]. split; [by rewrite delete_insert_eq, delete_id|]. intros s'. by rewrite lookup_insert_eq.
  - exists k. split; [by rewrite app_nil_r|]. split; [done|]. intros s'. by rewrite Hnew.
Qed.

(** C5: a pull returns what the servers store. For a worker of [n] servers that
    is ready, keys that are sorted and belong to servers, and a destination that
    is empty or has the right length, [Pull_] with the default slicer sends its
    slices and returns; the servers may take the slices in any order, and the
    worker their answers in any order: every step succeeds, the servers' values
    do not change, and when the last answer has been taken in, the destination
    holds for each key the value that the server of the key has for it, the
    user's callback has run once, nothing of the request is kept, and a wait for
    the request returns. *)
Theorem pull_returns_stored SendMsg clock junk w valtype plus sobj ssimple wsimple me n k s c keys vals old cmd cb (sv : Servers)
    (ts := Z.of_nat (length (cu_tracker c)))
    (Hsend : forall m, 0 < SendMsg m) (Hw : 0 < w) (Hready : worker_ready n k s c)
    (Hsd : sendable n (mkKV keys [] []) 0) (Hlen : Z.of_nat (length keys) < 2 ^ 64)
    (Hz : kw_zpull k = false) (Hrecv : kw_recv_kvs k !! ts = None) (Hout : kw_out k !! vals = Some old)
    (Hold : old = [] \/ length old = length keys) (Hsv : forall i, 0 <= i < n -> server_ready w sobj (sv i)) :
  exists k1 s1 reqs,
    Pull_ SendMsg clock junk w valtype DefaultSlicer keys vals None cmd cb (k, s) = Ok (ts, (k1, s1)) /\
    ps_sent s1 = ps_sent s ++ reqs /\
    forall reqs', reqs' ≡ₚ reqs -> exists ans sv',
      serve_all SendMsg clock junk w valtype plus sobj ssimple me reqs' sv = Ok (ans, sv') /\
      (forall i x, store_get (fst (sv' i)) x = store_get (fst (sv i)) x) /\
      forall rs, rs ≡ₚ ans -> exists k2 s2,
        receive_all (kw_obj k) (Worker_Process w wsimple) rs (k1, s1) = Ok (tt, (k2, s2)) /\
        kw_out k2 !! vals = Some (map (fun x => store_get (fst (sv (server_of n x))) x) keys) /\
        kw_called k2 = kw_called k ++ option_list cb /\
        kw_recv_kvs k2 !! ts = None /\ kw_callbacks k2 !! ts = None /\
        WaitRequest_done (kw_obj k) ts s2 = Ok (true, s2).
Proof.
  destruct (request_issued SendMsg clock junk Hsend w valtype n k s c Hready false cmd (mkKV keys [] []) 0
    (Some (PullCallback keys vals None cb)) Hsd) as (fl & s1 & reqs & Hrun & Hi).
  eexists _, s1, reqs. split; [exact Hrun|]. split; [apply (is_sent _ _ _ _ _ _ _ _ _ _ _ _ Hi)|]. intros reqs' Hp.
  destruct (Forall2_perm_r _ _ _ _ (is_carry _ _ _ _ _ _ _ _ _ _ _ _ Hi) Hp) as (fl' & Hpf & Hcar).
  destruct (serve_pulls SendMsg clock junk Hsend w valtype plus Hw sobj ssimple me n k s c Hready sv Hsv cmd keys fl s1 reqs fl' reqs'
    Hsd Hi Hpf Hcar) as (ans & sv' & Hserve & Hans & Hsame).
  exists ans, sv'. split; [done|]. split; [done|]. intros rs Hprs.
  destruct (Forall2_perm_r _ _ _ _ Hans Hprs) as (os & Hpo & Hos).
  apply Permutation_map_inv in Hpo as (fl2 & -> & Hp2).
  destruct (pull_ends w wsimple n k s c Hready sv keys vals cmd cb old fl s1 reqs fl2 rs) as (s2 & Hend & Hwait); try done.
  { by rewrite <- Hp2, Hpf. }
  eexists _, s2. split; [exact Hend|]. cbn. split; [by rewrite lookup_insert_eq|]. split; [by destruct cb|].
  split; [by rewrite lookup_delete_eq|]. split; [by rewrite lookup_delete_eq|done].
Qed.

(** C10: a push reaches the stores. For a worker of [n] servers that is ready and
    pairs of a value each whose keys are sorted and belong to servers, [ZPush]
    with the default slicer sends its slices and returns; the servers may take
    the slices in any order, and the worker their answers in any order: every
    step succeeds, each value is added once to what the server of its key has for
    it, no other value of any server changes, and when the last answer has been
    taken in the user's callback has run once and a wait for the request
    returns. *)
Theorem push_adds_to_stores SendMsg clock junk w valtype plus sobj ssimple wsimple me n k s c keys vals cmd cb (sv : Servers)
    (ts := Z.of_nat (length (cu_tracker c)))
    (Hsend : forall m, 0 < SendMsg m) (Hw : 0 < w) (Hready : worker_ready n k s c)
    (Hsd : sendable n (mkKV keys vals []) 1) (Hvals : Forall (word w) vals)
    (Hnew : kw_callbacks k !! ts = None) (Hsv : forall i, 0 <= i < n -> server_ready w sobj (sv i)) :
  exists k1 s1 reqs,
    ZPush SendMsg clock junk w valtype DefaultSlicer (mkKV keys vals []) cmd cb (k, s) = Ok (ts, (k1, s1)) /\
    ps_sent s1 = ps_sent s ++ reqs /\
    forall reqs', reqs' ≡ₚ reqs -> exists ans sv',
      serve_all SendMsg clock junk w valtype plus sobj ssimple me reqs' sv = Ok (ans, sv') /\
      (forall x v, (x, v) ∈ zip keys vals ->
         store_get (fst (sv' (server_of n x))) x = plus (store_get (fst (sv (server_of n x))) x) v) /\
      (forall i x, x ∉ keys \/ i <> server_of n x -> store_get (fst (sv' i)) x = store_get (fst (sv i)) x) /\
      forall rs, rs ≡ₚ ans -> exists k2 s2,
        receive_all (kw_obj k) (Worker_Process w wsimple) rs (k1, s1) = Ok (tt, (k2, s2)) /\
        kw_called k2 = kw_called k ++ option_list cb /\ kw_callbacks k2 = kw_callbacks k /\
        WaitRequest_done (kw_obj k) ts s2 = Ok (true, s2).
Proof.
  destruct (request_issued SendMsg clock junk Hsend w valtype n k s c Hready true cmd (mkKV keys vals []) 1
    (option_map UserCallback cb) Hsd) as (fl & s1 & reqs & Hrun & Hi).
  eexists _, s1, reqs. split; [exact Hrun|]. split; [apply (is_sent _ _ _ _ _ _ _ _ _ _ _ _ Hi)|]. intros reqs' Hp.
  destruct (Forall2_perm_r _ _ _ _ (is_carry _ _ _ _ _ _ _ _ _ _ _ _ Hi) Hp) as (fl' & Hpf & Hcar).
  destruct (serve_pushes SendMsg clock junk Hsend w valtype plus Hw sobj ssimple me n k s c Hready sv Hsv cmd keys vals fl s1 reqs
    fl' reqs' Hsd Hvals Hi Hpf Hcar) as (ans & sv' & Hserve & Hans & Hadd & Hrest).
  destruct (push_effect w plus n k s c sv cmd keys vals fl s1 reqs sv' Hsd Hi Hadd Hrest) as [Heff Hsame].
  exists ans, sv'. split; [done|]. split; [done|]. split; [done|]. intros rs Hprs.
  destruct (Forall2_perm_r _ _ _ _ Hans Hprs) as (os & Hpo & Hos).
  apply Permutation_map_inv in Hpo as (fl2 & -> & Hp2).
  set (k1 := with_callback k _ _). fold ts in k1.
  pose proof (RunCallback_user k ts cb Hnew) as Hcb.
  destruct Hcb as (k2 & Hcalled & Hcbs & Hcb).
  destruct (answers_end w wsimple n k s c Hready true cmd (mkKV keys vals []) 1 fl s1 reqs k1 k2 (map (fun _ => None) fl2) rs)
    as (s2 & Hend & Hwait); try done.
  { unfold k1. by destruct cb. }
  { apply Forall2_length in Hos. rewrite <- Hos, length_map. by rewrite <- Hp2, Hpf. }
  { intros s'. rewrite keep_acks. apply Hcb. }
  by exists k2, s2.
Qed.

(** Witnesses: two servers and a key for each. *)
Definition example_worker : KVWorker := mkKVWorker 5 ∅ ∅ false {[ 77 := [] ]} [].
Definition example_servers : Servers := fun i => ({[ 1 := 40 + i ]}, example_customer_ps).
Definition example_keys : list Z := [1; 2 ^ 63 + 5].

Lemma example_ready : worker_ready 2 example_worker example_customer_ps (mkCustomer 0 0 [] []).
Proof. constructor; try reflexivity; [lia|left; reflexivity|exists [8; 10]; split; reflexivity]. Qed.

Lemma example_sendable vals k : length vals = (2 * k)%nat -> sendable 2 (mkKV example_keys vals []) k.
Proof.
  intros Hl. constructor; try done.
  - intros [|[|[]]] [|[|[]]] x y Hij; cbn; intros; simplify_eq; lia.
  - repeat constructor; cbn; lia.
Qed.

Lemma example_server_ready i : 0 <= i < 2 -> server_ready 4 5 (example_servers i).
Proof.
  intros Hi. split; [eexists; reflexivity|]. split; [reflexivity|]. intros x. unfold store_get, example_servers. cbn [fst].
  destruct (decide (x = 1)) as [->|Hne]; [rewrite lookup_singleton_eq|rewrite lookup_singleton_ne by done]; unfold word; cbn; lia.
Qed.

Lemma pull_returns_stored_witness :
  exists k1 s1 reqs,
    Pull_ (fun _ => 1) (fun _ => 0) 0 4 INT32 DefaultSlicer example_keys 77 None 0 (Some 9) (example_worker, example_customer_ps) =
      Ok (0, (k1, s1)) /\ ps_sent s1 = reqs /\
    exists ans sv', serve_all (fun _ => 1) (fun _ => 0) 0 4 INT32 Z.add 5 (fun _ => mret tt) 9 reqs example_servers = Ok (ans, sv') /\
      exists k2 s2, receive_all 5 (Worker_Process 4 (fun _ => mret tt)) ans (k1, s1) = Ok (tt, (k2, s2)) /\
        kw_out k2 !! 77 = Some [40; 0] /\ kw_called k2 = [9].
Proof.
  destruct (pull_returns_stored (fun _ => 1) (fun _ => 0) 0 4 INT32 Z.add 5 (fun _ => mret tt) (fun _ => mret tt) 9 2
    example_worker example_customer_ps (mkCustomer 0 0 [] []) example_keys 77 [] 0 (Some 9) example_servers)
    as (k1 & s1 & reqs & H1 & H2 & H3); [intros; lia|lia|exact example_ready|by apply example_sendable|cbn; lia|
    reflexivity|reflexivity|reflexivity|left; reflexivity|exact example_server_ready|].
  exists k1, s1, reqs. split; [exact H1|]. split; [exact H2|].
  destruct (H3 reqs (Permutation_refl _)) as (ans & sv' & H4 & _ & H5). exists ans, sv'. split; [exact H4|].
  destruct (H5 ans (Permutation_refl _)) as (k2 & s2 & H6 & H7 & H8 & _). exists k2, s2. split; [exact H6|].
  split; [rewrite H7; reflexivity|exact H8].
Defined.

Lemma push_adds_to_stores_witness :
  exists k1 s1 reqs,
    ZPush (fun _ => 1) (fun _ => 0) 0 4 INT32 DefaultSlicer (mkKV example_keys [2; 3] []) 0 None (example_worker, example_customer_ps) =
      Ok (0, (k1, s1)) /\ ps_sent s1 = reqs /\
    exists ans sv', serve_all (fun _ => 1) (fun _ => 0) 0 4 INT32 Z.add 5 (fun _ => mret tt) 9 reqs example_servers = Ok (ans, sv') /\
      store_get (fst (sv' 0)) 1 = 42 /\ store_get (fst (sv' 1)) (2 ^ 63 + 5) = 3 /\ store_get (fst (sv' 1)) 1 = 41.
Proof.
  destruct (push_adds_to_stores (fun _ => 1) (fun _ => 0) 0 4 INT32 Z.add 5 (fun _ => mret tt) (fun _ => mret tt) 9 2
    example_worker example_customer_ps (mkCustomer 0 0 [] []) example_keys [2; 3] 0 None example_servers)
    as (k1 & s1 & reqs & H1 & H2 & H3); [intros; lia|lia|exact example_ready|by apply example_sendable|
    repeat constructor; unfold word; lia|reflexivity|exact example_server_ready|].
  exists k1, s1, reqs. split; [exact H1|]. split; [exact H2|].
  destruct (H3 reqs (Permutation_refl _)) as (ans & sv' & H4 & H5 & H6 & _). exists ans, sv'. split; [exact H4|].
  split; [exact (H5 1 2 ltac:(left))|]. split; [exact (H5 (2 ^ 63 + 5) 3 ltac:(right; left))|].
  exact (H6 1 1 ltac:(right; vm_compute; congruence)).
Defined.

(** ** Keys of no server *)

Lemma DefaultSlicer_outside send lo ranges key : sorted (kv_keys send) -> contiguous lo ranges -> ranges <> [] ->
  key ∈ kv_keys send -> ranges_end lo ranges <= key -> DefaultSlicer send ranges = Fatal.
Proof.
  intros Hs Hc Hne (i & Hi)%list_elem_of_lookup Hout. unfold DefaultSlicer.
  assert (Hp : first_position (kv_keys send) ranges = lower_bound (kv_keys send) lo).
  { destruct ranges as [|r rs]; [done|]. destruct Hc as [Hb _]. cbn. by rewrite Hb. }
  rewrite Hp, slice_positions_ok with (lo := lo) by (done || by left). cbn [mbind outcome_bind]. rewrite last_position by done.
  destruct (lower_bound_splits (kv_keys send) (ranges_end lo ranges) Hs) as [_ Hlb]. specialize (Hlb i key Hi).
  pose proof (lookup_lt_Some _ _ _ Hi). rewrite (proj2 (Nat.eqb_neq _ _)) by lia. done.
Qed.

(** A key of no server ends the process. The ranges of [n] servers leave out
    the keys from [n] times the length of a range on; a push or a pull whose
    sorted keys include one of them fails a [CHECK] of the default slicer before
    anything is sent. *)
Theorem top_key_fatal SendMsg clock junk w valtype n k s c send vals cmd cb key
    (Hready : worker_ready n k s c) (Hs : sorted (kv_keys send)) (Hin : key ∈ kv_keys send) (Hkey : range_len n * n <= key) :
  ZPush SendMsg clock junk w valtype DefaultSlicer send cmd cb (k, s) = Fatal /\
  Pull_ SendMsg clock junk w valtype DefaultSlicer (kv_keys send) vals None cmd cb (k, s) = Fatal.
Proof.
  destruct Hready as [Hn Hc Hq Htr Hnum Hrng (ids & Hids & Hidn) Hplain].
  destruct (server_ranges_contiguous n Hn) as [Hcont Hend].
  assert (Hsl : forall kvs, kv_keys kvs = kv_keys send -> DefaultSlicer kvs (server_ranges n) = Fatal).
  { intros kvs E. apply (DefaultSlicer_outside kvs 0 _ key); rewrite ?E, ?Hend; [done..| |done|done].
    intros H. unfold server_ranges in H. apply (f_equal length) in H. rewrite length_map, length_seqZ in H. cbn in H. lia. }
  assert (Hw : forall ts push kvs k1 c1, kv_keys kvs = kv_keys send ->
    Worker_Send SendMsg clock junk w valtype DefaultSlicer ts push cmd kvs (k1, with_customer s (kw_obj k) c1) = Fatal).
  { intros ts push kvs k1 c1 E. set (s1 := with_customer s (kw_obj k) c1). unfold Worker_Send.
    st_step (eq_refl : kw_gets kw_obj (k1, s1) = Ok (kw_obj k1, (k1, s1))).
    st_step (lift_ps_Ok _ k1 _ _ _ (GetServerKeyRanges_ok n s1 ltac:(lia) Hnum Hrng)).
    apply st_bind_Fatal. unfold st_lift. by rewrite Hsl. }
  unfold ZPush, Pull_. split; st_step (eq_refl : kw_gets kw_obj (k, s) = Ok (kw_obj k, (k, s)));
    st_step (lift_ps_Ok _ k _ _ _ (NewRequest_ok _ _ _ _ _ Hc Hids Htr)); set (s1 := with_customer _ _ _).
  - set (ts := Z.of_nat _). st_step (ltac:(by destruct cb) :
      AddCallback ts (option_map UserCallback cb) (k, s1) = Ok (tt, (with_callback k ts (option_map UserCallback cb), s1))).
    apply st_bind_Fatal. by apply Hw.
  - set (ts := Z.of_nat _). st_step (eq_refl : AddCallback ts (Some (PullCallback (kv_keys send) vals None cb)) (k, s1) =
      Ok (tt, (with_callback k ts (Some (PullCallback (kv_keys send) vals None cb)), s1))).
    apply st_bind_Fatal. by apply Hw.
Qed.

Lemma top_key_fatal_witness :
  ZPush (fun _ => 1) (fun _ => 0) 0 4 INT32 DefaultSlicer (mkKV [1; 2 ^ 64 - 2] [5; 6] []) 0 None
    (example_worker, example_customer_ps) = Fatal.
Proof.
  apply (top_key_fatal (fun _ => 1) (fun _ => 0) 0 4 INT32 2 example_worker example_customer_ps (mkCustomer 0 0 [] [])
    (mkKV [1; 2 ^ 64 - 2] [5; 6] []) 77 0 None (2 ^ 64 - 2)).
  - exact example_ready.
  - intros [|[|[]]] [|[|[]]] x y Hij; cbn; intros; simplify_eq; lia.
  - right. left.
  - vm_compute. congruence.
Defined.
