(* ===== verification/Serializer.v ===== *)
(** dmlc's serializer: src/src/mlt/include/dmlc/serializer.h, the templates of
    io.h that call it, [ByteSwap] of endian.h and the memory streams of
    memory_io.h.

    A template instance is given by its type: arithmetic types of a number of
    bytes, pairs, vectors, strings of [char], lists and deques, ordered sets and
    maps. A value of an arithmetic type is its bits as a number; a set or a map
    is the list of its elements in order. [little] says how the machine stores
    numbers, [io_little] is [DMLC_IO_USE_LITTLE_ENDIAN]; the padding of a struct
    holds the bytes [pad]. The keys of ordered containers are compared as unsigned
    numbers. *)

From S2P Require Import Prelude State Bytes.

(** ** Streams *)

(** [Stream::Read] returns what it read, up to the size that is asked for. *)
Class Stream (S : Type) := {
  Stream_Read_bytes : Z -> stm S (list Z);
  Stream_Write_bytes : list Z -> stm S unit;
  Stream_rewind : S -> S }.

#[global] Instance fixed_Stream : Stream MemoryFixedSizeStream := {
  Stream_Read_bytes size := fun s => Stream_Read s size;
  Stream_Write_bytes bs := fun s => s' ← Stream_Write s bs; Ok (tt, s');
  Stream_rewind s := Stream_Seek s 0 }.

Record MemoryStringStream := mkStringStream { ss_buffer : list Z; ss_curr_ptr : Z }.
Definition StringStream_new (p_buffer : list Z) : MemoryStringStream := mkStringStream p_buffer 0.
Definition StringStream_Read (s : MemoryStringStream) (size : Z) : outcome (list Z * MemoryStringStream) :=
  CHECK (ss_curr_ptr s <=? Z.of_nat (length (ss_buffer s)));;
  let nread := Z.min (Z.of_nat (length (ss_buffer s)) - ss_curr_ptr s) size in
  Ok (slice (Z.to_nat (ss_curr_ptr s)) (Z.to_nat nread) (ss_buffer s), mkStringStream (ss_buffer s) (ss_curr_ptr s + nread)).
(** [resize] fills with zeros. *)
Definition StringStream_Write (s : MemoryStringStream) (ptr : list Z) : outcome MemoryStringStream :=
  let size := Z.of_nat (length ptr) in
  if size =? 0 then Ok s
  else
    let len := Z.of_nat (length (ss_buffer s)) in
    let end_ := u64 (ss_curr_ptr s + size) in
    let buf := if len <? end_ then ss_buffer s ++ replicate (Z.to_nat (end_ - len)) 0 else ss_buffer s in
    DEFINED (ss_curr_ptr s + size <=? Z.of_nat (length buf));;
    Ok (mkStringStream (splice (Z.to_nat (ss_curr_ptr s)) ptr buf) end_).
Definition StringStream_Seek (s : MemoryStringStream) (pos : Z) : MemoryStringStream := mkStringStream (ss_buffer s) pos.
Definition StringStream_Tell (s : MemoryStringStream) : Z := ss_curr_ptr s.

#[global] Instance string_Stream : Stream MemoryStringStream := {
  Stream_Read_bytes size := fun s => StringStream_Read s size;
  Stream_Write_bytes bs := fun s => s' ← StringStream_Write s bs; Ok (tt, s');
  Stream_rewind s := StringStream_Seek s 0 }.

(** What a client relies on: bytes that are written with enough room come after
    those before, and behind a rewind they are read in the same order. *)
Class StreamLaws (S : Type) `{Stream S} := {
  written : S -> list Z -> Z -> Prop;        (** what was written, and how much more may be *)
  to_read : S -> list Z -> Prop;             (** what is left to read *)
  write_law s w room bs : written s w room -> Z.of_nat (length bs) <= room ->
    runs (Stream_Write_bytes bs) s (fun _ s' => written s' (w ++ bs) (room - Z.of_nat (length bs)));
  rewind_law s w room : written s w room -> exists rest, to_read (Stream_rewind s) (w ++ rest);
  read_law s bs rest : to_read s (bs ++ rest) ->
    runs (Stream_Read_bytes (Z.of_nat (length bs))) s (fun got s' => got = bs /\ to_read s' rest) }.

(** ** endian.h *)

(** The inner loop: [j] swaps are done. *)
Fixpoint swap_loop (k : nat) (j : nat) (b : list Z) : outcome (list Z) :=
  match k with
  | O => Ok b
  | S k' =>
      let i := (length b - 1 - j)%nat in
      v ← deref (b !! i);
      u ← deref (b !! j);
      swap_loop k' (S j) (<[j := v]> (<[i := u]> b))
  end.
(** One element of [length b] bytes. *)
Definition ByteSwap (b : list Z) : outcome (list Z) := swap_loop (length b / 2) 0 b.

(** ** Types and values *)

Inductive ty := TArith (n : nat) | TPair (a b : ty) | TVector (a : ty) | TString | TList (a : ty) | TSet (a : ty) | TMap (k v : ty).

Fixpoint denote (t : ty) : Type :=
  match t with
  | TArith _ => Z
  | TPair a b => denote a * denote b
  | TVector a | TList a | TSet a => list (denote a)
  | TString => list Z
  | TMap k v => list (denote k * denote v)
  end.

(** [T()] *)
Fixpoint dflt (t : ty) : denote t :=
  match t return denote t with
  | TArith _ => 0
  | TPair a b => (dflt a, dflt b)
  | TVector _ | TString | TList _ | TSet _ | TMap _ _ => []
  end.

Definition is_pod (t : ty) : bool := match t with TArith _ => true | _ => false end.

(** [std::less] *)
Fixpoint lex {A} (less : A -> A -> bool) (l1 l2 : list A) : bool :=
  match l1, l2 with
  | _, [] => false
  | [], _ :: _ => true
  | x :: l1', y :: l2' => less x y || (negb (less y x) && lex less l1' l2')
  end.
Definition less_pair {A B} (la : A -> A -> bool) (lb : B -> B -> bool) (x y : A * B) : bool :=
  la (fst x) (fst y) || (negb (la (fst y) (fst x)) && lb (snd x) (snd y)).
Fixpoint less (t : ty) : denote t -> denote t -> bool :=
  match t return denote t -> denote t -> bool with
  | TArith _ => Z.ltb
  | TPair a b => less_pair (less a) (less b)
  | TVector a | TList a | TSet a => lex (less a)
  | TString => lex Z.ltb
  | TMap k v => lex (less_pair (less k) (less v))
  end.

(** [insert] of an ordered container: an equivalent element stays. *)
Fixpoint container_insert {A} (less : A -> A -> bool) (x : A) (l : list A) : list A :=
  match l with
  | [] => [x]
  | y :: l' => if less x y then x :: l else if less y x then y :: container_insert less x l' else l
  end.
Definition insert_all {A} (less : A -> A -> bool) (l : list A) (c : list A) : list A := fold_left (fun c x => container_insert less x c) l c.
Definition less_key {A B} (less : A -> A -> bool) (x y : A * B) : bool := less (fst x) (fst y).

Section serializer.
Context (io_little : bool) (pad : nat -> list Z).
Context {S : Type} {HS : Stream S}.

(** [DMLC_IO_NO_ENDIAN_SWAP] *)
Definition no_swap (little : bool) : bool := Bool.eqb little io_little.

(** The bytes of an arithmetic object, and back. *)
Definition repr (little : bool) (n : nat) (z : Z) : list Z := if little then le_bytes n z else rev (le_bytes n z).
Definition unrepr (little : bool) (bs : list Z) : Z := if little then le_val bs else le_val (rev bs).

(** ** Handlers *)

(** An object of which the first bytes are overwritten. *)
Definition overlay (got old : list Z) : list Z := got ++ drop (length got) old.

Definition ArithmeticHandler_Write (little : bool) (n : nat) (data : Z) : stm S unit :=
  if no_swap little then Stream_Write_bytes (repr little n data)
  else copy ← st_lift (ByteSwap (repr little n data)); Stream_Write_bytes copy.

(** The object is swapped even when it could not be read. *)
Definition ArithmeticHandler_Read (little : bool) (n : nat) (dptr : Z) : stm S (bool * Z) :=
  got ← Stream_Read_bytes (Z.of_nat n);
  let obj := overlay got (repr little n dptr) in
  obj ← st_lift (if no_swap little then Ok obj else ByteSwap obj);
  mret ((length got =? n)%nat, unrepr little obj).

(** [sizeof], the bytes and the value of a POD object. *)
Definition sizeof (t : ty) : nat := match t with TArith n => n | _ => 0 end.
Definition object_bytes (little : bool) (t : ty) : denote t -> list Z :=
  match t return denote t -> list Z with TArith n => repr little n | _ => fun _ => [] end.
Definition object_of (little : bool) (t : ty) : list Z -> denote t :=
  match t return list Z -> denote t with TArith n => fun bs => unrepr little bs | t' => fun _ => dflt t' end.

(** The layout of [std::pair] of two arithmetic types: the second member is
    aligned to its size, the struct to the larger one. *)
Definition round_to (n align : nat) : nat := ((n + align - 1) / align * align)%nat.
Definition second_off (a b : ty) : nat := round_to (sizeof a) (sizeof b).
Definition sizeof_pair (a b : ty) : nat := round_to (second_off a b + sizeof b) (Nat.max (sizeof a) (sizeof b)).
Definition pair_bytes (little : bool) (a b : ty) (x : denote a * denote b) : list Z :=
  object_bytes little a (fst x) ++ take (second_off a b - sizeof a) (pad (second_off a b)) ++
  object_bytes little b (snd x) ++ take (sizeof_pair a b - (second_off a b + sizeof b)) (pad (sizeof_pair a b)).
Definition pair_of (little : bool) (a b : ty) (bs : list Z) : denote a * denote b :=
  (object_of little a (take (sizeof a) bs), object_of little b (slice (second_off a b) (sizeof b) bs)).

Definition NativePODHandler_Write (bytes : list Z) : stm S unit := Stream_Write_bytes bytes.
Definition NativePODHandler_Read (old : list Z) : stm S (bool * list Z) :=
  got ← Stream_Read_bytes (Z.of_nat (length old));
  mret ((length got =? length old)%nat, overlay got old).

(** [Write<uint64_t>] and [Read<uint64_t>] of a size. *)
Definition write_size {A} (little : bool) (l : list A) : stm S unit := ArithmeticHandler_Write little 8 (Z.of_nat (length l)).

(** [resize] *)
Definition vector_resize {A} (d : A) (n : nat) (l : list A) : list A := take n l ++ replicate (n - length l) d.

Fixpoint ReadArray {A} (Read : A -> stm S (bool * A)) (data : list A) : stm S (bool * list A) :=
  match data with
  | [] => mret (true, [])
  | x :: data' =>
      r ← Read x;
      if fst r : bool then rest ← ReadArray Read data'; mret (fst rest, snd r :: snd rest) else mret (false, snd r :: data')
  end.
Definition WriteArray {A} (Write : A -> stm S unit) (data : list A) : stm S unit := st_forM data Write.

Definition ComposeVectorHandler_Write {A} (little : bool) (Write : A -> stm S unit) (vec : list A) : stm S unit :=
  write_size little vec;; WriteArray Write vec.
(** [sz] has no value when it cannot be read. *)
Definition ComposeVectorHandler_Read {A} (little : bool) (d : A) (Read : A -> stm S (bool * A)) (out : list A) : stm S (bool * list A) :=
  sz ← ArithmeticHandler_Read little 8 0;
  if fst sz : bool then ReadArray Read (vector_resize d (Z.to_nat (snd sz)) out) else mret (false, out).

(** The same for vectors of POD elements of [n] bytes. *)
Definition NativePODVectorHandler_Write {A} (little : bool) (bytes : A -> list Z) (vec : list A) : stm S unit :=
  write_size little vec;;
  if (length vec =? 0)%nat then mret tt else Stream_Write_bytes (concat (map bytes vec)).

(** The elements of a block of memory. *)
Fixpoint chunks (k n : nat) (bs : list Z) : list (list Z) :=
  match k with O => [] | Datatypes.S k' => take n bs :: chunks k' n (drop n bs) end.

Definition NativePODVectorHandler_Read {A} (little : bool) (n : nat) (d : A) (bytes : A -> list Z) (of_bytes : list Z -> A) (out : list A) : stm S (bool * list A) :=
  sz ← ArithmeticHandler_Read little 8 0;
  if fst sz : bool then
    let size := Z.to_nat (snd sz) in
    let out := vector_resize d size out in
    if (size =? 0)%nat then mret (true, out)
    else
      r ← NativePODHandler_Read (concat (map bytes out));
      mret (fst r, map of_bytes (chunks size n (snd r)))
  else mret (false, out).

(** A string is written like a vector of [char]. *)
Definition NativePODStringHandler_Write (little : bool) (vec : list Z) : stm S unit := NativePODVectorHandler_Write little (fun c => [c]) vec.
Definition NativePODStringHandler_Read (little : bool) (out : list Z) : stm S (bool * list Z) :=
  NativePODVectorHandler_Read little 1 0 (fun c => [c]) (fun bs => le_val bs) out.

(** [CollectionHandler] and [ListHandler]: through a vector. *)
Definition CollectionHandler_Write {A} (Write_vector : list A -> stm S unit) (data : list A) : stm S unit := Write_vector data.
Definition ListHandler_Write {A} (Write_vector : list A -> stm S unit) (data : list A) : stm S unit := Write_vector data.
Definition CollectionHandler_Read {A} (less : A -> A -> bool) (Read_vector : list A -> stm S (bool * list A)) (data : list A) : stm S (bool * list A) :=
  r ← Read_vector [];
  if fst r : bool then mret (true, insert_all less (snd r) []) else mret (false, data).
Definition ListHandler_Read {A} (Read_vector : list A -> stm S (bool * list A)) (data : list A) : stm S (bool * list A) :=
  r ← Read_vector [];
  if fst r : bool then mret (true, snd r) else mret (false, data).

(** [Handler<std::vector<T>>], given that of the elements. *)
Definition Vector_Write (little : bool) (a : ty) (Write : denote a -> stm S unit) (vec : list (denote a)) : stm S unit :=
  if is_pod a && no_swap little then NativePODVectorHandler_Write little (object_bytes little a) vec
  else ComposeVectorHandler_Write little Write vec.
Definition Vector_Read (little : bool) (a : ty) (Read : denote a -> stm S (bool * denote a)) (out : list (denote a)) : stm S (bool * list (denote a)) :=
  if is_pod a && no_swap little then NativePODVectorHandler_Read little (sizeof a) (dflt a) (object_bytes little a) (object_of little a) out
  else ComposeVectorHandler_Read little (dflt a) Read out.

Definition PairHandler_Write {A B} (Wa : A -> stm S unit) (Wb : B -> stm S unit) (data : A * B) : stm S unit := Wa (fst data);; Wb (snd data).
Definition PairHandler_Read {A B} (Ra : A -> stm S (bool * A)) (Rb : B -> stm S (bool * B)) (data : A * B) : stm S (bool * (A * B)) :=
  r ← Ra (fst data);
  if fst r : bool then r2 ← Rb (snd data); mret (fst r2, (snd r, snd r2)) else mret (false, (snd r, snd data)).

(** [Handler<std::pair<TA, TB>>] *)
Definition Pair_Write (little : bool) (a b : ty) (Wa : denote a -> stm S unit) (Wb : denote b -> stm S unit) (data : denote a * denote b) : stm S unit :=
  if is_pod a && is_pod b && no_swap little then NativePODHandler_Write (pair_bytes little a b data)
  else PairHandler_Write Wa Wb data.
Definition Pair_Read (little : bool) (a b : ty) Ra Rb (data : denote a * denote b) : stm S (bool * (denote a * denote b)) :=
  if is_pod a && is_pod b && no_swap little then
    r ← NativePODHandler_Read (pair_bytes little a b data); mret (fst r, pair_of little a b (snd r))
  else PairHandler_Read Ra Rb data.

(** [Handler<T>::Write], which [Stream::Write<T>] calls. *)
Fixpoint Write (little : bool) (t : ty) : denote t -> stm S unit :=
  match t return denote t -> stm S unit with
  | TArith n => ArithmeticHandler_Write little n
  | TPair a b => Pair_Write little a b (Write little a) (Write little b)
  | TVector a => Vector_Write little a (Write little a)
  | TString => NativePODStringHandler_Write little
  | TList a => ListHandler_Write (Vector_Write little a (Write little a))
  | TSet a => CollectionHandler_Write (Vector_Write little a (Write little a))
  | TMap k v => CollectionHandler_Write (Vector_Write little (TPair k v) (Pair_Write little k v (Write little k) (Write little v)))
  end.

(** [Handler<T>::Read]: whether it succeeded, and the object behind it. *)
Fixpoint Read (little : bool) (t : ty) : denote t -> stm S (bool * denote t) :=
  match t return denote t -> stm S (bool * denote t) with
  | TArith n => ArithmeticHandler_Read little n
  | TPair a b => Pair_Read little a b (Read little a) (Read little b)
  | TVector a => Vector_Read little a (Read little a)
  | TString => NativePODStringHandler_Read little
  | TList a => ListHandler_Read (Vector_Read little a (Read little a))
  | TSet a => CollectionHandler_Read (less a) (Vector_Read little a (Read little a))
  | TMap k v => CollectionHandler_Read (less_key (less k))
      (Vector_Read little (TPair k v) (Pair_Read little k v (Read little k) (Read little v)))
  end.
End serializer.
