(* ===== verification/SerializerFacts.v ===== *)
(** The serializer reads back what it wrote, on machines of either endianness. *)

From S2P Require Import Prelude State Bytes Serializer.

(** ** ByteSwap *)

(** [j] bytes of either end have been swapped. *)
Definition swapped (b : list Z) (j : nat) (b' : list Z) : Prop :=
  length b' = length b /\ forall i, (i < length b)%nat ->
    b' !! i = if decide (i < j \/ length b - j <= i)%nat then b !! (length b - 1 - i)%nat else b !! i.

Lemma swap_loop_ok b k : forall j b', swapped b j b' -> (2 * (k + j) <= length b)%nat ->
  exists b'', swap_loop k j b' = Ok b'' /\ swapped b (k + j) b''.
Proof.
  induction k as [|k IH]; intros j b' [Hl Hs] Hk; cbn [swap_loop]; [by exists b'|]. set (n := length b) in *.
  assert (Hi : (n - 1 - j < n)%nat) by lia. rewrite Hl. fold n.
  destruct (lookup_lt_is_Some_2 b (n - 1 - j)) as [v Hv]; [done|]. destruct (lookup_lt_is_Some_2 b j) as [u Hu]; [fold n; lia|].
  rewrite (Hs (n - 1 - j)%nat), decide_False, Hv by lia. cbn. rewrite (Hs j), decide_False, Hu by lia. cbn.
  destruct (IH (S j) (<[j := v]> (<[(n - 1 - j)%nat := u]> b'))) as (b'' & Hb & Hs'); [|lia|exists b''; split; [done|]; by rewrite <- Nat.add_succ_comm in Hs'].
  split; [by rewrite !length_insert|]. intros i Hn. fold n in Hn |- *. destruct (decide (i = j)) as [->|Hij].
  { rewrite list_lookup_insert_eq by (rewrite length_insert; lia). by rewrite decide_True, Hv by lia. }
  rewrite list_lookup_insert_ne by done. destruct (decide (i = n - 1 - j)%nat) as [->|Hij2].
  { rewrite list_lookup_insert_eq by lia. rewrite decide_True by lia. by replace (n - 1 - (n - 1 - j))%nat with j by lia. }
  rewrite list_lookup_insert_ne, Hs by done. destruct (decide (i < j \/ n - j <= i)%nat).
  - by rewrite decide_True by lia.
  - by rewrite decide_False by lia.
Qed.

(** [ByteSwap] reverses the bytes of an element. *)
Lemma ByteSwap_rev b : ByteSwap b = Ok (rev b).
Proof.
  pose proof (Nat.div_mod (length b) 2 ltac:(lia)) as Hd. pose proof (Nat.mod_upper_bound (length b) 2 ltac:(lia)) as Hm.
  destruct (swap_loop_ok b (length b / 2) 0 b) as (b' & Hb & Hl & Hs); [|lia|].
  { split; [done|]. intros i Hi. by rewrite decide_False by lia. }
  unfold ByteSwap. rewrite Hb. f_equal. apply list_eq. intros i. destruct (Nat.lt_ge_cases i (length b)) as [Hi|Hi].
  - rewrite Hs by done. rewrite rev_alt. fold (reverse b). rewrite reverse_lookup by done. replace (length b - S i)%nat with (length b - 1 - i)%nat by lia.
    case_decide; [done|]. by replace (length b - 1 - i)%nat with i by lia.
  - rewrite !lookup_ge_None_2; [done| |]; rewrite ?length_rev; lia.
Qed.

(** ** The two streams *)

#[global] Program Instance fixed_laws : StreamLaws MemoryFixedSizeStream := {
  written s w room := exists rest, stream_at s w rest /\ room <= Z.of_nat (length rest);
  to_read s r := exists pre, stream_at s pre r }.
Next Obligation.
  intros s w room bs (rest & Hat & Hr) Hl. destruct (Stream_Write_fits s w rest bs Hat ltac:(lia)) as (s' & Hw & Hat').
  exists tt, s'. split; [cbn; by rewrite Hw|]. exists (drop (length bs) rest). split; [done|]. rewrite length_drop. lia.
Qed.
Next Obligation.
  intros s w room (rest & (H1 & H2 & H3 & H4) & _). exists rest, []. split; [done|]. split; [done|]. cbn. rewrite H3, length_app. split; [lia|].
  rewrite H3 in H4. lia.
Qed.
Next Obligation.
  intros s bs rest (pre & H1 & H2 & H3 & H4). rewrite length_app in H3. unfold runs. cbn [Stream_Read_bytes fixed_Stream]. unfold Stream_Read.
  rewrite H2, H3, u64_small, u64_small, Z.min_r by lia. rewrite u64_small, H1, !length_app by lia. pass. rewrite DEFINED_true by (apply orb_true_intro; right; b2p; lia).
  eexists bs, _. split; [|split; [done|]].
  - cbn. rewrite !Nat2Z.id. unfold slice. rewrite drop_app_length, take_app_length. reflexivity.
  - exists (pre ++ bs). unfold stream_at. cbn. rewrite <- app_assoc, length_app. rewrite H3 in H4. repeat split; lia.
Qed.

#[global] Program Instance string_laws : StreamLaws MemoryStringStream := {
  written s w room := ss_buffer s = w /\ ss_curr_ptr s = Z.of_nat (length w) /\ Z.of_nat (length w) + room < 2 ^ 64;
  to_read s r := exists pre, ss_buffer s = pre ++ r /\ ss_curr_ptr s = Z.of_nat (length pre) }.
Next Obligation.
  intros s w room bs (Hb & Hp & Hr) Hl. unfold runs. cbn [Stream_Write_bytes string_Stream]. unfold StringStream_Write.
  destruct bs as [|c bs'] eqn:E; [exists tt, s; rewrite app_nil_r; split; [done|]; cbn; split_and!; [done|done|lia]|]. rewrite <- E in Hl |- *.
  assert (Hn : (0 < length bs)%nat) by (rewrite E; cbn; lia). rewrite (proj2 (Z.eqb_neq _ 0)), Hb, Hp, u64_small, (proj2 (Z.ltb_lt _ _)) by lia.
  rewrite length_app, length_replicate. pass. eexists tt, _. split; [reflexivity|]. cbn. rewrite length_app. split; [|lia].
  rewrite Nat2Z.id. unfold splice. rewrite take_app_length, drop_ge; [by rewrite app_nil_r|]. rewrite length_app, length_replicate. lia.
Qed.
Next Obligation. intros s w room (Hb & _ & _). exists [], []. cbn. by rewrite app_nil_r. Qed.
Next Obligation.
  intros s bs rest (pre & Hb & Hp). unfold runs. cbn [Stream_Read_bytes string_Stream]. unfold StringStream_Read.
  rewrite Hb, Hp, !length_app. pass. rewrite Z.min_r by lia. eexists bs, _. split; [|split; [done|]].
  - rewrite !Nat2Z.id. unfold slice. rewrite drop_app_length, take_app_length. reflexivity.
  - exists (pre ++ bs). cbn. rewrite <- app_assoc, length_app. split; [done|lia].
Qed.

(** ** The order of the containers *)

Definition asymmetric {A} (less : A -> A -> bool) : Prop := forall x y, less x y = true -> less y x = false.

Lemma asymmetric_pair {A B} (la : A -> A -> bool) (lb : B -> B -> bool) : asymmetric la -> asymmetric lb -> asymmetric (less_pair la lb).
Proof.
  intros Ha Hb [x1 x2] [y1 y2]. unfold less_pair. cbn. destruct (la x1 y1) eqn:E; cbn.
  - by rewrite (Ha _ _ E).
  - destruct (la y1 x1) eqn:E2; cbn; [done|]. apply Hb.
Qed.

Lemma asymmetric_lex {A} (la : A -> A -> bool) : asymmetric la -> asymmetric (lex la).
Proof.
  intros Ha l1. induction l1 as [|x l1 IH]; intros [|y l2]; cbn; try done. destruct (la x y) eqn:E; cbn.
  - by rewrite (Ha _ _ E).
  - destruct (la y x) eqn:E2; cbn; [done|]. apply IH.
Qed.

Lemma asymmetric_less t : asymmetric (less t).
Proof.
  induction t; cbn; repeat first [apply asymmetric_lex | apply asymmetric_pair]; try done.
  all: intros x y; rewrite Z.ltb_lt, Z.ltb_ge; lia.
Qed.

Lemma asymmetric_key {A B} (la : A -> A -> bool) : asymmetric la -> asymmetric (less_key (B:=B) la).
Proof. intros Ha x y. apply Ha. Qed.

(** The elements of a container, in its order. *)
Definition ordered {A} (less : A -> A -> bool) (l : list A) : Prop := StronglySorted (fun x y => less x y = true) l.

Lemma container_insert_last {A} (less : A -> A -> bool) x l : asymmetric less ->
  Forall (fun y => less y x = true) l -> container_insert less x l = l ++ [x].
Proof. intros Ha. induction 1 as [|y l Hy _ IH]; cbn; [done|]. by rewrite (Ha _ _ Hy), Hy, IH. Qed.

(** Inserting the elements of a container in its order rebuilds it. *)
Lemma insert_all_ordered {A} (less : A -> A -> bool) l : asymmetric less -> forall c, ordered less (c ++ l) -> insert_all less l c = c ++ l.
Proof.
  intros Ha. induction l as [|x l IH]; intros c Hc; cbn; [by rewrite app_nil_r|]. unfold insert_all in IH.
  rewrite container_insert_last; [|done|].
  - rewrite IH; rewrite <- app_assoc; done.
  - apply Forall_forall. intros y Hy. exact (StronglySorted_app_1_elem_of _ _ _ y x Hc Hy (list_elem_of_here _ _)).
Qed.

(** ** The format *)

Section format.
Context (io_little : bool) (pad : nat -> list Z).

Definition enc_list {A} (enc : A -> list Z) (l : list A) : list Z := repr io_little 8 (Z.of_nat (length l)) ++ concat (map enc l).
Definition enc_pair (little : bool) (a b : ty) (ea : denote a -> list Z) (eb : denote b -> list Z) (x : denote a * denote b) : list Z :=
  if is_pod a && is_pod b && no_swap io_little little then pair_bytes pad little a b x else ea (fst x) ++ eb (snd x).
Fixpoint enc (little : bool) (t : ty) : denote t -> list Z :=
  match t return denote t -> list Z with
  | TArith n => repr io_little n
  | TPair a b => enc_pair little a b (enc little a) (enc little b)
  | TVector a | TList a | TSet a => enc_list (enc little a)
  | TString => enc_list (fun c => [c])
  | TMap k v => enc_list (enc_pair little k v (enc little k) (enc little v))
  end.
End format.

(** Types with objects: arithmetic types are not empty. *)
Fixpoint ty_ok (t : ty) : Prop :=
  match t with
  | TArith n => (0 < n)%nat
  | TPair a b | TMap a b => ty_ok a /\ ty_ok b
  | TVector a | TList a | TSet a => ty_ok a
  | TString => True
  end.

(** Values of a type: bits in range, sizes of 64 bits, ordered containers. *)
Definition wf_list {A} (P : A -> Prop) (l : list A) : Prop := Z.of_nat (length l) < 2 ^ 64 /\ Forall P l.
Definition wf_pair {A B} (P : A -> Prop) (Q : B -> Prop) (x : A * B) : Prop := P (fst x) /\ Q (snd x).
Fixpoint wf (t : ty) : denote t -> Prop :=
  match t return denote t -> Prop with
  | TArith n => fun z => 0 <= z < 256 ^ Z.of_nat n
  | TPair a b => wf_pair (wf a) (wf b)
  | TVector a | TList a => wf_list (wf a)
  | TString => wf_list is_byte
  | TSet a => fun l => wf_list (wf a) l /\ ordered (less a) l
  | TMap k v => fun l => wf_list (wf_pair (wf k) (wf v)) l /\ ordered (less_key (less k)) l
  end.

(** No pair of arithmetic types has padding. *)
Definition unpadded (a b : ty) : bool := negb (is_pod a && is_pod b) || (sizeof_pair a b =? sizeof a + sizeof b)%nat.
Fixpoint portable (t : ty) : bool :=
  match t with
  | TArith _ | TString => true
  | TPair a b | TMap a b => unpadded a b && portable a && portable b
  | TVector a | TList a | TSet a => portable a
  end.

Lemma length_repr little n z : length (repr little n z) = n.
Proof. unfold repr. destruct little; rewrite ?length_rev; apply length_le_bytes. Qed.

Lemma unrepr_repr little n z : 0 <= z < 256 ^ Z.of_nat n -> unrepr little (repr little n z) = z.
Proof. intros Hz. unfold unrepr, repr. destruct little; rewrite ?rev_involutive; by apply le_val_le_bytes_id. Qed.

Lemma no_swap_true io little : no_swap io little = true -> little = io.
Proof. by destruct io, little. Qed.

Lemma repr_swap io little n z : no_swap io little = false -> rev (repr little n z) = repr io n z.
Proof. unfold repr. destruct io, little; try done; intros _. apply rev_involutive. Qed.

(** ** The layout of pairs *)

Lemma round_to_ge n align : (0 < align)%nat -> (n <= round_to n align)%nat.
Proof.
  intros Ha. unfold round_to. pose proof (Nat.div_mod (n + align - 1) align ltac:(lia)). pose proof (Nat.mod_upper_bound (n + align - 1) align ltac:(lia)). lia.
Qed.

Lemma chunks_concat n (bs : list (list Z)) : Forall (fun b => length b = n) bs -> chunks (length bs) n (concat bs) = bs.
Proof. induction 1 as [|b bs <- _ IH]; cbn; [done|]. by rewrite take_app_length, drop_app_length, IH. Qed.

Lemma length_concat_const {A} n (f : A -> list Z) l : (forall x, length (f x) = n) -> length (concat (map f l)) = (length l * n)%nat.
Proof. intros Hf. induction l as [|x l IH]; cbn; [done|]. rewrite length_app, Hf, IH. lia. Qed.

Section layout.
Context (pad : nat -> list Z) (Hpad : forall n, (n <= length (pad n))%nat).
Context (little : bool) (n m : nat) (Hn : (0 < n)%nat) (Hm : (0 < m)%nat).

Lemma pair_offsets : (n <= second_off (TArith n) (TArith m))%nat /\
  (second_off (TArith n) (TArith m) + m <= sizeof_pair (TArith n) (TArith m))%nat.
Proof. unfold sizeof_pair, second_off. cbn [sizeof]. split; apply round_to_ge; lia. Qed.

Lemma length_pair_bytes x : length (pair_bytes pad little (TArith n) (TArith m) x) = sizeof_pair (TArith n) (TArith m).
Proof.
  destruct pair_offsets as [H1 H2]. unfold pair_bytes. cbn [object_bytes]. rewrite !length_app, !length_repr, !length_take.
  pose proof (Hpad (second_off (TArith n) (TArith m))). pose proof (Hpad (sizeof_pair (TArith n) (TArith m))). cbn [sizeof]. lia.
Qed.

Lemma pair_of_bytes x : wf (TPair (TArith n) (TArith m)) x -> pair_of little (TArith n) (TArith m) (pair_bytes pad little (TArith n) (TArith m) x) = x.
Proof.
  destruct x as [x y]. intros [Hx Hy]. cbn in Hx, Hy. destruct pair_offsets as [H1 H2]. unfold pair_of, pair_bytes. cbn [object_bytes object_of fst snd].
  pose proof (Hpad (second_off (TArith n) (TArith m))). f_equal.
  - rewrite take_app_length' by (by rewrite length_repr). by apply unrepr_repr.
  - unfold slice. rewrite (app_assoc (repr little n x)), drop_app_length' by (rewrite length_app, length_repr, length_take; cbn [sizeof]; lia).
    rewrite take_app_length' by (by rewrite length_repr). by apply unrepr_repr.
Qed.

Lemma pair_bytes_unpadded x : unpadded (TArith n) (TArith m) = true ->
  pair_bytes pad little (TArith n) (TArith m) x = repr little n (fst x) ++ repr little m (snd x).
Proof.
  unfold unpadded. cbn [is_pod andb negb orb]. rewrite Nat.eqb_eq. cbn [sizeof]. intros Hu. destruct pair_offsets as [H1 H2]. unfold pair_bytes.
  cbn [sizeof object_bytes]. rewrite Hu. replace (second_off (TArith n) (TArith m)) with n by lia. rewrite !Nat.sub_diag. cbn. by rewrite app_nil_r.
Qed.
End layout.

(** ** Writers and readers on a stream *)

Section codecs.
Context {St : Type} `{HL : StreamLaws St}.

Definition writes (m : stm St unit) (bs : list Z) : Prop := forall s w room, written s w room -> Z.of_nat (length bs) <= room ->
  runs m s (fun _ s' => written s' (w ++ bs) (room - Z.of_nat (length bs))).
Definition reads {A} (m : stm St A) (bs : list Z) (a : A) : Prop := forall s rest, to_read s (bs ++ rest) ->
  runs m s (fun r s' => r = a /\ to_read s' rest).

Lemma writes_ret : writes (mret tt) [].
Proof. intros s w room Hw _. apply runs_ret. by rewrite app_nil_r, Z.sub_0_r. Qed.

Lemma writes_seq m m' bs bs' : writes m bs -> writes m' bs' -> writes (m;; m') (bs ++ bs').
Proof.
  intros Hm Hm' s w room Hw Hr. rewrite length_app in Hr. apply runs_bind. eapply runs_mono; [apply Hm; [exact Hw|lia]|]. intros ? s1 H1.
  eapply runs_mono; [apply Hm'; [exact H1|lia]|]. intros ? s2 H2. rewrite app_assoc, length_app.
  by replace (room - Z.of_nat (length bs + length bs')) with (room - Z.of_nat (length bs) - Z.of_nat (length bs')) by lia.
Qed.

Lemma writes_bytes bs : writes (Stream_Write_bytes bs) bs.
Proof. intros s w room. apply write_law. Qed.

Lemma writes_lift {A} (o : outcome A) a f bs : o = Ok a -> writes (f a) bs -> writes (st_lift o ≫= f) bs.
Proof. intros Ho Hf s w room Hw Hr. apply runs_bind, (runs_lift _ a); [done|]. by apply Hf. Qed.

Lemma reads_ret {A} (a : A) : reads (mret a) [] a.
Proof. intros s rest Hr. by apply runs_ret. Qed.

Lemma reads_bind {A B} (m : stm St A) (f : A -> stm St B) bs bs' a b : reads m bs a -> reads (f a) bs' b -> reads (m ≫= f) (bs ++ bs') b.
Proof.
  intros Hm Hf s rest Hr. rewrite <- app_assoc in Hr. apply runs_bind. eapply runs_mono; [by apply Hm|]. intros r s1 [-> H1]. by apply Hf.
Qed.

Lemma reads_then {A B} (m : stm St A) (f : A -> stm St B) bs a b : reads m bs a -> reads (f a) [] b -> reads (m ≫= f) bs b.
Proof. intros Hm Hf. rewrite <- (app_nil_r bs). by apply (reads_bind _ _ _ _ a). Qed.

Lemma reads_lift {A} (o : outcome A) a : o = Ok a -> reads (st_lift o) [] a.
Proof. intros Ho s rest Hr. by apply (runs_lift _ a). Qed.

Lemma reads_bytes n bs : n = Z.of_nat (length bs) -> reads (Stream_Read_bytes n) bs bs.
Proof. intros -> s rest. apply read_law. Qed.

Lemma overlay_full got old : length got = length old -> overlay got old = got.
Proof. intros Hl. unfold overlay. by rewrite Hl, drop_all, app_nil_r. Qed.

Lemma writes_array {A} (W : A -> stm St unit) (e : A -> list Z) l : Forall (fun x => writes (W x) (e x)) l -> writes (WriteArray W l) (concat (map e l)).
Proof. induction 1 as [|x l Hx _ IH]; cbn; [apply writes_ret|]. by apply writes_seq. Qed.

Lemma reads_array {A} (R : A -> stm St (bool * A)) (e : A -> list Z) l : Forall (fun x => forall old, reads (R old) (e x) (true, x)) l ->
  forall data, length data = length l -> reads (ReadArray R data) (concat (map e l)) (true, l).
Proof.
  induction 1 as [|x l Hx _ IH]; intros [|d data] [=]; cbn; [apply reads_ret|]. eapply reads_bind; [apply Hx|]. cbn.
  eapply reads_then; [by apply IH|]. apply reads_ret.
Qed.

Section handlers.
Context (io_little : bool) (pad : nat -> list Z) (Hpad : forall n, (n <= length (pad n))%nat) (little : bool).

Lemma writes_arith n z : writes (ArithmeticHandler_Write io_little little n z) (repr io_little n z).
Proof.
  unfold ArithmeticHandler_Write. destruct (no_swap io_little little) eqn:E.
  - rewrite (no_swap_true _ _ E). apply writes_bytes.
  - eapply writes_lift; [apply ByteSwap_rev|]. rewrite (repr_swap _ _ _ _ E). apply writes_bytes.
Qed.

Lemma reads_arith n z old : 0 <= z < 256 ^ Z.of_nat n -> reads (ArithmeticHandler_Read io_little little n old) (repr io_little n z) (true, z).
Proof.
  intros Hz. unfold ArithmeticHandler_Read. eapply reads_then; [apply reads_bytes; by rewrite length_repr|]. cbv beta.
  rewrite overlay_full, length_repr, Nat.eqb_refl by (by rewrite !length_repr). eapply reads_then.
  - apply reads_lift. instantiate (1 := repr little n z). destruct (no_swap io_little little) eqn:E; [by rewrite (no_swap_true _ _ E)|].
    by rewrite ByteSwap_rev, <- (repr_swap _ _ _ _ E), rev_involutive.
  - cbv beta. rewrite unrepr_repr by done. apply reads_ret.
Qed.

Lemma reads_size {A} (l : list A) old : Z.of_nat (length l) < 2 ^ 64 ->
  reads (ArithmeticHandler_Read io_little little 8 old) (repr io_little 8 (Z.of_nat (length l))) (true, Z.of_nat (length l)).
Proof. intros Hl. apply reads_arith. change (256 ^ Z.of_nat 8) with (2 ^ 64). lia. Qed.

Lemma length_resize {A} (d : A) n l : length (vector_resize d n l) = n.
Proof. unfold vector_resize. rewrite length_app, length_take, length_replicate. lia. Qed.

Lemma reads_pod bs old : length bs = length old -> reads (NativePODHandler_Read old) bs (true, bs).
Proof.
  intros Hl. unfold NativePODHandler_Read. eapply reads_then; [apply reads_bytes; by rewrite Hl|]. cbv beta.
  rewrite overlay_full, Hl, Nat.eqb_refl by done. apply reads_ret.
Qed.

(** [W] writes [x] as [e x], and [R] reads it back whatever the object held. *)
Definition codec {A} (W : A -> stm St unit) (R : A -> stm St (bool * A)) (e : A -> list Z) (x : A) : Prop :=
  writes (W x) (e x) /\ forall old, reads (R old) (e x) (true, x).

Lemma codec_ext {A} W R (e e' : A -> list Z) x : e x = e' x -> codec W R e x -> codec W R e' x.
Proof. unfold codec. by intros ->. Qed.

Lemma codec_pod_vector {A} n (d : A) bytes of_bytes l : (forall x, length (bytes x) = n) -> wf_list (fun x => of_bytes (bytes x) = x) l ->
  codec (NativePODVectorHandler_Write io_little little bytes) (NativePODVectorHandler_Read io_little little n d bytes of_bytes) (enc_list io_little bytes) l.
Proof.
  intros Hb [Hl Hx]. split.
  - apply writes_seq; [apply writes_arith|]. destruct l as [|x l]; [apply writes_ret|]. apply writes_bytes.
  - intros old. unfold NativePODVectorHandler_Read. eapply reads_bind; [by apply reads_size|]. cbn [fst snd]. rewrite Nat2Z.id.
    destruct (length l =? 0)%nat eqn:E; b2p.
    { destruct l; [|done]. cbn. unfold vector_resize. rewrite take_0. apply reads_ret. }
    eapply reads_then; [apply reads_pod; by rewrite !(length_concat_const n), length_resize|]. cbn [fst snd].
    replace (length l) with (length (map bytes l)) by apply length_map. rewrite chunks_concat by (apply Forall_map, Forall_forall; intros; apply Hb).
    rewrite map_map. replace (map _ l) with l; [apply reads_ret|]. clear E Hl. induction Hx as [|x l Hx _ IH]; cbn; [done|]. by rewrite Hx, <- IH.
Qed.

Lemma codec_compose {A} (d : A) W R e l : wf_list (codec W R e) l ->
  codec (ComposeVectorHandler_Write io_little little W) (ComposeVectorHandler_Read io_little little d R) (enc_list io_little e) l.
Proof.
  intros [Hl Hx]. split.
  - apply writes_seq; [apply writes_arith|]. apply writes_array. eapply Forall_impl; [exact Hx|]. by intros x [Hw _].
  - intros old. unfold ComposeVectorHandler_Read. eapply reads_bind; [by apply reads_size|]. cbn [fst snd]. rewrite Nat2Z.id. apply reads_array.
    + eapply Forall_impl; [exact Hx|]. by intros x [_ Hr].
    + apply length_resize.
Qed.

Lemma codec_vector a W R e l : (is_pod a && no_swap io_little little = true -> forall x, e x = object_bytes little a x) ->
  (forall x, wf a x -> codec W R e x) -> wf_list (wf a) l ->
  codec (Vector_Write io_little little a W) (Vector_Read io_little little a R) (enc_list io_little e) l.
Proof.
  intros He Hc [Hl Hx]. unfold Vector_Write, Vector_Read. destruct (is_pod a && no_swap io_little little) eqn:E.
  - apply (codec_ext _ _ (enc_list io_little (object_bytes little a)));
      [unfold enc_list; f_equal; f_equal; apply map_ext; intros x; by rewrite He|].
    destruct a; try discriminate. apply codec_pod_vector; [intros; apply length_repr|]. split; [done|].
    eapply Forall_impl; [exact Hx|]. intros x Hw. by apply unrepr_repr.
  - apply codec_compose. split; [done|]. eapply Forall_impl; [exact Hx|]. apply Hc.
Qed.

Lemma codec_pair a b Wa Wb Ra Rb ea eb x : ty_ok a -> ty_ok b -> wf_pair (wf a) (wf b) x ->
  codec Wa Ra ea (fst x) -> codec Wb Rb eb (snd x) ->
  codec (Pair_Write io_little pad little a b Wa Wb) (Pair_Read io_little pad little a b Ra Rb) (enc_pair io_little pad little a b ea eb) x.
Proof.
  intros Ha Hb Hx [Hwa Hra] [Hwb Hrb]. unfold codec, Pair_Write, Pair_Read, enc_pair. destruct (is_pod a && is_pod b && no_swap io_little little) eqn:E.
  - destruct a; try discriminate. destruct b; try discriminate. split; [apply writes_bytes|]. intros old.
    eapply reads_then; [apply reads_pod; by rewrite !length_pair_bytes|]. cbn [fst snd]. rewrite pair_of_bytes by done. apply reads_ret.
  - split; [by apply writes_seq|]. intros old. unfold PairHandler_Read. eapply reads_bind; [apply Hra|]. cbn [fst snd].
    eapply reads_then; [apply Hrb|]. cbn. destruct x. apply reads_ret.
Qed.

Lemma codec_list {A} W (R : list A -> stm St (bool * list A)) e l : codec W R e l -> codec W (ListHandler_Read R) e l.
Proof. intros [Hw Hr]. split; [done|]. intros old. eapply reads_then; [apply Hr|]. apply reads_ret. Qed.

Lemma codec_collection {A} (ls : A -> A -> bool) W R e l : asymmetric ls -> ordered ls l -> codec W R e l -> codec W (CollectionHandler_Read ls R) e l.
Proof.
  intros Ha Ho [Hw Hr]. split; [done|]. intros old. eapply reads_then; [apply Hr|]. cbn [fst snd]. rewrite (insert_all_ordered ls l Ha []) by done. apply reads_ret.
Qed.

Lemma enc_object a : is_pod a && no_swap io_little little = true -> forall x, enc io_little pad little a x = object_bytes little a x.
Proof. destruct a; try discriminate. cbn. intros E x. by rewrite (no_swap_true _ _ E). Qed.

(** Every handler writes the format and reads it. *)
Lemma handler_codec t x : ty_ok t -> wf t x -> codec (Write io_little pad little t) (Read io_little pad little t) (enc io_little pad little t) x.
Proof.
  induction t as [n|a IHa b IHb|a IHa| |a IHa|a IHa|k IHk v IHv]; cbn [ty_ok wf Write Read enc]; intros Ht Hx.
  - split; [apply writes_arith|]. intros old. by apply reads_arith.
  - destruct Ht, Hx. apply codec_pair; auto; by split.
  - apply codec_vector; auto using enc_object.
  - apply codec_pod_vector; [done|]. destruct Hx as [Hl Hx]. split; [done|]. eapply Forall_impl; [exact Hx|]. intros c _. cbn. lia.
  - apply codec_list, codec_vector; auto using enc_object.
  - destruct Hx. apply codec_collection; [apply asymmetric_less|done|]. apply codec_vector; auto using enc_object.
  - destruct Ht, Hx. apply codec_collection; [apply asymmetric_key, asymmetric_less|done|]. apply (codec_vector (TPair k v)); [done| |done].
    intros x' Hx'. destruct (id Hx'). apply codec_pair; auto.
Qed.
End handlers.
End codecs.
