(* ===== verification/SerializerRoundtrip.v ===== *)
(** What is written with the serializer is read back, on machines of either
    endianness, and an input that was cut off is refused. *)

From S2P Require Import Prelude State Bytes Serializer SerializerFacts.

(** ** The format of portable types *)

Section portable.
Context (io_little : bool) (pad : nat -> list Z).

Lemma enc_list_ext {A} (e e' : A -> list Z) l : (forall x, e x = e' x) -> enc_list io_little e l = enc_list io_little e' l.
Proof. intros He. unfold enc_list. f_equal. f_equal. by apply map_ext. Qed.

Lemma enc_pair_unpadded little a b ea eb x : ty_ok a -> ty_ok b -> unpadded a b = true ->
  (is_pod a && no_swap io_little little = true -> forall x, ea x = object_bytes little a x) ->
  (is_pod b && no_swap io_little little = true -> forall x, eb x = object_bytes little b x) ->
  enc_pair io_little pad little a b ea eb x = ea (fst x) ++ eb (snd x).
Proof.
  intros Ha Hb Hu Hea Heb. unfold enc_pair. destruct (is_pod a) eqn:Ea, (is_pod b) eqn:Eb; cbn [andb]; try done.
  destruct (no_swap io_little little) eqn:E; [|done]. destruct a; try discriminate. destruct b; try discriminate.
  rewrite pair_bytes_unpadded by done. by rewrite Hea, Heb.
Qed.

(** It does not depend on the machine. *)
Lemma enc_portable l1 l2 t : ty_ok t -> portable t = true -> forall x, enc io_little pad l1 t x = enc io_little pad l2 t x.
Proof.
  induction t as [n|a IHa b IHb|a IHa| |a IHa|a IHa|k IHk v IHv]; cbn [ty_ok portable enc]; intros Ht Hp x; b2p; try done; try (apply enc_list_ext; auto).
  - destruct Ht. rewrite !enc_pair_unpadded; auto using enc_object. by rewrite IHa, IHb.
  - destruct Ht. intros y. rewrite !enc_pair_unpadded; auto using enc_object. by rewrite IHk, IHv.
Qed.
End portable.

(** ** Objects, one behind the other *)

Definition object : Type := {t : ty & denote t}.

Section objects.
Context (io_little : bool) (pad : nat -> list Z).
Context {St : Type} `{HS : Stream St}.

Definition write_objects (little : bool) (objs : list object) : stm St unit := st_forM objs (fun o => Write io_little pad little (projT1 o) (projT2 o)).
Fixpoint read_objects (little : bool) (olds : list object) : stm St (list (bool * object)) :=
  match olds with
  | [] => mret []
  | existT t old :: olds' => r ← Read io_little pad little t old; rs ← read_objects little olds'; mret ((fst r, existT t (snd r)) :: rs)
  end.
Definition enc_object_list (little : bool) (objs : list object) : list Z := concat (map (fun o => enc io_little pad little (projT1 o) (projT2 o)) objs).
End objects.

Definition object_ok (o : object) : Prop := ty_ok (projT1 o) /\ wf (projT1 o) (projT2 o).
Definition legible (lw lr : bool) (o : object) : Prop := lw = lr \/ portable (projT1 o) = true.

Section roundtrip.
Context (io_little : bool) (pad : nat -> list Z) (Hpad : forall n, (n <= length (pad n))%nat).
Context {St : Type} `{HL : StreamLaws St}.

Lemma writes_objects little objs : Forall object_ok objs -> writes (write_objects io_little pad little objs) (enc_object_list io_little pad little objs).
Proof. intros Ho. apply writes_array. eapply Forall_impl; [exact Ho|]. intros o [Ht Hw]. by apply handler_codec. Qed.

Lemma reads_objects lw lr objs : Forall object_ok objs -> Forall (legible lw lr) objs -> forall olds, map projT1 olds = map projT1 objs ->
  reads (read_objects io_little pad lr olds) (enc_object_list io_little pad lw objs) (map (fun o => (true, o)) objs).
Proof.
  induction 1 as [|[t x] objs [Ht Hx] _ IH]; intros Hr [|[t' old] olds] Ho; inversion Ho; [apply reads_ret|]. subst t'.
  apply Forall_cons in Hr as [Hr1 Hr]. cbn in Ht, Hx, Hr1. unfold enc_object_list. cbn [map concat projT1 projT2 read_objects].
  assert (He : enc io_little pad lw t x = enc io_little pad lr t x) by (destruct Hr1 as [->|Hr1]; [done|]; by apply enc_portable).
  rewrite He. eapply reads_bind; [by apply handler_codec|]. eapply reads_then; [by apply IH|]. apply reads_ret.
Qed.
End roundtrip.

(** ** Short reads *)

(** A stream that returns what is left when more is asked for. *)
Class ShortReads (St : Type) `{StreamLaws St} :=
  short_law s p n : to_read s p -> Z.of_nat (length p) < n -> runs (Stream_Read_bytes n) s (fun got _ => got = p).

#[global] Instance string_short : ShortReads MemoryStringStream.
Proof.
  intros s p n (pre & Hb & Hp) Hn. unfold runs. cbn [Stream_Read_bytes string_Stream]. unfold StringStream_Read. rewrite Hb, Hp, length_app. pass.
  rewrite Z.min_l by lia. eexists p, _. split; [|done]. replace (Z.of_nat (length pre + length p) - Z.of_nat (length pre)) with (Z.of_nat (length p)) by lia. rewrite !Nat2Z.id.
  unfold slice. rewrite drop_app_length, firstn_all. reflexivity.
Qed.

Section rejects.
Context {St : Type} `{HR : ShortReads St}.

(** [m] fails on every input that is cut off. *)
Definition rejects {A} (m : stm St (bool * A)) (bs : list Z) : Prop := forall s p q, bs = p ++ q -> q <> [] -> to_read s p ->
  runs m s (fun r _ => fst r = false).

Lemma rejects_nil {A} (m : stm St (bool * A)) : rejects m [].
Proof. intros s p q Hb Hq. by destruct p, q. Qed.

Lemma rejects_short {A} (f : list Z -> stm St (bool * A)) bs n : n = Z.of_nat (length bs) ->
  (forall got, (length got < length bs)%nat -> forall s, runs (f got) s (fun r _ => fst r = false)) -> rejects (Stream_Read_bytes n ≫= f) bs.
Proof.
  intros -> Hf s p q -> Hq Hs. assert (Hl : (length p < length (p ++ q))%nat) by (rewrite length_app; destruct q; [done|cbn; lia]).
  apply runs_bind. eapply runs_mono; [apply (short_law _ _ _ Hs); lia|]. intros got s' ->. by apply Hf.
Qed.

(** A first part that fails on its own, and a second one behind it. *)
Lemma rejects_bind {A B} (m : stm St (bool * A)) (f : bool * A -> stm St (bool * B)) bs bs' a : rejects m bs -> reads m bs (true, a) ->
  (forall r s, fst r = false -> runs (f r) s (fun r' _ => fst r' = false)) -> rejects (f (true, a)) bs' -> rejects (m ≫= f) (bs ++ bs').
Proof.
  intros Hm Hr Hf Hm' s p q Hb Hq Hs. apply runs_bind. destruct (app_eq_inv bs bs' p q Hb) as [(k & Hk & Hk')|(k & Hk & Hk')].
  - destruct k as [|c k].
    + rewrite app_nil_r in Hk. cbn in Hk'. subst. rewrite <- (app_nil_r p) in Hs. eapply runs_mono; [by apply Hr|]. intros r s' [-> Hs'].
      by apply (Hm' s' [] bs').
    + eapply runs_mono; [by apply (Hm s p (c :: k))|]. intros r s' Hr'. by apply Hf.
  - subst p. eapply runs_mono; [by apply Hr|]. intros r s' [-> Hs']. by apply (Hm' s' k q).
Qed.

Lemma rejects_then {A B} (m : stm St (bool * A)) (f : bool * A -> stm St (bool * B)) bs : rejects m bs ->
  (forall r s, fst r = false -> runs (f r) s (fun r' _ => fst r' = false)) -> rejects (m ≫= f) bs.
Proof. intros Hm Hf s p q Hb Hq Hs. apply runs_bind. eapply runs_mono; [by apply (Hm s p q)|]. intros r s' Hr. by apply Hf. Qed.

Lemma rejects_array {A} (R : A -> stm St (bool * A)) (e : A -> list Z) l :
  Forall (fun x => forall old, reads (R old) (e x) (true, x)) l -> Forall (fun x => forall old, rejects (R old) (e x)) l ->
  forall data, length data = length l -> rejects (ReadArray R data) (concat (map e l)).
Proof.
  induction 1 as [|x l Hx Hl IH]; intros Hj [|d data] [=]; cbn; [apply rejects_nil|]. apply Forall_cons in Hj as [Hj1 Hj].
  eapply rejects_bind; [apply Hj1|apply Hx| |].
  - intros [[] r] s [=]. by apply runs_ret.
  - cbn. apply rejects_then; [by apply IH|]. intros r s Hf. by apply runs_ret.
Qed.

Section handlers.
Context (io_little : bool) (pad : nat -> list Z) (Hpad : forall n, (n <= length (pad n))%nat) (little : bool).

Lemma rejects_arith n z old : rejects (ArithmeticHandler_Read (S:=St) io_little little n old) (repr io_little n z).
Proof.
  apply rejects_short; [by rewrite length_repr|]. rewrite length_repr. intros got Hg s. apply runs_bind.
  destruct (no_swap io_little little); (eapply runs_lift; [first [reflexivity|apply ByteSwap_rev]|]); apply runs_ret; apply Nat.eqb_neq; lia.
Qed.

Lemma rejects_pod old bs : length bs = length old -> rejects (NativePODHandler_Read (S:=St) old) bs.
Proof. intros Hl. apply rejects_short; [by rewrite Hl|]. intros got Hg s. apply runs_ret. cbn. apply Nat.eqb_neq. lia. Qed.

Lemma rejects_pod_vector {A} n (d : A) bytes of_bytes l old : (forall x, length (bytes x) = n) -> Z.of_nat (length l) < 2 ^ 64 ->
  rejects (NativePODVectorHandler_Read (S:=St) io_little little n d bytes of_bytes old) (enc_list io_little bytes l).
Proof.
  intros Hb Hl. eapply rejects_bind; [apply rejects_arith|by apply reads_size| |].
  - intros [[] r] s [=]. by apply runs_ret.
  - cbn [fst snd]. rewrite Nat2Z.id. destruct (length l =? 0)%nat eqn:E; b2p; [destruct l; [apply rejects_nil|done]|].
    apply rejects_then; [apply rejects_pod; by rewrite !(length_concat_const n), length_resize|]. intros r s Hr. by apply runs_ret.
Qed.

(** A handler that fails on what is cut off. *)
Definition strict {A} (R : A -> stm St (bool * A)) (e : A -> list Z) (x : A) : Prop := forall old, reads (R old) (e x) (true, x) /\ rejects (R old) (e x).

Lemma rejects_vector a R e l old : (is_pod a && no_swap io_little little = true -> forall x, e x = object_bytes little a x) ->
  (forall x, wf a x -> strict R e x) -> wf_list (wf a) l -> rejects (Vector_Read io_little little a R old) (enc_list io_little e l).
Proof.
  intros He Hc [Hl Hx]. unfold Vector_Read. destruct (is_pod a && no_swap io_little little) eqn:E.
  - rewrite (enc_list_ext _ e (object_bytes little a)) by auto. destruct a; try discriminate. apply rejects_pod_vector; [intros; apply length_repr|done].
  - eapply rejects_bind; [apply rejects_arith|by apply reads_size| |].
    + intros [[] r] s [=]. by apply runs_ret.
    + cbn [fst snd]. rewrite Nat2Z.id. apply rejects_array; [| |apply length_resize]; (eapply Forall_impl; [exact Hx|]); intros x Hw old'; by apply Hc.
Qed.

Lemma rejects_pair a b Ra Rb ea eb x old : ty_ok a -> ty_ok b -> strict Ra ea (fst x) -> strict Rb eb (snd x) ->
  rejects (Pair_Read io_little pad little a b Ra Rb old) (enc_pair io_little pad little a b ea eb x).
Proof.
  intros Ha Hb Hra Hrb. unfold Pair_Read, enc_pair. destruct (is_pod a && is_pod b && no_swap io_little little) eqn:E.
  - destruct a; try discriminate. destruct b; try discriminate. apply rejects_then; [apply rejects_pod; by rewrite !length_pair_bytes|].
    intros r s Hr. by apply runs_ret.
  - eapply rejects_bind; [apply Hra|apply Hra| |].
    + intros [[] r] s [=]. by apply runs_ret.
    + cbn [fst snd]. apply rejects_then; [apply Hrb|]. intros r s Hr. by apply runs_ret.
Qed.

Lemma rejects_through {A B} (R : stm St (bool * A)) (f : A -> B) d bs : rejects R bs ->
  rejects (r ← R; if fst r : bool then mret (true, f (snd r)) else mret (false, d)) bs.
Proof. intros HR'. apply rejects_then; [done|]. intros [[] r] s [=]. by apply runs_ret. Qed.

Lemma handler_rejects t : ty_ok t -> forall x old, wf t x -> rejects (Read (S:=St) io_little pad little t old) (enc io_little pad little t x).
Proof.
  assert (Hs : forall t x, ty_ok t -> wf t x -> (forall old, rejects (Read (S:=St) io_little pad little t old) (enc io_little pad little t x)) ->
    strict (Read (S:=St) io_little pad little t) (enc io_little pad little t) x) by (intros t' x' ?? Hr old; split; [by apply handler_codec|apply Hr]).
  induction t as [n|a IHa b IHb|a IHa| |a IHa|a IHa|k IHk v IHv]; cbn [ty_ok wf Read enc]; intros Ht x old Hx.
  - apply rejects_arith.
  - destruct Ht, Hx. apply rejects_pair; auto.
  - apply rejects_vector; auto using enc_object.
  - apply rejects_pod_vector; [done|apply Hx].
  - apply (rejects_through _ id), rejects_vector; auto using enc_object.
  - destruct Hx. apply (rejects_through _ (fun l => insert_all _ l [])), rejects_vector; auto using enc_object.
  - destruct Ht, Hx. apply (rejects_through _ (fun l => insert_all _ l [])), (rejects_vector (TPair k v)); [done| |done].
    intros y Hy old'. destruct (id Hy). split; [|apply rejects_pair; auto].
    by apply (handler_codec io_little pad Hpad little (TPair k v)).
Qed.
End handlers.
End rejects.

(** ** Theorems *)

(** C15: objects of any serializable types that are written one behind the other
    by a machine of either endianness are read back by another one, whatever the
    objects held before: sets and maps are rebuilt, and all reads succeed. The
    two machines agree or no type holds a pair of arithmetic types with padding.
    It holds of every stream that satisfies the laws, with room for the bytes. *)
Theorem objects_read_back io_little pad (Hpad : forall n, (n <= length (pad n))%nat) {St} `{HL : StreamLaws St} lw lr objs olds (s : St) room :
  Forall object_ok objs -> Forall (legible lw lr) objs -> map projT1 olds = map projT1 objs ->
  written s [] room -> Z.of_nat (length (enc_object_list io_little pad lw objs)) <= room ->
  runs (write_objects io_little pad lw objs) s (fun _ s' =>
    runs (read_objects io_little pad lr olds) (Stream_rewind s') (fun rs _ => rs = map (fun o => (true, o)) objs)).
Proof.
  intros Ho Hr Ht Hw Hl. eapply runs_mono; [by apply (writes_objects io_little pad Hpad)|]. intros ? s' Hw'.
  destruct (rewind_law _ _ _ Hw') as [rest Hs]. eapply runs_mono; [by eapply (reads_objects io_little pad Hpad lw lr objs)|]. by intros rs s'' [-> _].
Qed.

Ltac wf_example := repeat first [progress (cbn; unfold is_byte, wf_pair, wf_list, object_ok, ordered) | split | lia | done | constructor].

Definition zero_pad (n : nat) : list Z := replicate n 0.
Lemma zero_pad_length n : (n <= length (zero_pad n))%nat.
Proof. unfold zero_pad. by rewrite length_replicate. Qed.

Definition example_objects : list object :=
  [existT (TMap (TArith 4) TString) [(1, [97; 98]); (258, [])]; existT (TPair (TArith 8) (TArith 8)) (5, 2 ^ 40); existT (TVector (TArith 2)) [1; 513]].

Lemma objects_read_back_witness :
  runs (write_objects true zero_pad true example_objects) (Stream_new (replicate 100 7) 100) (fun _ s' =>
    runs (read_objects true zero_pad false (map (fun o => existT (projT1 o) (dflt (projT1 o))) example_objects)) (Stream_rewind s')
      (fun rs _ => rs = map (fun o => (true, o)) example_objects)).
Proof.
  apply (objects_read_back true zero_pad zero_pad_length true false example_objects _ _ 100).
  - wf_example.
  - repeat constructor; right; reflexivity.
  - reflexivity.
  - exists (replicate 100 7). split; [repeat split; done|vm_compute; discriminate].
  - vm_compute. discriminate.
Defined.

(** C35: an input of the string stream that was cut off anywhere is refused: [Read]
    returns false, without an error of the stream, for every type and value. *)
Theorem truncated_input_refused io_little pad (Hpad : forall n, (n <= length (pad n))%nat) little t (x old : denote t) p q :
  ty_ok t -> wf t x -> enc io_little pad little t x = p ++ q -> q <> [] ->
  runs (Read io_little pad little t old) (StringStream_new p) (fun r _ => fst r = false).
Proof. intros Ht Hx He Hq. apply (handler_rejects io_little pad Hpad little t Ht x old Hx _ p q He Hq). by exists []. Qed.

Lemma truncated_input_refused_witness :
  runs (Read true zero_pad false (TList (TPair (TArith 1) (TArith 2))) [])
    (StringStream_new [2; 0; 0; 0; 0; 0; 0; 0; 1; 2; 3; 4]) (fun r _ => fst r = false).
Proof.
  apply (truncated_input_refused true zero_pad zero_pad_length false
    (TList (TPair (TArith 1) (TArith 2))) [(1, 770); (4, 5)] [] _ [5; 0]).
  - cbn. lia.
  - wf_example.
  - reflexivity.
  - discriminate.
Defined.

(** The format of a pair with padding depends on the machine that writes it:
    between machines of different endianness such a pair is misread. *)
Lemma padded_pair_not_portable :
  length (enc true zero_pad true (TPair (TArith 1) (TArith 8)) (1, 2)) = 16%nat /\
  length (enc true zero_pad false (TPair (TArith 1) (TArith 8)) (1, 2)) = 9%nat.
Proof. by vm_compute. Qed.
