(* ===== verification/ResultType.v ===== *)
(** The [Result] type of src/src/mlt/include/prism/result.h: a value or an error
    in one piece of storage, whose objects are constructed and destroyed by hand.

    The storage keeps the object that lives in it, if any; reading or destroying
    an object that does not live there is undefined. The specialisations for
    [void] are instances of the same class as the general templates. Callbacks
    run in a state monad, so that it shows how often they are called. *)

From S2P Require Import Prelude State.

(** ** Storage *)

(** [Storage<T, E>] and [Constructor<T, E>]. *)
Class ResultStorage (T E S : Type) := {
  Storage_new : S;
  construct_ok : T -> S -> S;
  construct_err : E -> S -> S;
  get_ok : S -> outcome T;
  get_err : S -> outcome E;
  destroy_ok : S -> outcome S;
  destroy_err : S -> outcome S;
  move_ok : S -> S -> outcome (S * S);      (** from the first to the second: both of them afterwards *)
  move_err : S -> S -> outcome (S * S);
  copy_ok : S -> S -> outcome S;
  copy_err : S -> S -> outcome S;
  alive : S -> bool }.                      (** an object lives in the storage *)

(** The general template. *)
Record Storage (T E : Type) := mkStorage { storage_ : option (T + E); initialized_ : bool }.
Arguments mkStorage {T E}.
Arguments storage_ {T E}.
Arguments initialized_ {T E}.

Section storage.
Context {T E : Type}.
Notation S := (Storage T E).

Definition Storage_Storage : S := mkStorage None false.
Definition Storage_construct_ok (ok : T) (s : S) : S := mkStorage (Some (inl ok)) true.
Definition Storage_construct_err (err : E) (s : S) : S := mkStorage (Some (inr err)) true.
Definition rawConstruct (val : T + E) (s : S) : S := mkStorage (Some val) true.
Definition Storage_get_ok (s : S) : outcome T := match storage_ s with Some (inl v) => Ok v | _ => Undef end.
Definition Storage_get_err (s : S) : outcome E := match storage_ s with Some (inr e) => Ok e | _ => Undef end.
Definition Storage_destroy_ok (s : S) : outcome S :=
  if initialized_ s then Storage_get_ok s;; Ok (mkStorage None false) else Ok s.
Definition Storage_destroy_err (s : S) : outcome S :=
  if initialized_ s then Storage_get_err s;; Ok (mkStorage None false) else Ok s.
Definition Constructor_move_ok (src dst : S) : outcome (S * S) :=
  v ← Storage_get_ok src; src' ← Storage_destroy_ok src; Ok (src', rawConstruct (inl v) dst).
Definition Constructor_copy_ok (src dst : S) : outcome S := v ← Storage_get_ok src; Ok (rawConstruct (inl v) dst).
Definition Constructor_move_err (src dst : S) : outcome (S * S) :=
  e ← Storage_get_err src; src' ← Storage_destroy_err src; Ok (src', rawConstruct (inr e) dst).
Definition Constructor_copy_err (src dst : S) : outcome S := e ← Storage_get_err src; Ok (rawConstruct (inr e) dst).

#[global] Instance Storage_ops : ResultStorage T E S := {
  Storage_new := Storage_Storage;
  construct_ok := Storage_construct_ok; construct_err := Storage_construct_err;
  get_ok := Storage_get_ok; get_err := Storage_get_err;
  destroy_ok := Storage_destroy_ok; destroy_err := Storage_destroy_err;
  move_ok := Constructor_move_ok; move_err := Constructor_move_err;
  copy_ok := Constructor_copy_ok; copy_err := Constructor_copy_err;
  alive s := bool_decide (is_Some (storage_ s)) }.
End storage.

(** The specialisation for [void]: only an error lives in the storage. There is
    no constructor, so that [initialized_] starts without a value. *)
Record VoidStorage (E : Type) := mkVoidStorage { v_storage_ : option E; v_initialized_ : option bool }.
Arguments mkVoidStorage {E}.
Arguments v_storage_ {E}.
Arguments v_initialized_ {E}.

Section void_storage.
Context {E : Type}.
Notation S := (VoidStorage E).

Definition Void_construct_ok (ok : unit) (s : S) : S := mkVoidStorage (v_storage_ s) (Some true).
Definition Void_construct_err (err : E) (s : S) : S := mkVoidStorage (Some err) (Some true).
Definition Void_rawConstruct (val : E) (s : S) : S := mkVoidStorage (Some val) (Some true).
Definition Void_get_err (s : S) : outcome E := deref (v_storage_ s).
Definition Void_destroy_ok (s : S) : outcome S := Ok (mkVoidStorage (v_storage_ s) (Some false)).
Definition Void_destroy_err (s : S) : outcome S :=
  i ← deref (v_initialized_ s);
  if i : bool then Void_get_err s;; Ok (mkVoidStorage None (Some false)) else Ok s.
Definition Void_move_ok (src dst : S) : outcome (S * S) := Ok (src, dst).
Definition Void_copy_ok (src dst : S) : outcome S := Ok dst.
Definition Void_move_err (src dst : S) : outcome (S * S) :=
  e ← Void_get_err src; src' ← Void_destroy_err src; Ok (src', Void_rawConstruct e dst).
Definition Void_copy_err (src dst : S) : outcome S := e ← Void_get_err src; Ok (Void_rawConstruct e dst).

#[global] Instance Void_ops : ResultStorage unit E S := {
  Storage_new := mkVoidStorage None None;
  construct_ok := Void_construct_ok; construct_err := Void_construct_err;
  get_ok _ := Ok tt; get_err := Void_get_err;
  destroy_ok := Void_destroy_ok; destroy_err := Void_destroy_err;
  move_ok := Void_move_ok; move_err := Void_move_err;
  copy_ok := Void_copy_ok; copy_err := Void_copy_err;
  alive s := bool_decide (is_Some (v_storage_ s)) }.
End void_storage.

(** ** Result *)

Record Result (S : Type) := mkResult { ok_ : bool; r_storage : S }.
Arguments mkResult {S}.
Arguments ok_ {S}.
Arguments r_storage {S}.

Section result.
Context {T E S : Type} {HS : ResultStorage T E S}.

Definition Result_Ok (ok : T) : Result S := mkResult true (construct_ok ok Storage_new).
Definition Result_Err (err : E) : Result S := mkResult false (construct_err err Storage_new).

(** The moved-from result, and the new one. *)
Definition Result_move (other : Result S) : outcome (Result S * Result S) :=
  '(src, dst) ← (if ok_ other then move_ok (r_storage other) Storage_new else move_err (r_storage other) Storage_new);
  Ok (mkResult (ok_ other) src, mkResult (ok_ other) dst).
Definition Result_copy (other : Result S) : outcome (Result S) :=
  dst ← (if ok_ other then copy_ok (r_storage other) Storage_new else copy_err (r_storage other) Storage_new);
  Ok (mkResult (ok_ other) dst).
(** The destructor: the storage that it leaves. *)
Definition Result_destroy (r : Result S) : outcome S := if ok_ r then destroy_ok (r_storage r) else destroy_err (r_storage r).

Definition isOk (r : Result S) : bool := ok_ r.
Definition isErr (r : Result S) : bool := negb (ok_ r).
Definition expect (r : Result S) : outcome T := CHECK (isOk r);; get_ok (r_storage r).
Definition unwrapOr (r : Result S) (defaultValue : T) : outcome T := if isOk r then get_ok (r_storage r) else Ok defaultValue.
Definition unwrap (r : Result S) : outcome T := if isOk r then get_ok (r_storage r) else Fatal.
Definition unwrapErr (r : Result S) : outcome E := if isErr r then get_err (r_storage r) else Fatal.

(** [operator==]: no value is returned when only one of them is an error. *)
Definition Result_eq (eq_t : T -> T -> bool) (eq_e : E -> E -> bool) (lhs rhs : Result S) : outcome bool :=
  if isOk lhs && isOk rhs then x ← get_ok (r_storage lhs); y ← get_ok (r_storage rhs); Ok (eq_t x y)
  else if isErr lhs && isErr rhs then x ← get_err (r_storage lhs); y ← get_err (r_storage rhs); Ok (eq_e x y)
  else Undef.
Definition Result_eq_ok (eq_t : T -> T -> bool) (lhs : Result S) (ok : T) : outcome bool :=
  if negb (isOk lhs) then Ok false else x ← get_ok (r_storage lhs); Ok (eq_t x ok).
Definition Result_eq_err (eq_e : E -> E -> bool) (lhs : Result S) (err : E) : outcome bool :=
  if negb (isErr lhs) then Ok false else x ← get_err (r_storage lhs); Ok (eq_e x err).
End result.

(** ** Callbacks *)

Section callbacks.
Context {W T E U F S SU SF : Type} `{HS : ResultStorage T E S} `{HU : ResultStorage U E SU} `{HF : ResultStorage T F SF}.

(** [map] with a callback that returns a value, and one that returns a result. *)
Definition Result_map (func : T -> stm W U) (result : Result S) : stm W (Result SU) :=
  if isOk result then v ← st_lift (get_ok (r_storage result)); res ← func v; mret (Result_Ok res)
  else e ← st_lift (get_err (r_storage result)); mret (Result_Err e).
Definition Result_map_result (func : T -> stm W (Result SU)) (result : Result S) : stm W (Result SU) :=
  if isOk result then v ← st_lift (get_ok (r_storage result)); func v
  else e ← st_lift (get_err (r_storage result)); mret (Result_Err e).
Definition Result_mapError (func : E -> stm W F) (result : Result S) : stm W (Result SF) :=
  if isErr result then e ← st_lift (get_err (r_storage result)); res ← func e; mret (Result_Err res)
  else v ← st_lift (get_ok (r_storage result)); mret (Result_Ok v).
(** [then] and [otherwise] return a copy. *)
Definition Result_then (func : T -> stm W unit) (result : Result S) : stm W (Result S) :=
  (if isOk result then v ← st_lift (get_ok (r_storage result)); func v else mret tt);;
  st_lift (Result_copy result).
Definition Result_otherwise (func : E -> stm W unit) (result : Result S) : stm W (Result S) :=
  (if isErr result then e ← st_lift (get_err (r_storage result)); func e else mret tt);;
  st_lift (Result_copy result).
Definition Result_orElse (func : E -> stm W (Result SF)) (result : Result S) : stm W (Result SF) :=
  if isErr result then e ← st_lift (get_err (r_storage result)); func e
  else v ← st_lift (get_ok (r_storage result)); mret (Result_Ok v).

(** [TRY] in a function that returns a [Result<U, E>]. *)
Definition TRY (res : stm W (Result S)) (rest : T -> stm W (Result SU)) : stm W (Result SU) :=
  r ← res;
  if negb (isOk r) then e ← st_lift (get_err (r_storage r)); mret (Result_Err e)
  else v ← st_lift (get_ok (r_storage r)); rest v.
End callbacks.

(** ** Laws of the storage *)

(** [holds s x]: the object of [x] lives in [s]. [spent ok s]: the object of a
    result of that kind has been moved out of [s]. *)
Class StorageOk (T E S : Type) `{ResultStorage T E S} := {
  holds : S -> T + E -> Prop;
  spent : bool -> S -> Prop;
  construct_ok_law v : holds (construct_ok v Storage_new) (inl v);
  construct_err_law e : holds (construct_err e Storage_new) (inr e);
  get_ok_law s v : holds s (inl v) -> get_ok s = Ok v;
  get_err_law s e : holds s (inr e) -> get_err s = Ok e;
  copy_ok_law s v : holds s (inl v) -> exists d, copy_ok s Storage_new = Ok d /\ holds d (inl v);
  copy_err_law s e : holds s (inr e) -> exists d, copy_err s Storage_new = Ok d /\ holds d (inr e);
  move_ok_law s v : holds s (inl v) -> exists s' d, move_ok s Storage_new = Ok (s', d) /\ spent true s' /\ holds d (inl v);
  move_err_law s e : holds s (inr e) -> exists s' d, move_err s Storage_new = Ok (s', d) /\ spent false s' /\ holds d (inr e);
  destroy_ok_law s v : holds s (inl v) -> exists s', destroy_ok s = Ok s' /\ alive s' = false;
  destroy_err_law s e : holds s (inr e) -> exists s', destroy_err s = Ok s' /\ alive s' = false;
  destroy_spent_ok_law s : spent true s -> exists s', destroy_ok s = Ok s' /\ alive s' = false;
  destroy_spent_err_law s : spent false s -> exists s', destroy_err s = Ok s' /\ alive s' = false }.

Definition Storage_holds {T E} (s : Storage T E) (x : T + E) : Prop := s = mkStorage (Some x) true.
Definition Storage_spent {T E} (ok : bool) (s : Storage T E) : Prop := s = mkStorage None false.
Definition Void_holds {E} (s : VoidStorage E) (x : unit + E) : Prop :=
  match x with inl _ => v_storage_ s = None | inr e => s = mkVoidStorage (Some e) (Some true) end.
Definition Void_spent {E} (ok : bool) (s : VoidStorage E) : Prop := if ok then v_storage_ s = None else s = mkVoidStorage None (Some false).

#[global] Instance Storage_laws {T E} : StorageOk T E (Storage T E).
Proof.
  refine {| holds := Storage_holds; spent := Storage_spent |}; unfold Storage_holds, Storage_spent; intros; subst; repeat eexists.
Defined.

#[global] Instance Void_laws {E} : StorageOk unit E (VoidStorage E).
Proof.
  refine {| holds := Void_holds; spent := Void_spent |}; unfold Void_holds, Void_spent; intros; repeat match goal with v : unit |- _ => destruct v end;
    subst; cbn; repeat eexists; cbn; try done; (apply bool_decide_eq_false_2; cbn; match goal with H : _ = None |- _ => rewrite H end; apply is_Some_None).
Defined.

(** ** Results are sums *)

Section sums.
Context {T E S : Type} `{HL : StorageOk T E S}.

Definition is_left (x : T + E) : bool := match x with inl _ => true | inr _ => false end.
(** A result with a value or an error, or one that was moved from. *)
Definition stands_for (r : Result S) (o : option (T + E)) : Prop :=
  match o with Some x => ok_ r = is_left x /\ holds (r_storage r) x | None => spent (ok_ r) (r_storage r) end.
Definition of_sum (x : T + E) : Result S := match x with inl v => Result_Ok v | inr e => Result_Err e end.

Lemma of_sum_ok x : stands_for (of_sum x) (Some x).
Proof. destruct x; split; cbn; auto using construct_ok_law, construct_err_law. Qed.

Lemma copy_refines r x : stands_for r (Some x) -> exists d, Result_copy r = Ok d /\ stands_for d (Some x).
Proof.
  intros [Hk Hh]. unfold Result_copy. destruct x; cbn in Hk; rewrite Hk.
  - destruct (copy_ok_law _ _ Hh) as (d & -> & Hd). by exists (mkResult true d).
  - destruct (copy_err_law _ _ Hh) as (d & -> & Hd). by exists (mkResult false d).
Qed.

Lemma move_refines r x : stands_for r (Some x) -> exists r' d, Result_move r = Ok (r', d) /\ stands_for r' None /\ stands_for d (Some x).
Proof.
  intros [Hk Hh]. unfold Result_move. destruct x; cbn in Hk; rewrite Hk.
  - destruct (move_ok_law _ _ Hh) as (s & d & -> & Hs & Hd). by exists (mkResult true s), (mkResult true d).
  - destruct (move_err_law _ _ Hh) as (s & d & -> & Hs & Hd). by exists (mkResult false s), (mkResult false d).
Qed.

Lemma destroy_refines r o : stands_for r o -> exists s, Result_destroy r = Ok s /\ alive s = false.
Proof.
  unfold Result_destroy. destruct o as [[v|e]|]; cbn.
  - intros [-> Hh]. by apply (destroy_ok_law _ v).
  - intros [-> Hh]. by apply (destroy_err_law _ e).
  - destruct (ok_ r); [apply destroy_spent_ok_law|apply destroy_spent_err_law].
Qed.

Lemma get_ok_refines r v : stands_for r (Some (inl v)) -> isOk r = true /\ get_ok (r_storage r) = Ok v.
Proof. intros [Hk Hh]. split; [done|by apply get_ok_law]. Qed.
Lemma get_err_refines r e : stands_for r (Some (inr e)) -> isOk r = false /\ get_err (r_storage r) = Ok e.
Proof. intros [Hk Hh]. split; [done|by apply get_err_law]. Qed.
End sums.

(** ** Programs over results *)

Section programs.
Context {T E S : Type} `{HL : StorageOk T E S}.

(** Statements over variables; a callback logs what it is called with. *)
Inductive stmt :=
| SMake (x : Z) (v : T + E)
| SCopy (x y : Z) | SMove (x y : Z)
| SMap (x y : Z) (f : T -> T) | SMapResult (x y : Z) (f : T -> T + E) | SMapError (x y : Z) (g : E -> E)
| SThen (x y : Z) | SOtherwise (x y : Z) | SOrElse (x y : Z) (g : E -> T + E)
| SDestroy (x : Z).

(** The results, the log, and the number of objects that were left behind by a
    destructor. *)
Record Vars := mkVars { vs_results : gmap Z (Result S); vs_log : list (T + E); vs_leaks : nat }.

Definition called (x : T + E) : stm (list (T + E)) unit := st_modify (fun l => l ++ [x]).
Definition lookup_var (s : Vars) (y : Z) : outcome (Result S) := deref (vs_results s !! y).
Definition store_var (s : Vars) (x : Z) (rl : Result S * list (T + E)) : Vars := mkVars (<[x := fst rl]> (vs_results s)) (snd rl) (vs_leaks s).
(** [x = f(y)], with a new variable. *)
Definition apply_var (s : Vars) (x y : Z) (f : Result S -> stm (list (T + E)) (Result S)) : outcome Vars :=
  r ← lookup_var s y; rl ← f r (vs_log s); Ok (store_var s x rl).

Definition run_stmt (s : Vars) (c : stmt) : outcome Vars :=
  match c with
  | SMake x v => Ok (store_var s x (of_sum v, vs_log s))
  | SCopy x y => apply_var s x y (fun r => st_lift (Result_copy r))
  | SMove x y =>
      r ← lookup_var s y;
      '(r', d) ← Result_move r;
      Ok (mkVars (<[x := d]> (<[y := r']> (vs_results s))) (vs_log s) (vs_leaks s))
  | SMap x y f => apply_var s x y (Result_map (fun v => called (inl v);; mret (f v)))
  | SMapResult x y f => apply_var s x y (Result_map_result (fun v => called (inl v);; mret (of_sum (f v))))
  | SMapError x y g => apply_var s x y (Result_mapError (fun e => called (inr e);; mret (g e)))
  | SThen x y => apply_var s x y (Result_then (fun v => called (inl v)))
  | SOtherwise x y => apply_var s x y (Result_otherwise (fun e => called (inr e)))
  | SOrElse x y g => apply_var s x y (Result_orElse (fun e => called (inr e);; mret (of_sum (g e))))
  | SDestroy x =>
      r ← lookup_var s x;
      st ← Result_destroy r;
      Ok (mkVars (delete x (vs_results s)) (vs_log s) (vs_leaks s + (if alive st then 1 else 0)))
  end.

(** The same over sums: a moved-from variable can only be destroyed, and a new
    variable is not in use. *)
Definition sum_state : Type := gmap Z (option (T + E)) * list (T + E).
Definition sum_apply (s : sum_state) (x y : Z) (f : T + E -> (T + E) * list (T + E)) : option sum_state :=
  match fst s !! x, fst s !! y with
  | None, Some (Some v) => Some (<[x := Some (fst (f v))]> (fst s), snd s ++ snd (f v))
  | _, _ => None
  end.
Definition sum_stmt (s : sum_state) (c : stmt) : option sum_state :=
  match c with
  | SMake x v => match fst s !! x with None => Some (<[x := Some v]> (fst s), snd s) | Some _ => None end
  | SCopy x y => sum_apply s x y (fun v => (v, []))
  | SMove x y =>
      match fst s !! x, fst s !! y with
      | None, Some (Some v) => Some (<[x := Some v]> (<[y := None]> (fst s)), snd s)
      | _, _ => None
      end
  | SMap x y f => sum_apply s x y (fun v => match v with inl t => (inl (f t), [v]) | inr _ => (v, []) end)
  | SMapResult x y f => sum_apply s x y (fun v => match v with inl t => (f t, [v]) | inr _ => (v, []) end)
  | SMapError x y g => sum_apply s x y (fun v => match v with inl _ => (v, []) | inr e => (inr (g e), [v]) end)
  | SThen x y => sum_apply s x y (fun v => (v, match v with inl _ => [v] | inr _ => [] end))
  | SOtherwise x y => sum_apply s x y (fun v => (v, match v with inl _ => [] | inr _ => [v] end))
  | SOrElse x y g => sum_apply s x y (fun v => match v with inl _ => (v, []) | inr e => (g e, [v]) end)
  | SDestroy x => match fst s !! x with Some _ => Some (delete x (fst s), snd s) | None => None end
  end.

Fixpoint sum_run (s : sum_state) (l : list stmt) : option sum_state :=
  match l with [] => Some s | c :: l' => match sum_stmt s c with Some s' => sum_run s' l' | None => None end end.

Record implements (s : Vars) (a : sum_state) : Prop := {
  im_vars : forall x, match vs_results s !! x, fst a !! x with
                      | Some r, Some o => stands_for r o | None, None => True | _, _ => False end;
  im_log : vs_log s = snd a;
  im_leaks : vs_leaks s = 0%nat }.

Lemma implements_lookup s a y o : implements s a -> fst a !! y = Some o -> exists r, lookup_var s y = Ok r /\ stands_for r o.
Proof. intros Hi Hy. pose proof (im_vars _ _ Hi y) as Hv. rewrite Hy in Hv. unfold lookup_var. destruct (vs_results s !! y) as [r|]; [by exists r|done]. Qed.

Lemma implements_store s a x r o l l' : implements s a -> stands_for r o -> l = snd a ++ l' ->
  implements (store_var s x (r, l)) (<[x := o]> (fst a), snd a ++ l').
Proof.
  intros [Hv Hl Hk] Hr ->. split; [|done..]. intros z. cbn. destruct (decide (z = x)) as [->|Hne].
  - by rewrite !lookup_insert_eq.
  - rewrite !lookup_insert_ne by done. apply Hv.
Qed.

(** A callback operation, against what it means for sums. *)
Definition means (f : Result S -> stm (list (T + E)) (Result S)) (g : T + E -> (T + E) * list (T + E)) : Prop :=
  forall r v l, stands_for r (Some v) -> exists d, f r l = Ok (d, l ++ snd (g v)) /\ stands_for d (Some (fst (g v))).

Lemma apply_implements s a x y f g a' : means f g -> implements s a -> sum_apply a x y g = Some a' ->
  exists s', apply_var s x y f = Ok s' /\ implements s' a'.
Proof.
  intros Hm Hi Ha. unfold sum_apply in Ha. destruct (fst a !! x); [done|]. destruct (fst a !! y) as [[v|]|] eqn:Hy; try done.
  injection Ha as <-. destruct (implements_lookup _ _ _ _ Hi Hy) as (r & Hr & Hs). destruct (Hm r v (vs_log s) Hs) as (d & Hd & Hsd).
  unfold apply_var. rewrite Hr. cbn. rewrite Hd. cbn. eexists. split; [done|]. apply implements_store; [done..|]. by rewrite (im_log _ _ Hi).
Qed.

Ltac sum_cases r v :=
  intros r [v|v] l Hsum; [pose proof (get_ok_refines _ _ Hsum) as [Hk Hg]|pose proof (get_err_refines _ _ Hsum) as [Hk Hg]].

Lemma copy_means : means (fun r => st_lift (Result_copy r)) (fun v => (v, [])).
Proof. intros r v l Hs. destruct (copy_refines _ _ Hs) as (d & Hd & Hsd). exists d. unfold st_lift. rewrite Hd, app_nil_r. done. Qed.
Lemma map_means f : means (Result_map (fun v => called (inl v);; mret (f v))) (fun v => match v with inl t => (inl (f t), [v]) | inr _ => (v, []) end).
Proof.
  sum_cases r v; unfold Result_map; rewrite Hk; unfold mbind, stm_bind, st_lift; rewrite Hg; cbn; eexists; rewrite ?app_nil_r; (split; [done|]).
  - apply (of_sum_ok (inl (f v))).
  - apply (of_sum_ok (inr v)).
Qed.
Lemma map_result_means f : means (Result_map_result (fun v => called (inl v);; mret (of_sum (f v)))) (fun v => match v with inl t => (f t, [v]) | inr _ => (v, []) end).
Proof.
  sum_cases r v; unfold Result_map_result; rewrite Hk; unfold mbind, stm_bind, st_lift; rewrite Hg; cbn; eexists; rewrite ?app_nil_r; (split; [done|]).
  - apply of_sum_ok.
  - apply (of_sum_ok (inr v)).
Qed.
Lemma map_error_means g : means (Result_mapError (fun e => called (inr e);; mret (g e))) (fun v => match v with inl _ => (v, []) | inr e => (inr (g e), [v]) end).
Proof.
  sum_cases r v; unfold Result_mapError, isErr; unfold isOk in Hk; rewrite Hk; unfold mbind, stm_bind, st_lift; cbn; rewrite Hg; cbn; eexists; rewrite ?app_nil_r; (split; [done|]).
  - apply (of_sum_ok (inl v)).
  - apply (of_sum_ok (inr (g v))).
Qed.
Lemma or_else_means g : means (Result_orElse (fun e => called (inr e);; mret (of_sum (g e)))) (fun v => match v with inl _ => (v, []) | inr e => (g e, [v]) end).
Proof.
  sum_cases r v; unfold Result_orElse, isErr; unfold isOk in Hk; rewrite Hk; unfold mbind, stm_bind, st_lift; cbn; rewrite Hg; cbn; eexists; rewrite ?app_nil_r; (split; [done|]).
  - apply (of_sum_ok (inl v)).
  - apply of_sum_ok.
Qed.
Lemma then_means : means (Result_then (fun v => called (inl v))) (fun v => (v, match v with inl _ => [v] | inr _ => [] end)).
Proof.
  sum_cases r v; unfold Result_then; rewrite Hk; destruct (copy_refines _ _ Hsum) as (d & Hd & Hsd); exists d; (split; [|done]);
    unfold mbind, stm_bind, st_lift; rewrite ?Hg; cbn; rewrite Hd, ?app_nil_r; done.
Qed.
Lemma otherwise_means : means (Result_otherwise (fun e => called (inr e))) (fun v => (v, match v with inl _ => [] | inr _ => [v] end)).
Proof.
  sum_cases r v; unfold Result_otherwise, isErr; unfold isOk in Hk; rewrite Hk; destruct (copy_refines _ _ Hsum) as (d & Hd & Hsd); exists d; (split; [|done]);
    unfold mbind, stm_bind, st_lift; cbn; rewrite ?Hg; cbn; rewrite Hd, ?app_nil_r; done.
Qed.

Lemma move_implements s a x y a' : implements s a -> sum_stmt a (SMove x y) = Some a' -> exists s', run_stmt s (SMove x y) = Ok s' /\ implements s' a'.
Proof.
  intros Hi Ha. cbn in Ha. destruct (fst a !! x) eqn:Hx; [done|]. destruct (fst a !! y) as [[v|]|] eqn:Hy; try done. injection Ha as <-.
  destruct (implements_lookup _ _ _ _ Hi Hy) as (r & Hr & Hs). destruct (move_refines _ _ Hs) as (r' & d & Hd & Hr' & Hsd).
  cbn. rewrite Hr. cbn. rewrite Hd. cbn. eexists. split; [done|]. pose proof (implements_store s a y r' None (snd a) [] Hi Hr' ltac:(by rewrite app_nil_r)) as H1.
  pose proof (implements_store _ _ x d (Some v) (snd a) [] H1 Hsd ltac:(cbn; by rewrite !app_nil_r)) as H2.
  destruct H2 as [V L K]. split; [exact V| |exact K]. cbn. apply (im_log _ _ Hi).
Qed.

Lemma destroy_implements s a x a' : implements s a -> sum_stmt a (SDestroy x) = Some a' -> exists s', run_stmt s (SDestroy x) = Ok s' /\ implements s' a'.
Proof.
  intros Hi Ha. cbn in Ha. destruct (fst a !! x) as [o|] eqn:Hx; [|done]. injection Ha as <-.
  destruct (implements_lookup _ _ _ _ Hi Hx) as (r & Hr & Hs). destruct (destroy_refines _ _ Hs) as (st & Hd & Hal).
  cbn. rewrite Hr. cbn. rewrite Hd. cbn. rewrite Hal. eexists. split; [done|]. destruct Hi as [V L K]. split; cbn; [|done|lia].
  intros z. destruct (decide (z = x)) as [->|Hne]; [by rewrite !lookup_delete_eq|]. rewrite !lookup_delete_ne by done. apply V.
Qed.

Lemma stmt_implements s a c a' : implements s a -> sum_stmt a c = Some a' -> exists s', run_stmt s c = Ok s' /\ implements s' a'.
Proof.
  intros Hi. destruct c; cbn [sum_stmt run_stmt];
    eauto using apply_implements, copy_means, map_means, map_result_means, map_error_means, then_means, otherwise_means, or_else_means, move_implements, destroy_implements.
  destruct (fst a !! x); [done|]. intros [= <-]. eexists. split; [done|].
  pose proof (implements_store s a x (of_sum v) (Some v) (vs_log s) [] Hi (of_sum_ok v)) as H1. rewrite app_nil_r in H1.
  apply H1, (im_log _ _ Hi).
Qed.

(** C39: a [Result] is a sum. Every program over results that a program over sums
    allows (a moved-from variable is only destroyed) runs without reading or
    destroying an object that does not live in its storage; every variable
    stands for its sum, the callbacks were called exactly when and with what the
    sums say, and no destructor left an object behind. It holds of the general
    template and of the one for [void]. *)
Theorem result_refines_sum l m log : sum_run (∅, []) l = Some (m, log) ->
  exists s, foldM run_stmt (mkVars ∅ [] 0) l = Ok s /\ vs_leaks s = 0%nat /\ vs_log s = log /\
    dom (vs_results s) = dom m /\ forall x o, m !! x = Some o -> exists r, vs_results s !! x = Some r /\ stands_for r o.
Proof.
  assert (Hrun : forall l s a a', implements s a -> sum_run a l = Some a' -> exists s', foldM run_stmt s l = Ok s' /\ implements s' a').
  { clear. induction l as [|c l IH]; cbn; intros s a a' Hi Ha; [injection Ha as <-; by exists s|].
    destruct (sum_stmt a c) as [a1|] eqn:Hc; [|done]. destruct (stmt_implements _ _ _ _ Hi Hc) as (s1 & Hs & Hi1). rewrite Hs. cbn. by apply (IH s1 a1). }
  intros Ha. destruct (Hrun l (mkVars ∅ [] 0) (∅, []) (m, log)) as (s & Hs & [V L K]); [by split|done|].
  exists s. split; [done|]. split; [done|]. split; [done|]. split.
  - apply set_eq. intros x. rewrite !elem_of_dom. specialize (V x). cbn in V. destruct (vs_results s !! x), (m !! x); split; intros [? ?]; try done; eauto.
  - intros x o Hx. specialize (V x). cbn in V. rewrite Hx in V. destruct (vs_results s !! x) as [r|]; [by exists r|done].
Qed.
End programs.

Definition example_program : list (@stmt Z bool) :=
  [SMake 0 (inl 5); SMapResult 1 0 (fun v => if v <? 3 then inl v else inr true); SMap 2 1 (fun v => v + 1); SOrElse 3 2 (fun e => inl 9);
   SMove 4 3; SThen 5 4; SDestroy 3; SDestroy 2].

Lemma result_refines_sum_witness : exists s, foldM (run_stmt (S := Storage Z bool)) (mkVars ∅ [] 0) example_program = Ok s /\ vs_leaks s = 0%nat /\
  vs_log s = [inl 5; inr true; inl 9] /\ dom (vs_results s) = {[0; 1; 4; 5]}.
Proof.
  destruct (result_refines_sum (S := Storage Z bool) example_program
    {[0 := Some (inl 5); 1 := Some (inr true); 4 := Some (inl 9); 5 := Some (inl 9)]} [inl 5; inr true; inl 9]) as (s & H1 & H2 & H3 & H4 & _).
  - vm_compute. reflexivity.
  - exists s. split; [exact H1|]. split; [exact H2|]. split; [exact H3|]. rewrite H4. vm_compute. reflexivity.
Defined.

(** ** What goes wrong *)

(** Comparing a value with an error returns nothing. *)
Lemma eq_mixed_undefined {T E S} `{ResultStorage T E S} eq_t eq_e (lhs rhs : Result S) : isOk lhs <> isOk rhs -> Result_eq eq_t eq_e lhs rhs = Undef.
Proof. unfold Result_eq, isErr, isOk. by destruct (ok_ lhs), (ok_ rhs). Qed.

(** A moved-from result says that it has a value, and reading it is undefined. *)
Lemma moved_from_unwrap_undefined {T E} (v : T) : exists r d, Result_move (S := Storage T E) (Result_Ok v) = Ok (r, d) /\ isOk r = true /\ unwrap r = Undef.
Proof. by eexists _, _. Qed.
